(* ===== verification/_CoqProject ===== *)
-Q . S2P
Prelude.v
Spinlock.v
Str.v
Digits.v
Ptable.v
PtableLists.v
Sched.v
Choice.v
Scheduling.v
Wakeups.v
ProcInfo.v
Services.v
Kalloc.v
Bio.v
BioRing.v
BioFacts.v
BioProps.v
Irq.v
Ide.v
IdeFacts.v
IdeProps.v
BufSpec.v
DiskFmt.v
Log.v
LogFacts.v
Crash.v
Txn.v
LogProps.v
Fs.v
FsProps.v
FsRead.v
File.v
FileProps.v
Vm.v
VmFacts.v
VmSpace.v
VmUser.v
VmCopy.v
VmExample.v
VmProps.v
ProcLife.v
Layers.v
ForkFacts.v
WaitFacts.v
ProcProps.v
UserInit.v
Syscall.v
Exec.v
Sysfile.v
SyscallProps.v
Console.v
ConsoleFacts.v
ConsoleProps.v
Kbd.v
Rtc.v
Trap.v
Umalloc.v
UmallocFacts.v
UmallocProps.v
Ulib.v
Grep.v
Sh.v
ShFacts.v
ShShow.v
ShLine.v
ShProps.v
ShRun.v
ShMain.v
ShSession.v
Mkfs.v
MkfsFacts.v
MkfsBuild.v
MkfsProps.v
Programs.v
Boot.v
Mp.v
Seg.v
Asm.v
AsmProps.v
Startup.v
