(* ===== verification/Prelude.v ===== *)
(** * An xv6 kernel with priority scheduling: a verification development

    The program (src/code) is the x86 teaching kernel xv6, extended with three
    ready lists, priorities, a free list of process slots, user and group ids and a
    process listing, together with its boot loader, its shell, some user programs
    and the program that builds the first file system.  The build defines
    CS333_SCHEDULER and no other macro; code under macros that are set nowhere is
    not compiled and is not modelled.

    ** How the code is modelled

    A C function is a definition of the same name in the monad [K] of this file: a
    computation over a state that returns, panics, faults on a bad pointer, runs out
    of the fuel of a loop, or hands over the processor ([Switch]) with the rest of
    the thread as a continuation.  A pointer to an element of a static array is the
    index, the null pointer [None] or 0; unsigned integers are in Z with their
    wrap-around written out; memory is a function from addresses to bytes.

    The kernel's state is built in layers, each a record around the one below:
    [pst] (CPU, locks, process table), [kst] (memory and free pages), [bst] (buffers
    and disk), [lst] (log), [ist] (inode cache), [vst] (open files and pipes), [sst]
    (the clock).  What a component uses of the layers below it is the class [KOps]
    (locks, sleep and wakeup, the current process) with the laws [KLaws]; the process
    table implements it and every layer inherits it through a lens (Services.v).  The
    laws let other threads run whenever a thread sleeps, so a property of code that
    sleeps holds under interference; [wps] is the weakest precondition that also
    knows the state in which the thread was last resumed.  The class [KWake] says
    which processes a wakeup makes ready.  Trap.v puts the whole together.

    ** The files

    - Prelude.v (below): sizes of param.h, machine words, the monad, its weakest
      preconditions, loops, lists, tactics and hint databases.
    - Spinlock.v: spinlock.c as one CPU sees it, and [Module Smp], the interleaving
      of the memory operations of many CPUs.  Str.v: string.c.  Digits.v: the digit
      loop shared by console.c and printf.c.
    - Ptable.v: the lower half of proc.c.  PtableLists.v, Sched.v and Choice.v carry
      its invariant; Scheduling.v and ProcInfo.v have the theorems.  Wakeups.v: a
      process that sleeps, the scheduler of its CPU and a waker on another CPU,
      interleaved at every operation on a lock.
    - Services.v: the interface between proc.c and the rest.
    - Kalloc.v: kalloc.c.  Vm.v: vm.c; VmFacts.v, VmSpace.v, VmUser.v, VmCopy.v
      and VmProps.v its theorems, VmExample.v an example.
    - Bio.v: bio.c over memide.c; BioRing.v, BioFacts.v, BioProps.v, and BufSpec.v,
      the contracts its callers use.  Ide.v, IdeFacts.v, IdeProps.v: ide.c, with the
      drive as an interface.  Irq.v: picirq.c, ioapic.c, timer.c.
    - DiskFmt.v: integers in disk blocks.  Log.v: log.c; LogFacts.v, Crash.v, Txn.v,
      LogProps.v.  Fs.v: fs.c; FsProps.v, FsRead.v.  File.v: file.c and pipe.c;
      FileProps.v.
    - ProcLife.v: the upper half of proc.c (fork, exit, wait, ...); Layers.v,
      ForkFacts.v, WaitFacts.v, ProcProps.v, and UserInit.v for userinit.
    - Syscall.v: syscall.c and sysproc.c; Exec.v: exec.c; Sysfile.v: sysfile.c;
      SyscallProps.v.  Console.v: console.c and uart.c; ConsoleFacts.v,
      ConsoleProps.v.  Kbd.v: kbd.c.  Rtc.v: the clock part of lapic.c.  Trap.v:
      trap.c and the system call table.
    - Umalloc.v, UmallocFacts.v, UmallocProps.v: umalloc.c.  Ulib.v: ulib.c and
      printf.c.  Grep.v: grep.c.  Sh.v, ShRun.v and ShMain.v: parser, running and
      main loop of sh.c; ShFacts.v, ShShow.v, ShLine.v, ShProps.v, ShSession.v.
      Mkfs.v, MkfsFacts.v, MkfsBuild.v, MkfsProps.v: mkfs.c.  Programs.v: cat.c,
      wc.c, ls.c, init.c and the other small programs, against the system calls as a
      class [Sys].
    - Boot.v: bootmain.c.  Mp.v: mp.c.  Seg.v: the descriptors of mmu.h, tvinit,
      idtinit and seginit.  Asm.v and AsmProps.v: the instructions of swtch.S,
      trapasm.S, usys.S and initcode.S and the entries vectors.pl writes, on a small
      model of the processor.  Startup.v: the local APIC part of lapic.c, and
      startothers of main.c.

    ** What the theorems show

    - Processes: the scheduler runs the head of the first non-empty ready list; no
      wakeup is lost, however a sleeper and a waker on another CPU interleave;
      wakeup, yield, kill, priorities and the periodic reset do to the
      lists what their comments say; fork makes a runnable copy; wait frees what the
      child owned, but loses its slot; userinit leaves the first process, and no
      other, ready to run.
    - Entry and switch: a thread that calls swtch finds its registers and stack again
      when it is switched back to; a new process enters its program with its trap
      frame's registers; a system call carries number, arguments and result between
      stub and kernel; an interrupt of the kernel changes no register of the code it
      interrupts.
    - Mutual exclusion of spinlocks under every interleaving.
    - Memory: no page is handed out twice; page tables map what they should;
      copying and freeing an address space, with the pages each gives back; system
      call arguments are read inside the process, except for a negative size.
    - Storage: buffers are coherent and exclusive; the disk driver serves its queue and
      wakes who waits for it; an operation enters the log only when there is room; a
      transaction is atomic under crashes at any point, recovery included; the inode
      cache counts references; readi returns the content of a file; mkfs builds an
      image from which the kernel reads the files it was given.
    - Devices: pipes are bounded queues, the console is a line discipline, the clock
      is read consistently, the interrupt table lets a user program reach the system
      call entry only.
    - Start: the boot loader loads the kernel's segments; the processors of the BIOS's
      table are registered and started, each with a stack of its own, whatever the order of
      their steps and the starter's.
    - User programs: malloc and free keep blocks apart; grep decides the language of
      its patterns; the shell parses every line, reads back every command written in
      its grammar, and runs what is typed, forking, waiting and connecting
      pipes as the commands say; cat copies and wc counts the files they are
      given, however read cuts them up.
    - Errors: where the code does not do what it means to, the failing behaviour is a
      theorem (removal of the last of a ready list, a zombie in the listing, the log
      reservation, an unknown entry in the BIOS's table).

    ** Fuel and bounds

    The fuel of a loop is computed from what it iterates over (the table's length,
    the bytes asked for, the sectors of a segment), and the theorems show that the
    code returns, so that the fuel suffices.  Where the code waits for another
    thread or a device the number of vain rounds is an argument ([retries], [polls])
    and theorems hold for every number that the environment does not exceed; the
    clock's and the local APIC's theorems say when that is.  In Wakeups.v the
    loop around [sleep] has fuel for two rounds or more, which is enough, and a round
    of the scheduler passes at most three lists and the end.  [mpinit] has no such bound:
    it is shown to loop for ever on some tables.

    ** What is outside

    Hardware is a parameter with the behaviour its manual documents: the ATA drive
    ([Ata] in Ide.v, where nothing is promised of a busy drive; [drive_lba] and
    [drive_ready] in Boot.v), the clock chip, the local APIC; when another processor
    makes its steps while it is started ([slots] in Startup.v) is arbitrary.  The 8259A
    chips, the processor's reading of descriptors, its instructions and what it does on
    an interrupt ([istep] and [trap_in] in Asm.v) are definitions taken from the
    manuals.  The linker's symbols, among them the addresses in the generated vectors.S,
    are parameters.  The C code and the assembly meet in the trap frame and the
    context: to the C code they are records of a process, to the assembly words on a
    stack ([read_tf], [read_ctx]); that a compiled [trap] keeps the frame it does not
    assign and the stack pointer is a hypothesis of the theorems in AsmProps.v.

    Not modelled: bootasm.S, entry.S and most of entryother.S, which switch the
    processor's modes and turn paging on; main, which calls the components'
    initialisation in turn; uartinit; the text a panic prints; the test programs
    (usertests.c, forktest.c, stressfs.c and the tests of the extensions), which are
    clients of the system and no part of it; the main of time.c, which copies its
    arguments through uninitialised pointers, and that of grep.c; sh-orig.c, which is
    not compiled; scripts.

    ** This file

    - the sizes of [param.h];
    - 32-bit machine words ([u32], [i32]) and the byte view of words;
    - [outcome] and [K];
    - [wpo]/[wp], the weakest precondition of such computations, parametric in
      what a thread guarantees when it gives up the processor and in what it
      may rely on when it gets it back;
    - loops over arrays, list lemmas, tactics and hint databases. *)
From Stdlib Require Import ZArith Lia.
From stdpp Require Export strings countable base numbers gmap list.
From stdpp Require Import options.

#[global] Open Scope Z_scope.
#[global] Unset Default Goal Selector.

(** ** fcntl.h, used by the kernel and by user programs *)

Definition O_RDONLY : Z := 0x000.
Definition O_WRONLY : Z := 0x001.
Definition O_RDWR : Z := 0x002.
Definition O_CREATE : Z := 0x200.

(** ** Sizes of param.h *)

Definition NPROC : nat := 64.
Definition KSTACKSIZE : Z := 4096.
Definition NCPU : nat := 8.
Definition NOFILE : nat := 16.
Definition NFILE : nat := 100.
Definition NINODE : nat := 50.
Definition NDEV : Z := 10.
Definition ROOTDEV : Z := 1.
Definition MAXARG : nat := 32.
Definition MAXOPBLOCKS : Z := 10.
Definition LOGSIZE : Z := MAXOPBLOCKS * 3.
Definition NBUF : nat := 30.
Definition FSSIZE : Z := 1000.

(** ** Machine words *)

(** [uint]: arithmetic modulo 2^32. *)
Definition u32 (z : Z) : Z := z `mod` 2 ^ 32.

(** [int]: two's complement, the representative in [-2^31, 2^31). *)
Definition i32 (z : Z) : Z := (z + 2 ^ 31) `mod` 2 ^ 32 - 2 ^ 31.

(** [uchar] and [ushort]. *)
Definition u8 (z : Z) : Z := z `mod` 2 ^ 8.
Definition u16 (z : Z) : Z := z `mod` 2 ^ 16.
Definition i16 (z : Z) : Z := (z + 2 ^ 15) `mod` 2 ^ 16 - 2 ^ 15.

(** ** Outcomes of kernel code *)

Inductive outcome (S A : Type) : Type :=
| Ok (a : A) (s : S)
| Panic (msg : string)
| Fault
| Diverge
| Switch (s : S) (k : S → outcome S A).
Arguments Ok {S A} a s.
Arguments Panic {S A} msg.
Arguments Fault {S A}.
Arguments Diverge {S A}.
Arguments Switch {S A} s k.

Definition K (S A : Type) : Type := S → outcome S A.

Fixpoint obind {S A B} (o : outcome S A) (f : A → K S B) : outcome S B :=
  match o with
  | Ok a s => f a s
  | Panic msg => Panic msg
  | Fault => Fault
  | Diverge => Diverge
  | Switch s k => Switch s (λ s', obind (k s') f)
  end.

#[global] Instance K_ret S : MRet (K S) := λ A a s, Ok a s.
#[global] Instance K_bind S : MBind (K S) := λ A B f m s, obind (m s) f.

Definition get {S} : K S S := λ s, Ok s s.
Definition gets {S A} (f : S → A) : K S A := λ s, Ok (f s) s.
Definition modify {S} (f : S → S) : K S unit := λ s, Ok tt (f s).
Definition panic {S A} (msg : string) : K S A := λ _, Panic msg.
Definition fault {S A} : K S A := λ _, Fault.
Definition diverge {S A} : K S A := λ _, Diverge.

(** Reading through a possibly null pointer. *)
Definition deref {S A} (o : option A) : K S A :=
  λ s, match o with Some a => Ok a s | None => Fault end.

(** [if(c) panic(msg);] *)
Definition panic_if {S} (c : bool) (msg : string) : K S unit :=
  if c then panic msg else mret tt.

(** ** Lenses: a component running inside a larger state *)

Class Lens (S T : Type) := { view : S → T; put : T → S → S }.

Class LensOk (S T : Type) {L : Lens S T} := {
  view_put : ∀ t s, view (put t s) = t;
  put_put : ∀ t t' (s : S), put t (put t' s) = put t s;
  put_view : ∀ s : S, put (view s) s = s
}.

Fixpoint olift {S T A} {L : Lens S T} (s0 : S) (o : outcome T A) : outcome S A :=
  match o with
  | Ok a t => Ok a (put t s0)
  | Panic msg => Panic msg
  | Fault => Fault
  | Diverge => Diverge
  | Switch t k => Switch (put t s0) (λ s', olift s' (k (view s')))
  end.

Definition lift {S T A} {L : Lens S T} (m : K T A) : K S A :=
  λ s, olift s (m (view s)).

(** ** Loops *)

(** [for(x in l) body(x);] *)
Fixpoint for_each {S A} (l : list A) (body : A → K S unit) : K S unit :=
  match l with
  | [] => mret tt
  | x :: l' => body x;; for_each l' body
  end.

(** A loop whose body may leave the function by a [return]. *)
Fixpoint for_ret {S A R} (l : list A) (body : A → K S (option R)) : K S (option R) :=
  match l with
  | [] => mret None
  | x :: l' =>
      r ← body x;
      match r with Some v => mret (Some v) | None => for_ret l' body end
  end.

(** [while(cond) body], at most [fuel] iterations: the condition reads the
    state, a loop that is still running when the fuel is gone diverges. *)
Fixpoint while {S X} (fuel : nat) (step : X → K S (X + X)) (x : X) : K S X :=
  match fuel with
  | O => diverge
  | S n =>
      r ← step x;
      match r with inl x' => while n step x' | inr y => mret y end
  end.

(** ** Weakest preconditions *)

(** What a thread guarantees when it gives up the processor, what it relies on
    about the state in which it resumes, and whether running out of loop fuel
    is tolerated. *)
Record env (S : Type) := Env {
  guar : S → Prop;
  rely : S → S → Prop;
  may_diverge : Prop
}.
Arguments Env {S} guar rely may_diverge.
Arguments guar {S} e.
Arguments rely {S} e.
Arguments may_diverge {S} e.

(** Straight-line code: never gives up the processor, always returns. *)
Definition total {S} : env S := Env (λ _, False) (λ _ _, True) False.

Fixpoint wpo {S A} (E : env S) (Q : A → S → Prop) (o : outcome S A) : Prop :=
  match o with
  | Ok a s => Q a s
  | Panic _ => False
  | Fault => False
  | Diverge => may_diverge E
  | Switch s k => guar E s ∧ ∀ s', rely E s s' → wpo E Q (k s')
  end.

Definition wp {S A} (E : env S) (m : K S A) (Q : A → S → Prop) (s : S) : Prop :=
  wpo E Q (m s).

(** The same with the state in which the thread last got the processor: [s0] at
    the start, later the one in which it was last resumed. *)
Fixpoint wpso {S A} (E : env S) (Q : S → A → S → Prop) (s0 : S) (o : outcome S A) : Prop :=
  match o with
  | Ok a s => Q s0 a s
  | Panic _ => False
  | Fault => False
  | Diverge => may_diverge E
  | Switch s k => guar E s ∧ ∀ s', rely E s s' → wpso E Q s' (k s')
  end.

Definition wps {S A} (E : env S) (m : K S A) (Q : S → A → S → Prop) (s0 s : S) : Prop :=
  wpso E Q s0 (m s).

Create HintDb kernel.

(** ** The program logic *)

Section wp_rules.
Context {S : Type}.
Implicit Types (E : env S) (s : S).

Lemma wpo_mono {A} E (Q Q' : A → S → Prop) o :
  (∀ a s, Q a s → Q' a s) → wpo E Q o → wpo E Q' o.
Proof. induction o as [| | | |s k IH]; naive_solver. Qed.

Lemma wp_mono {A} E (m : K S A) Q Q' s :
  (∀ a s', Q a s' → Q' a s') → wp E m Q s → wp E m Q' s.
Proof. apply wpo_mono. Qed.

Lemma wpo_bind {A B} E (o : outcome S A) (f : A → K S B) Q :
  wpo E (λ a s, wp E (f a) Q s) o → wpo E Q (obind o f).
Proof. induction o as [| | | |s k IH]; simpl; auto. naive_solver. Qed.

Lemma wp_bind {A B} E (m : K S A) (f : A → K S B) Q s :
  wp E m (λ a s', wp E (f a) Q s') s → wp E (m ≫= f) Q s.
Proof. apply wpo_bind. Qed.

Lemma wp_ret {A} E (a : A) Q s : Q a s → wp E (mret a) Q s.
Proof. done. Qed.

Lemma wp_gets {A} E (f : S → A) Q s : Q (f s) s → wp E (gets f) Q s.
Proof. done. Qed.

Lemma wp_get E Q s : Q s s → wp E get Q s.
Proof. done. Qed.

Lemma wp_modify E f Q s : Q tt (f s) → wp E (modify f) Q s.
Proof. done. Qed.

Lemma wp_deref {A} E (o : option A) a Q s :
  o = Some a → Q a s → wp E (deref o) Q s.
Proof. by intros ->. Qed.

Lemma wp_panic_if E (c : bool) msg Q s :
  c = false → Q tt s → wp E (panic_if c msg) Q s.
Proof. by intros ->. Qed.

(** Straight-line code that satisfies its [wp] returns, and conversely. *)
Lemma wp_total_ok {A} (m : K S A) Q s :
  wp total m Q s ↔ ∃ a s', m s = Ok a s' ∧ Q a s'.
Proof.
  unfold wp. split.
  - destruct (m s); simpl; try done; naive_solver.
  - by intros (a & s' & -> & HQ).
Qed.

Lemma wp_run (m : K S unit) (P : S → Prop) s :
  wp total m (λ _, P) s → ∃ s', m s = Ok tt s' ∧ P s'.
Proof. rewrite wp_total_ok. intros ([] & s' & H). eauto. Qed.

Lemma wp_run_val {A} (m : K S A) v (P : S → Prop) s :
  wp total m (λ a s', a = v ∧ P s') s → ∃ s', m s = Ok v s' ∧ P s'.
Proof. rewrite wp_total_ok. intros (a & s' & H & -> & HP). eauto. Qed.

(** Straight-line code may be used in any environment. *)
Lemma wp_total {A} E (m : K S A) Q s : wp total m Q s → wp E m Q s.
Proof. rewrite wp_total_ok. unfold wp. by intros (a & s' & -> & HQ). Qed.

Lemma wp_ok {A} E (m : K S A) (Q : A → S → Prop) s a s' :
  m s = Ok a s' → Q a s' → wp E m Q s.
Proof. unfold wp. by intros ->. Qed.

(** The rules with the state of the last resumption. *)
Lemma wpso_mono {A} E (Q Q' : S → A → S → Prop) s0 o :
  (∀ s0 a s, Q s0 a s → Q' s0 a s) → wpso E Q s0 o → wpso E Q' s0 o.
Proof. revert s0. induction o as [| | | |s k IH]; naive_solver. Qed.

Lemma wps_bind {A B} E (m : K S A) (f : A → K S B) Q s0 s :
  wps E m (λ s1 a s', wps E (f a) Q s1 s') s0 s → wps E (m ≫= f) Q s0 s.
Proof.
  unfold wps, mbind, K_bind. generalize (m s) as o. intros o. revert s0.
  induction o as [a1 s1| | | |s1 k IH]; intros s2; simpl; auto. naive_solver.
Qed.

Lemma wps_ok {A} E (m : K S A) (Q : S → A → S → Prop) s0 s a s' :
  m s = Ok a s' → Q s0 a s' → wps E m Q s0 s.
Proof. unfold wps. by intros ->. Qed.

(** A loop over a list, with an invariant on the elements still to visit. *)
Lemma wp_for_each {A} E (I : list A → S → Prop) (body : A → K S unit) Q l s :
  I l s →
  (∀ x l' s', (∃ l0, l = l0 ++ x :: l') → I (x :: l') s' →
     wp E (body x) (λ _ s'', I l' s'') s') →
  (∀ s', I [] s' → Q tt s') →
  wp E (for_each l body) Q s.
Proof.
  intros HI Hbody HQ. revert s HI Hbody.
  induction l as [|x l IH]; intros s HI Hbody; simpl.
  - apply wp_ret; auto.
  - apply wp_bind. eapply wp_mono; [|apply Hbody; [by exists []|done]].
    intros [] s' HI'. simpl. apply IH; [done|].
    intros y l' s'' [l0 ->] ?. apply Hbody; [by exists (x :: l0)|done].
Qed.

(** A loop that returns from its body at the first element of interest. *)
Lemma wp_for_ret {A R} E (I : list A → S → Prop) (body : A → K S (option R)) Q l s :
  I l s →
  (∀ x l' s', (∃ l0, l = l0 ++ x :: l') → I (x :: l') s' →
     wp E (body x)
       (λ r s'', match r with Some v => Q (Some v) s'' | None => I l' s'' end) s') →
  (∀ s', I [] s' → Q None s') →
  wp E (for_ret l body) Q s.
Proof.
  intros HI Hbody HQ. revert s HI Hbody.
  induction l as [|x l IH]; intros s HI Hbody; simpl.
  - apply wp_ret; auto.
  - apply wp_bind. eapply wp_mono; [|apply Hbody; [by exists []|done]].
    intros [v|] s' HI'; simpl in *; [by apply wp_ret|]. apply IH; [done|].
    intros y l' s'' [l0 ->] ?. apply Hbody; [by exists (x :: l0)|done].
Qed.

(** A fuelled loop with a decreasing measure always finishes. *)
Lemma wp_while {X} E (I : nat → X → S → Prop) (step : X → K S (X + X)) Q fuel x s n :
  (n < fuel)%nat →
  I n x s →
  (∀ n x s, I n x s →
     wp E (step x)
       (λ r s', match r with
                | inl x' => ∃ n', (n' < n)%nat ∧ I n' x' s'
                | inr y => Q y s'
                end) s) →
  wp E (while fuel step x) Q s.
Proof.
  intros Hn HI Hstep. revert n x s Hn HI.
  induction fuel as [|fuel IH]; intros n x s Hn HI; [lia|]. simpl.
  apply wp_bind. eapply wp_mono; [|apply (Hstep n x s HI)].
  intros [x'|y] s' Hr; simpl in *; [|by apply wp_ret].
  destruct Hr as (n' & Hlt & HI'). apply (IH n'); [lia|done].
Qed.
End wp_rules.

Section lift_rules.
Context {S T : Type} {L : Lens S T} {LO : LensOk S T}.

Lemma wpo_lift {A} (Q : A → S → Prop) s (o : outcome T A) :
  wpo total (λ a t, Q a (put t s)) o → wpo total Q (olift s o).
Proof. destruct o; simpl; naive_solver. Qed.

Lemma wp_lift {A} E (m : K T A) (Q : A → S → Prop) s :
  wp total m (λ a t, Q a (put t s)) (view s) → wp E (lift m) Q s.
Proof. intros H. apply wp_total. by apply wpo_lift. Qed.
End lift_rules.

(** Equational forms of the monad, for running code forwards. *)
Lemma bind_ok {S A B} (m : K S A) (f : A → K S B) s a s' :
  m s = Ok a s' → (m ≫= f) s = f a s'.
Proof. intros H. unfold mbind, K_bind. by rewrite H. Qed.

Lemma bind_fault {S A B} (m : K S A) (f : A → K S B) s :
  m s = Fault → (m ≫= f) s = Fault.
Proof. intros H. unfold mbind, K_bind. by rewrite H. Qed.

Lemma bind_panic {S A B} (m : K S A) (f : A → K S B) s msg :
  m s = Panic msg → (m ≫= f) s = Panic msg.
Proof. intros H. unfold mbind, K_bind. by rewrite H. Qed.

Lemma gets_ok {S A} (f : S → A) s : gets f s = Ok (f s) s.
Proof. done. Qed.

Lemma modify_ok {S} (f : S → S) s : modify f s = Ok tt (f s).
Proof. done. Qed.

Lemma deref_some {S A} (a : A) (s : S) : deref (Some a) s = Ok a s.
Proof. done. Qed.

Lemma while_ok {S X} fuel (step : X → K S (X + X)) x s r s' :
  step x s = Ok r s' →
  while (Datatypes.S fuel) step x s =
    match r with inl x' => while fuel step x' s' | inr y => Ok y s' end.
Proof. intros H. cbn [while]. rewrite (bind_ok _ _ _ _ _ H). by destruct r. Qed.

Lemma while_fault {S X} fuel (step : X → K S (X + X)) x s :
  step x s = Fault → while (Datatypes.S fuel) step x s = Fault.
Proof. intros H. cbn [while]. by rewrite (bind_fault _ _ _ H). Qed.

(** A search loop that does not find, and one that stops at [x]. *)
Lemma for_ret_none {S A R} (l : list A) (body : A → K S (option R)) s :
  (∀ x, x ∈ l → body x s = Ok None s) → for_ret l body s = Ok None s.
Proof.
  induction l as [|x l IH]; intros H; [done|]. cbn [for_ret].
  rewrite (bind_ok _ _ _ _ _ (H x ltac:(set_solver))). apply IH. set_solver.
Qed.

Lemma for_ret_stop {S A R} (l1 l2 : list A) x (body : A → K S (option R)) s :
  (∀ y, y ∈ l1 → body y s = Ok None s) →
  for_ret (l1 ++ x :: l2) body s =
    obind (body x s) (λ r, match r with Some v => mret (Some v) | None => for_ret l2 body end).
Proof.
  induction l1 as [|y l1 IH]; intros H; [done|]. cbn [for_ret app].
  rewrite (bind_ok _ _ _ _ _ (H y ltac:(set_solver))). apply IH. set_solver.
Qed.

Lemma for_ret_app {S A R} (l1 l2 : list A) (body : A → K S (option R)) s s' :
  for_ret l1 body s = Ok None s' → for_ret (l1 ++ l2) body s = for_ret l2 body s'.
Proof.
  revert s. induction l1 as [|a l1 IH]; intros s; [cbn; intros H; by inversion H|].
  cbn [for_ret app]. unfold mbind, K_bind. destruct (body a s) as [[v|] s1| | | |]; cbn; try done.
  apply IH.
Qed.

(** ** Words *)

Lemma u32_range z : 0 ≤ u32 z < 2 ^ 32.
Proof. unfold u32. apply Z.mod_pos_bound. lia. Qed.

Lemma u32_small z : 0 ≤ z < 2 ^ 32 → u32 z = z.
Proof. unfold u32. apply Z.mod_small. Qed.

Lemma i32_range z : - 2 ^ 31 ≤ i32 z < 2 ^ 31.
Proof. unfold i32. pose proof (Z.mod_pos_bound (z + 2 ^ 31) (2 ^ 32)). lia. Qed.

Lemma i32_small z : - 2 ^ 31 ≤ z < 2 ^ 31 → i32 z = z.
Proof. intros. unfold i32. rewrite Z.mod_small; lia. Qed.

#[export] Hint Resolve u32_range i32_range : kernel.

(** ** Lists *)

Lemma elem_of_seq0 (n i : nat) : i ∈ seq 0 n ↔ (i < n)%nat.
Proof. rewrite elem_of_seq. lia. Qed.

Lemma seq_split (n x : nat) :
  (x < n)%nat → seq 0 n = seq 0 x ++ x :: seq (S x) (n - S x).
Proof.
  intros. replace n with (x + S (n - S x))%nat at 1 by lia. by rewrite seq_app.
Qed.

(** Pulling one list out of a list of lists, up to permutation. *)
Lemma concat_lookup {A} (Q : list (list A)) i l :
  Q !! i = Some l → concat Q ≡ₚ l ++ concat (delete i Q).
Proof.
  revert i. induction Q as [|k Q IH]; intros [|i] H; simplify_eq/=; [done|].
  rewrite (IH i H). by rewrite !app_assoc, (Permutation_app_comm k l).
Qed.

Lemma concat_insert {A} (Q : list (list A)) i l :
  (i < length Q)%nat → concat (<[i := l]> Q) ≡ₚ l ++ concat (delete i Q).
Proof.
  revert i. induction Q as [|k Q IH]; intros [|i] H; simpl in *; [lia|lia|done|].
  rewrite IH by lia. by rewrite !app_assoc, (Permutation_app_comm k l).
Qed.

Lemma elem_of_concat {A} (Q : list (list A)) x :
  x ∈ concat Q ↔ ∃ i l, Q !! i = Some l ∧ x ∈ l.
Proof.
  induction Q as [|k Q IH]; simpl.
  - split; [by intros ?%not_elem_of_nil|]. intros (i & l & H & _). by rewrite lookup_nil in H.
  - rewrite elem_of_app, IH. split.
    + intros [?|(i & l & ? & ?)]; [by exists 0%nat, k|by exists (S i), l].
    + intros ([|i] & l & ? & ?); simplify_eq/=; [auto|right; eauto].
Qed.

Lemma list_lookup_alter_Some {A} (f : A → A) (l : list A) i j x :
  alter f i l !! j = Some x ↔
    (i = j ∧ ∃ y, l !! j = Some y ∧ x = f y) ∨ (i ≠ j ∧ l !! j = Some x).
Proof.
  destruct (decide (i = j)) as [->|].
  - rewrite list_lookup_alter_eq. destruct (l !! j) as [y|]; simpl; naive_solver.
  - rewrite list_lookup_alter_ne by done. naive_solver.
Qed.

Lemma alter_alter {A} (f g : A → A) i (l : list A) : alter f i (alter g i l) = alter (λ x, f (g x)) i l.
Proof.
  apply list_eq. intros j. destruct (decide (i = j)) as [->|].
  - rewrite !list_lookup_alter_eq. by destruct (l !! j).
  - by rewrite !list_lookup_alter_ne.
Qed.

Lemma alter_insert {A} (f : A → A) i (l : list A) x : l !! i = Some x → alter f i l = <[i := f x]> l.
Proof.
  intros H. apply list_eq. intros j. destruct (decide (i = j)) as [->|].
  - rewrite list_lookup_alter_eq, H, list_lookup_insert_eq; [done|by eapply lookup_lt_Some].
  - by rewrite list_lookup_alter_ne, list_lookup_insert_ne.
Qed.

(** ** Step relations *)

Lemma rtc_preserves {A} (R : relation A) (P : A → Prop) x y :
  (∀ a b, P a → R a b → P b) → rtc R x y → P x → P y.
Proof. intros HP. induction 1; eauto. Qed.

(** ** Tactics *)

(** One step of symbolic execution. *)
Ltac wp_step :=
  lazymatch goal with
  | |- wp _ (mbind _ _) _ _ => apply wp_bind
  | |- wp _ (mret _) _ _ => apply wp_ret
  | |- wp _ (gets _) _ _ => apply wp_gets
  | |- wp _ get _ _ => apply wp_get
  | |- wp _ (modify _) _ _ => apply wp_modify
  | |- wp _ (panic_if _ _) _ _ => apply wp_panic_if
  | |- wp _ (deref (Some _)) _ _ => eapply wp_deref; [reflexivity|]
  | |- wp _ (lift _) _ _ => apply wp_lift
  end.
Ltac wp_steps := repeat (wp_step; cbv beta).

(** Run the monad forwards in an equation on [m s]. *)
Ltac krun :=
  cbv beta delta [mbind K_bind mret K_ret gets get modify panic_if panic fault diverge deref];
  cbn [obind negb andb orb].

(** Case analysis on the integer comparisons of the goal. *)
Ltac zcases :=
  repeat match goal with
  | |- context [?a <=? ?b] => destruct (Z.leb_spec a b)
  | |- context [?a <? ?b] => destruct (Z.ltb_spec a b)
  | |- context [?a =? ?b] => destruct (Z.eqb_spec a b)
  end; cbn [andb orb negb]; try (exfalso; lia).
