(* ===== verification/Spinlock.v ===== *)
(** * Spinlocks (spinlock.c, spinlock.h)

    [mach] is what one CPU sees: the kernel's spinlocks, its own identity, its
    interrupt flag and the nesting depth of [pushcli].  [acquire], [release],
    [pushcli] and [popcli] are the functions of spinlock.c on that state.
    [Module Smp] interleaves the individual memory operations of [acquire] and
    [release] of one lock over any number of CPUs.

    The call-stack record [pcs] that [acquire] stores for debugging is not
    modelled. *)
From S2P Require Import Prelude.

(** The locks of the kernel; [Lpipe a] is the lock inside the pipe at kernel
    address [a]. *)
Inductive lockid :=
| Lptable | Lkmem | Lbcache | Licache | Llog | Lftable | Lcons | Lide | Lticks
| Lpipe (a : Z).

#[global] Instance lockid_eq_dec : EqDecision lockid.
Proof. solve_decision. Defined.

Definition lockid_code (l : lockid) : Z + nat :=
  match l with
  | Lptable => inr 0%nat | Lkmem => inr 1%nat | Lbcache => inr 2%nat
  | Licache => inr 3%nat | Llog => inr 4%nat | Lftable => inr 5%nat
  | Lcons => inr 6%nat | Lide => inr 7%nat | Lticks => inr 8%nat
  | Lpipe a => inl a
  end.

Definition lockid_decode (c : Z + nat) : option lockid :=
  match c with
  | inl a => Some (Lpipe a)
  | inr n => [Lptable; Lkmem; Lbcache; Licache; Llog; Lftable; Lcons; Lide; Lticks] !! n
  end.

#[global] Program Instance lockid_countable : Countable lockid :=
  inj_countable lockid_code lockid_decode _.
Next Obligation. by intros []. Qed.

(** ** One CPU *)

(** [struct spinlock]; [cpu] is the holder's CPU number, [None] for 0. *)
Record spinlock := Spinlock {
  locked : Z;
  name : string;
  cpu : option nat
}.

Definition spinlock0 : spinlock := Spinlock 0 "" None.

Definition FL_IF : Z := 0x200.

Record mach := Mach {
  locks : gmap lockid spinlock;
  self : nat;
  eflags : Z;
  ncli : Z;
  intena : Z
}.

Definition lock_of (m : mach) (lk : lockid) : spinlock :=
  default spinlock0 (locks m !! lk).

Definition set_lock (lk : lockid) (v : spinlock) (m : mach) : mach :=
  Mach (<[lk := v]> (locks m)) (self m) (eflags m) (ncli m) (intena m).
Definition set_eflags (z : Z) (m : mach) : mach :=
  Mach (locks m) (self m) z (ncli m) (intena m).
Definition set_ncli (z : Z) (m : mach) : mach :=
  Mach (locks m) (self m) (eflags m) z (intena m).
Definition set_intena (z : Z) (m : mach) : mach :=
  Mach (locks m) (self m) (eflags m) (ncli m) z.

(** x86.h *)
Definition readeflags : K mach Z := gets eflags.
Definition cli : K mach unit := modify (λ m, set_eflags (Z.ldiff (eflags m) FL_IF) m).
Definition sti : K mach unit := modify (λ m, set_eflags (Z.lor (eflags m) FL_IF) m).
Definition xchg (lk : lockid) (v : Z) : K mach Z := λ m,
  let l := lock_of m lk in
  Ok (locked l) (set_lock lk (Spinlock v (name l) (cpu l)) m).

Definition initlock (lk : lockid) (nm : string) : K mach unit :=
  modify (set_lock lk (Spinlock 0 nm None)).

Definition holding (lk : lockid) : K mach bool :=
  gets (λ m, negb (locked (lock_of m lk) =? 0) &&
             bool_decide (cpu (lock_of m lk) = Some (self m))).

Definition pushcli : K mach unit :=
  ef ← readeflags;
  cli;;
  n ← gets ncli;
  modify (set_ncli (n + 1));;
  if n =? 0 then modify (set_intena (Z.land ef FL_IF)) else mret tt.

Definition popcli : K mach unit :=
  ef ← readeflags;
  panic_if (negb (Z.land ef FL_IF =? 0)) "popcli - interruptible";;
  modify (λ m, set_ncli (ncli m - 1) m);;
  n ← gets ncli;
  panic_if (n <? 0) "popcli";;
  ie ← gets intena;
  if (n =? 0) && negb (ie =? 0) then sti else mret tt.

(** The spin loop exchanges until the lock was free; alone on the machine, a
    CPU that finds the lock taken by another one spins for ever. *)
Definition acquire (lk : lockid) : K mach unit :=
  pushcli;;
  h ← holding lk;
  panic_if h "acquire";;
  old ← xchg lk 1;
  (if negb (old =? 0) then diverge else mret tt);;
  modify (λ m, set_lock lk
    (Spinlock (locked (lock_of m lk)) (name (lock_of m lk)) (Some (self m))) m).

Definition release (lk : lockid) : K mach unit :=
  h ← holding lk;
  panic_if (negb h) "release";;
  modify (λ m, set_lock lk
    (Spinlock (locked (lock_of m lk)) (name (lock_of m lk)) None) m);;
  _ ← xchg lk 0;
  popcli.

(** ** What a lock-protected path may assume: the set of locks this CPU holds

    [holds L m]: exactly the locks of [L] are taken, all by this CPU, and
    [ncli] counts them; interrupts are off while it holds any. *)
Record holds (L : gset lockid) (m : mach) : Prop := Holds {
  h_in : ∀ lk, lk ∈ L → locked (lock_of m lk) = 1 ∧ cpu (lock_of m lk) = Some (self m);
  h_out : ∀ lk, lk ∉ L → locked (lock_of m lk) = 0;
  h_ncli : ncli m = Z.of_nat (size L);
  h_if : L ≠ ∅ → Z.land (eflags m) FL_IF = 0
}.

(** ** Many CPUs, one lock

    Each CPU runs [acquire(&lk)], its critical section and [release(&lk)] for
    ever.  A step is one memory operation of one CPU; [pc] says which comes
    next. *)
Module Smp.

Inductive pc :=
| Idle        (* outside the lock *)
| Check       (* in acquire, before holding() loads lk->locked *)
| Check_cpu   (* in acquire, before holding() loads lk->cpu *)
| Spin        (* in acquire, before xchg *)
| Record_cpu  (* in acquire, lock taken, before lk->cpu = cpu *)
| Critical    (* acquire has returned *)
| Check_rel   (* in release, before holding() loads lk->locked *)
| Check_rel_cpu (* in release, before holding() loads lk->cpu *)
| Clear_cpu   (* in release, before lk->cpu = 0 *)
| Unlock      (* in release, before xchg *)
| Panicked (msg : string).

Record smp := Mk { lk_locked : Z; lk_cpu : option nat; pcs : nat → pc }.

Definition set_pc (c : nat) (p : pc) (f : nat → pc) : nat → pc :=
  λ c', if decide (c' = c) then p else f c'.

Inductive step : smp → smp → Prop :=
| st_call s c : pcs s c = Idle →
    step s (Mk (lk_locked s) (lk_cpu s) (set_pc c Check (pcs s)))
| st_check s c : pcs s c = Check →
    step s (Mk (lk_locked s) (lk_cpu s)
      (set_pc c (if lk_locked s =? 0 then Spin else Check_cpu) (pcs s)))
| st_check_cpu s c : pcs s c = Check_cpu →
    step s (Mk (lk_locked s) (lk_cpu s)
      (set_pc c (if bool_decide (lk_cpu s = Some c) then Panicked "acquire" else Spin) (pcs s)))
| st_xchg s c : pcs s c = Spin →
    step s (Mk 1 (lk_cpu s)
      (set_pc c (if lk_locked s =? 0 then Record_cpu else Spin) (pcs s)))
| st_record s c : pcs s c = Record_cpu →
    step s (Mk (lk_locked s) (Some c) (set_pc c Critical (pcs s)))
| st_leave s c : pcs s c = Critical →
    step s (Mk (lk_locked s) (lk_cpu s) (set_pc c Check_rel (pcs s)))
| st_check_rel s c : pcs s c = Check_rel →
    step s (Mk (lk_locked s) (lk_cpu s)
      (set_pc c (if lk_locked s =? 0 then Panicked "release" else Check_rel_cpu) (pcs s)))
| st_check_rel_cpu s c : pcs s c = Check_rel_cpu →
    step s (Mk (lk_locked s) (lk_cpu s)
      (set_pc c (if bool_decide (lk_cpu s = Some c) then Clear_cpu else Panicked "release") (pcs s)))
| st_clear s c : pcs s c = Clear_cpu →
    step s (Mk (lk_locked s) None (set_pc c Unlock (pcs s)))
| st_unlock s c : pcs s c = Unlock →
    step s (Mk 0 (lk_cpu s) (set_pc c Idle (pcs s))).

Definition init : smp := Mk 0 None (λ _, Idle).

(** From taking the lock by [xchg] until giving it back. *)
Definition owns (p : pc) : bool :=
  match p with
  | Record_cpu | Critical | Check_rel | Check_rel_cpu | Clear_cpu | Unlock => true
  | _ => false
  end.

(** Where [lk->cpu] already, or still, names the owner. *)
Definition named (p : pc) : bool :=
  match p with Critical | Check_rel | Check_rel_cpu | Clear_cpu => true | _ => false end.

Record inv (s : smp) : Prop := Inv {
  i_free : lk_locked s = 0 → ∀ c, owns (pcs s c) = false;
  i_held : lk_locked s ≠ 0 → ∃ c, owns (pcs s c) = true;
  i_one : ∀ c c', owns (pcs s c) = true → owns (pcs s c') = true → c = c';
  i_cpu : ∀ c, lk_cpu s = Some c ↔ named (pcs s c) = true;
  i_safe : ∀ c msg, pcs s c ≠ Panicked msg
}.

End Smp.

(** ** Lemmas: the interrupt flag *)

Lemma land_ldiff_IF z : Z.land (Z.ldiff z FL_IF) FL_IF = 0.
Proof. apply Z.bits_inj'. intros n ?. rewrite Z.land_spec, Z.ldiff_spec, Z.bits_0. by destruct (Z.testbit z n), (Z.testbit FL_IF n). Qed.

Lemma ldiff_IF_off z : Z.land z FL_IF = 0 → Z.ldiff z FL_IF = z.
Proof.
  intros H. apply Z.bits_inj'. intros n ?.
  assert (Z.testbit (Z.land z FL_IF) n = false) as Hn by (by rewrite H, Z.bits_0).
  rewrite Z.land_spec in Hn. rewrite Z.ldiff_spec.
  destruct (Z.testbit z n), (Z.testbit FL_IF n); naive_solver.
Qed.

Lemma lor_ldiff_IF_on z : Z.land z FL_IF ≠ 0 → Z.lor (Z.ldiff z FL_IF) FL_IF = z.
Proof.
  intros H.
  assert (Z.testbit z 9 = true) as H9.
  { destruct (Z.testbit z 9) eqn:E; [done|]. exfalso. apply H.
    apply Z.bits_inj'. intros n ?. rewrite Z.land_spec, Z.bits_0.
    destruct (decide (n = 9)) as [->|]; [by rewrite E|].
    change FL_IF with (2 ^ 9). rewrite Z.pow2_bits_false by lia. by rewrite andb_false_r. }
  apply Z.bits_inj'. intros n ?. rewrite Z.lor_spec, Z.ldiff_spec.
  change FL_IF with (2 ^ 9). destruct (decide (n = 9)) as [->|].
  - rewrite H9. by rewrite orb_true_r.
  - rewrite Z.pow2_bits_false by lia. by rewrite andb_true_r, orb_false_r.
Qed.

Lemma lock_of_set lk v m lk' :
  lock_of (set_lock lk v m) lk' = if decide (lk = lk') then v else lock_of m lk'.
Proof.
  unfold lock_of, set_lock. simpl. rewrite lookup_insert. by case_decide.
Qed.

(** ** Running [acquire] and [release] *)

(** The state [pushcli] leaves. *)
Definition pushed (m : mach) : mach :=
  Mach (locks m) (self m) (Z.ldiff (eflags m) FL_IF) (ncli m + 1)
    (if ncli m =? 0 then Z.land (eflags m) FL_IF else intena m).

Lemma pushcli_ok m : pushcli m = Ok tt (pushed m).
Proof.
  unfold pushcli, pushed, set_intena, readeflags, cli. krun. simpl. by destruct (ncli m =? 0).
Qed.

(** The state [acquire] leaves when the lock was free. *)
Definition acquired (lk : lockid) (m : mach) : mach :=
  set_lock lk (Spinlock 1 (name (lock_of m lk)) (Some (self m))) (pushed m).

Lemma holding_eval lk m :
  holding lk m =
  Ok (negb (locked (lock_of m lk) =? 0) && bool_decide (cpu (lock_of m lk) = Some (self m))) m.
Proof. done. Qed.

Lemma acquire_free lk m :
  locked (lock_of m lk) = 0 → acquire lk m = Ok tt (acquired lk m).
Proof.
  intros Hfree. unfold acquire.
  rewrite (bind_ok _ _ _ _ _ (pushcli_ok m)).
  assert (lock_of (pushed m) lk = lock_of m lk) as Hl by done.
  rewrite (bind_ok _ _ _ _ _ (holding_eval lk (pushed m))). rewrite Hl, Hfree.
  change (0 =? 0) with true. unfold xchg. krun. rewrite Hl, Hfree. change (0 =? 0) with true. krun.
  rewrite lock_of_set, decide_True by done. cbn -[lock_of].
  unfold acquired, set_lock. cbn -[lock_of]. by rewrite insert_insert_eq.
Qed.

(** A lock this CPU does not have is free; taking it adds it to the set. *)
Lemma acquired_holds L lk m : holds L m → lk ∉ L → holds ({[lk]} ∪ L) (acquired lk m).
Proof.
  intros [Hin Hout Hn Hif] Hlk. split; unfold acquired.
  - intros lk' H. rewrite lock_of_set. case_decide as Hd; [done|]. simpl. apply Hin. set_solver.
  - intros lk' H. rewrite lock_of_set, decide_False by set_solver. apply Hout. set_solver.
  - cbn. rewrite Hn, size_union by set_solver. rewrite size_singleton. lia.
  - intros _. cbn. apply land_ldiff_IF.
Qed.

Lemma acquire_ok L lk m (Q : unit → mach → Prop) :
  holds L m → lk ∉ L →
  (∀ m', holds ({[lk]} ∪ L) m' → self m' = self m → Q tt m') →
  wp total (acquire lk) Q m.
Proof.
  intros HL Hlk HQ. eapply wp_ok.
  - apply acquire_free. by apply (h_out L m HL).
  - apply HQ; [by apply acquired_holds|done].
Qed.

Lemma acquire_held lk m L : holds L m → lk ∈ L → acquire lk m = Panic "acquire".
Proof.
  intros HL Hlk. destruct (h_in L m HL lk Hlk) as [H1 H2].
  unfold acquire. rewrite (bind_ok _ _ _ _ _ (pushcli_ok m)).
  assert (lock_of (pushed m) lk = lock_of m lk) as Hl by done.
  rewrite (bind_ok _ _ _ _ _ (holding_eval lk (pushed m))). rewrite Hl, H1, H2.
  krun. by rewrite bool_decide_true.
Qed.

(** The state [release] leaves for a held lock. *)
Definition released (lk : lockid) (m : mach) : mach :=
  Mach (<[lk := Spinlock 0 (name (lock_of m lk)) None]> (locks m)) (self m)
    (if (ncli m =? 1) && negb (intena m =? 0) then Z.lor (eflags m) FL_IF else eflags m)
    (ncli m - 1) (intena m).

Lemma release_held lk m :
  locked (lock_of m lk) = 1 → cpu (lock_of m lk) = Some (self m) →
  Z.land (eflags m) FL_IF = 0 → 1 ≤ ncli m →
  release lk m = Ok tt (released lk m).
Proof.
  intros H1 H2 Hif Hn. unfold release.
  rewrite (bind_ok _ _ _ _ _ (holding_eval lk m)), H1, H2.
  rewrite bool_decide_true by done. unfold xchg. krun. cbn -[lock_of set_lock popcli].
  rewrite lock_of_set, decide_True by done.
  unfold set_lock, popcli, readeflags, sti. krun. cbn -[lock_of]. rewrite insert_insert_eq, Hif.
  cbn -[lock_of]. destruct (Z.ltb_spec (ncli m - 1) 0); [lia|].
  unfold released. replace (ncli m - 1 =? 0) with (ncli m =? 1) by lia.
  cbn -[lock_of]. by destruct (ncli m =? 1), (negb (intena m =? 0)).
Qed.

Lemma released_holds L lk m : holds L m → lk ∈ L → holds (L ∖ {[lk]}) (released lk m).
Proof.
  intros [Hin Hout Hn Hif] Hlk.
  assert (size L = S (size (L ∖ {[lk]}))) as Hsz.
  { rewrite (union_difference_L {[lk]} L) at 1 by set_solver.
    rewrite size_union by set_solver. rewrite size_singleton. lia. }
  assert (∀ lk', lock_of (released lk m) lk' =
    if decide (lk = lk') then Spinlock 0 (name (lock_of m lk)) None else lock_of m lk') as Hl.
  { intros lk'. unfold lock_of, released. simpl. rewrite lookup_insert. by case_decide. }
  split.
  - intros lk' H. rewrite Hl, decide_False by set_solver. simpl. apply Hin. set_solver.
  - intros lk' H. rewrite Hl. case_decide; [done|]. apply Hout. set_solver.
  - cbn. lia.
  - intros Hne. cbn.
    assert (size (L ∖ {[lk]}) ≠ 0%nat) by (apply size_non_empty_iff; set_solver).
    replace (ncli m =? 1) with false by lia. simpl. apply Hif. set_solver.
Qed.

Lemma release_ok L lk m (Q : unit → mach → Prop) :
  holds L m → lk ∈ L →
  (∀ m', holds (L ∖ {[lk]}) m' → self m' = self m → Q tt m') →
  wp total (release lk) Q m.
Proof.
  intros HL Hlk HQ. destruct (h_in L m HL lk Hlk) as [H1 H2].
  assert (size L ≠ 0%nat) by (apply size_non_empty_iff; set_solver).
  eapply wp_ok.
  - apply release_held; [done|done|apply (h_if L m HL); set_solver|].
    rewrite (h_ncli L m HL). lia.
  - apply HQ; [by apply released_holds|done].
Qed.

Lemma release_not_held lk m L : holds L m → lk ∉ L → release lk m = Panic "release".
Proof.
  intros HL Hlk. unfold release. rewrite (bind_ok _ _ _ _ _ (holding_eval lk m)).
  by rewrite (h_out L m HL lk Hlk).
Qed.

(** ** Properties *)

(** acquiring a lock this CPU does not hold and releasing it again gives back the
    interrupt flag, the nesting depth and every lock as they were, whatever
    other locks are held. *)
Theorem acquire_release_restores L lk m :
  holds L m → lk ∉ L →
  ∃ m', (acquire lk;; release lk) m = Ok tt m' ∧
    eflags m' = eflags m ∧ ncli m' = ncli m ∧ self m' = self m ∧
    (∀ lk', locked (lock_of m' lk') = locked (lock_of m lk')) ∧ holds L m'.
Proof.
  intros HL Hlk.
  pose proof (acquired_holds L lk m HL Hlk) as HA.
  rewrite (bind_ok _ _ _ _ _ (acquire_free lk m (h_out L m HL lk Hlk))).
  destruct (h_in _ _ HA lk ltac:(set_solver)) as [H1 H2].
  pose proof (h_ncli _ _ HL) as Hn.
  rewrite (release_held lk (acquired lk m)) by (first [done | cbn; lia | apply (h_if _ _ HA); set_solver]).
  eexists; split; [done|].
  pose proof (released_holds _ lk _ HA ltac:(set_solver)) as HR.
  replace (({[lk]} ∪ L) ∖ {[lk]}) with L in HR by set_solver.
  split_and!; [|cbn; lia|done| |done].
  - cbn. destruct (Z.eqb_spec (ncli m) 0) as [E|E].
    + rewrite E. cbn. destruct (Z.eqb_spec (Z.land (eflags m) FL_IF) 0) as [E'|E'].
      * by apply ldiff_IF_off.
      * by apply lor_ldiff_IF_on.
    + replace (ncli m + 1 =? 1) with false by lia. simpl. apply ldiff_IF_off.
      apply (h_if _ _ HL). intros ->. by rewrite size_empty in Hn.
  - intros lk'. destruct (decide (lk' ∈ L)) as [Hi|Hi].
    + by rewrite (proj1 (h_in _ _ HR _ Hi)), (proj1 (h_in _ _ HL _ Hi)).
    + by rewrite (h_out _ _ HR _ Hi), (h_out _ _ HL _ Hi).
Qed.

Definition mach0 : mach := Mach ∅ 0 0x202 0 0.

Lemma mach0_holds : holds ∅ mach0.
Proof. split; [set_solver|done|done|done]. Qed.

Lemma acquire_release_restores_witness :
  ∃ m', (acquire Lkmem;; release Lkmem) mach0 = Ok tt m' ∧
    eflags m' = 0x202 ∧ ncli m' = 0 ∧ self m' = 0%nat ∧
    (∀ lk', locked (lock_of m' lk') = locked (lock_of mach0 lk')) ∧ holds ∅ m'.
Proof. apply (acquire_release_restores ∅ Lkmem mach0 mach0_holds). set_solver. Defined.

Module SmpFacts.
Import Smp.

Lemma set_pc_eq c p f : set_pc c p f c = p.
Proof. unfold set_pc. by rewrite decide_True. Qed.

Lemma set_pc_ne c p f c' : c' ≠ c → set_pc c p f c' = f c'.
Proof. intros. unfold set_pc. by rewrite decide_False. Qed.

Lemma inv_init : inv init.
Proof. split; simpl; try done; naive_solver. Qed.

(** A step that keeps the lock word, the recorded CPU and the mover's status. *)
Lemma inv_move s c p :
  inv s → owns p = owns (pcs s c) → named p = named (pcs s c) →
  (∀ msg, p ≠ Panicked msg) →
  inv (Mk (lk_locked s) (lk_cpu s) (set_pc c p (pcs s))).
Proof.
  intros [Hf Hh H1 Hc Hs] Ho Hn Hp.
  assert (∀ c', owns (set_pc c p (pcs s) c') = owns (pcs s c')) as Ho'.
  { intros c'. unfold set_pc. case_decide; by subst. }
  assert (∀ c', named (set_pc c p (pcs s) c') = named (pcs s c')) as Hn'.
  { intros c'. unfold set_pc. case_decide; by subst. }
  split; simpl.
  - intros Hz c'. rewrite Ho'. auto.
  - intros Hz. destruct (Hh Hz) as [c' Hc']. exists c'. by rewrite Ho'.
  - intros c1 c2. rewrite !Ho'. auto.
  - intros c'. rewrite Hn'. auto.
  - intros c' msg. unfold set_pc. case_decide; auto.
Qed.

Lemma named_owns p : named p = true → owns p = true.
Proof. by destruct p. Qed.

Lemma inv_step s s' : inv s → step s s' → inv s'.
Proof.
  intros HI Hst. destruct HI as [Hf Hh H1 Hc Hs] eqn:E. clear E.
  destruct Hst as [s c Hp|s c Hp|s c Hp|s c Hp|s c Hp|s c Hp|s c Hp|s c Hp|s c Hp|s c Hp].
  - apply inv_move; rewrite ?Hp; done.
  - destruct (lk_locked s =? 0); apply inv_move; rewrite ?Hp; done.
  - rewrite bool_decide_false by (intros e%Hc; by rewrite Hp in e). apply inv_move; rewrite ?Hp; done.
  - destruct (Z.eqb_spec (lk_locked s) 0) as [e|e].
    + pose proof (Hf e) as Hnone. split; simpl.
      * done.
      * intros _. exists c. by rewrite set_pc_eq.
      * intros c1 c2. unfold set_pc. repeat case_decide; subst; try done; rewrite Hnone; done.
      * intros c'. rewrite Hc. unfold set_pc. case_decide; subst; [by rewrite Hp|done].
      * intros c' msg. unfold set_pc. case_decide; auto.
    + destruct (inv_move s c Spin HI) as [Hf' Hh' H1' Hc' Hs']; rewrite ?Hp; try done.
      split; simpl in *; try done. auto.
  - assert (∀ c', owns (pcs s c') = true → c' = c) as Hu.
    { intros c' Ho. apply H1; [done|by rewrite Hp]. }
    assert (∀ c', owns (set_pc c Critical (pcs s) c') = owns (pcs s c')) as Ho'.
    { intros c'. unfold set_pc. case_decide; subst; [by rewrite Hp|done]. }
    split; simpl.
    + intros Hz c'. rewrite Ho'. auto.
    + intros Hz. destruct (Hh Hz) as [c' ?]. exists c'. by rewrite Ho'.
    + intros c1 c2. rewrite !Ho'. auto.
    + intros c'. unfold set_pc. case_decide as Hd; subst; [done|].
      split; [naive_solver|]. intros Hn. destruct Hd. auto using named_owns.
    + intros c' msg. unfold set_pc. case_decide; auto.
  - apply inv_move; rewrite ?Hp; done.
  - destruct (Z.eqb_spec (lk_locked s) 0) as [e|]; [pose proof (Hf e c) as Hx; by rewrite Hp in Hx|].
    apply inv_move; rewrite ?Hp; done.
  - rewrite bool_decide_true by (apply Hc; by rewrite Hp). apply inv_move; rewrite ?Hp; done.
  - assert (∀ c', owns (set_pc c Unlock (pcs s) c') = owns (pcs s c')) as Ho'.
    { intros c'. unfold set_pc. case_decide; subst; [by rewrite Hp|done]. }
    split; simpl.
    + intros Hz c'. rewrite Ho'. auto.
    + intros Hz. destruct (Hh Hz) as [c' ?]. exists c'. by rewrite Ho'.
    + intros c1 c2. rewrite !Ho'. auto.
    + intros c'. split; [done|]. unfold set_pc. case_decide as Hd; [done|].
      intros Hn. destruct Hd. apply H1; [by apply named_owns|by rewrite Hp].
    + intros c' msg. unfold set_pc. case_decide; auto.
  - assert (∀ c', owns (set_pc c Idle (pcs s) c') = false) as Ho'.
    { intros c'. unfold set_pc. case_decide as Hd; [done|].
      destruct (owns (pcs s c')) eqn:e; [|done]. destruct Hd. apply H1; [done|by rewrite Hp]. }
    split; simpl.
    + auto.
    + done.
    + intros c1 c2. by rewrite Ho'.
    + intros c'. rewrite Hc. unfold set_pc. case_decide; subst; [by rewrite Hp|done].
    + intros c' msg. unfold set_pc. case_decide; auto.
Qed.

(** C10: mutual exclusion: however the memory operations of [acquire] and [release] of
    any number of CPUs interleave, two CPUs are never both inside the critical
    section, and neither function ever panics. *)
Theorem mutual_exclusion s :
  rtc step init s →
  (∀ c c', pcs s c = Critical → pcs s c' = Critical → c = c') ∧
  (∀ c msg, pcs s c ≠ Panicked msg).
Proof.
  intros Hr. assert (inv s) as [_ _ H1 _ Hs].
  { eapply rtc_preserves; [apply inv_step|done|apply inv_init]. }
  split; [|done]. intros c c' Hc Hc'. apply H1; by rewrite ?Hc, ?Hc'.
Qed.

(** CPU 0 inside the critical section while CPU 1 spins. *)
Lemma contended_reachable :
  ∃ s, rtc step init s ∧ pcs s 0%nat = Critical ∧ pcs s 1%nat = Spin.
Proof.
  eexists. split.
  - eapply rtc_l; [apply (st_call _ 0); reflexivity|].
    eapply rtc_l; [apply (st_check _ 0); reflexivity|].
    eapply rtc_l; [apply (st_xchg _ 0); reflexivity|].
    eapply rtc_l; [apply (st_record _ 0); reflexivity|].
    eapply rtc_l; [apply (st_call _ 1); reflexivity|].
    eapply rtc_l; [apply (st_check _ 1); reflexivity|].
    eapply rtc_l; [apply (st_check_cpu _ 1); reflexivity|].
    eapply rtc_l; [apply (st_xchg _ 1); reflexivity|]. apply rtc_refl.
  - split; reflexivity.
Qed.

Lemma mutual_exclusion_witness :
  ∃ s, rtc step init s ∧ pcs s 0%nat = Critical ∧ pcs s 1%nat = Spin ∧
  (∀ c c', pcs s c = Critical → pcs s c' = Critical → c = c') ∧
  (∀ c msg, pcs s c ≠ Panicked msg).
Proof.
  destruct contended_reachable as (s & Hr & H0 & H1). exists s.
  split; [exact Hr|]. split; [exact H0|]. split; [exact H1|].
  exact (mutual_exclusion s Hr).
Defined.

End SmpFacts.
