(* ===== verification/Str.v ===== *)
(** * Memory and string routines (string.c, and stosb/stosl of x86.h)

    [mem] is the byte-addressed memory the [mem*] routines work on.  A character
    buffer ([char s[n]]) is the list of its bytes; reading or writing past its
    end is [None].  Bytes are integers in [0, 256). *)
From S2P Require Import Prelude.

(** ** Memory *)

Definition mem : Type := Z → Z.

Definition mwrite (m : mem) (a v : Z) : mem := λ x, if x =? a then v else m x.

(** [stosb]: [cnt] bytes of [data] from [addr]. *)
Fixpoint stosb (m : mem) (addr data : Z) (cnt : nat) : mem :=
  match cnt with
  | O => m
  | S n => stosb (mwrite m addr (u8 data)) (addr + 1) data n
  end.

(** A little-endian store of a 32-bit word. *)
Definition mwrite32 (m : mem) (a w : Z) : mem :=
  mwrite (mwrite (mwrite (mwrite m a (u8 w)) (a + 1) (u8 (Z.shiftr w 8)))
    (a + 2) (u8 (Z.shiftr w 16))) (a + 3) (u8 (Z.shiftr w 24)).

(** A little-endian load. *)
Definition mread32 (m : mem) (a : Z) : Z :=
  m a + 2 ^ 8 * m (a + 1) + 2 ^ 16 * m (a + 2) + 2 ^ 24 * m (a + 3).

(** [stosl]: [cnt] words of [data] from [addr]. *)
Fixpoint stosl (m : mem) (addr data : Z) (cnt : nat) : mem :=
  match cnt with
  | O => m
  | S n => stosl (mwrite32 m addr data) (addr + 4) data n
  end.

Definition memset (m : mem) (dst c n : Z) : mem :=
  if (dst `mod` 4 =? 0) && (n `mod` 4 =? 0) then
    let c := Z.land c 0xFF in
    let w := Z.lor (Z.lor (Z.lor (Z.shiftl c 24) (Z.shiftl c 16)) (Z.shiftl c 8)) c in
    stosl m dst w (Z.to_nat (n / 4))
  else stosb m dst c (Z.to_nat n).

Fixpoint memcmp (m : mem) (s1 s2 : Z) (n : nat) : Z :=
  match n with
  | O => 0
  | S n' => if negb (m s1 =? m s2) then m s1 - m s2 else memcmp m (s1 + 1) (s2 + 1) n'
  end.

(** [while(n-- > 0) *--d = *--s;] with [s] and [d] one past the end. *)
Fixpoint copy_down (m : mem) (d s : Z) (n : nat) : mem :=
  match n with
  | O => m
  | S n' => copy_down (mwrite m (d - 1) (m (s - 1))) (d - 1) (s - 1) n'
  end.

(** [while(n-- > 0) *d++ = *s++;] *)
Fixpoint copy_up (m : mem) (d s : Z) (n : nat) : mem :=
  match n with
  | O => m
  | S n' => copy_up (mwrite m d (m s)) (d + 1) (s + 1) n'
  end.

Definition memmove (m : mem) (dst src n : Z) : mem :=
  let s := src in
  let d := dst in
  if (s <? d) && (u32 (s + n) >? d) then copy_down m (d + n) (s + n) (Z.to_nat n)
  else copy_up m d s (Z.to_nat n).

Definition memcpy (m : mem) (dst src n : Z) : mem := memmove m dst src n.

(** ** Strings *)

Fixpoint strncmp (p q : list Z) (n : nat) {struct n} : option Z :=
  match n with
  | O => Some 0
  | S n' =>
      match p, q with
      | c :: p', d :: q' =>
          if negb (c =? 0) && (c =? d) then strncmp p' q' n' else Some (c - d)
      | _, _ => None
      end
  end.

(** The second loop of [strncpy]. *)
Fixpoint zero_fill (s : list Z) (n : nat) {struct n} : option (list Z) :=
  match n with
  | O => Some s
  | S n' => match s with _ :: s' => cons 0 <$> zero_fill s' n' | [] => None end
  end.

Fixpoint strncpy (s t : list Z) (n : nat) {struct n} : option (list Z) :=
  match n with
  | O => Some s
  | S n' =>
      match s, t with
      | _ :: s', c :: t' =>
          if c =? 0 then cons 0 <$> zero_fill s' n' else cons c <$> strncpy s' t' n'
      | _, _ => None
      end
  end.

(** [safestrcpy] copies at most [n-1] characters and then stores a NUL where
    it stopped. *)
Fixpoint safestrcpy_loop (s t : list Z) (n : nat) {struct n} : option (list Z) :=
  match n with
  | O => zero_fill s 1
  | S n' =>
      match s, t with
      | _ :: s', c :: t' =>
          cons c <$> (if c =? 0 then zero_fill s' 1 else safestrcpy_loop s' t' n')
      | _, _ => None
      end
  end.

Definition safestrcpy (s t : list Z) (n : Z) : option (list Z) :=
  if n <=? 0 then Some s else safestrcpy_loop s t (Z.to_nat (n - 1)).

Fixpoint strlen (s : list Z) : option Z :=
  match s with
  | [] => None
  | c :: s' => if c =? 0 then Some 0 else Z.add 1 <$> strlen s'
  end.

(** The bytes of a string constant, with its terminating NUL. *)
Fixpoint chars (s : string) : list Z :=
  match s with
  | EmptyString => []
  | String c s' => Z.of_nat (Ascii.nat_of_ascii c) :: chars s'
  end.
Definition cstring (s : string) : list Z := chars s ++ [0].

(** The C string a buffer holds: its bytes up to the first NUL. *)
Fixpoint str_of (s : list Z) : list Z :=
  match s with
  | [] => []
  | c :: s' => if c =? 0 then [] else c :: str_of s'
  end.

(** ** Copying *)

(** [true] exactly on the [n] addresses from [a]. *)
Definition inrange (a n x : Z) : bool := (a <=? x) && (x <? a + n).

Lemma copy_up_spec n : ∀ m d s x,
  (d ≤ s ∨ s + Z.of_nat n ≤ d) →
  copy_up m d s n x = if inrange d (Z.of_nat n) x then m (s + (x - d)) else m x.
Proof.
  unfold inrange. induction n as [|n IH]; intros m d s x Hov; cbn [copy_up].
  { by zcases. }
  rewrite IH by lia. unfold mwrite. zcases; f_equal; lia.
Qed.

Lemma copy_down_spec n : ∀ m d s x,
  s ≤ d →
  copy_down m d s n x =
    if inrange (d - Z.of_nat n) (Z.of_nat n) x then m (s - (d - x)) else m x.
Proof.
  unfold inrange. induction n as [|n IH]; intros m d s x Hov; cbn [copy_down].
  { by zcases. }
  rewrite IH by lia. unfold mwrite. zcases; f_equal; lia.
Qed.

Lemma stosb_spec n : ∀ m a c x,
  stosb m a c n x = if inrange a (Z.of_nat n) x then u8 c else m x.
Proof.
  unfold inrange. induction n as [|n IH]; intros m a c x; cbn [stosb].
  { by zcases. }
  rewrite IH. unfold mwrite. by zcases.
Qed.

(** The word whose four bytes are all [c]. *)
Definition word4 (c : Z) : Z :=
  Z.lor (Z.lor (Z.lor (Z.shiftl c 24) (Z.shiftl c 16)) (Z.shiftl c 8)) c.

Lemma u8_bits z i : 0 ≤ i → Z.testbit (u8 z) i = (i <? 8) && Z.testbit z i.
Proof.
  intros. unfold u8. destruct (Z.ltb_spec i 8).
  - by rewrite Z.mod_pow2_bits_low by lia.
  - by rewrite Z.mod_pow2_bits_high by lia.
Qed.

Lemma byte_bits c i : 0 ≤ c < 256 → 8 ≤ i → Z.testbit c i = false.
Proof.
  intros Hc Hi. rewrite <- (Z.mod_small c (2 ^ 8)) by lia.
  by rewrite Z.mod_pow2_bits_high by lia.
Qed.

Lemma word4_byte c k :
  0 ≤ c < 256 → k = 0 ∨ k = 8 ∨ k = 16 ∨ k = 24 → u8 (Z.shiftr (word4 c) k) = c.
Proof.
  intros Hc Hk. apply Z.bits_inj'. intros i Hi. rewrite u8_bits by done.
  rewrite Z.shiftr_spec by done. unfold word4. rewrite !Z.lor_spec.
  destruct (Z.ltb_spec i 8); simpl; [|by rewrite byte_bits by lia].
  rewrite !Z.shiftl_spec by lia.
  destruct Hk as [->|[->|[-> | ->]]];
  repeat match goal with
    | |- context [Z.testbit c ?e] =>
        lazymatch e with
        | i => fail
        | _ => first [ rewrite (Z.testbit_neg_r c e) by lia
                     | rewrite (byte_bits c e) by lia
                     | replace e with i by lia ]
        end
    end; by rewrite ?orb_false_r, ?orb_false_l.
Qed.

Lemma mwrite32_spec m a c x :
  0 ≤ c < 256 →
  mwrite32 m a (word4 c) x = if inrange a 4 x then c else m x.
Proof.
  intros Hc. unfold mwrite32, mwrite, inrange.
  rewrite <- (Z.shiftr_0_r (word4 c)) at 4.
  rewrite !word4_byte by auto.
  zcases; done.
Qed.

Lemma mwrite32_other m a w x : inrange a 4 x = false → mwrite32 m a w x = m x.
Proof. unfold mwrite32, mwrite, inrange. intros H. zcases; done. Qed.

Lemma mread32_ext m m' a :
  (∀ x, inrange a 4 x = true → m' x = m x) → mread32 m' a = mread32 m a.
Proof.
  intros H. unfold mread32. rewrite !H by (unfold inrange; zcases; done). done.
Qed.

Lemma mread32_other m a b w : b + 4 ≤ a ∨ a + 4 ≤ b → mread32 (mwrite32 m b w) a = mread32 m a.
Proof.
  intros H. apply mread32_ext. intros x Hx. apply mwrite32_other. revert Hx. unfold inrange.
  rewrite andb_true_iff, andb_false_iff, Z.leb_le, Z.ltb_lt, Z.leb_gt, Z.ltb_ge. lia.
Qed.

Lemma mread32_mwrite32 m a w : mread32 (mwrite32 m a w) a = u32 w.
Proof.
  unfold mread32, mwrite32, mwrite, u8, u32. rewrite !Z.shiftr_div_pow2 by lia.
  zcases. change (2 ^ 32) with (2 ^ 8 * (2 ^ 8 * (2 ^ 8 * 2 ^ 8))).
  rewrite !Z.rem_mul_r, !Z.div_div by lia. simpl (2 ^ 8 * 2 ^ 8). simpl (2 ^ 8 * _).
  change (2 ^ 16) with 65536. change (2 ^ 24) with 16777216. change (2 ^ 8) with 256.
  change (256 * 256 * 256) with 16777216. change (256 * 256) with 65536. lia.
Qed.

Lemma stosl_spec n : ∀ m a c x,
  0 ≤ c < 256 →
  stosl m a (word4 c) n x = if inrange a (4 * Z.of_nat n) x then c else m x.
Proof.
  induction n as [|n IH]; intros m a c x Hc.
  { cbn [stosl]. unfold inrange. by zcases. }
  cbn [stosl]. rewrite IH, mwrite32_spec by done. unfold inrange. by zcases.
Qed.

Lemma memmove_spec m dst src n x :
  0 ≤ n → 0 ≤ src → src + n < 2 ^ 32 →
  memmove m dst src n x = if inrange dst n x then m (src + (x - dst)) else m x.
Proof.
  intros Hn Hs Hw. unfold memmove. rewrite u32_small by lia.
  destruct (Z.ltb_spec src dst), (Z.gtb_spec (src + n) dst); simpl.
  2-4: rewrite copy_up_spec by lia; by rewrite Z2Nat.id by lia.
  rewrite copy_down_spec by lia. rewrite Z2Nat.id by lia.
  replace (dst + n - n) with dst by lia.
  destruct (inrange dst n x); [|done]. f_equal. lia.
Qed.

(** [memmove] copies the bytes the source held before the call, also when source
    and destination overlap, and changes nothing else. *)
Theorem memmove_copies m dst src n x :
  0 ≤ n → 0 ≤ src → src + n < 2 ^ 32 →
  memmove m dst src n x = if inrange dst n x then m (src + (x - dst)) else m x.
Proof. apply memmove_spec. Qed.

(** Bytes 100..103 hold 1,2,3,4; move them up by one. *)
Definition mem_ex : mem := λ a, if inrange 100 4 a then a - 99 else 0.

Lemma memmove_copies_witness :
  memmove mem_ex 101 100 4 104 = 4 ∧ memmove mem_ex 101 100 4 101 = 1.
Proof.
  rewrite !(memmove_copies mem_ex 101 100 4) by lia. split; reflexivity.
Defined.

Lemma memset_spec m dst c n x :
  0 ≤ n → memset m dst c n x = if inrange dst n x then u8 c else m x.
Proof.
  intros Hn. unfold memset.
  destruct (Z.eqb_spec (dst `mod` 4) 0); simpl; [destruct (Z.eqb_spec (n `mod` 4) 0); simpl|].
  2-3: rewrite stosb_spec; by rewrite Z2Nat.id by lia.
  change 0xFF with (Z.ones 8). rewrite Z.land_ones by lia.
  change (c `mod` 2 ^ 8) with (u8 c). fold (word4 (u8 c)).
  assert (0 ≤ u8 c < 256) by (apply Z.mod_pos_bound; lia).
  rewrite stosl_spec by done.
  replace (4 * Z.of_nat (Z.to_nat (n / 4))) with n; [done|].
  rewrite Z2Nat.id by (apply Z.div_pos; lia). rewrite (Z.div_mod n 4) at 1 by lia. lia.
Qed.

(** [memset] stores the low byte of [c] in exactly [n] bytes, whether it takes the
    word-at-a-time path or the byte path. *)
Theorem memset_fills m dst c n x :
  0 ≤ n → memset m dst c n x = if inrange dst n x then u8 c else m x.
Proof. apply memset_spec. Qed.

Lemma memset_fills_witness :
  memset mem_ex 100 257 8 103 = 1 ∧ memset mem_ex 100 257 8 108 = mem_ex 108.
Proof. rewrite !(memset_fills mem_ex 100 257 8) by lia. split; reflexivity. Defined.

(** ** Strings *)

Lemma zero_fill_spec n : ∀ s,
  (n ≤ length s)%nat → zero_fill s n = Some (replicate n 0 ++ drop n s).
Proof.
  induction n as [|n IH]; intros s Hs; [done|].
  destruct s as [|c s]; simpl in *; [lia|]. by rewrite IH by lia.
Qed.

Lemma str_of_nonzero s : Forall (λ c, c ≠ 0) (str_of s).
Proof. induction s as [|c s IH]; simpl; [done|]. destruct (Z.eqb_spec c 0); auto. Qed.

Lemma str_of_app_zero l s : Forall (λ c, c ≠ 0) l → str_of (l ++ 0 :: s) = l.
Proof.
  induction 1 as [|c l Hc Hl IH]; simpl; [done|].
  replace (c =? 0) with false by lia. by rewrite IH.
Qed.

Lemma strlen_app_zero l s :
  Forall (λ c, c ≠ 0) l → strlen (l ++ 0 :: s) = Some (Z.of_nat (length l)).
Proof.
  induction 1 as [|c l Hc Hl IH]; simpl; [done|].
  replace (c =? 0) with false by lia. rewrite IH. simpl. f_equal. lia.
Qed.

(** [strncpy] copies the string, cut to [n] characters, and pads with NULs. *)
Lemma strncpy_spec n : ∀ s t,
  (n ≤ length s)%nat → 0 ∈ t ∨ (n ≤ length t)%nat →
  strncpy s t n =
    Some (take n (str_of t) ++ replicate (n - length (str_of t)) 0 ++ drop n s).
Proof.
  induction n as [|n IH]; intros s t Hs Ht; [done|].
  destruct s as [|x s]; simpl in Hs; [lia|].
  destruct t as [|c t]; [set_solver by lia|]. simpl.
  destruct (Z.eqb_spec c 0) as [->|Hc]; simpl.
  - by rewrite zero_fill_spec by lia.
  - rewrite IH; [done|lia|]. rewrite elem_of_cons in Ht. simpl in Ht. destruct Ht as [[?|?]|?]; [lia|auto|right; lia].
Qed.

Lemma safestrcpy_loop_spec n : ∀ s t,
  (n < length s)%nat → 0 ∈ t ∨ (n ≤ length t)%nat →
  ∃ r, safestrcpy_loop s t n = Some (take n (str_of t) ++ 0 :: r) ∧
       (length (take n (str_of t)) + 1 + length r = length s)%nat.
Proof.
  induction n as [|n IH]; intros s t Hs Ht.
  { destruct s as [|x s]; simpl in *; [lia|]. exists s. split; [done|lia]. }
  destruct s as [|x s]; simpl in Hs; [lia|].
  destruct t as [|c t]; [set_solver by lia|]. simpl.
  destruct (Z.eqb_spec c 0) as [->|Hc]; simpl.
  - destruct s as [|y s]; simpl in *; [lia|]. exists (0 :: s). split; [done|simpl; lia].
  - destruct (IH s t) as (r & -> & Hl); [lia| |].
    { rewrite elem_of_cons in Ht. simpl in Ht. destruct Ht as [[?|?]|?]; [lia|auto|right; lia]. }
    exists r. split; [done|simpl; lia].
Qed.

(** [safestrcpy] never writes outside its [n]-byte buffer and always leaves a
    NUL-terminated string: the source cut to [n-1] characters. *)
Theorem safestrcpy_terminates s t n :
  0 < n → n ≤ Z.of_nat (length s) → 0 ∈ t ∨ n - 1 ≤ Z.of_nat (length t) →
  ∃ s', safestrcpy s t n = Some s' ∧ length s' = length s ∧
    str_of s' = take (Z.to_nat (n - 1)) (str_of t) ∧
    strlen s' = Some (Z.of_nat (length (take (Z.to_nat (n - 1)) (str_of t)))).
Proof.
  intros Hn Hs Ht. unfold safestrcpy. replace (n <=? 0) with false by lia.
  destruct (safestrcpy_loop_spec (Z.to_nat (n - 1)) s t) as (r & -> & Hl);
    [lia|destruct Ht; [auto|right; lia]|].
  assert (Forall (λ c, c ≠ 0) (take (Z.to_nat (n - 1)) (str_of t))) as Hz
    by apply Forall_take, str_of_nonzero.
  eexists. split; [done|]. rewrite str_of_app_zero, strlen_app_zero by done.
  split_and!; [|done|done]. rewrite length_app. simpl. lia.
Qed.

Lemma safestrcpy_terminates_witness :
  safestrcpy (replicate 4 7) (cstring "init") 4 = Some (chars "ini" ++ [0]) ∧
  ∃ s', safestrcpy (replicate 4 7) (cstring "init") 4 = Some s' ∧ length s' = 4%nat ∧
    str_of s' = chars "ini" ∧ strlen s' = Some 3.
Proof.
  split; [reflexivity|].
  apply (safestrcpy_terminates (replicate 4 7) (cstring "init") 4); [lia|simpl; lia|].
  right. vm_compute. discriminate.
Defined.

(** [strncmp] returns 0 exactly when the two strings agree on their first [n]
    characters. *)
Theorem strncmp_equal n p q :
  0 ∈ p ∨ (n ≤ length p)%nat → 0 ∈ q ∨ (n ≤ length q)%nat →
  strncmp p q n = Some 0 ↔ take n (str_of p) = take n (str_of q).
Proof.
  revert p q. induction n as [|n IH]; intros p q Hp Hq; [done|].
  destruct p as [|c p]; [set_solver by lia|]. destruct q as [|d q]; [set_solver by lia|].
  rewrite !elem_of_cons in *. simpl in *.
  destruct (Z.eqb_spec c 0) as [->|Hc]; simpl.
  - destruct (Z.eqb_spec d 0) as [->|Hd]; simpl; [done|]. split; [|done]. intros [=]; lia.
  - destruct (Z.eqb_spec c d) as [->|Hcd]; simpl.
    + replace (d =? 0) with false by lia. simpl. rewrite IH.
      * split; [by intros ->|by intros [=]].
      * destruct Hp as [[?|?]|?]; [lia|auto|right; lia].
      * destruct Hq as [[?|?]|?]; [lia|auto|right; lia].
    + split; [intros [=]; lia|]. destruct (Z.eqb_spec d 0); [done|]. by intros [=].
Qed.

Lemma strncmp_equal_witness :
  strncmp (cstring "console") (cstring "console2") 7 = Some 0 ↔
  take 7 (str_of (cstring "console")) = take 7 (str_of (cstring "console2")).
Proof. apply (strncmp_equal 7); right; vm_compute; lia. Defined.
