(* ===== verification/Digits.v ===== *)
(** * Printing numbers: the loop shared by console.c and printf.c

    Both [printint] functions store the digits of a number in a buffer, last one
    first; they differ in the table of digits.  [reads] is what the characters
    stand for. *)
From S2P Require Import Prelude.

Section digits.
Context (ds : list Z).

(** [do { buf[i++] = digits[x % base]; } while((x /= base) != 0);] Every round
    divides by the base, so 32 rounds are enough for a 32-bit number. *)
Fixpoint digit_rounds (fuel : nat) (x base : Z) : list Z :=
  match fuel with
  | O => []
  | S n =>
      let d := default 0 (ds !! Z.to_nat (x `mod` base)) in
      if x / base =? 0 then [d] else d :: digit_rounds n (x / base) base
  end.

(** The number a sequence of digits stands for, if [val] is the value of a digit. *)
Definition reads (val : Z → Z) (base : Z) (l : list Z) : Z := foldl (λ a c, a * base + val c) 0 l.

Lemma reads_snoc val base l c : reads val base (l ++ [c]) = reads val base l * base + val c.
Proof. unfold reads. by rewrite foldl_app. Qed.

Context (val : Z → Z) (base : Z) (P : Z → Prop).
Context (Hbase : 2 ≤ base)
  (Hds : ∀ d, 0 ≤ d < base → val (default 0 (ds !! Z.to_nat d)) = d ∧ P (default 0 (ds !! Z.to_nat d))).

(** The digits read back as the number; there are no more than it needs. *)
Lemma digit_rounds_ok n fuel x :
  (n < fuel)%nat → 0 ≤ x < base ^ Z.of_nat (S n) →
  reads val base (rev (digit_rounds fuel x base)) = x ∧ (length (digit_rounds fuel x base) ≤ S n)%nat ∧
  Forall P (digit_rounds fuel x base).
Proof.
  revert fuel x. induction n as [|n IH]; intros fuel x Hf Hx; (destruct fuel as [|fuel]; [lia|]); cbn [digit_rounds];
    pose proof (Z.div_mod x base ltac:(lia)) as Hd;
    destruct (Hds (x `mod` base)) as [Hv Hr]; try (apply Z.mod_pos_bound; lia).
  - change (Z.of_nat 1) with 1 in Hx. rewrite Z.pow_1_r in Hx. rewrite Z.div_small by lia. cbn [Z.eqb rev app length].
    split_and!; [|lia|by repeat constructor]. unfold reads. cbn [foldl]. rewrite Hv, Z.mod_small by lia. lia.
  - destruct (Z.eqb_spec (x / base) 0) as [E|E].
    + split_and!; [|cbn; lia|by repeat constructor]. cbn [rev app]. unfold reads. cbn [foldl]. rewrite Hv. lia.
    + destruct (IH fuel (x / base)) as (IH1 & IH2 & IH3); [lia| |].
      * rewrite Nat2Z.inj_succ, Z.pow_succ_r in Hx by lia. split; [apply Z.div_pos; lia|]. apply Z.div_lt_upper_bound; lia.
      * split_and!; [|cbn; lia|by constructor]. cbn [rev]. rewrite reads_snoc, IH1, Hv. lia.
Qed.
End digits.
