(* ===== verification/Ptable.v ===== *)
(** * The process table, its lists, sleeping and scheduling (proc.c, proc.h)

    The state [pst] is what the lower half of proc.c works on: the CPU and the
    locks ([mach]), the process table with its ready lists and free list, and
    the CPU's current process.  A [struct proc *] is the index of the table
    slot, a null pointer is [None]; following a null pointer is [Fault].

    The build sets [-DCS333_SCHEDULER] (Makefile), so the code under that macro
    is what is modelled; [USE_CS333_SCHEDULER] and [CS333_Scheduler] are set
    nowhere and the code they guard is not compiled. *)
From S2P Require Import Prelude Spinlock Str.

(** ** Data *)

(** The objects a process sleeps on, by what their address identifies. *)
Inductive chan :=
| ChProc (p : nat) | ChBuf (b : nat) | ChInode (i : nat) | ChLog | ChTicks
| ChPipeRead (a : Z) | ChPipeWrite (a : Z) | ChInput.

#[global] Instance chan_eq_dec : EqDecision chan.
Proof. solve_decision. Defined.

Inductive procstate := UNUSED | EMBRYO | SLEEPING | RUNNABLE | RUNNING | ZOMBIE.

#[global] Instance procstate_eq_dec : EqDecision procstate.
Proof. solve_decision. Defined.

(** [struct trapframe] of x86.h (without its padding). *)
Record trapframe := Trapframe {
  tf_edi : Z;
  tf_esi : Z;
  tf_ebp : Z;
  tf_oesp : Z;
  tf_ebx : Z;
  tf_edx : Z;
  tf_ecx : Z;
  tf_eax : Z;
  tf_gs : Z;
  tf_fs : Z;
  tf_es : Z;
  tf_ds : Z;
  tf_trapno : Z;
  tf_err : Z;
  tf_eip : Z;
  tf_cs : Z;
  tf_eflags : Z;
  tf_esp : Z;
  tf_ss : Z
}.

Definition set_tf_eax (x : Z) (r : trapframe) : trapframe :=
  Trapframe (tf_edi r) (tf_esi r) (tf_ebp r) (tf_oesp r) (tf_ebx r) (tf_edx r) (tf_ecx r) x
    (tf_gs r) (tf_fs r) (tf_es r) (tf_ds r) (tf_trapno r) (tf_err r) (tf_eip r) (tf_cs r)
    (tf_eflags r) (tf_esp r) (tf_ss r).
Definition set_tf_es (x : Z) (r : trapframe) : trapframe :=
  Trapframe (tf_edi r) (tf_esi r) (tf_ebp r) (tf_oesp r) (tf_ebx r) (tf_edx r) (tf_ecx r)
    (tf_eax r) (tf_gs r) (tf_fs r) x (tf_ds r) (tf_trapno r) (tf_err r) (tf_eip r) (tf_cs r)
    (tf_eflags r) (tf_esp r) (tf_ss r).
Definition set_tf_ds (x : Z) (r : trapframe) : trapframe :=
  Trapframe (tf_edi r) (tf_esi r) (tf_ebp r) (tf_oesp r) (tf_ebx r) (tf_edx r) (tf_ecx r)
    (tf_eax r) (tf_gs r) (tf_fs r) (tf_es r) x (tf_trapno r) (tf_err r) (tf_eip r) (tf_cs r)
    (tf_eflags r) (tf_esp r) (tf_ss r).
Definition set_tf_eip (x : Z) (r : trapframe) : trapframe :=
  Trapframe (tf_edi r) (tf_esi r) (tf_ebp r) (tf_oesp r) (tf_ebx r) (tf_edx r) (tf_ecx r)
    (tf_eax r) (tf_gs r) (tf_fs r) (tf_es r) (tf_ds r) (tf_trapno r) (tf_err r) x (tf_cs r)
    (tf_eflags r) (tf_esp r) (tf_ss r).
Definition set_tf_cs (x : Z) (r : trapframe) : trapframe :=
  Trapframe (tf_edi r) (tf_esi r) (tf_ebp r) (tf_oesp r) (tf_ebx r) (tf_edx r) (tf_ecx r)
    (tf_eax r) (tf_gs r) (tf_fs r) (tf_es r) (tf_ds r) (tf_trapno r) (tf_err r) (tf_eip r) x
    (tf_eflags r) (tf_esp r) (tf_ss r).
Definition set_tf_eflags (x : Z) (r : trapframe) : trapframe :=
  Trapframe (tf_edi r) (tf_esi r) (tf_ebp r) (tf_oesp r) (tf_ebx r) (tf_edx r) (tf_ecx r)
    (tf_eax r) (tf_gs r) (tf_fs r) (tf_es r) (tf_ds r) (tf_trapno r) (tf_err r) (tf_eip r)
    (tf_cs r) x (tf_esp r) (tf_ss r).
Definition set_tf_esp (x : Z) (r : trapframe) : trapframe :=
  Trapframe (tf_edi r) (tf_esi r) (tf_ebp r) (tf_oesp r) (tf_ebx r) (tf_edx r) (tf_ecx r)
    (tf_eax r) (tf_gs r) (tf_fs r) (tf_es r) (tf_ds r) (tf_trapno r) (tf_err r) (tf_eip r)
    (tf_cs r) (tf_eflags r) x (tf_ss r).
Definition set_tf_ss (x : Z) (r : trapframe) : trapframe :=
  Trapframe (tf_edi r) (tf_esi r) (tf_ebp r) (tf_oesp r) (tf_ebx r) (tf_edx r) (tf_ecx r)
    (tf_eax r) (tf_gs r) (tf_fs r) (tf_es r) (tf_ds r) (tf_trapno r) (tf_err r) (tf_eip r)
    (tf_cs r) (tf_eflags r) (tf_esp r) x.

Definition trapframe0 : trapframe := Trapframe 0 0 0 0 0 0 0 0 0 0 0 0 0 0 0 0 0 0 0.

(** [struct context]. *)
Record context := Context {
  c_edi : Z;
  c_esi : Z;
  c_ebx : Z;
  c_ebp : Z;
  c_eip : Z
}.

Definition set_c_eip (x : Z) (r : context) : context :=
  Context (c_edi r) (c_esi r) (c_ebx r) (c_ebp r) x.

Definition context0 : context := Context 0 0 0 0 0.

(** [struct proc].  [p_frame] and [p_ctx] are the trap frame and the saved
    registers that the pointers [p_tf] and [p_context] address on the kernel
    stack; an open file or inode is the index of its table slot.  *)
Record proc := Proc {
  p_sz : Z;
  p_pgdir : Z;
  p_kstack : Z;
  p_state : procstate;
  p_pid : Z;
  p_gid : Z;
  p_uid : Z;
  p_parent : option nat;
  p_tf : Z;
  p_context : Z;
  p_chan : option chan;
  p_killed : bool;
  p_ofile : list (option nat);
  p_cwd : option nat;
  p_name : list Z;
  p_next : option nat;
  p_priority : Z;
  p_frame : trapframe;
  p_ctx : context
}.

Definition set_p_sz (x : Z) (r : proc) : proc :=
  Proc x (p_pgdir r) (p_kstack r) (p_state r) (p_pid r) (p_gid r) (p_uid r) (p_parent r)
    (p_tf r) (p_context r) (p_chan r) (p_killed r) (p_ofile r) (p_cwd r) (p_name r) (p_next
    r) (p_priority r) (p_frame r) (p_ctx r).
Definition set_p_pgdir (x : Z) (r : proc) : proc :=
  Proc (p_sz r) x (p_kstack r) (p_state r) (p_pid r) (p_gid r) (p_uid r) (p_parent r) (p_tf
    r) (p_context r) (p_chan r) (p_killed r) (p_ofile r) (p_cwd r) (p_name r) (p_next r)
    (p_priority r) (p_frame r) (p_ctx r).
Definition set_p_kstack (x : Z) (r : proc) : proc :=
  Proc (p_sz r) (p_pgdir r) x (p_state r) (p_pid r) (p_gid r) (p_uid r) (p_parent r) (p_tf
    r) (p_context r) (p_chan r) (p_killed r) (p_ofile r) (p_cwd r) (p_name r) (p_next r)
    (p_priority r) (p_frame r) (p_ctx r).
Definition set_p_state (x : procstate) (r : proc) : proc :=
  Proc (p_sz r) (p_pgdir r) (p_kstack r) x (p_pid r) (p_gid r) (p_uid r) (p_parent r) (p_tf
    r) (p_context r) (p_chan r) (p_killed r) (p_ofile r) (p_cwd r) (p_name r) (p_next r)
    (p_priority r) (p_frame r) (p_ctx r).
Definition set_p_pid (x : Z) (r : proc) : proc :=
  Proc (p_sz r) (p_pgdir r) (p_kstack r) (p_state r) x (p_gid r) (p_uid r) (p_parent r)
    (p_tf r) (p_context r) (p_chan r) (p_killed r) (p_ofile r) (p_cwd r) (p_name r) (p_next
    r) (p_priority r) (p_frame r) (p_ctx r).
Definition set_p_gid (x : Z) (r : proc) : proc :=
  Proc (p_sz r) (p_pgdir r) (p_kstack r) (p_state r) (p_pid r) x (p_uid r) (p_parent r)
    (p_tf r) (p_context r) (p_chan r) (p_killed r) (p_ofile r) (p_cwd r) (p_name r) (p_next
    r) (p_priority r) (p_frame r) (p_ctx r).
Definition set_p_uid (x : Z) (r : proc) : proc :=
  Proc (p_sz r) (p_pgdir r) (p_kstack r) (p_state r) (p_pid r) (p_gid r) x (p_parent r)
    (p_tf r) (p_context r) (p_chan r) (p_killed r) (p_ofile r) (p_cwd r) (p_name r) (p_next
    r) (p_priority r) (p_frame r) (p_ctx r).
Definition set_p_parent (x : option nat) (r : proc) : proc :=
  Proc (p_sz r) (p_pgdir r) (p_kstack r) (p_state r) (p_pid r) (p_gid r) (p_uid r) x (p_tf
    r) (p_context r) (p_chan r) (p_killed r) (p_ofile r) (p_cwd r) (p_name r) (p_next r)
    (p_priority r) (p_frame r) (p_ctx r).
Definition set_p_tf (x : Z) (r : proc) : proc :=
  Proc (p_sz r) (p_pgdir r) (p_kstack r) (p_state r) (p_pid r) (p_gid r) (p_uid r) (p_parent
    r) x (p_context r) (p_chan r) (p_killed r) (p_ofile r) (p_cwd r) (p_name r) (p_next r)
    (p_priority r) (p_frame r) (p_ctx r).
Definition set_p_context (x : Z) (r : proc) : proc :=
  Proc (p_sz r) (p_pgdir r) (p_kstack r) (p_state r) (p_pid r) (p_gid r) (p_uid r) (p_parent
    r) (p_tf r) x (p_chan r) (p_killed r) (p_ofile r) (p_cwd r) (p_name r) (p_next r)
    (p_priority r) (p_frame r) (p_ctx r).
Definition set_p_chan (x : option chan) (r : proc) : proc :=
  Proc (p_sz r) (p_pgdir r) (p_kstack r) (p_state r) (p_pid r) (p_gid r) (p_uid r) (p_parent
    r) (p_tf r) (p_context r) x (p_killed r) (p_ofile r) (p_cwd r) (p_name r) (p_next r)
    (p_priority r) (p_frame r) (p_ctx r).
Definition set_p_killed (x : bool) (r : proc) : proc :=
  Proc (p_sz r) (p_pgdir r) (p_kstack r) (p_state r) (p_pid r) (p_gid r) (p_uid r) (p_parent
    r) (p_tf r) (p_context r) (p_chan r) x (p_ofile r) (p_cwd r) (p_name r) (p_next r)
    (p_priority r) (p_frame r) (p_ctx r).
Definition set_p_ofile (x : list (option nat)) (r : proc) : proc :=
  Proc (p_sz r) (p_pgdir r) (p_kstack r) (p_state r) (p_pid r) (p_gid r) (p_uid r) (p_parent
    r) (p_tf r) (p_context r) (p_chan r) (p_killed r) x (p_cwd r) (p_name r) (p_next r)
    (p_priority r) (p_frame r) (p_ctx r).
Definition set_p_cwd (x : option nat) (r : proc) : proc :=
  Proc (p_sz r) (p_pgdir r) (p_kstack r) (p_state r) (p_pid r) (p_gid r) (p_uid r) (p_parent
    r) (p_tf r) (p_context r) (p_chan r) (p_killed r) (p_ofile r) x (p_name r) (p_next r)
    (p_priority r) (p_frame r) (p_ctx r).
Definition set_p_name (x : list Z) (r : proc) : proc :=
  Proc (p_sz r) (p_pgdir r) (p_kstack r) (p_state r) (p_pid r) (p_gid r) (p_uid r) (p_parent
    r) (p_tf r) (p_context r) (p_chan r) (p_killed r) (p_ofile r) (p_cwd r) x (p_next r)
    (p_priority r) (p_frame r) (p_ctx r).
Definition set_p_next (x : option nat) (r : proc) : proc :=
  Proc (p_sz r) (p_pgdir r) (p_kstack r) (p_state r) (p_pid r) (p_gid r) (p_uid r) (p_parent
    r) (p_tf r) (p_context r) (p_chan r) (p_killed r) (p_ofile r) (p_cwd r) (p_name r) x
    (p_priority r) (p_frame r) (p_ctx r).
Definition set_p_priority (x : Z) (r : proc) : proc :=
  Proc (p_sz r) (p_pgdir r) (p_kstack r) (p_state r) (p_pid r) (p_gid r) (p_uid r) (p_parent
    r) (p_tf r) (p_context r) (p_chan r) (p_killed r) (p_ofile r) (p_cwd r) (p_name r)
    (p_next r) x (p_frame r) (p_ctx r).
Definition set_p_frame (x : trapframe) (r : proc) : proc :=
  Proc (p_sz r) (p_pgdir r) (p_kstack r) (p_state r) (p_pid r) (p_gid r) (p_uid r) (p_parent
    r) (p_tf r) (p_context r) (p_chan r) (p_killed r) (p_ofile r) (p_cwd r) (p_name r)
    (p_next r) (p_priority r) x (p_ctx r).
Definition set_p_ctx (x : context) (r : proc) : proc :=
  Proc (p_sz r) (p_pgdir r) (p_kstack r) (p_state r) (p_pid r) (p_gid r) (p_uid r) (p_parent
    r) (p_tf r) (p_context r) (p_chan r) (p_killed r) (p_ofile r) (p_cwd r) (p_name r)
    (p_next r) (p_priority r) (p_frame r) x.

Definition NAMELEN : nat := 16.

(** A slot of the zero-initialised table. *)
Definition proc0 : proc :=
  Proc 0 0 0 UNUSED 0 0 0 None 0 0 None false (replicate NOFILE None) None
    (replicate NAMELEN 0) None 0 trapframe0 context0.

(** Constants of proc.h. *)
Definition USERID : Z := 20.
Definition GROUPID : Z := 10.
Definition HIGH : Z := 0.
Definition DEFAULTPRIO : Z := 1.
Definition LOW : Z := 2.
Definition SIZE : nat := 3.
Definition COUNT : Z := 4500.

(** The registers [switchuvm] and [switchkvm] load: the page-table base, the
    task register and the kernel stack of the task segment. *)
Record regs := Regs { cr3 : Z; tr : Z; ts_ss0 : Z; ts_esp0 : Z }.

(** [ptable], [nextpid], [initproc], [proc] of this CPU, its registers, [kpgdir]. *)
Record pst := Pst {
  mch : mach;
  procs : list proc;
  readyList : list (option nat);
  freeList : option nat;
  timeToReset : Z;
  nextpid : Z;
  initproc : option nat;
  curproc : option nat;
  hw : regs;
  kpgdir : Z
}.

Definition set_mch (x : mach) (r : pst) : pst :=
  Pst x (procs r) (readyList r) (freeList r) (timeToReset r) (nextpid r) (initproc r)
    (curproc r) (hw r) (kpgdir r).
Definition set_procs (x : list proc) (r : pst) : pst :=
  Pst (mch r) x (readyList r) (freeList r) (timeToReset r) (nextpid r) (initproc r) (curproc
    r) (hw r) (kpgdir r).
Definition set_readyList (x : list (option nat)) (r : pst) : pst :=
  Pst (mch r) (procs r) x (freeList r) (timeToReset r) (nextpid r) (initproc r) (curproc r)
    (hw r) (kpgdir r).
Definition set_freeList (x : option nat) (r : pst) : pst :=
  Pst (mch r) (procs r) (readyList r) x (timeToReset r) (nextpid r) (initproc r) (curproc r)
    (hw r) (kpgdir r).
Definition set_timeToReset (x : Z) (r : pst) : pst :=
  Pst (mch r) (procs r) (readyList r) (freeList r) x (nextpid r) (initproc r) (curproc r)
    (hw r) (kpgdir r).
Definition set_nextpid (x : Z) (r : pst) : pst :=
  Pst (mch r) (procs r) (readyList r) (freeList r) (timeToReset r) x (initproc r) (curproc
    r) (hw r) (kpgdir r).
Definition set_initproc (x : option nat) (r : pst) : pst :=
  Pst (mch r) (procs r) (readyList r) (freeList r) (timeToReset r) (nextpid r) x (curproc r)
    (hw r) (kpgdir r).
Definition set_curproc (x : option nat) (r : pst) : pst :=
  Pst (mch r) (procs r) (readyList r) (freeList r) (timeToReset r) (nextpid r) (initproc r)
    x (hw r) (kpgdir r).
Definition set_hw (x : regs) (r : pst) : pst :=
  Pst (mch r) (procs r) (readyList r) (freeList r) (timeToReset r) (nextpid r) (initproc r)
    (curproc r) x (kpgdir r).
Definition set_kpgdir (x : Z) (r : pst) : pst :=
  Pst (mch r) (procs r) (readyList r) (freeList r) (timeToReset r) (nextpid r) (initproc r)
    (curproc r) (hw r) x.

#[global] Instance pst_mach : Lens pst mach := {| view := mch; put := set_mch |}.
#[global] Instance pst_mach_ok : LensOk pst mach.
Proof. by split; intros; try destruct s. Qed.

(** ** Pointers into the table *)

Definition getp (i : nat) : K pst proc := λ s,
  match procs s !! i with Some p => Ok p s | None => Fault end.

Definition setp (i : nat) (f : proc → proc) : K pst unit := λ s,
  match procs s !! i with
  | Some p => Ok tt (set_procs (<[i := f p]> (procs s)) s)
  | None => Fault
  end.

(** [proc], where the code dereferences it. *)
Definition myproc : K pst nat := s ← get; deref (curproc s).

(** [ptable.readyList[priority]]. *)
Definition getReady (priority : Z) : K pst (option nat) := λ s,
  if priority <? 0 then Fault
  else match readyList s !! Z.to_nat priority with Some h => Ok h s | None => Fault end.

Definition setReady (priority : Z) (h : option nat) : K pst unit := λ s,
  if priority <? 0 then Fault
  else match readyList s !! Z.to_nat priority with
       | Some _ => Ok tt (set_readyList (<[Z.to_nat priority := h]> (readyList s)) s)
       | None => Fault
       end.

(** More iterations than a list through the table can be long. *)
Definition LISTFUEL : nat := S NPROC.

(** ** The lists *)

Definition initFreeList : K pst unit :=
  modify (set_freeList None);;
  for_each (seq 0 NPROC) (λ p,
    q ← getp p;
    (if decide (p_state q = UNUSED) then
       h ← gets freeList;
       setp p (set_p_next h);;
       modify (set_freeList (Some p))
     else mret tt);;
    setp p (set_p_priority DEFAULTPRIO)).

(** [while (current->next != 0) current = current->next;] *)
Definition walk_to_tail (current : nat) : K pst nat :=
  while LISTFUEL (λ current,
    q ← getp current;
    match p_next q with
    | Some n => mret (inl n)
    | None => mret (inr current)
    end) current.

Definition putOnFreeList (p : nat) : K pst unit :=
  current ← gets freeList;
  match current with
  | None =>
      modify (set_freeList (Some p));;
      setp p (set_p_next None)
  | Some current =>
      tail ← walk_to_tail current;
      setp p (set_p_next None);;
      setp tail (set_p_next (Some p))
  end.

Definition putOnReadyList (p : nat) (priority : Z) : K pst unit :=
  current ← getReady priority;
  match current with
  | None =>
      setReady priority (Some p);;
      setp p (set_p_next None)
  | Some current =>
      tail ← walk_to_tail current;
      setp p (set_p_next None);;
      setp tail (set_p_next (Some p))
  end.

(** The loop of [removeFromReadyList]; [current] is a pointer that the loop
    test dereferences. *)
Definition unlink_step (p : nat) (current : option nat) : K pst (option nat + option nat) :=
  c ← deref current;
  q ← getp c;
  match p_next q with
  | None => mret (inr current)
  | Some n =>
      (if decide (n = p) then
         qn ← getp n;
         setp c (set_p_next (p_next qn));;
         setp p (set_p_next None)
       else mret tt);;
      q' ← getp c;
      mret (inl (p_next q'))
  end.

Definition unlink_loop (p : nat) (current : option nat) : K pst (option nat) :=
  while LISTFUEL (unlink_step p) current.

Definition removeFromReadyList (p : nat) (priority : Z) : K pst unit :=
  current ← getReady priority;
  match current with
  | None => mret tt
  | Some c =>
      if decide (c = p) then
        q ← getp c;
        setReady priority (p_next q);;
        setp p (set_p_next None)
      else
        _ ← unlink_loop p (Some c);
        mret tt
  end.

(** One of the two loops of [resetReadyList]. *)
Definition demote_step (current : option nat) : K pst (option nat + option nat) :=
  match current with
  | None => mret (inr None)
  | Some c =>
      q ← getp c;
      let next := p_next q in
      removeFromReadyList c (p_priority q);;
      setp c (set_p_priority DEFAULTPRIO);;
      q' ← getp c;
      putOnReadyList c (p_priority q');;
      mret (inl next)
  end.

Definition demote_loop (current : option nat) : K pst (option nat) :=
  while LISTFUEL demote_step current.

Definition resetReadyList : K pst unit :=
  current ← getReady HIGH;
  _ ← demote_loop current;
  current ← getReady LOW;
  _ ← demote_loop current;
  for_each (seq 0 NPROC) (λ p,
    q ← getp p;
    if bool_decide (p_state q = RUNNING) || bool_decide (p_state q = SLEEPING)
    then setp p (set_p_priority DEFAULTPRIO)
    else mret tt).

(** ** Giving up the processor *)

Definition pinit : K pst unit := lift (initlock Lptable "ptable").

(** [swtch]: the thread stops here; it goes on from whatever state the kernel
    is in when it is next switched to. *)
Definition swtch : K pst unit := λ s, Switch s (λ s', Ok tt s').

Definition sched : K pst unit :=
  h ← lift (holding Lptable);
  panic_if (negb h) "sched ptable.lock";;
  m ← gets mch;
  panic_if (negb (ncli m =? 1)) "sched locks";;
  p ← myproc;
  q ← getp p;
  panic_if (bool_decide (p_state q = RUNNING)) "sched running";;
  ef ← lift readeflags;
  panic_if (negb (Z.land ef FL_IF =? 0)) "sched interruptible";;
  m' ← gets mch;
  let ie := intena m' in
  swtch;;
  modify (λ s, set_mch (set_intena ie (mch s)) s).

Definition yield : K pst unit :=
  lift (acquire Lptable);;
  p ← myproc;
  setp p (set_p_state RUNNABLE);;
  q ← getp p;
  putOnReadyList p (p_priority q);;
  sched;;
  lift (release Lptable).

(** [sleep], and below [wakeup] and the scheduler, over the operations on locks:
    with [acquire] and [release] they are what one CPU does alone; Wakeups.v lets
    another CPU run between the same operations. *)
Definition sleep_with (acq rel : lockid → K pst unit) (c : option chan) (lk : option lockid) : K pst unit :=
  cur ← gets curproc;
  panic_if (bool_decide (cur = None)) "sleep";;
  panic_if (bool_decide (lk = None)) "sleep without lk";;
  lk ← deref lk;
  (if decide (lk = Lptable) then mret tt
   else acq Lptable;; rel lk);;
  p ← myproc;
  setp p (set_p_chan c);;
  setp p (set_p_state SLEEPING);;
  sched;;
  p ← myproc;
  setp p (set_p_chan None);;
  if decide (lk = Lptable) then mret tt
  else rel Lptable;; acq lk.

Definition sleep : option chan → option lockid → K pst unit :=
  sleep_with (λ l, lift (acquire l)) (λ l, lift (release l)).

(** ** Waking *)

Definition wakeup1 (c : option chan) : K pst unit :=
  for_each (seq 0 NPROC) (λ p,
    q ← getp p;
    if bool_decide (p_state q = SLEEPING) && bool_decide (p_chan q = c) then
      setp p (set_p_state RUNNABLE);;
      q' ← getp p;
      putOnReadyList p (p_priority q')
    else mret tt).

Definition wakeup_with (acq rel : lockid → K pst unit) (c : option chan) : K pst unit :=
  acq Lptable;;
  wakeup1 c;;
  rel Lptable.

Definition wakeup : option chan → K pst unit :=
  wakeup_with (λ l, lift (acquire l)) (λ l, lift (release l)).

(** What [kill] does to the process it finds, before it releases the lock. *)
Definition kill_found (p : nat) : K pst unit :=
  setp p (set_p_killed true);;
  q' ← getp p;
  if decide (p_state q' = SLEEPING) then
    setp p (set_p_state RUNNABLE);;
    q'' ← getp p;
    putOnReadyList p (p_priority q'')
  else mret tt.

Definition kill (pid : Z) : K pst Z :=
  lift (acquire Lptable);;
  r ← for_ret (seq 0 NPROC) (λ p,
    q ← getp p;
    if p_pid q =? pid then
      kill_found p;;
      lift (release Lptable);;
      mret (Some 0)
    else mret None);
  match r with
  | Some v => mret v
  | None => lift (release Lptable);; mret (-1)
  end.

(** ** Choosing the next process *)

(** Segment selectors of mmu.h. *)
Definition SEG_KDATA : Z := 2.
Definition SEG_TSS : Z := 6.

(** vm.c; the [SEG_TSS] entry of the CPU's descriptor table, always the same
    descriptor of the CPU's task segment, is not represented. *)
Definition switchuvm (p : nat) : K pst unit :=
  lift pushcli;;
  c ← myproc;
  qc ← getp c;
  modify (λ s, set_hw (Regs (cr3 (hw s)) (Z.shiftl SEG_TSS 3) (Z.shiftl SEG_KDATA 3)
    (u32 (p_kstack qc + KSTACKSIZE))) s);;
  q ← getp p;
  panic_if (p_pgdir q =? 0) "switchuvm: no pgdir";;
  modify (λ s, set_hw (Regs (u32 (p_pgdir q - 0x80000000)) (tr (hw s)) (ts_ss0 (hw s))
    (ts_esp0 (hw s))) s);;
  lift popcli.

Definition switchkvm : K pst unit :=
  modify (λ s, set_hw (Regs (u32 (kpgdir s - 0x80000000)) (tr (hw s)) (ts_ss0 (hw s))
    (ts_esp0 (hw s))) s).

(** The body of the inner loop of [scheduler] up to the switch, for the ready
    list [i]: [None] when the list is empty ([continue]), otherwise the chosen
    process and the loop variable before its increment. *)
Definition dispatch (i : Z) : K pst (option (nat * Z)) :=
  h ← getReady i;
  match h with
  | None => mret None
  | Some p =>
      q ← getp p;
      removeFromReadyList p (p_priority q);;
      let i' := if negb (i =? 2) then -1 else i in
      modify (λ s, set_timeToReset (u32 (timeToReset s - 1)) s);;
      t ← gets timeToReset;
      (if t =? 0 then
         resetReadyList;;
         modify (set_timeToReset COUNT)
       else mret tt);;
      modify (set_curproc (Some p));;
      switchuvm p;;
      setp p (set_p_state RUNNING);;
      mret (Some (p, i'))
  end.

(** The inner [for] loop, [fuel] bounding how many processes it runs. *)
Fixpoint scheduler_loop (fuel : nat) (i : Z) : K pst unit :=
  match fuel with
  | O => diverge
  | S n =>
      if i <? Z.of_nat SIZE then
        r ← dispatch i;
        match r with
        | None => scheduler_loop n (i + 1)
        | Some (p, i') =>
            swtch;;
            switchkvm;;
            modify (set_curproc None);;
            scheduler_loop n (i' + 1)
        end
      else mret tt
  end.

(** One round of the outer [for(;;)] of [scheduler]. *)
Definition scheduler_round_with (acq rel : lockid → K pst unit) (fuel : nat) : K pst unit :=
  lift sti;;
  acq Lptable;;
  scheduler_loop fuel 0;;
  rel Lptable.

Definition scheduler_round : nat → K pst unit :=
  scheduler_round_with (λ l, lift (acquire l)) (λ l, lift (release l)).

(** ** Priorities and process listing *)

Definition setPriority (pid priority : Z) : K pst Z :=
  lift (acquire Lptable);;
  r ← for_ret (seq 0 NPROC) (λ p,
    q ← getp p;
    if p_pid q =? pid then
      let oldPriority := p_priority q in
      if oldPriority =? priority then
        lift (release Lptable);;
        mret (Some (inl 0))
      else
        setp p (set_p_priority priority);;
        q' ← getp p;
        (if decide (p_state q' = RUNNABLE) then
           removeFromReadyList p oldPriority;;
           putOnReadyList p priority
         else mret tt);;
        mret (Some (inr 0))
    else mret None);
  match r with
  | Some (inl v) => mret v
  | Some (inr found) => lift (release Lptable);; mret found
  | None => lift (release Lptable);; mret (-1)
  end.

(** [struct uproc] of uproc.h. *)
Record uproc := Uproc {
  up_pid : Z; up_gid : Z; up_uid : Z; up_ppid : Z; up_state : list Z;
  up_size : Z; up_priority : Z; up_name : list Z
}.

(** The [states] table of [getProcInfo]: the designated initialisers make it an
    array of five pointers, of which the first two are null. *)
Definition states : list (option (list Z)) :=
  [None; None; Some (cstring "SLEEPING"); Some (cstring "RUNNABLE"); Some (cstring "RUNNING ")].

Definition state_index (st : procstate) : nat :=
  match st with
  | UNUSED => 0 | EMBRYO => 1 | SLEEPING => 2 | RUNNABLE => 3 | RUNNING => 4 | ZOMBIE => 5
  end.

(** The filled entries of [table], which has what was there before behind them. *)
Definition getProcInfo (max : Z) (table : list uproc) : K pst (Z * list uproc) :=
  lift (acquire Lptable);;
  r ← while LISTFUEL (λ '(p, i, tab),
    if (i <? max) && (Z.of_nat p <? Z.of_nat NPROC) then
      q ← getp p;
      if bool_decide (p_state q = ZOMBIE) || bool_decide (p_state q = RUNNING) ||
         bool_decide (p_state q = RUNNABLE) || bool_decide (p_state q = SLEEPING) then
        old ← deref (tab !! Z.to_nat i);
        ppid ← match p_parent q with
               | Some pp => qp ← getp pp; mret (p_pid qp)
               | None => mret (p_pid q)
               end;
        sname ← deref (states !! state_index (p_state q) ≫= id);
        st ← deref (strncpy (up_state old) sname 16);
        nm ← deref (strncpy (up_name old) (p_name q) 16);
        let e := Uproc (p_pid q) (p_gid q) (p_uid q) ppid st (p_sz q) (p_priority q) nm in
        mret (inl (S p, i + 1, <[Z.to_nat i := e]> tab))
      else mret (inl (S p, i, tab))
    else mret (inr (p, i, tab))) (0%nat, 0, table);
  let '(_, i, tab) := r in
  lift (release Lptable);;
  mret (i, tab).
