(* ===== verification/PtableLists.v ===== *)
(** * The linked lists of the process table

    [chain ps h l]: following the [next] fields of the table [ps] from the
    pointer [h] visits exactly the slots [l] and ends in a null pointer.
    [lists_ok s Q F] says that the three ready lists of [s] are the queues [Q],
    the free list is [F], and no slot is on two lists or twice on one.  The
    list routines of proc.c are shown to implement the operations on [Q] and
    [F] that their comments promise, and to change nothing of the table but
    [next] fields ([erase]). *)
From S2P Require Import Prelude Spinlock Str Ptable.

(** ** The abstract view *)

Fixpoint chain (ps : list proc) (h : option nat) (l : list nat) : Prop :=
  match l with
  | [] => h = None
  | x :: l' => h = Some x ∧ ∃ q, ps !! x = Some q ∧ chain ps (p_next q) l'
  end.

Record lists_ok (s : pst) (Q : list (list nat)) (F : list nat) : Prop := Lists_ok {
  lo_procs : length (procs s) = NPROC;
  lo_queues : length Q = SIZE;
  lo_ready : Forall2 (chain (procs s)) (readyList s) Q;
  lo_free : chain (procs s) (freeList s) F;
  lo_nodup : NoDup (F ++ concat Q)
}.

(** The table without its list pointers. *)
Definition erase (ps : list proc) : list proc := set_p_next None <$> ps.

(** ** Chains *)

Lemma chain_lt ps h l x : chain ps h l → x ∈ l → (x < length ps)%nat.
Proof.
  revert h. induction l as [|y l IH]; intros h Hc Hx; [set_solver|].
  destruct Hc as (-> & q & Hq & Hc). apply elem_of_cons in Hx as [->|Hx]; [|eauto].
  by eapply lookup_lt_Some.
Qed.

Lemma chain_length ps h l : chain ps h l → NoDup l → (length l ≤ length ps)%nat.
Proof.
  intros Hc Hnd. rewrite <- (length_seq (length ps) 0).
  apply submseteq_length, NoDup_submseteq; [done|].
  intros x Hx. apply elem_of_seq. pose proof (chain_lt _ _ _ _ Hc Hx). lia.
Qed.

Lemma chain_alter_ne ps h l x f : x ∉ l → chain ps h l → chain (alter f x ps) h l.
Proof.
  revert h. induction l as [|y l IH]; intros h Hx Hc; [done|].
  destruct Hc as (-> & q' & Hq & Hc). split; [done|]. exists q'.
  rewrite list_lookup_alter_ne by set_solver. split; [done|]. apply IH; [set_solver|done].
Qed.

Lemma chain_app ps h l1 l2 :
  chain ps h (l1 ++ l2) →
  ∃ h', chain ps h' l2 ∧
    ∀ ps', (∀ x, x ∈ l1 → ps' !! x = ps !! x) → chain ps' h' l2 → chain ps' h (l1 ++ l2).
Proof.
  revert h. induction l1 as [|y l1 IH]; intros h Hc; simpl in *.
  { exists h. split; [done|]. by intros. }
  destruct Hc as (-> & q & Hq & Hc). destruct (IH _ Hc) as (h' & Hc' & Hback).
  exists h'. split; [done|]. intros ps' Heq Hc''. split; [done|].
  exists q. split; [rewrite Heq by set_solver; done|]. apply Hback; [|done]. set_solver.
Qed.

(** Changing the [next] field of one slot of a chain changes what follows it. *)
Lemma chain_relink ps h l t k n l' :
  chain ps h (l ++ t :: k) → t ∉ l →
  chain (alter (set_p_next n) t ps) n l' →
  chain (alter (set_p_next n) t ps) h (l ++ t :: l').
Proof.
  intros Hc Ht Hn. revert h Hc. induction l as [|y l IH]; intros h Hc; simpl in *.
  - destruct Hc as (-> & q & Hq & _). split; [done|]. exists (set_p_next n q).
    by rewrite list_lookup_alter_eq, Hq.
  - destruct Hc as (-> & q & Hq & Hc). split; [done|]. exists q.
    rewrite list_lookup_alter_ne by set_solver. split; [done|]. apply IH; [set_solver|done].
Qed.

(** What appending the slot [x] to the list [l] does to the table. *)
Definition append_next (l : list nat) (x : nat) (ps : list proc) : list proc :=
  match last l with
  | None => alter (set_p_next None) x ps
  | Some t => alter (set_p_next (Some x)) t (alter (set_p_next None) x ps)
  end.

Lemma chain_single ps x : (x < length ps)%nat → chain (alter (set_p_next None) x ps) (Some x) [x].
Proof.
  intros [q Hq]%lookup_lt_is_Some. split; [done|]. exists (set_p_next None q).
  by rewrite list_lookup_alter_eq, Hq.
Qed.

Lemma chain_append ps h l x :
  chain ps h l → NoDup l → x ∉ l → (x < length ps)%nat →
  chain (append_next l x ps) (match h with None => Some x | Some c => Some c end) (l ++ [x]).
Proof.
  intros Hc Hnd Hx Hlt. unfold append_next.
  destruct l as [|t l _] using rev_ind.
  { simpl in Hc. subst h. by apply chain_single. }
  rewrite last_snoc.
  assert (∃ c, h = Some c) as [c ->] by (destruct l; simpl in Hc; naive_solver).
  rewrite <- app_assoc. simpl.
  eapply chain_relink; [by apply chain_alter_ne|apply NoDup_app in Hnd; set_solver|].
  apply chain_alter_ne; [set_solver|]. by apply chain_single.
Qed.

(** Another list of the table does not notice. *)
Lemma chain_append_other ps h l x k :
  chain ps h k → x ∉ k → (∀ y, y ∈ l → y ∉ k) → chain (append_next l x ps) h k.
Proof.
  intros Hc Hx Hd. unfold append_next. destruct (last l) as [t|] eqn:E.
  - apply chain_alter_ne; [|by apply chain_alter_ne]. apply Hd.
    apply last_Some_elem_of in E. done.
  - by apply chain_alter_ne.
Qed.

(** ** Changing only list pointers *)

Lemma erase_alter ps x n : erase (alter (set_p_next n) x ps) = erase ps.
Proof.
  unfold erase. apply list_eq. intros i. rewrite !list_lookup_fmap.
  destruct (decide (i = x)) as [->|].
  - rewrite list_lookup_alter_eq. by destruct (ps !! x).
  - by rewrite list_lookup_alter_ne.
Qed.

Lemma erase_append l x ps : erase (append_next l x ps) = erase ps.
Proof. unfold append_next. destruct (last l); by rewrite !erase_alter. Qed.

Lemma erase_lookup ps ps' x q :
  erase ps' = erase ps → ps !! x = Some q →
  ∃ n, ps' !! x = Some (set_p_next n q).
Proof.
  intros He Hx.
  assert (set_p_next None <$> ps' !! x = Some (set_p_next None q)) as H.
  { rewrite <- list_lookup_fmap. fold (erase ps'). rewrite He. unfold erase.
    by rewrite list_lookup_fmap, Hx. }
  destruct (ps' !! x) as [q'|]; [|done]. simpl in H. injection H. intros. exists (p_next q').
  f_equal. destruct q', q. unfold set_p_next in *. simpl in *. by subst.
Qed.

Lemma erase_length ps ps' : erase ps' = erase ps → length ps' = length ps.
Proof. intros H. apply (f_equal length) in H. unfold erase in H. by rewrite !length_fmap in H. Qed.

(** ** Walking a chain *)

Lemma getp_ok s x q : procs s !! x = Some q → getp x s = Ok q s.
Proof. intros H. unfold getp. by rewrite H. Qed.

Lemma setp_ok s x f :
  (x < length (procs s))%nat → setp x f s = Ok tt (set_procs (alter f x (procs s)) s).
Proof.
  intros [q H]%lookup_lt_is_Some. unfold setp. rewrite H. do 2 f_equal.
  apply list_eq. intros i. destruct (decide (i = x)) as [->|].
  - rewrite list_lookup_alter_eq, H, list_lookup_insert_eq; [done|by eapply lookup_lt_Some].
  - by rewrite list_lookup_alter_ne, list_lookup_insert_ne.
Qed.

Lemma wp_getp E s x q (Q : proc → pst → Prop) :
  procs s !! x = Some q → Q q s → wp E (getp x) Q s.
Proof. intros H HQ. by apply (wp_ok _ _ _ _ _ _ (getp_ok s x q H)). Qed.

Lemma wp_setp E s x f (Q : unit → pst → Prop) :
  (x < length (procs s))%nat → Q tt (set_procs (alter f x (procs s)) s) → wp E (setp x f) Q s.
Proof. intros H HQ. by apply (wp_ok _ _ _ _ _ _ (setp_ok s x f H)). Qed.

Lemma walk_fuel l : ∀ s c t fuel,
  chain (procs s) (Some c) (l ++ [t]) → (length l < fuel)%nat →
  while fuel (λ current, q ← getp current;
    match p_next q with Some n => mret (inl n) | None => mret (inr current) end) c s = Ok t s.
Proof.
  induction l as [|y l IH]; intros s c t fuel Hc Hf; (destruct fuel as [|fuel]; [simpl in *; lia|]).
  - destruct Hc as ([= ->] & q & Hq & Hn). simpl in Hn. cbn [while].
    krun. rewrite (getp_ok _ _ _ Hq). cbn [obind]. by rewrite Hn.
  - destruct Hc as ([= ->] & q & Hq & Hn). cbn [while].
    assert (∃ n, p_next q = Some n) as [n Hnx] by (destruct l; simpl in Hn; naive_solver).
    rewrite Hnx in Hn. krun. rewrite (getp_ok _ _ _ Hq). cbn [obind]. rewrite Hnx. cbn [obind].
    apply IH; [done|simpl in Hf; lia].
Qed.

Lemma walk_to_tail_ok s c l t :
  chain (procs s) (Some c) (l ++ [t]) → NoDup (l ++ [t]) → length (procs s) = NPROC →
  walk_to_tail c s = Ok t s.
Proof.
  intros Hc Hnd Hlen. apply (walk_fuel l); [done|].
  pose proof (chain_length _ _ _ Hc Hnd) as H. rewrite length_app in H. simpl in H.
  rewrite Hlen in H. unfold LISTFUEL. lia.
Qed.

(** ** The lists together *)

(** What the list routines leave alone. *)
Definition rest (s : pst) :=
  (mch s, timeToReset s, nextpid s, initproc s, curproc s, hw s, kpgdir s).

Record same_but_lists (s s' : pst) : Prop := Same_but_lists {
  sb_erase : erase (procs s') = erase (procs s);
  sb_rest : rest s' = rest s
}.

#[global] Instance same_but_lists_preorder : PreOrder same_but_lists.
Proof.
  split; [done|]. intros s1 s2 s3 [H1 H2] [H3 H4]. split; etrans; eauto.
Qed.

Section lists_ok_facts.
Context (s : pst) (Q : list (list nat)) (F : list nat) (HL : lists_ok s Q F).

Lemma lo_queue i l : Q !! i = Some l →
  ∃ h, readyList s !! i = Some h ∧ chain (procs s) h l.
Proof. intros H. destruct (Forall2_lookup_r _ _ _ _ _ (lo_ready _ _ _ HL) H) as (h & ? & ?). eauto. Qed.

Lemma lo_ready_length : length (readyList s) = SIZE.
Proof. rewrite (Forall2_length _ _ _ (lo_ready _ _ _ HL)). apply (lo_queues _ _ _ HL). Qed.

Lemma lo_nodup_queue i l : Q !! i = Some l → NoDup l.
Proof.
  intros H. pose proof (lo_nodup _ _ _ HL) as Hnd.
  rewrite (concat_lookup _ _ _ H), !NoDup_app in Hnd. naive_solver.
Qed.

Lemma lo_nodup_free : NoDup F.
Proof. pose proof (lo_nodup _ _ _ HL) as Hnd. rewrite NoDup_app in Hnd. naive_solver. Qed.

Lemma lo_disjoint i j l k x :
  Q !! i = Some l → Q !! j = Some k → i ≠ j → x ∈ l → x ∉ k.
Proof.
  intros Hi Hj Hne Hx Hk. pose proof (lo_nodup _ _ _ HL) as Hnd.
  rewrite (concat_lookup _ _ _ Hi), !NoDup_app in Hnd. destruct Hnd as (_ & _ & _ & Hd & _).
  apply (Hd x Hx). apply elem_of_concat.
  destruct (decide (j < i)%nat).
  - exists j, k. by rewrite list_lookup_delete_lt.
  - exists (j - 1)%nat, k. rewrite list_lookup_delete_ge by lia.
    by replace (S (j - 1)) with j by lia.
Qed.

Lemma lo_free_queue i l x : Q !! i = Some l → x ∈ F → x ∉ l.
Proof.
  intros Hi Hx Hl. pose proof (lo_nodup _ _ _ HL) as Hnd. rewrite NoDup_app in Hnd.
  destruct Hnd as (_ & Hd & _). apply (Hd x Hx), elem_of_concat. eauto.
Qed.

Lemma lo_lt i l x : Q !! i = Some l → x ∈ l → (x < NPROC)%nat.
Proof.
  intros Hi Hx. destruct (lo_queue _ _ Hi) as (h & _ & Hc).
  pose proof (chain_lt _ _ _ _ Hc Hx). by rewrite (lo_procs _ _ _ HL) in *.
Qed.
End lists_ok_facts.

Lemma getReady_ok s i h : readyList s !! i = Some h → getReady (Z.of_nat i) s = Ok h s.
Proof. intros H. unfold getReady. zcases. by rewrite Nat2Z.id, H. Qed.

Lemma setReady_ok s i h :
  (i < length (readyList s))%nat →
  setReady (Z.of_nat i) h s = Ok tt (set_readyList (<[i := h]> (readyList s)) s).
Proof.
  intros [x H]%lookup_lt_is_Some. unfold setReady. zcases. by rewrite Nat2Z.id, H.
Qed.

Lemma chains_transfer ps ps' rl Q :
  Forall2 (chain ps) rl Q →
  (∀ i h k, Q !! i = Some k → chain ps h k → chain ps' h k) →
  Forall2 (chain ps') rl Q.
Proof.
  rewrite !Forall2_same_length_lookup. intros [Hl Hc] Hother. split; [done|]. eauto.
Qed.

(** Replacing one queue: what has to be shown for the others. *)
Lemma lists_ok_update s Q F i l' h' ps' rl' :
  lists_ok s Q F → (i < SIZE)%nat →
  length ps' = NPROC →
  rl' = <[i := h']> (readyList s) →
  chain ps' h' l' →
  (∀ j h k, j ≠ i → Q !! j = Some k → chain (procs s) h k → chain ps' h k) →
  (chain (procs s) (freeList s) F → chain ps' (freeList s) F) →
  NoDup (F ++ concat (<[i := l']> Q)) →
  lists_ok (set_procs ps' (set_readyList rl' s)) (<[i := l']> Q) F.
Proof.
  intros HL Hi Hps -> Hc Hother Hfree Hnd.
  pose proof (lo_ready_length _ _ _ HL) as Hrl. pose proof (lo_queues _ _ _ HL) as HQ.
  split; simpl; [done|by rewrite length_insert| |apply Hfree, (lo_free _ _ _ HL)|done].
  apply Forall2_same_length_lookup_2; [by rewrite !length_insert, HQ, Hrl|].
  intros j h k Hj Hk. destruct (decide (j = i)) as [->|Hne].
  - rewrite list_lookup_insert_eq in Hj by lia. rewrite list_lookup_insert_eq in Hk by lia.
    by simplify_eq.
  - rewrite list_lookup_insert_ne in Hj by done. rewrite list_lookup_insert_ne in Hk by done.
    eapply Hother; eauto.
    destruct (lo_queue _ _ _ HL _ _ Hk) as (h'' & ? & ?). by simplify_eq.
Qed.

(** [putOnReadyList] appends to the queue of its priority. *)
Lemma putOnReadyList_ok s Q F x i l :
  lists_ok s Q F → Q !! i = Some l → x ∉ F ++ concat Q → (x < NPROC)%nat →
  ∃ s', putOnReadyList x (Z.of_nat i) s = Ok tt s' ∧
    lists_ok s' (<[i := l ++ [x]]> Q) F ∧ same_but_lists s s' ∧ freeList s' = freeList s.
Proof.
  intros HL Hi Hx Hlt.
  destruct (lo_queue _ _ _ HL _ _ Hi) as (h & Hh & Hc).
  pose proof (lo_nodup_queue _ _ _ HL _ _ Hi) as Hndl.
  pose proof (lo_procs _ _ _ HL) as Hlen. pose proof (lo_ready_length _ _ _ HL) as Hrl.
  pose proof (lookup_lt_Some _ _ _ Hi) as Hi'. rewrite (lo_queues _ _ _ HL) in Hi'.
  assert (x ∉ l) as Hxl by (rewrite (concat_lookup _ _ _ Hi) in Hx; set_solver).
  set (s' := set_procs (append_next l x (procs s))
    (set_readyList (<[i := match h with None => Some x | Some c => Some c end]> (readyList s)) s)).
  exists s'. split; [|split; [|split; [split; [apply erase_append|done]|done]]].
  - unfold putOnReadyList. krun. rewrite (getReady_ok _ _ _ Hh). cbn [obind].
    destruct h as [c|].
    + destruct l as [|t l _] using rev_ind; [done|].
      rewrite (walk_to_tail_ok s c l t Hc Hndl Hlen). cbn [obind].
      rewrite setp_ok by lia. cbn [obind].
      rewrite setp_ok. 2:{ simpl. rewrite length_alter. eapply chain_lt; [done|set_solver]. }
      unfold s', append_next. rewrite last_snoc. simpl. rewrite list_insert_id by done.
      by destruct s.
    + assert (l = []) as -> by (destruct l; simpl in Hc; naive_solver).
      rewrite setReady_ok by lia. cbn [obind]. by rewrite setp_ok by (simpl; lia).
  - eapply lists_ok_update; [done|lia| |done|by apply chain_append; [| | |lia]| | |].
    + unfold append_next. destruct (last l); rewrite ?length_alter; done.
    + intros j h' k Hne Hk Hck. apply chain_append_other; [done| |].
      * rewrite (concat_lookup _ _ _ Hk) in Hx. set_solver.
      * intros y Hy. by eapply (lo_disjoint _ _ _ HL i j).
    + intros Hcf. apply chain_append_other; [done|set_solver|].
      intros y Hy HyF. by eapply lo_free_queue.
    + pose proof (lo_nodup _ _ _ HL) as Hnd.
      rewrite concat_insert by (rewrite (lo_queues _ _ _ HL); lia).
      rewrite (concat_lookup _ _ _ Hi) in Hnd, Hx.
      rewrite <- app_assoc. cbn [app]. rewrite <- !Permutation_middle.
      apply NoDup_cons. split; [set_solver|done].
Qed.

(** [putOnFreeList] appends to the free list. *)
Lemma putOnFreeList_ok s Q F x :
  lists_ok s Q F → x ∉ F ++ concat Q → (x < NPROC)%nat →
  ∃ s', putOnFreeList x s = Ok tt s' ∧
    lists_ok s' Q (F ++ [x]) ∧ same_but_lists s s' ∧ readyList s' = readyList s.
Proof.
  intros HL Hx Hlt. pose proof (lo_free _ _ _ HL) as Hc.
  pose proof (lo_nodup_free _ _ _ HL) as Hnd. pose proof (lo_procs _ _ _ HL) as Hlen.
  set (s' := set_procs (append_next F x (procs s))
    (set_freeList (match freeList s with None => Some x | Some c => Some c end) s)).
  exists s'. split; [|split; [|split; [split; [apply erase_append|done]|done]]].
  - unfold putOnFreeList. krun. destruct (freeList s) as [c|] eqn:Eh.
    + destruct F as [|t l _] using rev_ind; [done|].
      rewrite (walk_to_tail_ok s c l t Hc Hnd Hlen). cbn [obind].
      rewrite setp_ok by lia. cbn [obind].
      rewrite setp_ok. 2:{ simpl. rewrite length_alter. eapply chain_lt; [done|set_solver]. }
      unfold s', append_next. rewrite last_snoc. destruct s; simpl in *; by subst.
    + assert (F = []) as -> by (destruct F; simpl in Hc; naive_solver).
      cbn [obind]. by rewrite setp_ok by (simpl; lia).
  - split; simpl.
    + unfold append_next. destruct (last F); rewrite ?length_alter; done.
    + apply (lo_queues _ _ _ HL).
    + eapply chains_transfer; [apply (lo_ready _ _ _ HL)|].
      intros i h k Hk Hck. apply chain_append_other; [done| |].
      * rewrite (concat_lookup _ _ _ Hk) in Hx. set_solver.
      * intros y Hy. by eapply lo_free_queue.
    + apply chain_append; [done|done|set_solver|lia].
    + pose proof (lo_nodup _ _ _ HL). rewrite <- app_assoc. cbn [app].
      rewrite <- Permutation_middle. apply NoDup_cons. split; [set_solver|done].
Qed.

(** Removing a slot from a queue: the others keep their order. *)
Lemma lists_ok_remove s Q F i l l' h' ps' x :
  lists_ok s Q F → Q !! i = Some l → l ≡ₚ x :: l' →
  length ps' = NPROC → chain ps' h' l' →
  (∀ h k, (∀ y, y ∈ k → y ∉ l) → chain (procs s) h k → chain ps' h k) →
  lists_ok (set_procs ps' (set_readyList (<[i := h']> (readyList s)) s)) (<[i := l']> Q) F.
Proof.
  intros HL Hi Hp Hps Hc Hother.
  pose proof (lookup_lt_Some _ _ _ Hi) as Hlt. rewrite (lo_queues _ _ _ HL) in Hlt.
  eapply lists_ok_update; [done|done|done|done|done| | |].
  - intros j h k Hne Hk. apply Hother. intros y Hy.
    by eapply (lo_disjoint _ _ _ HL j i).
  - apply Hother. intros y Hy. by eapply lo_free_queue.
  - pose proof (lo_nodup _ _ _ HL) as Hnd.
    rewrite concat_insert by (by rewrite (lo_queues _ _ _ HL)).
    rewrite (concat_lookup _ _ _ Hi), Hp in Hnd. cbn [app] in Hnd.
    rewrite <- Permutation_middle in Hnd. by apply NoDup_cons in Hnd as [_ Hnd].
Qed.

(** [removeFromReadyList] takes the head of a queue off. *)
Lemma removeFromReadyList_head s Q F x i l :
  lists_ok s Q F → Q !! i = Some (x :: l) →
  ∃ s', removeFromReadyList x (Z.of_nat i) s = Ok tt s' ∧
    lists_ok s' (<[i := l]> Q) F ∧ same_but_lists s s' ∧ freeList s' = freeList s.
Proof.
  intros HL Hi. destruct (lo_queue _ _ _ HL _ _ Hi) as (h & Hh & -> & q & Hq & Hc).
  pose proof (lo_procs _ _ _ HL) as Hlen. pose proof (lo_ready_length _ _ _ HL) as Hrl.
  pose proof (lookup_lt_Some _ _ _ Hh) as Hlt. pose proof (lookup_lt_Some _ _ _ Hq) as Hx.
  exists (set_procs (alter (set_p_next None) x (procs s))
    (set_readyList (<[i := p_next q]> (readyList s)) s)).
  split; [|split; [|split; [split; [apply erase_alter|done]|done]]].
  - unfold removeFromReadyList. krun. rewrite (getReady_ok _ _ _ Hh). cbn [obind].
    rewrite decide_True by done. rewrite (getp_ok _ _ _ Hq). cbn [obind].
    rewrite setReady_ok by lia. cbn [obind]. by rewrite setp_ok by done.
  - pose proof (lo_nodup_queue _ _ _ HL _ _ Hi) as Hnd. apply NoDup_cons in Hnd as [Hxl Hnd].
    eapply lists_ok_remove; [done|done|done|by rewrite length_alter|by apply chain_alter_ne|].
    intros h k Hk Hck. apply chain_alter_ne; [set_solver|done].
Qed.

(** ** The search loop of [removeFromReadyList] *)

Section unlink.
Context (s : pst) (p : nat).

(** One iteration at a slot whose successor is [n], at the tail, and at null. *)
Lemma unlink_step_next c q n :
  procs s !! c = Some q → p_next q = Some n → n ≠ p →
  unlink_step p (Some c) s = Ok (inl (Some n)) s.
Proof.
  intros Hq Hn Hne. unfold unlink_step. krun. rewrite (getp_ok _ _ _ Hq). cbn [obind].
  rewrite Hn, decide_False by done. cbn [obind]. rewrite (getp_ok _ _ _ Hq). cbn [obind].
  by rewrite Hn.
Qed.

Lemma unlink_step_tail c q :
  procs s !! c = Some q → p_next q = None →
  unlink_step p (Some c) s = Ok (inr (Some c)) s.
Proof.
  intros Hq Hn. unfold unlink_step. krun. rewrite (getp_ok _ _ _ Hq). cbn [obind].
  by rewrite Hn.
Qed.

(** The iteration that finds [p] behind [c]. *)
Lemma unlink_step_found c qc qp :
  procs s !! c = Some qc → p_next qc = Some p → procs s !! p = Some qp → c ≠ p →
  unlink_step p (Some c) s =
  Ok (inl (p_next qp))
    (set_procs (alter (set_p_next None) p (alter (set_p_next (p_next qp)) c (procs s))) s).
Proof.
  intros Hc Hn Hp Hne. unfold unlink_step. krun. rewrite (getp_ok _ _ _ Hc). cbn [obind].
  rewrite Hn, decide_True by done. rewrite (getp_ok _ _ _ Hp). cbn [obind].
  rewrite setp_ok by (by eapply lookup_lt_Some). cbn [obind].
  rewrite setp_ok by (simpl; rewrite length_alter; by eapply lookup_lt_Some). cbn [obind].
  erewrite getp_ok.
  2:{ simpl. rewrite list_lookup_alter_ne, list_lookup_alter_eq, Hc by done. reflexivity. }
  cbn [obind]. by destruct s.
Qed.

(** Slots whose successor is not [p] are passed over. *)
Lemma unlink_skip l : ∀ c a l2 fuel,
  chain (procs s) (Some c) (l ++ a :: l2) → p ∉ l → p ≠ a →
  while (length l + fuel) (unlink_step p) (Some c) s =
  while fuel (unlink_step p) (Some a) s.
Proof.
  induction l as [|y l IH]; intros c a l2 fuel Hc Hp Ha.
  - by destruct Hc as ([= ->] & _).
  - destruct Hc as ([= ->] & q & Hq & Hn). cbn [Nat.add length].
    assert (∃ n, p_next q = Some n ∧ n ≠ p) as (n & Hnx & Hne).
    { destruct l as [|z l]; simpl in Hn; destruct Hn as (Hn & _); eexists; split; try done.
      set_solver. }
    rewrite (while_ok _ _ _ _ _ _ (unlink_step_next _ _ _ Hq Hnx Hne)).
    rewrite Hnx in Hn. eapply IH; [done|set_solver|done].
Qed.

(** A queue without [p] is searched to its end. *)
Lemma unlink_absent l : ∀ c fuel,
  chain (procs s) (Some c) l → p ∉ l → (length l ≤ fuel)%nat →
  ∃ r, while fuel (unlink_step p) (Some c) s = Ok r s.
Proof.
  intros c fuel Hc Hp Hf.
  destruct l as [|a l _] using rev_ind; [done|].
  rewrite length_app in Hf. simpl in Hf.
  replace fuel with (length l + S (fuel - length l - 1))%nat by lia.
  rewrite (unlink_skip l c a []) by (done || set_solver).
  apply chain_app in Hc as (h & Hc & _). destruct Hc as (-> & q & Hq & Hn). simpl in Hn.
  rewrite (while_ok _ _ _ _ _ _ (unlink_step_tail _ _ Hq Hn)). eauto.
Qed.
End unlink.

(** [p] in the middle: it is unlinked and the rest of the queue is searched on. *)
Lemma unlink_middle s p c l1 a b l2 fuel :
  chain (procs s) (Some c) (l1 ++ a :: p :: b :: l2) → NoDup (l1 ++ a :: p :: b :: l2) →
  (length (l1 ++ a :: p :: b :: l2) ≤ fuel)%nat →
  let ps' := alter (set_p_next None) p (alter (set_p_next (Some b)) a (procs s)) in
  chain ps' (Some c) (l1 ++ a :: b :: l2) ∧
  ∃ r, while fuel (unlink_step p) (Some c) s = Ok r (set_procs ps' s).
Proof.
  intros Hc Hnd Hf ps'. pose proof Hnd as Hnd0.
  apply NoDup_app in Hnd as (Hnd1 & Hdis & Hnd2). rewrite !NoDup_cons in Hnd2.
  destruct Hnd2 as (Ha & Hp & Hb & Hnd2).
  pose proof Hc as Hcc. apply chain_app in Hcc as (h & Hc2 & _).
  destruct Hc2 as (-> & qa & Hqa & Hna & qp & Hqp & Hc3).
  assert (p_next qp = Some b) as Hnp by apply Hc3.
  assert (chain ps' (Some b) (b :: l2)) as Hcb.
  { rewrite Hnp in Hc3. do 2 (apply chain_alter_ne; [set_solver|]). done. }
  split.
  - unfold ps'. apply chain_alter_ne; [set_solver|].
    eapply chain_relink; [done|set_solver|].
    apply chain_alter_ne; [set_solver|]. by rewrite <- Hnp.
  - rewrite length_app in Hf. simpl in Hf.
    replace fuel with (length l1 + S (fuel - length l1 - 1))%nat by lia.
    rewrite (unlink_skip s p l1 c a (p :: b :: l2)) by (done || set_solver).
    erewrite while_ok.
    2:{ apply (unlink_step_found s p a qa qp); [done|done|done|set_solver]. }
    rewrite Hnp. fold ps'.
    apply (unlink_absent (set_procs ps' s) p (b :: l2)); [done|set_solver|simpl; lia].
Qed.

(** [p] at the tail: the loop follows the null pointer it has just stored. *)
Lemma unlink_last s p c l1 a fuel :
  chain (procs s) (Some c) (l1 ++ [a; p]) → NoDup (l1 ++ [a; p]) →
  (length (l1 ++ [a; p]) ≤ fuel)%nat →
  while fuel (unlink_step p) (Some c) s = Fault.
Proof.
  intros Hc Hnd Hf.
  apply NoDup_app in Hnd as (Hnd1 & Hdis & Hnd2). rewrite !NoDup_cons in Hnd2.
  pose proof Hc as Hcc. apply chain_app in Hcc as (h & Hc2 & _).
  destruct Hc2 as (-> & qa & Hqa & Hna & qp & Hqp & Hnp). simpl in Hnp.
  rewrite length_app in Hf. simpl in Hf.
  replace fuel with (length l1 + S (S (fuel - length l1 - 2)))%nat by lia.
  rewrite (unlink_skip s p l1 c a [p]) by (done || set_solver).
  erewrite while_ok.
  2:{ apply (unlink_step_found s p a qa qp); [done|done|done|set_solver]. }
  rewrite Hnp. by apply while_fault.
Qed.

(** [removeFromReadyList] of a slot between two others. *)
Lemma removeFromReadyList_middle s Q F i l1 a p b l2 :
  lists_ok s Q F → Q !! i = Some (l1 ++ a :: p :: b :: l2) →
  ∃ s', removeFromReadyList p (Z.of_nat i) s = Ok tt s' ∧
    lists_ok s' (<[i := l1 ++ a :: b :: l2]> Q) F ∧ same_but_lists s s' ∧
    freeList s' = freeList s.
Proof.
  intros HL Hi. destruct (lo_queue _ _ _ HL _ _ Hi) as (h & Hh & Hc).
  pose proof (lo_nodup_queue _ _ _ HL _ _ Hi) as Hnd.
  pose proof (chain_length _ _ _ Hc Hnd) as Hl. rewrite (lo_procs _ _ _ HL) in Hl.
  assert (∃ c, h = Some c ∧ c ≠ p) as (c & -> & Hcp).
  { apply NoDup_app in Hnd as (_ & Hd & Hn2). rewrite !NoDup_cons in Hn2.
    destruct l1 as [|c l1]; simpl in Hc; destruct Hc as (-> & _); eexists; split; try done; set_solver. }
  destruct (unlink_middle s p c l1 a b l2 LISTFUEL Hc Hnd) as (Hc' & r & Hr).
  { unfold LISTFUEL. lia. }
  eexists. split; [|split; [|split]].
  - unfold removeFromReadyList. krun. rewrite (getReady_ok _ _ _ Hh). cbn [obind].
    rewrite decide_False by done. unfold unlink_loop. rewrite Hr. cbn [obind]. done.
  - replace s with (set_readyList (<[i := Some c]> (readyList s)) s) at 2
      by (rewrite list_insert_id by done; by destruct s).
    eapply lists_ok_remove; [done|done| |by rewrite !length_alter, (lo_procs _ _ _ HL)|done|].
    { transitivity ((l1 ++ [a]) ++ p :: b :: l2); [by rewrite <- app_assoc|].
      rewrite <- Permutation_middle. by rewrite <- app_assoc. }
    intros h k Hk Hck. do 2 (apply chain_alter_ne; [set_solver|]). done.
  - split; [simpl; by rewrite !erase_alter|done].
  - done.
Qed.

(** [removeFromReadyList] of the last of several slots. *)
Lemma removeFromReadyList_last s Q F i l1 a p :
  lists_ok s Q F → Q !! i = Some (l1 ++ [a; p]) →
  removeFromReadyList p (Z.of_nat i) s = Fault.
Proof.
  intros HL Hi. destruct (lo_queue _ _ _ HL _ _ Hi) as (h & Hh & Hc).
  pose proof (lo_nodup_queue _ _ _ HL _ _ Hi) as Hnd.
  pose proof (chain_length _ _ _ Hc Hnd) as Hl. rewrite (lo_procs _ _ _ HL) in Hl.
  assert (∃ c, h = Some c ∧ c ≠ p) as (c & -> & Hcp).
  { apply NoDup_app in Hnd as (_ & Hd & Hn2). rewrite !NoDup_cons in Hn2.
    destruct l1 as [|c l1]; simpl in Hc; destruct Hc as (-> & _); eexists; split; try done; set_solver. }
  unfold removeFromReadyList. krun. rewrite (getReady_ok _ _ _ Hh). cbn [obind].
  rewrite decide_False by done. unfold unlink_loop.
  rewrite (unlink_last s p c l1 a) by (done || unfold LISTFUEL; lia). done.
Qed.
