(* ===== verification/Sched.v ===== *)
(** * Scheduling invariant of the process table, and the operations that keep it

    [queues_ok X s Q F]: the ready lists of [s] are the queues [Q] and hold
    exactly the RUNNABLE processes (the slot [X] excepted), each in the queue of
    its priority; the free list [F] holds only UNUSED slots; priorities are in
    range.  The operations of proc.c that change process states are shown to
    keep it, with their effect on the queues. *)
From S2P Require Import Prelude Spinlock Str Ptable PtableLists.

(** ** The invariant *)

(** State and priority of a slot. *)
Definition status (ps : list proc) (x : nat) : option (procstate * Z) :=
  (λ q, (p_state q, p_priority q)) <$> ps !! x.

Record queues_ok (X : option nat) (s : pst) (Q : list (list nat)) (F : list nat) : Prop :=
  Queues_ok {
  qo_lists : lists_ok s Q F;
  qo_ready : ∀ i l x, Q !! i = Some l → x ∈ l →
    status (procs s) x = Some (RUNNABLE, Z.of_nat i);
  qo_all : ∀ x pr, status (procs s) x = Some (RUNNABLE, pr) → X ≠ Some x → x ∈ concat Q;
  qo_free : ∀ x, x ∈ F → ∃ pr, status (procs s) x = Some (UNUSED, pr);
  qo_prio : ∀ x st pr, status (procs s) x = Some (st, pr) → HIGH ≤ pr ≤ LOW
}.

(** The slots asleep on [c]. *)
Definition sleeper (c : option chan) (q : proc) : bool :=
  bool_decide (p_state q = SLEEPING) && bool_decide (p_chan q = c).

(** What [wakeup1] does to the fields of a slot. *)
Definition woken (c : option chan) (q : proc) : proc :=
  if sleeper c q then set_p_state RUNNABLE q else q.

(** Does slot [x] sleep on [c] with priority [i]? *)
Definition sleeper_at (ps : list proc) (c : option chan) (i x : nat) : bool :=
  match ps !! x with
  | Some q => sleeper c q && (p_priority q =? Z.of_nat i)
  | None => false
  end.

(** The slots of [xs] that do, in that order. *)
Definition sleepers (ps : list proc) (c : option chan) (i : nat) (xs : list nat) : list nat :=
  filter (λ x, Is_true (sleeper_at ps c i x)) xs.

(** ** Status *)

Lemma status_erase ps ps' x : erase ps' = erase ps → status ps' x = status ps x.
Proof.
  intros He. unfold status. destruct (ps !! x) as [q|] eqn:E.
  - destruct (erase_lookup _ _ _ _ He E) as [n ->]. done.
  - apply lookup_ge_None in E. rewrite <- (erase_length _ _ He) in E.
    by rewrite (proj2 (lookup_ge_None ps' x)).
Qed.

Lemma status_alter_ne ps x y f : x ≠ y → status (alter f x ps) y = status ps y.
Proof. intros. unfold status. by rewrite list_lookup_alter_ne. Qed.

Lemma status_alter_state ps x st st' pr :
  status ps x = Some (st, pr) → status (alter (set_p_state st') x ps) x = Some (st', pr).
Proof.
  unfold status. rewrite list_lookup_alter_eq. destruct (ps !! x); naive_solver.
Qed.

Lemma status_alter_prio ps x st pr pr' :
  status ps x = Some (st, pr) → status (alter (set_p_priority pr') x ps) x = Some (st, pr').
Proof.
  unfold status. rewrite list_lookup_alter_eq. destruct (ps !! x); naive_solver.
Qed.

Lemma status_lt ps x v : status ps x = Some v → (x < length ps)%nat.
Proof. unfold status. destruct (ps !! x) eqn:E; [|done]. intros _. by eapply lookup_lt_Some. Qed.

Lemma status_lookup ps x st pr :
  status ps x = Some (st, pr) → ∃ q, ps !! x = Some q ∧ p_state q = st ∧ p_priority q = pr.
Proof. unfold status. destruct (ps !! x); naive_solver. Qed.

Lemma lookup_status ps x q : ps !! x = Some q → status ps x = Some (p_state q, p_priority q).
Proof. unfold status. by intros ->. Qed.

Lemma erase_alter_state ps x st :
  erase (alter (set_p_state st) x ps) = alter (set_p_state st) x (erase ps).
Proof. unfold erase. apply list_fmap_alter. by apply Forall_true. Qed.

(** Changing a field other than [next] does not disturb the lists. *)
Lemma chain_alter_keep ps h l x f :
  (∀ q, p_next (f q) = p_next q) → chain ps h l → chain (alter f x ps) h l.
Proof.
  intros Hf. revert h. induction l as [|y l IH]; intros h Hc; [done|].
  destruct Hc as (-> & q & Hq & Hc). split; [done|].
  destruct (decide (x = y)) as [->|].
  - exists (f q). rewrite list_lookup_alter_eq, Hq. split; [done|]. rewrite Hf. auto.
  - exists q. rewrite list_lookup_alter_ne by done. auto.
Qed.

Lemma lists_ok_alter s Q F x f :
  (∀ q, p_next (f q) = p_next q) → lists_ok s Q F →
  lists_ok (set_procs (alter f x (procs s)) s) Q F.
Proof.
  intros Hf [H1 H2 H3 H4 H5]. split; simpl; [by rewrite length_alter|done| | |done].
  - eapply chains_transfer; [done|]. intros. by apply chain_alter_keep.
  - by apply chain_alter_keep.
Qed.

(** The invariant reads the table only through its lists and [status]. *)
Lemma queues_ok_transfer X X' s s' Q Q' F F' :
  queues_ok X s Q F → lists_ok s' Q' F' →
  (∀ i l x, Q' !! i = Some l → x ∈ l → status (procs s') x = Some (RUNNABLE, Z.of_nat i)) →
  (∀ x pr, status (procs s') x = Some (RUNNABLE, pr) → X' ≠ Some x → x ∈ concat Q') →
  (∀ x, x ∈ F' → ∃ pr, status (procs s') x = Some (UNUSED, pr)) →
  (∀ x st pr, status (procs s') x = Some (st, pr) →
     (∃ st', status (procs s) x = Some (st', pr)) ∨ HIGH ≤ pr ≤ LOW) →
  queues_ok X' s' Q' F'.
Proof.
  intros [_ _ _ _ Hp] HL H1 H2 H3 H4. split; auto.
  intros x st pr Hx. destruct (H4 _ _ _ Hx) as [[st' H]|]; eauto.
Qed.

Section facts.
Context (X : option nat) (s : pst) (Q : list (list nat)) (F : list nat).
Context (HI : queues_ok X s Q F).

Lemma qo_queue_of x st pr :
  status (procs s) x = Some (st, pr) → ∃ i l, pr = Z.of_nat i ∧ Q !! i = Some l.
Proof.
  intros H. pose proof (qo_prio _ _ _ _ HI _ _ _ H) as Hp.
  exists (Z.to_nat pr). destruct (lookup_lt_is_Some_2 Q (Z.to_nat pr)) as [l Hl].
  { rewrite (lo_queues _ _ _ (qo_lists _ _ _ _ HI)). unfold HIGH, LOW, SIZE in *. lia. }
  exists l. split; [unfold HIGH in Hp; lia|done].
Qed.

(** A slot that is neither RUNNABLE nor UNUSED is on no list. *)
Lemma qo_off_lists x st pr :
  status (procs s) x = Some (st, pr) → st ≠ RUNNABLE → st ≠ UNUSED → x ∉ F ++ concat Q.
Proof.
  intros H Hr Hu [Hx|Hx]%elem_of_app.
  - destruct (qo_free _ _ _ _ HI x Hx). naive_solver.
  - apply elem_of_concat in Hx as (i & l & Hi & Hl).
    pose proof (qo_ready _ _ _ _ HI _ _ _ Hi Hl). naive_solver.
Qed.

(** A RUNNABLE slot off the queues is on no list at all. *)
Lemma qo_off_free x pr : status (procs s) x = Some (RUNNABLE, pr) → x ∉ F.
Proof. intros H Hx. destruct (qo_free _ _ _ _ HI x Hx). naive_solver. Qed.
End facts.

(** Queueing the slot that was excepted. *)
Lemma queues_ok_enqueue s Q F x i l :
  queues_ok (Some x) s Q F → status (procs s) x = Some (RUNNABLE, Z.of_nat i) →
  Q !! i = Some l → x ∉ concat Q →
  ∃ s', putOnReadyList x (Z.of_nat i) s = Ok tt s' ∧
    queues_ok None s' (<[i := l ++ [x]]> Q) F ∧ same_but_lists s s' ∧ freeList s' = freeList s.
Proof.
  intros HI Hst Hi Hx. pose proof (qo_lists _ _ _ _ HI) as HL.
  destruct (putOnReadyList_ok s Q F x i l) as (s' & Hrun & HL' & Hsame & Hf); [done|done| | |].
  { rewrite elem_of_app. pose proof (qo_off_free _ _ _ _ HI _ _ Hst). tauto. }
  { rewrite <- (lo_procs _ _ _ HL). by eapply status_lt. }
  exists s'. split; [done|]. split; [|done].
  assert (∀ y, status (procs s') y = status (procs s) y) as Hs.
  { intros y. apply status_erase, Hsame. }
  pose proof (lookup_lt_Some _ _ _ Hi) as Hlt.
  eapply queues_ok_transfer; [done|done| | | |]; setoid_rewrite Hs.
  - intros j k y Hj Hy. destruct (decide (j = i)) as [->|Hne].
    + rewrite list_lookup_insert_eq in Hj by done. simplify_eq.
      apply elem_of_app in Hy as [Hy|Hy%list_elem_of_singleton]; [by eapply (qo_ready _ _ _ _ HI)|by subst].
    + rewrite list_lookup_insert_ne in Hj by done. by eapply (qo_ready _ _ _ _ HI).
  - intros y pr Hy _. rewrite concat_insert by done. destruct (decide (y = x)) as [->|Hne]; [set_solver|].
    pose proof (qo_all _ _ _ _ HI y pr Hy ltac:(congruence)) as Hin.
    rewrite (concat_lookup _ _ _ Hi) in Hin. set_solver.
  - apply (qo_free _ _ _ _ HI).
  - eauto.
Qed.

(** [p->state = RUNNABLE; putOnReadyList(p, p->priority);] for a process that was
    neither RUNNABLE nor UNUSED. *)
Lemma make_ready_ok s Q F x st pr :
  queues_ok None s Q F → status (procs s) x = Some (st, pr) → st ≠ RUNNABLE → st ≠ UNUSED →
  ∃ i l s', pr = Z.of_nat i ∧ Q !! i = Some l ∧
    (setp x (set_p_state RUNNABLE);; q ← getp x; putOnReadyList x (p_priority q)) s = Ok tt s' ∧
    queues_ok None s' (<[i := l ++ [x]]> Q) F ∧
    erase (procs s') = erase (alter (set_p_state RUNNABLE) x (procs s)) ∧
    rest s' = rest s ∧ freeList s' = freeList s.
Proof.
  intros HI Hst Hr Hu. pose proof (qo_lists _ _ _ _ HI) as HL.
  destruct (qo_queue_of _ _ _ _ HI _ _ _ Hst) as (i & l & -> & Hi).
  pose proof (qo_off_lists _ _ _ _ HI _ _ _ Hst Hr Hu) as Hx.
  set (s1 := set_procs (alter (set_p_state RUNNABLE) x (procs s)) s).
  assert (status (procs s1) x = Some (RUNNABLE, Z.of_nat i)) as Hst1 by (by eapply status_alter_state).
  assert (∀ y, y ≠ x → status (procs s1) y = status (procs s) y) as Hs1.
  { intros. by apply status_alter_ne. }
  assert (queues_ok (Some x) s1 Q F) as HI1.
  { eapply queues_ok_transfer; [done|by apply lists_ok_alter| | | |].
    - intros j k y Hj Hy. rewrite Hs1; [by eapply (qo_ready _ _ _ _ HI)|].
      intros ->. apply Hx, elem_of_app. right. apply elem_of_concat. eauto.
    - intros y pr Hy Hne. apply (qo_all _ _ _ _ HI y pr); [|done]. rewrite <- Hs1; [done|congruence].
    - intros y Hy. rewrite Hs1; [by apply (qo_free _ _ _ _ HI)|]. set_solver.
    - intros y st' pr Hy. destruct (decide (y = x)) as [->|]; [|rewrite Hs1 in Hy by done; eauto].
      rewrite Hst1 in Hy. simplify_eq. eauto. }
  destruct (queues_ok_enqueue s1 Q F x i l) as (s' & Hrun & HI' & [He Hrest] & Hf); [done|done|done|set_solver|].
  exists i, l, s'. split_and!; [done|done| |done|done|done|done].
  destruct (status_lookup _ _ _ _ Hst1) as (q & Hq & _ & Hp).
  krun. rewrite setp_ok by (by eapply status_lt). cbn [obind]. fold s1.
  rewrite (getp_ok _ _ _ Hq). cbn [obind]. by rewrite Hp.
Qed.

(** ** Waking *)

Section wakeup.
Context (c : option chan) (s0 : pst) (Q0 : list (list nat)) (F : list nat).

(** The table and the queues when the slots [ds] have been visited. *)
Definition woken_upto (ds : list nat) : list proc :=
  imap (λ x q, if bool_decide (x ∈ ds) then woken c q else q) (procs s0).

Definition queues_upto (ds : list nat) : list (list nat) :=
  imap (λ i l, l ++ sleepers (procs s0) c i ds) Q0.

Definition wakeup_inv (xs : list nat) (s : pst) : Prop :=
  ∃ ds, seq 0 NPROC = ds ++ xs ∧ queues_ok None s (queues_upto ds) F ∧
    erase (procs s) = erase (woken_upto ds) ∧ rest s = rest s0 ∧ freeList s = freeList s0.

Lemma woken_upto_snoc ds x q :
  x ∉ ds → procs s0 !! x = Some q →
  erase (woken_upto (ds ++ [x])) =
    erase (if sleeper c q then alter (set_p_state RUNNABLE) x (woken_upto ds) else woken_upto ds).
Proof.
  intros Hx Hq. unfold woken_upto, erase. apply list_eq. intros i. rewrite !list_lookup_fmap.
  rewrite list_lookup_imap. destruct (decide (i = x)) as [->|Hne].
  - rewrite Hq. simpl. rewrite bool_decide_true by set_solver. unfold woken at 1.
    destruct (sleeper c q).
    + rewrite list_lookup_alter_eq, list_lookup_imap, Hq. simpl. by rewrite bool_decide_false.
    + rewrite list_lookup_imap, Hq. simpl. by rewrite bool_decide_false.
  - assert (bool_decide (i ∈ ds ++ [x]) = bool_decide (i ∈ ds)) as ->
      by (apply bool_decide_ext; set_solver).
    destruct (sleeper c q); rewrite ?list_lookup_alter_ne by done; by rewrite list_lookup_imap.
Qed.

Lemma sleepers_snoc ps i ds x :
  sleepers ps c i (ds ++ [x]) = sleepers ps c i ds ++ (if sleeper_at ps c i x then [x] else []).
Proof.
  unfold sleepers. rewrite filter_app. f_equal. rewrite filter_cons, filter_nil.
  destruct (sleeper_at ps c i x); by case_decide.
Qed.

Lemma queues_upto_snoc_awake ds x q :
  procs s0 !! x = Some q → sleeper c q = false → queues_upto (ds ++ [x]) = queues_upto ds.
Proof.
  intros Hq Hs. unfold queues_upto. apply imap_ext. intros i l _.
  rewrite sleepers_snoc. unfold sleeper_at. rewrite Hq, Hs. by rewrite app_nil_r.
Qed.

Lemma queues_upto_snoc_asleep ds x q j l :
  procs s0 !! x = Some q → sleeper c q = true → p_priority q = Z.of_nat j →
  queues_upto ds !! j = Some l → queues_upto (ds ++ [x]) = <[j := l ++ [x]]> (queues_upto ds).
Proof.
  intros Hq Hs Hp Hl. apply list_eq. intros i. unfold queues_upto in *.
  rewrite list_lookup_imap in *.
  destruct (decide (i = j)) as [->|Hne].
  - rewrite list_lookup_insert_eq.
    2:{ rewrite length_imap. apply fmap_Some in Hl as (? & Hl & _). by eapply lookup_lt_Some. }
    destruct (Q0 !! j); simplify_eq/=. rewrite sleepers_snoc. unfold sleeper_at.
    rewrite Hq, Hs, Hp, Z.eqb_refl. by rewrite app_assoc.
  - rewrite list_lookup_insert_ne, list_lookup_imap by done. destruct (Q0 !! i); [|done]. simpl.
    rewrite sleepers_snoc. unfold sleeper_at. rewrite Hq, Hs, Hp.
    destruct (Z.eqb_spec (Z.of_nat j) (Z.of_nat i)); [lia|]. by rewrite app_nil_r.
Qed.

(** One iteration of the loop. *)
Lemma wakeup_body x xs s :
  wakeup_inv (x :: xs) s → length (procs s0) = NPROC →
  wp total (q ← getp x;
    if bool_decide (p_state q = SLEEPING) && bool_decide (p_chan q = c) then
      setp x (set_p_state RUNNABLE);; q' ← getp x; putOnReadyList x (p_priority q')
    else mret tt) (λ _ s', wakeup_inv xs s') s.
Proof.
  intros (ds & Hseq & HI & He & Hr & Hf) Hlen.
  assert (x ∉ ds ∧ x < NPROC)%nat as [Hx Hlt].
  { pose proof (NoDup_seq 0 NPROC) as Hnd. rewrite Hseq in Hnd. apply NoDup_app in Hnd.
    split; [set_solver|]. apply elem_of_seq0. rewrite Hseq. set_solver. }
  destruct (lookup_lt_is_Some_2 (procs s0) x) as [q0 Hq0]; [lia|].
  assert (woken_upto ds !! x = Some q0) as Hw.
  { unfold woken_upto. rewrite list_lookup_imap, Hq0. simpl. by rewrite bool_decide_false. }
  destruct (erase_lookup _ _ _ _ He Hw) as [n Hn].
  wp_steps. eapply wp_getp; [done|].
  change (bool_decide (p_state (set_p_next n q0) = SLEEPING) &&
          bool_decide (p_chan (set_p_next n q0) = c)) with (sleeper c q0).
  pose proof (woken_upto_snoc ds x q0 Hx Hq0) as Hws.
  destruct (sleeper c q0) eqn:Hs.
  - assert (p_state q0 = SLEEPING) as Hst.
    { unfold sleeper in Hs. apply andb_true_iff in Hs as [Hs _]. by apply bool_decide_eq_true in Hs. }
    destruct (make_ready_ok s _ F x SLEEPING (p_priority q0) HI) as
      (i & l & s' & Hp & Hi & Hrun & HI' & He' & Hr' & Hf'); [|done|done|].
    { rewrite (lookup_status _ _ _ Hn). by rewrite <- Hst. }
    eapply wp_ok; [exact Hrun|]. exists (ds ++ [x]). rewrite <- app_assoc. split; [done|].
    rewrite (queues_upto_snoc_asleep ds x q0 i l) by done. split; [done|].
    split; [|split; congruence]. rewrite He', Hws.
    by rewrite !erase_alter_state, He.
  - wp_steps. exists (ds ++ [x]). rewrite <- app_assoc. split; [done|].
    rewrite (queues_upto_snoc_awake ds x q0) by done. split; [done|]. split; [|done].
    by rewrite He, Hws.
Qed.

Lemma wakeup1_ok :
  queues_ok None s0 Q0 F →
  wp total (wakeup1 c) (λ _ s, wakeup_inv [] s) s0.
Proof.
  intros HI. pose proof (lo_procs _ _ _ (qo_lists _ _ _ _ HI)) as Hlen.
  unfold wakeup1. eapply wp_for_each with (I := wakeup_inv).
  - exists []. split; [done|]. unfold queues_upto, woken_upto, sleepers.
    replace (imap _ Q0) with Q0.
    2:{ symmetry. apply list_eq. intros i.
        rewrite list_lookup_imap. destruct (Q0 !! i); simpl; by rewrite ?app_nil_r. }
    split; [done|]. split; [|done]. f_equal. apply list_eq. intros i. rewrite list_lookup_imap.
    by destruct (procs s0 !! i).
  - intros x l' s' _ HI'. by apply wakeup_body.
  - done.
Qed.
End wakeup.

(** ** Locks around the table *)

Lemma wp_acquire E s L lk (Q : unit → pst → Prop) :
  holds L (mch s) → lk ∉ L →
  (∀ m', holds ({[lk]} ∪ L) m' → self m' = self (mch s) → Q tt (set_mch m' s)) →
  wp E (lift (acquire lk)) Q s.
Proof. intros HL Hlk HQ. apply wp_lift. by eapply acquire_ok. Qed.

Lemma wp_release E s L lk (Q : unit → pst → Prop) :
  holds L (mch s) → lk ∈ L →
  (∀ m', holds (L ∖ {[lk]}) m' → self m' = self (mch s) → Q tt (set_mch m' s)) →
  wp E (lift (release lk)) Q s.
Proof. intros HL Hlk HQ. apply wp_lift. by eapply release_ok. Qed.

Lemma lists_ok_ext s s' Q F :
  procs s' = procs s → readyList s' = readyList s → freeList s' = freeList s →
  lists_ok s Q F → lists_ok s' Q F.
Proof. intros Hp Hr Hf [H1 H2 H3 H4 H5]. split; rewrite ?Hp, ?Hr, ?Hf; done. Qed.

Lemma queues_ok_ext X s s' Q F :
  procs s' = procs s → readyList s' = readyList s → freeList s' = freeList s →
  queues_ok X s Q F → queues_ok X s' Q F.
Proof.
  intros Hp Hr Hf [H1 H2 H3 H4 H5].
  split; rewrite ?Hp; [by apply (lists_ok_ext s)|done|done|done|done].
Qed.

Lemma diff_union_lock (L : gset lockid) lk : lk ∉ L → ({[lk]} ∪ L) ∖ {[lk]} = L.
Proof. set_solver. Qed.

(** The fields no operation on lists, states or locks touches. *)
Definition context_of (s : pst) := (timeToReset s, nextpid s, initproc s, curproc s, hw s, kpgdir s).

Lemma rest_inv s s' : rest s' = rest s → mch s' = mch s ∧ context_of s' = context_of s.
Proof. unfold rest, context_of. intros H. simplify_eq. split; congruence. Qed.

Lemma woken_upto_all c s n :
  length (procs s) = n → woken_upto c s (seq 0 n) = woken c <$> procs s.
Proof.
  intros Hn. apply list_eq. intros i. unfold woken_upto.
  rewrite list_lookup_imap, list_lookup_fmap. destruct (procs s !! i) as [q|] eqn:E; [|done].
  simpl. rewrite bool_decide_true; [done|]. apply elem_of_seq0. subst n. by eapply lookup_lt_Some.
Qed.

(** [wakeup] returns, with the locks it found, and has moved exactly the
    sleepers of [c] to the tails of their queues, in slot order. *)
Lemma wakeup_spec L c s Q F :
  queues_ok None s Q F → holds L (mch s) → Lptable ∉ L →
  ∃ s', wakeup c s = Ok tt s' ∧ holds L (mch s') ∧ self (mch s') = self (mch s) ∧
    queues_ok None s' (queues_upto c s Q (seq 0 NPROC)) F ∧
    erase (procs s') = erase (woken c <$> procs s) ∧ context_of s' = context_of s.
Proof.
  intros HI HL Hlk. apply wp_run. unfold wakeup, wakeup_with.
  wp_step. eapply wp_acquire; [done|done|]. intros m1 Hm1 Hs1.
  set (s1 := set_mch m1 s). assert (queues_ok None s1 Q F) as HI1 by by apply (queues_ok_ext None s).
  wp_step. eapply wp_mono; [|by apply wakeup1_ok].
  intros [] s2 (ds & Hseq & HI2 & He2 & Hr2 & Hf2). rewrite app_nil_r in Hseq. subst ds.
  apply rest_inv in Hr2 as [Hm2 Hctx]. simpl in Hm2.
  eapply wp_release; [by rewrite Hm2|set_solver|]. intros m3 Hm3 Hs3.
  rewrite diff_union_lock in Hm3 by done. split; [done|]. split; [simpl in *; congruence|].
  split; [by apply (queues_ok_ext None s2)|]. split; [|done].
  etrans; [exact He2|]. f_equal. apply (woken_upto_all c s NPROC).
  apply (lo_procs _ _ _ (qo_lists _ _ _ _ HI)).
Qed.

(** ** Finding a process by its id *)

Definition first_pid (ps : list proc) (pid : Z) (x : nat) (q : proc) : Prop :=
  ps !! x = Some q ∧ p_pid q = pid ∧ ∀ y q', ps !! y = Some q' → (y < x)%nat → p_pid q' ≠ pid.

Section by_pid.
Context {R : Type} (pid : Z) (hit : nat → proc → K pst (option R)).

Definition pid_body (p : nat) : K pst (option R) :=
  q ← getp p; if p_pid q =? pid then hit p q else mret None.

Lemma pid_skip s x q : procs s !! x = Some q → p_pid q ≠ pid → pid_body x s = Ok None s.
Proof.
  intros Hq Hne. unfold pid_body. krun. rewrite (getp_ok _ _ _ Hq). cbn [obind].
  by destruct (Z.eqb_spec (p_pid q) pid).
Qed.

Lemma pid_absent s :
  length (procs s) = NPROC → (∀ x q, procs s !! x = Some q → p_pid q ≠ pid) →
  for_ret (seq 0 NPROC) pid_body s = Ok None s.
Proof.
  intros Hlen H. apply for_ret_none. intros x Hx%elem_of_seq0.
  destruct (lookup_lt_is_Some_2 (procs s) x) as [q Hq]; [lia|]. by eapply pid_skip; eauto.
Qed.

Lemma pid_found s x q :
  length (procs s) = NPROC → first_pid (procs s) pid x q →
  for_ret (seq 0 NPROC) pid_body s =
    obind (hit x q s) (λ r, match r with
      | Some v => mret (Some v)
      | None => for_ret (seq (S x) (NPROC - S x)) pid_body
      end).
Proof.
  intros Hlen (Hq & Hpid & Hfirst). pose proof (lookup_lt_Some _ _ _ Hq).
  rewrite (seq_split NPROC x) by lia. rewrite for_ret_stop.
  - unfold pid_body at 1. krun. rewrite (getp_ok _ _ _ Hq). cbn [obind].
    by rewrite Hpid, Z.eqb_refl.
  - intros y Hy%elem_of_seq0. destruct (lookup_lt_is_Some_2 (procs s) y) as [q' Hq']; [lia|].
    by eapply pid_skip; eauto.
Qed.

Lemma wp_pid_found E s x q v (Q : option R → pst → Prop) :
  length (procs s) = NPROC → first_pid (procs s) pid x q →
  wp E (hit x q) (λ r s', r = Some v ∧ Q r s') s →
  wp E (for_ret (seq 0 NPROC) pid_body) Q s.
Proof.
  intros Hlen Hfirst H. unfold wp. rewrite (pid_found s x q) by done. apply wpo_bind.
  eapply wpo_mono; [|exact H]. by intros r s' [-> HQ].
Qed.
End by_pid.

(** ** Killing *)

Lemma queues_ok_alter X s Q F x f :
  (∀ q, p_next (f q) = p_next q ∧ p_state (f q) = p_state q ∧ p_priority (f q) = p_priority q) →
  queues_ok X s Q F → queues_ok X (set_procs (alter f x (procs s)) s) Q F.
Proof.
  intros Hf HI. assert (∀ y, status (alter f x (procs s)) y = status (procs s) y) as Hs.
  { intros y. unfold status. destruct (decide (x = y)) as [->|]; [|by rewrite list_lookup_alter_ne].
    rewrite list_lookup_alter_eq. destruct (procs s !! y) as [q|]; [|done]. simpl.
    destruct (Hf q) as (_ & -> & ->). done. }
  destruct HI as [H1 H2 H3 H4 H5].
  split; [apply lists_ok_alter; [|done]; intros q; apply Hf| | | |]; simpl; setoid_rewrite Hs; done.
Qed.

(** The effect of [kill] on the slot it finds. *)
Definition killed (q : proc) : proc :=
  let q := set_p_killed true q in
  if decide (p_state q = SLEEPING) then set_p_state RUNNABLE q else q.

(** The ready lists after the process in slot [x], with fields [q], was killed. *)
Definition queues_killed (Q : list (list nat)) (x : nat) (q : proc) : list (list nat) :=
  if decide (p_state q = SLEEPING)
  then alter (λ l, l ++ [x]) (Z.to_nat (p_priority q)) Q else Q.

Lemma insert_alter {A} (f : A → A) (l : list A) i x :
  l !! i = Some x → <[i := f x]> l = alter f i l.
Proof.
  intros Hx. apply list_eq. intros j. destruct (decide (i = j)) as [->|].
  - rewrite list_lookup_alter_eq, list_lookup_insert_eq by (by eapply lookup_lt_Some).
    by rewrite Hx.
  - by rewrite list_lookup_alter_ne, list_lookup_insert_ne.
Qed.

Lemma erase_alter_killed ps x : erase (alter (set_p_killed true) x ps) = alter (set_p_killed true) x (erase ps).
Proof. unfold erase. apply list_fmap_alter. by apply Forall_true. Qed.

Lemma kill_found_ok s Q F x q :
  queues_ok None s Q F → procs s !! x = Some q →
  ∃ s', kill_found x s = Ok tt s' ∧ queues_ok None s' (queues_killed Q x q) F ∧
    erase (procs s') = erase (alter killed x (procs s)) ∧ rest s' = rest s.
Proof.
  intros HI Hq. pose proof (lookup_lt_Some _ _ _ Hq) as Hx.
  set (s1 := set_procs (alter (set_p_killed true) x (procs s)) s).
  assert (queues_ok None s1 Q F) as HI1 by (by apply queues_ok_alter).
  assert (procs s1 !! x = Some (set_p_killed true q)) as Hq1.
  { simpl. by rewrite list_lookup_alter_eq, Hq. }
  assert (alter killed x (procs s) = alter (λ q', if decide (p_state q = SLEEPING)
            then set_p_state RUNNABLE q' else q') x (alter (set_p_killed true) x (procs s))) as ->.
  { apply list_eq. intros j. destruct (decide (x = j)) as [<-|]; [|by rewrite !list_lookup_alter_ne].
    rewrite !list_lookup_alter_eq, Hq. simpl. unfold killed. simpl. by case_decide. }
  unfold kill_found. krun. rewrite setp_ok by done. cbn [obind]. fold s1.
  rewrite (getp_ok _ _ _ Hq1). cbn [obind]. cbn [p_state set_p_killed]. unfold queues_killed.
  case_decide as Hsl.
  - destruct (make_ready_ok s1 Q F x SLEEPING (p_priority q) HI1) as
      (i & l & s' & Hp & Hi & Hrun & HI' & He' & Hr' & Hf'); [|done|done|].
    { rewrite (lookup_status _ _ _ Hq1). simpl. by rewrite Hsl. }
    exists s'. rewrite Hp, Nat2Z.id. rewrite <- (insert_alter _ _ _ _ Hi). done.
  - exists s1. split_and!; [done|done| |done]. simpl. f_equal. apply list_eq. intros j.
    destruct (decide (x = j)) as [<-|]; [|by rewrite !list_lookup_alter_ne].
    by rewrite !list_lookup_alter_eq, Hq.
Qed.

Lemma kill_absent L s Q F pid :
  queues_ok None s Q F → holds L (mch s) → Lptable ∉ L →
  (∀ x q, procs s !! x = Some q → p_pid q ≠ pid) →
  ∃ m', kill pid s = Ok (-1) (set_mch m' s) ∧ holds L m'.
Proof.
  intros HI HL Hlk Habs. pose proof (lo_procs _ _ _ (qo_lists _ _ _ _ HI)) as Hlen.
  assert (wp total (kill pid) (λ r s', r = -1 ∧ ∃ m', s' = set_mch m' s ∧ holds L m') s) as H.
  { unfold kill. wp_step. eapply wp_acquire; [done|done|]. intros m1 Hm1 Hs1. wp_step.
    eapply wp_ok; [by apply (pid_absent pid (λ p _, _))|]. cbv beta iota.
    wp_step. eapply wp_release; [done|set_solver|]. intros m2 Hm2 Hs2. wp_steps.
    split; [done|]. exists m2. rewrite diff_union_lock in Hm2 by done. by destruct s. }
  apply wp_total_ok in H as (r & s' & Hr & -> & m' & -> & Hm'). eauto.
Qed.

Lemma kill_present L s Q F pid x q :
  queues_ok None s Q F → holds L (mch s) → Lptable ∉ L → first_pid (procs s) pid x q →
  ∃ s', kill pid s = Ok 0 s' ∧ holds L (mch s') ∧ queues_ok None s' (queues_killed Q x q) F ∧
    erase (procs s') = erase (alter killed x (procs s)) ∧ context_of s' = context_of s.
Proof.
  intros HI HL Hlk Hfirst. pose proof (lo_procs _ _ _ (qo_lists _ _ _ _ HI)) as Hlen.
  assert (wp total (kill pid) (λ r s', r = 0 ∧ holds L (mch s') ∧
    queues_ok None s' (queues_killed Q x q) F ∧
    erase (procs s') = erase (alter killed x (procs s)) ∧ context_of s' = context_of s) s) as H.
  { unfold kill. wp_step. eapply wp_acquire; [done|done|]. intros m1 Hm1 Hs1. wp_step.
    set (s1 := set_mch m1 s).
    destruct (kill_found_ok s1 Q F x q) as (s2 & Hrun & HI2 & He2 & Hr2);
      [by apply (queues_ok_ext None s)|apply Hfirst|].
    apply rest_inv in Hr2 as [Hm2 Hctx]. simpl in Hm2.
    eapply (wp_pid_found pid (λ p _, _) _ s1 x q 0); [done|done|]. wp_step.
    eapply wp_ok; [exact Hrun|]. wp_step.
    eapply wp_release; [by rewrite Hm2|set_solver|]. intros m3 Hm3 Hs3. wp_steps.
    rewrite diff_union_lock in Hm3 by done. split; [done|]. wp_steps.
    split_and!; [done|done| |done|done]. by apply (queues_ok_ext None s2). }
  apply wp_total_ok in H as (r & s' & Hr & -> & H). eauto.
Qed.

(** ** Giving up the processor *)

(** Changing the state of a process that is on no list. *)
Lemma queues_ok_set_state s Q F x st st' pr :
  queues_ok None s Q F → status (procs s) x = Some (st, pr) →
  st ≠ RUNNABLE → st ≠ UNUSED → st' ≠ RUNNABLE →
  queues_ok None (set_procs (alter (set_p_state st') x (procs s)) s) Q F.
Proof.
  intros HI Hst Hr Hu Hr'. pose proof (qo_off_lists _ _ _ _ HI _ _ _ Hst Hr Hu) as Hx.
  assert (∀ y, y ≠ x → status (alter (set_p_state st') x (procs s)) y = status (procs s) y) as Hs.
  { intros. by apply status_alter_ne. }
  pose proof (status_alter_state _ _ _ st' _ Hst) as Hst'.
  eapply queues_ok_transfer; [done|by apply lists_ok_alter, HI| | | |]; simpl.
  - intros i l y Hi Hy. rewrite Hs; [by eapply (qo_ready _ _ _ _ HI)|].
    intros ->. apply Hx, elem_of_app. right. apply elem_of_concat. eauto.
  - intros y pr' Hy Hne. apply (qo_all _ _ _ _ HI y pr'); [|done].
    destruct (decide (y = x)) as [->|]; [congruence|by rewrite <- Hs].
  - intros y Hy. rewrite Hs; [by apply (qo_free _ _ _ _ HI)|set_solver].
  - intros y st2 pr2 Hy. destruct (decide (y = x)) as [->|]; [|rewrite Hs in Hy by done; eauto].
    rewrite Hst' in Hy. simplify_eq. eauto.
Qed.

Lemma holds_intena L ie m : holds L m → holds L (set_intena ie m).
Proof. by intros [H1 H2 H3 H4]. Qed.

(** This CPU has the table's lock and no other. *)
Definition only_table (m : mach) : Prop :=
  locked (lock_of m Lptable) = 1 ∧ cpu (lock_of m Lptable) = Some (self m) ∧ ncli m = 1 ∧ Z.land (eflags m) FL_IF = 0.

Lemma holds_only_table m : holds {[Lptable]} m → only_table m.
Proof.
  intros HL. destruct (h_in _ _ HL Lptable) as [H1 H2]; [set_solver|].
  pose proof (h_ncli _ _ HL) as Hn. rewrite size_singleton in Hn. split_and!; [done|done|done|].
  apply (h_if _ _ HL). set_solver.
Qed.

(** [sched] with exactly the table's lock held parks the process; when it is
    switched to again it finds the interrupt state it saved. *)
Lemma sched_switches s x q :
  only_table (mch s) → curproc s = Some x → procs s !! x = Some q → p_state q ≠ RUNNING →
  sched s = Switch s (λ s', Ok tt (set_mch (set_intena (intena (mch s)) (mch s')) s')).
Proof.
  intros (H1 & H2 & Hn & Hif) Hcur Hq Hst. assert (set_mch (mch s) s = s) as Hs by by destruct s.
  unfold sched, myproc, lift. krun. simpl. rewrite H1, H2, Hs. rewrite bool_decide_true by done.
  simpl. rewrite Hn. simpl. rewrite Hcur. simpl. rewrite (getp_ok _ _ _ Hq). simpl.
  rewrite bool_decide_false by done. simpl. rewrite Hs, Hif. done.
Qed.

Lemma sched_parks s x q :
  holds {[Lptable]} (mch s) → curproc s = Some x → procs s !! x = Some q → p_state q ≠ RUNNING →
  sched s = Switch s (λ s', Ok tt (set_mch (set_intena (intena (mch s)) (mch s')) s')).
Proof. intros HL. by apply sched_switches, holds_only_table. Qed.

(** [sched] refuses to switch without the table's lock, with another lock held
    as well, and for a process still marked RUNNING. *)
Lemma sched_refuses L s x q :
  holds L (mch s) → curproc s = Some x → procs s !! x = Some q →
  (Lptable ∉ L → sched s = Panic "sched ptable.lock") ∧
  (Lptable ∈ L → L ≠ {[Lptable]} → sched s = Panic "sched locks") ∧
  (L = {[Lptable]} → p_state q = RUNNING → sched s = Panic "sched running").
Proof.
  intros HL Hcur Hq. assert (set_mch (mch s) s = s) as Hs by by destruct s.
  split; [|split].
  - intros Hin. unfold sched, lift. krun. simpl. by rewrite (h_out _ _ HL _ Hin).
  - intros Hin Hne. destruct (h_in _ _ HL Lptable Hin) as [H1 H2].
    unfold sched, lift. krun. simpl. rewrite H1, H2, Hs. rewrite bool_decide_true by done.
    simpl. rewrite (h_ncli _ _ HL). destruct (Z.eqb_spec (Z.of_nat (size L)) 1); [|done].
    exfalso. apply Hne. assert (size L = 1%nat) as Hsz by lia.
    apply size_1_elem_of in Hsz as [y Hy]. set_solver.
  - intros -> Hst. destruct (h_in _ _ HL Lptable) as [H1 H2]; [set_solver|].
    pose proof (h_ncli _ _ HL) as Hn. rewrite size_singleton in Hn.
    unfold sched, myproc, lift. krun. simpl. rewrite H1, H2, Hs. rewrite bool_decide_true by done.
    simpl. rewrite Hn. simpl. rewrite Hcur. simpl. rewrite (getp_ok _ _ _ Hq). simpl.
    by rewrite bool_decide_true.
Qed.

Lemma lift_ok (m : K mach unit) s m' : m (mch s) = Ok tt m' → lift m s = Ok tt (set_mch m' s).
Proof. unfold lift. simpl. by intros ->. Qed.

Lemma lift_acquire L lk s :
  holds L (mch s) → lk ∉ L →
  ∃ m', lift (acquire lk) s = Ok tt (set_mch m' s) ∧ holds ({[lk]} ∪ L) m'.
Proof.
  intros HL Hlk. exists (acquired lk (mch s)). split; [|by apply acquired_holds].
  by apply lift_ok, acquire_free, (h_out L).
Qed.

Lemma lift_release L lk s :
  holds L (mch s) → lk ∈ L →
  ∃ m', lift (release lk) s = Ok tt (set_mch m' s) ∧ holds (L ∖ {[lk]}) m'.
Proof.
  intros HL Hlk. pose proof (release_ok L lk (mch s) (λ _ m', holds (L ∖ {[lk]}) m') HL Hlk) as H.
  destruct (wp_run _ _ _ (H ltac:(auto))) as (m' & Hr & Hh).
  exists m'. split; [by apply lift_ok|done].
Qed.

Lemma myproc_ok s x : curproc s = Some x → myproc s = Ok x s.
Proof. intros H. unfold myproc. krun. by rewrite H. Qed.

Lemma yield_parks s Q F x q l :
  queues_ok None s Q F → holds ∅ (mch s) → curproc s = Some x → procs s !! x = Some q →
  p_state q = RUNNING → Q !! Z.to_nat (p_priority q) = Some l →
  ∃ s1 k, yield s = Switch s1 k ∧ holds {[Lptable]} (mch s1) ∧
    queues_ok None s1 (<[Z.to_nat (p_priority q) := l ++ [x]]> Q) F ∧
    erase (procs s1) = erase (alter (set_p_state RUNNABLE) x (procs s)) ∧
    context_of s1 = context_of s ∧
    (∀ s2, holds {[Lptable]} (mch s2) → ∃ m3, k s2 = Ok tt (set_mch m3 s2) ∧ holds ∅ m3).
Proof.
  intros HI HL Hcur Hq Hst Hl.
  destruct (lift_acquire ∅ Lptable s HL) as (m1 & Hacq & Hm1); [set_solver|].
  rewrite (right_id_L ∅ (∪)) in Hm1. set (s1 := set_mch m1 s) in *.
  assert (queues_ok None s1 Q F) as HI1 by by apply (queues_ok_ext None s).
  destruct (make_ready_ok s1 Q F x RUNNING (p_priority q) HI1) as
    (i & l' & s2 & Hp & Hi & Hrun & HI' & He' & Hr' & Hf'); [|done|done|].
  { rewrite (lookup_status (procs s1) x q) by done. by rewrite Hst. }
  rewrite Hp, Nat2Z.id in Hl |- *. assert (l' = l) as -> by congruence.
  apply rest_inv in Hr' as [Hm2 Hctx].
  assert (status (procs s2) x = Some (RUNNABLE, Z.of_nat i)) as Hst2.
  { eapply (qo_ready _ _ _ _ HI' i (l ++ [x])); [|set_solver].
    by rewrite list_lookup_insert_eq by (by eapply lookup_lt_Some). }
  destruct (status_lookup _ _ _ _ Hst2) as (q2 & Hq2 & Hs2 & _).
  assert (curproc s2 = Some x) as Hcur2 by (unfold context_of in Hctx; simpl in *; congruence).
  pose proof (sched_parks s2 x q2 ltac:(by rewrite Hm2) Hcur2 Hq2 ltac:(congruence)) as Hsch.
  exists s2. eexists. split_and!; [|by rewrite Hm2|done|done|done|].
  - unfold yield. rewrite (bind_ok _ _ _ _ _ Hacq). fold s1.
    rewrite (bind_ok _ _ _ _ _ (myproc_ok s1 x Hcur)).
    unfold mbind, K_bind in Hrun |- *.
    destruct (setp x _ s1) as [[] s1'| | | |]; try done. simpl in *.
    destruct (getp x s1') as [q' s1''| | | |]; try done. simpl in *. rewrite Hrun. simpl.
    rewrite Hsch. simpl. reflexivity.
  - intros s3 H3. simpl.
    edestruct (lift_release {[Lptable]} Lptable) as (m3 & Hrel & Hm3); [|set_solver|].
    2:{ exists m3. unfold mbind, K_bind. simpl. rewrite Hrel. split; [by destruct s3|].
        by rewrite difference_diag_L in Hm3. }
    by apply holds_intena.
Qed.

(** The slot of a process that has gone to sleep on [c]. *)
Definition asleep (c : option chan) (q : proc) : proc := set_p_state SLEEPING (set_p_chan c q).

(** [sleep] from the taking of the table's lock to the switch. *)
Lemma fall_asleep s Q F x q c :
  queues_ok None s Q F → only_table (mch s) → curproc s = Some x →
  procs s !! x = Some q → p_state q = RUNNING →
  let s1 := set_procs (alter (asleep c) x (procs s)) s in
  queues_ok None s1 Q F ∧
  (∃ s0, setp x (set_p_chan c) s = Ok tt s0 ∧ setp x (set_p_state SLEEPING) s0 = Ok tt s1) ∧
  sched s1 = Switch s1 (λ s', Ok tt (set_mch (set_intena (intena (mch s)) (mch s')) s')).
Proof.
  intros HI HL Hcur Hq Hst s1. pose proof (lookup_lt_Some _ _ _ Hq) as Hx.
  set (s0 := set_procs (alter (set_p_chan c) x (procs s)) s).
  assert (s1 = set_procs (alter (set_p_state SLEEPING) x (procs s0)) s0) as Hs1.
  { unfold s1, s0, set_procs. simpl. f_equal. apply list_eq. intros j.
    destruct (decide (x = j)) as [<-|]; [|by rewrite !list_lookup_alter_ne].
    by rewrite !list_lookup_alter_eq, Hq. }
  assert (queues_ok None s0 Q F) as HI0 by by apply queues_ok_alter.
  assert (procs s0 !! x = Some (set_p_chan c q)) as Hq0.
  { simpl. by rewrite list_lookup_alter_eq, Hq. }
  assert (procs s1 !! x = Some (asleep c q)) as Hq1.
  { simpl. by rewrite list_lookup_alter_eq, Hq. }
  split.
  - rewrite Hs1. eapply queues_ok_set_state; [done| | | |done].
    + rewrite (lookup_status _ _ _ Hq0). simpl. by rewrite Hst.
    + done.
    + done.
  - split; [|by apply (sched_switches s1 x (asleep c q))].
    exists s0. rewrite setp_ok by done. split; [done|].
    by rewrite Hs1, setp_ok by (by eapply lookup_lt_Some).
Qed.

Lemma sleep_parks s Q F x q c lk :
  queues_ok None s Q F → holds {[lk]} (mch s) → lk ≠ Lptable → curproc s = Some x →
  procs s !! x = Some q → p_state q = RUNNING →
  ∃ m1 k, sleep c (Some lk) s =
      Switch (set_mch m1 (set_procs (alter (asleep c) x (procs s)) s)) k ∧
    holds {[Lptable]} m1 ∧
    queues_ok None (set_procs (alter (asleep c) x (procs s)) s) Q F ∧
    (∀ s2, holds {[Lptable]} (mch s2) → curproc s2 = Some x → (x < length (procs s2))%nat →
       ∃ m3, k s2 = Ok tt (set_mch m3 (set_procs (alter (set_p_chan None) x (procs s2)) s2)) ∧
         holds {[lk]} m3).
Proof.
  intros HI HL Hne Hcur Hq Hst.
  destruct (lift_acquire {[lk]} Lptable s HL) as (m0 & Hacq & Hm0); [set_solver|].
  destruct (lift_release ({[Lptable]} ∪ {[lk]}) lk (set_mch m0 s) Hm0) as (m1 & Hrel & Hm1); [set_solver|].
  replace (({[Lptable]} ∪ {[lk]}) ∖ {[lk]}) with ({[Lptable]} : gset lockid) in Hm1 by set_solver.
  change (set_mch m1 (set_mch m0 s)) with (set_mch m1 s) in Hrel. set (s1 := set_mch m1 s) in *.
  destruct (fall_asleep s1 Q F x q c) as (HI2 & (s0 & H0 & H1) & Hfall);
    [by apply (queues_ok_ext None s)|by apply holds_only_table|done|done|done|].
  exists m1. eexists. split_and!; [|done|by eapply queues_ok_ext; [..|exact HI2]|].
  - unfold sleep, sleep_with. krun. rewrite Hcur. cbn [obind]. rewrite !bool_decide_false by done. cbn [obind].
    rewrite !decide_False by done. krun. rewrite Hacq. cbn [obind]. rewrite Hrel. cbn [obind].
    rewrite (myproc_ok s1 x Hcur). cbn [obind]. rewrite H0. cbn [obind]. rewrite H1. cbn [obind].
    rewrite Hfall. cbn [obind]. reflexivity.
  - intros s2 H2 Hcur2 Hx2. cbv beta.
    set (s3 := set_mch (set_intena (intena (mch s1)) (mch s2)) s2).
    rewrite (myproc_ok s3 x Hcur2). cbn [obind]. rewrite setp_ok by done. cbn [obind].
    set (s4 := set_procs _ s3).
    destruct (lift_release {[Lptable]} Lptable s4) as (m5 & Hr5 & Hm5);
      [by apply holds_intena|set_solver|]. rewrite difference_diag_L in Hm5.
    krun. rewrite Hr5. cbn [obind].
    destruct (lift_acquire ∅ lk (set_mch m5 s4) Hm5) as (m6 & Hr6 & Hm6); [set_solver|].
    rewrite (right_id_L ∅ (∪)) in Hm6. exists m6. rewrite Hr6. done.
Qed.
