(* ===== verification/Choice.v ===== *)
(** * Choosing the next process, resetting and setting priorities (proc.c)

    What [resetReadyList], the body of the loop in [scheduler], [setPriority] and
    [getProcInfo] do to the queues and the table, from the scheduling invariant
    [queues_ok]. *)
From S2P Require Import Prelude Spinlock Str Ptable PtableLists Sched.

(** ** Loops over the table *)

Section slots.
Context (b : proc → bool) (f : proc → proc).

(** A loop that visits every slot and updates some. *)
Definition update_slot (q : proc) : proc := if b q then f q else q.

Definition slots_upto (n : nat) (ps : list proc) : list proc :=
  imap (λ x q, if bool_decide (x < n)%nat then update_slot q else q) ps.

Definition slot_body (p : nat) : K pst unit :=
  q ← getp p; if b q then setp p f else mret tt.

Lemma slots_upto_S n ps q :
  ps !! n = Some q →
  slots_upto (S n) ps = (if b q then alter f n (slots_upto n ps) else slots_upto n ps).
Proof.
  intros Hq. apply list_eq. intros i. unfold slots_upto. rewrite list_lookup_imap.
  destruct (decide (i = n)) as [->|Hne].
  - rewrite Hq. simpl. rewrite bool_decide_true by lia. unfold update_slot at 1.
    destruct (b q); [rewrite list_lookup_alter_eq|]; rewrite list_lookup_imap, Hq; simpl;
      by rewrite bool_decide_false by lia.
  - assert (bool_decide (i < S n)%nat = bool_decide (i < n)%nat) as ->
      by (apply bool_decide_ext; lia).
    destruct (b q); rewrite ?list_lookup_alter_ne by done; by rewrite list_lookup_imap.
Qed.

Lemma slot_body_ok s n q :
  procs s !! n = Some q →
  slot_body n s = Ok tt (if b q then set_procs (alter f n (procs s)) s else s).
Proof.
  intros Hq. unfold slot_body. krun. rewrite (getp_ok _ _ q) by done. cbn [obind].
  destruct (b q); [|done]. by rewrite setp_ok by (by eapply lookup_lt_Some).
Qed.

Lemma for_slots_upto s k : ∀ n,
  length (procs s) = (n + k)%nat →
  for_each (seq n k) slot_body (set_procs (slots_upto n (procs s)) s) =
    Ok tt (set_procs (slots_upto (n + k) (procs s)) s).
Proof.
  induction k as [|k IH]; intros n Hlen; [by rewrite Nat.add_0_r|].
  destruct (lookup_lt_is_Some_2 (procs s) n) as [q Hq]; [lia|].
  assert (slots_upto n (procs s) !! n = Some q) as Hn.
  { unfold slots_upto. rewrite list_lookup_imap, Hq. simpl. by rewrite bool_decide_false by lia. }
  replace (n + S k)%nat with (S n + k)%nat by lia. rewrite <- IH by lia.
  cbn [seq for_each]. rewrite (slots_upto_S _ _ q) by done.
  rewrite (bind_ok _ _ _ _ _ (slot_body_ok (set_procs _ s) n q Hn)). by destruct (b q).
Qed.

Lemma for_slots s :
  length (procs s) = NPROC →
  for_each (seq 0 NPROC) slot_body s = Ok tt (set_procs (update_slot <$> procs s) s).
Proof.
  intros Hlen. pose proof (for_slots_upto s NPROC 0 Hlen) as H.
  assert (slots_upto 0 (procs s) = procs s) as H0.
  { apply list_eq. intros i. unfold slots_upto. rewrite list_lookup_imap. by destruct (procs s !! i). }
  rewrite H0 in H. replace (set_procs (procs s) s) with s in H by by destruct s.
  rewrite H. do 2 f_equal. apply list_eq. intros i. unfold slots_upto.
  rewrite list_lookup_imap, list_lookup_fmap. destruct (procs s !! i) eqn:E; [|done].
  simpl. by rewrite bool_decide_true by (apply lookup_lt_Some in E; lia).
Qed.
End slots.

(** ** Resetting priorities *)

Lemma chain_head ps h l : chain ps h l → h = head l.
Proof. destruct l; [done|]. by intros [-> _]. Qed.

Definition set_prios (l : list nat) (ps : list proc) : list proc :=
  imap (λ x q, if bool_decide (x ∈ l) then set_p_priority DEFAULTPRIO q else q) ps.

Lemma elem_of_concat_insert (Q : list (list nat)) i l l' x :
  Q !! i = Some l → x ∈ concat (<[i := l']> Q) ↔ x ∈ l' ∨ ∃ j k, j ≠ i ∧ Q !! j = Some k ∧ x ∈ k.
Proof.
  intros Hi. pose proof (lookup_lt_Some _ _ _ Hi) as Hlt. rewrite elem_of_concat. split.
  - intros (j & k & Hj & Hx). destruct (decide (j = i)) as [->|Hne].
    + rewrite list_lookup_insert_eq in Hj by done. simplify_eq. auto.
    + rewrite list_lookup_insert_ne in Hj by done. naive_solver.
  - intros [Hx|(j & k & Hne & Hj & Hx)].
    + exists i, l'. by rewrite list_lookup_insert_eq.
    + exists j, k. by rewrite list_lookup_insert_ne.
Qed.

Lemma erase_alter_prio ps x pr :
  erase (alter (set_p_priority pr) x ps) = alter (set_p_priority pr) x (erase ps).
Proof. unfold erase. apply list_fmap_alter. by apply Forall_true. Qed.

(** The invariant when [c] has left queue [i] and become the last of queue [j]. *)
Lemma queues_ok_requeue X s s3 Q F i j c k0 l m :
  i ≠ j → queues_ok X s Q F → Q !! i = Some k0 → k0 ≡ₚ c :: l → Q !! j = Some m →
  c ∉ F ++ concat (<[i := l]> Q) → lists_ok s3 (<[j := m ++ [c]]> (<[i := l]> Q)) F →
  erase (procs s3) = erase (alter (set_p_priority (Z.of_nat j)) c (procs s)) →
  queues_ok X s3 (<[j := m ++ [c]]> (<[i := l]> Q)) F.
Proof.
  intros Hne HI Hi Hk0 Hj Hc HL3 He. pose proof (qo_lists _ _ _ _ HI) as HL.
  assert (status (procs s) c = Some (RUNNABLE, Z.of_nat i)) as Hsc.
  { eapply (qo_ready _ _ _ _ HI i k0); [done|rewrite Hk0; left]. }
  assert (status (procs s3) c = Some (RUNNABLE, Z.of_nat j)) as Hsc3.
  { rewrite (status_erase _ _ _ He). by eapply status_alter_prio. }
  assert (∀ y, y ≠ c → status (procs s3) y = status (procs s) y) as Hs3.
  { intros y Hy. rewrite (status_erase _ _ _ He). by apply status_alter_ne. }
  assert (∀ a k y, <[i := l]> Q !! a = Some k → y ∈ k → status (procs s3) y = Some (RUNNABLE, Z.of_nat a)) as Hold.
  { intros a k y Ha Hy. assert (y ≠ c) as Hyc.
    { intros ->. apply Hc, elem_of_app. right. apply elem_of_concat. eauto. }
    rewrite Hs3 by done. destruct (decide (a = i)) as [->|Hai].
    - rewrite list_lookup_insert_eq in Ha by (by eapply lookup_lt_Some). simplify_eq.
      eapply (qo_ready _ _ _ _ HI i k0); [done|rewrite Hk0; by right].
    - rewrite list_lookup_insert_ne in Ha by done. by eapply (qo_ready _ _ _ _ HI). }
  assert (<[i := l]> Q !! j = Some m) as Hj' by by rewrite list_lookup_insert_ne.
  eapply queues_ok_transfer; [done|done| | | |].
  - intros a k y Ha Hy. destruct (decide (a = j)) as [->|Haj].
    + rewrite list_lookup_insert_eq in Ha by (by eapply lookup_lt_Some). simplify_eq.
      apply elem_of_app in Hy as [Hy| ->%list_elem_of_singleton]; [by eapply Hold|done].
    + rewrite list_lookup_insert_ne in Ha by done. by eapply Hold.
  - intros y pr Hy HX. rewrite (elem_of_concat_insert _ _ _ _ _ Hj').
    destruct (decide (y = c)) as [->|Hyc]; [set_solver|]. rewrite Hs3 in Hy by done.
    pose proof (qo_all _ _ _ _ HI _ _ Hy HX) as (a & k & Ha & Hk)%elem_of_concat.
    destruct (decide (a = j)) as [->|Haj]; [simplify_eq; set_solver|]. right.
    destruct (decide (a = i)) as [->|Hai]; simplify_eq.
    + exists i, l. rewrite list_lookup_insert_eq by (by eapply lookup_lt_Some). rewrite Hk0 in Hk. set_solver.
    + exists a, k. by rewrite list_lookup_insert_ne.
  - intros y Hy. rewrite Hs3; [by apply (qo_free _ _ _ _ HI)|set_solver].
  - intros y st pr Hy. destruct (decide (y = c)) as [->|Hyc]; [|rewrite Hs3 in Hy by done; eauto].
    right. rewrite Hsc3 in Hy. simplify_eq. pose proof (lookup_lt_Some _ _ _ Hj) as Hlt.
    rewrite (lo_queues _ _ _ HL) in Hlt. unfold SIZE, HIGH, LOW in *. lia.
Qed.

(** Moving the head of queue [i] to the tail of queue [j], the new priority [j]. *)
Lemma requeue_head_ok X s Q F i j c l m :
  i ≠ j → queues_ok X s Q F → Q !! i = Some (c :: l) → Q !! j = Some m →
  ∃ s1 s', removeFromReadyList c (Z.of_nat i) s = Ok tt s1 ∧
    putOnReadyList c (Z.of_nat j) (set_procs (alter (set_p_priority (Z.of_nat j)) c (procs s1)) s1)
      = Ok tt s' ∧
    queues_ok X s' (<[j := m ++ [c]]> (<[i := l]> Q)) F ∧
    erase (procs s1) = erase (procs s) ∧
    erase (procs s') = erase (alter (set_p_priority (Z.of_nat j)) c (procs s)) ∧
    rest s' = rest s ∧ freeList s' = freeList s.
Proof.
  intros Hne HI Hi Hj. pose proof (qo_lists _ _ _ _ HI) as HL.
  destruct (removeFromReadyList_head s Q F c i l HL Hi) as (s1 & Hr1 & HL1 & [He1 Hrest1] & Hf1).
  set (s2 := set_procs (alter (set_p_priority (Z.of_nat j)) c (procs s1)) s1).
  assert (lists_ok s2 (<[i := l]> Q) F) as HL2 by by apply lists_ok_alter.
  pose proof (lo_nodup _ _ _ HL) as Hnd.
  assert (c ∉ F ++ concat (<[i := l]> Q)) as Hc.
  { rewrite (concat_lookup _ _ _ Hi) in Hnd. rewrite concat_insert by (by eapply lookup_lt_Some).
    rewrite Permutation_app_comm, <- app_comm_cons, <- app_comm_cons, NoDup_cons in Hnd. set_solver. }
  destruct (putOnReadyList_ok s2 (<[i := l]> Q) F c j m HL2) as (s3 & Hr3 & HL3 & [He3 Hrest3] & Hf3).
  { by rewrite list_lookup_insert_ne. }
  { done. }
  { eapply (lo_lt _ _ _ HL i (c :: l)); [done|left]. }
  assert (erase (procs s3) = erase (alter (set_p_priority (Z.of_nat j)) c (procs s))) as He.
  { rewrite He3. simpl. by rewrite !erase_alter_prio, He1. }
  exists s1, s3. split_and!; [done|done| |done|done|by rewrite Hrest3|by rewrite Hf3].
  by eapply (queues_ok_requeue X s s3 Q F i j c (c :: l)).
Qed.

Lemma demote_step_ok X s Q F i c l m :
  i ≠ 1%nat → queues_ok X s Q F → Q !! i = Some (c :: l) → Q !! 1%nat = Some m →
  ∃ s', demote_step (Some c) s = Ok (inl (head l)) s' ∧
    queues_ok X s' (<[1%nat := m ++ [c]]> (<[i := l]> Q)) F ∧
    erase (procs s') = erase (alter (set_p_priority DEFAULTPRIO) c (procs s)) ∧
    rest s' = rest s ∧ freeList s' = freeList s.
Proof.
  intros Hne HI Hi Hj. pose proof (qo_lists _ _ _ _ HI) as HL.
  destruct (requeue_head_ok X s Q F i 1 c l m Hne HI Hi Hj) as
    (s1 & s' & Hr1 & Hr2 & HI' & He1 & He' & Hrest & Hf).
  destruct (lo_queue _ _ _ HL _ _ Hi) as (h & Hh & -> & q & Hq & Hc).
  pose proof (qo_ready _ _ _ _ HI i (c :: l) c Hi ltac:(left)) as Hst.
  rewrite (lookup_status _ _ _ Hq) in Hst. injection Hst as _ Hp.
  exists s'. split_and!; [|done|done|done|done].
  destruct (erase_lookup _ _ _ _ He1 Hq) as [n Hn].
  unfold demote_step. krun. rewrite (getp_ok _ _ _ Hq). cbn [obind]. rewrite Hp, Hr1. cbn [obind].
  rewrite setp_ok by (by eapply lookup_lt_Some). cbn [obind].
  rewrite (getp_ok _ _ (set_p_priority DEFAULTPRIO (set_p_next n q))).
  2:{ simpl. by rewrite list_lookup_alter_eq, Hn. }
  cbn [obind]. cbn [p_priority set_p_priority]. change DEFAULTPRIO with (Z.of_nat 1). rewrite Hr2.
  cbn [obind]. by rewrite (chain_head _ _ _ Hc).
Qed.

Lemma set_prios_cons ps c l :
  erase (set_prios l (alter (set_p_priority DEFAULTPRIO) c ps)) = erase (set_prios (c :: l) ps).
Proof.
  unfold erase, set_prios. apply list_eq. intros i. rewrite !list_lookup_fmap, !list_lookup_imap.
  destruct (decide (c = i)) as [<-|Hne].
  - rewrite list_lookup_alter_eq. destruct (ps !! c) as [q|]; [|done]. simpl.
    rewrite (bool_decide_true (c ∈ c :: l)) by left. by destruct (bool_decide (c ∈ l)).
  - rewrite list_lookup_alter_ne by done. destruct (ps !! i) as [q|]; [|done]. simpl.
    by rewrite (bool_decide_ext (i ∈ c :: l) (i ∈ l)) by set_solver.
Qed.

Lemma set_prios_nil ps : set_prios [] ps = ps.
Proof. unfold set_prios. apply list_eq. intros i. rewrite list_lookup_imap. by destruct (ps !! i). Qed.

Lemma set_prios_erase l ps ps' : erase ps' = erase ps → erase (set_prios l ps') = erase (set_prios l ps).
Proof.
  intros He. apply list_eq. intros i. unfold erase, set_prios.
  rewrite !list_lookup_fmap, !list_lookup_imap. destruct (ps !! i) as [q|] eqn:E.
  - destruct (erase_lookup _ _ _ _ He E) as [n ->]. simpl. by case_bool_decide.
  - assert (ps' !! i = None) as ->; [|done]. apply lookup_ge_None. rewrite (erase_length _ _ He).
    by apply lookup_ge_None.
Qed.

Lemma demote_loop_ok X F i l : ∀ s Q m fuel,
  i ≠ 1%nat → queues_ok X s Q F → Q !! i = Some l → Q !! 1%nat = Some m →
  (length l < fuel)%nat →
  ∃ s', while fuel demote_step (head l) s = Ok None s' ∧
    queues_ok X s' (<[1%nat := m ++ l]> (<[i := []]> Q)) F ∧
    erase (procs s') = erase (set_prios l (procs s)) ∧
    rest s' = rest s ∧ freeList s' = freeList s.
Proof.
  induction l as [|c l IH]; intros s Q m fuel Hne HI Hi Hj Hfuel;
    (destruct fuel as [|fuel]; [simpl in Hfuel; lia|]).
  - exists s. rewrite set_prios_nil, app_nil_r.
    rewrite (list_insert_id Q) by done. by rewrite list_insert_id.
  - destruct (demote_step_ok X s Q F i c l m Hne HI Hi Hj) as (s1 & Hr & HI1 & He1 & Hrest1 & Hf1).
    pose proof (lookup_lt_Some _ _ _ Hi). pose proof (lookup_lt_Some _ _ _ Hj).
    destruct (IH s1 (<[1%nat := m ++ [c]]> (<[i := l]> Q)) (m ++ [c]) fuel) as
      (s' & Hr' & HI' & He' & Hrest' & Hf'); [done|done| | |simpl in Hfuel; lia|].
    + by rewrite list_lookup_insert_ne, list_lookup_insert_eq.
    + by rewrite list_lookup_insert_eq by (by rewrite length_insert).
    + exists s'. split_and!; [| | |congruence|congruence].
      * cbn [while head]. by rewrite (bind_ok _ _ _ _ _ Hr).
      * rewrite (list_insert_insert_ne _ i 1) in HI' by done.
        rewrite !list_insert_insert_eq, <- app_assoc in HI'. done.
      * rewrite He', <- set_prios_cons. by apply set_prios_erase.
Qed.

(** The processes whose priority [resetReadyList] sets: the running and sleeping
    ones, and the RUNNABLE ones that are queued (all but [X]). *)
Definition reset_prio (X : option nat) (x : nat) (q : proc) : proc :=
  if bool_decide (p_state q = RUNNABLE) && bool_decide (X ≠ Some x) ||
     bool_decide (p_state q = RUNNING) || bool_decide (p_state q = SLEEPING)
  then set_p_priority DEFAULTPRIO q else q.

Definition unqueued (q : proc) : bool :=
  bool_decide (p_state q = RUNNING) || bool_decide (p_state q = SLEEPING).

(** The last loop of [resetReadyList]: queued slots are not touched. *)
Lemma reset_unqueued_ok X s Q F :
  queues_ok X s Q F →
  let s' := set_procs (update_slot unqueued (set_p_priority DEFAULTPRIO) <$> procs s) s in
  queues_ok X s' Q F.
Proof.
  intros HI s'. pose proof (qo_lists _ _ _ _ HI) as [H1 H2 H3 H4 H5].
  set (g := update_slot unqueued (set_p_priority DEFAULTPRIO)).
  assert (∀ q, p_next (g q) = p_next q ∧ p_state (g q) = p_state q ∧
    (p_priority (g q) = p_priority q ∨ p_priority (g q) = DEFAULTPRIO ∧ unqueued q = true)) as Hg.
  { intros q. unfold g, update_slot. destruct (unqueued q) eqn:E; simpl; auto. }
  assert (∀ h l, chain (procs s) h l → chain (g <$> procs s) h l) as Hch.
  { intros h l. revert h. induction l as [|y l IH]; intros h Hc; [done|].
    destruct Hc as (-> & q & Hq & Hc). split; [done|]. exists (g q).
    rewrite list_lookup_fmap, Hq. split; [done|]. destruct (Hg q) as (-> & _). auto. }
  assert (∀ x st pr, status (procs s) x = Some (st, pr) → st ≠ RUNNING → st ≠ SLEEPING →
    status (g <$> procs s) x = Some (st, pr)) as Hs.
  { intros x st pr Hx Hr Hsl. unfold status in *. rewrite list_lookup_fmap.
    destruct (procs s !! x) as [q|]; simplify_eq/=. unfold g, update_slot, unqueued.
    by rewrite !bool_decide_false by done. }
  assert (∀ x st pr, status (g <$> procs s) x = Some (st, pr) →
    ∃ pr', status (procs s) x = Some (st, pr') ∧ (pr = pr' ∨ pr = DEFAULTPRIO)) as Hs'.
  { intros x st pr Hx. unfold status in *. rewrite list_lookup_fmap in Hx.
    destruct (procs s !! x) as [q|]; simplify_eq/=. destruct (Hg q) as (_ & -> & H).
    exists (p_priority q). naive_solver. }
  eapply queues_ok_transfer; [done| | | | |]; simpl; fold g.
  - split; simpl; [by rewrite length_fmap|done| |by apply Hch|done].
    eapply Forall2_impl; [done|]. auto.
  - intros i l x Hi Hx. by eapply Hs; [by eapply (qo_ready _ _ _ _ HI)|..].
  - intros x pr Hx HX. destruct (Hs' _ _ _ Hx) as (pr' & Hx' & _). by eapply (qo_all _ _ _ _ HI).
  - intros x Hx. destruct (qo_free _ _ _ _ HI x Hx) as [pr Hpr]. exists pr. by apply Hs.
  - intros x st pr Hx. destruct (Hs' _ _ _ Hx) as (pr' & Hx' & [-> | ->]); [by eauto|].
    right. unfold HIGH, DEFAULTPRIO, LOW. lia.
Qed.

Lemma erase_set_prios l ps : erase (set_prios l ps) = set_prios l (erase ps).
Proof.
  apply list_eq. intros i. unfold erase, set_prios. rewrite list_lookup_fmap, !list_lookup_imap, list_lookup_fmap.
  destruct (ps !! i); [|done]. simpl. by case_bool_decide.
Qed.

Lemma erase_update_unqueued ps :
  erase (update_slot unqueued (set_p_priority DEFAULTPRIO) <$> ps) =
    update_slot unqueued (set_p_priority DEFAULTPRIO) <$> erase ps.
Proof.
  apply list_eq. intros i. unfold erase. rewrite !list_lookup_fmap.
  destruct (ps !! i) as [q|]; [|done]. simpl. unfold update_slot, unqueued. simpl.
  by destruct (bool_decide _ || bool_decide _).
Qed.

Lemma erase_imap_reset X ps : erase (imap (reset_prio X) ps) = imap (reset_prio X) (erase ps).
Proof.
  apply list_eq. intros i. unfold erase. rewrite list_lookup_fmap, !list_lookup_imap, list_lookup_fmap.
  destruct (ps !! i) as [q|]; [|done]. simpl. unfold reset_prio. simpl.
  by destruct (_ && _ || _ || _).
Qed.

Lemma set_p_priority_id q pr : p_priority q = pr → set_p_priority pr q = q.
Proof. intros <-. by destruct q. Qed.

(** The three passes of [resetReadyList] together. *)
Lemma reset_table X s q0 q1 q2 F :
  queues_ok X s [q0; q1; q2] F → (∀ x, X = Some x → x ∉ concat [q0; q1; q2]) →
  update_slot unqueued (set_p_priority DEFAULTPRIO) <$> set_prios q2 (set_prios q0 (erase (procs s))) =
    imap (reset_prio X) (erase (procs s)).
Proof.
  intros HI HX. apply list_eq. intros i. unfold set_prios, erase.
  rewrite list_lookup_fmap, !list_lookup_imap, !list_lookup_fmap.
  destruct (procs s !! i) as [q|] eqn:Hq; [|done]. simpl. f_equal.
  pose proof (lookup_status _ _ _ Hq) as Hst.
  assert (∀ j l, [q0; q1; q2] !! j = Some l → i ∈ l → p_state q = RUNNABLE ∧
    p_priority q = Z.of_nat j ∧ X ≠ Some i) as Hin.
  { intros j l Hj Hi. pose proof (qo_ready _ _ _ _ HI _ _ _ Hj Hi).
    split; [congruence|]. split; [congruence|]. intros ->. by eapply HX, elem_of_concat; eauto. }
  unfold update_slot, unqueued, reset_prio.
  destruct (decide (i ∈ q0)) as [H0|H0].
  { destruct (Hin 0%nat q0 eq_refl H0) as (Hr & _ & Hx).
    rewrite (bool_decide_true (i ∈ q0)), (bool_decide_true (X ≠ Some i)) by done.
    destruct (bool_decide (i ∈ q2)); simpl; by rewrite Hr. }
  rewrite (bool_decide_false (i ∈ q0)) by done.
  destruct (decide (i ∈ q2)) as [H2|H2].
  { destruct (Hin 2%nat q2 eq_refl H2) as (Hr & _ & Hx).
    rewrite (bool_decide_true (i ∈ q2)), (bool_decide_true (X ≠ Some i)) by done.
    simpl. rewrite Hr. done. }
  rewrite (bool_decide_false (i ∈ q2)) by done. simpl.
  destruct (p_state q) eqn:Es; simpl; try done.
  destruct (decide (X = Some i)) as [Hx|Hx]; [by rewrite bool_decide_false by tauto|].
  rewrite bool_decide_true by done. simpl.
  assert (i ∈ q1) as H1.
  { pose proof (qo_all _ _ _ _ HI _ _ Hst Hx) as Hall. set_solver. }
  destruct (Hin 1%nat q1 eq_refl H1) as (_ & Hp & _).
  symmetry. by apply (set_p_priority_id (set_p_next None q)).
Qed.

Lemma resetReadyList_ok X s q0 q1 q2 F :
  queues_ok X s [q0; q1; q2] F → (∀ x, X = Some x → x ∉ concat [q0; q1; q2]) →
  ∃ s', resetReadyList s = Ok tt s' ∧ queues_ok X s' [[]; q1 ++ q0 ++ q2; []] F ∧
    erase (procs s') = erase (imap (reset_prio X) (procs s)) ∧ rest s' = rest s.
Proof.
  intros HI HX. pose proof (qo_lists _ _ _ _ HI) as HL.
  destruct (lo_queue _ _ _ HL 0%nat q0 eq_refl) as (h0 & Hh0 & Hc0).
  pose proof (chain_length _ _ _ Hc0 (lo_nodup_queue _ _ _ HL 0%nat q0 eq_refl)) as Hl0.
  rewrite (lo_procs _ _ _ HL) in Hl0.
  destruct (demote_loop_ok X F 0 q0 s [q0; q1; q2] q1 LISTFUEL) as
    (s1 & Hr1 & HI1 & He1 & Hrest1 & _); [done|done|done|done|unfold LISTFUEL; lia|]. simpl in HI1.
  pose proof (qo_lists _ _ _ _ HI1) as HL1.
  destruct (lo_queue _ _ _ HL1 2%nat q2 eq_refl) as (h2 & Hh2 & Hc2).
  pose proof (chain_length _ _ _ Hc2 (lo_nodup_queue _ _ _ HL1 2%nat q2 eq_refl)) as Hl2.
  rewrite (lo_procs _ _ _ HL1) in Hl2.
  destruct (demote_loop_ok X F 2 q2 s1 [[]; q1 ++ q0; q2] (q1 ++ q0) LISTFUEL) as
    (s2 & Hr2 & HI2 & He2 & Hrest2 & _); [done|done|done|done|unfold LISTFUEL; lia|]. simpl in HI2.
  rewrite <- app_assoc in HI2.
  eexists. split; [|split; [by apply reset_unqueued_ok|split]].
  - unfold resetReadyList. krun.
    rewrite (getReady_ok s 0 h0 Hh0 : getReady HIGH s = _). cbn [obind].
    rewrite (chain_head _ _ _ Hc0). unfold demote_loop. rewrite Hr1. cbn [obind].
    rewrite (getReady_ok s1 2 h2 Hh2 : getReady LOW s1 = _). cbn [obind].
    rewrite (chain_head _ _ _ Hc2), Hr2. cbn [obind].
    apply (for_slots unqueued (set_p_priority DEFAULTPRIO)).
    apply (lo_procs _ _ _ (qo_lists _ _ _ _ HI2)).
  - simpl. rewrite erase_update_unqueued, He2, erase_set_prios, He1, erase_set_prios, erase_imap_reset.
    by eapply reset_table.
  - by rewrite <- Hrest1, <- Hrest2.
Qed.

(** ** Choosing *)

(** Interrupts off and a lock held: [pushcli] and [popcli] cancel. *)
(** A CPU that has some lock. *)
Definition quiet (m : mach) : Prop := Z.land (eflags m) FL_IF = 0 ∧ 1 ≤ ncli m.

Lemma holds_quiet L m : holds L m → L ≠ ∅ → quiet m.
Proof.
  intros HL Hne. split; [by apply (h_if _ _ HL)|]. rewrite (h_ncli _ _ HL).
  assert (size L ≠ 0%nat) by (apply size_non_empty_iff; set_solver). lia.
Qed.

Lemma push_pop m : quiet m → popcli (pushed m) = Ok tt m.
Proof.
  intros [Hif Hn]. unfold popcli, readeflags, pushed, set_ncli, sti. krun. simpl. rewrite land_ldiff_IF. simpl.
  rewrite ldiff_IF_off by done. replace (ncli m =? 0) with false by lia.
  replace (ncli m + 1 - 1) with (ncli m) by lia.
  destruct (Z.ltb_spec (ncli m) 0); [lia|]. simpl.
  replace (ncli m =? 0) with false by lia. by destruct m.
Qed.

Lemma switchuvm_ok s c qc p q :
  quiet (mch s) → curproc s = Some c → procs s !! c = Some qc →
  procs s !! p = Some q → p_pgdir q ≠ 0 →
  switchuvm p s = Ok tt (set_hw (Regs (u32 (p_pgdir q - 0x80000000)) (Z.shiftl SEG_TSS 3)
    (Z.shiftl SEG_KDATA 3) (u32 (p_kstack qc + KSTACKSIZE))) s).
Proof.
  intros HL Hcur Hqc Hq Hpg. unfold switchuvm.
  rewrite (bind_ok _ _ s tt (set_mch (pushed (mch s)) s)) by (apply lift_ok, pushcli_ok).
  rewrite (bind_ok _ _ _ _ _ (myproc_ok (set_mch _ s) c Hcur)). krun.
  rewrite (getp_ok (set_mch _ s) c qc Hqc). cbn [obind].
  rewrite (getp_ok _ p q) by exact Hq. cbn [obind].
  destruct (Z.eqb_spec (p_pgdir q) 0); [done|]. cbn [obind].
  rewrite (lift_ok popcli _ (mch s)) by (by apply push_pop). by destruct s.
Qed.

(** The page directory [dispatch] needs. *)
Definition runnable_ok (s : pst) : Prop :=
  ∀ x q, procs s !! x = Some q → p_state q = RUNNABLE → p_pgdir q ≠ 0.

Lemma dispatch_empty s Q F i :
  queues_ok None s Q F → Q !! i = Some [] → dispatch (Z.of_nat i) s = Ok None s.
Proof.
  intros HI Hi. destruct (lo_queue _ _ _ (qo_lists _ _ _ _ HI) _ _ Hi) as (h & Hh & Hc).
  simpl in Hc. subst h. unfold dispatch. krun. by rewrite (getReady_ok _ _ _ Hh).
Qed.

(** The queues once the head of queue [i] has been taken off, that process being
    RUNNABLE still. *)
Lemma take_head_ok s Q F i p l :
  queues_ok None s Q F → Q !! i = Some (p :: l) →
  ∃ s1, removeFromReadyList p (Z.of_nat i) s = Ok tt s1 ∧
    queues_ok (Some p) s1 (<[i := l]> Q) F ∧ p ∉ concat (<[i := l]> Q) ∧
    erase (procs s1) = erase (procs s) ∧ rest s1 = rest s.
Proof.
  intros HI Hi. pose proof (qo_lists _ _ _ _ HI) as HL. pose proof (lookup_lt_Some _ _ _ Hi) as Hlt.
  destruct (removeFromReadyList_head s Q F p i l HL Hi) as (s1 & Hr1 & HL1 & [He1 Hrest1] & Hf1).
  pose proof (lo_nodup _ _ _ HL) as Hnd.
  assert (p ∉ concat (<[i := l]> Q)) as Hp.
  { rewrite concat_insert by done. rewrite (concat_lookup _ _ _ Hi) in Hnd.
    rewrite Permutation_app_comm, <- app_comm_cons, <- app_comm_cons, NoDup_cons in Hnd. set_solver. }
  exists s1. split_and!; [done| |done|done|done].
  assert (∀ y, status (procs s1) y = status (procs s) y) as Hs by (intros; by apply status_erase).
  eapply queues_ok_transfer; [done|done| | | |]; setoid_rewrite Hs.
  - intros a k y Ha Hy. destruct (decide (a = i)) as [->|Hne].
    + rewrite list_lookup_insert_eq in Ha by done. simplify_eq.
      eapply (qo_ready _ _ _ _ HI i (p :: k)); [done|by right].
    + rewrite list_lookup_insert_ne in Ha by done. by eapply (qo_ready _ _ _ _ HI).
  - intros y pr Hy Hne. pose proof (qo_all _ _ _ _ HI y pr Hy ltac:(done)) as Hin.
    rewrite concat_insert by done. rewrite (concat_lookup _ _ _ Hi) in Hin. set_solver.
  - apply (qo_free _ _ _ _ HI).
  - eauto.
Qed.

Lemma start_running s Q F p pr :
  queues_ok (Some p) s Q F → p ∉ concat Q → status (procs s) p = Some (RUNNABLE, pr) →
  queues_ok None (set_procs (alter (set_p_state RUNNING) p (procs s)) s) Q F.
Proof.
  intros HI Hp Hst.
  assert (∀ y, y ≠ p → status (alter (set_p_state RUNNING) p (procs s)) y = status (procs s) y) as Hs.
  { intros. by apply status_alter_ne. }
  pose proof (status_alter_state _ _ _ RUNNING _ Hst) as Hst'.
  eapply queues_ok_transfer; [done|by apply lists_ok_alter, HI| | | |]; simpl.
  - intros i l y Hi Hy. rewrite Hs; [by eapply (qo_ready _ _ _ _ HI)|].
    intros ->. apply Hp, elem_of_concat. eauto.
  - intros y pr' Hy _. destruct (decide (y = p)) as [->|]; [congruence|].
    rewrite Hs in Hy by done. apply (qo_all _ _ _ _ HI y pr'); [done|congruence].
  - intros y Hy. rewrite Hs; [by apply (qo_free _ _ _ _ HI)|].
    intros ->. by eapply (qo_off_free _ _ _ _ HI).
  - intros y st2 pr2 Hy. destruct (decide (y = p)) as [->|]; [|rewrite Hs in Hy by done; eauto].
    rewrite Hst' in Hy. simplify_eq. eauto.
Qed.

(** What the countdown reaching zero does to the queues and to the table. *)
Definition queues_reset (t : Z) (Q : list (list nat)) : list (list nat) :=
  if t =? 0 then [[]; concat ([nth 1 Q []; nth 0 Q []; nth 2 Q []]); []] else Q.

Definition table_reset (t : Z) (p : nat) (ps : list proc) : list proc :=
  if t =? 0 then imap (reset_prio (Some p)) ps else ps.

(** The countdown, with [p] off the queues. *)
Lemma countdown_ok s Q F p t :
  queues_ok (Some p) s Q F → p ∉ concat Q →
  ∃ s', (if t =? 0 then resetReadyList;; modify (set_timeToReset COUNT) else mret tt) s = Ok tt s' ∧
    queues_ok (Some p) s' (queues_reset t Q) F ∧ p ∉ concat (queues_reset t Q) ∧
    erase (procs s') = erase (table_reset t p (procs s)) ∧ mch s' = mch s ∧
    timeToReset s' = (if t =? 0 then COUNT else timeToReset s) ∧
    kpgdir s' = kpgdir s ∧ nextpid s' = nextpid s ∧ initproc s' = initproc s.
Proof.
  intros HI Hp. unfold queues_reset, table_reset. destruct (t =? 0); [|by exists s].
  pose proof (lo_queues _ _ _ (qo_lists _ _ _ _ HI)) as Hlen. unfold SIZE in Hlen.
  destruct Q as [|q0 [|q1 [|q2 []]]]; try done. cbn [nth].
  destruct (resetReadyList_ok (Some p) s q0 q1 q2 F HI) as (s1 & Hr & HI1 & He1 & Hrest).
  { by intros x [= <-]. }
  replace (concat [q1; q0; q2]) with (q1 ++ q0 ++ q2) by (simpl; by rewrite app_nil_r).
  exists (set_timeToReset COUNT s1). rewrite (bind_ok _ _ _ _ _ Hr).
  unfold rest in Hrest. simplify_eq.
  split_and!; [done|by apply (queues_ok_ext (Some p) s1)|set_solver|done|done|done|done|done|done].
Qed.

(** The chosen process is not reset: it is RUNNABLE but off the queues. *)
Lemma table_reset_chosen t p ps q :
  ps !! p = Some q → p_state q = RUNNABLE → table_reset t p ps !! p = Some q.
Proof.
  intros Hq Hst. unfold table_reset. destruct (t =? 0); [|done].
  rewrite list_lookup_imap, Hq. simpl. unfold reset_prio. rewrite Hst.
  by rewrite (bool_decide_false (Some p ≠ Some p)) by tauto.
Qed.

Lemma erase_table_reset t p ps ps' :
  erase ps' = erase ps → erase (table_reset t p ps') = erase (table_reset t p ps).
Proof.
  intros He. unfold table_reset. destruct (t =? 0); [|done]. by rewrite !erase_imap_reset, He.
Qed.

Lemma dispatch_ok s Q F i p l q :
  queues_ok None s Q F → quiet (mch s) → Q !! i = Some (p :: l) →
  procs s !! p = Some q → p_pgdir q ≠ 0 →
  let t := u32 (timeToReset s - 1) in
  ∃ s', dispatch (Z.of_nat i) s = Ok (Some (p, if negb (Z.of_nat i =? 2) then -1 else Z.of_nat i)) s' ∧
    queues_ok None s' (queues_reset t (<[i := l]> Q)) F ∧
    erase (procs s') = erase (alter (set_p_state RUNNING) p (table_reset t p (procs s))) ∧
    mch s' = mch s ∧ curproc s' = Some p ∧
    timeToReset s' = (if t =? 0 then COUNT else t) ∧
    cr3 (hw s') = u32 (p_pgdir q - 0x80000000) ∧ ts_esp0 (hw s') = u32 (p_kstack q + KSTACKSIZE) ∧
    kpgdir s' = kpgdir s ∧ nextpid s' = nextpid s ∧ initproc s' = initproc s.
Proof.
  intros HI HL Hi Hq Hpg t.
  destruct (take_head_ok s Q F i p l HI Hi) as (s1 & Hr1 & HI1 & Hp1 & He1 & Hrest1).
  unfold rest in Hrest1. injection Hrest1 as Hm1 Ht1 Hn1 Hip1 Hc1 Hhw1 Hk1.
  set (s2 := set_timeToReset t s1).
  destruct (countdown_ok s2 (<[i := l]> Q) F p t) as
    (s3 & Hr3 & HI3 & Hp3 & He3 & Hm3 & Ht3 & Hk3 & Hn3 & Hip3);
    [by apply (queues_ok_ext (Some p) s1)|done|].
  pose proof (qo_ready _ _ _ _ HI i (p :: l) p Hi ltac:(left)) as Hst.
  rewrite (lookup_status _ _ _ Hq) in Hst. injection Hst as Hst Hprio.
  destruct (erase_lookup _ _ _ _ He1 Hq) as [n1 Hq1].
  destruct (erase_lookup _ (procs s3) p (set_p_next n1 q) He3) as [n3 Hq3].
  { by apply table_reset_chosen. }
  set (s4 := set_curproc (Some p) s3).
  assert (quiet (mch s4)) as HL4 by (simpl; by rewrite Hm3; simpl; rewrite Hm1).
  pose proof (switchuvm_ok s4 p _ p _ HL4 eq_refl Hq3 Hq3 Hpg) as Hsw.
  set (s5 := set_hw _ s4) in Hsw.
  destruct (lo_queue _ _ _ (qo_lists _ _ _ _ HI) _ _ Hi) as (h & Hh & -> & _).
  exists (set_procs (alter (set_p_state RUNNING) p (procs s5)) s5). split_and!; try done.
  - unfold dispatch. rewrite (bind_ok _ _ _ _ _ (getReady_ok _ _ _ Hh)).
    rewrite (bind_ok _ _ _ _ _ (getp_ok _ _ _ Hq)). rewrite Hprio, (bind_ok _ _ _ _ _ Hr1).
    cbv zeta. rewrite (bind_ok _ _ s1 tt s2) by (unfold modify; by rewrite Ht1).
    rewrite (bind_ok _ _ s2 t s2) by done. rewrite (bind_ok _ _ _ _ _ Hr3).
    rewrite (bind_ok _ _ s3 tt s4) by done. rewrite (bind_ok _ _ _ _ _ Hsw).
    by rewrite (bind_ok _ _ _ _ _ (setp_ok s5 p _ (lookup_lt_Some _ _ _ Hq3))).
  - eapply start_running; [by apply (queues_ok_ext (Some p) s3)|done|].
    rewrite (lookup_status (procs s5) p _ Hq3). simpl. by rewrite Hst.
  - simpl. rewrite !erase_alter_state, He3. simpl. f_equal. apply erase_table_reset, He1.
  - simpl. by rewrite Hm3.
  - simpl. by rewrite Hk3.
  - simpl. by rewrite Hn3.
  - simpl. by rewrite Hip3.
Qed.

(** Empty queues are passed over. *)
Lemma scheduler_loop_skip s Q F k : ∀ j fuel,
  queues_ok None s Q F → (∀ a, (j ≤ a < j + k)%nat → Q !! a = Some []) →
  scheduler_loop (k + fuel) (Z.of_nat j) s = scheduler_loop fuel (Z.of_nat (j + k)) s.
Proof.
  induction k as [|k IH]; intros j fuel HI H; [by rewrite Nat.add_0_r|].
  pose proof (H j ltac:(lia)) as Hj. pose proof (lookup_lt_Some _ _ _ Hj) as Hlt.
  rewrite (lo_queues _ _ _ (qo_lists _ _ _ _ HI)) in Hlt.
  cbn [scheduler_loop Nat.add]. destruct (Z.ltb_spec (Z.of_nat j) (Z.of_nat SIZE)); [|lia].
  rewrite (bind_ok _ _ _ _ _ (dispatch_empty _ _ _ _ HI Hj)).
  replace (Z.of_nat j + 1) with (Z.of_nat (S j)) by lia.
  rewrite IH; [f_equal; lia|done|]. intros a Ha. apply H. lia.
Qed.

Lemma scheduler_loop_idle s Q F fuel :
  queues_ok None s Q F → concat Q = [] → (SIZE < fuel)%nat → scheduler_loop fuel 0 s = Ok tt s.
Proof.
  intros HI Hnil Hf. replace fuel with (SIZE + S (fuel - S SIZE))%nat by lia.
  rewrite (scheduler_loop_skip s Q F SIZE 0 _ HI); [done|].
  intros a Ha. destruct (lookup_lt_is_Some_2 Q a) as [l Hl].
  { rewrite (lo_queues _ _ _ (qo_lists _ _ _ _ HI)). lia. }
  rewrite Hl. f_equal. destruct l as [|x l]; [done|]. exfalso.
  apply (not_elem_of_nil x). rewrite <- Hnil. apply elem_of_concat. exists a, (x :: l).
  split; [done|left].
Qed.

Lemma holds_sti m : holds ∅ m → holds ∅ (set_eflags (Z.lor (eflags m) FL_IF) m).
Proof. intros [H1 H2 H3 H4]. split; [set_solver|done|done|done]. Qed.

(** The start of a round: interrupts on, then the table's lock. *)
Lemma round_start s :
  holds ∅ (mch s) →
  ∃ m1, holds {[Lptable]} m1 ∧ ∀ A (k : K pst A),
    (lift sti;; lift (acquire Lptable);; k) s = k (set_mch m1 s).
Proof.
  intros HL. set (s0 := set_mch (set_eflags (Z.lor (eflags (mch s)) FL_IF) (mch s)) s).
  destruct (lift_acquire ∅ Lptable s0 (holds_sti _ HL)) as (m1 & Hacq & Hm1); [set_solver|].
  rewrite (right_id_L ∅ (∪)) in Hm1. exists m1. split; [done|]. intros A k.
  rewrite (bind_ok _ _ s tt s0) by done. by rewrite (bind_ok _ _ _ _ _ Hacq).
Qed.

(** Where the scan goes on after a process of queue [i] has run. *)
Definition rescan (i : nat) : Z := if (i =? 2)%nat then 3 else 0.

(** The scheduler's own state when a process switches back to it. *)
Definition back (s : pst) : pst :=
  set_curproc None (set_hw (Regs (u32 (kpgdir s - 0x80000000)) (tr (hw s)) (ts_ss0 (hw s))
    (ts_esp0 (hw s))) s).

Lemma scheduler_round_picks s Q F i p l q fuel :
  queues_ok None s Q F → holds ∅ (mch s) → (∀ j, (j < i)%nat → Q !! j = Some []) →
  Q !! i = Some (p :: l) → procs s !! p = Some q → p_pgdir q ≠ 0 →
  let t := u32 (timeToReset s - 1) in
  ∃ s1 k, scheduler_round (i + S fuel) s = Switch s1 k ∧
    holds {[Lptable]} (mch s1) ∧ curproc s1 = Some p ∧
    queues_ok None s1 (queues_reset t (<[i := l]> Q)) F ∧
    erase (procs s1) = erase (alter (set_p_state RUNNING) p (table_reset t p (procs s))) ∧
    timeToReset s1 = (if t =? 0 then COUNT else t) ∧
    cr3 (hw s1) = u32 (p_pgdir q - 0x80000000) ∧ ts_esp0 (hw s1) = u32 (p_kstack q + KSTACKSIZE) ∧
    (∀ s2, k s2 = (scheduler_loop fuel (rescan i);; lift (release Lptable)) (back s2)).
Proof.
  intros HI HL Hlow Hi Hq Hpg t. destruct (round_start s HL) as (m1 & Hm1 & Hstart).
  assert (queues_ok None (set_mch m1 s) Q F) as HI1 by by apply (queues_ok_ext None s).
  destruct (dispatch_ok (set_mch m1 s) Q F i p l q HI1) as
    (s1 & Hrun & HI' & He & Hm & Hcur & Ht & Hcr3 & Hesp & _); [eapply holds_quiet; [exact Hm1|set_solver]|done|done|done|].
  pose proof (lookup_lt_Some _ _ _ Hi) as Hlt. rewrite (lo_queues _ _ _ (qo_lists _ _ _ _ HI)) in Hlt.
  exists s1. eexists. split; [|split_and!; [by rewrite Hm|done|done|done|done|done|done|]].
  - unfold scheduler_round, scheduler_round_with. rewrite Hstart. unfold mbind at 1, K_bind at 1.
    rewrite (scheduler_loop_skip (set_mch m1 s) Q F i 0 _ HI1) by (intros; apply Hlow; lia).
    cbn [scheduler_loop Nat.add]. destruct (Z.ltb_spec (Z.of_nat i) (Z.of_nat SIZE)); [|lia].
    rewrite (bind_ok _ _ _ _ _ Hrun). unfold mbind at 1, K_bind at 1. cbn [swtch obind]. reflexivity.
  - intros s2. cbv beta. unfold switchkvm. krun. unfold rescan, SIZE in *.
    destruct i as [|[|[|]]]; [done|done|done|lia].
Qed.

(** ** Setting a priority *)

(** Removing any process but the last of a queue of two or more. *)
Lemma removeFromReadyList_ok s Q F i l1 p l2 :
  lists_ok s Q F → Q !! i = Some (l1 ++ p :: l2) → l1 = [] ∨ l2 ≠ [] →
  ∃ s', removeFromReadyList p (Z.of_nat i) s = Ok tt s' ∧
    lists_ok s' (<[i := l1 ++ l2]> Q) F ∧ same_but_lists s s' ∧ freeList s' = freeList s.
Proof.
  intros HL Hi Hpos. destruct l1 as [|a l1 _] using rev_ind; [by apply removeFromReadyList_head|].
  destruct l2 as [|b l2]; [destruct Hpos as [H|H]; [by destruct l1|done]|].
  rewrite <- app_assoc in *. by apply removeFromReadyList_middle.
Qed.

(** [setPriority] on a queued process, between finding it and releasing. *)
Lemma requeue_ok X s Q F i j l1 p l2 m :
  i ≠ j → queues_ok X s Q F → Q !! i = Some (l1 ++ p :: l2) → l1 = [] ∨ l2 ≠ [] →
  Q !! j = Some m →
  let s1 := set_procs (alter (set_p_priority (Z.of_nat j)) p (procs s)) s in
  ∃ s', (removeFromReadyList p (Z.of_nat i);; putOnReadyList p (Z.of_nat j)) s1 = Ok tt s' ∧
    queues_ok X s' (<[j := m ++ [p]]> (<[i := l1 ++ l2]> Q)) F ∧
    erase (procs s') = erase (procs s1) ∧ rest s' = rest s.
Proof.
  intros Hne HI Hi Hpos Hj s1. pose proof (qo_lists _ _ _ _ HI) as HL.
  destruct (removeFromReadyList_ok s1 Q F i l1 p l2) as (s2 & Hr2 & HL2 & [He2 Hrest2] & _);
    [by apply lists_ok_alter|done|done|].
  assert (p ∉ F ++ concat (<[i := l1 ++ l2]> Q)) as Hp.
  { pose proof (lo_nodup _ _ _ HL) as Hnd. rewrite (concat_lookup _ _ _ Hi) in Hnd.
    rewrite concat_insert by (by eapply lookup_lt_Some). rewrite <- Permutation_middle in Hnd.
    rewrite Permutation_app_comm, <- !app_comm_cons, NoDup_cons in Hnd. set_solver. }
  destruct (putOnReadyList_ok s2 (<[i := l1 ++ l2]> Q) F p j m HL2) as (s3 & Hr3 & HL3 & [He3 Hrest3] & _).
  { by rewrite list_lookup_insert_ne. }
  { done. }
  { eapply (lo_lt _ _ _ HL i (l1 ++ p :: l2)); [done|set_solver]. }
  exists s3. rewrite (bind_ok _ _ _ _ _ Hr2). split_and!; [done| |congruence|by rewrite Hrest3].
  eapply (queues_ok_requeue X s s3 Q F i j p); [done|done|done|by rewrite Permutation_middle|done|done|done|].
  by rewrite He3, He2.
Qed.

(** What happens to the queues: [x] leaves its queue for the tail of queue [j]. *)
Definition queues_moved (Q : list (list nat)) (i j x : nat) (l1 l2 : list nat) : list (list nat) :=
  alter (λ m, m ++ [x]) j (<[i := l1 ++ l2]> Q).

Lemma setPriority_queued L s Q F pid x q i j l1 l2 :
  queues_ok None s Q F → holds L (mch s) → Lptable ∉ L → first_pid (procs s) pid x q →
  Q !! i = Some (l1 ++ x :: l2) → l1 = [] ∨ l2 ≠ [] → i ≠ j → (j < SIZE)%nat →
  ∃ s', setPriority pid (Z.of_nat j) s = Ok 0 s' ∧ holds L (mch s') ∧
    queues_ok None s' (queues_moved Q i j x l1 l2) F ∧
    erase (procs s') = erase (alter (set_p_priority (Z.of_nat j)) x (procs s)) ∧
    context_of s' = context_of s.
Proof.
  intros HI HL Hlk Hfirst Hi Hpos Hne Hj. pose proof (lo_procs _ _ _ (qo_lists _ _ _ _ HI)) as Hlen.
  destruct (lookup_lt_is_Some_2 Q j) as [m Hm]; [by rewrite (lo_queues _ _ _ (qo_lists _ _ _ _ HI))|].
  pose proof (qo_ready _ _ _ _ HI i (l1 ++ x :: l2) x Hi ltac:(set_solver)) as Hst.
  rewrite (lookup_status _ _ _ (proj1 Hfirst)) in Hst. injection Hst as Hst Hpr.
  assert (wp total (setPriority pid (Z.of_nat j)) (λ r s', r = 0 ∧ holds L (mch s') ∧
    queues_ok None s' (queues_moved Q i j x l1 l2) F ∧
    erase (procs s') = erase (alter (set_p_priority (Z.of_nat j)) x (procs s)) ∧
    context_of s' = context_of s) s) as H.
  { unfold setPriority. wp_step. eapply wp_acquire; [done|done|]. intros m1 Hm1 Hs1. wp_step.
    set (s1 := set_mch m1 s).
    eapply (wp_pid_found pid (λ p q, _) _ s1 x q (inr 0)); [done|done|].
    rewrite Hpr. destruct (Z.eqb_spec (Z.of_nat i) (Z.of_nat j)); [lia|].
    wp_step. eapply wp_setp; [eapply lookup_lt_Some, Hfirst|]. wp_step. eapply wp_getp.
    { simpl. rewrite list_lookup_alter_eq. by rewrite (proj1 Hfirst). }
    rewrite decide_True by done. wp_step.
    destruct (requeue_ok None s1 Q F i j l1 x l2 m) as (s2 & Hr & HI2 & He2 & Hrest);
      [done|by apply (queues_ok_ext None s)|done|done|done|].
    eapply wp_ok; [exact Hr|]. wp_steps. split; [done|]. cbv beta iota.
    apply rest_inv in Hrest as [Hm2 Hctx]. simpl in Hm2. wp_step.
    eapply wp_release; [by rewrite Hm2|set_solver|]. intros m3 Hm3 Hs3. wp_steps.
    rewrite diff_union_lock in Hm3 by done. split_and!; [done|done| |done|done].
    unfold queues_moved. rewrite <- (insert_alter _ _ _ m) by (by rewrite list_lookup_insert_ne).
    by apply (queues_ok_ext None s2). }
  apply wp_total_ok in H as (r & s' & Hr & -> & H). eauto.
Qed.

Lemma setPriority_last L s Q F pid x q i j l1 a :
  queues_ok None s Q F → holds L (mch s) → Lptable ∉ L → first_pid (procs s) pid x q →
  Q !! i = Some (l1 ++ [a; x]) → i ≠ j →
  setPriority pid (Z.of_nat j) s = Fault.
Proof.
  intros HI HL Hlk Hfirst Hi Hne. pose proof (lo_procs _ _ _ (qo_lists _ _ _ _ HI)) as Hlen.
  pose proof (qo_ready _ _ _ _ HI i (l1 ++ [a; x]) x Hi ltac:(set_solver)) as Hst.
  rewrite (lookup_status _ _ _ (proj1 Hfirst)) in Hst. injection Hst as Hst Hpr.
  destruct (lift_acquire L Lptable s HL Hlk) as (m1 & Hacq & Hm1). set (s1 := set_mch m1 s) in *.
  unfold setPriority. rewrite (bind_ok _ _ _ _ _ Hacq). apply bind_fault.
  refine (eq_trans (pid_found pid (λ p q, _) s1 x q Hlen Hfirst) _).
  rewrite Hpr. destruct (Z.eqb_spec (Z.of_nat i) (Z.of_nat j)); [lia|].
  rewrite (bind_ok _ _ _ _ _ (setp_ok s1 x _ (lookup_lt_Some _ _ _ (proj1 Hfirst)))).
  set (s2 := set_procs _ s1).
  assert (procs s2 !! x = Some (set_p_priority (Z.of_nat j) q)) as Hq2.
  { simpl. by rewrite list_lookup_alter_eq, (proj1 Hfirst). }
  rewrite (bind_ok _ _ _ _ _ (getp_ok _ _ _ Hq2)). rewrite decide_True by done.
  krun. rewrite (removeFromReadyList_last s2 Q F i l1 a x); [done| |done].
  apply lists_ok_alter; [done|]. by apply (lists_ok_ext s), (qo_lists _ _ _ _ HI).
Qed.

(** The invariant under a priority change of a process that is on no queue. *)
Lemma queues_ok_set_prio s Q F x st pr j :
  queues_ok None s Q F → status (procs s) x = Some (st, pr) → st ≠ RUNNABLE → (j < SIZE)%nat →
  queues_ok None (set_procs (alter (set_p_priority (Z.of_nat j)) x (procs s)) s) Q F.
Proof.
  intros HI Hst Hr Hj.
  pose proof (status_alter_prio _ _ _ _ (Z.of_nat j) Hst) as Hst'.
  assert (∀ y, y ≠ x → status (alter (set_p_priority (Z.of_nat j)) x (procs s)) y = status (procs s) y) as Hs.
  { intros. by apply status_alter_ne. }
  eapply queues_ok_transfer; [done|by apply lists_ok_alter, HI| | | |]; simpl.
  - intros i l y Hi Hy. pose proof (qo_ready _ _ _ _ HI _ _ _ Hi Hy).
    rewrite Hs; [done|]. intros ->. congruence.
  - intros y pr' Hy _. destruct (decide (y = x)) as [->|]; [congruence|].
    rewrite Hs in Hy by done. by apply (qo_all _ _ _ _ HI y pr').
  - intros y Hy. destruct (qo_free _ _ _ _ HI y Hy) as [pr' Hpr']. destruct (decide (y = x)) as [->|].
    + exists (Z.of_nat j). rewrite Hst'. congruence.
    + exists pr'. by rewrite Hs.
  - intros y st2 pr2 Hy. destruct (decide (y = x)) as [->|]; [|rewrite Hs in Hy by done; eauto].
    right. rewrite Hst' in Hy. simplify_eq. unfold SIZE, HIGH, LOW in *. lia.
Qed.

Lemma setPriority_unqueued L s Q F pid x q j :
  queues_ok None s Q F → holds L (mch s) → Lptable ∉ L → first_pid (procs s) pid x q →
  p_state q ≠ RUNNABLE → (j < SIZE)%nat →
  ∃ s', setPriority pid (Z.of_nat j) s = Ok 0 s' ∧ holds L (mch s') ∧ queues_ok None s' Q F ∧
    procs s' = alter (set_p_priority (Z.of_nat j)) x (procs s) ∧ context_of s' = context_of s.
Proof.
  intros HI HL Hlk Hfirst Hst Hj. pose proof (lo_procs _ _ _ (qo_lists _ _ _ _ HI)) as Hlen.
  pose proof (proj1 Hfirst) as Hq.
  assert (wp total (setPriority pid (Z.of_nat j)) (λ r s', r = 0 ∧ holds L (mch s') ∧
    queues_ok None s' Q F ∧ procs s' = alter (set_p_priority (Z.of_nat j)) x (procs s) ∧
    context_of s' = context_of s) s) as H.
  { unfold setPriority. wp_step. eapply wp_acquire; [done|done|]. intros m1 Hm1 Hs1. wp_step.
    set (s1 := set_mch m1 s).
    destruct (Z.eqb_spec (p_priority q) (Z.of_nat j)) as [Heq|Hne'].
    - eapply (wp_pid_found pid (λ p q, _) _ s1 x q (inl 0)); [done|done|].
      rewrite Heq, Z.eqb_refl. wp_step. eapply wp_release; [done|set_solver|].
      intros m3 Hm3 Hs3. wp_steps. rewrite diff_union_lock in Hm3 by done.
      split; [done|]. wp_steps. split_and!; [done|done|by apply (queues_ok_ext None s)| |done].
      simpl. symmetry. apply list_eq. intros y. destruct (decide (x = y)) as [<-|].
      + rewrite list_lookup_alter_eq, Hq. simpl. f_equal. by apply set_p_priority_id.
      + by rewrite list_lookup_alter_ne.
    - eapply (wp_pid_found pid (λ p q, _) _ s1 x q (inr 0)); [done|done|].
      destruct (Z.eqb_spec (p_priority q) (Z.of_nat j)); [done|].
      wp_step. eapply wp_setp; [eapply lookup_lt_Some, Hq|]. wp_step. eapply wp_getp.
      { simpl. rewrite list_lookup_alter_eq. by rewrite Hq. }
      rewrite decide_False by done. wp_steps. split; [done|]. wp_step.
      eapply wp_release; [done|set_solver|]. intros m3 Hm3 Hs3. wp_steps.
      rewrite diff_union_lock in Hm3 by done. split_and!; [done|done| |done|done].
      apply (queues_ok_ext None (set_procs (alter (set_p_priority (Z.of_nat j)) x (procs s)) s)); [done..|].
      by eapply queues_ok_set_prio; [done|by apply lookup_status|..]. }
  apply wp_total_ok in H as (r & s' & Hr & -> & H). eauto.
Qed.
