(* ===== verification/Scheduling.v ===== *)
(** * The scheduler's properties (proc.c)

    The theorems about waking, sleeping, choosing, killing and priorities, each
    applied to a concrete process table.  A boolean check of the scheduling
    invariant is proved sound first, so that it can be evaluated on a table. *)
From S2P Require Import Prelude Spinlock Str Ptable PtableLists Sched Choice.

(** ** Checking the invariant *)

Fixpoint chainb (ps : list proc) (h : option nat) (l : list nat) : bool :=
  match l with
  | [] => bool_decide (h = None)
  | x :: l =>
      bool_decide (h = Some x) &&
      match ps !! x with Some q => chainb ps (p_next q) l | None => false end
  end.

Definition slot_ok (Q : list (list nat)) (F : list nat) (x : nat) (q : proc) : bool :=
  (HIGH <=? p_priority q) && (p_priority q <=? LOW) &&
  forallb (λ i, implb (bool_decide (x ∈ nth i Q []))
    (bool_decide (p_state q = RUNNABLE) && (p_priority q =? Z.of_nat i))) (seq 0 SIZE) &&
  implb (bool_decide (p_state q = RUNNABLE)) (bool_decide (x ∈ concat Q)) &&
  implb (bool_decide (x ∈ F)) (bool_decide (p_state q = UNUSED)).

Definition queues_okb (s : pst) (Q : list (list nat)) (F : list nat) : bool :=
  (length (procs s) =? NPROC)%nat && (length Q =? SIZE)%nat && (length (readyList s) =? SIZE)%nat &&
  forallb (λ i, match readyList s !! i with
                | Some h => chainb (procs s) h (nth i Q []) | None => false end) (seq 0 SIZE) &&
  chainb (procs s) (freeList s) F && bool_decide (NoDup (F ++ concat Q)) &&
  forallb (λ x, match procs s !! x with Some q => slot_ok Q F x q | None => false end) (seq 0 NPROC).

Lemma chainb_ok ps l : ∀ h, chainb ps h l = true → chain ps h l.
Proof.
  induction l as [|x l IH]; intros h H; simpl in *; [by apply bool_decide_eq_true in H|].
  apply andb_true_iff in H as [H1%bool_decide_eq_true H2]. split; [done|].
  destruct (ps !! x) as [q|]; [|done]. eauto.
Qed.

Lemma slot_ok_spec Q F x q :
  slot_ok Q F x q = true →
  (HIGH ≤ p_priority q ≤ LOW) ∧
  (∀ i, (i < SIZE)%nat → x ∈ nth i Q [] → p_state q = RUNNABLE ∧ p_priority q = Z.of_nat i) ∧
  (p_state q = RUNNABLE → x ∈ concat Q) ∧ (x ∈ F → p_state q = UNUSED).
Proof.
  unfold slot_ok. rewrite !andb_true_iff, !Z.leb_le, forallb_forall, !implb_true_iff.
  rewrite !bool_decide_eq_true. intros ((((H1 & H2) & H3) & H4) & H5). split_and!; try done.
  intros i Hi Hx. assert (In i (seq 0 SIZE)) as Hin by by apply list_elem_of_In, elem_of_seq0.
  specialize (H3 i Hin). rewrite implb_true_iff, bool_decide_eq_true, andb_true_iff,
    bool_decide_eq_true, Z.eqb_eq in H3. auto.
Qed.

Lemma queues_okb_sound s Q F : queues_okb s Q F = true → queues_ok None s Q F.
Proof.
  unfold queues_okb. rewrite !andb_true_iff, !Nat.eqb_eq, !forallb_forall.
  intros ((((((Hp & HQ) & HR) & Hch) & Hf%chainb_ok) & Hnd%bool_decide_eq_true) & Hslots).
  assert (∀ i h l, readyList s !! i = Some h → Q !! i = Some l → chain (procs s) h l) as Hch'.
  { intros i h l Hh Hl. specialize (Hch i). rewrite Hh in Hch.
    rewrite (nth_lookup_Some Q i [] l Hl) in Hch. apply chainb_ok, Hch.
    apply list_elem_of_In, elem_of_seq0. rewrite <- HQ. by eapply lookup_lt_Some. }
  assert (∀ x q, procs s !! x = Some q → slot_ok Q F x q = true) as Hs.
  { intros x q Hx. specialize (Hslots x). rewrite Hx in Hslots. apply Hslots.
    apply list_elem_of_In, elem_of_seq0. rewrite <- Hp. by eapply lookup_lt_Some. }
  split.
  - split; [done|done| |done|done]. apply Forall2_same_length_lookup. split; [lia|eauto].
  - intros i l x Hi Hx. pose proof (lookup_lt_Some _ _ _ Hi) as Hlt.
    destruct (lookup_lt_is_Some_2 (readyList s) i) as [h Hh]; [lia|].
    pose proof (chain_lt _ _ _ _ (Hch' _ _ _ Hh Hi) Hx) as Hxl.
    destruct (lookup_lt_is_Some_2 _ _ Hxl) as [q Hq].
    destruct (slot_ok_spec _ _ _ _ (Hs _ _ Hq)) as (_ & Hr & _).
    rewrite (lookup_status _ _ _ Hq). destruct (Hr i) as [-> ->]; [lia| |done].
    by rewrite (nth_lookup_Some Q i [] l Hi).
  - intros x pr Hx _. destruct (status_lookup _ _ _ _ Hx) as (q & Hq & Hr & _).
    by apply (slot_ok_spec _ _ _ _ (Hs _ _ Hq)).
  - intros x Hx. pose proof (chain_lt _ _ _ _ Hf Hx) as Hxl.
    destruct (lookup_lt_is_Some_2 _ _ Hxl) as [q Hq]. exists (p_priority q).
    rewrite (lookup_status _ _ _ Hq). destruct (slot_ok_spec _ _ _ _ (Hs _ _ Hq)) as (_ & _ & _ & H).
    by rewrite H.
  - intros x st pr Hx. destruct (status_lookup _ _ _ _ Hx) as (q & Hq & _ & <-).
    apply (slot_ok_spec _ _ _ _ (Hs _ _ Hq)).
Qed.

(** ** A process table

    [init] (slot 0) is running; slots 1, 2 and 3 wait at the default priority,
    slot 4 at the lowest; slot 5 sleeps on the timer at the highest priority and
    slot 6 is a zombie.  The other slots are free. *)
Module Table.

Definition mk (st : procstate) (pid pr : Z) (c : option chan) (n : option nat) : proc :=
  Proc 4096 0x8dffe000 0x8dfff000 st pid GROUPID USERID (Some 0%nat) 0 0 c false
    (replicate NOFILE None) None (cstring "sh" ++ replicate 13 0) n pr trapframe0 context0.

Definition used : list proc :=
  [mk RUNNING 1 1 None None; mk RUNNABLE 2 1 None (Some 2%nat); mk RUNNABLE 3 1 None (Some 3%nat);
   mk RUNNABLE 4 1 None None; mk RUNNABLE 5 2 None None; mk SLEEPING 6 0 (Some ChTicks) None;
   mk ZOMBIE 7 1 None None].

Definition free_slot (x : nat) : proc :=
  set_p_priority DEFAULTPRIO (set_p_next (if (x =? 63)%nat then None else Some (S x)) proc0).

Definition locked_mach : mach :=
  Mach {[Lptable := Spinlock 1 "ptable" (Some 0%nat)]} 0 0x2 1 1.

(** With the given machine state and countdown. *)
Definition table (m : mach) (t : Z) : pst :=
  Pst m (used ++ (free_slot <$> seq 7 57)) [None; Some 1%nat; Some 4%nat] (Some 7%nat) t 8
    (Some 0%nat) (Some 0%nat) (Regs 0 0 0 0) 0x803ff000.

Definition queues : list (list nat) := [[]; [1%nat; 2%nat; 3%nat]; [4%nat]].
Definition frees : list nat := seq 7 57.

Lemma queues_fine m t : queues_ok None (table m t) queues frees.
Proof. apply queues_okb_sound. vm_compute. reflexivity. Qed.

Lemma locked_holds : holds {[Lptable]} locked_mach.
Proof.
  split; [|intros lk Hlk|done|done].
  - intros lk ->%elem_of_singleton. done.
  - unfold lock_of, locked_mach. simpl. rewrite lookup_singleton_ne by set_solver. done.
Qed.
End Table.

(** ** Properties *)

(** C1: the scheduler runs the process at the head of the first non-empty ready list,
    in the order HIGH, DEFAULTPRIO, LOW: the process leaves its list, becomes
    RUNNING and the CPU's current process with its page table and kernel stack
    loaded, only the table's lock is held across the switch, every other
    process keeps its place (the lists are merged instead when the countdown
    reaches zero), and when the process switches back the scan starts again at
    HIGH unless the process came from LOW. *)
Theorem scheduler_picks_highest s Q F i p l q fuel :
  queues_ok None s Q F → holds ∅ (mch s) → (∀ j, (j < i)%nat → Q !! j = Some []) →
  Q !! i = Some (p :: l) → procs s !! p = Some q → p_pgdir q ≠ 0 →
  let t := u32 (timeToReset s - 1) in
  ∃ s1 k, scheduler_round (i + S fuel) s = Switch s1 k ∧
    holds {[Lptable]} (mch s1) ∧ curproc s1 = Some p ∧
    queues_ok None s1 (queues_reset t (<[i := l]> Q)) F ∧
    erase (procs s1) = erase (alter (set_p_state RUNNING) p (table_reset t p (procs s))) ∧
    timeToReset s1 = (if t =? 0 then COUNT else t) ∧
    cr3 (hw s1) = u32 (p_pgdir q - 0x80000000) ∧ ts_esp0 (hw s1) = u32 (p_kstack q + KSTACKSIZE) ∧
    (∀ s2, k s2 = (scheduler_loop fuel (rescan i);; lift (release Lptable)) (back s2)).
Proof. apply scheduler_round_picks. Qed.

Lemma scheduler_picks_highest_witness :
  ∃ s1 k, scheduler_round 5 (Table.table mach0 100) = Switch s1 k ∧ curproc s1 = Some 1%nat ∧
    queues_ok None s1 [[]; [2%nat; 3%nat]; [4%nat]] Table.frees.
Proof.
  destruct (scheduler_picks_highest (Table.table mach0 100) Table.queues Table.frees 1 1 [2%nat; 3%nat]
    (Table.mk RUNNABLE 2 1 None (Some 2%nat)) 3) as (s1 & k & Hrun & _ & Hcur & HI & _).
  - apply Table.queues_fine.
  - exact mach0_holds.
  - intros [|j] Hj; [reflexivity|lia].
  - reflexivity.
  - reflexivity.
  - discriminate.
  - exists s1, k. split; [exact Hrun|]. split; [exact Hcur|exact HI].
Defined.

(** A wakeup between a process's decision to sleep and its switch is not lost: a
    process that calls [sleep] under the lock [lk] reaches the switch SLEEPING
    on its channel with [lk] free and only the table's lock held; from then on
    the next [wakeup] of the channel, in whatever machine state has the table's
    lock free again, makes it RUNNABLE on the ready list of its priority; and when it
    is switched to it returns from [sleep] with its channel cleared and exactly
    [lk] held. *)
Theorem sleep_wakeup s Q F x q c lk :
  queues_ok None s Q F → holds {[lk]} (mch s) → lk ≠ Lptable → curproc s = Some x →
  procs s !! x = Some q → p_state q = RUNNING →
  ∃ s1 k, sleep c (Some lk) s = Switch s1 k ∧ holds {[Lptable]} (mch s1) ∧
    procs s1 = alter (asleep c) x (procs s) ∧ queues_ok None s1 Q F ∧
    (∀ L m, holds L m → Lptable ∉ L → ∃ s2 Q2 l i, wakeup c (set_mch m s1) = Ok tt s2 ∧ queues_ok None s2 Q2 F ∧
       status (procs s2) x = Some (RUNNABLE, Z.of_nat i) ∧ Q2 !! i = Some l ∧ x ∈ l) ∧
    (∀ s2, holds {[Lptable]} (mch s2) → curproc s2 = Some x → (x < length (procs s2))%nat →
       ∃ s3, k s2 = Ok tt s3 ∧ holds {[lk]} (mch s3) ∧
         procs s3 = alter (set_p_chan None) x (procs s2)).
Proof.
  intros HI HL Hlk Hcur Hq Hst.
  destruct (sleep_parks s Q F x q c lk HI HL Hlk Hcur Hq Hst) as (m1 & k & Hrun & Hm1 & HI1 & Hres).
  set (s1 := set_procs (alter (asleep c) x (procs s)) s) in *.
  exists (set_mch m1 s1), k. split_and!; [done|done|done|by apply (queues_ok_ext None s1)| |].
  - intros L m Hm HLp. destruct (wakeup_spec L c (set_mch m s1) Q F) as (s2 & Hw & _ & _ & HI2 & He2 & _);
      [by apply (queues_ok_ext None s1)|done|done|].
    assert (status (procs s2) x = Some (RUNNABLE, p_priority q)) as Hst2.
    { rewrite (status_erase _ _ _ He2). unfold status. simpl.
      rewrite list_lookup_fmap, list_lookup_alter_eq, Hq. simpl. unfold woken, sleeper. simpl.
      by rewrite bool_decide_true. }
    pose proof (qo_all _ _ _ _ HI2 _ _ Hst2 ltac:(done)) as (i & l & Hi & Hx)%elem_of_concat.
    pose proof (qo_ready _ _ _ _ HI2 _ _ _ Hi Hx). exists s2. eauto 10.
  - intros s2 H2 Hc2 Hx2. destruct (Hres s2 H2 Hc2 Hx2) as (m3 & Hk & Hm3). eauto.
Qed.

Definition ticks_mach : mach := Mach {[Lticks := Spinlock 1 "time" (Some 0%nat)]} 0 0x2 1 1.

Lemma ticks_holds : holds {[Lticks]} ticks_mach.
Proof.
  split; [|intros lk Hlk|done|done].
  - intros lk ->%elem_of_singleton. done.
  - unfold lock_of, ticks_mach. simpl. rewrite lookup_singleton_ne by set_solver. done.
Qed.

Lemma sleep_wakeup_witness :
  ∃ s1 k, sleep (Some ChTicks) (Some Lticks) (Table.table ticks_mach 100) = Switch s1 k ∧
    holds {[Lptable]} (mch s1).
Proof.
  destruct (sleep_wakeup (Table.table ticks_mach 100) Table.queues Table.frees 0
    (Table.mk RUNNING 1 1 None None) (Some ChTicks) Lticks) as (s1 & k & Hrun & Hm & _).
  - apply Table.queues_fine.
  - exact ticks_holds.
  - discriminate.
  - reflexivity.
  - reflexivity.
  - reflexivity.
  - exists s1, k. split; [exact Hrun|exact Hm].
Defined.

(** C20: [wakeup] makes exactly the processes asleep on the channel RUNNABLE, appends
    them in slot order to the ready lists of their priorities, changes nothing
    else of any process, keeps the lists consistent and gives back the locks it
    found. *)
Theorem wakeup_wakes_exactly L c s Q F :
  queues_ok None s Q F → holds L (mch s) → Lptable ∉ L →
  ∃ s', wakeup c s = Ok tt s' ∧ holds L (mch s') ∧
    queues_ok None s' (imap (λ i l, l ++ sleepers (procs s) c i (seq 0 NPROC)) Q) F ∧
    erase (procs s') = erase (woken c <$> procs s) ∧ context_of s' = context_of s.
Proof.
  intros HI HL Hlk. destruct (wakeup_spec L c s Q F HI HL Hlk) as (s' & H1 & H2 & _ & H3 & H4 & H5).
  eauto 10.
Qed.

Lemma wakeup_wakes_exactly_witness :
  ∃ s', wakeup (Some ChTicks) (Table.table ticks_mach 100) = Ok tt s' ∧ holds {[Lticks]} (mch s') ∧
    queues_ok None s' [[5%nat]; [1%nat; 2%nat; 3%nat]; [4%nat]] Table.frees.
Proof.
  destruct (wakeup_wakes_exactly {[Lticks]} (Some ChTicks) (Table.table ticks_mach 100) Table.queues
    Table.frees) as (s' & Hrun & Hm & HI & _).
  - apply Table.queues_fine.
  - exact ticks_holds.
  - set_solver.
  - exists s'. split; [exact Hrun|]. split; [exact Hm|exact HI].
Defined.

(** [yield] puts the running process at the tail of the ready list of its priority
    and switches with only the table's lock held; when it runs again it returns
    with no lock held and everything else as it finds it. *)
Theorem yield_goes_last s Q F x q l :
  queues_ok None s Q F → holds ∅ (mch s) → curproc s = Some x → procs s !! x = Some q →
  p_state q = RUNNING → Q !! Z.to_nat (p_priority q) = Some l →
  ∃ s1 k, yield s = Switch s1 k ∧ holds {[Lptable]} (mch s1) ∧
    queues_ok None s1 (<[Z.to_nat (p_priority q) := l ++ [x]]> Q) F ∧
    erase (procs s1) = erase (alter (set_p_state RUNNABLE) x (procs s)) ∧
    context_of s1 = context_of s ∧
    (∀ s2, holds {[Lptable]} (mch s2) → ∃ m3, k s2 = Ok tt (set_mch m3 s2) ∧ holds ∅ m3).
Proof. apply yield_parks. Qed.

Lemma yield_goes_last_witness :
  ∃ s1 k, yield (Table.table mach0 100) = Switch s1 k ∧
    queues_ok None s1 [[]; [1%nat; 2%nat; 3%nat; 0%nat]; [4%nat]] Table.frees.
Proof.
  destruct (yield_goes_last (Table.table mach0 100) Table.queues Table.frees 0
    (Table.mk RUNNING 1 1 None None) [1%nat; 2%nat; 3%nat]) as (s1 & k & Hrun & _ & HI & _).
  - apply Table.queues_fine.
  - exact mach0_holds.
  - reflexivity.
  - reflexivity.
  - reflexivity.
  - reflexivity.
  - exists s1, k. split; [exact Hrun|exact HI].
Defined.

(** [kill] of an existing process id marks the first slot that has it, wakes the
    process if it sleeps (appending it to its ready list) and returns 0; of an
    unknown id it changes no process and returns -1; both give back the locks
    they found. *)
Theorem kill_spec L s Q F pid :
  queues_ok None s Q F → holds L (mch s) → Lptable ∉ L →
  (∀ x q, first_pid (procs s) pid x q →
     ∃ s', kill pid s = Ok 0 s' ∧ holds L (mch s') ∧ queues_ok None s' (queues_killed Q x q) F ∧
       erase (procs s') = erase (alter killed x (procs s)) ∧ context_of s' = context_of s) ∧
  ((∀ x q, procs s !! x = Some q → p_pid q ≠ pid) →
     ∃ m', kill pid s = Ok (-1) (set_mch m' s) ∧ holds L m').
Proof.
  intros HI HL Hlk. split; [intros x q; by eapply kill_present|by eapply kill_absent].
Qed.

Lemma first_pid_intro ps pid x q :
  ps !! x = Some q → p_pid q = pid → forallb (λ q', negb (p_pid q' =? pid)) (take x ps) = true →
  first_pid ps pid x q.
Proof.
  intros Hq Hp Hall. split_and!; [done|done|]. intros y q' Hy Hlt Heq. rewrite forallb_forall in Hall.
  specialize (Hall q'). rewrite Heq, Z.eqb_refl in Hall. discriminate Hall.
  apply list_elem_of_In, list_elem_of_lookup. exists y. by rewrite lookup_take_lt.
Qed.

Lemma kill_spec_witness :
  ∃ s', kill 6 (Table.table mach0 100) = Ok 0 s' ∧
    queues_ok None s' [[5%nat]; [1%nat; 2%nat; 3%nat]; [4%nat]] Table.frees.
Proof.
  destruct (kill_spec ∅ (Table.table mach0 100) Table.queues Table.frees 6) as [Hk _].
  - apply Table.queues_fine.
  - exact mach0_holds.
  - set_solver.
  - destruct (Hk 5%nat (Table.mk SLEEPING 6 0 (Some ChTicks) None)) as (s' & Hrun & _ & HI & _).
    + apply first_pid_intro; reflexivity.
    + exists s'. split; [exact Hrun|exact HI].
Defined.

(** [resetReadyList] moves the processes of the HIGH list and then those of the LOW
    list, each in order, behind those of the default list, and gives every
    queued, running or sleeping process the default priority; nothing else of
    the table changes. *)
Theorem resetReadyList_merges s q0 q1 q2 F :
  queues_ok None s [q0; q1; q2] F →
  ∃ s', resetReadyList s = Ok tt s' ∧ queues_ok None s' [[]; q1 ++ q0 ++ q2; []] F ∧
    erase (procs s') = erase (imap (reset_prio None) (procs s)) ∧ rest s' = rest s.
Proof. intros HI. by apply resetReadyList_ok. Qed.

Lemma resetReadyList_merges_witness :
  ∃ s', resetReadyList (Table.table mach0 100) = Ok tt s' ∧
    queues_ok None s' [[]; [1%nat; 2%nat; 3%nat; 4%nat]; []] Table.frees.
Proof.
  destruct (resetReadyList_merges (Table.table mach0 100) [] [1%nat; 2%nat; 3%nat] [4%nat] Table.frees)
    as (s' & Hrun & HI & _).
  - apply Table.queues_fine.
  - exists s'. split; [exact Hrun|exact HI].
Defined.

(** [setPriority] to a valid priority returns 0 and sets the priority: a process
    that is not RUNNABLE keeps off the ready lists; a RUNNABLE one, when it is
    the head of its list or not its last, moves to the tail of the list of its
    new priority. *)
Theorem setPriority_spec L s Q F pid x q j :
  queues_ok None s Q F → holds L (mch s) → Lptable ∉ L → first_pid (procs s) pid x q →
  (j < SIZE)%nat →
  (p_state q ≠ RUNNABLE →
     ∃ s', setPriority pid (Z.of_nat j) s = Ok 0 s' ∧ holds L (mch s') ∧ queues_ok None s' Q F ∧
       procs s' = alter (set_p_priority (Z.of_nat j)) x (procs s) ∧ context_of s' = context_of s) ∧
  (∀ i l1 l2, Q !! i = Some (l1 ++ x :: l2) → l1 = [] ∨ l2 ≠ [] → i ≠ j →
     ∃ s', setPriority pid (Z.of_nat j) s = Ok 0 s' ∧ holds L (mch s') ∧
       queues_ok None s' (alter (λ m, m ++ [x]) j (<[i := l1 ++ l2]> Q)) F ∧
       erase (procs s') = erase (alter (set_p_priority (Z.of_nat j)) x (procs s)) ∧
       context_of s' = context_of s).
Proof.
  intros HI HL Hlk Hfirst Hj. split.
  - intros Hst. by eapply setPriority_unqueued.
  - intros i l1 l2 Hi Hpos Hne. by eapply setPriority_queued.
Qed.

Lemma setPriority_spec_witness :
  ∃ s', setPriority 3 0 (Table.table mach0 100) = Ok 0 s' ∧
    queues_ok None s' [[2%nat]; [1%nat; 3%nat]; [4%nat]] Table.frees.
Proof.
  destruct (setPriority_spec ∅ (Table.table mach0 100) Table.queues Table.frees 3 2
    (Table.mk RUNNABLE 3 1 None (Some 3%nat)) 0) as [_ Hm].
  - apply Table.queues_fine.
  - exact mach0_holds.
  - set_solver.
  - apply first_pid_intro; reflexivity.
  - unfold SIZE. lia.
  - destruct (Hm 1%nat [1%nat] [3%nat]) as (s' & Hrun & _ & HI & _).
    + reflexivity.
    + right. discriminate.
    + discriminate.
    + exists s'. split; [exact Hrun|exact HI].
Defined.

(** C35: changing the priority of a RUNNABLE process that is the last of two or more on
    its ready list makes the kernel follow a null pointer: after unlinking it
    the loop of [removeFromReadyList] goes on from a null [current]. *)
Theorem setPriority_last_faults L s Q F pid x q i j l1 a :
  queues_ok None s Q F → holds L (mch s) → Lptable ∉ L → first_pid (procs s) pid x q →
  Q !! i = Some (l1 ++ [a; x]) → i ≠ j →
  setPriority pid (Z.of_nat j) s = Fault.
Proof. apply setPriority_last. Qed.

Lemma setPriority_last_faults_witness : setPriority 4 0 (Table.table mach0 100) = Fault.
Proof.
  apply (setPriority_last_faults ∅ (Table.table mach0 100) Table.queues Table.frees 4 3
    (Table.mk RUNNABLE 4 1 None None) 1 0 [1%nat] 2).
  - apply Table.queues_fine.
  - exact mach0_holds.
  - set_solver.
  - apply first_pid_intro; reflexivity.
  - reflexivity.
  - discriminate.
Defined.

(** when the countdown runs out, every process but the one just chosen gets the
    default priority: the chosen one is RUNNABLE but already off its list, and
    runs with the priority it had. *)
Theorem reset_skips_chosen L s Q F i p l q :
  queues_ok None s Q F → holds L (mch s) → L ≠ ∅ → Q !! i = Some (p :: l) →
  procs s !! p = Some q → p_pgdir q ≠ 0 → timeToReset s = 1 →
  ∃ s', dispatch (Z.of_nat i) s = Ok (Some (p, if negb (Z.of_nat i =? 2) then -1 else Z.of_nat i)) s' ∧
    timeToReset s' = COUNT ∧ status (procs s') p = Some (RUNNING, Z.of_nat i) ∧
    (∀ x st pr, x ≠ p → status (procs s') x = Some (st, pr) →
       st = RUNNABLE ∨ st = RUNNING ∨ st = SLEEPING → pr = DEFAULTPRIO).
Proof.
  intros HI HL Hne Hi Hq Hpg Ht.
  pose proof (qo_ready _ _ _ _ HI i (p :: l) p Hi ltac:(left)) as Hst.
  rewrite (lookup_status _ _ _ Hq) in Hst. injection Hst as Hst Hpr.
  destruct (dispatch_ok s Q F i p l q HI (holds_quiet L _ HL Hne) Hi Hq Hpg) as (s' & Hrun & _ & He & _ & _ & Ht' & _).
  rewrite Ht in Ht', He. exists s'. split_and!; [done|done| |].
  - rewrite (status_erase _ _ _ He). eapply status_alter_state.
    unfold status. rewrite (table_reset_chosen _ _ _ _ Hq Hst). simpl. by rewrite Hpr.
  - intros x st pr Hx. rewrite (status_erase _ _ _ He), status_alter_ne by done.
    unfold table_reset, status. change (u32 (1 - 1) =? 0) with true. cbv iota.
    rewrite list_lookup_imap. destruct (procs s !! x) as [qx|]; [|done]. simpl. unfold reset_prio.
    rewrite (bool_decide_true (Some p ≠ Some x)) by congruence. rewrite andb_true_r.
    intros [= <- <-]. destruct (p_state qx) eqn:E; simpl; rewrite ?E; naive_solver.
Qed.

Lemma reset_skips_chosen_witness :
  ∃ s', dispatch 2 (Table.table Table.locked_mach 1) = Ok (Some (4%nat, 2)) s' ∧
    timeToReset s' = COUNT ∧ status (procs s') 4 = Some (RUNNING, LOW).
Proof.
  destruct (reset_skips_chosen {[Lptable]} (Table.table Table.locked_mach 1) Table.queues Table.frees
    2 4 [] (Table.mk RUNNABLE 5 2 None None)) as (s' & Hrun & Ht & Hst & _).
  - apply Table.queues_fine.
  - exact Table.locked_holds.
  - set_solver.
  - reflexivity.
  - reflexivity.
  - discriminate.
  - reflexivity.
  - exists s'. split; [exact Hrun|]. split; [exact Ht|exact Hst].
Defined.
