(* ===== verification/Wakeups.v ===== *)
(** * Sleeping and waking on two CPUs (proc.c, spinlock.c)

    One CPU runs a process that waits for a condition the way all of the kernel
    does: [acquire(lk); while(!cond) sleep(chan, lk); release(lk);].  Another
    one makes the condition true: [acquire(lk); cond = 1; wakeup(chan);
    release(lk);].  The code of [sleep], [wakeup], [sched] and [scheduler] is
    that of Ptable.v, with locks at which the other CPU may come in: before every
    [acquire], a taken lock being tried again, and after every [release].  The table
    and the locks are shared, each CPU has its own registers, interrupt state and
    current process.  When the process has gone to sleep its CPU runs the
    scheduler, round after round; it may take up the process again or another
    one.

    [no_lost_wakeup]: in every interleaving nothing panics, and when the waker is
    through the sleeper does not sleep. *)
From S2P Require Import Prelude Spinlock Str Ptable PtableLists Sched Choice Scheduling.

(** ** Locks with other CPUs around *)

(** A point where another CPU may come in. *)
Definition pause : K pst unit := λ s, Switch s (λ s', Ok tt s').

Definition iacquire (l : lockid) : K pst unit := pause;; lift (acquire l).
Definition irelease (l : lockid) : K pst unit := lift (release l);; pause.

(** ** The two threads *)

(** The process table and the condition. *)
Record shr := Shr { tbl : pst; cond : bool }.
Definition set_cond (b : bool) (s : shr) : shr := Shr (tbl s) b.

#[global] Instance shr_pst : Lens shr pst := {| view := tbl; put t s := Shr t (cond s) |}.
#[global] Instance shr_pst_ok : LensOk shr pst.
Proof. by split; intros; try destruct s. Qed.

Section threads.
Context (c : option chan) (lk : lockid).

(** [while(!cond) sleep(chan, lk);] *)
Definition wait_loop (fuel : nat) : unit → K shr unit :=
  while fuel (λ _,
    b ← gets cond;
    if (b : bool) then mret (inr tt)
    else lift (sleep_with iacquire irelease c (Some lk));; mret (inl tt)).

Definition consumer (fuel : nat) : K shr unit :=
  lift (iacquire lk);;
  wait_loop fuel tt;;
  lift (irelease lk).

Definition producer : K shr unit :=
  lift (iacquire lk);;
  modify (set_cond true);;
  lift (wakeup_with iacquire irelease c);;
  lift (irelease lk).
End threads.

(** The scheduler behind the switch to a process: the rest of the round. *)
Definition sched_rest (fuel : nat) (i : Z) : K pst unit :=
  switchkvm;;
  modify (set_curproc None);;
  scheduler_loop fuel i;;
  irelease Lptable.

(** A round looks at no more than three lists before it switches or ends. *)
Definition ROUND : nat := 4.
Definition sched_round : K shr unit := lift (scheduler_round_with iacquire irelease ROUND).

(** A process that comes back from its own [sched], in [yield] or [forkret] or in
    [sleep], first gives back the table's lock. *)
Definition other_back : K shr unit := lift (irelease Lptable).

(** ** The two CPUs *)

(** What a CPU has for itself. *)
Record priv := Priv {
  c_self : nat; c_eflags : Z; c_ncli : Z; c_intena : Z; c_proc : option nat; c_hw : regs
}.

Definition load (r : priv) (s : shr) : shr :=
  let m := Mach (locks (mch (tbl s))) (c_self r) (c_eflags r) (c_ncli r) (c_intena r) in
  Shr (set_hw (c_hw r) (set_curproc (c_proc r) (set_mch m (tbl s)))) (cond s).

Definition save (s : shr) : priv :=
  let m := mch (tbl s) in
  Priv (self m) (eflags m) (ncli m) (intena m) (curproc (tbl s)) (hw (tbl s)).

(** The sleeper's CPU: its process runs, with the scheduler behind its switch; or
    the scheduler runs, with the process behind its own; or the scheduler has taken
    up another process, which is followed until it has given back the table's
    lock. *)
Inductive cpu_a :=
| InProc (k sched : K shr unit)
| InSched (k proc : K shr unit)
| InOther (k : K shr unit)
| Away
| Finished
| Crashed.

Inductive cpu_b := Waking (k : K shr unit) | Woke | Crashed_b.

Record world := World { mem : shr; priv_a : priv; priv_b : priv; th_a : cpu_a; th_b : cpu_b }.

(** Has the current process given up the CPU?  [sched] panics for a process that
    is still RUNNING, so a process that stops and is not RUNNING has called it. *)
Definition gone (s : shr) : bool :=
  match curproc (tbl s) with
  | Some p =>
      match procs (tbl s) !! p with Some q => bool_decide (p_state q ≠ RUNNING) | None => false end
  | None => false
  end.

(** What the CPU runs after the scheduler stopped in [s]: it has switched to its
    current process, if it has one. *)
Definition dispatched (x : nat) (s : shr) (k proc : K shr unit) : cpu_a :=
  match curproc (tbl s) with
  | Some p => if decide (p = x) then InProc proc k else InOther other_back
  | None => InSched k proc
  end.

(** Up to the next point where the other CPU may come in.  A CPU that spins stays
    where it is. *)
Definition step_a (x : nat) (w : world) : world :=
  let go s th := World s (save s) (priv_b w) th (th_b w) in
  let s := load (priv_a w) (mem w) in
  match th_a w with
  | InProc k ks =>
      match k s with
      | Ok _ s' => go s' Finished
      | Switch s' k' => go s' (if gone s' then InSched ks k' else InProc k' ks)
      | Diverge => w
      | _ => go s Crashed
      end
  | InSched k kp =>
      match k s with
      | Ok _ s' => go s' (InSched sched_round kp)
      | Switch s' k' => go s' (dispatched x s' k' kp)
      | Diverge => w
      | _ => go s Crashed
      end
  | InOther k =>
      match k s with
      | Ok _ s' => go s' Away
      | Switch s' k' => go s' (InOther k')
      | Diverge => w
      | _ => go s Crashed
      end
  | _ => w
  end.

Definition step_b (w : world) : world :=
  let go s th := World s (priv_a w) (save s) (th_a w) th in
  let s := load (priv_b w) (mem w) in
  match th_b w with
  | Waking k =>
      match k s with
      | Ok _ s' => go s' Woke
      | Switch s' k' => go s' (Waking k')
      | Diverge => w
      | _ => go s Crashed_b
      end
  | _ => w
  end.

Inductive step (x : nat) : world → world → Prop :=
| by_a w : step x w (step_a x w)
| by_b w : step x w (step_b w).

(** Processes that may come to run have a page table. *)
Definition live (q : proc) : Prop :=
  p_state q = SLEEPING ∨ p_state q = RUNNABLE ∨ p_state q = RUNNING.
Definition live_ok (ps : list proc) : Prop :=
  ∀ y q, ps !! y = Some q → live q → p_pgdir q ≠ 0.

(** The CPU with the number [i] has [n] locks. *)
Definition cpu_ok (i : nat) (n : Z) (r : priv) : Prop :=
  c_self r = i ∧ c_ncli r = n ∧ (0 < n → Z.land (c_eflags r) FL_IF = 0).

(** Process [x] runs on CPU [ia], behind a switch of the scheduler, and is about to
    wait for the condition; CPU [ib] is about to make it true. *)
Record starts (c : option chan) (lk : lockid) (x ia ib : nat) (n : Z) (w : world) : Prop := Starts {
  st_cpus : ia ≠ ib;
  st_lk : lk ≠ Lptable;
  st_a : cpu_ok ia 0 (priv_a w);
  st_b : cpu_ok ib n (priv_b w);
  st_n : 0 ≤ n;
  st_cur : c_proc (priv_a w) = Some x;
  st_free : locked (lock_of (mch (tbl (mem w))) lk) = 0 ∧ locked (lock_of (mch (tbl (mem w))) Lptable) = 0;
  st_queues : ∃ Q F, queues_ok None (tbl (mem w)) Q F;
  st_x : p_state <$> procs (tbl (mem w)) !! x = Some RUNNING;
  st_live : live_ok (procs (tbl (mem w)));
  st_cond : cond (mem w) = false;
  st_th_a : ∃ fuel k i, (2 ≤ fuel)%nat ∧ (SIZE < k)%nat ∧ (i = 0 ∨ i = 3) ∧
    th_a w = InProc (consumer c lk fuel) (lift (sched_rest k i));
  st_th_b : th_b w = Waking (producer c lk)
}.

(** ** Locks *)

(** Lock [l] is free, or taken by the given CPU. *)
Definition own (m : mach) (l : lockid) (o : option nat) : Prop :=
  match o with
  | None => locked (lock_of m l) = 0
  | Some i => locked (lock_of m l) = 1 ∧ cpu (lock_of m l) = Some i
  end.
#[local] Arguments own : simpl never.

Lemma own_acquired l m : own (acquired l m) l (Some (self m)).
Proof. unfold own, acquired. by rewrite lock_of_set, decide_True. Qed.
Lemma own_acquired_ne l l' o m : l ≠ l' → own m l' o → own (acquired l m) l' o.
Proof. intros Hne. unfold own, acquired. by rewrite lock_of_set, decide_False. Qed.

Lemma lock_of_released l l' m :
  lock_of (released l m) l' = if decide (l = l') then Spinlock 0 (name (lock_of m l)) None else lock_of m l'.
Proof. unfold lock_of, released. simpl. rewrite lookup_insert. by case_decide. Qed.
Lemma own_released l m : own (released l m) l None.
Proof. unfold own. by rewrite lock_of_released, decide_True. Qed.
Lemma own_released_ne l l' o m : l ≠ l' → own m l' o → own (released l m) l' o.
Proof. intros Hne. unfold own. by rewrite lock_of_released, decide_False. Qed.

Lemma acquire_taken l m i : own m l (Some i) → self m ≠ i → acquire l m = Diverge.
Proof.
  intros [H1 H2] Hi. unfold acquire. rewrite (bind_ok _ _ _ _ _ (pushcli_ok m)).
  assert (lock_of (pushed m) l = lock_of m l) as Hl by done.
  rewrite (bind_ok _ _ _ _ _ (holding_eval l (pushed m))), Hl, H1, H2.
  rewrite bool_decide_false by (intros [= ?]; by apply Hi). unfold xchg. krun. cbn -[lock_of pushed]. by rewrite ?Hl, H1.
Qed.

Lemma acq_ok l s : own (mch s) l None → lift (acquire l) s = Ok tt (set_mch (acquired l (mch s)) s).
Proof. intros H. apply lift_ok. by apply acquire_free. Qed.
Lemma acq_spins l s i : own (mch s) l (Some i) → self (mch s) ≠ i → lift (acquire l) s = Diverge.
Proof. intros H1 H2. unfold lift. simpl. by rewrite (acquire_taken l _ i). Qed.
Lemma rel_ok l s :
  own (mch s) l (Some (self (mch s))) → quiet (mch s) →
  irelease l s = Switch (set_mch (released l (mch s)) s) (λ s', Ok tt s').
Proof.
  intros [H1 H2] [Hif Hn]. unfold irelease.
  rewrite (bind_ok _ _ s tt (set_mch (released l (mch s)) s)); [done|]. by apply lift_ok, release_held.
Qed.

(** [n] locks are held, seen from the running CPU. *)
Lemma cpu_ok_quiet i n s : cpu_ok i n (save s) → 0 < n → quiet (mch (tbl s)).
Proof. intros (_ & Hn & Hif) Hpos. split; [by apply Hif|]. simpl in Hn. lia. Qed.

Lemma cpu_ok_acquired i n l t b :
  cpu_ok i n (save (Shr t b)) → cpu_ok i (n + 1) (save (Shr (set_mch (acquired l (mch t)) t) b)).
Proof. intros (H1 & H2 & _). split; [done|]. split; [simpl in *; lia|]. intros _. apply land_ldiff_IF. Qed.

Lemma cpu_ok_released i n l t b :
  cpu_ok i n (save (Shr t b)) → 0 < n → cpu_ok i (n - 1) (save (Shr (set_mch (released l (mch t)) t) b)).
Proof.
  intros (H1 & H2 & H3) Hn. split; [done|]. simpl in *. split; [lia|]. intros Hn'.
  replace (ncli (mch t) =? 1) with false by lia. by apply H3.
Qed.

(** ** Process slots *)

(** Every slot keeps its page table and its channel, and its state becomes [st]. *)
Definition slots (st : nat → proc → procstate) (ps ps' : list proc) : Prop :=
  length ps' = length ps ∧
  ∀ y q, ps !! y = Some q → ∃ q', ps' !! y = Some q' ∧
    p_pgdir q' = p_pgdir q ∧ p_chan q' = p_chan q ∧ p_state q' = st y q.

Lemma slots_live st ps ps' :
  slots st ps ps' → (∀ y q, ps !! y = Some q → st y q = SLEEPING ∨ st y q = RUNNABLE ∨ st y q = RUNNING → live q) →
  live_ok ps → live_ok ps'.
Proof.
  intros [Hlen H] Hst Hok y q' Hq' Hl.
  destruct (lookup_lt_is_Some_2 ps y) as [q Hq]; [rewrite <- Hlen; by eapply lookup_lt_Some|].
  destruct (H y q Hq) as (q1 & H1 & Hpg & _ & Hs). assert (q1 = q') as -> by congruence.
  rewrite Hpg. apply (Hok y q Hq), (Hst y q Hq). rewrite <- Hs. exact Hl.
Qed.

Lemma slots_erase st ps ps1 ps' : erase ps' = erase ps1 → slots st ps ps1 → slots st ps ps'.
Proof.
  intros He [Hlen H]. split; [by rewrite (erase_length _ _ He)|]. intros y q Hq.
  destruct (H y q Hq) as (q1 & H1 & Hrest). destruct (erase_lookup _ _ _ _ He H1) as [n Hn]. by eexists.
Qed.

Lemma slots_alter f x st ps :
  (∀ q, p_pgdir (f q) = p_pgdir q ∧ p_chan (f q) = p_chan q ∧ p_state (f q) = st) →
  slots (λ y q, if decide (y = x) then st else p_state q) ps (alter f x ps).
Proof.
  intros Hf. split; [by rewrite length_alter|]. intros y q Hq. destruct (decide (y = x)) as [->|Hne].
  - exists (f q). rewrite list_lookup_alter_eq, Hq. split; [done|apply Hf].
  - exists q. by rewrite list_lookup_alter_ne.
Qed.

Lemma slots_woken ch ps :
  slots (λ _ q, if sleeper ch q then RUNNABLE else p_state q) ps (woken ch <$> ps).
Proof.
  split; [by rewrite length_fmap|]. intros y q Hq. exists (woken ch q). rewrite list_lookup_fmap, Hq.
  split; [done|]. unfold woken. by destruct (sleeper ch q).
Qed.

Lemma slots_chosen t p ps :
  slots (λ y q, if decide (y = p) then RUNNING else p_state q) ps
    (alter (set_p_state RUNNING) p (table_reset t p ps)).
Proof.
  assert (slots (λ _ q, p_state q) ps (table_reset t p ps)) as [Hlen H].
  { unfold table_reset. destruct (t =? 0); [|split; [done|]; eauto].
    split; [by rewrite length_imap|]. intros y q Hq. rewrite list_lookup_imap, Hq. simpl. eexists. split; [done|].
    unfold reset_prio. by destruct (_ || _). }
  destruct (slots_alter (set_p_state RUNNING) p RUNNING (table_reset t p ps)) as [Hlen' H']; [done|].
  split; [lia|]. intros y q Hq. destruct (H y q Hq) as (q1 & H1 & Hpg & Hch & Hst).
  destruct (H' y q1 H1) as (q2 & H2 & Hpg2 & Hch2 & Hst2). exists q2.
  split_and!; [done|congruence|congruence|]. rewrite Hst2. by case_decide.
Qed.

(** ** The scheduler *)

(** The lists from HIGH on: nothing is ready, or the scheduler switches to a process
    that was. *)
Lemma scheduler_loop_cases s Q F fuel i :
  queues_ok None s Q F → quiet (mch s) → live_ok (procs s) → (SIZE < fuel)%nat → i = 0 ∨ i = 3 →
  (scheduler_loop fuel i s = Ok tt s ∧ (i = 0 → concat Q = [])) ∨
  ∃ p pr Q' s' k, status (procs s) p = Some (RUNNABLE, pr) ∧ scheduler_loop fuel i s = Switch s' k ∧
    queues_ok None s' Q' F ∧ mch s' = mch s ∧ curproc s' = Some p ∧
    slots (λ y q, if decide (y = p) then RUNNING else p_state q) (procs s) (procs s').
Proof.
  intros HI Hm Hok Hf [->| ->]; [|left; split; [|done]; by destruct fuel as [|fuel]; [lia|]].
  assert (∀ n j, (n + j = SIZE)%nat → (∀ a, (a < j)%nat → Q !! a = Some []) →
    concat Q = [] ∨ ∃ j' p l, Q !! j' = Some (p :: l) ∧ (∀ a, (a < j')%nat → Q !! a = Some [])) as Hfirst.
  { pose proof (lo_queues _ _ _ (qo_lists _ _ _ _ HI)) as HQ. induction n as [|n IH]; intros j Hj Hlow.
    - left. unfold SIZE in *. destruct Q as [|q0 [|q1 [|q2 []]]]; try done.
      pose proof (Hlow 0%nat ltac:(lia)). pose proof (Hlow 1%nat ltac:(lia)). pose proof (Hlow 2%nat ltac:(lia)).
      simplify_eq/=. done.
    - destruct (lookup_lt_is_Some_2 Q j) as [[|p l] Hl]; [lia| |right; by eauto].
      apply (IH (S j)); [lia|]. intros a Ha. destruct (decide (a = j)) as [->|]; [done|]. apply Hlow. lia. }
  destruct (Hfirst SIZE 0%nat) as [Hnil|(j & p & l & Hj & Hlow)]; [done|lia| |].
  { left. split; [|done]. by eapply scheduler_loop_idle. }
  right. pose proof (qo_ready _ _ _ _ HI j (p :: l) p Hj ltac:(left)) as Hst.
  destruct (status_lookup _ _ _ _ Hst) as (q & Hq & Hs & _).
  destruct (dispatch_ok s Q F j p l q HI Hm Hj Hq) as (s' & Hrun & HI' & He & Hm' & Hcur & _).
  { apply (Hok p q Hq). right. by left. }
  pose proof (lookup_lt_Some _ _ _ Hj) as Hlt. rewrite (lo_queues _ _ _ (qo_lists _ _ _ _ HI)) in Hlt.
  assert (scheduler_loop fuel 0 s = scheduler_loop (S (fuel - S j)) (Z.of_nat j) s) as ->.
  { replace fuel with (j + S (fuel - S j))%nat at 1 by (unfold SIZE in *; lia). change 0 with (Z.of_nat 0).
    by rewrite (scheduler_loop_skip s Q F j 0 _ HI) by (intros; apply Hlow; lia). }
  exists p, (Z.of_nat j). eexists. exists s'. eexists. split_and!; [done| |exact HI'|done|done|].
  - cbn [scheduler_loop]. replace (Z.of_nat j <? Z.of_nat SIZE) with true by lia.
    rewrite (bind_ok _ _ _ _ _ Hrun). unfold mbind at 1, K_bind at 1. cbn [swtch obind]. reflexivity.
  - eapply slots_erase; [exact He|]. apply slots_chosen.
Qed.

(** ** The table *)

Section table.
Context (c : option chan) (x : nat).

(** The lists are as they should be, what may run has a page table, and [x] is in
    state [st], asleep on [c] if it sleeps. *)
Record table_ok (st : procstate) (t : pst) : Prop := Table_ok {
  t_queues : ∃ Q F, queues_ok None t Q F;
  t_x : ∃ q, procs t !! x = Some q ∧ p_state q = st ∧ (st = SLEEPING → p_chan q = c);
  t_live : live_ok (procs t)
}.

Lemma table_ok_ext st t t' :
  procs t' = procs t → readyList t' = readyList t → freeList t' = freeList t → table_ok st t → table_ok st t'.
Proof.
  intros Hp Hr Hf [(Q & F & HI) Hx Hl]. split; rewrite ?Hp; [|done|done].
  exists Q, F. by apply (queues_ok_ext None t).
Qed.

Lemma slots_x st st' f t t' :
  table_ok st t → slots f (procs t) (procs t') → (∃ Q F, queues_ok None t' Q F) →
  (∀ q, procs t !! x = Some q → p_state q = st → (st = SLEEPING → p_chan q = c) → f x q = st') →
  (st' = SLEEPING → st = SLEEPING) →
  (∀ y q, procs t !! y = Some q → f y q = SLEEPING ∨ f y q = RUNNABLE ∨ f y q = RUNNING → live q) →
  table_ok st' t'.
Proof.
  intros [_ (q & Hq & Hst & Hch) Hl] Hs HQ Hx Hsl Hlive. split; [done| |by eapply slots_live].
  destruct (proj2 Hs x q Hq) as (q' & Hq' & _ & Hc & Hst'). exists q'. rewrite Hst', (Hx q Hq Hst Hch).
  split_and!; [done|done|]. intros H. rewrite Hc. auto.
Qed.

(** Going to sleep. *)
Lemma table_sleeps t :
  table_ok RUNNING t → only_table (mch t) → curproc t = Some x →
  let t1 := set_procs (alter (asleep c) x (procs t)) t in
  table_ok SLEEPING t1 ∧
  (∃ t0, setp x (set_p_chan c) t = Ok tt t0 ∧ setp x (set_p_state SLEEPING) t0 = Ok tt t1) ∧
  sched t1 = Switch t1 (λ s, Ok tt (set_mch (set_intena (intena (mch t)) (mch s)) s)).
Proof.
  intros [(Q & F & HI) (q & Hq & Hst & _) Hl] Hm Hcur t1.
  destruct (fall_asleep t Q F x q c HI Hm Hcur Hq Hst) as (HI1 & Hset & Hsched).
  split; [|done]. split; [by exists Q, F| |].
  - exists (asleep c q). simpl. by rewrite list_lookup_alter_eq, Hq.
  - intros y q' Hy Hlv. simpl in Hy. destruct (decide (y = x)) as [->|Hne].
    + rewrite list_lookup_alter_eq, Hq in Hy. simplify_eq/=. apply (Hl x q Hq). right. by right.
    + rewrite list_lookup_alter_ne in Hy by done. by apply (Hl y q').
Qed.

(** Coming back from sleep. *)
Lemma table_unchan t :
  table_ok RUNNING t → setp x (set_p_chan None) t = Ok tt (set_procs (alter (set_p_chan None) x (procs t)) t) ∧
  table_ok RUNNING (set_procs (alter (set_p_chan None) x (procs t)) t).
Proof.
  intros [(Q & F & HI) (q & Hq & Hst & _) Hl]. split; [apply setp_ok; by eapply lookup_lt_Some|].
  split; [exists Q, F; by apply queues_ok_alter| |].
  - exists (set_p_chan None q). simpl. by rewrite list_lookup_alter_eq, Hq.
  - intros y q' Hy Hlv. simpl in Hy. destruct (decide (y = x)) as [->|Hne].
    + rewrite list_lookup_alter_eq, Hq in Hy. simplify_eq/=. by apply (Hl x q Hq).
    + rewrite list_lookup_alter_ne in Hy by done. by apply (Hl y q').
Qed.

Definition awake (st : procstate) : procstate := match st with SLEEPING => RUNNABLE | _ => st end.

Lemma table_wakes st t :
  table_ok st t → ∃ t', wakeup1 c t = Ok tt t' ∧ table_ok (awake st) t' ∧ mch t' = mch t.
Proof.
  intros HT. pose proof HT as [(Q & F & HI) _ _].
  destruct (wp_run _ _ _ (wakeup1_ok c t Q F HI)) as (t' & Hrun & ds & Hseq & HI' & He & Hr & _).
  rewrite app_nil_r in Hseq. subst ds. apply rest_inv in Hr as [Hm _].
  rewrite (woken_upto_all c t NPROC) in He by apply (lo_procs _ _ _ (qo_lists _ _ _ _ HI)).
  exists t'. split; [done|]. split; [|done].
  eapply (slots_x st); [done|eapply slots_erase, slots_woken; exact He|by eauto| | |].
  - intros q _ <- Hch. unfold sleeper. destruct (p_state q); simpl; try done.
    by rewrite bool_decide_true by auto.
  - by destruct st.
  - intros y q _ Hy. unfold live, sleeper in *. destruct (p_state q); simpl in Hy; naive_solver.
Qed.

Lemma table_chooses st t fuel i :
  table_ok st t → quiet (mch t) → (SIZE < fuel)%nat → i = 0 ∨ i = 3 →
  (scheduler_loop fuel i t = Ok tt t ∧ (i = 0 → st ≠ RUNNABLE)) ∨
  ∃ p t' k, scheduler_loop fuel i t = Switch t' k ∧ mch t' = mch t ∧ curproc t' = Some p ∧
    (p = x → st = RUNNABLE) ∧ table_ok (if decide (p = x) then RUNNING else st) t'.
Proof.
  intros HT Hm Hf Hi. pose proof HT as [(Q & F & HI) (q & Hq & Hst & _) Hl].
  destruct (scheduler_loop_cases t Q F fuel i HI Hm Hl Hf Hi) as
    [[Hrun Hnil]|(p & pr & Q' & t' & k & Hp & Hrun & HI' & Hm' & Hcur & Hs)]; [left|right].
  - split; [done|]. intros Hi0 ->. pose proof (qo_all _ _ _ _ HI x (p_priority q)) as H.
    rewrite (Hnil Hi0) in H. eapply not_elem_of_nil, H; [|done]. by rewrite (lookup_status _ _ _ Hq), Hst.
  - destruct (status_lookup _ _ _ _ Hp) as (qp & Hqp & Hstp & _). exists p, t', k.
    assert (p = x → st = RUNNABLE) as Hpx by (intros ->; congruence).
    split_and!; [done|done|done|done|].
    eapply (slots_x st); [done|exact Hs|by eauto| | |].
    + intros q' Hq' <- _. destruct (decide (x = p)), (decide (p = x)); congruence.
    + destruct (decide (p = x)); [done|auto].
    + intros y q' Hy H. cbv beta in H. case_decide as Hyp; [|exact H]. subst y.
      assert (q' = qp) as -> by congruence. right. by left.
Qed.
End table.

(** ** Where the threads stop *)

Section code.
Context (c : option chan) (lk : lockid) (Hlk : lk ≠ Lptable).

(** [sleep] behind its first two operations on locks, and behind the switch. *)
Definition sl_post : K pst unit :=
  p ← myproc;
  setp p (set_p_chan None);;
  if decide (lk = Lptable) then mret tt
  else irelease Lptable;; iacquire lk.
Definition sl_park : K pst unit :=
  p ← myproc;
  setp p (set_p_chan c);;
  setp p (set_p_state SLEEPING);;
  sched;;
  sl_post.
Definition sl_locks : K pst unit := (lift (acquire Lptable);; irelease lk);; sl_park.
Definition sl_back (ie : Z) : K pst unit := λ s, sl_post (set_mch (set_intena ie (mch s)) s).

Lemma sleep_enters s x :
  curproc s = Some x → sleep_with iacquire irelease c (Some lk) s = Switch s sl_locks.
Proof.
  intros Hcur. unfold sleep_with. krun. rewrite Hcur. cbn [obind]. rewrite !bool_decide_false by done.
  cbn [obind]. rewrite decide_False by done. reflexivity.
Qed.

Lemma locks_run s :
  own (mch s) Lptable None → own (mch s) lk (Some (self (mch s))) → Z.land (eflags (mch s)) FL_IF = 0 → 0 ≤ ncli (mch s) →
  sl_locks s = Switch (set_mch (released lk (acquired Lptable (mch s))) s) sl_park.
Proof.
  intros Hpt Hown Hif Hn. unfold sl_locks, mbind, K_bind. rewrite acq_ok by done. cbn [obind].
  rewrite rel_ok; [reflexivity| |].
  - by apply own_acquired_ne.
  - split; [apply land_ldiff_IF|simpl; lia].
Qed.

Lemma park_run x s :
  table_ok c x RUNNING s → only_table (mch s) → curproc s = Some x →
  let s1 := set_procs (alter (asleep c) x (procs s)) s in
  sl_park s = Switch s1 (sl_back (intena (mch s))) ∧ table_ok c x SLEEPING s1.
Proof.
  intros HT Hm Hcur s1. destruct (table_sleeps c x s HT Hm Hcur) as (HT1 & (t0 & H0 & H1) & Hs).
  split; [|done]. unfold sl_park. rewrite (bind_ok _ _ _ _ _ (myproc_ok s x Hcur)).
  rewrite (bind_ok _ _ _ _ _ H0), (bind_ok _ _ _ _ _ H1). unfold mbind, K_bind. rewrite Hs. reflexivity.
Qed.

Lemma back_run x s ie :
  table_ok c x RUNNING s → only_table (mch s) → curproc s = Some x →
  ∃ s', sl_back ie s = Switch s' (iacquire lk) ∧ mch s' = released Lptable (set_intena ie (mch s)) ∧
    curproc s' = Some x ∧ table_ok c x RUNNING s'.
Proof.
  intros HT (H1 & H2 & Hn & Hif) Hcur. unfold sl_back. set (t := set_mch (set_intena ie (mch s)) s).
  destruct (table_unchan c x t) as [Hset HT']; [by apply (table_ok_ext _ _ _ s)|].
  eexists. split; [|split; [|split]].
  - unfold sl_post. rewrite (bind_ok _ _ _ _ _ (myproc_ok t x Hcur)), (bind_ok _ _ _ _ _ Hset).
    rewrite decide_False by done. unfold mbind, K_bind. rewrite rel_ok; [reflexivity|done|].
    split; [done|simpl; lia].
  - done.
  - done.
  - by eapply table_ok_ext, HT'.
Qed.

(** The waiting loop when the process is inside [sleep] at [k], [n] rounds from
    running out of fuel. *)
Definition in_sleep (n : nat) (k : K pst unit) : K shr unit :=
  (r ← (lift k;; mret (inl tt));
   match r with inl y => wait_loop c lk n y | inr y => mret y end);;
  lift (irelease lk).

Lemma in_sleep_switch n k s t k' :
  k (tbl s) = Switch t k' → in_sleep n k s = Switch (Shr t (cond s)) (in_sleep n k').
Proof. intros H. unfold in_sleep, mbind, K_bind, lift. cbn [view put shr_pst]. rewrite H. reflexivity. Qed.

Lemma in_sleep_spins n k s : k (tbl s) = Diverge → in_sleep n k s = Diverge.
Proof. intros H. unfold in_sleep, mbind, K_bind, lift. cbn [view put shr_pst]. by rewrite H. Qed.

Lemma in_sleep_ok n k s t :
  k (tbl s) = Ok tt t → in_sleep n k s = (wait_loop c lk n tt;; lift (irelease lk)) (Shr t (cond s)).
Proof. intros H. unfold in_sleep, mbind, K_bind, lift. cbn [view put shr_pst]. rewrite H. reflexivity. Qed.

Lemma wait_true n s :
  cond s = true → (wait_loop c lk (S n) tt;; lift (irelease lk)) s = lift (irelease lk) s.
Proof. intros H. unfold wait_loop. cbn [while]. krun. by rewrite H. Qed.

Lemma wait_false n s :
  cond s = false →
  (wait_loop c lk (S n) tt;; lift (irelease lk)) s = in_sleep n (sleep_with iacquire irelease c (Some lk)) s.
Proof. intros H. unfold wait_loop, in_sleep. cbn [while]. krun. rewrite H. reflexivity. Qed.

(** A lock given back at the end of a thread. *)
Lemma lift_rel_ok l s :
  own (mch (tbl s)) l (Some (self (mch (tbl s)))) → quiet (mch (tbl s)) →
  ∃ k, lift (irelease l) s = Switch (Shr (set_mch (released l (mch (tbl s))) (tbl s)) (cond s)) k ∧ ∀ s', k s' = Ok tt s'.
Proof.
  intros Ho Hq. unfold lift. cbn [view shr_pst]. rewrite rel_ok by done. eexists. split; [reflexivity|]. by intros [].
Qed.

(** The waker. *)
Definition prod_locked : K shr unit :=
  modify (set_cond true);; lift (wakeup_with iacquire irelease c);; lift (irelease lk).
Definition prod_table : K shr unit :=
  lift (lift (acquire Lptable);; wakeup1 c;; irelease Lptable);; lift (irelease lk).

Lemma wakes_enters s : prod_locked s = Switch (set_cond true s) prod_table.
Proof. by destruct s. Qed.

Lemma wakes_run x st s :
  table_ok c x st (tbl s) → own (mch (tbl s)) Lptable None → Z.land (eflags (mch (tbl s))) FL_IF = 0 → 0 ≤ ncli (mch (tbl s)) →
  ∃ t' k, prod_table s = Switch (Shr t' (cond s)) k ∧ (∀ s', k s' = lift (irelease lk) s') ∧
    mch t' = released Lptable (acquired Lptable (mch (tbl s))) ∧ table_ok c x (awake st) t'.
Proof.
  intros HT Hpt Hif Hn. set (t1 := set_mch (acquired Lptable (mch (tbl s))) (tbl s)).
  destruct (table_wakes c x st t1) as (t2 & Hw & HT2 & Hm2); [by apply (table_ok_ext _ _ _ (tbl s))|].
  do 2 eexists. split; [|split; [|split]].
  - unfold prod_table, mbind, K_bind, lift at 1. cbn [view put shr_pst]. rewrite acq_ok by done. cbn [obind].
    fold t1. rewrite Hw. cbn [obind]. rewrite rel_ok; [reflexivity| |].
    + rewrite Hm2. simpl. apply own_acquired.
    + rewrite Hm2. split; [apply land_ldiff_IF|simpl; lia].
  - by intros [].
  - simpl. by rewrite Hm2.
  - by eapply table_ok_ext, HT2.
Qed.
End code.

(** ** The scheduler between its operations on the lock *)

Definition round_locks : K pst unit :=
  lift (acquire Lptable);; scheduler_loop ROUND 0;; irelease Lptable.

Lemma round_enters t :
  scheduler_round_with iacquire irelease ROUND t =
    Switch (set_mch (set_eflags (Z.lor (eflags (mch t)) FL_IF) (mch t)) t) round_locks.
Proof. reflexivity. Qed.

Lemma lift_switch (m : K pst unit) s t k :
  m (tbl s) = Switch t k → lift m s = Switch (Shr t (cond s)) (lift k).
Proof. intros H. unfold lift. cbn [view put shr_pst]. rewrite H. reflexivity. Qed.

Lemma loop_run c x st fuel i t :
  table_ok c x st t → only_table (mch t) → curproc t = None → (SIZE < fuel)%nat → i = 0 ∨ i = 3 →
  (∃ t', (scheduler_loop fuel i;; irelease Lptable) t = Switch t' (λ s, Ok tt s) ∧
     mch t' = released Lptable (mch t) ∧ curproc t' = None ∧ table_ok c x st t' ∧ (i = 0 → st ≠ RUNNABLE)) ∨
  ∃ p t' k, (scheduler_loop fuel i;; irelease Lptable) t = Switch t' k ∧ mch t' = mch t ∧ curproc t' = Some p ∧
    (p = x → st = RUNNABLE) ∧ table_ok c x (if decide (p = x) then RUNNING else st) t'.
Proof.
  intros HT (H1 & H2 & Hn & Hif) Hcur Hf Hi. assert (quiet (mch t)) as Hq by (split; [done|lia]).
  destruct (table_chooses c x st t fuel i HT Hq Hf Hi) as [[Hrun Hst]|(p & t' & k & Hrun & Hm & Hc & Hp & HT')];
    [left|right].
  - eexists. split; [|split; [|split; [|split]]].
    + rewrite (bind_ok _ _ _ _ _ Hrun). by apply rel_ok.
    + done.
    + done.
    + by eapply table_ok_ext, HT.
    + done.
  - exists p, t'. eexists. split; [|done]. unfold mbind, K_bind. rewrite Hrun. reflexivity.
Qed.

(** ** The positions *)

(** The sleeper's CPU: about to take the lock; before the table's lock; in [sleep]
    behind the release of [lk]; in the scheduler behind the process's switch, behind
    a round, at the start of a round, before the table's lock; in another process;
    in the process behind its switch, then before it takes [lk] again; at the end. *)
Inductive apos :=
| A_start | A_lock | A_ptable | A_park
| A_swtch | A_idle | A_round | A_choose
| A_other | A_free | A_away
| A_back | A_relock | A_again | A_exit | A_done.

#[global] Instance apos_eq_dec : EqDecision apos.
Proof. solve_decision. Defined.

Section world.
Context (c : option chan) (lk : lockid) (x ia ib : nat) (n : Z).
Context (Hlk : lk ≠ Lptable) (Hne : ia ≠ ib) (Hn : 0 ≤ n).

Definition has_table (a : apos) : bool :=
  match a with A_park | A_swtch | A_other | A_back => true | _ => false end.
Definition depth_a (a : apos) : Z := match a with A_ptable => 1 | _ => if has_table a then 1 else 0 end.
Definition in_crit (b : nat) : bool := (b =? 2)%nat || (b =? 3)%nat.

Definition owner_lk (a : apos) (b : nat) : option nat :=
  match a with A_ptable => Some ia | _ => if in_crit b then Some ib else None end.
Definition owner_pt (a : apos) : option nat := if has_table a then Some ia else None.

(** What the process is: once the waker has been through the table it does not
    sleep. *)
Definition xstate (a : apos) (b : nat) : procstate :=
  match a with
  | A_swtch => SLEEPING
  | A_idle | A_round | A_choose | A_other | A_free | A_away => if (3 <=? b)%nat then RUNNABLE else SLEEPING
  | _ => RUNNING
  end.

(** How far the waker may be. *)
Definition fits (a : apos) (b : nat) : Prop :=
  match a with
  | A_ptable => (b ≤ 1)%nat
  | A_park | A_swtch => (b ≤ 2)%nat
  | A_back | A_relock | A_again => (3 ≤ b)%nat
  | A_exit | A_done => (2 ≤ b)%nat
  | _ => True
  end.

Definition cur_ok (a : apos) (p : option nat) : Prop :=
  match a with
  | A_idle | A_round | A_choose => p = None
  | A_other | A_free | A_away => True
  | _ => p = Some x
  end.

(** The scheduler behind its switch to the process. *)
Definition sched_waits (k : K shr unit) : Prop :=
  ∃ fuel i, (SIZE < fuel)%nat ∧ (i = 0 ∨ i = 3) ∧ k = lift (sched_rest fuel i).

Definition asleep_k (k : K shr unit) : Prop := ∃ f ie, k = in_sleep c lk (S f) (sl_back lk ie).

Definition at_a (a : apos) (th : cpu_a) : Prop :=
  match a with
  | A_start => ∃ f ks, th = InProc (consumer c lk (S (S f))) ks ∧ sched_waits ks
  | A_lock => ∃ f ks, th = InProc (lift (lift (acquire lk));; wait_loop c lk (S (S f)) tt;; lift (irelease lk)) ks ∧ sched_waits ks
  | A_ptable => ∃ f ks, th = InProc (in_sleep c lk (S f) (sl_locks c lk)) ks ∧ sched_waits ks
  | A_park => ∃ f ks, th = InProc (in_sleep c lk (S f) (sl_park c lk)) ks ∧ sched_waits ks
  | A_swtch => ∃ ks kp, th = InSched ks kp ∧ sched_waits ks ∧ asleep_k kp
  | A_idle => ∃ k kp, th = InSched k kp ∧ (∀ s, k s = Ok tt s) ∧ asleep_k kp
  | A_round => ∃ kp, th = InSched sched_round kp ∧ asleep_k kp
  | A_choose => ∃ kp, th = InSched (lift round_locks) kp ∧ asleep_k kp
  | A_other => th = InOther other_back
  | A_free => ∃ k, th = InOther k ∧ ∀ s, k s = Ok tt s
  | A_away => th = Away
  | A_back => ∃ ks kp, th = InProc kp ks ∧ asleep_k kp
  | A_relock => ∃ f ks, th = InProc (in_sleep c lk (S f) (iacquire lk)) ks
  | A_again => ∃ f ks, th = InProc (in_sleep c lk (S f) (lift (acquire lk))) ks
  | A_exit => ∃ k ks, th = InProc k ks ∧ ∀ s, k s = Ok tt s
  | A_done => th = Finished
  end.

(** The waker: at the start, before [lk], before the table's lock, behind the table,
    behind [lk], done. *)
Definition at_b (b : nat) (th : cpu_b) : Prop :=
  match b with
  | 0 => th = Waking (producer c lk)
  | 1 => th = Waking (lift (lift (acquire lk));; prod_locked c lk)
  | 2 => th = Waking (prod_table c lk)
  | 3 => ∃ k, th = Waking k ∧ ∀ s, k s = lift (irelease lk) s
  | 4 => ∃ k, th = Waking k ∧ ∀ s, k s = Ok tt s
  | _ => b = 5%nat ∧ th = Woke
  end%nat.
Definition depth_b (b : nat) : Z := if in_crit b then n + 1 else n.

Record shared (a : apos) (b : nat) (s : shr) : Prop := Shared {
  s_lk : own (mch (tbl s)) lk (owner_lk a b);
  s_pt : own (mch (tbl s)) Lptable (owner_pt a);
  s_table : table_ok c x (xstate a b) (tbl s);
  s_cond : cond s = (2 <=? b)%nat
}.

Record inv (a : apos) (b : nat) (w : world) : Prop := Inv {
  i_a : at_a a (th_a w);
  i_b : at_b b (th_b w);
  i_fits : fits a b;
  i_shared : shared a b (mem w);
  i_cpu_a : cpu_ok ia (depth_a a) (priv_a w);
  i_cur : cur_ok a (c_proc (priv_a w));
  i_cpu_b : cpu_ok ib (depth_b b) (priv_b w)
}.

Lemma shared_load a b r s : shared a b s → shared a b (load r s).
Proof. intros [H1 H2 H3 H4]. split; [done|done|by apply (table_ok_ext _ _ _ (tbl s))|done]. Qed.

Lemma save_load r s : save (load r s) = r.
Proof. by destruct r. Qed.

Lemma running a b w :
  inv a b w → let s := load (priv_a w) (mem w) in
  shared a b s ∧ cpu_ok ia (depth_a a) (save s) ∧ cur_ok a (curproc (tbl s)).
Proof. intros [_ _ _ H1 H2 H3 _] s. unfold s. rewrite save_load. split; [by apply shared_load|done]. Qed.

(** What is left to show when the sleeper's CPU has come to a stop. *)
Lemma inv_a a a' b w s th :
  inv a b w → at_a a' th → fits a' b → shared a' b s → cpu_ok ia (depth_a a') (save s) → cur_ok a' (curproc (tbl s)) →
  inv a' b (World s (save s) (priv_b w) th (th_b w)).
Proof. intros [_ H _ _ _ _ H'] H1 H2 H3 H4 H5. by split. Qed.

Lemma gone_running s : table_ok c x RUNNING (tbl s) → curproc (tbl s) = Some x → gone s = false.
Proof. intros [_ (q & Hq & Hst & _) _] Hcur. unfold gone. by rewrite Hcur, Hq, bool_decide_false by tauto. Qed.
Lemma gone_asleep s : table_ok c x SLEEPING (tbl s) → curproc (tbl s) = Some x → gone s = true.
Proof. intros [_ (q & Hq & Hst & _) _] Hcur. unfold gone. by rewrite Hcur, Hq, Hst. Qed.

Lemma cpu_ok_self i d s : cpu_ok i d (save s) → self (mch (tbl s)) = i.
Proof. by intros [H _]. Qed.

Lemma cpu_ok_if i d s : cpu_ok i d (save s) → 0 < d → Z.land (eflags (mch (tbl s))) FL_IF = 0.
Proof. intros (_ & _ & H) Hd. by apply H. Qed.

Lemma cpu_ok_ncli i d s : cpu_ok i d (save s) → ncli (mch (tbl s)) = d.
Proof. by intros (_ & H & _). Qed.

Lemma cpu_only_table s : cpu_ok ia 1 (save s) → own (mch (tbl s)) Lptable (Some ia) → only_table (mch (tbl s)).
Proof.
  intros Hc [H1 H2]. split_and!; [done| |by apply (cpu_ok_ncli ia)|by eapply cpu_ok_if].
  by rewrite (cpu_ok_self _ _ _ Hc).
Qed.

Lemma lacq_ok l s (k : K shr unit) :
  own (mch (tbl s)) l None →
  (lift (lift (acquire l));; k) s = k (Shr (set_mch (acquired l (mch (tbl s))) (tbl s)) (cond s)).
Proof. intros H. unfold mbind, K_bind, lift at 1. cbn [view put shr_pst]. by rewrite acq_ok. Qed.

Lemma lacq_spins l s i (k : K shr unit) :
  own (mch (tbl s)) l (Some i) → self (mch (tbl s)) ≠ i → (lift (lift (acquire l));; k) s = Diverge.
Proof. intros H1 H2. unfold mbind, K_bind, lift at 1. cbn [view put shr_pst]. by rewrite (acq_spins l _ i). Qed.

Lemma consumer_enters f s :
  consumer c lk f s = Switch s (lift (lift (acquire lk));; wait_loop c lk f tt;; lift (irelease lk)).
Proof. by destruct s. Qed.

Ltac open_a H :=
  let s := fresh "s" in
  pose proof (i_a _ _ _ H) as Ha; destruct (running _ _ _ H) as (Hsh & Hcpu & Hcur);
  unfold step_a; set (s := load (priv_a _) (mem _)) in *; clearbody s.

Lemma step_start b w : inv A_start b w → inv A_lock b (step_a x w).
Proof.
  intros H. open_a H. destruct Ha as (f & ks & -> & Hks). rewrite consumer_enters.
  rewrite gone_running by (try done; apply Hsh). eapply inv_a; [exact H|by exists f, ks|done| |done|done].
  by destruct Hsh.
Qed.

(** The end of the waiting: the lock is taken, the condition holds, the lock is given
    back. *)
Lemma leave b s :
  own (mch (tbl s)) lk None → own (mch (tbl s)) Lptable None → table_ok c x RUNNING (tbl s) →
  cond s = (2 <=? b)%nat → in_crit b = false → cpu_ok ia 0 (save s) → curproc (tbl s) = Some x →
  ∃ s' k, lift (irelease lk) (Shr (set_mch (acquired lk (mch (tbl s))) (tbl s)) (cond s)) = Switch s' k ∧
    (∀ s, k s = Ok tt s) ∧ gone s' = false ∧ shared A_exit b s' ∧ cpu_ok ia 0 (save s') ∧ curproc (tbl s') = Some x.
Proof.
  intros H1 H2 HT Hc Hb Hcpu Hcur. destruct s as [t cd].
  pose proof (cpu_ok_acquired ia 0 lk t cd Hcpu) as Hcpu1.
  destruct (lift_rel_ok lk (Shr (set_mch (acquired lk (mch t)) t) cd)) as (k & Hrun & Hk).
  { exact (own_acquired lk (mch t)). }
  { by apply (cpu_ok_quiet ia (0 + 1)). }
  pose proof (cpu_ok_released ia (0 + 1) lk _ cd Hcpu1 ltac:(lia)) as Hcpu2.
  eexists _, k. split; [exact Hrun|]. split; [done|].
  assert (table_ok c x RUNNING (set_mch (released lk (mch (set_mch (acquired lk (mch t)) t))) (set_mch (acquired lk (mch t)) t)))
    as HT' by by apply (table_ok_ext _ _ _ t).
  split; [by apply gone_running|]. split_and!; [|done|done].
  split; [|by apply own_released_ne, own_acquired_ne|done|done]. unfold owner_lk. rewrite Hb. apply own_released.
Qed.

Lemma owner_free b : in_crit b = false → ∀ a, a ≠ A_ptable → owner_lk a b = None.
Proof. intros Hb a Ha. unfold owner_lk. rewrite Hb. by destruct a. Qed.
Lemma owner_crit b : in_crit b = true → ∀ a, a ≠ A_ptable → owner_lk a b = Some ib.
Proof. intros Hb a Ha. unfold owner_lk. rewrite Hb. by destruct a. Qed.

Lemma step_lock b w :
  inv A_lock b w →
  (in_crit b = true ∧ step_a x w = w) ∨ inv A_ptable b (step_a x w) ∨ inv A_exit b (step_a x w).
Proof.
  intros H. open_a H. destruct Ha as (f & ks & -> & Hks). destruct Hsh as [H1 H2 HT Hc].
  destruct (in_crit b) eqn:Hb.
  { left. split; [done|]. rewrite (owner_crit b Hb) in H1 by done.
    by rewrite (lacq_spins lk s ib) by (try done; by rewrite (cpu_ok_self _ _ _ Hcpu)). }
  right. rewrite (owner_free b Hb) in H1 by done. rewrite lacq_ok by done.
  destruct (cond s) eqn:Ec.
  - right. destruct (leave b s) as (s' & k & Hrun & Hk & Hg & Hsh' & Hcpu' & Hcur'); [done..|by rewrite Ec|done|done|done|].
    rewrite wait_true by done. rewrite Ec in Hrun. rewrite Hrun, Hg.
    eapply inv_a; [exact H|by exists k, ks| |done|done|done]. simpl. symmetry in Hc. by apply Nat.leb_le in Hc.
  - left. rewrite wait_false by done. destruct s as [t cd]. simpl in *. subst cd.
    erewrite in_sleep_switch by (by eapply (sleep_enters c lk Hlk _ x)).
    pose proof (cpu_ok_acquired ia 0 lk t false Hcpu) as Hcpu1.
    assert (table_ok c x RUNNING (set_mch (acquired lk (mch t)) t)) as HT' by by apply (table_ok_ext _ _ _ t).
    rewrite gone_running by done.
    eapply inv_a; [exact H|by exists f, ks| | |done|done].
    + simpl. destruct b as [|[|]]; [lia|lia|done].
    + split; [|by apply own_acquired_ne|done|done]. simpl. rewrite <- (cpu_ok_self _ _ _ Hcpu). apply own_acquired.
Qed.

Lemma step_ptable b w : inv A_ptable b w → inv A_park b (step_a x w).
Proof.
  intros H. pose proof (i_fits _ _ _ H) as Hf. open_a H. destruct Ha as (f & ks & -> & Hks).
  destruct Hsh as [H1 H2 HT Hc]. pose proof (cpu_ok_self _ _ _ Hcpu) as Hself.
  erewrite in_sleep_switch.
  2:{ apply (locks_run c lk Hlk); [done|by rewrite Hself|by apply (cpu_ok_if ia 1)|].
      rewrite (cpu_ok_ncli _ _ _ Hcpu). simpl. lia. }
  set (t' := set_mch _ (tbl s)). assert (table_ok c x RUNNING t') as HT' by by apply (table_ok_ext _ _ _ (tbl s)).
  pose proof (cpu_ok_released ia (1 + 1) lk _ (cond s) (cpu_ok_acquired ia 1 Lptable (tbl s) (cond s) Hcpu) ltac:(lia)) as Hcpu'.
  rewrite gone_running by done.
  eapply inv_a; [exact H|by exists f, ks|simpl in *; lia| |done|done]. split; [| |done|done].
  - rewrite owner_free by (try done; by destruct b as [|[|[|]]]; simpl in *; try lia). apply own_released.
  - change (own (mch t') Lptable (Some ia)). apply own_released_ne; [done|]. rewrite <- Hself. apply own_acquired.
Qed.

Lemma step_park b w : inv A_park b w → inv A_swtch b (step_a x w).
Proof.
  intros H. pose proof (i_fits _ _ _ H) as Hf. open_a H. destruct Ha as (f & ks & -> & Hks).
  destruct Hsh as [H1 H2 HT Hc]. simpl in *.
  destruct (park_run c lk x (tbl s) HT) as [Hrun HT']; [by apply cpu_only_table|done|].
  rewrite (in_sleep_switch c lk (S f) _ s _ _ Hrun).
  rewrite gone_asleep by done.
  eapply inv_a; [exact H| |done| |done|done].
  - do 2 eexists. split; [done|]. split; [done|]. by do 2 eexists.
  - by split.
Qed.

(** The scheduler, with the table's lock, until it gives back the lock or switches. *)
Lemma scheduler_stops a b w (m : K pst unit) s t fuel i kp :
  inv a b w → m (tbl s) = (scheduler_loop fuel i;; irelease Lptable) t →
  own (mch t) lk (owner_lk A_idle b) → own (mch t) Lptable (Some ia) → cpu_ok ia 1 (save (Shr t (cond s))) →
  curproc t = None → table_ok c x (xstate A_idle b) t → cond s = (2 <=? b)%nat → asleep_k kp →
  (SIZE < fuel)%nat → i = 0 ∨ i = 3 →
  ∃ s' k, lift m s = Switch s' k ∧
    let w' := World s' (save s') (priv_b w) (dispatched x s' k kp) (th_b w) in
    (inv A_idle b w' ∧ (i = 0 → (b < 3)%nat)) ∨ inv A_other b w' ∨ inv A_back b w'.
Proof.
  intros H Hm H1 H2 Hcpu Hcur HT Hc Hkp Hf Hi.
  assert (only_table (mch t)) as Honly by by apply (cpu_only_table (Shr t (cond s))).
  destruct (loop_run c x _ fuel i t HT Honly Hcur Hf Hi) as
    [(t' & Hrun & Hm' & Hcur' & HT' & Hst)|(p & t' & k & Hrun & Hm' & Hcur' & Hp & HT')].
  - rewrite Hrun in Hm. eexists _, _. split; [by apply lift_switch|]. left. unfold dispatched. simpl. rewrite Hcur'.
    pose proof (cpu_ok_released ia 1 Lptable t (cond s) Hcpu ltac:(lia)) as Hcpu'. split.
    + eapply inv_a; [exact H|eexists _, kp; split; [done|]; split; [by intros []|done]|done| | |done].
      * split; [| |done|done]; simpl; rewrite Hm'; [by apply own_released_ne|apply own_released].
      * unfold save in *. simpl in *. by rewrite Hm'.
    + intros Hi0. specialize (Hst Hi0). simpl in Hst. destruct b as [|[|[|]]]; [lia|lia|lia|done].
  - rewrite Hrun in Hm. eexists _, _. split; [by apply lift_switch|]. right. unfold dispatched. simpl. rewrite Hcur'.
    assert (cpu_ok ia 1 (save (Shr t' (cond s)))) as Hcpu' by (unfold save in *; simpl in *; by rewrite Hm').
    destruct (decide (p = x)) as [->|Hpx].
    + right. eapply inv_a; [exact H|by eexists _, kp| | |done|done].
      * specialize (Hp eq_refl). simpl in *. destruct b as [|[|[|]]]; [done|done|done|lia].
      * split; [| |done|done]; simpl; by rewrite Hm'.
    + left. eapply inv_a; [exact H|done|done| |done|done].
      split; [| |done|done]; simpl; by rewrite Hm'.
Qed.

Lemma step_swtch b w : inv A_swtch b w → inv A_idle b (step_a x w) ∨ inv A_other b (step_a x w).
Proof.
  intros H. pose proof (i_fits _ _ _ H) as Hf. open_a H. destruct Ha as (ks & kp & -> & (fuel & i & Hfuel & Hi & ->) & Hkp).
  destruct Hsh as [H1 H2 HT Hc].
  assert (xstate A_idle b = SLEEPING) as Hx by (simpl in *; by destruct b as [|[|[|]]]; [| | |lia]).
  destruct (scheduler_stops A_swtch b w (sched_rest fuel i) s (back (tbl s)) fuel i kp) as (s' & k & -> & Hinv);
    try done.
  - rewrite Hx. by apply (table_ok_ext _ _ _ (tbl s)).
  - destruct Hinv as [[Hinv _]|[Hinv|Hinv]]; [by left|by right|].
    pose proof (i_fits _ _ _ Hinv). simpl in *. lia.
Qed.

Lemma step_idle b w : inv A_idle b w → inv A_round b (step_a x w).
Proof.
  intros H. open_a H. destruct Ha as (k & kp & -> & Hk & Hkp). rewrite Hk.
  eapply inv_a; [exact H|by exists kp|done| |done|done]. by destruct Hsh.
Qed.

Lemma step_round b w : inv A_round b w → inv A_choose b (step_a x w).
Proof.
  intros H. open_a H. destruct Ha as (kp & -> & Hkp). unfold sched_round.
  rewrite (lift_switch _ s _ _ (round_enters (tbl s))). unfold dispatched. simpl in *. rewrite Hcur.
  destruct Hsh as [H1 H2 HT Hc]. destruct Hcpu as (Hs & Hnc & _).
  eapply inv_a; [exact H|by exists kp|done| |by split_and!|done].
  split; [done|done|by apply (table_ok_ext _ _ _ (tbl s))|done].
Qed.

Lemma step_choose b w :
  inv A_choose b w →
  (inv A_idle b (step_a x w) ∧ (b < 3)%nat) ∨ inv A_other b (step_a x w) ∨ inv A_back b (step_a x w).
Proof.
  intros H. open_a H. destruct Ha as (kp & -> & Hkp). destruct Hsh as [H1 H2 HT Hc].
  pose proof (cpu_ok_self _ _ _ Hcpu) as Hself.
  set (t := set_mch (acquired Lptable (mch (tbl s))) (tbl s)).
  destruct (scheduler_stops A_choose b w round_locks s t ROUND 0 kp) as (s' & k & -> & Hinv); try done.
  - unfold round_locks. by rewrite (bind_ok _ _ _ _ _ (acq_ok Lptable (tbl s) H2)).
  - by apply own_acquired_ne.
  - rewrite <- Hself. apply own_acquired.
  - exact (cpu_ok_acquired ia 0 Lptable (tbl s) (cond s) Hcpu).
  - by apply (table_ok_ext _ _ _ (tbl s)).
  - unfold ROUND, SIZE. lia.
  - by left.
  - destruct Hinv as [[Hinv Hb]|Hinv]; [left; auto|by right].
Qed.

Lemma step_other b w : inv A_other b w → inv A_free b (step_a x w).
Proof.
  intros H. open_a H. rewrite Ha. destruct Hsh as [H1 H2 HT Hc].
  destruct (lift_rel_ok Lptable s) as (k & Hrun & Hk).
  { by rewrite (cpu_ok_self _ _ _ Hcpu). }
  { by apply (cpu_ok_quiet ia 1). }
  unfold other_back. rewrite Hrun.
  pose proof (cpu_ok_released ia 1 Lptable (tbl s) (cond s) Hcpu ltac:(lia)) as Hcpu'.
  eapply inv_a; [exact H|by exists k|done| |done|done].
  split; [by apply own_released_ne|apply own_released|by apply (table_ok_ext _ _ _ (tbl s))|done].
Qed.

Lemma step_free b w : inv A_free b w → inv A_away b (step_a x w).
Proof.
  intros H. open_a H. destruct Ha as (k & -> & Hk). rewrite Hk.
  eapply inv_a; [exact H|done|done| |done|done]. by destruct Hsh.
Qed.

Lemma step_back b w : inv A_back b w → inv A_relock b (step_a x w).
Proof.
  intros H. pose proof (i_fits _ _ _ H) as Hf. open_a H. destruct Ha as (ks & kp & -> & (f & ie & ->)).
  destruct Hsh as [H1 H2 HT Hc].
  destruct (back_run c lk Hlk x (tbl s) ie) as (t' & Hrun & Hm & Hcur' & HT'); [done|by apply cpu_only_table|done|].
  rewrite (in_sleep_switch c lk (S f) _ s _ _ Hrun). rewrite gone_running by done.
  eapply inv_a; [exact H|by exists f, ks|done| | |done].
  - split; [| |done|done]; simpl; rewrite Hm; [by apply own_released_ne|apply own_released].
  - destruct Hcpu as (Hs & Hnc & _). unfold save, cpu_ok. simpl in *. rewrite Hm. simpl. split_and!; [done|lia|lia].
Qed.

Lemma step_relock b w : inv A_relock b w → inv A_again b (step_a x w).
Proof.
  intros H. pose proof (i_fits _ _ _ H) as Hf. open_a H. destruct Ha as (f & ks & ->). destruct Hsh as [H1 H2 HT Hc].
  rewrite (in_sleep_switch c lk (S f) _ s (tbl s) (lift (acquire lk)) eq_refl). rewrite gone_running by done.
  eapply inv_a; [exact H|by exists f, ks|done|by split|done|done].
Qed.

Lemma step_again b w :
  inv A_again b w → (in_crit b = true ∧ step_a x w = w) ∨ inv A_exit b (step_a x w).
Proof.
  intros H. pose proof (i_fits _ _ _ H) as Hf. open_a H. destruct Ha as (f & ks & ->). destruct Hsh as [H1 H2 HT Hc].
  destruct (in_crit b) eqn:Hb; [left|right].
  { split; [done|]. rewrite (owner_crit b Hb) in H1 by done.
    rewrite in_sleep_spins; [done|]. apply (acq_spins lk _ ib); [done|]. by rewrite (cpu_ok_self _ _ _ Hcpu). }
  rewrite (owner_free b Hb) in H1 by done. rewrite (in_sleep_ok c lk (S f) _ s _ (acq_ok lk (tbl s) H1)).
  destruct (leave b s) as (s' & k & Hrun & Hk & Hg & Hsh' & Hcpu' & Hcur'); [done..|].
  rewrite wait_true by (simpl in *; rewrite Hc; by destruct b as [|[|]]; [lia|lia|]). rewrite Hrun, Hg.
  eapply inv_a; [exact H|by exists k, ks|simpl in *; lia|done|done|done].
Qed.

Lemma step_exit b w : inv A_exit b w → inv A_done b (step_a x w).
Proof.
  intros H. pose proof (i_fits _ _ _ H) as Hf. open_a H. destruct Ha as (k & ks & -> & Hk). rewrite Hk.
  eapply inv_a; [exact H|done|done| |done|done]. by destruct Hsh.
Qed.

(** The waker. *)
Lemma inv_b a b b' w s th :
  inv a b w → at_b b' th → fits a b' → shared a b' s → cpu_ok ib (depth_b b') (save s) →
  inv a b' (World s (priv_a w) (save s) (th_a w) th).
Proof. intros [H1 _ _ _ H2 H3 _] H4 H5 H6 H7. by split. Qed.

Lemma running_b a b w :
  inv a b w → let s := load (priv_b w) (mem w) in shared a b s ∧ cpu_ok ib (depth_b b) (save s).
Proof. intros H s. unfold s. rewrite save_load. split; [apply shared_load, H|apply H]. Qed.

Ltac open_b H :=
  let s := fresh "s" in
  pose proof (i_b _ _ _ H) as Hth; pose proof (i_fits _ _ _ H) as Hf; destruct (running_b _ _ _ H) as (Hsh & Hcpu);
  unfold step_b; set (s := load (priv_b _) (mem _)) in *; clearbody s.

(** Where the sleeper keeps the waker out. *)
Definition blocks (a : apos) (b : nat) : bool :=
  match a with A_ptable => (b =? 1)%nat | _ => has_table a && (b =? 2)%nat end.

Lemma step_b0 a w : inv a 0 w → inv a 1 (step_b w).
Proof.
  intros H. open_b H. rewrite Hth. assert (producer c lk s = Switch s (lift (lift (acquire lk));; prod_locked c lk)) as ->
    by by destruct s.
  destruct Hsh as [H1 H2 HT Hc]. eapply inv_b; [exact H|done| | |done].
  - by destruct a; simpl in *; try lia.
  - by split.
Qed.

Lemma step_b1 a w : inv a 1 w → (blocks a 1 = true ∧ step_b w = w) ∨ inv a 2 (step_b w).
Proof.
  intros H. open_b H. rewrite Hth. destruct Hsh as [H1 H2 HT Hc].
  destruct (decide (a = A_ptable)) as [->|Ha].
  { left. split; [done|]. rewrite (lacq_spins lk s ia) by (try done; by rewrite (cpu_ok_self _ _ _ Hcpu)). done. }
  right. rewrite (owner_free 1) in H1 by done. rewrite lacq_ok, wakes_enters by done.
  pose proof (cpu_ok_acquired ib n lk (tbl s) true Hcpu) as Hcpu'.
  eapply inv_b; [exact H|done| | |done].
  - by destruct a; simpl in *; try lia.
  - split; [|by apply own_acquired_ne| |done].
    + rewrite (owner_crit 2), <- (cpu_ok_self _ _ _ Hcpu) by done. apply own_acquired.
    + by apply (table_ok_ext _ _ _ (tbl s)).
Qed.

Lemma step_b2 a w : inv a 2 w → (blocks a 2 = true ∧ step_b w = w) ∨ inv a 3 (step_b w).
Proof.
  intros H. open_b H. rewrite Hth. destruct Hsh as [H1 H2 HT Hc]. assert (a ≠ A_ptable) as Ha by (intros ->; simpl in *; lia).
  change (depth_b 2) with (n + 1) in Hcpu. pose proof (cpu_ok_self _ _ _ Hcpu) as Hself. destruct (has_table a) eqn:Et.
  { left. split; [destruct a; done|]. unfold owner_pt in H2. rewrite Et in H2.
    unfold prod_table, mbind, K_bind, lift at 1. cbn [view put shr_pst].
    by rewrite (acq_spins Lptable _ ia) by (try done; by rewrite Hself). }
  right. unfold owner_pt in H2. rewrite Et in H2.
  destruct (wakes_run c lk x (xstate a 2) s HT H2) as (t' & k & -> & Hk & Hm & HT').
  { by apply (cpu_ok_if ib (n + 1)); [|lia]. }
  { rewrite (cpu_ok_ncli _ _ _ Hcpu). lia. }
  pose proof (cpu_ok_released ib _ Lptable _ (cond s) (cpu_ok_acquired ib _ Lptable (tbl s) (cond s) Hcpu)
    ltac:(lia)) as Hcpu'.
  eapply inv_b; [exact H|by exists k| | |].
  - by destruct a; simpl in *; try lia.
  - rewrite (owner_crit 2) in H1 by done. split; [| | |done].
    + rewrite (owner_crit 3) by done. simpl. rewrite Hm. by apply own_released_ne, own_acquired_ne.
    + unfold owner_pt. rewrite Et. simpl. rewrite Hm. apply own_released.
    + by destruct a.
  - change (depth_b 3) with (n + 1). unfold save in *. simpl in *. rewrite Hm.
    by replace (n + 1 + 1 - 1) with (n + 1) in Hcpu' by lia.
Qed.

Lemma step_b3 a w : inv a 3 w → inv a 4 (step_b w).
Proof.
  intros H. open_b H. destruct Hth as (k & -> & Hk). rewrite Hk. destruct Hsh as [H1 H2 HT Hc].
  assert (a ≠ A_ptable) as Ha by (intros ->; simpl in *; lia). rewrite (owner_crit 3) in H1 by done.
  destruct (lift_rel_ok lk s) as (k' & -> & Hk').
  { by rewrite (cpu_ok_self _ _ _ Hcpu). }
  { apply (cpu_ok_quiet ib (n + 1)); [done|lia]. }
  pose proof (cpu_ok_released ib (n + 1) lk (tbl s) (cond s) Hcpu ltac:(lia)) as Hcpu'.
  eapply inv_b; [exact H|by exists k'| | |].
  - by destruct a; simpl in *; try lia.
  - split; [rewrite (owner_free 4) by done; apply own_released|by apply own_released_ne| |done].
    by apply (table_ok_ext _ _ _ (tbl s)).
  - change (depth_b 4) with n. by replace (n + 1 - 1) with n in Hcpu' by lia.
Qed.

Lemma step_b4 a w : inv a 4 w → inv a 5 (step_b w).
Proof.
  intros H. open_b H. destruct Hth as (k & -> & Hk). rewrite Hk. destruct Hsh as [H1 H2 HT Hc].
  eapply inv_b; [exact H|done| | |done].
  - by destruct a; simpl in *; try lia.
  - split; [by destruct a|done|by destruct a|done].
Qed.

Lemma step_b5 a b w : inv a b w → (5 ≤ b)%nat → b = 5%nat ∧ step_b w = w.
Proof.
  intros H Hb. pose proof (i_b _ _ _ H) as Hth. do 5 (destruct b as [|b]; [lia|]). destruct Hth as [-> Hth].
  split; [done|]. unfold step_b. by rewrite Hth.
Qed.

(** ** All interleavings *)

Definition rank (a : apos) : nat :=
  match a with
  | A_start => 15 | A_lock => 14 | A_ptable => 13 | A_park => 12 | A_swtch => 11 | A_idle => 10
  | A_round => 9 | A_choose => 8 | A_back => 7 | A_relock => 6 | A_again => 5 | A_exit => 4
  | A_other => 3 | A_free => 2 | A_away | A_done => 0
  end.

(** The sleeper's CPU has nothing left to do, or waits for the waker. *)
Definition waits (a : apos) (b : nat) : bool :=
  match a with
  | A_away | A_done => true
  | A_lock | A_again => in_crit b
  | A_choose => (b <? 3)%nat
  | _ => false
  end.

Ltac moves_to a := exists a; split; [by eauto using step_start, step_ptable, step_park, step_idle, step_round, step_other,
  step_free, step_back, step_relock, step_exit|simpl; lia].

Lemma step_a_inv a b w :
  inv a b w → ∃ a', inv a' b (step_a x w) ∧ (waits a b = false → (rank a' < rank a)%nat).
Proof.
  intros H. destruct a.
  - moves_to A_lock.
  - destruct (step_lock b w H) as [[Hb Hw]|[H'|H']]; [|moves_to A_ptable|moves_to A_exit].
    rewrite Hw. exists A_lock. simpl. by rewrite Hb.
  - moves_to A_park.
  - moves_to A_swtch.
  - destruct (step_swtch b w H); [moves_to A_idle|moves_to A_other].
  - moves_to A_round.
  - moves_to A_choose.
  - destruct (step_choose b w H) as [[H' Hb]|[H'|H']]; [|moves_to A_other|moves_to A_back].
    exists A_idle. split; [done|]. unfold waits. intros Hw%Nat.ltb_ge. lia.
  - moves_to A_free.
  - moves_to A_away.
  - exists A_away. unfold step_a. by rewrite (i_a _ _ _ H : th_a w = Away).
  - moves_to A_relock.
  - moves_to A_again.
  - destruct (step_again b w H) as [[Hb Hw]|H']; [|moves_to A_exit].
    rewrite Hw. exists A_again. simpl. by rewrite Hb.
  - moves_to A_done.
  - exists A_done. unfold step_a. by rewrite (i_a _ _ _ H : th_a w = Finished).
Qed.

Lemma step_b_inv a b w :
  inv a b w → ∃ b', inv a b' (step_b w) ∧ (blocks a b = false → (b < 5)%nat → (b' = S b)%nat) ∧ (b' = b ∨ b' = S b).
Proof.
  intros H. destruct b as [|[|[|[|[|b]]]]].
  - exists 1%nat. split; [by apply step_b0|auto].
  - destruct (step_b1 a w H) as [[Hb ->]|H']; [exists 1%nat|exists 2%nat]; split; try done; [|auto].
    split; [by rewrite Hb|auto].
  - destruct (step_b2 a w H) as [[Hb ->]|H']; [exists 2%nat|exists 3%nat]; split; try done; [|auto].
    split; [by rewrite Hb|auto].
  - exists 4%nat. split; [by apply step_b3|auto].
  - exists 5%nat. split; [by apply step_b4|auto].
  - destruct (step_b5 a _ w H) as [Hb ->]; [lia|]. exists (S (S (S (S (S b))))). split; [done|]. split; [lia|auto].
Qed.

Lemma reach_inv w w' : rtc (step x) w w' → (∃ a b, inv a b w) → ∃ a b, inv a b w'.
Proof.
  induction 1 as [|w w1 w2 Hs _ IH]; [done|]. intros (a & b & H). apply IH. destruct Hs.
  - destruct (step_a_inv a b w H) as (a' & H' & _). eauto.
  - destruct (step_b_inv a b w H) as (b' & H' & _). eauto.
Qed.

Lemma blocked_moves a b : blocks a b = true → waits a b = false.
Proof. by destruct a. Qed.

(** However far they are, both can come to their end. *)
Lemma can_end m : ∀ a b w,
  inv a b w → (rank a + 16 * (5 - b) ≤ m)%nat →
  ∃ a' w', rtc (step x) w w' ∧ inv a' 5 w' ∧ (a' = A_away ∨ a' = A_done).
Proof.
  induction m as [m IH] using lt_wf_ind. intros a b w H Hm.
  assert ((5 ≤ b)%nat → b = 5%nat) as Hb5 by (intros; by eapply step_b5).
  assert (waits a b = false → ∃ a' w', rtc (step x) w w' ∧ inv a' 5 w' ∧ (a' = A_away ∨ a' = A_done)) as Ha.
  { intros Hw. destruct (step_a_inv a b w H) as (a1 & H1 & Hr). specialize (Hr Hw).
    destruct (IH (rank a1 + 16 * (5 - b))%nat ltac:(lia) a1 b (step_a x w) H1 ltac:(lia)) as (a' & w' & Hw' & Hend).
    exists a', w'. split; [eapply rtc_l; [apply by_a|done]|done]. }
  destruct (decide (5 ≤ b)%nat) as [Hb|Hb].
  - rewrite (Hb5 Hb) in *. destruct (waits a 5) eqn:Hw; [|by apply Ha].
    exists a, w. split; [done|]. split; [done|]. destruct a; try done; auto.
  - destruct (blocks a b) eqn:Hbl; [by apply Ha, blocked_moves|].
    destruct (step_b_inv a b w H) as (b1 & H1 & Hmove & _). rewrite Hmove in H1 by (done || lia).
    assert (rank a < 16)%nat by (destruct a; simpl; lia).
    destruct (IH (rank a + 16 * (5 - S b))%nat ltac:(lia) a (S b) (step_b w) H1 ltac:(lia)) as (a' & w' & Hw' & Hend).
    exists a', w'. split; [eapply rtc_l; [apply by_b|done]|done].
Qed.
End world.

Lemma starts_inv c lk x ia ib n w : starts c lk x ia ib n w → inv c lk x ia ib n A_start 0 w.
Proof.
  intros [Hne Hlk Ha Hb Hn Hcur [Hf1 Hf2] HQ Hx Hl Hc (f & k & i & Hf & Hk & Hi & Hta) Htb].
  apply fmap_Some in Hx as (q & Hq & Hst). split; [|done|done| |done|done|done].
  - do 2 (destruct f as [|f]; [lia|]). exists f, (lift (sched_rest k i)). split; [done|]. by exists k, i.
  - split; [done|done| |done]. split; [done| |done]. by exists q.
Qed.

(** C2: No wakeup is lost.  One process waits for a condition under a lock, in a loop
    around [sleep], while another CPU takes the lock, makes the condition true and
    calls [wakeup].  However the two interleave between their operations on locks,
    with the scheduler taking the sleeper's CPU and the other processes of the table
    being whatever they are: nothing panics or follows a bad pointer; the lists of
    the table stay consistent; the sleeper goes on only when the condition is true;
    once the waker is through, the sleeper does not sleep; and wherever they are,
    both can still come to their end, where the waker has returned and the sleeper
    has too, or is RUNNABLE in a ready list while its CPU runs another process. *)
Theorem no_lost_wakeup c lk x ia ib n w0 w :
  starts c lk x ia ib n w0 → rtc (step x) w0 w →
  th_a w ≠ Crashed ∧ th_b w ≠ Crashed_b ∧
  (∃ Q F, queues_ok None (tbl (mem w)) Q F) ∧
  (th_a w = Finished → cond (mem w) = true) ∧
  (th_b w = Woke → p_state <$> procs (tbl (mem w)) !! x ≠ Some SLEEPING) ∧
  ∃ w', rtc (step x) w w' ∧ th_b w' = Woke ∧
    (th_a w' = Finished ∨
     th_a w' = Away ∧ ∃ Q F i l, queues_ok None (tbl (mem w')) Q F ∧ Q !! i = Some l ∧ x ∈ l).
Proof.
  intros Hs Hw. pose proof (st_cpus _ _ _ _ _ _ _ Hs) as Hne. pose proof (st_lk _ _ _ _ _ _ _ Hs) as Hlk.
  pose proof (st_n _ _ _ _ _ _ _ Hs) as Hn.
  destruct (reach_inv c lk x ia ib n Hlk Hne Hn w0 w Hw) as (a & b & H).
  { exists A_start, 0%nat. by apply starts_inv. }
  pose proof (i_shared _ _ _ _ _ _ _ _ _ H) as [_ _ [HQ (q & Hq & Hst & _) _] Hc].
  pose proof (i_a _ _ _ _ _ _ _ _ _ H) as Ha. pose proof (i_b _ _ _ _ _ _ _ _ _ H) as Hb.
  pose proof (i_fits _ _ _ _ _ _ _ _ _ H) as Hf.
  split_and!.
  - intros E. rewrite E in Ha. destruct a; simpl in Ha; naive_solver.
  - intros E. rewrite E in Hb. destruct b as [|[|[|[|[|b]]]]]; simpl in Hb; naive_solver.
  - done.
  - intros E. rewrite E in Ha. destruct a; simpl in Ha; try naive_solver.
    rewrite Hc. simpl in Hf. by apply Nat.leb_le.
  - intros E. rewrite E in Hb. rewrite Hq. simpl. rewrite Hst.
    destruct b as [|[|[|[|[|b]]]]]; simpl in Hb; try naive_solver. destruct Hb as [[= ->] _].
    destruct a; simpl in *; try done; lia.
  - destruct (can_end c lk x ia ib n Hlk Hne Hn _ a b w H (Nat.le_refl _)) as (a' & w' & Hw' & H' & Hend).
    exists w'. split; [done|]. pose proof (i_b _ _ _ _ _ _ _ _ _ H') as [_ Hb']. split; [done|].
    pose proof (i_a _ _ _ _ _ _ _ _ _ H') as Ha'.
    destruct Hend as [->| ->]; [right|by left]. split; [done|].
    pose proof (i_shared _ _ _ _ _ _ _ _ _ H') as [_ _ [(Q & F & HI) (q' & Hq' & Hst' & _) _] _].
    assert (status (procs (tbl (mem w'))) x = Some (RUNNABLE, p_priority q')) as Hstatus.
    { rewrite (lookup_status _ _ _ Hq'). by rewrite Hst'. }
    pose proof (qo_all _ _ _ _ HI _ _ Hstatus ltac:(done)) as (i & l & Hi & Hl)%elem_of_concat. by eauto 10.
Qed.

(** The process in slot 0 waits for the timer while four others are ready and one
    more sleeps on the timer. *)
Definition wake0 : world :=
  World (Shr (Table.table mach0 100) false)
    (Priv 0 0x202 0 0 (Some 0%nat) (Regs 0 0 0 0)) (Priv 1 0x202 0 0 None (Regs 0 0 0 0))
    (InProc (consumer (Some ChTicks) Lticks 2) (lift (sched_rest 4 0)))
    (Waking (producer (Some ChTicks) Lticks)).

Lemma wake0_starts : starts (Some ChTicks) Lticks 0 0 1 0 wake0.
Proof.
  split; try done.
  - eexists _, _. apply Table.queues_fine.
  - assert (forallb (λ q, negb (p_pgdir q =? 0) || bool_decide (p_state q = UNUSED) || bool_decide (p_state q = ZOMBIE))
      (procs (tbl (mem wake0))) = true) as H by (vm_compute; reflexivity).
    rewrite forallb_forall in H. intros y q Hq Hl Hpg. apply list_elem_of_lookup_2 in Hq.
    specialize (H q ltac:(by apply list_elem_of_In)). rewrite Hpg in H. unfold live in Hl.
    destruct (p_state q); naive_solver.
  - exists 2%nat, 4%nat, 0. unfold SIZE. split; [lia|]. split; [lia|]. by split; [left|].
Qed.

(** The waker comes in when the sleeper has released its lock and does not sleep
    yet. *)
Lemma no_lost_wakeup_witness :
  let w := step_b (step_b (step_b (step_a 0 (step_a 0 (step_a 0 wake0))))) in
  ∃ w', rtc (step 0) w w' ∧ th_b w' = Woke ∧
    (th_a w' = Finished ∨
     th_a w' = Away ∧ ∃ Q F i l, queues_ok None (tbl (mem w')) Q F ∧ Q !! i = Some l ∧ (0%nat) ∈ l).
Proof.
  intros w. assert (rtc (step 0) wake0 w) as Hw.
  { do 3 (eapply rtc_l; [apply by_a|]). do 3 (eapply rtc_l; [apply by_b|]). apply rtc_refl. }
  exact (proj2 (proj2 (proj2 (proj2 (proj2 (no_lost_wakeup (Some ChTicks) Lticks 0 0 1 0 wake0 w wake0_starts Hw)))))).
Defined.
