(* ===== verification/ProcInfo.v ===== *)
(** * Listing the processes: [getProcInfo] (proc.c)

    The entries [getProcInfo] writes are those of the live processes in slot
    order, cut at [max]; a ZOMBIE within reach makes it read past the end of its
    [states] table. *)
From S2P Require Import Prelude Spinlock Str Ptable PtableLists Sched Choice Scheduling.

(** ** The listing *)

(** A 16-byte field holding the string [t], padded with NULs. *)
Definition field16 (t : list Z) : list Z :=
  take 16 (str_of t) ++ replicate (16 - length (str_of t)) 0.

Definition live (q : proc) : bool :=
  bool_decide (p_state q = ZOMBIE) || bool_decide (p_state q = RUNNING) ||
  bool_decide (p_state q = RUNNABLE) || bool_decide (p_state q = SLEEPING).

Definition state_name (st : procstate) : list Z :=
  match st with
  | SLEEPING => cstring "SLEEPING" | RUNNABLE => cstring "RUNNABLE" | RUNNING => cstring "RUNNING "
  | _ => []
  end.

Definition ppid_of (ps : list proc) (q : proc) : Z :=
  match p_parent q ≫= λ pp, ps !! pp with Some qp => p_pid qp | None => p_pid q end.

Definition entry (ps : list proc) (q : proc) : uproc :=
  Uproc (p_pid q) (p_gid q) (p_uid q) (ppid_of ps q) (field16 (state_name (p_state q))) (p_sz q)
    (p_priority q) (field16 (p_name q)).

(** The live processes among the first [n] slots. *)
Definition lives (ps : list proc) (n : nat) : list proc := filter (λ q, Is_true (live q)) (take n ps).

(** The buffer the caller gave, with the entries written at its start. *)
Definition filled (ps : list proc) (l : list proc) (table : list uproc) : list uproc :=
  (entry ps <$> l) ++ drop (length l) table.

(** What the listing needs of the table: pointers to slots, names in their
    array, entries of the caller's buffer with 16-byte fields. *)
Record listable (s : pst) (table : list uproc) : Prop := Listable {
  li_procs : length (procs s) = NPROC;
  li_parent : ∀ x q pp, procs s !! x = Some q → p_parent q = Some pp → (pp < NPROC)%nat;
  li_name : ∀ x q, procs s !! x = Some q → length (p_name q) = NAMELEN;
  li_table : ∀ i e, table !! i = Some e → length (up_state e) = 16%nat ∧ length (up_name e) = 16%nat
}.

(** One iteration of the loop of [getProcInfo]. *)
Definition info_step (max : Z) (x : nat * Z * list uproc) : K pst ((nat * Z * list uproc) + (nat * Z * list uproc)) :=
  let '(p, i, tab) := x in
  if (i <? max) && (Z.of_nat p <? Z.of_nat NPROC) then
    q ← getp p;
    if live q then
      old ← deref (tab !! Z.to_nat i);
      ppid ← match p_parent q with
             | Some pp => qp ← getp pp; mret (p_pid qp)
             | None => mret (p_pid q)
             end;
      sname ← deref (states !! state_index (p_state q) ≫= id);
      st ← deref (strncpy (up_state old) sname 16);
      nm ← deref (strncpy (up_name old) (p_name q) 16);
      let e := Uproc (p_pid q) (p_gid q) (p_uid q) ppid st (p_sz q) (p_priority q) nm in
      mret (inl (S p, i + 1, <[Z.to_nat i := e]> tab))
    else mret (inl (S p, i, tab))
  else mret (inr (p, i, tab)).

Lemma getProcInfo_unfold max table s :
  getProcInfo max table s =
    (lift (acquire Lptable);;
     r ← while LISTFUEL (info_step max) (0%nat, 0, table);
     let '(_, i, tab) := r in lift (release Lptable);; mret (i, tab)) s.
Proof. reflexivity. Qed.

Lemma strncpy_field old t :
  length old = 16%nat → 0 ∈ t ∨ (16 ≤ length t)%nat → strncpy old t 16 = Some (field16 t).
Proof.
  intros Ho Ht. rewrite strncpy_spec by (done || lia). unfold field16.
  rewrite (drop_ge old) by lia. by rewrite app_nil_r.
Qed.

Lemma filled_snoc ps l q table :
  (length l < length table)%nat →
  <[length l := entry ps q]> (filled ps l table) = filled ps (l ++ [q]) table.
Proof.
  intros Hlt. unfold filled. rewrite fmap_app, length_app. simpl.
  rewrite insert_app_r_alt by (by rewrite length_fmap). rewrite length_fmap, Nat.sub_diag.
  destruct (lookup_lt_is_Some_2 table (length l)) as [e He]; [lia|].
  rewrite (drop_S _ _ _ He). simpl. rewrite <- app_assoc. simpl. by rewrite Nat.add_1_r.
Qed.

Section listing.
Context (s : pst) (table : list uproc) (max : Z).
Context (Hok : listable s table) (Hmax : max ≤ Z.of_nat (length table)).

Lemma ppid_read q x :
  procs s !! x = Some q →
  match p_parent q with
  | Some pp => qp ← getp pp; mret (p_pid qp)
  | None => mret (p_pid q)
  end s = Ok (ppid_of (procs s) q) s.
Proof.
  intros Hq. unfold ppid_of. destruct (p_parent q) as [pp|] eqn:Hpp; [|done].
  pose proof (li_parent _ _ Hok _ _ _ Hq Hpp) as Hlt.
  destruct (lookup_lt_is_Some_2 (procs s) pp) as [qp Hqp]; [by rewrite (li_procs _ _ Hok)|].
  simpl. rewrite Hqp. krun. by rewrite (getp_ok _ _ _ Hqp).
Qed.

(** A live process that is not a zombie is written out. *)
Lemma info_step_live p q l :
  procs s !! p = Some q → live q = true → p_state q ≠ ZOMBIE → Z.of_nat (length l) < max →
  info_step max (p, Z.of_nat (length l), filled (procs s) l table) s =
    Ok (inl (S p, Z.of_nat (length (l ++ [q])), filled (procs s) (l ++ [q]) table)) s.
Proof.
  intros Hq Hlive Hz Hlt. pose proof (lookup_lt_Some _ _ _ Hq) as Hp. rewrite (li_procs _ _ Hok) in Hp.
  unfold info_step. destruct (Z.ltb_spec (Z.of_nat (length l)) max); [|lia].
  destruct (Z.ltb_spec (Z.of_nat p) (Z.of_nat NPROC)); [|lia]. cbn [andb].
    rewrite (bind_ok _ _ _ _ _ (getp_ok _ _ _ Hq)), Hlive.
  destruct (lookup_lt_is_Some_2 table (length l)) as [e He]; [lia|].
  assert (filled (procs s) l table !! length l = Some e) as Hf.
  { unfold filled. rewrite lookup_app_r by (by rewrite length_fmap).
    rewrite length_fmap, Nat.sub_diag, lookup_drop. by rewrite Nat.add_0_r. }
  rewrite Nat2Z.id, Hf. rewrite (bind_ok _ _ s e s) by done.
  rewrite (bind_ok _ _ _ _ _ (ppid_read q p Hq)).
  destruct (li_table _ _ Hok _ _ He) as [Hl1 Hl2].
  assert (states !! state_index (p_state q) ≫= id = Some (state_name (p_state q)) ∧
    0 ∈ state_name (p_state q)) as [-> Hnul].
  { unfold live in Hlive. destruct (p_state q); try done; split; try done; vm_compute;
      repeat (first [apply list_elem_of_here | apply list_elem_of_further]). }
  rewrite (bind_ok _ _ s (state_name (p_state q)) s) by done.
  rewrite (strncpy_field _ (state_name (p_state q))), (strncpy_field _ (p_name q)); [|done|right|done|by left].
  2:{ rewrite (li_name _ _ Hok _ _ Hq). unfold NAMELEN. lia. }
  rewrite (bind_ok _ _ s (field16 (state_name (p_state q))) s) by done.
  rewrite (bind_ok _ _ s (field16 (p_name q)) s) by done.
  rewrite length_app. simpl length. replace (Z.of_nat (length l + 1)) with (Z.of_nat (length l) + 1) by lia.
  fold (entry (procs s) q). by rewrite filled_snoc by lia.
Qed.

Lemma info_step_dead p q l :
  procs s !! p = Some q → live q = false → Z.of_nat (length l) < max →
  info_step max (p, Z.of_nat (length l), filled (procs s) l table) s =
    Ok (inl (S p, Z.of_nat (length l), filled (procs s) l table)) s.
Proof.
  intros Hq Hlive Hlt. pose proof (lookup_lt_Some _ _ _ Hq) as Hp. rewrite (li_procs _ _ Hok) in Hp.
  unfold info_step. destruct (Z.ltb_spec (Z.of_nat (length l)) max); [|lia].
  destruct (Z.ltb_spec (Z.of_nat p) (Z.of_nat NPROC)); [|lia]. cbn [andb].
  by rewrite (bind_ok _ _ _ _ _ (getp_ok _ _ _ Hq)), Hlive.
Qed.

Lemma info_step_end p i tab :
  max ≤ i ∨ (NPROC ≤ p)%nat → info_step max (p, i, tab) s = Ok (inr (p, i, tab)) s.
Proof.
  intros H. unfold info_step.
  destruct (Z.ltb_spec i max), (Z.ltb_spec (Z.of_nat p) (Z.of_nat NPROC)); (done || lia).
Qed.

Lemma lives_S p q :
  procs s !! p = Some q →
  lives (procs s) (S p) = lives (procs s) p ++ (if live q then [q] else []).
Proof.
  intros Hq. unfold lives. rewrite (take_S_r _ _ _ Hq), filter_app. f_equal.
  rewrite filter_cons, filter_nil. destruct (live q); by case_decide.
Qed.

(** The loop from slot [p] on, when no zombie is in the table. *)
Lemma info_loop k : ∀ p fuel,
  (p + k)%nat = NPROC → (k < fuel)%nat → Z.of_nat (length (lives (procs s) p)) ≤ max →
  (∀ x q, procs s !! x = Some q → p_state q ≠ ZOMBIE) →
  let l := take (Z.to_nat max) (lives (procs s) NPROC) in
  ∃ p', while fuel (info_step max) (p, Z.of_nat (length (lives (procs s) p)),
          filled (procs s) (lives (procs s) p) table) s =
        Ok (p', Z.of_nat (length l), filled (procs s) l table) s.
Proof.
  induction k as [|k IH]; intros p fuel Hpk Hf Hl Hz l; (destruct fuel as [|fuel]; [lia|]); cbn [while].
  - exists p. rewrite Nat.add_0_r in Hpk. subst p.
    rewrite (bind_ok _ _ _ _ _ (info_step_end _ _ _ (or_intror (Nat.le_refl _)))). unfold l. by rewrite take_ge by lia.
  - destruct (lookup_lt_is_Some_2 (procs s) p) as [q Hq]; [rewrite (li_procs _ _ Hok); lia|].
    destruct (decide (Z.of_nat (length (lives (procs s) p)) < max)) as [Hlt|Hge].
    + pose proof (lives_S p q Hq) as HS. destruct (live q) eqn:Hlive.
      * rewrite (bind_ok _ _ _ _ _ (info_step_live p q _ Hq Hlive (Hz _ _ Hq) Hlt)).
        rewrite <- HS. apply IH; [lia|lia| |done]. rewrite HS, length_app. simpl. lia.
      * rewrite app_nil_r in HS. rewrite (bind_ok _ _ _ _ _ (info_step_dead p q _ Hq Hlive Hlt)).
        rewrite <- HS. apply IH; [lia|lia| |done]. by rewrite HS.
    + exists p. rewrite (bind_ok _ _ _ _ _ (info_step_end _ _ _ (or_introl (proj1 (Z.nlt_ge _ _) Hge)))).
      assert (l = lives (procs s) p) as ->; [|done].
      unfold l. replace (Z.to_nat max) with (length (lives (procs s) p)) by lia.
      unfold lives at 2. rewrite <- (take_drop p (take NPROC (procs s))), filter_app.
      rewrite take_take, (Nat.min_l p NPROC) by lia. by rewrite take_app_length.
Qed.

(** The loop up to slot [p + k], when it does not end before it. *)
Lemma info_reach k : ∀ p fuel,
  (p + k < NPROC)%nat → Z.of_nat (length (lives (procs s) (p + k))) < max →
  (∀ x q, (x < p + k)%nat → procs s !! x = Some q → p_state q ≠ ZOMBIE) →
  while (k + fuel) (info_step max) (p, Z.of_nat (length (lives (procs s) p)),
    filled (procs s) (lives (procs s) p) table) s =
  while fuel (info_step max) ((p + k)%nat, Z.of_nat (length (lives (procs s) (p + k))),
    filled (procs s) (lives (procs s) (p + k)) table) s.
Proof.
  induction k as [|k IH]; intros p fuel Hpk Hl Hz; [by rewrite Nat.add_0_r|].
  destruct (lookup_lt_is_Some_2 (procs s) p) as [q Hq]; [rewrite (li_procs _ _ Hok); lia|].
  assert (length (lives (procs s) p) ≤ length (lives (procs s) (p + S k)))%nat as Hmono.
  { unfold lives. rewrite <- (take_drop p (take (p + S k) (procs s))), filter_app, length_app.
    rewrite take_take, Nat.min_l by lia. lia. }
  pose proof (lives_S p q Hq) as HS. cbn [while Nat.add].
  replace (p + S k)%nat with (S p + k)%nat in * by lia.
  assert (Z.of_nat (length (lives (procs s) p)) < max) as Hlt by lia.
  destruct (live q) eqn:Hlive.
  - rewrite (bind_ok _ _ _ _ _ (info_step_live p q _ Hq Hlive (Hz p q ltac:(lia) Hq) Hlt)).
    rewrite <- HS. by apply IH.
  - rewrite app_nil_r in HS. rewrite (bind_ok _ _ _ _ _ (info_step_dead p q _ Hq Hlive Hlt)).
    rewrite <- HS. by apply IH.
Qed.

Lemma info_step_zombie p q l :
  procs s !! p = Some q → p_state q = ZOMBIE → Z.of_nat (length l) < max →
  info_step max (p, Z.of_nat (length l), filled (procs s) l table) s = Fault.
Proof.
  intros Hq Hz Hlt. pose proof (lookup_lt_Some _ _ _ Hq) as Hp. rewrite (li_procs _ _ Hok) in Hp.
  unfold info_step. destruct (Z.ltb_spec (Z.of_nat (length l)) max); [|lia].
  destruct (Z.ltb_spec (Z.of_nat p) (Z.of_nat NPROC)); [|lia]. cbn [andb].
  rewrite (bind_ok _ _ _ _ _ (getp_ok _ _ _ Hq)). unfold live. rewrite Hz. cbn [orb].
  rewrite bool_decide_true by done. cbn [orb].
  destruct (lookup_lt_is_Some_2 table (length l)) as [e He]; [lia|].
  assert (filled (procs s) l table !! length l = Some e) as Hf.
  { unfold filled. rewrite lookup_app_r by (by rewrite length_fmap).
    rewrite length_fmap, Nat.sub_diag, lookup_drop. by rewrite Nat.add_0_r. }
  rewrite Nat2Z.id, Hf. rewrite (bind_ok _ _ s e s) by done.
  by rewrite (bind_ok _ _ _ _ _ (ppid_read q p Hq)).
Qed.
End listing.

(** ** Properties *)

(** with no ZOMBIE in the table, [getProcInfo] fills the caller's buffer, from its
    start, with one entry per RUNNING, RUNNABLE or SLEEPING process in slot
    order, at most [max] of them, leaves the rest of the buffer alone, returns
    how many it wrote and changes no process. *)
Theorem getProcInfo_lists L max table s :
  listable s table → 0 ≤ max ≤ Z.of_nat (length table) → holds L (mch s) → Lptable ∉ L →
  (∀ x q, procs s !! x = Some q → p_state q ≠ ZOMBIE) →
  let l := take (Z.to_nat max) (lives (procs s) NPROC) in
  ∃ m', getProcInfo max table s =
    Ok (Z.of_nat (length l), (entry (procs s) <$> l) ++ drop (length l) table) (set_mch m' s) ∧
    holds L m'.
Proof.
  intros Hok [Hm0 Hm] HL Hlk Hz l. rewrite getProcInfo_unfold.
  destruct (lift_acquire L Lptable s HL Hlk) as (m1 & Hacq & Hm1).
  rewrite (bind_ok _ _ _ _ _ Hacq).
  destruct (info_loop (set_mch m1 s) table max) with (k := NPROC) (p := 0%nat) (fuel := LISTFUEL)
    as (p' & Hloop); [by destruct Hok|done|done|unfold LISTFUEL; lia|simpl; lia|done|].
  rewrite (bind_ok _ _ _ _ _ Hloop). cbv beta iota.
  destruct (lift_release _ Lptable (set_mch m1 s) Hm1) as (m2 & Hrel & Hm2); [set_solver|].
  rewrite (bind_ok _ _ _ _ _ Hrel). exists m2. rewrite diff_union_lock in Hm2 by done. done.
Qed.

(** A buffer of [n] entries, and the table without its zombie. *)
Definition buffer (n : nat) : list uproc :=
  replicate n (Uproc 0 0 0 0 (replicate 16 0) 0 0 (replicate 16 0)).

Definition no_zombie : pst :=
  set_procs (alter (set_p_state UNUSED) 6%nat (procs (Table.table mach0 100))) (Table.table mach0 100).

Definition slot_listable (q : proc) : bool :=
  match p_parent q with Some pp => (pp <? NPROC)%nat | None => true end &&
  (length (p_name q) =? NAMELEN)%nat.

Lemma listable_check s n :
  (length (procs s) =? NPROC)%nat = true → forallb slot_listable (procs s) = true →
  listable s (buffer n).
Proof.
  rewrite Nat.eqb_eq, forallb_forall. intros Hlen Hall.
  assert (∀ x q, procs s !! x = Some q → slot_listable q = true) as Hs.
  { intros x q Hq. apply Hall, list_elem_of_In, list_elem_of_lookup. eauto. }
  split; [done| | |].
  - intros x q pp Hq Hpp. pose proof (Hs _ _ Hq) as H. unfold slot_listable in H.
    rewrite Hpp, andb_true_iff, Nat.ltb_lt in H. tauto.
  - intros x q Hq. pose proof (Hs _ _ Hq) as H. unfold slot_listable in H.
    rewrite andb_true_iff, Nat.eqb_eq in H. tauto.
  - intros i e He. apply lookup_replicate in He as [-> _]. done.
Qed.

Lemma getProcInfo_lists_witness :
  ∃ m', getProcInfo 4 (buffer 8) no_zombie =
    Ok (4, (entry (procs no_zombie) <$> lives (procs no_zombie) 4) ++ buffer 4) (set_mch m' no_zombie).
Proof.
  destruct (getProcInfo_lists ∅ 4 (buffer 8) no_zombie) as (m' & Hrun & _).
  - apply listable_check; vm_compute; reflexivity.
  - simpl. lia.
  - exact mach0_holds.
  - set_solver.
  - assert (forallb (λ q, negb (bool_decide (p_state q = ZOMBIE))) (procs no_zombie) = true) as H
      by (vm_compute; reflexivity).
    rewrite forallb_forall in H. intros x q Hq Hz. specialize (H q). rewrite Hz in H. discriminate H.
    apply list_elem_of_In, list_elem_of_lookup. by exists x.
  - exists m'. exact Hrun.
Defined.

(** a ZOMBIE that the listing reaches, which its loop does not skip, makes
    [getProcInfo] index its [states] table out of bounds: the table has an entry
    for no state after RUNNING. *)
Theorem getProcInfo_zombie_faults L max table s z q :
  listable s table → max ≤ Z.of_nat (length table) → holds L (mch s) → Lptable ∉ L →
  procs s !! z = Some q → p_state q = ZOMBIE →
  (∀ x q', (x < z)%nat → procs s !! x = Some q' → p_state q' ≠ ZOMBIE) →
  Z.of_nat (length (lives (procs s) z)) < max →
  getProcInfo max table s = Fault.
Proof.
  intros Hok Hm HL Hlk Hq Hst Hz Hlt. rewrite getProcInfo_unfold.
  destruct (lift_acquire L Lptable s HL Hlk) as (m1 & Hacq & Hm1).
  rewrite (bind_ok _ _ _ _ _ Hacq). apply bind_fault.
  pose proof (lookup_lt_Some _ _ _ Hq) as Hp. rewrite (li_procs _ _ Hok) in Hp.
  set (s1 := set_mch m1 s). assert (listable s1 table) as Hok1 by by destruct Hok.
  replace LISTFUEL with (z + S (NPROC - z))%nat by (unfold LISTFUEL; lia).
  etrans; [apply (info_reach s1 table max Hok1 Hm z 0)|]; [done|done|done|].
  apply while_fault. by apply (info_step_zombie s1 table max Hok1 Hm z q).
Qed.

Lemma getProcInfo_zombie_faults_witness :
  getProcInfo 16 (buffer 16) (Table.table mach0 100) = Fault.
Proof.
  apply (getProcInfo_zombie_faults ∅ 16 (buffer 16) (Table.table mach0 100) 6
    (Table.mk ZOMBIE 7 1 None None)).
  - apply listable_check; vm_compute; reflexivity.
  - simpl. lia.
  - exact mach0_holds.
  - set_solver.
  - reflexivity.
  - reflexivity.
  - intros x q Hx Hq. do 6 (destruct x as [|x]; [simpl in Hq; simplify_eq; discriminate|]). lia.
  - vm_compute. reflexivity.
Defined.
