(* ===== verification/Services.v ===== *)
(** * What proc.c and spinlock.c promise to the rest of the kernel

    [KOps B] are the services the other components call on the state [B] they
    run on: spinlocks, sleep and wakeup, and the current process.  [KLaws B] is
    the contract.  The process table ([pst]) implements it; a component's own
    state wraps the state it runs on, and inherits the services through the lens
    to it.  Components are written and proved against the interface. *)
From S2P Require Import Prelude Spinlock Str Ptable PtableLists Sched.

(** ** The interface *)

Class KOps (B : Type) := {
  k_acquire : lockid → K B unit;
  k_release : lockid → K B unit;
  k_initlock : lockid → string → K B unit;
  k_sleep : chan → lockid → K B unit;
  k_wakeup : chan → K B unit;
  (** [*proc], and an update of its fields *)
  k_getproc : K B proc;
  k_setproc : (proc → proc) → K B unit
}.

(** A process without its list pointer. *)
Definition unlinked (q : proc) : proc := set_p_next None q.

(** An update that leaves scheduling alone. *)
Definition user_field (f : proc → proc) : Prop :=
  ∀ q, p_next (f q) = p_next q ∧ p_state (f q) = p_state q ∧ p_priority (f q) = p_priority q ∧
    f (unlinked q) = unlinked (f q).

Class KLaws (B : Type) {O : KOps B} := {
  (** exactly these locks are held, by this CPU, and the table is consistent *)
  k_ok : gset lockid → B → Prop;
  (** the slot of the current process, and its fields *)
  k_self : B → option nat;
  k_me : B → option proc;
  (** what the services may change: locks and the scheduling of processes *)
  k_frame : B → B → Prop;
  k_frame_po :: PreOrder k_frame;
  k_me_self : ∀ L b x, k_ok L b → k_self b = Some x → is_Some (k_me b);
  k_acquire_ok : ∀ L lk b, k_ok L b → lk ∉ L →
    ∃ b', k_acquire lk b = Ok tt b' ∧ k_ok ({[lk]} ∪ L) b' ∧ k_frame b b' ∧
      k_self b' = k_self b ∧ k_me b' = k_me b;
  k_acquire_held : ∀ L lk b, k_ok L b → lk ∈ L → k_acquire lk b = Panic "acquire";
  k_initlock_ok : ∀ L lk nm b, k_ok L b → lk ∉ L →
    ∃ b', k_initlock lk nm b = Ok tt b' ∧ k_ok L b' ∧ k_frame b b' ∧
      k_self b' = k_self b ∧ k_me b' = k_me b;
  k_release_ok : ∀ L lk b, k_ok L b → lk ∈ L →
    ∃ b', k_release lk b = Ok tt b' ∧ k_ok (L ∖ {[lk]}) b' ∧ k_frame b b' ∧
      k_self b' = k_self b ∧ k_me b' = k_me b;
  k_wakeup_ok : ∀ L c b, k_ok L b → Lptable ∉ L →
    ∃ b', k_wakeup c b = Ok tt b' ∧ k_ok L b' ∧ k_frame b b' ∧
      k_self b' = k_self b ∧ k_me b' = k_me b;
  k_sleep_ok : ∀ c lk b x, k_ok {[lk]} b → lk ≠ Lptable → k_self b = Some x →
    ∃ b1 k, k_sleep c lk b = Switch b1 k ∧ k_frame b b1 ∧
      ∀ b2, k_ok {[Lptable]} b2 → k_self b2 = Some x →
        ∃ b3, k b2 = Ok tt b3 ∧ k_ok {[lk]} b3 ∧ k_frame b2 b3 ∧ k_self b3 = Some x;
  k_getproc_ok : ∀ L b x, k_ok L b → k_self b = Some x →
    ∃ q, k_getproc b = Ok q b ∧ k_me b = Some (unlinked q);
  k_setproc_ok : ∀ L b x f, k_ok L b → k_self b = Some x → user_field f →
    ∃ b', k_setproc f b = Ok tt b' ∧ k_ok L b' ∧ k_frame b b' ∧ k_self b' = Some x ∧
      k_me b' = f <$> k_me b
}.

(** What waking promises besides: a wakeup makes ready exactly the processes asleep
    on its channel, and locks do not matter to who is asleep. *)
Class KWake (B : Type) {O : KOps B} {W : KLaws B} := {
  k_asleep : B → chan → nat → Prop;
  k_ready : B → nat → Prop;
  kw_acquire : ∀ L lk b b', k_ok L b → lk ∉ L → k_acquire lk b = Ok tt b' →
    (∀ c x, k_asleep b' c x ↔ k_asleep b c x) ∧ ∀ x, k_ready b' x ↔ k_ready b x;
  kw_release : ∀ L lk b b', k_ok L b → lk ∈ L → k_release lk b = Ok tt b' →
    (∀ c x, k_asleep b' c x ↔ k_asleep b c x) ∧ ∀ x, k_ready b' x ↔ k_ready b x;
  kw_wakeup : ∀ L c b b', k_ok L b → Lptable ∉ L → k_wakeup c b = Ok tt b' →
    (∀ d x, k_asleep b' d x ↔ k_asleep b d x ∧ d ≠ c) ∧ ∀ x, k_ready b' x ↔ k_ready b x ∨ k_asleep b c x
}.

(** ** The process table implements it *)

#[global] Instance pst_ops : KOps pst := {|
  k_acquire lk := lift (acquire lk);
  k_release lk := lift (release lk);
  k_initlock lk nm := lift (initlock lk nm);
  k_sleep c lk := sleep (Some c) (Some lk);
  k_wakeup c := wakeup (Some c);
  k_getproc := p ← myproc; getp p;
  k_setproc f := p ← myproc; setp p f
|}.

(** The current process, if any, is RUNNING. *)
Definition cur_running (s : pst) : Prop :=
  ∀ x, curproc s = Some x → ∃ pr, status (procs s) x = Some (RUNNING, pr).

Record pst_ok (L : gset lockid) (s : pst) : Prop := Pst_ok {
  po_queues : ∃ Q F, queues_ok None s Q F;
  po_locks : holds L (mch s);
  po_cur : cur_running s
}.

Definition pst_me (s : pst) : option proc :=
  x ← curproc s; unlinked <$> procs s !! x.

(** What is not for locks, scheduling or the current process to change. *)
Definition pst_frame (s s' : pst) : Prop :=
  length (procs s') = length (procs s) ∧ initproc s' = initproc s ∧ nextpid s' = nextpid s ∧
  kpgdir s' = kpgdir s.

#[global] Instance pst_frame_preorder : PreOrder pst_frame.
Proof. split; [done|]. intros s1 s2 s3 (?&?&?&?) (?&?&?&?). unfold pst_frame. split_and!; congruence. Qed.

Lemma pst_me_erase s : pst_me s = x ← curproc s; erase (procs s) !! x.
Proof. unfold pst_me, erase. destruct (curproc s); [|done]. simpl. by rewrite list_lookup_fmap. Qed.

Lemma pst_ok_mch L L' m s : pst_ok L s → holds L' m → pst_ok L' (set_mch m s).
Proof.
  intros [(Q & F & HI) _ Hc] Hm. split; [|done|done]. exists Q, F. by apply (queues_ok_ext None s).
Qed.

Lemma pst_acquire_ok L lk s :
  pst_ok L s → lk ∉ L →
  ∃ s', lift (acquire lk) s = Ok tt s' ∧ pst_ok ({[lk]} ∪ L) s' ∧ pst_frame s s' ∧
    curproc s' = curproc s ∧ pst_me s' = pst_me s.
Proof.
  intros Hok Hlk. destruct (lift_acquire L lk s (po_locks _ _ Hok) Hlk) as (m & Hr & Hm).
  exists (set_mch m s). split; [done|]. split; [by eapply pst_ok_mch|done].
Qed.

Lemma pst_release_ok L lk s :
  pst_ok L s → lk ∈ L →
  ∃ s', lift (release lk) s = Ok tt s' ∧ pst_ok (L ∖ {[lk]}) s' ∧ pst_frame s s' ∧
    curproc s' = curproc s ∧ pst_me s' = pst_me s.
Proof.
  intros Hok Hlk. destruct (lift_release L lk s (po_locks _ _ Hok) Hlk) as (m & Hr & Hm).
  exists (set_mch m s). split; [done|]. split; [by eapply pst_ok_mch|done].
Qed.

Lemma initlock_holds L lk nm m : holds L m → lk ∉ L → holds L (set_lock lk (Spinlock 0 nm None) m).
Proof.
  intros [H1 H2 H3 H4] Hlk. split; [| |done|done]; intros lk' Hin; rewrite lock_of_set.
  - rewrite decide_False by set_solver. by apply H1.
  - case_decide; [done|by apply H2].
Qed.

Lemma pst_initlock_ok L lk nm s :
  pst_ok L s → lk ∉ L →
  ∃ s', lift (initlock lk nm) s = Ok tt s' ∧ pst_ok L s' ∧ pst_frame s s' ∧
    curproc s' = curproc s ∧ pst_me s' = pst_me s.
Proof.
  intros Hok Hlk. eexists. split; [done|]. split; [|done].
  eapply pst_ok_mch; [done|]. apply initlock_holds; [apply Hok|done].
Qed.

Lemma pst_acquire_held L lk s : pst_ok L s → lk ∈ L → lift (acquire lk) s = Panic "acquire".
Proof. intros Hok Hlk. unfold lift. simpl. by rewrite (acquire_held lk (mch s) L (po_locks _ _ Hok) Hlk). Qed.

(** The running process is not woken. *)
Lemma woken_running c ps x pr :
  status ps x = Some (RUNNING, pr) → (woken c <$> ps) !! x = ps !! x.
Proof.
  intros Hst. destruct (status_lookup _ _ _ _ Hst) as (q & Hq & Hs & _).
  rewrite list_lookup_fmap, Hq. simpl. unfold woken, sleeper. by rewrite Hs.
Qed.

Lemma pst_wakeup_ok L c s :
  pst_ok L s → Lptable ∉ L →
  ∃ s', wakeup c s = Ok tt s' ∧ pst_ok L s' ∧ pst_frame s s' ∧
    curproc s' = curproc s ∧ pst_me s' = pst_me s.
Proof.
  intros [(Q & F & HI) HL Hc] Hlk.
  destruct (wakeup_spec L c s Q F HI HL Hlk) as (s' & Hr & HL' & _ & HI' & He & Hctx).
  unfold context_of in Hctx. simplify_eq. pose proof (erase_length _ _ He) as Hlen.
  rewrite length_fmap in Hlen. exists s'. split_and!; [done| |done|done|].
  - split; [by eauto|done|]. intros x Hx. destruct (Hc x ltac:(congruence)) as [pr Hpr]. exists pr.
    rewrite (status_erase _ _ _ He). unfold status. by rewrite (woken_running c _ _ _ Hpr).
  - rewrite !pst_me_erase, He. replace (curproc s') with (curproc s) by congruence.
    destruct (curproc s) as [x|] eqn:Ex; [|done]. simpl.
    destruct (Hc x Ex) as [pr Hpr]. unfold erase. rewrite !(list_lookup_fmap (set_p_next None)).
    by rewrite (woken_running c _ _ _ Hpr).
Qed.

Lemma pst_getproc_ok L s x :
  pst_ok L s → curproc s = Some x →
  ∃ q, (p ← myproc; getp p) s = Ok q s ∧ pst_me s = Some (unlinked q).
Proof.
  intros [_ _ Hc] Hx. destruct (Hc x Hx) as [pr Hpr]. destruct (status_lookup _ _ _ _ Hpr) as (q & Hq & _).
  exists q. rewrite (bind_ok _ _ _ _ _ (myproc_ok s x Hx)), (getp_ok _ _ _ Hq).
  split; [done|]. unfold pst_me. rewrite Hx. simpl. by rewrite Hq.
Qed.

Lemma pst_setproc_ok L s x f :
  pst_ok L s → curproc s = Some x → user_field f →
  ∃ s', (p ← myproc; setp p f) s = Ok tt s' ∧ pst_ok L s' ∧ pst_frame s s' ∧ curproc s' = Some x ∧
    pst_me s' = f <$> pst_me s.
Proof.
  intros [(Q & F & HI) HL Hc] Hx Hf. destruct (Hc x Hx) as [pr Hpr].
  destruct (status_lookup _ _ _ _ Hpr) as (q & Hq & _). pose proof (lookup_lt_Some _ _ _ Hq) as Hlt.
  exists (set_procs (alter f x (procs s)) s).
  rewrite (bind_ok _ _ _ _ _ (myproc_ok s x Hx)), setp_ok by done.
  split_and!; [done| | |done|].
  - split; [exists Q, F|done|].
    + apply queues_ok_alter; [|done]. intros q'. destruct (Hf q') as (? & ? & ? & _). auto.
    + intros y Hy. simpl in Hy. replace y with x by congruence. exists pr. unfold status in *. simpl.
      rewrite list_lookup_alter_eq. rewrite Hq in *. simpl in *.
      destruct (Hf q) as (_ & -> & -> & _). done.
  - unfold pst_frame. simpl. by rewrite length_alter.
  - unfold pst_me. simpl. rewrite Hx. simpl. rewrite list_lookup_alter_eq, Hq. simpl.
    destruct (Hf q) as (_ & _ & _ & ->). done.
Qed.

Lemma pst_sleep_ok c lk s x :
  pst_ok {[lk]} s → lk ≠ Lptable → curproc s = Some x →
  ∃ s1 k, sleep c (Some lk) s = Switch s1 k ∧ pst_frame s s1 ∧
    ∀ s2, pst_ok {[Lptable]} s2 → curproc s2 = Some x →
      ∃ s3, k s2 = Ok tt s3 ∧ pst_ok {[lk]} s3 ∧ pst_frame s2 s3 ∧ curproc s3 = Some x.
Proof.
  intros [(Q & F & HI) HL Hc] Hne Hx. destruct (Hc x Hx) as [pr Hpr].
  destruct (status_lookup _ _ _ _ Hpr) as (q & Hq & Hst & _).
  destruct (sleep_parks s Q F x q c lk HI HL Hne Hx Hq Hst) as (m1 & k & Hr & Hm1 & _ & Hres).
  eexists _, k. split_and!; [done|unfold pst_frame; simpl; by rewrite length_alter|].
  intros s2 [(Q2 & F2 & HI2) HL2 Hc2] Hx2. destruct (Hc2 x Hx2) as [pr2 Hpr2].
  destruct (status_lookup _ _ _ _ Hpr2) as (q2 & Hq2 & Hst2 & Hp2).
  destruct (Hres s2 HL2 Hx2) as (m3 & Hk & Hm3); [by eapply lookup_lt_Some|].
  eexists. split_and!; [done| |unfold pst_frame; simpl; by rewrite length_alter|done].
  eapply pst_ok_mch; [|done]. split; [exists Q2, F2| |].
  - by apply queues_ok_alter.
  - done.
  - intros y Hy. simpl in Hy. replace y with x by congruence. exists pr2. unfold status in *. simpl.
    rewrite list_lookup_alter_eq. by rewrite Hq2 in *.
Qed.

Lemma pst_me_self L s x : pst_ok L s → curproc s = Some x → is_Some (pst_me s).
Proof.
  intros [_ _ Hc] Hx. destruct (Hc x Hx) as [pr Hpr].
  destruct (status_lookup _ _ _ _ Hpr) as (q & Hq & _). unfold pst_me. rewrite Hx. simpl. rewrite Hq. eauto.
Qed.

#[global] Instance pst_laws : KLaws pst := {|
  k_ok := pst_ok; k_self := curproc; k_me := pst_me; k_frame := pst_frame;
  k_frame_po := pst_frame_preorder; k_me_self := pst_me_self;
  k_acquire_ok := pst_acquire_ok; k_acquire_held := pst_acquire_held;
  k_initlock_ok := pst_initlock_ok;
  k_release_ok := pst_release_ok; k_wakeup_ok := λ L c, pst_wakeup_ok L (Some c);
  k_sleep_ok := λ c, pst_sleep_ok (Some c); k_getproc_ok := pst_getproc_ok;
  k_setproc_ok := pst_setproc_ok
|}.

(** Who is asleep, and who is on a ready list. *)
Definition pst_asleep (s : pst) (c : chan) (x : nat) : Prop :=
  ∃ q, procs s !! x = Some q ∧ p_state q = SLEEPING ∧ p_chan q = Some c.
Definition pst_ready (s : pst) (x : nat) : Prop := ∃ q, procs s !! x = Some q ∧ p_state q = RUNNABLE.

Lemma sleeper_true c q : sleeper c q = true ↔ p_state q = SLEEPING ∧ p_chan q = c.
Proof. unfold sleeper. by rewrite andb_true_iff, !bool_decide_eq_true. Qed.

Lemma pst_wakes L c s s' :
  pst_ok L s → Lptable ∉ L → wakeup (Some c) s = Ok tt s' →
  (∀ d x, pst_asleep s' d x ↔ pst_asleep s d x ∧ d ≠ c) ∧ ∀ x, pst_ready s' x ↔ pst_ready s x ∨ pst_asleep s c x.
Proof.
  intros [(Q & F & HI) HL _] Hlk Hr.
  destruct (wakeup_spec L (Some c) s Q F HI HL Hlk) as (s1 & Hr1 & _ & _ & _ & He & _).
  rewrite Hr1 in Hr. injection Hr as ->.
  assert (∀ x q, procs s !! x = Some q →
    ∃ q', procs s' !! x = Some q' ∧ p_state q' = p_state (woken (Some c) q) ∧ p_chan q' = p_chan q) as Hfwd.
  { intros x q Hq. destruct (erase_lookup _ _ x (woken (Some c) q) He) as [n Hn]; [by rewrite list_lookup_fmap, Hq|].
    eexists. split_and!; [exact Hn|done|]. unfold woken. by destruct (sleeper (Some c) q). }
  assert (∀ x q', procs s' !! x = Some q' →
    ∃ q, procs s !! x = Some q ∧ p_state q' = p_state (woken (Some c) q) ∧ p_chan q' = p_chan q) as Hback.
  { intros x q' Hq'. destruct (lookup_lt_is_Some_2 (procs s) x) as [q Hq].
    { apply erase_length in He. rewrite length_fmap in He. rewrite <- He. by eapply lookup_lt_Some. }
    exists q. destruct (Hfwd x q Hq) as (q0 & Hq0 & ? & ?). by simplify_eq. }
  split.
  - intros d x. split.
    + intros (q' & Hq' & Hs & Hc). destruct (Hback x q' Hq') as (q & Hq & E1 & E2). unfold woken in E1.
      destruct (sleeper (Some c) q) eqn:Es; [by rewrite E1 in Hs|]. split; [exists q; split_and!; congruence|].
      intros ->. apply not_true_iff_false in Es. apply Es, sleeper_true. split; congruence.
    + intros [(q & Hq & Hs & Hc) Hd]. destruct (Hfwd x q Hq) as (q' & Hq' & E1 & E2). exists q'.
      unfold woken in E1. destruct (sleeper (Some c) q) eqn:Es; [apply sleeper_true in Es as [_ Es]; congruence|].
      split_and!; congruence.
  - intros x. split.
    + intros (q' & Hq' & Hs). destruct (Hback x q' Hq') as (q & Hq & E1 & _). unfold woken in E1.
      destruct (sleeper (Some c) q) eqn:Es; [right; apply sleeper_true in Es; by exists q|left; exists q; split; congruence].
    + intros [(q & Hq & Hs)|(q & Hq & Hs & Hc)]; destruct (Hfwd x q Hq) as (q' & Hq' & E1 & _); exists q'; (split; [done|]);
        rewrite E1; unfold woken; [by destruct (sleeper (Some c) q)|]. by rewrite (proj2 (sleeper_true _ _)).
Qed.

#[global] Instance pst_wake : KWake pst.
Proof.
  refine {| k_asleep := pst_asleep; k_ready := pst_ready; kw_wakeup := pst_wakes |}.
  - intros L lk s s' HL Hlk Hr. destruct (lift_acquire L lk s (po_locks _ _ HL) Hlk) as (m & Hr' & _).
    cbn in Hr. rewrite Hr' in Hr. by injection Hr as <-.
  - intros L lk s s' HL Hlk Hr. destruct (lift_release L lk s (po_locks _ _ HL) Hlk) as (m & Hr' & _).
    cbn in Hr. rewrite Hr' in Hr. by injection Hr as <-.
Defined.

(** ** A component's state over the state it runs on *)

Section wrap.
Context {S B : Type} {LS : Lens S B} {LO : LensOk S B} {O : KOps B}.

Definition wrap_ops : KOps S := {|
  k_acquire lk := lift (k_acquire lk);
  k_release lk := lift (k_release lk);
  k_initlock lk nm := lift (k_initlock lk nm);
  k_sleep c lk := lift (k_sleep c lk);
  k_wakeup c := lift (k_wakeup c);
  k_getproc := lift k_getproc;
  k_setproc f := lift (k_setproc f)
|}.

Context {W : KLaws B}.

(** Only the inner state changes, within the inner frame. *)
Definition wrap_frame (s s' : S) : Prop := ∃ b', s' = put b' s ∧ k_frame (view s) b'.

#[global] Instance wrap_frame_preorder : PreOrder wrap_frame.
Proof.
  split.
  - intros s. exists (view s). by rewrite put_view.
  - intros s1 s2 s3 (b2 & -> & H2) (b3 & -> & H3). exists b3. rewrite put_put. split; [done|].
    rewrite view_put in H3. by etrans.
Qed.

Lemma lift_run {A} (m : K B A) s a b' : m (view s) = Ok a b' → lift m s = Ok a (put b' s).
Proof. unfold lift. by intros ->. Qed.

Definition wrap_laws : @KLaws S wrap_ops.
Proof.
  refine (@Build_KLaws S wrap_ops (λ L s, k_ok L (view s)) (λ s, k_self (view s))
    (λ s, k_me (view s)) wrap_frame _ _ _ _ _ _ _ _ _ _); simpl.
  - intros L s x. apply k_me_self.
  - intros L lk s HL Hlk. destruct (k_acquire_ok L lk (view s) HL Hlk) as (b' & Hr & Hok & Hf & Hs & Hm).
    exists (put b' s). rewrite !view_put. split_and!; [by apply lift_run|done|by exists b'|done|done].
  - intros L lk s HL Hlk. unfold lift. by rewrite (k_acquire_held L lk (view s) HL Hlk).
  - intros L lk nm s HL Hlk. destruct (k_initlock_ok L lk nm (view s) HL Hlk) as (b' & Hr & Hok & Hf & Hs & Hm).
    exists (put b' s). rewrite !view_put. split_and!; [by apply lift_run|done|by exists b'|done|done].
  - intros L lk s HL Hlk. destruct (k_release_ok L lk (view s) HL Hlk) as (b' & Hr & Hok & Hf & Hs & Hm).
    exists (put b' s). rewrite !view_put. split_and!; [by apply lift_run|done|by exists b'|done|done].
  - intros L c s HL Hlk. destruct (k_wakeup_ok L c (view s) HL Hlk) as (b' & Hr & Hok & Hf & Hs & Hm).
    exists (put b' s). rewrite !view_put. split_and!; [by apply lift_run|done|by exists b'|done|done].
  - intros c lk s x HL Hlk Hx.
    destruct (k_sleep_ok c lk (view s) x HL Hlk Hx) as (b1 & k & Hr & Hf & Hres).
    exists (put b1 s), (λ s', olift s' (k (view s'))). unfold lift at 1. rewrite Hr.
    split_and!; [done|by exists b1|]. intros s2 H2 Hx2.
    destruct (Hres (view s2) H2 Hx2) as (b3 & Hk & Hok3 & Hf3 & Hs3).
    exists (put b3 s2). rewrite Hk, !view_put. split_and!; [done|done|by exists b3|done].
  - intros L s x HL Hx. destruct (k_getproc_ok L (view s) x HL Hx) as (q & Hr & Hm).
    exists q. rewrite (lift_run _ _ _ _ Hr), put_view. done.
  - intros L s x f HL Hx Hf. destruct (k_setproc_ok L (view s) x f HL Hx Hf) as (b' & Hr & Hok & Hfr & Hs & Hm).
    exists (put b' s). rewrite !view_put. split_and!; [by apply lift_run|done|by exists b'|done|done].
Defined.

Definition wrap_wake {V : KWake B} : @KWake S wrap_ops wrap_laws.
Proof.
  refine (@Build_KWake S wrap_ops wrap_laws (λ s, k_asleep (view s)) (λ s, k_ready (view s)) _ _ _);
    intros L lk s s' HL Hlk; cbn; unfold lift.
  - destruct (k_acquire lk (view s)) as [[] b| | | |] eqn:E; intros Hr; try done. injection Hr as <-.
    rewrite view_put. by apply (kw_acquire L lk).
  - destruct (k_release lk (view s)) as [[] b| | | |] eqn:E; intros Hr; try done. injection Hr as <-.
    rewrite view_put. by apply (kw_release L lk).
  - destruct (k_wakeup lk (view s)) as [[] b| | | |] eqn:E; intros Hr; try done. injection Hr as <-.
    rewrite view_put. by apply (kw_wakeup L).
Defined.
End wrap.

(** ** Proof rules for code over the interface *)

Section rules.
Context {B : Type} {O : KOps B} {W : KLaws B}.
Implicit Types (E : env B) (b : B) (L : gset lockid).

(** The services that do not give up the processor leave the current process
    as it is. *)
Definition k_keep (b b' : B) : Prop := k_frame b b' ∧ k_self b' = k_self b ∧ k_me b' = k_me b.

#[global] Instance k_keep_preorder : PreOrder k_keep.
Proof.
  split; [by split|]. intros b1 b2 b3 (?&?&?) (?&?&?). split_and!; [by etrans|congruence|congruence].
Qed.

Lemma wp_k_acquire E L lk b (Q : unit → B → Prop) :
  k_ok L b → lk ∉ L →
  (∀ b', k_ok ({[lk]} ∪ L) b' → k_keep b b' → Q tt b') →
  wp E (k_acquire lk) Q b.
Proof.
  intros HL Hlk HQ. destruct (k_acquire_ok L lk b HL Hlk) as (b' & Hr & ?&?&?&?).
  eapply wp_ok; [done|]. by apply HQ.
Qed.

Lemma wp_k_release E L lk b (Q : unit → B → Prop) :
  k_ok L b → lk ∈ L →
  (∀ b', k_ok (L ∖ {[lk]}) b' → k_keep b b' → Q tt b') →
  wp E (k_release lk) Q b.
Proof.
  intros HL Hlk HQ. destruct (k_release_ok L lk b HL Hlk) as (b' & Hr & ?&?&?&?).
  eapply wp_ok; [done|]. by apply HQ.
Qed.

Lemma wp_k_wakeup E L c b (Q : unit → B → Prop) :
  k_ok L b → Lptable ∉ L →
  (∀ b', k_ok L b' → k_keep b b' → Q tt b') →
  wp E (k_wakeup c) Q b.
Proof.
  intros HL Hlk HQ. destruct (k_wakeup_ok L c b HL Hlk) as (b' & Hr & ?&?&?&?).
  eapply wp_ok; [done|]. by apply HQ.
Qed.

Lemma wp_k_sleep E c lk b x (Q : unit → B → Prop) :
  k_ok {[lk]} b → lk ≠ Lptable → k_self b = Some x →
  (∀ b1, k_frame b b1 → guar E b1 ∧ ∀ b2, rely E b1 b2 →
     k_ok {[Lptable]} b2 ∧ k_self b2 = Some x ∧
     ∀ b3, k_ok {[lk]} b3 → k_frame b2 b3 → k_self b3 = Some x → Q tt b3) →
  wp E (k_sleep c lk) Q b.
Proof.
  intros HL Hlk Hx HQ. destruct (k_sleep_ok c lk b x HL Hlk Hx) as (b1 & k & Hr & Hf & Hres).
  unfold wp. rewrite Hr. simpl. destruct (HQ b1 Hf) as [Hg Hrely]. split; [done|].
  intros b2 H2. destruct (Hrely b2 H2) as (Hok2 & Hx2 & Hpost).
  destruct (Hres b2 Hok2 Hx2) as (b3 & Hk & Hok3 & Hf3 & Hx3). rewrite Hk. simpl. auto.
Qed.

(** The same, with the state in which the thread is resumed. *)
Lemma wps_k_sleep E c lk b x (Q : B → unit → B → Prop) b0 :
  k_ok {[lk]} b → lk ≠ Lptable → k_self b = Some x →
  (∀ b1, k_frame b b1 → guar E b1 ∧ ∀ b2, rely E b1 b2 →
     k_ok {[Lptable]} b2 ∧ k_self b2 = Some x ∧
     ∀ b3, k_ok {[lk]} b3 → k_frame b2 b3 → k_self b3 = Some x → Q b2 tt b3) →
  wps E (k_sleep c lk) Q b0 b.
Proof.
  intros HL Hlk Hx HQ. destruct (k_sleep_ok c lk b x HL Hlk Hx) as (b1 & k & Hr & Hf & Hres).
  unfold wps. rewrite Hr. simpl. destruct (HQ b1 Hf) as [Hg Hrely]. split; [done|].
  intros b2 H2. destruct (Hrely b2 H2) as (Hok2 & Hx2 & Hpost).
  destruct (Hres b2 Hok2 Hx2) as (b3 & Hk & Hok3 & Hf3 & Hx3). rewrite Hk. simpl. auto.
Qed.
End rules.

(** ** The services as a wrapping component sees them *)

Section inner.
Context {S B : Type} {LS : Lens S B} {LO : LensOk S B} {O : KOps B} {W : KLaws B}.
Implicit Types (s : S) (L : gset lockid).

Lemma inner_acquire L lk s :
  k_ok L (view s) → lk ∉ L →
  ∃ b', @k_acquire S wrap_ops lk s = Ok tt (put b' s) ∧ k_ok ({[lk]} ∪ L) b' ∧ k_keep (view s) b'.
Proof.
  intros HL Hlk. destruct (k_acquire_ok L lk (view s) HL Hlk) as (b' & Hr & Hok & Hf & Hs & Hm).
  exists b'. split_and!; [by apply lift_run|done|by split_and!].
Qed.

Lemma inner_initlock L lk nm s :
  k_ok L (view s) → lk ∉ L →
  ∃ b', @k_initlock S wrap_ops lk nm s = Ok tt (put b' s) ∧ k_ok L b' ∧ k_keep (view s) b'.
Proof.
  intros HL Hlk. destruct (k_initlock_ok L lk nm (view s) HL Hlk) as (b' & Hr & Hok & Hf & Hs & Hm).
  exists b'. split_and!; [by apply lift_run|done|by split_and!].
Qed.

Lemma inner_release L lk s :
  k_ok L (view s) → lk ∈ L →
  ∃ b', @k_release S wrap_ops lk s = Ok tt (put b' s) ∧ k_ok (L ∖ {[lk]}) b' ∧ k_keep (view s) b'.
Proof.
  intros HL Hlk. destruct (k_release_ok L lk (view s) HL Hlk) as (b' & Hr & Hok & Hf & Hs & Hm).
  exists b'. split_and!; [by apply lift_run|done|by split_and!].
Qed.

Lemma inner_wakeup L c s :
  k_ok L (view s) → Lptable ∉ L →
  ∃ b', @k_wakeup S wrap_ops c s = Ok tt (put b' s) ∧ k_ok L b' ∧ k_keep (view s) b'.
Proof.
  intros HL Hlk. destruct (k_wakeup_ok L c (view s) HL Hlk) as (b' & Hr & Hok & Hf & Hs & Hm).
  exists b'. split_and!; [by apply lift_run|done|by split_and!].
Qed.
End inner.
