(* ===== verification/Kalloc.v ===== *)
(** * The physical page allocator (kalloc.c)

    The free pages form a list threaded through their own first words in the
    memory [memory]; [free_ok] describes it.  [kend] is the linker's [end], the
    first address after the kernel.  The state [kst B] adds memory and [kmem] to
    the state [B] that provides the locks. *)
From S2P Require Import Prelude Spinlock Str Ptable PtableLists Sched Choice Scheduling Services.

(** ** Data *)

Definition PGSIZE : Z := 4096.
Definition KERNBASE : Z := 0x80000000.
Definition PHYSTOP : Z := 0xE000000.
Definition EXTMEM : Z := 0x100000.
Definition DEVSPACE : Z := 0xFE000000.
Definition KERNLINK : Z := KERNBASE + EXTMEM.

Definition PGROUNDUP (sz : Z) : Z := Z.land (u32 (sz + PGSIZE - 1)) (Z.lnot (PGSIZE - 1)).
Definition PGROUNDDOWN (a : Z) : Z := Z.land a (Z.lnot (PGSIZE - 1)).
Definition v2p (a : Z) : Z := u32 (a - KERNBASE).
Definition p2v (a : Z) : Z := u32 (a + KERNBASE).

(** Memory, and the two fields of [kmem] besides its lock. *)
Record kst (B : Type) := Kst {
  kbase : B;
  memory : mem;
  freelist : Z;
  use_lock : bool
}.
Arguments Kst {B}.
Arguments kbase {B}.
Arguments memory {B}.
Arguments freelist {B}.
Arguments use_lock {B}.

Definition set_kbase {B} (b : B) (s : kst B) : kst B := Kst b (memory s) (freelist s) (use_lock s).
Definition set_memory {B} (m : mem) (s : kst B) : kst B := Kst (kbase s) m (freelist s) (use_lock s).
Definition set_freelist {B} (r : Z) (s : kst B) : kst B := Kst (kbase s) (memory s) r (use_lock s).
Definition set_use_lock {B} (u : bool) (s : kst B) : kst B := Kst (kbase s) (memory s) (freelist s) u.

#[global] Instance kst_base B : Lens (kst B) B := {| view := kbase; put := set_kbase |}.
#[global] Instance kst_base_ok B : LensOk (kst B) B.
Proof. by split; intros; try destruct s. Qed.
#[global] Instance kst_ops B {O : KOps B} : KOps (kst B) := wrap_ops.
#[global] Instance kst_laws B {O : KOps B} {W : KLaws B} : KLaws (kst B) := wrap_laws.

(** ** Operations *)

Section kalloc.
Context {B : Type} {O : KOps B} (kend : Z).

Definition kfree (v : Z) : K (kst B) unit :=
  panic_if (negb (v `mod` PGSIZE =? 0) || (v <? kend) || (v2p v >=? PHYSTOP)) "kfree";;
  modify (λ s, set_memory (memset (memory s) v 1 PGSIZE) s);;
  u ← gets use_lock;
  (if (u : bool) then k_acquire Lkmem else mret tt);;
  modify (λ s, set_memory (mwrite32 (memory s) v (freelist s)) s);;
  modify (set_freelist v);;
  u ← gets use_lock;
  if (u : bool) then k_release Lkmem else mret tt.

Definition kalloc : K (kst B) Z :=
  u ← gets use_lock;
  (if (u : bool) then k_acquire Lkmem else mret tt);;
  r ← gets freelist;
  (if negb (r =? 0) then modify (λ s, set_freelist (mread32 (memory s) r) s) else mret tt);;
  u ← gets use_lock;
  (if (u : bool) then k_release Lkmem else mret tt);;
  mret r.

(** The loop of [freerange], with one iteration more than there are pages. *)
Definition freerange (vstart vend : Z) : K (kst B) unit :=
  _ ← while (S (Z.to_nat (vend / PGSIZE))) (λ p,
    if u32 (p + PGSIZE) <=? vend then kfree p;; mret (inl (u32 (p + PGSIZE))) else mret (inr p))
    (PGROUNDUP vstart);
  mret tt.

Definition kinit1 (vstart vend : Z) : K (kst B) unit :=
  k_initlock Lkmem "kmem";;
  modify (set_use_lock false);;
  freerange vstart vend.

Definition kinit2 (vstart vend : Z) : K (kst B) unit :=
  freerange vstart vend;;
  modify (set_use_lock true).

(** A page the allocator manages. *)
Definition page (v : Z) : Prop :=
  v `mod` PGSIZE = 0 ∧ kend ≤ v ∧ KERNBASE ≤ v < KERNBASE + PHYSTOP.

(** Following the links stored in the pages from [h] visits the pages [l]. *)
Fixpoint run (m : mem) (h : Z) (l : list Z) : Prop :=
  match l with
  | [] => h = 0
  | v :: l' => h = v ∧ run m (mread32 m v) l'
  end.

Record free_ok (s : kst B) (l : list Z) : Prop := Free_ok {
  fo_run : run (memory s) (freelist s) l;
  fo_nodup : NoDup l;
  fo_page : Forall page l
}.

(** The lock is taken only once the machine has several CPUs. *)
Definition locks_ok {W : KLaws B} (L : gset lockid) (s : kst B) : Prop :=
  k_ok L (kbase s) ∧ (use_lock s = true → Lkmem ∉ L).
End kalloc.

(** ** Pages *)

Lemma PGROUNDDOWN_eq a : PGROUNDDOWN a = PGSIZE * (a / PGSIZE).
Proof.
  unfold PGROUNDDOWN. change (PGSIZE - 1) with (Z.ones 12). change PGSIZE with (2 ^ 12).
  rewrite <- Z.ldiff_land, Z.ldiff_ones_r, Z.shiftl_mul_pow2, Z.shiftr_div_pow2 by lia. lia.
Qed.

Lemma PGROUNDUP_eq a :
  0 ≤ a → a + PGSIZE - 1 < 2 ^ 32 → PGROUNDUP a = PGSIZE * ((a + PGSIZE - 1) / PGSIZE).
Proof.
  intros. unfold PGROUNDUP. rewrite u32_small by (unfold PGSIZE in *; lia). apply PGROUNDDOWN_eq.
Qed.

Lemma page_range kend v : page kend v → KERNBASE ≤ v < 2 ^ 32 ∧ v + PGSIZE ≤ KERNBASE + PHYSTOP.
Proof.
  unfold page, PGSIZE, KERNBASE, PHYSTOP. intros (Hm & _ & H). split; [lia|].
  pose proof (Z.div_mod v 4096 ltac:(lia)). lia.
Qed.

(** Distinct pages do not overlap. *)
Lemma page_disjoint kend v w x :
  page kend v → page kend w → v ≠ w → inrange v PGSIZE x = true → inrange w PGSIZE x = false.
Proof.
  unfold page, inrange, PGSIZE. intros (Hv & _) (Hw & _) Hne.
  pose proof (Z.div_mod v 4096 ltac:(lia)). pose proof (Z.div_mod w 4096 ltac:(lia)).
  rewrite andb_true_iff, andb_false_iff, Z.leb_le, Z.ltb_lt, Z.leb_gt, Z.ltb_ge. lia.
Qed.

Lemma inrange_word v x : inrange v 4 x = true → inrange v PGSIZE x = true.
Proof. unfold inrange, PGSIZE. rewrite !andb_true_iff, !Z.leb_le, !Z.ltb_lt. lia. Qed.

Lemma run_ext m m' l : ∀ h,
  (∀ v x, v ∈ l → inrange v 4 x = true → m' x = m x) → run m h l → run m' h l.
Proof.
  induction l as [|v l IH]; intros h Hext Hr; [done|]. destruct Hr as [-> Hr]. split; [done|].
  rewrite (mread32_ext m m') by (intros; eapply Hext; [by left|done]).
  apply IH; [|done]. intros w x Hw. apply Hext. by right.
Qed.

(** The [n] pages from [p]. *)
Fixpoint pages (p : Z) (n : nat) : list Z :=
  match n with O => [] | S n' => p :: pages (p + PGSIZE) n' end.

Section facts.
Context {B : Type} {O : KOps B} {W : KLaws B} (kend : Z).
Implicit Types (s : kst B) (L : gset lockid).

(** Writing in a page that is not on the list. *)
Lemma free_ok_outside s l v m :
  free_ok kend s l → page kend v → v ∉ l →
  (∀ x, inrange v PGSIZE x = false → m x = memory s x) →
  free_ok kend (set_memory m s) l.
Proof.
  intros [Hr Hn Hp] Hv Hvl Hm. split; [|done|done]. eapply run_ext; [|done].
  intros w x Hw Hx. apply Hm. rewrite Forall_forall in Hp.
  eapply (page_disjoint kend w v); [by apply Hp|done|congruence|by apply inrange_word].
Qed.

Definition kst_keep s s' : Prop := use_lock s' = use_lock s ∧ k_keep (kbase s) (kbase s').

Lemma wp_lock_kmem L s (Q : unit → kst B → Prop) :
  locks_ok L s →
  (∀ b', k_ok (if use_lock s then {[Lkmem]} ∪ L else L) b' → k_keep (kbase s) b' →
     Q tt (set_kbase b' s)) →
  wp total (if use_lock s then k_acquire Lkmem else mret tt) Q s.
Proof.
  intros [Hok Hlk] HQ. destruct (use_lock s) eqn:Eu.
  - apply (wp_k_acquire total L Lkmem s); [done|auto|].
    intros s' Hok' ((b' & -> & Hf) & Hs & Hm). by apply HQ.
  - apply wp_ret. replace s with (set_kbase (kbase s) s) by by destruct s. by apply HQ.
Qed.

Lemma wp_unlock_kmem L s (Q : unit → kst B → Prop) :
  k_ok (if use_lock s then {[Lkmem]} ∪ L else L) (kbase s) → (use_lock s = true → Lkmem ∉ L) →
  (∀ b', k_ok L b' → k_keep (kbase s) b' → Q tt (set_kbase b' s)) →
  wp total (if use_lock s then k_release Lkmem else mret tt) Q s.
Proof.
  intros Hok Hlk HQ. destruct (use_lock s) eqn:Eu.
  - apply (wp_k_release total ({[Lkmem]} ∪ L) Lkmem s); [done|set_solver|].
    intros s' Hok' ((b' & -> & Hf) & Hs & Hm). apply HQ; [|done].
    simpl in Hok'. by rewrite diff_union_lock in Hok' by auto.
  - apply wp_ret. replace s with (set_kbase (kbase s) s) by by destruct s. by apply HQ.
Qed.

Lemma kalloc_ok L s l :
  free_ok kend s l → locks_ok L s →
  ∃ s', kalloc s = Ok (default 0 (head l)) s' ∧ free_ok kend s' (tail l) ∧
    memory s' = memory s ∧ locks_ok L s' ∧ kst_keep s s'.
Proof.
  intros [Hr Hn Hp] HL. 
  assert (freelist s = default 0 (head l)) as Hfl by (destruct l; [done|by destruct Hr]).
  apply wp_run_val. unfold kalloc. wp_steps.
  apply (wp_lock_kmem L); [done|]. intros b1 Hb1 Hk1. wp_steps.
  set (s1 := set_kbase b1 s). change (freelist s1) with (freelist s). rewrite Hfl.
  set (s2 := set_freelist (match l with [] => freelist s | v :: _ => mread32 (memory s) v end) s1).
  assert (wp total (if negb (default 0 (head l) =? 0)
    then modify (λ s, set_freelist (mread32 (memory s) (default 0 (head l))) s) else mret tt)
    (λ _ s', s' = s2) s1) as Hpop.
  { destruct l as [|v l]; [by apply wp_ret|]. simpl default.
    rewrite Forall_cons in Hp. destruct Hp as [Hv _]. pose proof (page_range _ _ Hv).
    destruct (Z.eqb_spec v 0); [unfold KERNBASE in *; lia|]. by apply wp_modify. }
  eapply wp_mono; [|exact Hpop]. intros [] s' ->. wp_steps.
  apply (wp_unlock_kmem L); [done|apply HL|]. intros b3 Hb3 Hk3. wp_steps.
  split; [done|]. split_and!.
  - destruct l as [|v l]; [by split|]. destruct Hr as [_ Hr]. rewrite NoDup_cons in Hn.
    rewrite Forall_cons in Hp. split; [done|apply Hn|apply Hp].
  - done.
  - split; [done|apply HL].
  - split; [done|]. by etrans.
Qed.

Lemma free_ok_freelist s l : free_ok kend s l → 0 ≤ freelist s < 2 ^ 32.
Proof.
  intros [Hr _ Hp]. destruct l as [|v l]; simpl in Hr; [lia|]. destruct Hr as [-> _].
  rewrite Forall_cons in Hp. destruct Hp as [Hv _]. apply page_range in Hv. unfold KERNBASE in *. lia.
Qed.

Lemma kfree_check v : page kend v → negb (v `mod` PGSIZE =? 0) || (v <? kend) || (v2p v >=? PHYSTOP) = false.
Proof.
  unfold page, v2p. intros (-> & Hk & Hr). rewrite u32_small by (unfold KERNBASE, PHYSTOP in *; lia).
  simpl. apply orb_false_iff. rewrite Z.ltb_ge, Z.geb_leb, Z.leb_gt. lia.
Qed.

(** Pushing a page that has been filled with junk. *)
Lemma free_ok_push s l v m :
  free_ok kend s l → page kend v → v ∉ l →
  (∀ x, inrange v PGSIZE x = false → m x = memory s x) → mread32 m v = freelist s →
  free_ok kend (set_freelist v (set_memory m s)) (v :: l).
Proof.
  intros Hf Hv Hvl Hm Hread. pose proof (free_ok_outside s l v m Hf Hv Hvl Hm) as [Hr Hn Hp].
  split; simpl in *; [|by apply NoDup_cons|by constructor]. split; [done|]. by rewrite Hread.
Qed.

Lemma kfree_ok L s l v :
  free_ok kend s l → page kend v → v ∉ l → locks_ok L s →
  ∃ s', kfree kend v s = Ok tt s' ∧ free_ok kend s' (v :: l) ∧
    (∀ x, inrange v PGSIZE x = false → memory s' x = memory s x) ∧ locks_ok L s' ∧ kst_keep s s'.
Proof.
  intros Hf Hv Hvl HL. apply wp_run. unfold kfree. rewrite (kfree_check v Hv).
  wp_step. wp_step; [done|]. wp_steps. set (s1 := set_memory _ s).
  apply (wp_lock_kmem L); [exact HL|]. intros b1 Hb1 Hk1. wp_steps.
  set (m2 := mwrite32 _ v _). apply (wp_unlock_kmem L); [done|apply HL|]. intros b3 Hb3 Hk3.
  assert (∀ x, inrange v PGSIZE x = false → m2 x = memory s x) as Hm2.
  { intros x Hx. unfold m2. rewrite mwrite32_other.
    - simpl. by rewrite memset_spec, Hx by (unfold PGSIZE; lia).
    - destruct (inrange v 4 x) eqn:E; [|done]. by rewrite (inrange_word _ _ E) in Hx. }
  assert (free_ok kend (set_freelist v (set_memory m2 s)) (v :: l)) as [Hr Hn Hp].
  { apply free_ok_push; [done..|]. unfold m2. rewrite mread32_mwrite32. simpl.
    apply u32_small. by eapply free_ok_freelist. }
  split_and!; [by split|done|split; [done|apply HL]|split; [done|by etrans]].
Qed.

Lemma kfree_bad s v :
  negb (v `mod` PGSIZE =? 0) || (v <? kend) || (v2p v >=? PHYSTOP) = true →
  kfree kend v s = Panic "kfree".
Proof. intros H. unfold kfree. rewrite H. done. Qed.

Lemma elem_of_pages n : ∀ p v, v ∈ pages p n → p ≤ v ∧ v + PGSIZE ≤ p + PGSIZE * Z.of_nat n.
Proof.
  unfold PGSIZE. induction n as [|n IH]; intros p v H; simpl in H; [set_solver|].
  apply elem_of_cons in H as [->|H]; [lia|]. apply IH in H. unfold PGSIZE in *. lia.
Qed.

Definition freerange_step (vend p : Z) : K (kst B) (Z + Z) :=
  if u32 (p + PGSIZE) <=? vend then kfree kend p;; mret (inl (u32 (p + PGSIZE))) else mret (inr p).

Lemma freerange_step_go vend p s s1 :
  0 ≤ p → p + PGSIZE < 2 ^ 32 → p + PGSIZE ≤ vend → kfree kend p s = Ok tt s1 →
  freerange_step vend p s = Ok (inl (p + PGSIZE)) s1.
Proof.
  intros H0 Hw Hle Hr. unfold freerange_step. rewrite u32_small by (unfold PGSIZE in *; lia).
  destruct (Z.leb_spec (p + PGSIZE) vend); [|lia]. by rewrite (bind_ok _ _ _ _ _ Hr).
Qed.

Lemma freerange_step_stop vend p s :
  0 ≤ p → p + PGSIZE < 2 ^ 32 → vend < p + PGSIZE → freerange_step vend p s = Ok (inr p) s.
Proof.
  intros H0 Hw Hlt. unfold freerange_step. rewrite u32_small by (unfold PGSIZE in *; lia).
  destruct (Z.leb_spec (p + PGSIZE) vend); [lia|done].
Qed.

Lemma freerange_loop L vend n : ∀ fuel s l p,
  free_ok kend s l → locks_ok L s → (n < fuel)%nat →
  p `mod` PGSIZE = 0 → kend ≤ p → KERNBASE ≤ p → vend ≤ KERNBASE + PHYSTOP →
  ((0 < n)%nat → p + PGSIZE * Z.of_nat n ≤ vend) → vend < p + PGSIZE * (Z.of_nat n + 1) →
  p ≤ KERNBASE + PHYSTOP + PGSIZE →
  (∀ v, v ∈ l → v ∉ pages p n) →
  ∃ s' p', while fuel (freerange_step vend) p s = Ok p' s' ∧
    free_ok kend s' (rev (pages p n) ++ l) ∧ locks_ok L s' ∧ kst_keep s s'.
Proof.
  induction n as [|n IH]; intros fuel s l p Hf HL Hfuel Hal Hk Hkb Hend Hn Hlt Hp Hl;
    (destruct fuel as [|fuel]; [lia|]); cbn [while];
    assert (0 ≤ p ∧ p + PGSIZE < 2 ^ 32) as [H0 Hw] by (unfold KERNBASE, PHYSTOP, PGSIZE in *; lia).
  - rewrite (bind_ok _ _ _ _ _ (freerange_step_stop vend p s H0 Hw ltac:(lia))).
    exists s, p. split_and!; [done|done|done|]. by split.
  - assert (p + PGSIZE ≤ vend) as Hle by (unfold PGSIZE in *; lia).
    assert (page kend p) as Hpg by (unfold page, PGSIZE in *; lia).
    destruct (kfree_ok L s l p Hf Hpg) as (s1 & Hr1 & Hf1 & _ & HL1 & Hk1).
    { intros Hin. apply (Hl p Hin). left. }
    { done. }
    destruct (IH fuel s1 (p :: l) (p + PGSIZE)) as (s2 & p2 & Hr2 & Hf2 & HL2 & Hk2);
      [done|done|lia| | | |done| | | | |].
    + rewrite <- Hal, <- (Z.mul_1_l PGSIZE) at 1. by rewrite Z_mod_plus_full.
    + unfold PGSIZE in *. lia.
    + unfold PGSIZE in *. lia.
    + unfold PGSIZE in *. lia.
    + unfold PGSIZE in *. lia.
    + unfold PGSIZE in *. lia.
    + intros v [->|Hv]%elem_of_cons Hin.
      * apply elem_of_pages in Hin. unfold PGSIZE in *. lia.
      * apply (Hl v Hv). by right.
    + exists s2, p2. split_and!; [|simpl; by rewrite <- app_assoc|done|].
      * by rewrite (bind_ok _ _ _ _ _ (freerange_step_go vend p s s1 H0 Hw Hle Hr1)).
      * destruct Hk1, Hk2. split; [congruence|by etrans].
Qed.

Lemma PGROUNDUP_bounds a :
  0 ≤ a → a + PGSIZE - 1 < 2 ^ 32 →
  PGROUNDUP a `mod` PGSIZE = 0 ∧ a ≤ PGROUNDUP a < a + PGSIZE.
Proof.
  intros H0 Hw. rewrite PGROUNDUP_eq by done. unfold PGSIZE in *.
  split; [rewrite Z.mul_comm; apply Z_mod_mult|].
  pose proof (Z.div_mod (a + 4096 - 1) 4096 ltac:(lia)).
  pose proof (Z.mod_pos_bound (a + 4096 - 1) 4096 ltac:(lia)). lia.
Qed.

(** How many whole pages lie between [vstart] and [vend]. *)
Definition page_count (vstart vend : Z) : nat := Z.to_nat ((vend - PGROUNDUP vstart) / PGSIZE).

Lemma freerange_ok L s l vstart vend :
  free_ok kend s l → locks_ok L s → kend ≤ vstart → KERNBASE ≤ vstart ≤ vend →
  vend ≤ KERNBASE + PHYSTOP → (∀ v, v ∈ l → v ∉ pages (PGROUNDUP vstart) (page_count vstart vend)) →
  ∃ s', freerange kend vstart vend s = Ok tt s' ∧
    free_ok kend s' (rev (pages (PGROUNDUP vstart) (page_count vstart vend)) ++ l) ∧
    locks_ok L s' ∧ kst_keep s s'.
Proof.
  intros Hf HL Hk Hs He Hl. set (p := PGROUNDUP vstart) in *. set (n := page_count vstart vend) in *.
  destruct (PGROUNDUP_bounds vstart) as [Hal Hp];
    [unfold KERNBASE in *; lia|unfold KERNBASE, PHYSTOP, PGSIZE in *; lia|]. fold p in Hal, Hp.
  assert (((0 < n)%nat → p + PGSIZE * Z.of_nat n ≤ vend) ∧ vend < p + PGSIZE * (Z.of_nat n + 1)) as [H1 H2].
  { unfold n, page_count. fold p. unfold PGSIZE in *.
    pose proof (Z.div_mod (vend - p) 4096 ltac:(lia)).
    pose proof (Z.mod_pos_bound (vend - p) 4096 ltac:(lia)). lia. }
  destruct (freerange_loop L vend n (S (Z.to_nat (vend / PGSIZE))) s l p) as (s' & p' & Hr & H);
    [done|done| |done|lia|lia|done|done|done|unfold PGSIZE in *; lia|done|].
  { unfold n, page_count. fold p. 
    pose proof (Z.div_le_mono (vend - p) vend PGSIZE ltac:(unfold PGSIZE; lia)
      ltac:(unfold KERNBASE in *; lia)). lia. }
  exists s'. split; [|done]. unfold freerange. fold p. by rewrite (bind_ok _ _ _ _ _ Hr).
Qed.

(** ** The allocator and its clients

    Pages in use and what their owners may do: allocate, free a page they own,
    write in a page they own. *)
Inductive client : kst B * list Z → kst B * list Z → Prop :=
| c_alloc s o v s' : kalloc s = Ok v s' → v ≠ 0 → client (s, o) (s', v :: o)
| c_fail s o s' : kalloc s = Ok 0 s' → client (s, o) (s', o)
| c_free s o1 v o2 s' : kfree kend v s = Ok tt s' → client (s, o1 ++ v :: o2) (s', o1 ++ o2)
| c_write s o v m : v ∈ o → (∀ x, inrange v PGSIZE x = false → m x = memory s x) →
    client (s, o) (set_memory m s, o).

(** The pages [P] are shared out between the owners and the free list. *)
Definition client_inv (L : gset lockid) (P : list Z) (x : kst B * list Z) : Prop :=
  ∃ l, free_ok kend x.1 l ∧ locks_ok L x.1 ∧ x.2 ++ l ≡ₚ P.

Lemma client_preserves L P x y :
  NoDup P → Forall (page kend) P → client_inv L P x → client x y → client_inv L P y.
Proof.
  intros Hn HP (l & Hf & HL & Hperm) Hstep. rewrite <- Hperm in Hn, HP.
  destruct Hstep as [s o v s' Hr Hv|s o s' Hr|s o1 v o2 s' Hr|s o v m Hv Hm]; simpl in *.
  - destruct (kalloc_ok L s l Hf HL) as (s2 & Hr2 & Hf2 & _ & HL2 & _). rewrite Hr in Hr2.
    injection Hr2 as -> ->. exists (tail l). split_and!; [done|done|].
    destruct l as [|w l]; [done|]. simpl. by rewrite <- Hperm, <- Permutation_middle.
  - destruct (kalloc_ok L s l Hf HL) as (s2 & Hr2 & Hf2 & _ & HL2 & _). rewrite Hr in Hr2.
    injection Hr2 as Hv ->. destruct l as [|w l]; [by exists []|]. simpl in Hv. subst w. exfalso.
    apply fo_page in Hf. rewrite Forall_cons in Hf. destruct Hf as [Hpg _]. apply page_range in Hpg.
    unfold KERNBASE in *. lia.
  - rewrite <- app_assoc in Hn, HP. simpl in Hn, HP. rewrite <- Permutation_middle in Hn, HP.
    rewrite NoDup_cons in Hn. rewrite Forall_cons in HP.
    destruct (kfree_ok L s l v Hf) as (s2 & Hr2 & Hf2 & _ & HL2 & _); [tauto|set_solver|done|].
    rewrite Hr in Hr2. injection Hr2 as ->. exists (v :: l). split_and!; [done|done|].
    rewrite <- Hperm. cbn [fst snd]. rewrite <- (app_assoc o1 o2), <- (app_assoc o1 (v :: o2)).
    apply Permutation_app_head. symmetry. apply Permutation_middle.
  - apply NoDup_app in Hn as (_ & Hd & _). apply Forall_app in HP as [Ho _].
    exists l. split_and!; [|done|done]. rewrite Forall_forall in Ho.
    apply (free_ok_outside s l v m Hf); [by apply Ho|by apply Hd|done].
Qed.

Lemma client_reachable L s0 P s o :
  free_ok kend s0 P → locks_ok L s0 → rtc client (s0, []) (s, o) → client_inv L P (s, o).
Proof.
  intros Hf HL. pose proof (fo_nodup _ _ _ Hf) as Hn. pose proof (fo_page _ _ _ Hf) as HP.
  intros Hr. eapply (rtc_preserves client (client_inv L P)); [|exact Hr|by exists P].
  intros x y Hx Hstep. by eapply client_preserves.
Qed.
End facts.

(** ** Properties *)

(** C12: whatever sequence of allocations, frees of owned pages and writes into owned
    pages its clients perform, the allocator never hands out a page that is in
    use, loses no page and invents none: the pages in use are distinct pages of
    the initial pool; the next [kalloc] returns a pool page nobody uses, and
    fails only when all are in use; and [kfree] of a page in use never panics,
    while an unaligned address or one outside the pool's range does. *)
Theorem kalloc_no_sharing {B} {O : KOps B} {W : KLaws B} kend L (s0 : kst B) P s o :
  free_ok kend s0 P → locks_ok L s0 → rtc (client kend) (s0, []) (s, o) →
  NoDup o ∧ (∀ v, v ∈ o → v ∈ P) ∧
  (∃ v s', kalloc s = Ok v s' ∧ (v = 0 ↔ length o = length P) ∧ (v ≠ 0 → v ∈ P ∧ v ∉ o)) ∧
  (∀ v, v ∈ o → ∃ s', kfree kend v s = Ok tt s') ∧
  (∀ v, v `mod` PGSIZE ≠ 0 ∨ v < kend ∨ PHYSTOP ≤ v2p v → kfree kend v s = Panic "kfree").
Proof.
  intros Hf0 HL0 Hr. destruct (client_reachable kend L s0 P s o Hf0 HL0 Hr) as (l & Hf & HL & Hperm).
  simpl in *. pose proof (fo_nodup _ _ _ Hf0) as Hn. pose proof (fo_page _ _ _ Hf0) as HP.
  rewrite <- Hperm in Hn, HP. pose proof (Permutation_length Hperm) as Hlen. rewrite length_app in Hlen.
  apply NoDup_app in Hn as (Hno & Hd & _). apply Forall_app in HP as [HPo HPl].
  split_and!; [done|intros v Hv; rewrite <- Hperm; set_solver| | |].
  - destruct (kalloc_ok kend L s l Hf HL) as (s' & Hs' & _). exists (default 0 (head l)), s'.
    split; [done|]. destruct l as [|w l]; simpl in *; [split; [lia|done]|].
    rewrite Forall_cons in HPl. destruct HPl as [Hw _]. pose proof (page_range _ _ Hw) as Hrange.
    split; [unfold KERNBASE in *; lia|]. intros _. split; [rewrite <- Hperm; set_solver|].
    intros Hin. by apply (Hd w Hin), list_elem_of_here.
  - intros v Hv. rewrite Forall_forall in HPo.
    destruct (kfree_ok kend L s l v Hf) as (s' & Hs' & _); eauto.
  - intros v Hv. apply kfree_bad. apply orb_true_iff. rewrite orb_true_iff, negb_true_iff, Z.eqb_neq.
    rewrite Z.ltb_lt, Z.geb_leb, Z.leb_le. tauto.
Qed.

(** A pool of two pages above a kernel that ends at 0x80116000. *)
Definition pool : list Z := [0x80401000; 0x80400000].
Definition kst1 : kst pst :=
  Kst (Table.table mach0 100) (mwrite32 (λ _, 0) 0x80401000 0x80400000) 0x80401000 true.

Lemma table_ok : pst_ok ∅ (Table.table mach0 100).
Proof.
  split; [eexists _, _; apply Table.queues_fine|exact mach0_holds|].
  intros x [= <-]. exists 1. reflexivity.
Qed.

Lemma pool_free : free_ok 0x80116000 kst1 pool.
Proof.
  split.
  - split; [reflexivity|]. split; [|reflexivity]. vm_compute. reflexivity.
  - apply NoDup_cons; split; [set_solver|apply NoDup_singleton].
  - repeat constructor; unfold page, PGSIZE, KERNBASE, PHYSTOP; (lia || reflexivity).
Qed.

Lemma kst1_locks : locks_ok ∅ kst1.
Proof. split; [exact table_ok|set_solver]. Qed.

Lemma kalloc_no_sharing_witness :
  ∃ s, kalloc kst1 = Ok 0x80401000 s ∧
    (∃ v s', kalloc s = Ok v s' ∧ v ≠ 0x80401000 ∧ v ∈ pool).
Proof.
  destruct (kalloc_ok 0x80116000 ∅ kst1 pool pool_free kst1_locks) as (s & Hr & _).
  exists s. split; [exact Hr|].
  destruct (kalloc_no_sharing 0x80116000 ∅ kst1 pool s [0x80401000] pool_free kst1_locks) as
    (_ & _ & (v & s' & Hr' & Hv & Hin) & _).
  - apply rtc_once. apply c_alloc; [exact Hr|discriminate].
  - assert (v ≠ 0) as Hne by (intros ->; discriminate (proj1 Hv eq_refl)).
    exists v, s'. split; [exact Hr'|]. split; [|apply Hin, Hne].
    intros ->. apply Hin; [exact Hne|left].
Defined.

(** [freerange] puts every whole page between its arguments on the free list,
    once each, in front of what was there, and touches nothing else. *)
Theorem freerange_frees {B} {O : KOps B} {W : KLaws B} kend L (s : kst B) l vstart vend :
  free_ok kend s l → locks_ok L s → kend ≤ vstart → KERNBASE ≤ vstart ≤ vend →
  vend ≤ KERNBASE + PHYSTOP → (∀ v, v ∈ l → v ∉ pages (PGROUNDUP vstart) (page_count vstart vend)) →
  ∃ s', freerange kend vstart vend s = Ok tt s' ∧
    free_ok kend s' (rev (pages (PGROUNDUP vstart) (page_count vstart vend)) ++ l) ∧
    locks_ok L s' ∧ kst_keep s s'.
Proof. apply freerange_ok. Qed.

Lemma freerange_frees_witness :
  ∃ s', freerange 0x80116000 0x80402001 0x80405000 kst1 = Ok tt s' ∧
    free_ok 0x80116000 s' [0x80404000; 0x80403000; 0x80401000; 0x80400000].
Proof.
  destruct (freerange_frees 0x80116000 ∅ kst1 pool 0x80402001 0x80405000) as (s' & Hr & Hf & _).
  - exact pool_free.
  - exact kst1_locks.
  - lia.
  - unfold KERNBASE. lia.
  - unfold KERNBASE, PHYSTOP. lia.
  - intros v Hv Hp. vm_compute in Hp. set_solver.
  - exists s'. split; [exact Hr|exact Hf].
Defined.
