(* ===== verification/Bio.v ===== *)
(** * The buffer cache (bio.c, buf.h) over the in-memory disk (memide.c)

    [bcache] is a table of [NBUF] buffers and the list head, linked in a ring
    through [b_prev] and [b_next]; a [struct buf *] is an index into the table,
    the head having index [NBUF].  The disk is the list of its blocks; [writes]
    records the block writes in the order they reached it (what a crash may
    cut short). *)
From S2P Require Import Prelude Spinlock Str Ptable PtableLists Sched Services.

(** ** Data *)

Definition BSIZE : nat := 512.
Definition B_BUSY : Z := 0x1.
Definition B_VALID : Z := 0x2.
Definition B_DIRTY : Z := 0x4.

Definition block : Type := list Z.

Record buf := Buf {
  b_flags : Z;
  b_dev : Z;
  b_blockno : Z;
  b_prev : nat;
  b_next : nat;
  b_qnext : option nat;
  b_data : block
}.

Definition set_b_flags (x : Z) (b : buf) : buf :=
  Buf x (b_dev b) (b_blockno b) (b_prev b) (b_next b) (b_qnext b) (b_data b).
Definition set_b_dev (x : Z) (b : buf) : buf :=
  Buf (b_flags b) x (b_blockno b) (b_prev b) (b_next b) (b_qnext b) (b_data b).
Definition set_b_blockno (x : Z) (b : buf) : buf :=
  Buf (b_flags b) (b_dev b) x (b_prev b) (b_next b) (b_qnext b) (b_data b).
Definition set_b_prev (x : nat) (b : buf) : buf :=
  Buf (b_flags b) (b_dev b) (b_blockno b) x (b_next b) (b_qnext b) (b_data b).
Definition set_b_next (x : nat) (b : buf) : buf :=
  Buf (b_flags b) (b_dev b) (b_blockno b) (b_prev b) x (b_qnext b) (b_data b).
Definition set_b_qnext (x : option nat) (b : buf) : buf :=
  Buf (b_flags b) (b_dev b) (b_blockno b) (b_prev b) (b_next b) x (b_data b).
Definition set_b_data (x : block) (b : buf) : buf :=
  Buf (b_flags b) (b_dev b) (b_blockno b) (b_prev b) (b_next b) (b_qnext b) x.

(** Flag tests [b->flags & F]. *)
Definition flag (f : Z) (b : buf) : bool := negb (Z.land (b_flags b) f =? 0).

(** The index of [bcache.head]. *)
Definition bhead : nat := NBUF.

Record bst (B : Type) := Bst {
  bbase : B;
  bufs : list buf;
  disk : list block;
  writes : list (Z * block)
}.
Arguments Bst {B}.
Arguments bbase {B}.
Arguments bufs {B}.
Arguments disk {B}.
Arguments writes {B}.

Definition set_bbase {B} (b : B) (s : bst B) : bst B := Bst b (bufs s) (disk s) (writes s).
Definition set_bufs {B} (x : list buf) (s : bst B) : bst B := Bst (bbase s) x (disk s) (writes s).
Definition set_disk {B} (x : list block) (s : bst B) : bst B := Bst (bbase s) (bufs s) x (writes s).
Definition set_writes {B} (x : list (Z * block)) (s : bst B) : bst B := Bst (bbase s) (bufs s) (disk s) x.

#[global] Instance bst_base B : Lens (bst B) B := {| view := bbase; put := set_bbase |}.
#[global] Instance bst_base_ok B : LensOk (bst B) B.
Proof. by split; intros; try destruct s. Qed.
#[global] Instance bst_ops B {O : KOps B} : KOps (bst B) := wrap_ops.
#[global] Instance bst_laws B {O : KOps B} {W : KLaws B} : KLaws (bst B) := wrap_laws.

Definition getb {B} (i : nat) : K (bst B) buf := λ s,
  match bufs s !! i with Some b => Ok b s | None => Fault end.

Definition setb {B} (i : nat) (f : buf → buf) : K (bst B) unit := λ s,
  match bufs s !! i with
  | Some b => Ok tt (set_bufs (<[i := f b]> (bufs s)) s)
  | None => Fault
  end.

(** ** The disk *)

(** memide.c: the image is linked into the kernel; [p] addresses its block
    [blockno]. *)
Definition iderw {B} (i : nat) : K (bst B) unit :=
  b ← getb i;
  panic_if (negb (flag B_BUSY b)) "iderw: buf not busy";;
  panic_if (Z.land (b_flags b) (Z.lor B_VALID B_DIRTY) =? B_VALID) "iderw: nothing to do";;
  panic_if (negb (b_dev b =? 1)) "iderw: request not for disk 1";;
  disksize ← gets (λ s, Z.of_nat (length (disk s)));
  panic_if (b_blockno b >=? disksize) "iderw: block out of range";;
  (if flag B_DIRTY b then
     setb i (λ b, set_b_flags (Z.ldiff (b_flags b) B_DIRTY) b);;
     b' ← getb i;
     modify (λ s, set_writes (writes s ++ [(b_blockno b', b_data b')])
       (set_disk (<[Z.to_nat (b_blockno b') := b_data b']> (disk s)) s))
   else
     s ← get;
     p ← deref (disk s !! Z.to_nat (b_blockno b));
     setb i (set_b_data p));;
  setb i (λ b, set_b_flags (Z.lor (b_flags b) B_VALID) b).

Section bio.
Context {B : Type} {O : KOps B}.

(** ** The cache *)

Definition binit : K (bst B) unit :=
  k_initlock Lbcache "bcache";;
  setb bhead (set_b_prev bhead);;
  setb bhead (set_b_next bhead);;
  for_each (seq 0 NBUF) (λ b,
    h ← getb bhead;
    setb b (set_b_next (b_next h));;
    setb b (set_b_prev bhead);;
    setb b (set_b_dev (u32 (-1)));;
    h ← getb bhead;
    setb (b_next h) (set_b_prev b);;
    setb bhead (set_b_next b)).

(** The first loop of [bget]: the first buffer after the head with the block. *)
Definition find_cached (dev blockno : Z) : K (bst B) (option nat) :=
  h ← getb bhead;
  r ← while (S NBUF) (λ b,
    if (b =? bhead)%nat then mret (inr b)
    else
      x ← getb b;
      if (b_dev x =? dev) && (b_blockno x =? blockno) then mret (inr b) else mret (inl (b_next x)))
    (b_next h);
  mret (if (r =? bhead)%nat then None else Some r).

(** The second loop: the first buffer before the head that is neither busy nor
    dirty. *)
Definition find_clean : K (bst B) (option nat) :=
  h ← getb bhead;
  r ← while (S NBUF) (λ b,
    if (b =? bhead)%nat then mret (inr b)
    else
      x ← getb b;
      if negb (flag B_BUSY x) && negb (flag B_DIRTY x) then mret (inr b) else mret (inl (b_prev x)))
    (b_prev h);
  mret (if (r =? bhead)%nat then None else Some r).

(** From the label [loop] of [bget] on: the buffer, or [None] for [goto loop]. *)
Definition bget_try (dev blockno : Z) : K (bst B) (option nat) :=
  c ← find_cached dev blockno;
  match c with
  | Some b =>
      x ← getb b;
      if negb (flag B_BUSY x) then
        setb b (λ x, set_b_flags (Z.lor (b_flags x) B_BUSY) x);;
        k_release Lbcache;;
        mret (Some b)
      else
        k_sleep (ChBuf b) Lbcache;;
        mret None
  | None =>
      v ← find_clean;
      match v with
      | Some b =>
          setb b (set_b_dev dev);;
          setb b (set_b_blockno blockno);;
          setb b (set_b_flags B_BUSY);;
          k_release Lbcache;;
          mret (Some b)
      | None => panic "bget: no buffers"
      end
  end.

(** [retries]: how often the thread may be woken without getting the buffer. *)
Definition bget (retries : nat) (dev blockno : Z) : K (bst B) nat :=
  k_acquire Lbcache;;
  while (S retries) (λ _ : nat,
    r ← bget_try dev blockno;
    match r with Some b => mret (inr b) | None => mret (inl 0%nat) end) 0%nat.

Definition bread (retries : nat) (dev blockno : Z) : K (bst B) nat :=
  b ← bget retries dev blockno;
  x ← getb b;
  (if negb (flag B_VALID x) then iderw b else mret tt);;
  mret b.

Definition bwrite (b : nat) : K (bst B) unit :=
  x ← getb b;
  panic_if (negb (flag B_BUSY x)) "bwrite";;
  setb b (λ x, set_b_flags (Z.lor (b_flags x) B_DIRTY) x);;
  iderw b.

(** The pointer assignments of [brelse]: out of the ring, and in again behind
    the head. *)
Definition move_to_front (b : nat) : K (bst B) unit :=
  x ← getb b;
  setb (b_next x) (set_b_prev (b_prev x));;
  x ← getb b;
  setb (b_prev x) (set_b_next (b_next x));;
  h ← getb bhead;
  setb b (set_b_next (b_next h));;
  setb b (set_b_prev bhead);;
  h ← getb bhead;
  setb (b_next h) (set_b_prev b);;
  setb bhead (set_b_next b).

Definition brelse (b : nat) : K (bst B) unit :=
  x ← getb b;
  panic_if (negb (flag B_BUSY x)) "brelse";;
  k_acquire Lbcache;;
  move_to_front b;;
  setb b (λ x, set_b_flags (Z.ldiff (b_flags x) B_BUSY) x);;
  k_wakeup (ChBuf b);;
  k_release Lbcache.
End bio.
