(* ===== verification/BioRing.v ===== *)
(** * Doubly linked rings

    [seg N P a l z]: from node [a], the forward links [N] visit the nodes [l]
    and then [z], and the backward links [P] lead back.  A ring through a head
    node [h] is a segment from [h] to [h]. *)
From S2P Require Import Prelude.

Section seg.
Implicit Types (N P : nat → nat) (l : list nat).

Fixpoint seg N P (a : nat) l (z : nat) : Prop :=
  match l with
  | [] => N a = z ∧ P z = a
  | x :: l' => N a = x ∧ P x = a ∧ seg N P x l' z
  end.

(** [f] with the value at [i] replaced. *)
Definition upd (i v : nat) (f : nat → nat) : nat → nat := λ j, if (j =? i)%nat then v else f j.

Lemma upd_eq i v f : upd i v f i = v.
Proof. unfold upd. by rewrite Nat.eqb_refl. Qed.

Lemma upd_ne i v f j : j ≠ i → upd i v f j = f j.
Proof. unfold upd. by destruct (Nat.eqb_spec j i). Qed.

Lemma seg_app N P l1 : ∀ a x l2 z,
  seg N P a (l1 ++ x :: l2) z ↔ seg N P a l1 x ∧ seg N P x l2 z.
Proof. induction l1 as [|y l1 IH]; intros a x l2 z; simpl; [tauto|]. rewrite IH. tauto. Qed.

Lemma seg_ext N P N' P' l : ∀ a z,
  (∀ x, x ∈ a :: l → N' x = N x) → (∀ y, y ∈ l ++ [z] → P' y = P y) →
  seg N P a l z → seg N' P' a l z.
Proof.
  induction l as [|y l IH]; intros a z HN HP; simpl.
  - rewrite HN, HP by set_solver. done.
  - rewrite HN, HP by set_solver. intros (H1 & H2 & H3). split_and!; [done|done|].
    apply IH; [set_solver|set_solver|done].
Qed.

(** The last node before the end. *)
Definition tailof (a : nat) l : nat := List.last l a.

Lemma tailof_cons a x l : tailof a (x :: l) = tailof x l.
Proof.
  unfold tailof. revert a x. induction l as [|y l IH]; intros a x; [done|].
  change (List.last (x :: y :: l) a) with (List.last (y :: l) a). by rewrite !IH.
Qed.

Lemma tailof_in a l : tailof a l ∈ a :: l.
Proof.
  revert a. induction l as [|x l IH]; intros a; [by left|]. rewrite tailof_cons. right. apply IH.
Qed.

Lemma seg_end N P l : ∀ a z, seg N P a l z → N (tailof a l) = z ∧ P z = tailof a l.
Proof.
  induction l as [|x l IH]; intros a z; [done|]. rewrite tailof_cons. intros (_ & _ & H). by apply IH.
Qed.

(** Letting the segment end at [z'] instead. *)
Lemma seg_retarget N P l : ∀ a z z',
  NoDup (a :: l) → z' ∉ l → seg N P a l z →
  seg (upd (tailof a l) z' N) (upd z' (tailof a l) P) a l z'.
Proof.
  induction l as [|x l IH]; intros a z z' Hnd Hz Hs.
  - simpl. by rewrite !upd_eq.
  - destruct Hs as (H1 & H2 & H3). rewrite tailof_cons. rewrite NoDup_cons in Hnd. destruct Hnd as [Ha Hnd].
    pose proof (tailof_in x l) as Ht. simpl. split_and!.
    + rewrite upd_ne; [done|]. intros ->. by apply Ha.
    + rewrite upd_ne by set_solver. done.
    + eapply IH; [done|set_solver|done].
Qed.

(** Taking [b] out of the ring. *)
Lemma ring_unlink N P h l1 b l2 :
  NoDup (h :: l1 ++ b :: l2) → seg N P h (l1 ++ b :: l2) h →
  seg (upd (P b) (N b) N) (upd (N b) (P b) P) h (l1 ++ l2) h.
Proof.
  intros Hnd [Hs1 Hs2]%seg_app. destruct (seg_end _ _ _ _ _ Hs1) as [_ HP].
  rewrite HP. rewrite NoDup_cons, NoDup_app, NoDup_cons in Hnd.
  destruct Hnd as (Hh & Hn1 & Hd & Hb & Hn2).
  assert (NoDup (h :: l1)) by (rewrite NoDup_cons; set_solver).
  pose proof (tailof_in h l1) as Ht. destruct l2 as [|n l2]; simpl in Hs2.
  - destruct Hs2 as [-> _]. rewrite app_nil_r. eapply seg_retarget; [done|set_solver|done].
  - destruct Hs2 as (-> & _ & Hs2). rewrite seg_app. split.
    + eapply seg_retarget; [done| |done]. intros Hn. apply (Hd n Hn). set_solver.
    + rewrite NoDup_cons in Hn2. eapply seg_ext; [| |done].
      * intros x Hx. rewrite upd_ne; [done|]. intros ->. apply elem_of_cons in Ht as [Ht|Ht].
        -- rewrite Ht in Hx. set_solver.
        -- apply (Hd _ Ht). set_solver.
      * intros y Hy. rewrite upd_ne; [done|]. set_solver.
Qed.

(** Putting [b] in right after the head. *)
Lemma ring_insert N P h b l :
  NoDup (h :: b :: l) → seg N P h l h →
  seg (upd h b (upd b (N h) N)) (upd (N h) b (upd b h P)) h (b :: l) h.
Proof.
  intros Hnd Hs. rewrite !NoDup_cons in Hnd. destruct Hnd as (Hh & Hb & Hn).
  assert (h ≠ b) as Hhb by set_solver.
  destruct l as [|n l]; simpl in *.
  - destruct Hs as [HN _]. rewrite HN, !upd_eq. split_and!; [done|by rewrite upd_ne, upd_eq|by rewrite upd_ne, upd_eq|done].
  - destruct Hs as (HN & _ & Hs). rewrite HN, !upd_eq. rewrite NoDup_cons in Hn.
    split_and!; [done|rewrite upd_ne by set_solver; by rewrite upd_eq|rewrite upd_ne by done; by rewrite upd_eq|done|].
    eapply seg_ext; [| |done].
    + intros x Hx. rewrite !upd_ne by set_solver. done.
    + intros y Hy. rewrite !upd_ne by set_solver. done.
Qed.

(** Walking forwards and backwards. *)
Lemma seg_first N P a l z : seg N P a l z → N a = hd z l.
Proof. destruct l; simpl; tauto. Qed.

Lemma seg_rev N P l : ∀ a z, seg N P a l z → seg P N z (rev l) a.
Proof.
  induction l as [|x l IH]; intros a z; simpl; [tauto|]. intros (H1 & H2 & H3).
  apply IH in H3. destruct (rev l ++ [x]) eqn:E; [by destruct (rev l)|]. rewrite <- E.
  change (rev l ++ [x]) with (rev l ++ x :: []). rewrite seg_app. simpl. done.
Qed.
End seg.
