(* ===== verification/BioFacts.v ===== *)
(** * The buffer cache is coherent

    [bio_ok s l]: the ring of [bcache] visits the buffers [l] from most to least
    recently used, no block is cached twice, and a buffer that is valid, clean
    and not busy holds what the disk holds.  [lblk s n] is the content of block
    [n] as the kernel sees it: the cached copy if there is one.  Getting a
    buffer changes no block's content, recycling included. *)
From S2P Require Import Prelude Spinlock Str Ptable PtableLists Sched Services BioRing Bio.

(** ** The invariant *)

Definition nx (bs : list buf) (i : nat) : nat := from_option b_next 0%nat (bs !! i).
Definition pv (bs : list buf) (i : nat) : nat := from_option b_prev 0%nat (bs !! i).

(** The value of [dev] in a buffer that has never been used. *)
Definition NODEV : Z := u32 (-1).

(** Does the buffer hold block [n] of the disk? *)
Definition has (dev n : Z) (b : buf) : bool := (b_dev b =? dev) && (b_blockno b =? n).

(** The buffers without their links. *)
Definition strip (b : buf) : buf := set_b_qnext None (set_b_next 0 (set_b_prev 0 b)).

(** A buffer nobody uses holds what the disk holds, unless it waits to be
    written ([B_DIRTY], set by the log). *)
Record buf_ok (d : list block) (b : buf) : Prop := Buf_ok {
  bk_len : length (b_data b) = BSIZE;
  bk_clean : flag B_BUSY b = false → flag B_DIRTY b = false → flag B_VALID b = true →
    b_dev b = 1 ∧ 0 ≤ b_blockno b ∧ d !! Z.to_nat (b_blockno b) = Some (b_data b);
  bk_idle : flag B_BUSY b = false → flag B_VALID b = false → flag B_DIRTY b = false
}.

Record bio_ok {B} (s : bst B) (l : list nat) : Prop := Bio_ok {
  bo_len : length (bufs s) = S NBUF;
  bo_ring : seg (nx (bufs s)) (pv (bufs s)) bhead l bhead;
  bo_all : l ≡ₚ seq 0 NBUF;
  bo_unique : ∀ i j bi bj, (i < NBUF)%nat → (j < NBUF)%nat → bufs s !! i = Some bi →
    bufs s !! j = Some bj → b_dev bi = b_dev bj → b_blockno bi = b_blockno bj →
    b_dev bi ≠ NODEV → i = j;
  bo_disk : ∀ n d, disk s !! n = Some d → length d = BSIZE;
  bo_buf : ∀ i b, (i < NBUF)%nat → bufs s !! i = Some b → buf_ok (disk s) b
}.

(** The index of the buffer that holds block [n]. *)
Definition cached {B} (s : bst B) (n : Z) : option nat :=
  find (λ i, from_option (has 1 n) false (bufs s !! i)) (seq 0 NBUF).

Definition lblk {B} (s : bst B) (n : Z) : option block :=
  match cached s n ≫= λ i, bufs s !! i with
  | Some b => if flag B_VALID b then Some (b_data b) else disk s !! Z.to_nat n
  | None => disk s !! Z.to_nat n
  end.

(** ** Flags *)

Lemma land_pow2 x k : 0 ≤ k → negb (Z.land x (2 ^ k) =? 0) = Z.testbit x k.
Proof.
  intros Hk. destruct (Z.testbit x k) eqn:E.
  - apply negb_true_iff, Z.eqb_neq. intros H0.
    assert (Z.testbit (Z.land x (2 ^ k)) k = false) as H by (rewrite H0; apply Z.bits_0).
    rewrite Z.land_spec, E, Z.pow2_bits_true in H by done. done.
  - apply negb_false_iff, Z.eqb_eq. apply Z.bits_inj'. intros n Hn. rewrite Z.land_spec, Z.bits_0.
    destruct (decide (n = k)) as [->|]; [by rewrite E|]. rewrite Z.pow2_bits_false by lia. apply andb_false_r.
Qed.

Lemma flag_busy b : flag B_BUSY b = Z.testbit (b_flags b) 0.
Proof. apply (land_pow2 (b_flags b) 0). lia. Qed.
Lemma flag_valid b : flag B_VALID b = Z.testbit (b_flags b) 1.
Proof. apply (land_pow2 (b_flags b) 1). lia. Qed.
Lemma flag_dirty b : flag B_DIRTY b = Z.testbit (b_flags b) 2.
Proof. apply (land_pow2 (b_flags b) 2). lia. Qed.

(** Computing flag tests on updated flags. *)
Ltac flags :=
  rewrite ?flag_busy, ?flag_valid, ?flag_dirty; cbn [b_flags set_b_flags set_b_dev set_b_blockno set_b_data
    set_b_next set_b_prev set_b_qnext];
  rewrite ?Z.lor_spec, ?Z.ldiff_spec; rewrite <- ?flag_busy, <- ?flag_valid, <- ?flag_dirty;
  change (Z.testbit B_BUSY 0) with true; change (Z.testbit B_BUSY 1) with false;
  change (Z.testbit B_BUSY 2) with false; change (Z.testbit B_VALID 0) with false;
  change (Z.testbit B_VALID 1) with true; change (Z.testbit B_VALID 2) with false;
  change (Z.testbit B_DIRTY 0) with false; change (Z.testbit B_DIRTY 1) with false;
  change (Z.testbit B_DIRTY 2) with true;
  rewrite ?orb_true_r, ?orb_false_r, ?andb_true_r, ?andb_false_r; cbn [negb andb orb];
  rewrite ?andb_true_r, ?andb_false_r.

Lemma flag_set_busy b :
  let b' := set_b_flags (Z.lor (b_flags b) B_BUSY) b in
  flag B_BUSY b' = true ∧ flag B_VALID b' = flag B_VALID b ∧ flag B_DIRTY b' = flag B_DIRTY b.
Proof. simpl. split_and!; by flags. Qed.

Lemma flag_clear_busy b :
  let b' := set_b_flags (Z.ldiff (b_flags b) B_BUSY) b in
  flag B_BUSY b' = false ∧ flag B_VALID b' = flag B_VALID b ∧ flag B_DIRTY b' = flag B_DIRTY b.
Proof. simpl. split_and!; by flags. Qed.

Lemma flag_set_valid b :
  let b' := set_b_flags (Z.lor (b_flags b) B_VALID) b in
  flag B_VALID b' = true ∧ flag B_BUSY b' = flag B_BUSY b ∧ flag B_DIRTY b' = flag B_DIRTY b.
Proof. simpl. split_and!; by flags. Qed.

Lemma flag_set_dirty b :
  let b' := set_b_flags (Z.lor (b_flags b) B_DIRTY) b in
  flag B_DIRTY b' = true ∧ flag B_BUSY b' = flag B_BUSY b ∧ flag B_VALID b' = flag B_VALID b.
Proof. simpl. split_and!; by flags. Qed.

Lemma flag_clear_dirty b :
  let b' := set_b_flags (Z.ldiff (b_flags b) B_DIRTY) b in
  flag B_DIRTY b' = false ∧ flag B_BUSY b' = flag B_BUSY b ∧ flag B_VALID b' = flag B_VALID b.
Proof. simpl. split_and!; by flags. Qed.

(** ** Buffers *)

Section buffers.
Context {B : Type}.
Implicit Types (s : bst B) (l : list nat).

Lemma getb_ok s i b : bufs s !! i = Some b → getb i s = Ok b s.
Proof. intros H. unfold getb. by rewrite H. Qed.

Lemma setb_ok s i f :
  (i < length (bufs s))%nat → setb i f s = Ok tt (set_bufs (alter f i (bufs s)) s).
Proof.
  intros Hi. unfold setb. destruct (lookup_lt_is_Some_2 _ _ Hi) as [b Hb]. rewrite Hb.
  do 2 f_equal. apply list_eq. intros j. destruct (decide (i = j)) as [<-|].
  - by rewrite list_lookup_alter_eq, list_lookup_insert_eq, Hb.
  - by rewrite list_lookup_alter_ne, list_lookup_insert_ne.
Qed.

Lemma wp_getb E s i b (Q : buf → bst B → Prop) :
  bufs s !! i = Some b → Q b s → wp E (getb i) Q s.
Proof. intros Hb HQ. eapply wp_ok; [by apply getb_ok|done]. Qed.

Lemma wp_setb E s i f (Q : unit → bst B → Prop) :
  (i < length (bufs s))%nat → Q tt (set_bufs (alter f i (bufs s)) s) → wp E (setb i f) Q s.
Proof. intros Hb HQ. eapply wp_ok; [by apply setb_ok|done]. Qed.

(** A path along one kind of link. *)
Fixpoint path (f : nat → nat) (a : nat) l (z : nat) : Prop :=
  match l with [] => f a = z | x :: l' => f a = x ∧ path f x l' z end.

Lemma seg_path N P l : ∀ a z, seg N P a l z → path N a l z.
Proof. induction l; simpl; [tauto|]. intros. naive_solver. Qed.

(** The loops of [bget]: the first buffer on the path that passes the test. *)
Lemma walk_ok (link : buf → nat) (t : buf → bool) s l : ∀ a fuel,
  path (λ i, from_option link 0%nat (bufs s !! i)) a l bhead → bhead ∉ l →
  (∀ x, x ∈ l → (x < length (bufs s))%nat) → (length l < fuel)%nat →
  while fuel (λ b : nat, if (b =? bhead)%nat then mret (inr b)
    else x ← getb b; if t x then mret (inr b) else mret (inl (link x)))
    (from_option link 0%nat (bufs s !! a)) s =
  Ok (default bhead (find (λ i, from_option t false (bufs s !! i)) l)) s.
Proof.
  induction l as [|x l IH]; intros a fuel Hp Hh Hlt Hf; (destruct fuel as [|fuel]; [simpl in Hf; lia|]);
    cbn [while]; simpl in Hp.
  - rewrite Hp. by rewrite Nat.eqb_refl.
  - destruct Hp as [-> Hp]. destruct (lookup_lt_is_Some_2 (bufs s) x) as [b Hb]; [apply Hlt; left|].
    destruct (Nat.eqb_spec x bhead) as [->|Hx]; [exfalso; apply Hh; left|].
    unfold mbind, K_bind. simpl. rewrite (getb_ok _ _ _ Hb). simpl. rewrite Hb. simpl.
    destruct (t b) eqn:Et; [done|]. simpl.
    specialize (IH x fuel Hp). rewrite Hb in IH. simpl in IH. apply IH; [set_solver|set_solver|simpl in Hf; lia].
Qed.
End buffers.

(** ** Finding buffers *)

Section find.
Context {B : Type} {O : KOps B}.
Implicit Types (s : bst B) (l : list nat).

Lemma bo_elem s l i : bio_ok s l → i ∈ l ↔ (i < NBUF)%nat.
Proof. intros H. rewrite (bo_all _ _ H). apply elem_of_seq0. Qed.

Lemma bo_nodup s l : bio_ok s l → NoDup (bhead :: l).
Proof.
  intros H. rewrite NoDup_cons. split.
  - rewrite (bo_elem s l _ H). unfold bhead. lia.
  - rewrite (bo_all _ _ H). apply NoDup_seq.
Qed.

Lemma bo_lookup s l i : bio_ok s l → (i ≤ NBUF)%nat → ∃ b, bufs s !! i = Some b.
Proof. intros H Hi. apply lookup_lt_is_Some_2. rewrite (bo_len _ _ H). lia. Qed.

Lemma bo_walk_args s l :
  bio_ok s l → bhead ∉ l ∧ (∀ x, x ∈ l → (x < length (bufs s))%nat) ∧ (length l < S NBUF)%nat.
Proof.
  intros H. split_and!.
  - rewrite (bo_elem s l _ H). unfold bhead. lia.
  - intros x Hx%(bo_elem s l _ H). rewrite (bo_len _ _ H). lia.
  - rewrite (Permutation_length (bo_all _ _ H)), length_seq. lia.
Qed.

Lemma found_not_head s l (p : nat → bool) :
  bio_ok s l → (if (default bhead (find p l) =? bhead)%nat then None else Some (default bhead (find p l))) = find p l.
Proof.
  intros H. destruct (find p l) as [x|] eqn:E; simpl; [|done].
  apply find_some in E as [Hx _]. apply list_elem_of_In, (bo_elem s l _ H) in Hx.
  destruct (Nat.eqb_spec x bhead); [unfold bhead in *; lia|done].
Qed.

Lemma find_cached_ok s l dev n :
  bio_ok s l →
  find_cached dev n s = Ok (find (λ i, from_option (has dev n) false (bufs s !! i)) l) s.
Proof.
  intros H. destruct (bo_lookup s l bhead H ltac:(done)) as [h Hh].
  destruct (bo_walk_args s l H) as (H1 & H2 & H3).
  pose proof (seg_path _ _ _ _ _ (bo_ring _ _ H)) as Hp.
  pose proof (walk_ok b_next (has dev n) s l bhead (S NBUF) Hp H1 H2 H3) as Hw.
  rewrite Hh in Hw. simpl in Hw.
  unfold find_cached. rewrite (bind_ok _ _ _ _ _ (getb_ok _ _ _ Hh)).
  unfold has in Hw. rewrite (bind_ok _ _ _ _ _ Hw). unfold mret, K_ret. by rewrite (found_not_head s l).
Qed.

Definition clean (b : buf) : bool := negb (flag B_BUSY b) && negb (flag B_DIRTY b).

Lemma find_clean_ok s l :
  bio_ok s l → find_clean s = Ok (find (λ i, from_option clean false (bufs s !! i)) (rev l)) s.
Proof.
  intros H. destruct (bo_lookup s l bhead H ltac:(done)) as [h Hh].
  destruct (bo_walk_args s l H) as (H1 & H2 & H3).
  pose proof (seg_path _ _ _ _ _ (seg_rev _ _ _ _ _ (bo_ring _ _ H))) as Hp.
  pose proof (walk_ok b_prev clean s (rev l) bhead (S NBUF) Hp) as Hw.
  rewrite Hh in Hw. simpl in Hw. rewrite length_rev in Hw.
  unfold find_clean. rewrite (bind_ok _ _ _ _ _ (getb_ok _ _ _ Hh)).
  assert (∀ x, x ∈ rev l ↔ x ∈ l) as Hrev by (intros x; rewrite !list_elem_of_In; symmetry; apply in_rev).
  rewrite (bind_ok _ _ _ _ _ (Hw ltac:(by rewrite Hrev) ltac:(by intros x ?%Hrev; apply H2) H3)).
  unfold mret, K_ret. f_equal. destruct (find _ (rev l)) as [x|] eqn:E; simpl; [|done].
  apply find_some in E as [Hx _]. apply list_elem_of_In, Hrev, (bo_elem s l _ H) in Hx.
  destruct (Nat.eqb_spec x bhead); [unfold bhead in *; lia|done].
Qed.

(** At most one buffer holds a block, so every search order finds the same. *)
Lemma find_has s l l' n :
  bio_ok s l → l' ≡ₚ seq 0 NBUF →
  ∀ i, find (λ i, from_option (has 1 n) false (bufs s !! i)) l' = Some i ↔
    ((i < NBUF)%nat ∧ ∃ b, bufs s !! i = Some b ∧ has 1 n b = true).
Proof.
  intros H Hl i. split.
  - intros [Hi Hb]%find_some. apply list_elem_of_In in Hi. rewrite Hl, elem_of_seq0 in Hi.
    split; [done|]. destruct (bufs s !! i) as [b|]; [|done]. eauto.
  - intros (Hi & b & Hb & Hh).
    destruct (find _ l') as [j|] eqn:E.
    + f_equal. apply find_some in E as [Hj Hbj]. apply list_elem_of_In in Hj. rewrite Hl, elem_of_seq0 in Hj.
      destruct (bufs s !! j) as [bj|] eqn:Ej; [|done]. simpl in Hbj.
      unfold has in *. rewrite andb_true_iff, !Z.eqb_eq in Hh, Hbj.
      symmetry. eapply (bo_unique _ _ H i j); eauto; [lia|lia|]. destruct Hh as [-> _]. done.
    + exfalso. pose proof (find_none _ _ E i) as Hn. simpl in Hn. rewrite Hb in Hn. simpl in Hn.
      rewrite Hh in Hn. discriminate Hn. apply list_elem_of_In. by rewrite Hl, elem_of_seq0.
Qed.

Lemma cached_iff s l n i :
  bio_ok s l →
  cached s n = Some i ↔ (i < NBUF)%nat ∧ ∃ b, bufs s !! i = Some b ∧ has 1 n b = true.
Proof. intros H. by apply (find_has s l). Qed.

Lemma find_cached_1 s l n : bio_ok s l → find_cached 1 n s = Ok (cached s n) s.
Proof.
  intros H. rewrite (find_cached_ok s l) by done. f_equal.
  apply option_eq. intros i. rewrite (find_has s l l n H (bo_all _ _ H)). by rewrite (cached_iff s l).
Qed.
End find.

(** ** Changing one buffer *)

Section change.
Context {B : Type} {O : KOps B}.
Implicit Types (s : bst B) (l : list nat).

(** The state with buffer [i] changed. *)
Definition bset (i : nat) (f : buf → buf) s : bst B := set_bufs (alter f i (bufs s)) s.

Lemma bset_lookup i f s j :
  bufs (bset i f s) !! j = if decide (i = j) then f <$> bufs s !! j else bufs s !! j.
Proof.
  simpl. case_decide as H; [subst; by rewrite list_lookup_alter_eq|by rewrite list_lookup_alter_ne].
Qed.

Lemma links_bset i f s l :
  (∀ b, b_next (f b) = b_next b ∧ b_prev (f b) = b_prev b) →
  seg (nx (bufs s)) (pv (bufs s)) bhead l bhead →
  seg (nx (bufs (bset i f s))) (pv (bufs (bset i f s))) bhead l bhead.
Proof.
  intros Hf. apply seg_ext; intros x _; unfold nx, pv; rewrite bset_lookup; case_decide; [|done| |done].
  - destruct (bufs s !! x) as [b|]; [|done]. simpl. apply Hf.
  - destruct (bufs s !! x) as [b|]; [|done]. simpl. apply Hf.
Qed.

Lemma bio_ok_bset s l i b f :
  bio_ok s l → bufs s !! i = Some b →
  (∀ b, b_next (f b) = b_next b ∧ b_prev (f b) = b_prev b) →
  (∀ j bj, (j < NBUF)%nat → j ≠ i → bufs s !! j = Some bj → b_dev (f b) ≠ NODEV →
     b_dev bj = b_dev (f b) → b_blockno bj = b_blockno (f b) → False) →
  buf_ok (disk s) (f b) → bio_ok (bset i f s) l.
Proof.
  intros H Hb Hf Hu Hk. pose proof H as [H1 H2 H3 H4 H5 H6]. split.
  - simpl. by rewrite length_alter.
  - by apply links_bset.
  - done.
  - intros j k bj bk Hj Hk' Hbj Hbk Hd Hn Hnd. rewrite bset_lookup in Hbj, Hbk.
    destruct (decide (i = j)) as [<-|Hij], (decide (i = k)) as [<-|Hik]; [done| | |by eapply H4].
    + rewrite Hb in Hbj. injection Hbj as <-. exfalso. by eapply (Hu k bk).
    + rewrite Hb in Hbk. injection Hbk as <-. exfalso. eapply (Hu j bj); eauto. congruence.
  - done.
  - intros j bj Hj Hbj. rewrite bset_lookup in Hbj. case_decide; subst; [|by eapply H6].
    rewrite Hb in Hbj. by simplify_eq/=.
Qed.

(** Content as seen through the cache. *)
Lemma lblk_cached s l i b n :
  bio_ok s l → (i < NBUF)%nat → bufs s !! i = Some b → has 1 n b = true →
  lblk s n = if flag B_VALID b then Some (b_data b) else disk s !! Z.to_nat n.
Proof.
  intros H Hi Hb Hh. assert (cached s n = Some i) as Hc by (apply (cached_iff s l); eauto).
  unfold lblk. rewrite Hc. simpl. by rewrite Hb.
Qed.

Lemma lblk_uncached s l n :
  bio_ok s l → (∀ i b, (i < NBUF)%nat → bufs s !! i = Some b → has 1 n b = false) →
  lblk s n = disk s !! Z.to_nat n.
Proof.
  intros H Hn. unfold lblk. destruct (cached s n) as [i|] eqn:E; [|done].
  apply (cached_iff s l) in E as (Hi & b & Hb & Hh); [|done]. rewrite (Hn i b Hi Hb) in Hh. done.
Qed.

Lemma lblk_cases s l n :
  bio_ok s l →
  (∃ i b, (i < NBUF)%nat ∧ bufs s !! i = Some b ∧ has 1 n b = true) ∨
  (∀ i b, (i < NBUF)%nat → bufs s !! i = Some b → has 1 n b = false).
Proof.
  intros H. destruct (cached s n) as [i|] eqn:E.
  - left. apply (cached_iff s l) in E as (Hi & b & Hb & Hh); [|done]. eauto.
  - right. intros i b Hi Hb. destruct (has 1 n b) eqn:Hh; [|done].
    assert (cached s n = Some i) by (apply (cached_iff s l); eauto). congruence.
Qed.

(** A block the changed buffer neither held nor holds. *)
Lemma lblk_bset_other s l i b f n :
  bio_ok s l → bio_ok (bset i f s) l → (i < NBUF)%nat → bufs s !! i = Some b →
  has 1 n b = false → has 1 n (f b) = false → lblk (bset i f s) n = lblk s n.
Proof.
  intros H H' Hi Hb Hh Hh'. destruct (lblk_cases s l n H) as [(j & bj & Hj & Hbj & Hhj)|Hn].
  - rewrite (lblk_cached s l j bj n) by done. apply (lblk_cached (bset i f s) l j bj n); [done|done| |done].
    rewrite bset_lookup, decide_False by congruence. done.
  - rewrite (lblk_uncached s l) by done. apply (lblk_uncached (bset i f s) l); [done|].
    intros j bj Hj Hbj. rewrite bset_lookup in Hbj. case_decide; [|by eapply Hn].
    subst j. rewrite Hb in Hbj. by simplify_eq/=.
Qed.

(** Changing flags other than [B_VALID] changes no content. *)
Lemma lblk_bset_same s l i b f n :
  bio_ok s l → bio_ok (bset i f s) l → (i < NBUF)%nat → bufs s !! i = Some b →
  b_dev (f b) = b_dev b → b_blockno (f b) = b_blockno b → b_data (f b) = b_data b →
  flag B_VALID (f b) = flag B_VALID b → lblk (bset i f s) n = lblk s n.
Proof.
  intros H H' Hi Hb Hd Hn Hda Hv. assert (has 1 n (f b) = has 1 n b) as Hh by (unfold has; congruence).
  destruct (has 1 n b) eqn:E.
  - rewrite (lblk_cached s l i b n), (lblk_cached (bset i f s) l i (f b) n); try done.
    + by rewrite Hv, Hda.
    + by rewrite bset_lookup, decide_True, Hb.
  - by eapply lblk_bset_other.
Qed.

(** Giving a clean buffer to a block that is not cached changes no content. *)
Lemma lblk_recycle s l i b f n m :
  bio_ok s l → bio_ok (bset i f s) l → (i < NBUF)%nat → bufs s !! i = Some b →
  clean b = true → has 1 n (f b) = true → flag B_VALID (f b) = false →
  (∀ j bj, (j < NBUF)%nat → bufs s !! j = Some bj → has 1 n bj = false) →
  0 ≤ n → 0 ≤ m → lblk (bset i f s) m = lblk s m.
Proof.
  intros H H' Hi Hb Hc Hh Hv Hunc Hn0 Hm0.
  assert (bufs (bset i f s) !! i = Some (f b)) as Hb' by by rewrite bset_lookup, decide_True, Hb.
  assert (∀ m', has 1 m' (f b) = bool_decide (m' = n)) as Hhas.
  { intros m'. unfold has in *. rewrite andb_true_iff, !Z.eqb_eq in Hh. destruct Hh as [-> ->].
    case_bool_decide; subst; simpl; [by rewrite Z.eqb_refl|]. by destruct (Z.eqb_spec n m'). }
  destruct (decide (m = n)) as [->|Hmn].
  - rewrite (lblk_cached (bset i f s) l i (f b)) by done. rewrite Hv. by rewrite (lblk_uncached s l).
  - destruct (has 1 m b) eqn:Hold.
    + rewrite (lblk_cached s l i b m) by done.
      assert (lblk (bset i f s) m = disk s !! Z.to_nat m) as ->.
      { apply (lblk_uncached (bset i f s) l); [done|]. intros j bj Hj Hbj. rewrite bset_lookup in Hbj. case_decide.
        - subst j. rewrite Hb in Hbj. simplify_eq/=. rewrite Hhas. by apply bool_decide_eq_false.
        - destruct (has 1 m bj) eqn:E; [|done]. exfalso. unfold has in *.
          rewrite andb_true_iff, !Z.eqb_eq in Hold, E.
          assert (i = j); [|done]. eapply (bo_unique _ _ H i j b bj); try done; [intuition congruence..|].
          destruct Hold as [-> _]. done. }
      destruct (flag B_VALID b) eqn:Ev; [|done]. unfold clean in Hc.
      rewrite andb_true_iff, !negb_true_iff in Hc. destruct Hc as [Hc1 Hc2].
      destruct (bk_clean _ _ (bo_buf _ _ H i b Hi Hb) Hc1 Hc2 Ev) as (_ & _ & Hd).
      unfold has in Hold. rewrite andb_true_iff, !Z.eqb_eq in Hold. destruct Hold as [_ <-]. done.
    + eapply lblk_bset_other; try done. rewrite Hhas. by apply bool_decide_eq_false.
Qed.
End change.

(** ** Getting a buffer *)

Section get.
Context {B : Type} {O : KOps B} {W : KLaws B}.
Implicit Types (s : bst B) (l : list nat) (L : gset lockid).

(** Nobody has the block, and if it is not cached some buffer can be recycled. *)
Definition available s n : Prop :=
  (∀ i b, (i < NBUF)%nat → bufs s !! i = Some b → has 1 n b = true → flag B_BUSY b = false) ∧
  ((∀ i b, (i < NBUF)%nat → bufs s !! i = Some b → has 1 n b = false) →
   ∃ i b, (i < NBUF)%nat ∧ bufs s !! i = Some b ∧ clean b = true).

(** From [s], buffer [i] has been taken for block [n]. *)
Record gotbuf L l s n i s' : Prop := Gotbuf {
  gb_ok : bio_ok s' l;
  gb_k : k_ok L s';
  gb_i : (i < NBUF)%nat;
  gb_free : ∃ b0, bufs s !! i = Some b0 ∧ flag B_BUSY b0 = false;
  gb_buf : ∃ b, bufs s' !! i = Some b ∧ flag B_BUSY b = true ∧ has 1 n b = true ∧
    (flag B_VALID b = false → flag B_DIRTY b = false) ∧
    (∃ b0, bufs s !! i = Some b0 ∧ flag B_DIRTY b0 = flag B_DIRTY b ∧
       (flag B_DIRTY b = true → has 1 n b0 = true)) ∧
    (flag B_VALID b = true → flag B_DIRTY b = false → disk s' !! Z.to_nat n = Some (b_data b));
  gb_others : ∀ j, j ≠ i → bufs s' !! j = bufs s !! j;
  gb_lblk : ∀ m, 0 ≤ m → lblk s' m = lblk s m;
  gb_disk : disk s' = disk s;
  gb_writes : writes s' = writes s;
  gb_keep : k_keep (bbase s) (bbase s')
}.

(** The cached case: only [B_BUSY] is set. *)
Lemma take_cached s l i b :
  bio_ok s l → (i < NBUF)%nat → bufs s !! i = Some b → flag B_BUSY b = false →
  let f := λ x, set_b_flags (Z.lor (b_flags x) B_BUSY) x in
  bio_ok (bset i f s) l ∧ ∀ m, lblk (bset i f s) m = lblk s m.
Proof.
  intros H Hi Hb Hbusy f. destruct (flag_set_busy b) as (Hb1 & Hb2 & Hb3).
  assert (bio_ok (bset i f s) l) as H'.
  { eapply bio_ok_bset; [done|done|done| |].
    - intros j bj Hj Hne Hbj Hnd Hd Hn. apply Hne. by eapply (bo_unique _ _ H j i bj b); eauto; congruence.
    - split; [apply (bk_len _ _ (bo_buf _ _ H i b Hi Hb))|unfold f; congruence|unfold f; congruence]. }
  split; [done|]. intros m. by eapply lblk_bset_same.
Qed.

(** The recycled case: the buffer is renamed and invalid. *)
Definition recycled (n : Z) (b : buf) : buf := set_b_flags B_BUSY (set_b_blockno n (set_b_dev 1 b)).

Lemma take_clean s l i b n :
  bio_ok s l → (i < NBUF)%nat → bufs s !! i = Some b → clean b = true → 0 ≤ n →
  (∀ j bj, (j < NBUF)%nat → bufs s !! j = Some bj → has 1 n bj = false) →
  bio_ok (bset i (recycled n) s) l ∧ ∀ m, 0 ≤ m → lblk (bset i (recycled n) s) m = lblk s m.
Proof.
  intros H Hi Hb Hc Hn Hunc.
  assert (bio_ok (bset i (recycled n) s) l) as H'.
  { eapply bio_ok_bset; [done|done|done| |].
    - intros j bj Hj Hne Hbj _ Hd Hbn. pose proof (Hunc j bj Hj Hbj) as Hh. unfold has in Hh.
      simpl in Hd, Hbn. rewrite Hd, Hbn, !Z.eqb_refl in Hh. done.
    - split; [apply (bk_len _ _ (bo_buf _ _ H i b Hi Hb))|done|done]. }
  split; [done|]. intros m Hm. eapply (lblk_recycle s l i b _ n); try done.
  unfold has. simpl. by rewrite Z.eqb_refl.
Qed.

(** Releasing the cache lock at the end. *)
Lemma bio_ok_base s l b' : bio_ok s l → bio_ok (set_bbase b' s) l.
Proof. by intros [H1 H2 H3 H4 H5 H6]. Qed.

Lemma lblk_base s b' n : lblk (set_bbase b' s) n = lblk s n.
Proof. done. Qed.

Lemma setb_alter s i f b :
  bufs s !! i = Some b → setb i f s = Ok tt (bset i f s).
Proof. intros Hb. apply setb_ok. by eapply lookup_lt_Some. Qed.

Lemma bset_bset i f g s : bset i g (bset i f s) = bset i (g ∘ f) s.
Proof.
  unfold bset, set_bufs. simpl. f_equal. apply list_eq. intros j.
  destruct (decide (i = j)) as [<-|]; [|by rewrite !list_lookup_alter_ne].
  rewrite !list_lookup_alter_eq. by destruct (bufs s !! i).
Qed.

(** With the lock held, [bget_try] takes a buffer for the block. *)
Lemma bget_try_cached L s l n i b :
  bio_ok s l → k_ok ({[Lbcache]} ∪ L) s → Lbcache ∉ L → cached s n = Some i →
  bufs s !! i = Some b → flag B_BUSY b = false →
  ∃ b', let s' := set_bbase b' (bset i (λ x, set_b_flags (Z.lor (b_flags x) B_BUSY) x) s) in
    bget_try 1 n s = Ok (Some i) s' ∧ k_ok L s' ∧ k_keep (bbase s) b'.
Proof.
  intros H HL Hlk Hc Hb Hbusy. set (f := λ x, set_b_flags (Z.lor (b_flags x) B_BUSY) x).
  destruct (k_release_ok ({[Lbcache]} ∪ L) Lbcache (bset i f s)) as
    (s3 & Hrel & HL3 & (b3 & -> & Hf3) & Hs3 & Hm3); [done|set_solver|].
  rewrite diff_union_lock in HL3 by done. exists b3. split_and!; [|done|by split_and!].
  unfold bget_try. rewrite (bind_ok _ _ _ _ _ (find_cached_1 s l n H)), Hc.
  rewrite (bind_ok _ _ _ _ _ (getb_ok _ _ _ Hb)), Hbusy. cbn [negb].
  rewrite (bind_ok _ _ _ _ _ (setb_alter s i f b Hb)). by rewrite (bind_ok _ _ _ _ _ Hrel).
Qed.

Lemma bget_try_recycled L s l n i :
  bio_ok s l → k_ok ({[Lbcache]} ∪ L) s → Lbcache ∉ L → cached s n = None →
  find (λ i, from_option clean false (bufs s !! i)) (rev l) = Some i →
  ∃ b', let s' := set_bbase b' (bset i (recycled n) s) in
    bget_try 1 n s = Ok (Some i) s' ∧ k_ok L s' ∧ k_keep (bbase s) b'.
Proof.
  intros H HL Hlk Hc Hf.
  destruct (k_release_ok ({[Lbcache]} ∪ L) Lbcache (bset i (recycled n) s)) as
    (s3 & Hrel & HL3 & (b3 & -> & Hf3) & Hs3 & Hm3); [done|set_solver|].
  rewrite diff_union_lock in HL3 by done. exists b3. split_and!; [|done|by split_and!].
  pose proof (find_some _ _ Hf) as [_ Hb]. destruct (bufs s !! i) as [b|] eqn:Eb; [|done].
  unfold bget_try. rewrite (bind_ok _ _ _ _ _ (find_cached_1 s l n H)), Hc.
  rewrite (bind_ok _ _ _ _ _ (find_clean_ok s l H)), Hf.
  rewrite (bind_ok _ _ _ _ _ (setb_alter s i _ b Eb)).
  erewrite (bind_ok (setb i _)); [|eapply setb_alter; by rewrite bset_lookup, decide_True, Eb].
  rewrite bset_bset.
  erewrite (bind_ok (setb i _)); [|eapply setb_alter; by rewrite bset_lookup, decide_True, Eb].
  rewrite bset_bset. change (_ ∘ _) with (recycled n). by rewrite (bind_ok _ _ _ _ _ Hrel).
Qed.

Lemma gotbuf_cached L l s i b n b' :
  bio_ok s l → (i < NBUF)%nat → bufs s !! i = Some b → has 1 n b = true → flag B_BUSY b = false →
  let s' := set_bbase b' (bset i (λ x, set_b_flags (Z.lor (b_flags x) B_BUSY) x) s) in
  k_ok L s' → k_keep (bbase s) b' → gotbuf L l s n i s'.
Proof.
  intros H Hi Hb Hh Hbusy s' HL Hk. destruct (take_cached s l i b H Hi Hb Hbusy) as [H2 Hl2].
  destruct (flag_set_busy b) as (Hb1 & Hb2 & Hb3).
  split; [by apply bio_ok_base|done|done|by eauto| |intros j Hj; simpl; by rewrite list_lookup_alter_ne|intros m _; apply Hl2|done|done|done].
  exists (set_b_flags (Z.lor (b_flags b) B_BUSY) b). simpl. rewrite list_lookup_alter_eq, Hb.
  split_and!; [done|done|done| | |].
  - rewrite Hb2, Hb3. by apply (bk_idle _ _ (bo_buf _ _ H i b Hi Hb)).
  - rewrite Hb3. by exists b.
  - rewrite Hb2, Hb3. intros Hv Hd.
    destruct (bk_clean _ _ (bo_buf _ _ H i b Hi Hb) Hbusy Hd Hv) as (_ & _ & Hdk).
    unfold has in Hh. rewrite andb_true_iff, !Z.eqb_eq in Hh. destruct Hh as [_ <-]. done.
Qed.

Lemma gotbuf_recycled L l s i b n b' :
  bio_ok s l → (i < NBUF)%nat → bufs s !! i = Some b → clean b = true → 0 ≤ n →
  (∀ j bj, (j < NBUF)%nat → bufs s !! j = Some bj → has 1 n bj = false) →
  let s' := set_bbase b' (bset i (recycled n) s) in
  k_ok L s' → k_keep (bbase s) b' → gotbuf L l s n i s'.
Proof.
  intros H Hi Hb Hc Hn Hunc s' HL Hk. destruct (take_clean s l i b n H Hi Hb Hc Hn Hunc) as [H2 Hl2].
  unfold clean in Hc. rewrite andb_true_iff, !negb_true_iff in Hc. destruct Hc as [Hc1 Hc2].
  split; [by apply bio_ok_base|done|done|by eauto| |intros j Hj; simpl; by rewrite list_lookup_alter_ne|intros m Hm; by apply Hl2|done|done|done].
  exists (recycled n b). simpl. rewrite list_lookup_alter_eq, Hb.
  split_and!; [done|done| |done| |done]; [unfold has; simpl; by rewrite Z.eqb_refl|]. by exists b.
Qed.

(** Without contention [bget] returns, never sleeping. *)
Lemma bget_ok retries L s l n :
  bio_ok s l → k_ok L s → Lbcache ∉ L → 0 ≤ n → available s n →
  ∃ i s', bget retries 1 n s = Ok i s' ∧ gotbuf L l s n i s'.
Proof.
  intros H HL Hlk Hn [Hfree Hspare].
  destruct (k_acquire_ok L Lbcache s HL Hlk) as (s1 & Hacq & HL1 & (b1 & -> & Hf1) & Hs1 & Hm1).
  set (s1 := put b1 s) in *. assert (bio_ok s1 l) as H1 by by apply bio_ok_base.
  assert (k_keep (bbase s) b1) as Hk1 by by split_and!.
  assert (∀ i s', bget_try 1 n s1 = Ok (Some i) s' → bget retries 1 n s = Ok i s') as Hrun.
  { intros i s' Ht. unfold bget. rewrite (bind_ok _ _ _ _ _ Hacq). cbn [while].
    rewrite (bind_ok _ _ s1 (inr i) s'); [done|]. by rewrite (bind_ok _ _ _ _ _ Ht). }
  destruct (cached s1 n) as [i|] eqn:Ec.
  - pose proof Ec as (Hi & b & Hb & Hh)%(cached_iff s1 l); [|done].
    pose proof (Hfree i b Hi Hb Hh) as Hbusy.
    destruct (bget_try_cached L s1 l n i b H1 HL1 Hlk Ec Hb Hbusy) as (b2 & Ht & HL2 & Hk2).
    eexists i, _. split; [by apply Hrun|]. 
    apply (gotbuf_cached L l s i b n b2 H Hi Hb Hh Hbusy HL2). by etrans.
  - assert (∀ j bj, (j < NBUF)%nat → bufs s !! j = Some bj → has 1 n bj = false) as Hunc.
    { intros j bj Hj Hbj. destruct (has 1 n bj) eqn:Hh; [|done].
      assert (cached s1 n = Some j) by (apply (cached_iff s1 l); eauto). congruence. }
    destruct (Hspare Hunc) as (k & bk & Hk & Hbk & Hck).
    destruct (find (λ i, from_option clean false (bufs s1 !! i)) (rev l)) as [i|] eqn:Ef.
    + destruct (bget_try_recycled L s1 l n i H1 HL1 Hlk Ec Ef) as (b2 & Ht & HL2 & Hk2).
      apply find_some in Ef as [Hi Hb]. apply in_rev, list_elem_of_In, (bo_elem s1 l _ H1) in Hi.
      destruct (bufs s1 !! i) as [b|] eqn:Eb; [|done].
      eexists i, _. split; [by apply Hrun|].
      apply (gotbuf_recycled L l s i b n b2 H Hi Eb Hb Hn Hunc HL2). by etrans.
    + exfalso. pose proof (find_none _ _ Ef k) as Hnone. simpl in Hnone. change (bufs s1) with (bufs s) in Hnone.
      rewrite Hbk in Hnone. simpl in Hnone. rewrite Hck in Hnone. discriminate Hnone.
      apply in_rev. rewrite rev_involutive. by apply list_elem_of_In, (bo_elem s l _ H).
Qed.
End get.

(** ** The disk *)

Lemma land_valid_dirty f :
  (Z.land f (Z.lor B_VALID B_DIRTY) =? B_VALID) = Z.testbit f 1 && negb (Z.testbit f 2).
Proof.
  assert (Z.land f (Z.lor B_VALID B_DIRTY) = Z.land (f `mod` 2 ^ 3) (Z.lor B_VALID B_DIRTY)) as ->.
  { apply Z.bits_inj'. intros n Hn. rewrite !Z.land_spec.
    destruct (decide (n < 3)); [by rewrite Z.mod_pow2_bits_low by lia|].
    rewrite (Z.bits_above_log2 (Z.lor B_VALID B_DIRTY)); [by rewrite !andb_false_r|done|].
    unfold B_VALID, B_DIRTY. simpl. lia. }
  rewrite <- (Z.mod_pow2_bits_low f 3 1), <- (Z.mod_pow2_bits_low f 3 2) by lia.
  pose proof (Z.mod_pos_bound f (2 ^ 3) ltac:(lia)) as Hr. change (2 ^ 3) with 8 in *.
  assert (f `mod` 8 = 0 ∨ f `mod` 8 = 1 ∨ f `mod` 8 = 2 ∨ f `mod` 8 = 3 ∨ f `mod` 8 = 4 ∨
    f `mod` 8 = 5 ∨ f `mod` 8 = 6 ∨ f `mod` 8 = 7) as H by lia.
  by destruct H as [->|[->|[->|[->|[->|[->|[->| ->]]]]]]].
Qed.

Section io.
Context {B : Type} {O : KOps B} {W : KLaws B}.
Implicit Types (s : bst B) (l : list nat) (L : gset lockid).

(** What a read leaves in the buffer. *)
Definition filled_with (d : block) (b : buf) : buf :=
  set_b_flags (Z.lor (b_flags b) B_VALID) (set_b_data d b).

(** What a write leaves in the buffer. *)
Definition flushed (b : buf) : buf :=
  set_b_flags (Z.lor (Z.ldiff (b_flags b) B_DIRTY) B_VALID) b.

Lemma iderw_checks s i b n :
  flag B_BUSY b = true → (flag B_VALID b = true → flag B_DIRTY b = true) → has 1 n b = true →
  n < Z.of_nat (length (disk s)) → bufs s !! i = Some b →
  ∀ k : buf → K (bst B) unit,
  (b ← getb i;
   panic_if (negb (flag B_BUSY b)) "iderw: buf not busy";;
   panic_if (Z.land (b_flags b) (Z.lor B_VALID B_DIRTY) =? B_VALID) "iderw: nothing to do";;
   panic_if (negb (b_dev b =? 1)) "iderw: request not for disk 1";;
   disksize ← gets (λ s, Z.of_nat (length (disk s)));
   panic_if (b_blockno b >=? disksize) "iderw: block out of range";; k b) s = k b s.
Proof.
  intros Hbusy Hvd Hh Hn Hb k. unfold has in Hh. rewrite andb_true_iff, !Z.eqb_eq in Hh. destruct Hh as [Hd Hbn].
  rewrite (bind_ok _ _ _ _ _ (getb_ok _ _ _ Hb)). rewrite Hbusy. krun.
  rewrite land_valid_dirty, <- flag_valid, <- flag_dirty.
  destruct (flag B_VALID b) eqn:Ev; simpl; [rewrite Hvd by done|]; simpl; rewrite Hd; simpl;
    rewrite Hbn, Z.geb_leb; destruct (Z.leb_spec (Z.of_nat (length (disk s))) n); (lia || done).
Qed.

Lemma iderw_read s i b n d :
  bufs s !! i = Some b → flag B_BUSY b = true → flag B_VALID b = false → flag B_DIRTY b = false →
  has 1 n b = true → disk s !! Z.to_nat n = Some d → 0 ≤ n →
  iderw i s = Ok tt (bset i (filled_with d) s).
Proof.
  intros Hb Hbusy Hv Hdi Hh Hd Hn. pose proof (lookup_lt_Some _ _ _ Hd) as Hlt.
  pose proof Hh as Hh'. unfold has in Hh'. rewrite andb_true_iff, !Z.eqb_eq in Hh'. destruct Hh' as [_ Hbn].
  unfold iderw. rewrite (iderw_checks s i b n) by (done || congruence || lia).
  rewrite Hdi, Hbn. rewrite (bind_ok _ _ s tt (bset i (set_b_data d) s)).
  - erewrite setb_alter by (by rewrite bset_lookup, decide_True, Hb). by rewrite bset_bset.
  - rewrite (bind_ok _ _ s s s) by done. rewrite Hd. rewrite (bind_ok _ _ s d s) by done.
    by eapply setb_alter.
Qed.

Lemma iderw_write s i b n :
  bufs s !! i = Some b → flag B_BUSY b = true → flag B_DIRTY b = true →
  has 1 n b = true → 0 ≤ n < Z.of_nat (length (disk s)) →
  iderw i s = Ok tt (set_writes (writes s ++ [(n, b_data b)])
    (set_disk (<[Z.to_nat n := b_data b]> (disk s)) (bset i flushed s))).
Proof.
  intros Hb Hbusy Hdi Hh Hn.
  pose proof Hh as Hh'. unfold has in Hh'. rewrite andb_true_iff, !Z.eqb_eq in Hh'. destruct Hh' as [_ Hbn].
  unfold iderw. rewrite (iderw_checks s i b n) by (done || lia).
  rewrite Hdi. set (g := λ b, set_b_flags (Z.ldiff (b_flags b) B_DIRTY) b).
  assert (bufs (bset i g s) !! i = Some (g b)) as Hb1 by by rewrite bset_lookup, decide_True, Hb.
  erewrite bind_ok.
  2:{ rewrite (bind_ok _ _ _ _ _ (setb_alter s i g b Hb)).
      rewrite (bind_ok _ _ _ _ _ (getb_ok _ _ _ Hb1)). unfold modify. simpl. rewrite Hbn. reflexivity. }
  erewrite setb_alter; [|exact Hb1].
  do 2 f_equal. unfold set_writes, set_disk, bset, set_bufs. simpl. f_equal. apply list_eq. intros j.
  destruct (decide (i = j)) as [<-|]; [|by rewrite !list_lookup_alter_ne].
  by rewrite !list_lookup_alter_eq, Hb.
Qed.

Lemma flag_flushed b :
  flag B_BUSY (flushed b) = flag B_BUSY b ∧ flag B_VALID (flushed b) = true ∧
  flag B_DIRTY (flushed b) = false.
Proof. unfold flushed. split_and!; by flags. Qed.

Lemma flag_filled d b :
  flag B_BUSY (filled_with d b) = flag B_BUSY b ∧ flag B_VALID (filled_with d b) = true ∧
  flag B_DIRTY (filled_with d b) = flag B_DIRTY b.
Proof. unfold filled_with. split_and!; by flags. Qed.

(** A busy buffer may be changed at will, as long as it keeps its block. *)
Lemma bio_ok_busy s l i b f :
  bio_ok s l → (i < NBUF)%nat → bufs s !! i = Some b → flag B_BUSY (f b) = true →
  (∀ b, b_next (f b) = b_next b ∧ b_prev (f b) = b_prev b) →
  b_dev (f b) = b_dev b → b_blockno (f b) = b_blockno b → length (b_data (f b)) = BSIZE →
  bio_ok (bset i f s) l.
Proof.
  intros H Hi Hb Hbusy Hl Hd Hn Hlen. eapply bio_ok_bset; [done|done|done| |].
  - intros j bj Hj Hne Hbj Hnd Hdj Hnj. apply Hne.
    eapply (bo_unique _ _ H j i bj b); eauto; congruence.
  - split; [done|congruence|congruence].
Qed.

Lemma bread_ok retries L s l n :
  bio_ok s l → k_ok L s → Lbcache ∉ L → 0 ≤ n < Z.of_nat (length (disk s)) → available s n →
  ∃ i s' b, bread retries 1 n s = Ok i s' ∧ gotbuf L l s n i s' ∧ bufs s' !! i = Some b ∧
    flag B_VALID b = true ∧ lblk s n = Some (b_data b).
Proof.
  intros H HL Hlk [Hn0 Hn] Hav.
  destruct (bget_ok retries L s l n H HL Hlk Hn0 Hav) as (i & s1 & Hget & G).
  pose proof G as [H1 HL1 Hi Hfr (b & Hb & Hbusy & Hh & Hvd & Hdold & _) Hoth Hlb Hdk Hw Hk].
  unfold bread. rewrite (bind_ok _ _ _ _ _ Hget), (bind_ok _ _ _ _ _ (getb_ok _ _ _ Hb)).
  destruct (flag B_VALID b) eqn:Ev; cbn [negb].
  - exists i, s1, b. split_and!; [done|done|done|done|].
    rewrite <- Hlb by done. by rewrite (lblk_cached s1 l i b n), Ev.
  - destruct (lookup_lt_is_Some_2 (disk s1) (Z.to_nat n)) as [d Hd]; [rewrite Hdk; lia|].
    rewrite (bind_ok _ _ _ _ _ (iderw_read s1 i b n d Hb Hbusy Ev (Hvd eq_refl) Hh Hd Hn0)).
    destruct (flag_filled d b) as (F1 & F2 & F3).
    assert (bufs (bset i (filled_with d) s1) !! i = Some (filled_with d b)) as Hb2
      by by rewrite bset_lookup, decide_True, Hb.
    assert (bio_ok (bset i (filled_with d) s1) l) as H2.
    { eapply bio_ok_busy; [done|done|done|by rewrite F1|done|done|done|].
      apply (bo_disk _ _ H1 _ _ Hd). }
    assert (∀ m, 0 ≤ m → lblk (bset i (filled_with d) s1) m = lblk s1 m) as Hl2.
    { intros m Hm. destruct (has 1 m b) eqn:Hhm.
      - assert (m = n) as -> by (unfold has in *; rewrite andb_true_iff, !Z.eqb_eq in Hh, Hhm; lia).
        rewrite (lblk_cached _ l i _ n H2 Hi Hb2 Hh), (lblk_cached s1 l i b n) by done. by rewrite F2, Ev.
      - by eapply lblk_bset_other. }
    exists i, (bset i (filled_with d) s1), (filled_with d b). split_and!; [done| |done|done|].
    + split; [done|done|done|done| |intros j Hj; rewrite bset_lookup, decide_False by done; auto| |done|done|done].
      * exists (filled_with d b). rewrite F1, F2, F3. rewrite (Hvd eq_refl) in *. split_and!; try done.
      * intros m Hm. rewrite Hl2, Hlb by done. done.
    + rewrite <- Hlb, <- Hl2 by done. rewrite (lblk_cached _ l i _ n H2 Hi Hb2 Hh). by rewrite F2.
Qed.

(** The disk after block [n] has been written, and the record of it. *)
Definition dset (n : Z) (d : block) s : bst B :=
  set_writes (writes s ++ [(n, d)]) (set_disk (<[Z.to_nat n := d]> (disk s)) s).

Lemma bio_ok_dset s l i b n d :
  bio_ok s l → (i < NBUF)%nat → bufs s !! i = Some b → flag B_BUSY b = true → has 1 n b = true →
  0 ≤ n → length d = BSIZE → bio_ok (dset n d s) l.
Proof.
  intros H Hi Hb Hbusy Hh Hn Hlen. pose proof H as [H1 H2 H3 H4 H5 H6]. split; [done|done|done|done| |].
  - intros m d' Hm. simpl in Hm. apply list_lookup_insert_Some in Hm as [(_ & <- & _)|(_ & Hm)]; eauto.
  - intros j bj Hj Hbj. destruct (H6 j bj Hj Hbj) as [K1 K2 K3]. split; [done| |done].
    intros Hb1 Hb2 Hb3. destruct (K2 Hb1 Hb2 Hb3) as (Hd & Hbn & Hdk). split_and!; [done|done|].
    simpl. rewrite list_lookup_insert_ne; [done|]. intros Heq.
    assert (b_blockno bj = n) as Hbn' by lia. unfold has in Hh. rewrite andb_true_iff, !Z.eqb_eq in Hh.
    simpl in Hbj. assert (j = i); [|congruence].
    eapply (H4 j i bj b); try done; [intuition congruence..|]. rewrite Hd. done.
Qed.

Lemma lblk_dset s l i b n m :
  bio_ok s l → (i < NBUF)%nat → bufs s !! i = Some b → flag B_BUSY b = true → has 1 n b = true →
  flag B_VALID b = true → 0 ≤ n → 0 ≤ m → lblk (dset n (b_data b) s) m = lblk s m.
Proof.
  intros H Hi Hb Hbusy Hh Hv Hn Hm.
  assert (bio_ok (dset n (b_data b) s) l) as H'.
  { eapply bio_ok_dset; try done. apply (bk_len _ _ (bo_buf _ _ H i b Hi Hb)). }
  destruct (decide (m = n)) as [->|Hne].
  - by rewrite (lblk_cached s l i b n), (lblk_cached (dset n (b_data b) s) l i b n), Hv.
  - assert (disk (dset n (b_data b) s) !! Z.to_nat m = disk s !! Z.to_nat m) as Hd.
    { simpl. rewrite list_lookup_insert_ne by lia. done. }
    destruct (lblk_cases s l m H) as [(j & bj & Hj & Hbj & Hhj)|Hunc].
    + rewrite (lblk_cached s l j bj m), (lblk_cached (dset n (b_data b) s) l j bj m) by done. by rewrite Hd.
    + rewrite (lblk_uncached s l m), (lblk_uncached (dset n (b_data b) s) l m) by done. done.
Qed.

Lemma bwrite_ok s l i b n :
  bio_ok s l → (i < NBUF)%nat → bufs s !! i = Some b → flag B_BUSY b = true → flag B_VALID b = true →
  has 1 n b = true → 0 ≤ n < Z.of_nat (length (disk s)) →
  ∃ f, let s' := dset n (b_data b) (bset i f s) in
    bwrite i s = Ok tt s' ∧ bio_ok s' l ∧
    b_data (f b) = b_data b ∧ has 1 n (f b) = true ∧
    flag B_BUSY (f b) = true ∧ flag B_VALID (f b) = true ∧ flag B_DIRTY (f b) = false ∧
    (∀ m, 0 ≤ m → lblk s' m = lblk s m).
Proof.
  intros H Hi Hb Hbusy Hv Hh Hn. set (g := λ x, set_b_flags (Z.lor (b_flags x) B_DIRTY) x).
  destruct (flag_set_dirty b) as (D1 & D2 & D3). destruct (flag_flushed (g b)) as (F1 & F2 & F3).
  assert (bufs (bset i g s) !! i = Some (g b)) as Hb1 by by rewrite bset_lookup, decide_True, Hb.
  exists (flushed ∘ g). cbv zeta.
  assert (bio_ok (bset i (flushed ∘ g) s) l) as H2.
  { eapply bio_ok_busy; try done; [simpl; rewrite F1; unfold g; by rewrite D2|].
    apply (bk_len _ _ (bo_buf _ _ H i b Hi Hb)). }
  assert (bufs (bset i (flushed ∘ g) s) !! i = Some (flushed (g b))) as Hb2
    by by rewrite bset_lookup, decide_True, Hb.
  assert (flag B_BUSY (flushed (g b)) = true) as Hbusy2 by (rewrite F1; unfold g; by rewrite D2).
  split_and!; try done.
  - unfold bwrite. rewrite (bind_ok _ _ _ _ _ (getb_ok _ _ _ Hb)), Hbusy. cbn [negb].
    rewrite (bind_ok _ _ s tt s) by done. fold g. rewrite (bind_ok _ _ _ _ _ (setb_alter s i g b Hb)).
    rewrite (iderw_write _ i (g b) n Hb1); [|unfold g; congruence|unfold g; congruence|done|done].
    unfold dset. by rewrite bset_bset.
  - eapply bio_ok_dset; try done; [lia|]. apply (bk_len _ _ (bo_buf _ _ H i b Hi Hb)).
  - intros m Hm. etrans; [apply (lblk_dset _ l i (flushed (g b)) n m); try done; lia|].
    eapply lblk_bset_same; try done. simpl. by rewrite F2.
Qed.
End io.

(** ** Releasing a buffer *)

Section release.
Context {B : Type} {O : KOps B} {W : KLaws B}.
Implicit Types (s : bst B) (l : list nat) (L : gset lockid) (bs : list buf).

Lemma nx_set_next bs i v j : (i < length bs)%nat → nx (alter (set_b_next v) i bs) j = upd i v (nx bs) j.
Proof.
  intros Hi. unfold nx, upd. destruct (Nat.eqb_spec j i) as [->|]; [|by rewrite list_lookup_alter_ne].
  rewrite list_lookup_alter_eq. by destruct (lookup_lt_is_Some_2 _ _ Hi) as [b ->].
Qed.
Lemma nx_set_prev bs i v j : nx (alter (set_b_prev v) i bs) j = nx bs j.
Proof.
  unfold nx. destruct (decide (i = j)) as [->|]; [|by rewrite list_lookup_alter_ne].
  rewrite list_lookup_alter_eq. by destruct (bs !! j).
Qed.
Lemma pv_set_prev bs i v j : (i < length bs)%nat → pv (alter (set_b_prev v) i bs) j = upd i v (pv bs) j.
Proof.
  intros Hi. unfold pv, upd. destruct (Nat.eqb_spec j i) as [->|]; [|by rewrite list_lookup_alter_ne].
  rewrite list_lookup_alter_eq. by destruct (lookup_lt_is_Some_2 _ _ Hi) as [b ->].
Qed.
Lemma pv_set_next bs i v j : pv (alter (set_b_next v) i bs) j = pv bs j.
Proof.
  unfold pv. destruct (decide (i = j)) as [->|]; [|by rewrite list_lookup_alter_ne].
  rewrite list_lookup_alter_eq. by destruct (bs !! j).
Qed.

Lemma strip_alter bs i f : (∀ b, strip (f b) = strip b) → strip <$> alter f i bs = strip <$> bs.
Proof.
  intros Hf. apply list_eq. intros j. rewrite !list_lookup_fmap.
  destruct (decide (i = j)) as [->|]; [|by rewrite list_lookup_alter_ne].
  rewrite list_lookup_alter_eq. destruct (bs !! j); simpl; [by rewrite Hf|done].
Qed.

Lemma strip_lookup bs bs' j b :
  strip <$> bs' = strip <$> bs → bs' !! j = Some b → ∃ b0, bs !! j = Some b0 ∧ strip b = strip b0.
Proof.
  intros Hs Hb. assert ((strip <$> bs') !! j = (strip <$> bs) !! j) as H by by rewrite Hs.
  rewrite !list_lookup_fmap, Hb in H. destruct (bs !! j) as [b0|]; [|done].
  exists b0. split; [done|]. by apply (inj Some).
Qed.

(** Everything but the links is read off the stripped buffer. *)
Lemma strip_fields b b0 :
  strip b = strip b0 → b_flags b = b_flags b0 ∧ b_dev b = b_dev b0 ∧ b_blockno b = b_blockno b0 ∧
    b_data b = b_data b0.
Proof. intros H. split_and!; by injection H. Qed.

Lemma bio_ok_relink s l l' bs' :
  bio_ok s l → strip <$> bs' = strip <$> bufs s → seg (nx bs') (pv bs') bhead l' bhead → l' ≡ₚ l →
  bio_ok (set_bufs bs' s) l'.
Proof.
  intros H Hs Hseg Hl. pose proof H as [H1 H2 H3 H4 H5 H6]. split; [|done|by rewrite Hl| |done|].
  - simpl. rewrite <- H1, <- (length_fmap strip bs'), Hs. by rewrite length_fmap.
  - intros i j bi bj Hi Hj Hbi Hbj. simpl in Hbi, Hbj.
    destruct (strip_lookup _ _ _ _ Hs Hbi) as (bi0 & Hbi0 & (_ & -> & -> & _)%strip_fields).
    destruct (strip_lookup _ _ _ _ Hs Hbj) as (bj0 & Hbj0 & (_ & -> & -> & _)%strip_fields). by apply H4.
  - intros i b Hi Hb. simpl in Hb. destruct (strip_lookup _ _ _ _ Hs Hb) as (b0 & Hb0 & He).
    destruct (strip_fields _ _ He) as (E1 & E2 & E3 & E4).
    assert (∀ F, flag F b = flag F b0) as Hfl by (intros F; unfold flag; by rewrite E1).
    destruct (H6 i b0 Hi Hb0) as [K1 K2 K3]. split; rewrite ?Hfl, ?E2, ?E3, ?E4; done.
Qed.

Lemma lblk_relink s l l' bs' n :
  bio_ok s l → bio_ok (set_bufs bs' s) l' → strip <$> bs' = strip <$> bufs s →
  lblk (set_bufs bs' s) n = lblk s n.
Proof.
  intros H H' Hs. destruct (lblk_cases _ l' n H') as [(i & b & Hi & Hb & Hh)|Hunc].
  - rewrite (lblk_cached _ l' i b n H' Hi Hb Hh). simpl in Hb.
    destruct (strip_lookup _ _ _ _ Hs Hb) as (b0 & Hb0 & (E1 & E2 & E3 & E4)%strip_fields).
    rewrite (lblk_cached s l i b0 n H Hi Hb0) by (unfold has in *; congruence).
    unfold flag. by rewrite E1, E4.
  - rewrite (lblk_uncached _ l' n H' Hunc). symmetry. apply (lblk_uncached s l n H).
    intros i b0 Hi Hb0. destruct (bo_lookup _ l' i H' ltac:(lia)) as [b Hb]. simpl in Hb.
    destruct (strip_lookup _ _ _ _ Hs Hb) as (b1 & Hb1 & (E1 & E2 & E3 & E4)%strip_fields).
    rewrite Hb0 in Hb1. injection Hb1 as <-. rewrite <- (Hunc i b Hi Hb). unfold has. congruence.
Qed.

Lemma getb_link s i : (i < length (bufs s))%nat → ∃ b, getb i s = Ok b s ∧ b_next b = nx (bufs s) i ∧ b_prev b = pv (bufs s) i.
Proof.
  intros Hi. destruct (lookup_lt_is_Some_2 _ _ Hi) as [b Hb]. exists b. unfold nx, pv. rewrite Hb.
  split; [by apply getb_ok|done].
Qed.

Lemma setb_step s i f {A} (k : unit → K (bst B) A) :
  (i < length (bufs s))%nat → (setb i f ≫= k) s = k tt (set_bufs (alter f i (bufs s)) s).
Proof. intros Hi. by rewrite (bind_ok _ _ _ _ _ (setb_ok s i f Hi)). Qed.

Lemma hd_in (a : nat) l : hd a l ∈ a :: l.
Proof. destruct l; set_solver. Qed.

(** The neighbours of a node on the ring. *)
Lemma ring_neighbours N P l1 b l2 :
  NoDup (bhead :: l1 ++ b :: l2) → seg N P bhead (l1 ++ b :: l2) bhead →
  N b ∈ bhead :: l1 ++ l2 ∧ P b ∈ bhead :: l1 ++ l2 ∧ b ∉ bhead :: l1 ++ l2.
Proof.
  intros Hnd [Hs1 Hs2]%seg_app. rewrite (seg_first _ _ _ _ _ Hs2).
  destruct (seg_end _ _ _ _ _ Hs1) as [_ ->].
  pose proof (hd_in bhead l2). pose proof (tailof_in bhead l1).
  rewrite NoDup_cons, NoDup_app, NoDup_cons in Hnd. set_solver.
Qed.

(** The table after the first two and after the last four assignments. *)
Definition unlinked_bufs (b : nat) bs : list buf :=
  alter (set_b_next (nx bs b)) (pv bs b) (alter (set_b_prev (pv bs b)) (nx bs b) bs).

Definition fronted_bufs (b : nat) bs : list buf :=
  let n := nx bs bhead in
  alter (set_b_next b) bhead (alter (set_b_prev b) n (alter (set_b_prev bhead) b (alter (set_b_next n) b bs))).

Lemma unlinked_links b bs :
  (nx bs b < length bs)%nat → (pv bs b < length bs)%nat →
  (∀ j, nx (unlinked_bufs b bs) j = upd (pv bs b) (nx bs b) (nx bs) j) ∧
  (∀ j, pv (unlinked_bufs b bs) j = upd (nx bs b) (pv bs b) (pv bs) j).
Proof.
  intros Hn Hp. unfold unlinked_bufs. split; intros j.
  - rewrite nx_set_next by (by rewrite length_alter). unfold upd. destruct (j =? pv bs b)%nat; [done|].
    apply nx_set_prev.
  - rewrite pv_set_next. by apply pv_set_prev.
Qed.

Lemma fronted_links b bs :
  (nx bs bhead < length bs)%nat → (b < length bs)%nat → (bhead < length bs)%nat →
  (∀ j, nx (fronted_bufs b bs) j = upd bhead b (upd b (nx bs bhead) (nx bs)) j) ∧
  (∀ j, pv (fronted_bufs b bs) j = upd (nx bs bhead) b (upd b bhead (pv bs)) j).
Proof.
  intros Hn Hb Hh. unfold fronted_bufs. split; intros j.
  - rewrite nx_set_next by (by rewrite !length_alter).
    destruct (decide (j = bhead)) as [->|Hj]; [by rewrite !upd_eq|rewrite !(upd_ne bhead) by done].
    rewrite nx_set_prev, nx_set_prev. by apply nx_set_next.
  - rewrite pv_set_next. rewrite pv_set_prev by (by rewrite !length_alter).
    destruct (decide (j = nx bs bhead)) as [->|Hj]; [by rewrite !upd_eq|rewrite !(upd_ne (nx bs bhead)) by done].
    rewrite pv_set_prev by (by rewrite length_alter).
    destruct (decide (j = b)) as [->|Hj']; [by rewrite !upd_eq|rewrite !(upd_ne b) by done].
    apply pv_set_next.
Qed.

Lemma getb_next s i {A} (k : buf → K (bst B) A) k' :
  (i < length (bufs s))%nat →
  (∀ x, b_next x = nx (bufs s) i → b_prev x = pv (bufs s) i → k x s = k') → (getb i ≫= k) s = k'.
Proof.
  intros Hi Hk. destruct (getb_link s i Hi) as (x & Hx & H1 & H2). rewrite (bind_ok _ _ _ _ _ Hx). by apply Hk.
Qed.

Lemma move_to_front_run s b :
  let bs := bufs s in
  (b < length bs)%nat → (nx bs b < length bs)%nat → (pv bs b < length bs)%nat → nx bs b ≠ b →
  (bhead < length bs)%nat → b ≠ bhead → (nx (unlinked_bufs b bs) bhead < length bs)%nat →
  move_to_front b s = Ok tt (set_bufs (fronted_bufs b (unlinked_bufs b bs)) s).
Proof.
  cbv zeta. intros Hb Hn Hp Hnb Hh Hbh Hn2. unfold move_to_front.
  apply getb_next; [done|]. intros x -> ->. rewrite setb_step by done.
  apply getb_next; [by simpl; rewrite length_alter|]. intros y Hx1 Hx2. cbn [bufs set_bufs] in Hx1, Hx2.
  rewrite nx_set_prev in Hx1. rewrite pv_set_prev, upd_ne in Hx2 by done.
  rewrite Hx1, Hx2, setb_step by (by simpl; rewrite length_alter).
  cbn [bufs set_bufs]. fold (unlinked_bufs b (bufs s)). set (bs2 := unlinked_bufs b (bufs s)) in *.
  assert (length bs2 = length (bufs s)) as L2 by (unfold bs2, unlinked_bufs; by rewrite !length_alter).
  apply getb_next; [by simpl; rewrite L2|]. intros h Hh1 _. cbn [bufs set_bufs] in Hh1. rewrite Hh1.
  rewrite setb_step by (by simpl; rewrite L2). rewrite setb_step by (by simpl; rewrite length_alter, L2).
  cbn [bufs set_bufs]. apply getb_next; [by simpl; rewrite !length_alter, L2|]. intros h' Hh2 _.
  cbn [bufs set_bufs] in Hh2. rewrite nx_set_prev, nx_set_next, upd_ne in Hh2 by (rewrite ?L2; done).
  rewrite Hh2, setb_step by (by simpl; rewrite !length_alter, L2).
  rewrite setb_ok by (by simpl; rewrite !length_alter, L2). done.
Qed.

Lemma move_to_front_ok s l1 b l2 :
  bio_ok s (l1 ++ b :: l2) →
  ∃ bs', move_to_front b s = Ok tt (set_bufs bs' s) ∧ strip <$> bs' = strip <$> bufs s ∧
    seg (nx bs') (pv bs') bhead (b :: l1 ++ l2) bhead.
Proof.
  intros H. pose proof (bo_ring _ _ H) as Hseg. pose proof (bo_nodup _ _ H) as Hnd.
  pose proof (bo_len _ _ H) as Hlen. set (bs := bufs s) in *.
  destruct (ring_neighbours _ _ l1 b l2 Hnd Hseg) as (HN & HP & Hb).
  pose proof (ring_unlink _ _ bhead l1 b l2 Hnd Hseg) as Hseg2.
  assert (∀ x, x ∈ bhead :: l1 ++ l2 → (x < length bs)%nat) as Hin.
  { intros x [->|Hx]%elem_of_cons; [unfold bhead; lia|].
    assert (x ∈ l1 ++ b :: l2) as Hx' by set_solver. apply (bo_elem _ _ _ H) in Hx'. lia. }
  assert (b < length bs)%nat as Hbl.
  { rewrite Hlen. apply Nat.lt_lt_succ_r, (bo_elem _ _ _ H). set_solver. }
  destruct (unlinked_links b bs (Hin _ HN) (Hin _ HP)) as [U1 U2].
  assert (length (unlinked_bufs b bs) = length bs) as Hl2 by (unfold unlinked_bufs; by rewrite !length_alter).
  assert (seg (nx (unlinked_bufs b bs)) (pv (unlinked_bufs b bs)) bhead (l1 ++ l2) bhead) as Hseg3.
  { eapply seg_ext; [| |exact Hseg2]; intros; auto. }
  assert (nx (unlinked_bufs b bs) bhead < length bs)%nat as Hn2.
  { rewrite (seg_first _ _ _ _ _ Hseg3). apply Hin, hd_in. }
  exists (fronted_bufs b (unlinked_bufs b bs)). split; [|split].
  - apply move_to_front_run; try done; [by apply Hin|by apply Hin| |by apply Hin; left|].
    + intros E. apply Hb. by rewrite <- E at 1.
    + intros ->. apply Hb. left.
  - unfold fronted_bufs, unlinked_bufs. rewrite !strip_alter by done. done.
  - destruct (fronted_links b (unlinked_bufs b bs)) as [F1 F2]; [lia|lia|rewrite Hl2; apply Hin; left|].
    assert (NoDup (bhead :: b :: l1 ++ l2)) as Hnd'.
    { rewrite NoDup_cons, <- Permutation_middle, NoDup_cons in Hnd. rewrite !NoDup_cons. set_solver. }
    pose proof (ring_insert _ _ bhead b (l1 ++ l2) Hnd' Hseg3) as Hseg6.
    eapply seg_ext; [| |exact Hseg6]; intros; auto.
Qed.

Lemma strip_alter_cong bs bs' i f :
  (∀ b b', strip b = strip b' → strip (f b) = strip (f b')) →
  strip <$> bs' = strip <$> bs → strip <$> alter f i bs' = strip <$> alter f i bs.
Proof.
  intros Hf Hs. apply list_eq. intros j. assert ((strip <$> bs') !! j = (strip <$> bs) !! j) as H by by rewrite Hs.
  rewrite !list_lookup_fmap in *. destruct (decide (i = j)) as [->|]; [|by rewrite !list_lookup_alter_ne].
  rewrite !list_lookup_alter_eq. destruct (bs' !! j), (bs !! j); try done. simpl in *. f_equal.
  apply Hf. by apply (inj Some).
Qed.

Definition unbusy (b : buf) : buf := set_b_flags (Z.ldiff (b_flags b) B_BUSY) b.

Lemma strip_unbusy b b' : strip b = strip b' → strip (unbusy b) = strip (unbusy b').
Proof.
  intros (E1 & E2 & E3 & E4)%strip_fields. unfold unbusy, strip, set_b_qnext, set_b_next, set_b_prev, set_b_flags. simpl.
  congruence.
Qed.

Lemma buf_ok_strip d b b' : strip b = strip b' → buf_ok d b → buf_ok d b'.
Proof.
  intros (E1 & E2 & E3 & E4)%strip_fields [K1 K2 K3].
  assert (∀ F, flag F b' = flag F b) as Hfl by (intros F; unfold flag; by rewrite E1).
  split; rewrite ?Hfl, <- ?E2, <- ?E3, <- ?E4; done.
Qed.

(** Moved to the front and no longer busy. *)
Lemma unbusy_front_ok s l1 i l2 b :
  bio_ok s (l1 ++ i :: l2) → bufs s !! i = Some b → buf_ok (disk s) (unbusy b) →
  ∃ sm bs', move_to_front i s = Ok tt sm ∧ setb i unbusy sm = Ok tt (set_bufs bs' s) ∧
    bio_ok (set_bufs bs' s) (i :: l1 ++ l2) ∧ strip <$> bs' = strip <$> alter unbusy i (bufs s) ∧
    (∀ m, lblk (set_bufs bs' s) m = lblk s m).
Proof.
  intros H Hb Hbk. assert (i < NBUF)%nat as Hi by (apply (bo_elem _ _ _ H); set_solver).
  destruct (move_to_front_ok s l1 i l2 H) as (bs' & Hmove & Hstrip & Hseg).
  assert (bio_ok (set_bufs bs' s) (i :: l1 ++ l2)) as H2.
  { eapply bio_ok_relink; [done|done|done|by rewrite Permutation_middle]. }
  destruct (bo_lookup _ _ i H2 ltac:(lia)) as [b2 Hb2].
  assert (strip b2 = strip b) as He2.
  { destruct (strip_lookup _ _ _ _ Hstrip Hb2) as (b0 & Hb0 & He). congruence. }
  assert (bio_ok (bset i unbusy (set_bufs bs' s)) (i :: l1 ++ l2)) as H3.
  { eapply bio_ok_bset; [done|done|done| |].
    - intros j bj Hj Hne Hbj Hnd Hd Hn. apply Hne.
      eapply (bo_unique _ _ H2 j i bj b2); eauto; simpl in *; congruence.
    - eapply buf_ok_strip; [|done]. symmetry. by apply strip_unbusy. }
  exists (set_bufs bs' s), (alter unbusy i bs'). split_and!; [done| |done| |].
  - exact (setb_alter (set_bufs bs' s) i unbusy b2 Hb2).
  - apply strip_alter_cong; [apply strip_unbusy|done].
  - intros m. etrans; [|apply (lblk_relink s _ _ bs' m H H2 Hstrip)].
    eapply (lblk_bset_same (set_bufs bs' s)); try done. apply (flag_clear_busy b2).
Qed.

Lemma brelse_ok L s l1 i l2 b :
  bio_ok s (l1 ++ i :: l2) → k_ok L s → Lbcache ∉ L → Lptable ∉ L →
  bufs s !! i = Some b → flag B_BUSY b = true → buf_ok (disk s) (unbusy b) →
  ∃ s', brelse i s = Ok tt s' ∧ bio_ok s' (i :: l1 ++ l2) ∧ k_ok L s' ∧
    strip <$> bufs s' = strip <$> alter unbusy i (bufs s) ∧ disk s' = disk s ∧ writes s' = writes s ∧
    k_keep (bbase s) (bbase s') ∧ (∀ m, lblk s' m = lblk s m).
Proof.
  intros H HL Hlk Hpt Hb Hbusy Hbk.
  destruct (inner_acquire L Lbcache s HL Hlk) as (b1 & Hacq & HL1 & Hk1).
  set (s1 := put b1 s) in *. assert (bio_ok s1 (l1 ++ i :: l2)) as H1 by by apply bio_ok_base.
  destruct (unbusy_front_ok s1 l1 i l2 b H1 Hb Hbk) as (sm & bs' & Hmove & Hset & H2 & Hstrip & Hl).
  set (s2 := set_bufs bs' s1) in *.
  destruct (inner_wakeup ({[Lbcache]} ∪ L) (ChBuf i) s2) as (b3 & Hwk & HL3 & Hk3); [done|set_solver|].
  set (s3 := put b3 s2) in *.
  destruct (inner_release ({[Lbcache]} ∪ L) Lbcache s3) as (b4 & Hrel & HL4 & Hk4); [done|set_solver|].
  rewrite diff_union_lock in HL4 by done.
  exists (put b4 s3). split_and!; try done.
  - unfold brelse. rewrite (bind_ok _ _ _ _ _ (getb_ok _ _ _ Hb)), Hbusy. cbn [negb].
    rewrite (bind_ok _ _ s tt s) by done. rewrite (bind_ok _ _ _ _ _ Hacq). fold s1.
    rewrite (bind_ok _ _ _ _ _ Hmove), (bind_ok _ _ _ _ _ Hset), (bind_ok _ _ _ _ _ Hwk). exact Hrel.
  - by do 2 apply bio_ok_base.
  - by repeat (etrans; [eassumption|]).
Qed.
End release.

(** ** Contention *)

Section contention.
Context {B : Type} {O : KOps B} {W : KLaws B}.
Implicit Types (s : bst B) (l : list nat).

(** Some buffer can be recycled. *)
Definition spare s : Prop := ∃ i b, (i < NBUF)%nat ∧ bufs s !! i = Some b ∧ clean b = true.

(** What a thread in [bget] leaves to the others when it sleeps, and what it
    counts on when it is woken: the invariant, and a buffer to recycle. *)
Definition bget_env (x : nat) : env (bst B) :=
  Env (λ s, ∃ l, bio_ok s l)
      (λ _ s, (∃ l, bio_ok s l) ∧ k_ok {[Lptable]} s ∧ k_self s = Some x ∧ spare s) True.

(** Buffer [i], free in [s0], has been taken for block [n]; nothing else of the cache
    or the disk has changed since [s0]. *)
Record taken n s0 i s' : Prop := Taken {
  tk_was : ∃ l, bio_ok s0 l;
  tk_free : ∃ b0, bufs s0 !! i = Some b0 ∧ flag B_BUSY b0 = false;
  tk_index : (i < NBUF)%nat;
  tk_buf : ∃ b, bufs s' !! i = Some b ∧ flag B_BUSY b = true ∧ has 1 n b = true ∧
    (flag B_VALID b = true → flag B_DIRTY b = false → disk s' !! Z.to_nat n = Some (b_data b));
  tk_others : ∀ j, j ≠ i → bufs s' !! j = bufs s0 !! j;
  tk_content : ∀ m, 0 ≤ m → lblk s' m = lblk s0 m;
  tk_disk : disk s' = disk s0;
  tk_ok : ∃ l, bio_ok s' l;
  tk_locks : k_ok ∅ s'
}.

(** The locks may have changed since. *)
Lemma got_taken l b1 s0 n i s' : bio_ok s0 l → gotbuf ∅ l (put b1 s0) n i s' → taken n s0 i s'.
Proof.
  intros H [G1 G2 G3 G4 (b & Hb & Hbusy & Hh & _ & _ & Hd) G6 G7 G8 G9 _]. split; eauto 10.
Qed.

Lemma empty_union_lock (lk : lockid) : {[lk]} ∪ ∅ = ({[lk]} : gset lockid).
Proof. set_solver. Qed.

(** The block is free, or it or a buffer to recycle can be taken: one round of
    [bget] from a state that differs from [s0] by locks only. *)
Lemma bget_try_spec x s0 b0 l n :
  let s := put b0 s0 in
  bio_ok s0 l → k_ok {[Lbcache]} s → k_self s = Some x → spare s0 → 0 ≤ n →
  wps (bget_env x) (bget_try 1 n) (λ s1 r s', match r with
    | Some i => taken n s1 i s'
    | None => ∃ b1 l1, s' = put b1 s1 ∧ bio_ok s1 l1 ∧ k_ok {[Lbcache]} s' ∧ k_self s' = Some x ∧ spare s1
    end) s0 s.
Proof.
  intros s H0 HL Hx Hsp Hn. assert (k_ok ({[Lbcache]} ∪ ∅) s) as HL' by by rewrite empty_union_lock.
  assert (bio_ok s l) as H by by apply bio_ok_base.
  destruct (cached s n) as [i|] eqn:Ec.
  - pose proof Ec as (Hi & b & Hb & Hh)%(cached_iff s l); [|done].
    destruct (flag B_BUSY b) eqn:Hbusy.
    + unfold bget_try. apply wps_bind. eapply wps_ok; [by apply (find_cached_1 s l)|]. rewrite Ec.
      apply wps_bind. eapply wps_ok; [by apply getb_ok|]. rewrite Hbusy. cbn [negb]. apply wps_bind.
      eapply (wps_k_sleep _ _ _ s x); [done|done|done|]. intros s1 (b1 & -> & _). split.
      { exists l. by apply bio_ok_base. }
      intros s2 (Hok2 & HL2 & Hx2 & Hsp2). split_and!; [done|done|].
      intros s3 HL3 (b3 & -> & _) Hx3. destruct Hok2 as [l2 Hok2]. eapply wps_ok; [done|]. by exists b3, l2.
    + destruct (bget_try_cached ∅ s l n i b H HL') as (b' & Hr & HL2 & Hk); [set_solver|done|done|done|].
      eapply wps_ok; [exact Hr|]. apply (got_taken l b0); [done|]. by eapply gotbuf_cached.
  - assert (∀ j bj, (j < NBUF)%nat → bufs s !! j = Some bj → has 1 n bj = false) as Hunc.
    { intros j bj Hj Hbj. destruct (has 1 n bj) eqn:Hh; [|done].
      assert (cached s n = Some j) by (apply (cached_iff s l); eauto). congruence. }
    destruct Hsp as (k & bk & Hk & Hbk & Hck).
    destruct (find (λ i, from_option clean false (bufs s !! i)) (rev l)) as [i|] eqn:Ef.
    + destruct (bget_try_recycled ∅ s l n i H HL') as (b2 & Ht & HL2 & Hk2); [set_solver|done|done|].
      apply find_some in Ef as [Hi Hb]. apply in_rev, list_elem_of_In, (bo_elem s l _ H) in Hi.
      destruct (bufs s !! i) as [b|] eqn:Eb; [|done].
      eapply wps_ok; [exact Ht|]. apply (got_taken l b0); [done|]. by eapply gotbuf_recycled.
    + exfalso. pose proof (find_none _ _ Ef k) as Hnone. change (bufs s) with (bufs s0) in Hnone. simpl in Hnone.
      rewrite Hbk in Hnone. simpl in Hnone. rewrite Hck in Hnone. discriminate Hnone.
      apply in_rev. rewrite rev_involutive. by apply list_elem_of_In, (bo_elem s l _ H).
Qed.

Lemma bget_spec x s l n retries :
  bio_ok s l → k_ok ∅ s → k_self s = Some x → spare s → 0 ≤ n →
  wps (bget_env x) (bget retries 1 n) (taken n) s s.
Proof.
  intros H HL Hx Hsp Hn. unfold bget. apply wps_bind.
  destruct (inner_acquire ∅ Lbcache s HL) as (b1 & Hr & HL1 & (_ & Hs1 & _)); [set_solver|].
  eapply wps_ok; [exact Hr|]. rewrite empty_union_lock in HL1.
  assert (k_self (put b1 s) = Some x) as Hx1 by (etransitivity; [exact Hs1|exact Hx]).
  change (k_ok {[Lbcache]} (put b1 s)) in HL1. clear HL Hx Hs1 Hr.
  generalize 0%nat. generalize (S retries) as fuel. intros fuel.
  revert s b1 l HL1 Hx1 H Hsp. induction fuel as [|fuel IH]; intros s b1 l HL1 Hx1 H1 Hsp1 n0; [done|].
  cbn [while]. apply wps_bind, wps_bind. eapply wpso_mono; [|by eapply bget_try_spec].
  intros s1 [i|] s' Hpost; (eapply wps_ok; [done|]); [by eapply wps_ok|].
  destruct Hpost as (b2 & l2 & -> & H2 & HL2 & Hx2 & Hsp2). by eapply IH.
Qed.
End contention.
