(* ===== verification/BioProps.v ===== *)
(** * Properties of the buffer cache

    [binit] establishes the invariant; [bread] returns the current content of a
    block in a buffer nobody else has; a write reaches the disk; releasing a
    buffer makes it the most recently used one. *)
From S2P Require Import Prelude Spinlock Str Ptable PtableLists Sched Choice Scheduling Services Kalloc BioRing Bio BioFacts.

(** The zeroed table, and the one [binit] leaves: buffer 29 first, 0 last. *)
Definition zero_block : block := replicate BSIZE 0.
Definition bufs0 : list buf := replicate (S NBUF) (Buf 0 0 0 0 0 None zero_block).
Definition bufs_init : list buf :=
  ((λ i, Buf 0 NODEV 0 (S i) (match i with O => bhead | S j => j end) None zero_block) <$> seq 0 NBUF) ++
  [Buf 0 0 0 0 29 None zero_block].

Lemma binit_run {B} {O : KOps B} {W : KLaws B} (s : bst B) L :
  k_ok L s → Lbcache ∉ L → bufs s = bufs0 →
  ∃ b', binit s = Ok tt (set_bufs bufs_init (set_bbase b' s)) ∧ k_ok L b' ∧ k_keep (bbase s) b'.
Proof.
  intros HL Hlk Hb. destruct (inner_initlock L Lbcache "bcache" s HL Hlk) as (b' & Hr & Hok & Hk).
  exists b'. split_and!; [|done|done]. unfold binit. rewrite (bind_ok _ _ _ _ _ Hr).
  simpl put. unfold set_bbase. rewrite Hb. destruct s as [bb bf dk wr]. simpl. vm_compute. reflexivity.
Qed.

Lemma bufs_init_ok {B} (s : bst B) :
  bufs s = bufs_init → (∀ n d, disk s !! n = Some d → length d = BSIZE) → bio_ok s (rev (seq 0 NBUF)).
Proof.
  intros Hb Hd. split.
  - by rewrite Hb.
  - rewrite Hb. vm_compute. repeat split.
  - by rewrite Permutation_rev, rev_involutive.
  - intros i j bi bj Hi Hj Hbi Hbj _ _ Hnd. rewrite Hb in Hbi. exfalso. apply Hnd.
    unfold bufs_init in Hbi. rewrite lookup_app_l, list_lookup_fmap in Hbi by (by rewrite length_fmap, length_seq).
    rewrite lookup_seq_lt in Hbi by done. simpl in Hbi. by injection Hbi as <-.
  - done.
  - intros i b Hi Hbi. rewrite Hb in Hbi. unfold bufs_init in Hbi.
    rewrite lookup_app_l, list_lookup_fmap in Hbi by (by rewrite length_fmap, length_seq).
    rewrite lookup_seq_lt in Hbi by done. simpl in Hbi. injection Hbi as <-.
    split; [by rewrite <- (length_replicate BSIZE 0)|done|done].
Qed.

(** A disk of 40 blocks, block 5 holding sevens. *)
Definition disk40 : list block := <[5%nat := replicate BSIZE 7]> (replicate 40 zero_block).
Definition bst1 : bst pst := Bst (Table.table mach0 100) bufs_init disk40 [].

Lemma disk40_len n d : disk40 !! n = Some d → length d = BSIZE.
Proof.
  unfold disk40. intros [(_ & <- & _)|[_ Hd]]%list_lookup_insert_Some; [by rewrite length_replicate|].
  apply lookup_replicate in Hd as [-> _]. unfold zero_block. by rewrite length_replicate.
Qed.

Lemma bst1_ok : bio_ok bst1 (rev (seq 0 NBUF)).
Proof. apply bufs_init_ok; [done|]. apply disk40_len. Qed.

Lemma bst1_spare : spare bst1.
Proof. exists 0%nat. eexists. split; [unfold NBUF; lia|]. split; reflexivity. Qed.

Lemma bst1_available n : available bst1 n.
Proof.
  assert (forallb (λ b, b_dev b =? NODEV) (take NBUF bufs_init) = true) as Hnd by (vm_compute; reflexivity).
  rewrite forallb_forall in Hnd. split.
  - intros i b Hi Hb Hh. exfalso. unfold has in Hh. rewrite andb_true_iff, Z.eqb_eq in Hh.
    destruct Hh as [Hd _]. specialize (Hnd b). rewrite Hd in Hnd. discriminate Hnd.
    apply list_elem_of_In, list_elem_of_lookup. exists i. by rewrite lookup_take_lt.
  - intros _. exact bst1_spare.
Qed.

(** ** Properties *)

(** from the zeroed table, [binit] links all buffers into the ring, none holding a
    block, and so establishes the cache invariant. *)
Theorem binit_establishes {B} {O : KOps B} {W : KLaws B} (s : bst B) L :
  k_ok L s → Lbcache ∉ L → bufs s = bufs0 → (∀ n d, disk s !! n = Some d → length d = BSIZE) →
  ∃ s', binit s = Ok tt s' ∧ bio_ok s' (rev (seq 0 NBUF)) ∧ k_ok L s' ∧ disk s' = disk s.
Proof.
  intros HL Hlk Hb Hd. destruct (binit_run s L HL Hlk Hb) as (b' & Hr & Hok & _).
  eexists. split; [exact Hr|]. split; [|done]. by apply bufs_init_ok.
Qed.

Lemma binit_establishes_witness :
  ∃ s', binit (Bst (Table.table mach0 100) bufs0 disk40 []) = Ok tt s' ∧ bio_ok s' (rev (seq 0 NBUF)).
Proof.
  destruct (binit_establishes (Bst (Table.table mach0 100) bufs0 disk40 []) ∅) as (s' & Hr & H & _).
  - exact table_ok.
  - set_solver.
  - reflexivity.
  - exact disk40_len.
  - exists s'. split; [exact Hr|exact H].
Defined.

(** C14: when nobody else has block [n], [bread] returns without sleeping a buffer that
    was free, now busy and valid, holding the block's current content (the
    cached copy, written back or not, else what the disk holds); recycling a
    buffer for it loses nothing: every block's content, the disk and all other
    buffers are as before. *)
Theorem bread_coherent {B} {O : KOps B} {W : KLaws B} retries L (s : bst B) l n :
  bio_ok s l → k_ok L s → Lbcache ∉ L → 0 ≤ n < Z.of_nat (length (disk s)) → available s n →
  ∃ i s' b, bread retries 1 n s = Ok i s' ∧ bio_ok s' l ∧ k_ok L s' ∧
    (∃ b0, bufs s !! i = Some b0 ∧ flag B_BUSY b0 = false) ∧
    bufs s' !! i = Some b ∧ flag B_BUSY b = true ∧ flag B_VALID b = true ∧ has 1 n b = true ∧
    lblk s n = Some (b_data b) ∧
    (∀ m, 0 ≤ m → lblk s' m = lblk s m) ∧ disk s' = disk s ∧ writes s' = writes s ∧
    (∀ j, j ≠ i → bufs s' !! j = bufs s !! j).
Proof.
  intros H HL Hlk Hn Hav. destruct (bread_ok retries L s l n H HL Hlk Hn Hav) as (i & s' & b & Hr & G & Hb & Hv & Hd).
  destruct G as [G1 G2 G3 G4 (b' & G5 & G5b & G5h & _ & _) G6 G7 G8 G9 _]. rewrite Hb in G5. injection G5 as <-.
  exists i, s', b. split_and!; done.
Qed.

Lemma bread_coherent_witness :
  ∃ i s' b, bread 0 1 5 bst1 = Ok i s' ∧ bufs s' !! i = Some b ∧ lblk bst1 5 = Some (b_data b).
Proof.
  destruct (bread_coherent 0 ∅ bst1 (rev (seq 0 NBUF)) 5) as (i & s' & b & Hr & _ & _ & _ & Hb & _ & _ & _ & Hd & _).
  - exact bst1_ok.
  - exact table_ok.
  - set_solver.
  - vm_compute. split; [discriminate|reflexivity].
  - apply bst1_available.
  - exists i, s', b. split; [exact Hr|]. split; [exact Hb|exact Hd].
Defined.

(** C15: [bget] under contention: however often the thread finds the block busy, sleeps
    and is woken (the cache invariant holding whenever it gives up the
    processor), the buffer it returns was free in the state [s0] in which the
    thread last got the processor, the start or its last resumption; it is now
    busy and has the block, and no other buffer and no block's content has
    changed since: a buffer that another thread had in [s0] is never taken.  It
    returns without sleeping if the block is not in use. *)
Theorem bget_exclusive {B} {O : KOps B} {W : KLaws B} x (s : bst B) l n retries :
  bio_ok s l → k_ok ∅ s → k_self s = Some x → spare s → 0 ≤ n →
  wps (bget_env x) (bget retries 1 n) (λ s0 i s', taken n s0 i s') s s ∧
  (available s n → ∃ i s', bget retries 1 n s = Ok i s').
Proof.
  intros H HL Hx Hsp Hn. split; [by eapply bget_spec|]. intros Hav.
  destruct (bget_ok retries ∅ s l n H HL ltac:(set_solver) Hn Hav) as (i & s' & Hr & _). by exists i, s'.
Qed.

Lemma bget_exclusive_witness : wps (bget_env 0) (bget 10 1 5) (λ s0 i s', taken 5 s0 i s') bst1 bst1 ∧
  ∃ i s', bget 10 1 5 bst1 = Ok i s'.
Proof.
  destruct (bget_exclusive 0 bst1 (rev (seq 0 NBUF)) 5 10) as [H1 H2].
  - exact bst1_ok.
  - exact table_ok.
  - reflexivity.
  - exact bst1_spare.
  - lia.
  - split; [exact H1|apply H2, bst1_available].
Defined.

(** writing a busy buffer and releasing it puts its data on the disk as one block
    write, makes it the most recently used buffer and leaves every block's
    content, as the kernel sees it, what it was; the buffer is free again. *)
Theorem bwrite_brelse {B} {O : KOps B} {W : KLaws B} L (s : bst B) l1 i l2 b n :
  bio_ok s (l1 ++ i :: l2) → k_ok L s → Lbcache ∉ L → Lptable ∉ L → bufs s !! i = Some b →
  flag B_BUSY b = true → flag B_VALID b = true → has 1 n b = true →
  0 ≤ n < Z.of_nat (length (disk s)) →
  ∃ s' b', (bwrite i;; brelse i) s = Ok tt s' ∧ bio_ok s' (i :: l1 ++ l2) ∧ k_ok L s' ∧
    disk s' = <[Z.to_nat n := b_data b]> (disk s) ∧ writes s' = writes s ++ [(n, b_data b)] ∧
    bufs s' !! i = Some b' ∧ clean b' = true ∧ lblk s' n = Some (b_data b) ∧
    (∀ m, 0 ≤ m → lblk s' m = lblk s m).
Proof.
  intros H HL Hlk Hpt Hb Hbusy Hv Hh Hn. 
  assert (i < NBUF)%nat as Hi by (apply (bo_elem _ _ _ H); set_solver).
  destruct (bwrite_ok s _ i b n H Hi Hb Hbusy Hv Hh Hn) as (f & Hr1 & H1 & Hd & Hh1 & Hf1 & Hf2 & Hf3 & Hl1).
  set (s1 := dset n (b_data b) (bset i f s)) in *.
  assert (bufs s1 !! i = Some (f b)) as Hb1 by (simpl; by rewrite list_lookup_alter_eq, Hb).
  assert (buf_ok (disk s1) (unbusy (f b))) as Hk.
  { destruct (flag_clear_busy (f b)) as (C1 & C2 & C3). split.
    - simpl. rewrite Hd. apply (bk_len _ _ (bo_buf _ _ H i b Hi Hb)).
    - intros _ _ _. unfold has in Hh1. rewrite andb_true_iff, !Z.eqb_eq in Hh1. destruct Hh1 as [E1 E2].
      simpl. rewrite E1, E2, Hd. split_and!; [done|lia|]. apply list_lookup_insert_eq. lia.
    - intros _ E. unfold unbusy in E. rewrite C2, Hf2 in E. done. }
  destruct (brelse_ok L s1 l1 i l2 (f b) H1 HL Hlk Hpt Hb1 Hf1 Hk) as
    (s2 & Hr2 & H2 & HL2 & Hst & Hdk & Hw & _ & Hl2).
  destruct (bo_lookup _ _ i H2 ltac:(lia)) as [b2 Hb2].
  destruct (strip_lookup _ _ _ _ Hst Hb2) as (b3 & Hb3 & (E1 & E2 & E3 & E4)%strip_fields).
  rewrite list_lookup_alter_eq, Hb1 in Hb3. simpl in Hb3. injection Hb3 as <-.
  exists s2, b2. split_and!; try done.
  - by rewrite (bind_ok _ _ _ _ _ Hr1).
  - destruct (flag_clear_busy (f b)) as (C1 & C2 & C3). unfold clean, flag. rewrite E1.
    change (negb (flag B_BUSY (unbusy (f b))) && negb (flag B_DIRTY (unbusy (f b))) = true).
    unfold unbusy. rewrite C1, C3, Hf3. done.
  - rewrite Hl2, Hl1 by lia. by rewrite (lblk_cached s _ i b n H Hi Hb Hh), Hv.
  - intros m Hm. rewrite Hl2. by apply Hl1.
Qed.

(** Buffer 3 busy with block 5, its data changed. *)
Definition busy_buf : buf := Buf 3 1 5 4 2 None (replicate BSIZE 9).
Definition bst2 : bst pst := set_bufs (<[3%nat := busy_buf]> bufs_init) bst1.

Lemma bst2_ok : bio_ok bst2 (rev (seq 4 26) ++ 3%nat :: rev (seq 0 3)).
Proof.
  assert (bst2 = bset 3 (λ b, set_b_data (replicate BSIZE 9) (set_b_flags 3 (set_b_blockno 5 (set_b_dev 1 b)))) bst1) as ->
    by (vm_compute; reflexivity).
  eapply (bio_ok_bset bst1 _ 3); [exact bst1_ok|reflexivity|done| |].
  - intros j bj Hj Hne Hbj _ Hd Hbn. destruct (bst1_available 5) as [Hav _].
    assert (flag B_BUSY bj = false) as Hb.
    { apply (Hav j bj Hj Hbj). unfold has. simpl in Hd, Hbn. by rewrite Hd, Hbn. }
    assert (forallb (λ b, b_dev b =? NODEV) (take NBUF bufs_init) = true) as Hnd by (vm_compute; reflexivity).
    rewrite forallb_forall in Hnd. specialize (Hnd bj). simpl in Hd. rewrite Hd in Hnd. discriminate Hnd.
    apply list_elem_of_In, list_elem_of_lookup. exists j. by rewrite lookup_take_lt.
  - split; [by rewrite <- (length_replicate BSIZE 9)|done|done].
Qed.

Lemma bwrite_brelse_witness :
  ∃ s', (bwrite 3;; brelse 3) bst2 = Ok tt s' ∧ disk s' !! 5%nat = Some (replicate BSIZE 9) ∧
    lblk s' 5 = Some (replicate BSIZE 9).
Proof.
  destruct (bwrite_brelse ∅ bst2 (rev (seq 4 26)) 3 (rev (seq 0 3)) busy_buf 5) as
    (s' & b' & Hr & _ & _ & Hd & _ & _ & _ & Hl & _).
  - exact bst2_ok.
  - exact table_ok.
  - set_solver.
  - set_solver.
  - reflexivity.
  - reflexivity.
  - reflexivity.
  - reflexivity.
  - vm_compute. split; [discriminate|reflexivity].
  - exists s'. split; [exact Hr|]. split; [|exact Hl]. rewrite Hd. reflexivity.
Defined.
