(* ===== verification/Irq.v ===== *)
(** * The interrupt controllers (picirq.c, ioapic.c) and the timer chip (timer.c)

    The state keeps [irqmask], the bytes written to I/O ports in the order they
    were written, and the registers of the I/O APIC.  What the two 8259A chips
    make of the bytes is the function [chip], from their data sheet; the
    theorems say that the chips end up with the mask the kernel believes in,
    and that an interrupt is delivered exactly when it has been enabled. *)
From S2P Require Import Prelude Spinlock.

Definition T_IRQ0 : Z := 32.
Definition IRQ_TIMER : Z := 0.
Definition IRQ_KBD : Z := 1.
Definition IRQ_COM1 : Z := 4.
Definition IRQ_IDE : Z := 14.
Definition IO_PIC1 : Z := 0x20.
Definition IO_PIC2 : Z := 0xA0.
Definition IRQ_SLAVE : Z := 2.

Record irqst := Irqst {
  irqmask : Z;
  ports : list (Z * Z);
  ismp : bool;
  ioapicid : Z;
  ioapic_reg : Z;
  ioapic_data : gmap Z Z
}.

Definition set_irqmask (x : Z) (s : irqst) : irqst :=
  Irqst x (ports s) (ismp s) (ioapicid s) (ioapic_reg s) (ioapic_data s).
Definition set_ports (x : list (Z * Z)) (s : irqst) : irqst :=
  Irqst (irqmask s) x (ismp s) (ioapicid s) (ioapic_reg s) (ioapic_data s).
Definition set_ioapic_reg (x : Z) (s : irqst) : irqst :=
  Irqst (irqmask s) (ports s) (ismp s) (ioapicid s) x (ioapic_data s).
Definition set_ioapic_data (x : gmap Z Z) (s : irqst) : irqst :=
  Irqst (irqmask s) (ports s) (ismp s) (ioapicid s) (ioapic_reg s) x.

(** The initial [irqmask]: all but the line of the slave. *)
Definition irqmask0 : Z := Z.ldiff 0xFFFF (Z.shiftl 1 IRQ_SLAVE).

(** [outb]: the data is a [uchar]. *)
Definition out8 (port data : Z) : K irqst unit :=
  modify (λ s, set_ports (ports s ++ [(port, u8 data)]) s).

(** ** picirq.c *)

Definition picsetmask (mask : Z) : K irqst unit :=
  modify (set_irqmask mask);;
  out8 (IO_PIC1 + 1) mask;;
  out8 (IO_PIC2 + 1) (Z.shiftr mask 8).

(** The argument of [picsetmask] is a [ushort]. *)
Definition picenable (irq : Z) : K irqst unit :=
  m ← gets irqmask;
  picsetmask (u16 (Z.ldiff m (Z.shiftl 1 irq))).

Definition picinit : K irqst unit :=
  out8 (IO_PIC1 + 1) 0xFF;;
  out8 (IO_PIC2 + 1) 0xFF;;
  out8 IO_PIC1 0x11;;
  out8 (IO_PIC1 + 1) T_IRQ0;;
  out8 (IO_PIC1 + 1) (Z.shiftl 1 IRQ_SLAVE);;
  out8 (IO_PIC1 + 1) 0x3;;
  out8 IO_PIC2 0x11;;
  out8 (IO_PIC2 + 1) (T_IRQ0 + 8);;
  out8 (IO_PIC2 + 1) IRQ_SLAVE;;
  out8 (IO_PIC2 + 1) 0x3;;
  out8 IO_PIC1 0x68;;
  out8 IO_PIC1 0x0a;;
  out8 IO_PIC2 0x68;;
  out8 IO_PIC2 0x0a;;
  m ← gets irqmask;
  if negb (m =? 0xFFFF) then picsetmask m else mret tt.

(** ** timer.c *)

Definition IO_TIMER1 : Z := 0x040.
Definition TIMER_FREQ : Z := 1193182.
Definition TIMER_DIV (x : Z) : Z := (TIMER_FREQ + x `quot` 2) `quot` x.
Definition TIMER_MODE : Z := IO_TIMER1 + 3.

(** [TIMER_SEL0|TIMER_RATEGEN|TIMER_16BIT] *)
Definition timerinit : K irqst unit :=
  out8 TIMER_MODE (Z.lor (Z.lor 0x00 0x04) 0x30);;
  out8 IO_TIMER1 (TIMER_DIV 100 `rem` 256);;
  out8 IO_TIMER1 (TIMER_DIV 100 `quot` 256);;
  picenable IRQ_TIMER.

(** ** ioapic.c *)

Definition REG_ID : Z := 0x00.
Definition REG_VER : Z := 0x01.
Definition REG_TABLE : Z := 0x10.
Definition INT_DISABLED : Z := 0x00010000.

(** The data window shows the register selected last. *)
Definition ioapicread (reg : Z) : K irqst Z :=
  modify (set_ioapic_reg reg);;
  gets (λ s, default 0 (ioapic_data s !! ioapic_reg s)).

Definition ioapicwrite (reg data : Z) : K irqst unit :=
  modify (set_ioapic_reg reg);;
  modify (λ s, set_ioapic_data (<[ioapic_reg s := u32 data]> (ioapic_data s)) s).

(** The message printed when the identifiers differ is not part of the state. *)
Definition ioapicinit : K irqst unit :=
  mp ← gets ismp;
  if negb mp then mret tt
  else
    v ← ioapicread REG_VER;
    let maxintr := Z.land (Z.shiftr v 16) 0xFF in
    _ ← ioapicread REG_ID;
    for_each (Z.of_nat <$> seq 0 (Z.to_nat (maxintr + 1))) (λ i,
      ioapicwrite (REG_TABLE + 2 * i) (Z.lor INT_DISABLED (T_IRQ0 + i));;
      ioapicwrite (REG_TABLE + 2 * i + 1) 0).

Definition ioapicenable (irq cpunum : Z) : K irqst unit :=
  mp ← gets ismp;
  if negb mp then mret tt
  else
    ioapicwrite (REG_TABLE + 2 * irq) (T_IRQ0 + irq);;
    ioapicwrite (REG_TABLE + 2 * irq + 1) (Z.shiftl cpunum 24).

(** ** The 8259A chip *)

(** What a chip does with the bytes written to its two ports: a command with bit
    4 starts an initialization, the next three bytes on the data port belong to
    it; any other byte on the data port is the new mask. *)
Record chip := Chip { awaits : nat; mask : Z; vector : Z }.

Definition chip_write (base : Z) (c : chip) (w : Z * Z) : chip :=
  let '(port, v) := w in
  if port =? base then
    if Z.testbit v 4 then Chip 3 0 (vector c) else c
  else if port =? base + 1 then
    match awaits c with
    | O => Chip 0 v (vector c)
    | 3%nat => Chip 2 (mask c) v
    | S n => Chip n (mask c) (vector c)
    end
  else c.

Definition chip_after (base : Z) (ws : list (Z * Z)) : chip :=
  foldl (chip_write base) (Chip 0 0 0) ws.

(** Interrupt line [irq] gets through the two chips as they are after [ws]. *)
Definition delivered (ws : list (Z * Z)) (irq : Z) : bool :=
  if irq <? 8 then negb (Z.testbit (mask (chip_after IO_PIC1 ws)) irq)
  else negb (Z.testbit (mask (chip_after IO_PIC1 ws)) IRQ_SLAVE) &&
       negb (Z.testbit (mask (chip_after IO_PIC2 ws)) (irq - 8)).

(** The chips agree with [irqmask]. *)
Definition pic_ok (s : irqst) : Prop :=
  0 ≤ irqmask s < 2 ^ 16 ∧ Z.testbit (irqmask s) IRQ_SLAVE = false ∧
  chip_after IO_PIC1 (ports s) = Chip 0 (u8 (irqmask s)) T_IRQ0 ∧
  chip_after IO_PIC2 (ports s) = Chip 0 (u8 (Z.shiftr (irqmask s) 8)) (T_IRQ0 + 8).

(** ** Facts *)

Lemma chip_after_snoc base ws w : chip_after base (ws ++ [w]) = chip_write base (chip_after base ws) w.
Proof. unfold chip_after. by rewrite foldl_app. Qed.

(** On a chip that awaits nothing, [picsetmask] sets the mask. *)
Lemma picsetmask_ok m s v1 v2 k1 k2 :
  chip_after IO_PIC1 (ports s) = Chip 0 k1 v1 → chip_after IO_PIC2 (ports s) = Chip 0 k2 v2 →
  ∃ s', picsetmask m s = Ok tt s' ∧ irqmask s' = m ∧
    chip_after IO_PIC1 (ports s') = Chip 0 (u8 m) v1 ∧
    chip_after IO_PIC2 (ports s') = Chip 0 (u8 (Z.shiftr m 8)) v2.
Proof.
  intros H1 H2. eexists. split; [reflexivity|]. split; [reflexivity|]. cbn [ports set_ports].
  rewrite !chip_after_snoc. cbn [ports set_irqmask]. by rewrite H1, H2.
Qed.

(** The bytes [picinit] writes when the mask is the initial one. *)
Definition init_writes : list (Z * Z) :=
  [(0x21, 0xFF); (0xA1, 0xFF);
   (0x20, 0x11); (0x21, 32); (0x21, 4); (0x21, 3);
   (0xA0, 0x11); (0xA1, 40); (0xA1, 2); (0xA1, 3);
   (0x20, 0x68); (0x20, 0x0a); (0xA0, 0x68); (0xA0, 0x0a);
   (0x21, 0xFB); (0xA1, 0xFF)].

Lemma picinit_run mp id r d :
  picinit (Irqst irqmask0 [] mp id r d) = Ok tt (Irqst irqmask0 init_writes mp id r d).
Proof. vm_compute. reflexivity. Qed.

Lemma picinit_ok s :
  irqmask s = irqmask0 → ports s = [] → ∃ s', picinit s = Ok tt s' ∧ pic_ok s' ∧ irqmask s' = irqmask0.
Proof.
  destruct s as [m ws mp id r d]. cbn [irqmask ports]. intros -> ->. eexists.
  split; [apply picinit_run|]. split; [|reflexivity].
  split_and!; cbn [irqmask ports]; try (vm_compute; reflexivity); by vm_compute.
Qed.

Lemma mask_range m irq : 0 ≤ m < 2 ^ 16 → 0 ≤ Z.ldiff m (Z.shiftl 1 irq) < 2 ^ 16.
Proof.
  intros Hm. assert (Z.ldiff m (Z.shiftl 1 irq) = Z.ldiff m (Z.shiftl 1 irq) `mod` 2 ^ 16) as ->; [|by apply Z.mod_pos_bound].
  apply Z.bits_inj'. intros n Hn. destruct (Z.lt_ge_cases n 16).
  - by rewrite Z.mod_pow2_bits_low.
  - rewrite Z.mod_pow2_bits_high by lia. rewrite <- (Z.mod_small m (2 ^ 16)) by done.
    by rewrite Z.ldiff_spec, Z.mod_pow2_bits_high by lia.
Qed.

Lemma picenable_ok irq s :
  pic_ok s → 0 ≤ irq → irq ≠ IRQ_SLAVE →
  ∃ s', picenable irq s = Ok tt s' ∧ pic_ok s' ∧ irqmask s' = Z.ldiff (irqmask s) (Z.shiftl 1 irq).
Proof.
  intros (Hr & Hs & H1 & H2) Hi Hne. pose proof (mask_range (irqmask s) irq Hr) as Hr'.
  unfold picenable. rewrite (bind_ok _ _ _ _ _ (gets_ok _ _)).
  unfold u16. rewrite Z.mod_small by done.
  destruct (picsetmask_ok (Z.ldiff (irqmask s) (Z.shiftl 1 irq)) s _ _ _ _ H1 H2) as (s' & R & E & C1 & C2).
  exists s'. split; [exact R|]. split; [|done]. unfold pic_ok. rewrite E. split_and!; try done; try apply Hr'.
  by rewrite Z.ldiff_spec, Hs.
Qed.

(** Enabling a list of lines in turn. *)
Lemma picenables_ok irqs s :
  pic_ok s → Forall (λ i, 0 ≤ i ∧ i ≠ IRQ_SLAVE) irqs →
  ∃ s', for_each irqs picenable s = Ok tt s' ∧ pic_ok s' ∧
    ∀ i, 0 ≤ i → Z.testbit (irqmask s') i = Z.testbit (irqmask s) i && negb (bool_decide (i ∈ irqs)).
Proof.
  intros H Hl. revert s H. induction Hl as [|j irqs [Hj Hne] Hl IH]; intros s H.
  - exists s. split_and!; [done..|]. intros i Hi. rewrite bool_decide_false by set_solver. by rewrite andb_true_r.
  - destruct (picenable_ok j s H Hj Hne) as (s1 & R1 & H1 & E1). destruct (IH s1 H1) as (s2 & R2 & H2 & E2).
    exists s2. split; [cbn [for_each]; by rewrite (bind_ok _ _ _ _ _ R1)|]. split; [done|].
    intros i Hi. rewrite E2 by done. rewrite E1, Z.ldiff_spec, Z.shiftl_1_l, Z.pow2_bits_eqb by done.
    destruct (Z.eqb_spec j i) as [->|Hji]; cbn [negb].
    + rewrite andb_false_r. cbn. rewrite bool_decide_true by set_solver. by rewrite andb_false_r.
    + rewrite andb_true_r. f_equal. f_equal. apply bool_decide_ext. set_solver.
Qed.

Lemma u8_testbit z i : 0 ≤ i < 8 → Z.testbit (u8 z) i = Z.testbit z i.
Proof. intros Hi. unfold u8. by rewrite Z.mod_pow2_bits_low by lia. Qed.

Lemma pic_ok_delivered s irq :
  pic_ok s → 0 ≤ irq < 16 → delivered (ports s) irq = negb (Z.testbit (irqmask s) irq).
Proof.
  intros (_ & Hs & H1 & H2) Hi. unfold delivered. rewrite H1, H2. cbn [mask].
  destruct (Z.ltb_spec irq 8); [by rewrite u8_testbit by lia|].
  rewrite !u8_testbit by (unfold IRQ_SLAVE; lia). rewrite Hs, Z.shiftr_spec by lia. cbn. do 2 f_equal. lia.
Qed.

(** ** Properties *)

(** After [picinit] and any number of [picenable] calls the two chips hold the
    kernel's mask, deliver to the kernel's vectors, and let through exactly the
    lines that were enabled (and the slave's). *)
Theorem pic_delivers_enabled s irqs :
  irqmask s = irqmask0 → ports s = [] → Forall (λ i, 0 ≤ i < 16 ∧ i ≠ IRQ_SLAVE) irqs →
  ∃ s', (picinit;; for_each irqs picenable) s = Ok tt s' ∧
    vector (chip_after IO_PIC1 (ports s')) = T_IRQ0 ∧ vector (chip_after IO_PIC2 (ports s')) = T_IRQ0 + 8 ∧
    ∀ i, 0 ≤ i < 16 → delivered (ports s') i = bool_decide (i = IRQ_SLAVE ∨ i ∈ irqs).
Proof.
  intros Hm Hp Hl. destruct (picinit_ok s Hm Hp) as (s1 & R1 & H1 & E1).
  destruct (picenables_ok irqs s1 H1) as (s2 & R2 & H2 & E2).
  { eapply Forall_impl; [exact Hl|]. naive_solver. }
  exists s2. split; [by rewrite (bind_ok _ _ _ _ _ R1)|].
  pose proof H2 as (_ & _ & C1 & C2). rewrite C1, C2. split_and!; [done..|].
  intros i Hi. rewrite pic_ok_delivered by done. rewrite E2, E1 by lia.
  assert (Z.testbit irqmask0 i = negb (bool_decide (i = IRQ_SLAVE))) as ->.
  { assert (forallb (λ j, Bool.eqb (Z.testbit irqmask0 j) (negb (bool_decide (j = IRQ_SLAVE))))
      (Z.of_nat <$> seq 0 16) = true) as Hall by (vm_compute; reflexivity).
    rewrite forallb_forall in Hall. apply eqb_prop, Hall, list_elem_of_In, list_elem_of_fmap.
    exists (Z.to_nat i). rewrite elem_of_seq. lia. }
  rewrite negb_andb, !negb_involutive. rewrite bool_decide_or. reflexivity.
Qed.

Lemma pic_delivers_enabled_witness :
  ∃ s', (picinit;; for_each [IRQ_KBD; IRQ_IDE; IRQ_TIMER] picenable) (Irqst irqmask0 [] false 0 0 ∅) = Ok tt s' ∧
    delivered (ports s') IRQ_IDE = true ∧ delivered (ports s') IRQ_COM1 = false.
Proof.
  destruct (pic_delivers_enabled (Irqst irqmask0 [] false 0 0 ∅) [IRQ_KBD; IRQ_IDE; IRQ_TIMER])
    as (s' & R & _ & _ & H); [reflexivity|reflexivity| |].
  - repeat constructor; unfold IRQ_KBD, IRQ_IDE, IRQ_TIMER, IRQ_SLAVE; lia.
  - exists s'. split; [exact R|]. by rewrite !H by (unfold IRQ_IDE, IRQ_COM1; lia).
Defined.

(** [ioapicenable] programs exactly the two registers of the line: enabled,
    edge-triggered, at its vector, for the given CPU; on a uniprocessor it does
    nothing. *)
Theorem ioapicenable_routes irq cpunum s :
  0 ≤ irq < 16 → 0 ≤ cpunum < 256 →
  ∃ s', ioapicenable irq cpunum s = Ok tt s' ∧ irqmask s' = irqmask s ∧ ports s' = ports s ∧
    (ismp s = false → s' = s) ∧
    (ismp s = true →
      ioapic_data s' !! (REG_TABLE + 2 * irq) = Some (T_IRQ0 + irq) ∧
      ioapic_data s' !! (REG_TABLE + 2 * irq + 1) = Some (cpunum * 2 ^ 24) ∧
      ∀ r, r ≠ REG_TABLE + 2 * irq → r ≠ REG_TABLE + 2 * irq + 1 → ioapic_data s' !! r = ioapic_data s !! r).
Proof.
  intros Hi Hc. unfold ioapicenable. rewrite (bind_ok _ _ _ _ _ (gets_ok _ _)).
  destruct (ismp s); cbn [negb]; [|by exists s]. eexists. split; [reflexivity|].
  split_and!; try done. intros _. cbn. rewrite lookup_insert_ne, !lookup_insert by lia.
  rewrite !decide_True by done. rewrite Z.shiftl_mul_pow2 by lia. unfold T_IRQ0. split_and!.
  - f_equal. apply u32_small. lia.
  - f_equal. apply u32_small. lia.
  - intros r H1 H2. by rewrite !lookup_insert_ne by done.
Qed.
