(* ===== verification/Ide.v ===== *)
(** * The disk driver (ide.c)

    The driver's state sits around the buffer table of bio.c: the queue of
    requests, linked through [b_qnext], and the drive.  The drive is outside the
    program, so it is an interface: [Ports] are the port instructions and the
    drive's own progress, [Ata] the documented behaviour of an ATA drive that
    the driver relies on.  [SimDrive] is one drive that satisfies it. *)
From S2P Require Import Prelude Spinlock Str Ptable PtableLists Sched Services Bio Irq.

Definition IDE_BSY : Z := 0x80.
Definition IDE_DRDY : Z := 0x40.
Definition IDE_DF : Z := 0x20.
Definition IDE_ERR : Z := 0x01.
Definition IDE_CMD_READ : Z := 0x20.
Definition IDE_CMD_WRITE : Z := 0x30.
Definition SECTOR_SIZE : nat := 512.

(** ** The drive *)

(** Port instructions of x86.h on a machine with drive state [H]; [settle] is the
    drive finishing the command it was given, which raises the interrupt. *)
Class Ports (H : Type) := {
  hw_inb : Z → H → Z * H;
  hw_outb : Z → Z → H → H;
  hw_insl : Z → nat → H → list Z * H;
  hw_outsl : Z → list Z → H → H;
  settle : H → H
}.

(** What a drive is doing: [Reading d n] and [Writing d n] until it settles,
    [DataOut] until the sector has been handed over, [DataIn] until it has been
    fetched. *)
Inductive phase :=
| Idle
| Reading (unit lba : Z)
| DataIn (bytes : block)
| DataOut (unit lba : Z)
| Writing (unit lba : Z) (bytes : block).

(** The address in the task file registers. *)
Definition reg_unit (r : Z → Z) : Z := Z.land (Z.shiftr (r 0x1f6) 4) 1.
Definition reg_lba (r : Z → Z) : Z :=
  r 0x1f3 + Z.shiftl (r 0x1f4) 8 + Z.shiftl (r 0x1f5) 16 + Z.shiftl (Z.land (r 0x1f6) 0x0f) 24.

Definition task_port (p : Z) : Prop := p ∈ [0x3f6; 0x1f2; 0x1f3; 0x1f4; 0x1f5; 0x1f6].

Definition set_reg (p v : Z) (r : Z → Z) : Z → Z := λ q, if q =? p then v else r q.

(** A drive: [lag] is how often its status still reads busy; [failed] its error
    bits.  As the ATA standard has it, a busy drive takes no register, no command
    and no data: the laws are for a drive that is not. *)
Class Ata (H : Type) {P : Ports H} := {
  ph : H → phase;
  reg : H → Z → Z;
  medium : H → Z → list block;
  lag : H → nat;
  latency : nat;
  failed : H → bool;
  lag_latency : ∀ h, (lag h ≤ latency)%nat;
  inb_status : ∀ h, ∃ r h', hw_inb 0x1f7 h = (r, h') ∧
    ph h' = ph h ∧ reg h' = reg h ∧ medium h' = medium h ∧ failed h' = failed h ∧ lag h' = pred (lag h) ∧
    (Z.land r (Z.lor IDE_BSY IDE_DRDY) = IDE_DRDY ↔ lag h = 0%nat) ∧
    (Z.land r (Z.lor IDE_DF IDE_ERR) = 0 ↔ failed h = false);
  outb_task : ∀ h p v, task_port p → ph h = Idle → lag h = 0%nat →
    let h' := hw_outb p v h in
    ph h' = Idle ∧ lag h' = 0%nat ∧ medium h' = medium h ∧ failed h' = failed h ∧ ∀ q, reg h' q = set_reg p v (reg h) q;
  outb_read : ∀ h, ph h = Idle → lag h = 0%nat → reg h 0x1f2 = 1 →
    let h' := hw_outb 0x1f7 IDE_CMD_READ h in
    ph h' = Reading (reg_unit (reg h)) (reg_lba (reg h)) ∧ medium h' = medium h;
  outb_write : ∀ h, ph h = Idle → lag h = 0%nat → reg h 0x1f2 = 1 →
    let h' := hw_outb 0x1f7 IDE_CMD_WRITE h in
    ph h' = DataOut (reg_unit (reg h)) (reg_lba (reg h)) ∧ medium h' = medium h;
  outsl_data : ∀ h d n bytes, ph h = DataOut d n → lag h = 0%nat → length bytes = SECTOR_SIZE →
    let h' := hw_outsl 0x1f0 bytes h in
    ph h' = Writing d n bytes ∧ medium h' = medium h;
  insl_data : ∀ h bytes, ph h = DataIn bytes → lag h = 0%nat → length bytes = SECTOR_SIZE →
    ∃ h', hw_insl 0x1f0 (SECTOR_SIZE / 4) h = (bytes, h') ∧ ph h' = Idle ∧ medium h' = medium h;
  settle_read : ∀ h d n bytes, ph h = Reading d n → medium h d !! Z.to_nat n = Some bytes →
    medium (settle h) = medium h ∧
    ph (settle h) = if failed (settle h) then Idle else DataIn bytes;
  settle_write : ∀ h d n bytes, ph h = Writing d n bytes → failed (settle h) = false →
    ph (settle h) = Idle ∧
    ∀ d', medium (settle h) d' = if d' =? d then <[Z.to_nat n := bytes]> (medium h d) else medium h d'
}.

(** The drive asks for the data of a write as soon as it has the command.  The
    standard lets it be busy first; [idestart] does not wait for that. *)
Definition takes_data (H : Type) {P : Ports H} {A : Ata H} : Prop :=
  ∀ h, ph h = Idle → lag h = 0%nat → lag (hw_outb 0x1f7 IDE_CMD_WRITE h) = 0%nat.

(** ** The driver *)

Record dst (H B : Type) := Dst {
  dbio : bst B;
  dirq : irqst;
  idequeue : option nat;
  havedisk1 : Z;
  drive : H
}.
Arguments Dst {H B}.
Arguments dbio {H B}.
Arguments dirq {H B}.
Arguments idequeue {H B}.
Arguments havedisk1 {H B}.
Arguments drive {H B}.

Definition set_dbio {H B} (x : bst B) (s : dst H B) : dst H B :=
  Dst x (dirq s) (idequeue s) (havedisk1 s) (drive s).
Definition set_dirq {H B} (x : irqst) (s : dst H B) : dst H B :=
  Dst (dbio s) x (idequeue s) (havedisk1 s) (drive s).
Definition set_idequeue {H B} (x : option nat) (s : dst H B) : dst H B :=
  Dst (dbio s) (dirq s) x (havedisk1 s) (drive s).
Definition set_havedisk1 {H B} (x : Z) (s : dst H B) : dst H B :=
  Dst (dbio s) (dirq s) (idequeue s) x (drive s).
Definition set_drive {H B} (x : H) (s : dst H B) : dst H B :=
  Dst (dbio s) (dirq s) (idequeue s) (havedisk1 s) x.

#[global] Instance dst_bio H B : Lens (dst H B) (bst B) := {| view := dbio; put := set_dbio |}.
#[global] Instance dst_bio_ok H B : LensOk (dst H B) (bst B).
Proof. by split; intros; try destruct s. Qed.
#[global] Instance dst_irq H B : Lens (dst H B) irqst := {| view := dirq; put := set_dirq |}.
#[global] Instance dst_irq_ok H B : LensOk (dst H B) irqst.
Proof. by split; intros; try destruct s. Qed.
#[global] Instance dst_ops H B {O : KOps B} : KOps (dst H B) := wrap_ops.
#[global] Instance dst_laws H B {O : KOps B} {W : KLaws B} : KLaws (dst H B) := wrap_laws.
#[global] Instance bst_wake B {O : KOps B} {W : KLaws B} {V : KWake B} : KWake (bst B) := wrap_wake.
#[global] Instance dst_wake H B {O : KOps B} {W : KLaws B} {V : KWake B} : KWake (dst H B) := wrap_wake.

Section driver.
Context {H B : Type} {P : Ports H} {O : KOps B}.

Definition dgetb (i : nat) : K (dst H B) buf := lift (getb i).
Definition dsetb (i : nat) (f : buf → buf) : K (dst H B) unit := lift (setb i f).

Definition inb (p : Z) : K (dst H B) Z := λ s,
  let '(r, h') := hw_inb p (drive s) in Ok r (set_drive h' s).
Definition outb (p v : Z) : K (dst H B) unit := modify (λ s, set_drive (hw_outb p v (drive s)) s).
Definition insl (p : Z) (cnt : nat) : K (dst H B) (list Z) := λ s,
  let '(r, h') := hw_insl p cnt (drive s) in Ok r (set_drive h' s).
Definition outsl (p : Z) (bytes : list Z) : K (dst H B) unit :=
  modify (λ s, set_drive (hw_outsl p bytes (drive s)) s).

(** [polls]: how often the status may be read before the drive is ready. *)
Definition idewait (polls : nat) (checkerr : bool) : K (dst H B) Z :=
  r ← while (S polls) (λ _ : Z,
    r ← inb 0x1f7;
    mret (if negb (Z.land r (Z.lor IDE_BSY IDE_DRDY) =? IDE_DRDY) then inl r else inr r)) 0;
  mret (if checkerr && negb (Z.land r (Z.lor IDE_DF IDE_ERR) =? 0) then -1 else 0).

(** [ncpu] is the number of processors mp.c found. *)
Definition ideinit (polls : nat) (ncpu : Z) : K (dst H B) unit :=
  k_initlock Lide "ide";;
  lift (picenable IRQ_IDE);;
  lift (ioapicenable IRQ_IDE (ncpu - 1));;
  _ ← idewait polls false;
  outb 0x1f6 (Z.lor 0xe0 (Z.shiftl 1 4));;
  for_ret (seq 0 1000) (λ _,
    r ← inb 0x1f7;
    if negb (r =? 0) then modify (set_havedisk1 1);; mret (Some tt) else mret None);;
  outb 0x1f6 (Z.lor 0xe0 (Z.shiftl 0 4)).

Definition sector_per_block : Z := Z.of_nat (BSIZE / SECTOR_SIZE).

Definition idestart (polls : nat) (p : option nat) : K (dst H B) unit :=
  panic_if (bool_decide (p = None)) "idestart";;
  i ← deref p;
  b ← dgetb i;
  panic_if (b_blockno b >=? FSSIZE) "incorrect blockno";;
  let sector := i32 (b_blockno b * sector_per_block) in
  panic_if (sector_per_block >? 7) "idestart";;
  _ ← idewait polls false;
  outb 0x3f6 0;;
  outb 0x1f2 sector_per_block;;
  outb 0x1f3 (Z.land sector 0xff);;
  outb 0x1f4 (Z.land (Z.shiftr sector 8) 0xff);;
  outb 0x1f5 (Z.land (Z.shiftr sector 16) 0xff);;
  outb 0x1f6 (Z.lor (Z.lor 0xe0 (Z.shiftl (Z.land (b_dev b) 1) 4)) (Z.land (Z.shiftr sector 24) 0x0f));;
  b ← dgetb i;
  if flag B_DIRTY b then
    outb 0x1f7 IDE_CMD_WRITE;;
    outsl 0x1f0 (b_data b)
  else
    outb 0x1f7 IDE_CMD_READ.

(** The handler's work on the buffer whose transfer is done: fetch the data if
    needed, and set the flags. *)
Definition finish (polls : nat) (i : nat) : K (dst H B) unit :=
  b ← dgetb i;
  (if negb (flag B_DIRTY b) then
     r ← idewait polls true;
     if r >=? 0 then
       d ← insl 0x1f0 (BSIZE / 4);
       dsetb i (set_b_data d)
     else mret tt
   else mret tt);;
  dsetb i (λ b, set_b_flags (Z.lor (b_flags b) B_VALID) b);;
  dsetb i (λ b, set_b_flags (Z.ldiff (b_flags b) B_DIRTY) b).

Definition ideintr (polls : nat) : K (dst H B) unit :=
  k_acquire Lide;;
  q ← gets idequeue;
  match q with
  | None => k_release Lide
  | Some i =>
      b ← dgetb i;
      modify (set_idequeue (b_qnext b));;
      finish polls i;;
      k_wakeup (ChBuf i);;
      q ← gets idequeue;
      (if bool_decide (q ≠ None) then idestart polls q else mret tt);;
      k_release Lide
  end.

(** Reading and writing [*pp]: [None] is [&idequeue], [Some i] the address of the
    [qnext] of buffer [i]. *)
Definition read_pp (pp : option nat) : K (dst H B) (option nat) :=
  match pp with
  | None => gets idequeue
  | Some i => b ← dgetb i; mret (b_qnext b)
  end.

Definition write_pp (pp : option nat) (v : option nat) : K (dst H B) unit :=
  match pp with
  | None => modify (set_idequeue v)
  | Some i => dsetb i (set_b_qnext v)
  end.

(** Append [i] to the queue; it holds each buffer at most once, which bounds the
    walk. *)
Definition enqueue (i : nat) : K (dst H B) unit :=
  dsetb i (set_b_qnext None);;
  pp ← while (S (S NBUF)) (λ pp,
    v ← read_pp pp;
    mret (match v with Some j => inl (Some j) | None => inr pp end)) None;
  write_pp pp (Some i).

(** [wakes]: how often the thread may be woken before the request is done. *)
Definition await (wakes : nat) (i : nat) : K (dst H B) unit :=
  while (S wakes) (λ _ : unit,
    b ← dgetb i;
    if negb (Z.land (b_flags b) (Z.lor B_VALID B_DIRTY) =? B_VALID) then
      k_sleep (ChBuf i) Lide;; mret (inl tt)
    else mret (inr tt)) tt.

Definition ide_rw (polls wakes : nat) (i : nat) : K (dst H B) unit :=
  b ← dgetb i;
  panic_if (negb (flag B_BUSY b)) "iderw: buf not busy";;
  panic_if (Z.land (b_flags b) (Z.lor B_VALID B_DIRTY) =? B_VALID) "iderw: nothing to do";;
  hd ← gets havedisk1;
  panic_if (negb (b_dev b =? 0) && (hd =? 0)) "iderw: ide disk 1 not present";;
  k_acquire Lide;;
  enqueue i;;
  q ← gets idequeue;
  (if bool_decide (q = Some i) then idestart polls (Some i) else mret tt);;
  await wakes i;;
  k_release Lide.
End driver.
