(* ===== verification/IdeFacts.v ===== *)
(** * The disk driver: its queue and the drive in step

    [ide_rep q]: the queue links the buffers [q] in order, each waiting for its
    transfer, and the drive is working on the first of them.  Starting a request,
    the interrupt handler and appending a request keep it. *)
From S2P Require Import Prelude Spinlock Str Ptable PtableLists Sched Services Bio BioRing BioFacts Irq Ide.

(** ** The queue *)

Fixpoint queued (bs : list buf) (o : option nat) (q : list nat) : Prop :=
  match q with
  | [] => o = None
  | i :: q' => o = Some i ∧ ∃ b, bs !! i = Some b ∧ queued bs (b_qnext b) q'
  end.

Lemma queued_frame bs bs' o q :
  (∀ i b, i ∈ q → bs !! i = Some b → ∃ b', bs' !! i = Some b' ∧ b_qnext b' = b_qnext b) →
  queued bs o q → queued bs' o q.
Proof.
  revert o. induction q as [|i q IH]; intros o Hf; [done|]. intros (-> & b & Hb & Hq).
  split; [done|]. destruct (Hf i b) as (b' & Hb' & Hn); [set_solver|done|].
  exists b'. split; [done|]. rewrite Hn. apply IH; [|done]. intros j c Hj. apply Hf. set_solver.
Qed.

(** The update of one buffer that keeps its link. *)
Lemma queued_alter bs o q i f :
  (∀ b, b_qnext (f b) = b_qnext b) → queued bs o q → queued (alter f i bs) o q.
Proof.
  intros Hf. apply queued_frame. intros j b _ Hb. destruct (decide (i = j)) as [<-|].
  - exists (f b). by rewrite list_lookup_alter_eq, Hb.
  - exists b. by rewrite list_lookup_alter_ne.
Qed.

Lemma queued_alter_out bs o q i f : i ∉ q → queued bs o q → queued (alter f i bs) o q.
Proof.
  intros Hi. apply queued_frame. intros j b Hj Hb. exists b.
  rewrite list_lookup_alter_ne by set_solver. done.
Qed.

(** Linking [i] behind the last buffer of a non-empty queue. *)
Lemma queued_snoc bs o q j i b :
  queued bs o (q ++ [j]) → NoDup (q ++ [j]) → bs !! i = Some b → b_qnext b = None → i ∉ q ++ [j] →
  queued (alter (set_b_qnext (Some i)) j bs) o (q ++ [j; i]).
Proof.
  revert o. induction q as [|k q IH]; intros o Hq Hnd Hi Hn Hout.
  - destruct Hq as (-> & c & Hc & _). split; [done|]. exists (set_b_qnext (Some i) c).
    rewrite list_lookup_alter_eq, Hc. split; [done|]. split; [done|].
    exists b. rewrite list_lookup_alter_ne by set_solver. by rewrite Hi.
  - destruct Hq as (-> & c & Hc & Hq). apply NoDup_cons in Hnd as [Hk Hnd]. split; [done|].
    exists c. rewrite list_lookup_alter_ne by set_solver. split; [done|]. apply IH; [done..|set_solver].
Qed.

(** ** The drive and the queue *)

Section rep.
Context {H : Type} {P : Ports H} {A : Ata H}.

(** Buffer [b] waits for a transfer the drive can do. *)
Record request (h : H) (b : buf) : Prop := Request {
  rq_busy : flag B_BUSY b = true;
  rq_todo : flag B_VALID b = true → flag B_DIRTY b = true;
  rq_dev : b_dev b = 1;
  rq_block : 0 ≤ b_blockno b < FSSIZE;
  rq_medium : b_blockno b < Z.of_nat (length (medium h 1));
  rq_len : length (b_data b) = BSIZE
}.

(** What the drive does for it. *)
Definition transfer (b : buf) : phase :=
  if flag B_DIRTY b then Writing 1 (b_blockno b) (b_data b) else Reading 1 (b_blockno b).

Record ide_rep (q : list nat) (bs : list buf) (o : option nat) (h : H) : Prop := Ide_rep {
  ir_queue : queued bs o q;
  ir_nodup : NoDup q;
  ir_req : ∀ i b, i ∈ q → bs !! i = Some b → request h b;
  ir_drive : match q with
             | [] => ph h = Idle
             | i :: _ => ∀ b, bs !! i = Some b → ph h = transfer b
             end;
  ir_medium : ∀ d n bytes, medium h d !! n = Some bytes → length bytes = BSIZE
}.

Lemma request_medium h h' b : length (medium h' 1) = length (medium h 1) → request h b → request h' b.
Proof. intros E [H1 H2 H3 H4 H5 H6]. split; try done. by rewrite E. Qed.

End rep.

(** The state with another base. *)
Definition rebase {H B} (bb : B) (s : dst H B) : dst H B := set_dbio (set_bbase bb (dbio s)) s.

Definition ide_ok {H B} {P : Ports H} {A : Ata H} (q : list nat) (s : dst H B) : Prop :=
  ide_rep q (bufs (dbio s)) (idequeue s) (drive s).

Section services.
Context {H B : Type} {O : KOps B} {W : KLaws B}.
Implicit Types (s : dst H B) (L : gset lockid).

Lemma keep_rebase s b' : k_keep (dbio s) b' → ∃ bb, set_dbio b' s = rebase bb s.
Proof. intros [(bb & -> & _) _]. by exists bb. Qed.

Lemma ide_acquire L s :
  k_ok L s → Lide ∉ L →
  ∃ bb, k_acquire Lide s = Ok tt (rebase bb s) ∧ k_ok ({[Lide]} ∪ L) (rebase bb s) ∧
    k_self (rebase bb s) = k_self s ∧ k_me (rebase bb s) = k_me s.
Proof.
  intros HL Hl. destruct (inner_acquire (S := dst H B) L Lide s HL Hl) as (b' & R & Hok & (Hf & Hs & Hm)).
  destruct Hf as (bb & -> & _). by exists bb.
Qed.

Lemma ide_release L s :
  k_ok L s → Lide ∈ L →
  ∃ bb, k_release Lide s = Ok tt (rebase bb s) ∧ k_ok (L ∖ {[Lide]}) (rebase bb s) ∧
    k_self (rebase bb s) = k_self s ∧ k_me (rebase bb s) = k_me s.
Proof.
  intros HL Hl. destruct (inner_release (S := dst H B) L Lide s HL Hl) as (b' & R & Hok & (Hf & Hs & Hm)).
  destruct Hf as (bb & -> & _). by exists bb.
Qed.

Lemma ide_wakeup L c s :
  k_ok L s → Lptable ∉ L →
  ∃ bb, k_wakeup c s = Ok tt (rebase bb s) ∧ k_ok L (rebase bb s) ∧
    k_self (rebase bb s) = k_self s ∧ k_me (rebase bb s) = k_me s.
Proof.
  intros HL Hl. destruct (inner_wakeup (S := dst H B) L c s HL Hl) as (b' & R & Hok & (Hf & Hs & Hm)).
  destruct Hf as (bb & -> & _). by exists bb.
Qed.

Lemma dgetb_ok s i b : bufs (dbio s) !! i = Some b → dgetb i s = Ok b s.
Proof.
  intros Hb. unfold dgetb. rewrite (lift_run _ _ _ _ (getb_ok (dbio s) i b Hb)). by destruct s.
Qed.

Definition dset (i : nat) (f : buf → buf) s : dst H B :=
  set_dbio (set_bufs (alter f i (bufs (dbio s))) (dbio s)) s.

Lemma dsetb_ok s i b f : bufs (dbio s) !! i = Some b → dsetb i f s = Ok tt (dset i f s).
Proof.
  intros Hb. unfold dsetb.
  refine (lift_run (setb i f) s tt (set_bufs (alter f i (bufs (dbio s))) (dbio s)) _).
  apply (setb_ok (dbio s)). by eapply lookup_lt_Some.
Qed.
End services.

(** ** Talking to the drive *)

Section drive.
Context {H B : Type} {P : Ports H} {A : Ata H} {O : KOps B} {W : KLaws B}.
Implicit Types (s : dst H B) (h : H).

(** Two states of the drive that differ only in how busy it is. *)
Definition same_drive (h h' : H) : Prop :=
  ph h' = ph h ∧ reg h' = reg h ∧ medium h' = medium h ∧ failed h' = failed h.

(** Polling ends when the drive is ready. *)
Lemma poll_ok polls z s :
  (lag (drive s) ≤ polls)%nat →
  ∃ r h, while (S polls) (λ _ : Z,
      r ← inb 0x1f7;
      mret (if negb (Z.land r (Z.lor IDE_BSY IDE_DRDY) =? IDE_DRDY) then inl r else inr r)) z s =
    Ok r (set_drive h s) ∧ same_drive (drive s) h ∧ lag h = 0%nat ∧
    (Z.land r (Z.lor IDE_DF IDE_ERR) = 0 ↔ failed (drive s) = false).
Proof.
  revert z s. induction polls as [|polls IH]; intros z s Hlag;
    destruct (inb_status (drive s)) as (r & h & R & E1 & E2 & E3 & E4 & E5 & E6 & E7).
  all: assert (inb 0x1f7 s = Ok r (set_drive h s)) as Rin by (unfold inb; by rewrite R).
  all: cbn [while]; rewrite (bind_ok _ _ _ (if negb (Z.land r (Z.lor IDE_BSY IDE_DRDY) =? IDE_DRDY)
    then inl r else inr r) (set_drive h s)) by (by rewrite (bind_ok _ _ _ _ _ Rin)).
  - rewrite (proj2 E6), Z.eqb_refl by lia. exists r, h. split_and!; [done|done..|lia|done].
  - destruct (Z.eqb_spec (Z.land r (Z.lor IDE_BSY IDE_DRDY)) IDE_DRDY) as [E|E].
    { apply E6 in E. exists r, h. split_and!; [done|done..|lia|done]. }
    destruct (IH r (set_drive h s)) as (r' & h' & R' & (F1 & F2 & F3 & F4) & F5 & F6); [simpl; lia|].
    exists r', h'. split; [exact R'|]. simpl in *. rewrite F6, E4. split; [|done].
    split_and!; congruence.
Qed.

Lemma idewait_ok polls c s :
  (latency ≤ polls)%nat →
  ∃ h, idewait polls c s = Ok (if c && failed (drive s) then -1 else 0) (set_drive h s) ∧
    same_drive (drive s) h ∧ lag h = 0%nat.
Proof.
  intros Hp. pose proof (lag_latency (drive s)).
  destruct (poll_ok polls 0 s) as (r & h & R & Hs & Hl & He); [lia|]. exists h. split; [|done].
  unfold idewait. rewrite (bind_ok _ _ _ _ _ R). unfold mret, K_ret. do 2 f_equal.
  destruct (Z.eqb_spec (Z.land r (Z.lor IDE_DF IDE_ERR)) 0), (failed (drive s)); naive_solver.
Qed.

(** Writing a task file register of a drive that is idle and not busy. *)
Lemma outb_task_ok p v s :
  task_port p → ph (drive s) = Idle → lag (drive s) = 0%nat →
  ∃ h, outb p v s = Ok tt (set_drive h s) ∧ (ph h = Idle ∧ lag h = 0%nat) ∧ medium h = medium (drive s) ∧
    (∀ q, reg h q = set_reg p v (reg (drive s)) q).
Proof.
  intros Hp Hi Hl. exists (hw_outb p v (drive s)). split; [done|].
  destruct (outb_task (drive s) p v Hp Hi Hl) as (E1 & E2 & E3 & _ & E4). done.
Qed.
End drive.

(** The address registers hold the sector [idestart] put there. *)
Lemma task_address n :
  0 ≤ n < FSSIZE →
  let hi := Z.lor (Z.lor 0xe0 (Z.shiftl (Z.land 1 1) 4)) (Z.land (Z.shiftr n 24) 0x0f) in
  Z.land n 0xff + Z.shiftl (Z.land (Z.shiftr n 8) 0xff) 8 + Z.shiftl (Z.land (Z.shiftr n 16) 0xff) 16 +
    Z.shiftl (Z.land hi 0x0f) 24 = n ∧ Z.land (Z.shiftr hi 4) 1 = 1.
Proof.
  intros Hn. set (ok n := let hi := Z.lor (Z.lor 0xe0 (Z.shiftl (Z.land 1 1) 4)) (Z.land (Z.shiftr n 24) 0x0f) in
    (Z.land n 0xff + Z.shiftl (Z.land (Z.shiftr n 8) 0xff) 8 + Z.shiftl (Z.land (Z.shiftr n 16) 0xff) 16 +
     Z.shiftl (Z.land hi 0x0f) 24 =? n) && (Z.land (Z.shiftr hi 4) 1 =? 1)).
  assert (forallb ok (Z.of_nat <$> seq 0 1000) = true) as Hall by (vm_compute; reflexivity).
  rewrite forallb_forall in Hall. specialize (Hall n).
  assert (ok n = true) as Hok.
  { apply Hall, list_elem_of_In, list_elem_of_fmap. exists (Z.to_nat n). rewrite elem_of_seq.
    unfold FSSIZE in Hn. lia. }
  unfold ok in Hok. rewrite andb_true_iff, !Z.eqb_eq in Hok. exact Hok.
Qed.

(** ** The handlers *)

Section handlers.
Context {H B : Type} {P : Ports H} {A : Ata H} {O : KOps B} {W : KLaws B} {V : KWake B}.
Context (polls : nat) (Hpolls : (latency ≤ polls)%nat) (Htakes : takes_data H).
Implicit Types (s : dst H B) (h : H) (L : gset lockid).

(** Six register writes put the address of sector [n] of disk 1 in place. *)
Lemma task_file_ok n s (k : K (dst H B) unit) :
  ph (drive s) = Idle → lag (drive s) = 0%nat → 0 ≤ n < FSSIZE →
  ∃ h, (outb 0x3f6 0;; outb 0x1f2 1;; outb 0x1f3 (Z.land n 0xff);;
        outb 0x1f4 (Z.land (Z.shiftr n 8) 0xff);; outb 0x1f5 (Z.land (Z.shiftr n 16) 0xff);;
        outb 0x1f6 (Z.lor (Z.lor 0xe0 (Z.shiftl (Z.land 1 1) 4)) (Z.land (Z.shiftr n 24) 0x0f));; k) s =
      k (set_drive h s) ∧
    ph h = Idle ∧ lag h = 0%nat ∧ medium h = medium (drive s) ∧ reg h 0x1f2 = 1 ∧
    reg_unit (reg h) = 1 ∧ reg_lba (reg h) = n.
Proof.
  intros Hi Hl Hn.
  destruct (outb_task_ok 0x3f6 0 s) as (h1 & R1 & [I1 L1] & M1 & G1); [set_solver|done|done|].
  destruct (outb_task_ok 0x1f2 1 (set_drive h1 s)) as (h2 & R2 & [I2 L2] & M2 & G2); [set_solver|done|done|].
  destruct (outb_task_ok 0x1f3 (Z.land n 0xff) (set_drive h2 s)) as (h3 & R3 & [I3 L3] & M3 & G3); [set_solver|done|done|].
  destruct (outb_task_ok 0x1f4 (Z.land (Z.shiftr n 8) 0xff) (set_drive h3 s))
    as (h4 & R4 & [I4 L4] & M4 & G4); [set_solver|done|done|].
  destruct (outb_task_ok 0x1f5 (Z.land (Z.shiftr n 16) 0xff) (set_drive h4 s))
    as (h5 & R5 & [I5 L5] & M5 & G5); [set_solver|done|done|].
  destruct (outb_task_ok 0x1f6 (Z.lor (Z.lor 0xe0 (Z.shiftl (Z.land 1 1) 4)) (Z.land (Z.shiftr n 24) 0x0f))
    (set_drive h5 s)) as (h6 & R6 & [I6 L6] & M6 & G6); [set_solver|done|done|].
  exists h6. split.
  { rewrite (bind_ok _ _ _ _ _ R1), (bind_ok _ _ _ _ _ R2), (bind_ok _ _ _ _ _ R3),
      (bind_ok _ _ _ _ _ R4), (bind_ok _ _ _ _ _ R5), (bind_ok _ _ _ _ _ R6). done. }
  cbn [drive set_drive] in *. destruct (task_address n Hn) as [Ea Eu].
  split_and!; [done|done|congruence|..]; unfold reg_unit, reg_lba;
    rewrite ?G6, ?G5, ?G4, ?G3, ?G2, ?G1; unfold set_reg; cbn -[Z.lor Z.land Z.shiftl Z.shiftr];
    rewrite ?G5, ?G4, ?G3, ?G2, ?G1; unfold set_reg; cbn -[Z.lor Z.land Z.shiftl Z.shiftr];
    rewrite ?G4, ?G3, ?G2, ?G1; unfold set_reg; cbn -[Z.lor Z.land Z.shiftl Z.shiftr];
    rewrite ?G3, ?G2, ?G1; unfold set_reg; cbn -[Z.lor Z.land Z.shiftl Z.shiftr];
    rewrite ?G2, ?G1; unfold set_reg; cbn -[Z.lor Z.land Z.shiftl Z.shiftr]; done.
Qed.

Lemma idestart_ok i b s :
  bufs (dbio s) !! i = Some b → request (drive s) b → ph (drive s) = Idle →
  ∃ h, idestart polls (Some i) s = Ok tt (set_drive h s) ∧ ph h = transfer b ∧ medium h = medium (drive s).
Proof.
  intros Hb [Hbusy Htodo Hdev Hblk Hmed Hlen] Hi. unfold idestart.
  rewrite bool_decide_false by done. rewrite (bind_ok _ _ _ tt s) by done.
  rewrite (bind_ok _ _ _ i s) by done. rewrite (bind_ok _ _ _ _ _ (dgetb_ok s i b Hb)).
  change sector_per_block with 1. rewrite Z.mul_1_r, i32_small by (unfold FSSIZE in *; lia).
  rewrite Z.geb_leb, (proj2 (Z.leb_gt _ _)) by lia.
  rewrite (bind_ok _ _ _ tt s) by done. rewrite (bind_ok _ _ _ tt s) by done.
  destruct (idewait_ok polls false s Hpolls) as (h0 & R0 & (E1 & E2 & E3 & E4) & E5).
  rewrite (bind_ok _ _ _ _ _ R0), Hdev.
  destruct (task_file_ok (b_blockno b) (set_drive h0 s) (
    b ← dgetb i;
    if flag B_DIRTY b then outb 0x1f7 IDE_CMD_WRITE;; outsl 0x1f0 (b_data b) else outb 0x1f7 IDE_CMD_READ))
    as (h1 & R1 & I1 & L1 & M1 & C1 & U1 & A1); [by rewrite <- Hi, <- E1|done|done|].
  rewrite R1. rewrite (bind_ok _ _ _ b (set_drive h1 s)) by (by apply dgetb_ok).
  unfold transfer. cbn [drive set_drive] in *. destruct (flag B_DIRTY b).
  - destruct (outb_write h1 I1 L1 C1) as [I2 M2]. rewrite U1, A1 in I2.
    destruct (outsl_data _ _ _ _ I2 (Htakes h1 I1 L1) Hlen) as [I3 M3].
    eexists. split; [reflexivity|]. split; [exact I3|]. by etransitivity; [exact M3|rewrite M2, M1, E3].
  - destruct (outb_read h1 I1 L1 C1) as [I2 M2]. rewrite U1, A1 in I2.
    eexists. split; [reflexivity|]. split; [exact I2|]. by etransitivity; [exact M2|rewrite M1, E3].
Qed.

(** What the handler leaves in the buffer, and on the medium. *)
Definition finished (m : list block) (b : buf) : buf :=
  if flag B_DIRTY b then flushed b
  else filled_with (default [] (m !! Z.to_nat (b_blockno b))) b.

Definition stored (m : list block) (b : buf) : list block :=
  if flag B_DIRTY b then <[Z.to_nat (b_blockno b) := b_data b]> m else m.

Lemma flags_flushed f : Z.ldiff (Z.lor f B_VALID) B_DIRTY = Z.lor (Z.ldiff f B_DIRTY) B_VALID.
Proof.
  apply Z.bits_inj'. intros n Hn. rewrite !Z.ldiff_spec, !Z.lor_spec, !Z.ldiff_spec.
  assert (Z.testbit B_VALID n && Z.testbit B_DIRTY n = false) as E.
  { rewrite <- Z.land_spec. apply Z.bits_0. }
  destruct (Z.testbit f n), (Z.testbit B_VALID n), (Z.testbit B_DIRTY n); done.
Qed.

Lemma flags_filled f : Z.testbit f 2 = false → Z.ldiff (Z.lor f B_VALID) B_DIRTY = Z.lor f B_VALID.
Proof.
  intros Hf. rewrite flags_flushed. f_equal. apply Z.bits_inj'. intros n Hn. rewrite Z.ldiff_spec.
  change B_DIRTY with (2 ^ 2). rewrite Z.pow2_bits_eqb by lia.
  destruct (Z.eqb_spec 2 n) as [<-|]; [by rewrite Hf|by rewrite andb_true_r].
Qed.

(** The drive after the transfer of [b]: [m] is what disk 1 held before it. *)
Definition settled (m : list block) (b : buf) (h : H) : Prop :=
  medium h 1 = stored m b ∧ failed h = false ∧
  (if flag B_DIRTY b then ph h = Idle
   else ∃ bytes, m !! Z.to_nat (b_blockno b) = Some bytes ∧ length bytes = BSIZE ∧ ph h = DataIn bytes).

Lemma settle_ok h b :
  request h b → ph h = transfer b → failed (settle h) = false →
  (∀ d n bytes, medium h d !! n = Some bytes → length bytes = BSIZE) →
  settled (medium h 1) b (settle h) ∧ (∀ d, length (medium (settle h) d) = length (medium h d)) ∧
  (∀ d n bytes, medium (settle h) d !! n = Some bytes → length bytes = BSIZE).
Proof.
  intros [_ _ _ Hblk Hmed Hlen] Hp Hok Hm. unfold transfer, settled, stored in *. destruct (flag B_DIRTY b).
  - destruct (settle_write h _ _ _ Hp Hok) as [E1 E2]. split_and!; [by rewrite E2|done|done|..].
    + intros d. rewrite E2. destruct (Z.eqb_spec d 1) as [->|]; [by rewrite length_insert|done].
    + intros d n bytes. rewrite E2. destruct (Z.eqb_spec d 1) as [->|]; [|apply Hm].
      intros [(_ & <- & _)|[_ Hd]]%list_lookup_insert_Some; [done|by eapply Hm].
  - destruct (lookup_lt_is_Some_2 (medium h 1) (Z.to_nat (b_blockno b))) as [bytes Hb]; [lia|].
    destruct (settle_read h _ _ _ Hp Hb) as [E1 E2]. rewrite Hok in E2. rewrite E1.
    split_and!; [done|done| |done|done]. exists bytes. split_and!; [done|by eapply Hm|done].
Qed.

Lemma dset_dset i f g s : dset i f (dset i g s) = dset i (λ b, f (g b)) s.
Proof. unfold dset. cbn. by rewrite alter_alter. Qed.

Lemma dset_ext i f g s b : bufs (dbio s) !! i = Some b → f b = g b → dset i f s = dset i g s.
Proof. intros Hb E. unfold dset. by rewrite !(alter_insert _ _ _ _ Hb), E. Qed.

Lemma dset_lookup i f s j :
  bufs (dbio (dset i f s)) !! j = if decide (i = j) then f <$> bufs (dbio s) !! j else bufs (dbio s) !! j.
Proof. apply (bset_lookup i f (dbio s)). Qed.

Lemma finish_ok m i b s :
  bufs (dbio s) !! i = Some b → settled m b (drive s) →
  ∃ h, finish polls i s = Ok tt (dset i (finished m) (set_drive h s)) ∧
    ph h = Idle ∧ medium h = medium (drive s).
Proof.
  intros Hb (_ & Hok & Hset). unfold finish. rewrite (bind_ok _ _ _ _ _ (dgetb_ok s i b Hb)).
  assert (∀ (g : buf → buf) (t : dst H B), bufs (dbio t) !! i = Some b →
    set_b_flags (Z.ldiff (Z.lor (b_flags (g b)) B_VALID) B_DIRTY) (g b) = finished m b →
    (dsetb i (λ b, set_b_flags (Z.lor (b_flags b) B_VALID) b);;
     dsetb i (λ b, set_b_flags (Z.ldiff (b_flags b) B_DIRTY) b)) (dset i g t) =
    Ok tt (dset i (finished m) t)) as Hfl.
  { intros g t Ht E. rewrite (bind_ok _ _ _ _ _ (dsetb_ok (dset i g t) i (g b) _ ltac:(by rewrite dset_lookup, decide_True, Ht))).
    erewrite dsetb_ok by (by rewrite !dset_lookup, !decide_True, Ht). rewrite !dset_dset.
    f_equal. by apply (dset_ext _ _ _ _ b Ht). }
  unfold finished in *. destruct (flag B_DIRTY b) eqn:Ed; cbn [negb].
  - exists (drive s). rewrite (bind_ok _ _ _ tt (dset i (λ b, b) s)).
    + replace (set_drive (drive s) s) with s by (by destruct s). split; [|done].
      apply (Hfl (λ b, b)); [done|]. unfold flushed. by rewrite flags_flushed.
    + unfold mret, K_ret, dset. rewrite (alter_insert _ _ _ _ Hb), list_insert_id by done. by destruct s as [[] ? ? ? ?].
  - destruct Hset as (bytes & Hby & Hlen & Hph).
    destruct (idewait_ok polls true s Hpolls) as (h0 & R0 & (E1 & E2 & E3 & E4) & E5). rewrite Hok in R0.
    destruct (insl_data h0 bytes ltac:(by rewrite E1) E5 Hlen) as (h1 & R1 & I1 & M1).
    exists h1. split; [|by rewrite M1, E3].
    rewrite (bind_ok _ _ _ tt (dset i (set_b_data bytes) (set_drive h1 s))).
    + apply (Hfl (set_b_data bytes)); [done|]. rewrite Hby. unfold filled_with. cbn [b_flags set_b_data default].
      rewrite flags_filled by (by rewrite <- flag_dirty). done.
    + rewrite (bind_ok _ _ _ _ _ R0). cbn [andb Z.geb Z.compare].
      rewrite (bind_ok _ _ _ bytes (set_drive h1 s)) by (unfold insl; cbn [drive set_drive];
        change BSIZE with SECTOR_SIZE; by rewrite R1).
      by apply (dsetb_ok _ _ b).
Qed.

(** The rest of the queue, with the drive idle: the handler starts its head. *)
Lemma start_next_ok q s :
  queued (bufs (dbio s)) (idequeue s) q → NoDup q →
  (∀ i b, i ∈ q → bufs (dbio s) !! i = Some b → request (drive s) b) → ph (drive s) = Idle →
  (∀ d n bytes, medium (drive s) d !! n = Some bytes → length bytes = BSIZE) →
  ∃ h, (q ← gets idequeue; if bool_decide (q ≠ None) then idestart polls q else mret tt) s =
      Ok tt (set_drive h s) ∧
    ide_ok q (set_drive h s) ∧ medium h = medium (drive s).
Proof.
  intros Hq Hnd Hr Hi Hm. rewrite (bind_ok _ _ _ _ _ (gets_ok _ _)). destruct q as [|i q].
  - simpl in Hq. rewrite Hq, bool_decide_false by naive_solver. exists (drive s).
    replace (set_drive (drive s) s) with s by (by destruct s). split; [done|]. split; [|done].
    split; [by rewrite Hq|done|set_solver|done|done].
  - pose proof Hq as (Hh & b & Hb & _). rewrite Hh, bool_decide_true by done.
    destruct (idestart_ok i b s Hb) as (h & R & Hp & Hmed); [apply (Hr i); [set_solver|done]|done|].
    exists h. split; [exact R|]. split; [|done]. split; [done|done| |..]; cbn [dbio drive set_drive idequeue].
    + intros j c Hj Hc. eapply request_medium; [by rewrite Hmed|by apply (Hr j)].
    + intros c Hc. by simplify_eq.
    + by rewrite Hmed.
Qed.

(** The drive finishes its command and raises the interrupt. *)
Definition disk_interrupt : K (dst H B) unit :=
  modify (λ s, set_drive (settle (drive s)) s);; ideintr polls.

Lemma finished_qnext m b : b_qnext (finished m b) = b_qnext b.
Proof. unfold finished. by destruct (flag B_DIRTY b). Qed.

Lemma interrupt_ok i q s L :
  ide_ok (i :: q) s → failed (settle (drive s)) = false → k_ok L s → Lide ∉ L → Lptable ∉ L →
  ∃ b s', bufs (dbio s) !! i = Some b ∧ disk_interrupt s = Ok tt s' ∧ ide_ok q s' ∧ k_ok L s' ∧
    k_self s' = k_self s ∧ k_me s' = k_me s ∧ havedisk1 s' = havedisk1 s ∧
    bufs (dbio s') = alter (finished (medium (drive s) 1)) i (bufs (dbio s)) ∧
    medium (drive s') 1 = stored (medium (drive s) 1) b ∧
    (∀ d x, k_asleep s' d x ↔ k_asleep s d x ∧ d ≠ ChBuf i) ∧ (∀ x, k_ready s' x ↔ k_ready s x ∨ k_asleep s (ChBuf i) x).
Proof.
  intros [(Hh & b & Hb & Hq) Hnd Hr Hd Hm] Hf HL Hl Hp. apply NoDup_cons in Hnd as [Hiq Hnd].
  destruct (settle_ok (drive s) b) as (Hset & Hlen & Hm'); [apply (Hr i); [set_solver|done]|by apply Hd|done|done|].
  pose (s0 := set_drive (settle (drive s)) s).
  destruct (ide_acquire L s0 HL Hl) as (b1 & R1 & K1 & S1 & M1).
  pose (s2 := set_idequeue (b_qnext b) (rebase b1 s0)).
  destruct (finish_ok (medium (drive s) 1) i b s2 Hb Hset) as (h3 & R3 & I3 & M3).
  set (s3 := dset i (finished (medium (drive s) 1)) (set_drive h3 s2)) in *.
  destruct (ide_wakeup ({[Lide]} ∪ L) (ChBuf i) s3 K1) as (b4 & R4 & K4 & S4 & M4); [set_solver|].
  destruct (start_next_ok q (rebase b4 s3)) as (h5 & R5 & H5 & E5).
  { cbn. apply queued_alter; [apply finished_qnext|done]. }
  { done. }
  { intros j c Hj. cbn. rewrite list_lookup_alter_ne by set_solver. intros Hc.
    eapply request_medium; [|apply (Hr j); [set_solver|exact Hc]]. rewrite M3. apply Hlen. }
  { exact I3. }
  { cbn. rewrite M3. exact Hm'. }
  destruct (ide_release ({[Lide]} ∪ L) (set_drive h5 (rebase b4 s3)) K4) as (b6 & R6 & K6 & S6 & M6); [set_solver|].
  assert (k_ok L s0) as K0 by exact HL. assert (k_ok ({[Lide]} ∪ L) s3) as K3 by exact K1.
  assert (k_ok ({[Lide]} ∪ L) (set_drive h5 (rebase b4 s3))) as K5 by exact K4.
  destruct (kw_acquire L Lide s0 _ K0 Hl R1) as [A1 Y1].
  destruct (kw_wakeup ({[Lide]} ∪ L) (ChBuf i) s3 _ K3 ltac:(set_solver) R4) as [A4 Y4].
  destruct (kw_release ({[Lide]} ∪ L) Lide (set_drive h5 (rebase b4 s3)) _ K5 ltac:(set_solver) R6) as [A6 Y6].
  exists b, (rebase b6 (set_drive h5 (rebase b4 s3))). split_and!; try done.
  - unfold disk_interrupt. rewrite (bind_ok _ _ _ _ _ (modify_ok _ _)). fold s0. unfold ideintr.
    rewrite (bind_ok _ _ _ _ _ R1), (bind_ok _ _ _ _ _ (gets_ok _ _)). cbn [idequeue rebase set_dbio s0 set_drive].
    rewrite Hh. rewrite (bind_ok _ _ _ b (rebase b1 s0)) by (by apply dgetb_ok).
    rewrite (bind_ok _ _ _ _ _ (modify_ok _ _)). fold s2.
    rewrite (bind_ok _ _ _ _ _ R3), (bind_ok _ _ _ _ _ R4).
    rewrite (bind_ok _ _ _ _ _ (gets_ok _ _)). rewrite (bind_ok _ _ _ _ _ (gets_ok _ _)) in R5.
    by rewrite (bind_ok _ _ _ _ _ R5).
  - by replace L with (({[Lide]} ∪ L) ∖ {[Lide]}) by set_solver.
  - etransitivity; [exact S6|]. etransitivity; [exact S4|exact S1].
  - etransitivity; [exact M6|]. etransitivity; [exact M4|exact M1].
  - cbn. rewrite E5. cbn. rewrite M3. apply Hset.
  - intros d x. etransitivity; [exact (A6 d x)|]. etransitivity; [exact (A4 d x)|].
    apply and_iff_compat_r. exact (A1 d x).
  - intros x. etransitivity; [exact (Y6 x)|]. etransitivity; [exact (Y4 x)|].
    split; (intros [Hy|Hy]; [left; by apply (Y1 x)|right; by apply (A1 (ChBuf i) x)]).
Qed.

(** The same request on the in-memory disk of memide.c. *)
Lemma iderw_finished h i b (t : bst B) :
  bufs t !! i = Some b → request h b → disk t = medium h 1 →
  ∃ t', iderw i t = Ok tt t' ∧ bufs t' = alter (finished (disk t)) i (bufs t) ∧ disk t' = stored (disk t) b.
Proof.
  intros Hb [Hbusy Htodo Hdev Hblk Hmed Hlen] Hd. rewrite <- Hd in Hmed.
  assert (has 1 (b_blockno b) b = true) as Hh by (unfold has; by rewrite Hdev, !Z.eqb_refl).
  destruct (flag B_DIRTY b) eqn:Ed.
  - eexists. split; [by apply (iderw_write t i b (b_blockno b)); [..|lia]|]. cbn. split.
    + rewrite !(alter_insert _ _ _ _ Hb). unfold finished. by rewrite Ed.
    + unfold stored. by rewrite Ed.
  - destruct (lookup_lt_is_Some_2 (disk t) (Z.to_nat (b_blockno b))) as [bytes Hby]; [lia|].
    eexists. split.
    { apply (iderw_read t i b (b_blockno b) bytes); try done; [|lia].
      destruct (flag B_VALID b); [by specialize (Htodo eq_refl)|done]. }
    cbn. split.
    + rewrite !(alter_insert _ _ _ _ Hb). unfold finished. rewrite Ed.
      do 2 f_equal. symmetry. exact (f_equal (default []) Hby).
    + unfold stored. by rewrite Ed.
Qed.

(** As many interrupts as there are requests serve the whole queue, in order. *)
Lemma drain_ok q s L (t : bst B) :
  ide_ok q s → (∀ h, failed (settle h) = false) → k_ok L s → Lide ∉ L → Lptable ∉ L →
  bufs t = bufs (dbio s) → disk t = medium (drive s) 1 →
  ∃ s' t', for_each q (λ _, disk_interrupt) s = Ok tt s' ∧ ide_ok [] s' ∧ k_ok L s' ∧
    k_self s' = k_self s ∧ k_me s' = k_me s ∧
    for_each q iderw t = Ok tt t' ∧ bufs t' = bufs (dbio s') ∧ disk t' = medium (drive s') 1 ∧
    (∀ d x, k_asleep s' d x ↔ k_asleep s d x ∧ ∀ i, i ∈ q → d ≠ ChBuf i) ∧
    (∀ x, k_ready s' x ↔ k_ready s x ∨ ∃ i, i ∈ q ∧ k_asleep s (ChBuf i) x).
Proof.
  intros Hq Hf HL Hl Hp. revert s t Hq HL. induction q as [|i q IH]; intros s t Hq HL Hb Hd; [exists s, t; split_and!; set_solver|].
  destruct (interrupt_ok i q s L Hq (Hf _) HL Hl Hp) as (b & s1 & Hi & R1 & Hq1 & HL1 & S1 & M1 & _ & B1 & D1 & A1 & Y1).
  destruct (iderw_finished (drive s) i b t) as (t1 & T1 & B1' & D1'); [by rewrite Hb| |done|].
  { destruct Hq as [_ _ Hr _ _]. apply (Hr i); [set_solver|done]. }
  destruct (IH s1 t1 Hq1 HL1) as (s' & t' & R & Hq' & HL' & S' & M' & T & B' & D' & A' & Y').
  { by rewrite B1', B1, Hb, Hd. }
  { by rewrite D1', D1, Hd. }
  exists s', t'. cbn [for_each]. rewrite (bind_ok _ _ _ _ _ R1), (bind_ok _ _ _ _ _ T1), S', M'. split_and!; try done.
  - intros d x. rewrite A', A1. set_solver.
  - intros x. rewrite Y', Y1. setoid_rewrite A1. split.
    + intros [[?|?]|(j & Hj & ? & _)]; [by left|right; exists i; set_solver|right; exists j; set_solver].
    + intros [?|(j & Hj & Ha)]; [by left; left|]. destruct (decide (j = i)) as [->|Hne]; [by left; right|].
      right. exists j. split_and!; [set_solver|done|congruence].
Qed.
End handlers.

(** ** Appending a request *)

Section append.
Context {H B : Type}.
Implicit Types (s : dst H B).

Lemma read_pp_buf j b s : bufs (dbio s) !! j = Some b → read_pp (Some j) s = Ok (b_qnext b) s.
Proof. intros Hb. unfold read_pp. by rewrite (bind_ok _ _ _ _ _ (dgetb_ok s j b Hb)). Qed.

(** The walk ends at the last link. *)
Lemma append_walk r pp v fuel s :
  (length r < fuel)%nat → read_pp pp s = Ok v s → queued (bufs (dbio s)) v r →
  while fuel (λ pp, v ← read_pp pp; mret (match v with Some j => inl (Some j) | None => inr pp end)) pp s =
    Ok (match last r with Some j => Some j | None => pp end) s.
Proof.
  revert pp v fuel. induction r as [|j r IH]; intros pp v [|fuel] Hf Hv Hq; simpl in Hf; [lia| |lia|].
  - simpl in Hq. subst v. apply (while_ok _ _ _ _ (inr pp) s). by rewrite (bind_ok _ _ _ _ _ Hv).
  - destruct Hq as (-> & b & Hb & Hq).
    rewrite (while_ok _ _ _ _ (inl (Some j)) s) by (by rewrite (bind_ok _ _ _ _ _ Hv)).
    rewrite (IH (Some j) (b_qnext b) fuel); [|lia|by apply read_pp_buf|done].
    destruct r as [|k r]; [done|]. rewrite last_cons_cons. by destruct (last (k :: r)) eqn:E; [|apply last_None in E].
Qed.

(** The buffers without the queue's links. *)
Definition unqueued (bs : list buf) : list buf := set_b_qnext None <$> bs.

Lemma unqueued_alter bs i v : unqueued (alter (set_b_qnext v) i bs) = unqueued bs.
Proof.
  apply list_eq. intros j. unfold unqueued. rewrite !list_lookup_fmap.
  destruct (decide (i = j)) as [<-|]; [|by rewrite list_lookup_alter_ne].
  rewrite list_lookup_alter_eq. by destruct (bs !! i).
Qed.

Lemma queued_length bs o q : queued bs o q → NoDup q → (length q ≤ length bs)%nat.
Proof.
  intros Hq Hnd. rewrite <- (length_seq (length bs) 0). apply submseteq_length, NoDup_submseteq; [done|].
  intros j Hj. apply elem_of_seq0. clear Hnd. revert o Hq. induction q as [|k q IH]; [set_solver|].
  intros o (_ & b & Hb & Hq). apply elem_of_cons in Hj as [->|Hj]; [by eapply lookup_lt_Some|by eapply IH].
Qed.

Lemma enqueue_ok i b q s :
  queued (bufs (dbio s)) (idequeue s) q → NoDup q → i ∉ q → bufs (dbio s) !! i = Some b →
  length (bufs (dbio s)) = S NBUF →
  ∃ o bs, enqueue i s = Ok tt (set_idequeue o (set_dbio (set_bufs bs (dbio s)) s)) ∧
    queued bs o (q ++ [i]) ∧ unqueued bs = unqueued (bufs (dbio s)).
Proof.
  intros Hq Hnd Hi Hb Hlen. unfold enqueue.
  rewrite (bind_ok _ _ _ _ _ (dsetb_ok s i b (set_b_qnext None) Hb)).
  set (s1 := dset i (set_b_qnext None) s).
  assert (bufs (dbio s1) !! i = Some (set_b_qnext None b)) as Hb1.
  { unfold s1. by rewrite dset_lookup, decide_True, Hb. }
  assert (queued (bufs (dbio s1)) (idequeue s1) q) as Hq1 by (by apply queued_alter_out).
  pose proof (queued_length _ _ _ Hq Hnd) as Hle.
  rewrite (bind_ok _ _ _ _ _ (append_walk q None (idequeue s1) (S (S NBUF)) s1 ltac:(lia) eq_refl Hq1)).
  destruct q as [|j q _] using rev_ind.
  - simpl in Hq1. exists (Some i), (bufs (dbio s1)). split; [reflexivity|].
    split; [split; [done|]; by exists (set_b_qnext None b)|]. apply unqueued_alter.
  - rewrite last_snoc. exists (idequeue s), (alter (set_b_qnext (Some i)) j (bufs (dbio s1))).
    assert (is_Some (bufs (dbio s1) !! j)) as [c Hc].
    { clear -Hq1. revert Hq1. generalize (idequeue s1). induction q as [|k q IH]; intros o (_ & c & Hc & Hq);
        [by exists c|by eapply IH]. }
    split; [cbn [write_pp]; rewrite (dsetb_ok s1 j c _ Hc); by destruct s|].
    split; [|by rewrite unqueued_alter; apply unqueued_alter].
    rewrite <- app_assoc. by eapply queued_snoc.
Qed.
End append.
