(* ===== verification/IdeProps.v ===== *)
(** * Properties of the disk driver

    [SimDrive] is a drive that implements the interface of Ide.v.  The driver on
    any such drive serves its queue in order with the same effect as the
    in-memory disk the buffer cache is verified over; a process that asks for a
    transfer is queued and sleeps until it is done.  A transfer the drive reports
    as failed is nevertheless delivered as valid data. *)
From S2P Require Import Prelude Spinlock Str Ptable PtableLists Sched Choice Scheduling Services Kalloc Bio BioRing BioFacts BioProps Irq Ide IdeFacts.

(** ** A process asks for a transfer *)

Lemma bind_switch {S X Y} (m : K S X) (f : X → K S Y) s s1 k :
  m s = Switch s1 k → (m ≫= f) s = Switch s1 (λ s', obind (k s') f).
Proof. intros E. unfold mbind, K_bind. by rewrite E. Qed.

Section submit.
Context {H B : Type} {P : Ports H} {A : Ata H} {O : KOps B} {W : KLaws B}.
Context (polls : nat) (Hpolls : (latency ≤ polls)%nat) (Htakes : takes_data H).
Implicit Types (s : dst H B).

Lemma unqueued_lookup bs bs' j b' :
  unqueued bs' = unqueued bs → bs' !! j = Some b' → ∃ b v, bs !! j = Some b ∧ b' = set_b_qnext v b.
Proof.
  intros E Hb. apply (f_equal (λ l, l !! j)) in E. unfold unqueued in E. rewrite !list_lookup_fmap, Hb in E.
  destruct (bs !! j) as [b|]; [|done]. exists b, (b_qnext b'). split; [done|].
  destruct b, b'. simpl in *. by simplify_eq.
Qed.

Lemma request_qnext (h : H) b v : request h b → request h (set_b_qnext v b).
Proof. by intros [H1 H2 H3 H4 H5 H6]; split. Qed.

(** The links changed, the requests and the drive did not. *)
Lemma requests_relinked (q : list nat) bs bs' (h : H) :
  unqueued bs' = unqueued bs → (∀ j c, j ∈ q → bs !! j = Some c → request h c) →
  ∀ j c, j ∈ q → bs' !! j = Some c → request h c.
Proof.
  intros Hu Hr j c Hj Hc. destruct (unqueued_lookup _ _ _ _ Hu Hc) as (b & v & Hb & ->).
  by apply request_qnext, (Hr j).
Qed.

(** From the lock to the wait: the request is queued, and started if it is
    alone. *)
Lemma submit_ok i b q s :
  ide_ok q s → i ∉ q → bufs (dbio s) !! i = Some b → request (drive s) b → length (bufs (dbio s)) = S NBUF →
  ∃ o bs h, (enqueue i;; q ← gets idequeue;
       if bool_decide (q = Some i) then idestart polls (Some i) else mret tt) s =
      Ok tt (set_drive h (set_idequeue o (set_dbio (set_bufs bs (dbio s)) s))) ∧
    ide_rep (q ++ [i]) bs o h ∧ unqueued bs = unqueued (bufs (dbio s)) ∧ medium h = medium (drive s).
Proof.
  intros [Hq Hnd Hr Hd Hm] Hi Hb Hreq Hlen.
  destruct (enqueue_ok i b q s Hq Hnd Hi Hb Hlen) as (o & bs & R & Hq' & Hu).
  assert (NoDup (q ++ [i])) as Hnd' by (apply NoDup_app; split_and!; [done|set_solver|apply NoDup_singleton]).
  assert (∀ j c, j ∈ q ++ [i] → bs !! j = Some c → request (drive s) c) as Hr'.
  { apply (requests_relinked _ _ _ _ Hu). intros j c Hj Hc. apply elem_of_app in Hj as [Hj|Hj]; [by apply (Hr j)|].
    apply list_elem_of_singleton in Hj as ->. by simplify_eq. }
  rewrite (bind_ok _ _ _ _ _ R), (bind_ok _ _ _ _ _ (gets_ok _ _)). cbn [idequeue set_idequeue].
  exists o, bs. destruct q as [|j q].
  - pose proof Hq' as (-> & c & Hc & _). rewrite bool_decide_true by done.
    destruct (idestart_ok (B := B) polls Hpolls Htakes i c (set_idequeue (Some i) (set_dbio (set_bufs bs (dbio s)) s)) Hc)
      as (h & R' & Hp & Hmed); [apply (Hr' i); [set_solver|done]|done|].
    exists h. split; [exact R'|]. split; [|done]. split; [done|done| |..].
    + intros k c' Hk Hc'. eapply request_medium; [by rewrite Hmed|by apply (Hr' k)].
    + intros c' Hc'. by simplify_eq.
    + by rewrite Hmed.
  - pose proof Hq' as (-> & c & Hc & _). rewrite bool_decide_false by (intros [= ->]; set_solver).
    exists (drive s). split; [reflexivity|]. split; [|done]. split; [done|done|done| |done].
    simpl. intros c' Hc'. destruct (unqueued_lookup _ _ _ _ Hu Hc') as (b0 & v & Hb0 & ->).
    by rewrite (Hd _ Hb0).
Qed.

(** A finished transfer ends the wait at once. *)
Lemma await_done wakes i b s L :
  k_ok L s → Lide ∈ L → bufs (dbio s) !! i = Some b → flag B_VALID b = true → flag B_DIRTY b = false →
  ∃ bb, (await wakes i;; k_release Lide) s = Ok tt (rebase bb s) ∧ k_ok (L ∖ {[Lide]}) (rebase bb s) ∧
    k_self (rebase bb s) = k_self s.
Proof.
  intros HL Hl Hb Hv Hd. destruct (ide_release L s HL Hl) as (bb & R & HL' & Hs & _).
  exists bb. split; [|done]. rewrite (bind_ok _ _ _ tt s); [done|].
  unfold await. rewrite (while_ok _ _ _ _ (inr tt) s); [done|].
  rewrite (bind_ok _ _ _ _ _ (dgetb_ok s i b Hb)).
  rewrite land_valid_dirty, <- flag_valid, <- flag_dirty, Hv, Hd. done.
Qed.

(** A pending one makes the caller sleep; when it is woken with the transfer
    done it returns. *)
Lemma await_sleeps wakes i b s x :
  k_ok {[Lide]} s → k_self s = Some x → bufs (dbio s) !! i = Some b → (flag B_VALID b = true → flag B_DIRTY b = true) →
  ∃ bb k, (await (S wakes) i;; k_release Lide) s = Switch (rebase bb s) k ∧
    ∀ s2 c, k_ok {[Lptable]} s2 → k_self s2 = Some x → bufs (dbio s2) !! i = Some c →
      flag B_VALID c = true → flag B_DIRTY c = false →
      ∃ b3, k s2 = Ok tt (rebase b3 s2) ∧ k_ok ∅ (rebase b3 s2) ∧ k_self (rebase b3 s2) = Some x.
Proof.
  intros HL Hs Hb Htodo. destruct (k_sleep_ok (ChBuf i) Lide s x HL ltac:(done) Hs) as (s1 & k & R & Hf & Hk).
  destruct Hf as (b1 & -> & (bb & -> & _)). exists bb.
  assert (flag B_VALID b && negb (flag B_DIRTY b) = false) as Hn.
  { destruct (flag B_VALID b); [by rewrite Htodo|done]. }
  unfold await at 1. cbn [while]. eexists. split.
  { apply bind_switch, bind_switch. rewrite (bind_ok _ _ _ _ _ (dgetb_ok s i b Hb)).
    rewrite land_valid_dirty, <- flag_valid, <- flag_dirty, Hn. apply bind_switch. exact R. }
  intros s2 c HL2 Hs2 Hc Hv Hd. destruct (Hk s2 HL2 Hs2) as (s3 & R3 & HL3 & Hf3 & Hs3).
  destruct Hf3 as (b3 & -> & (bb3 & -> & _)). change (put _ s2) with (rebase bb3 s2) in *.
  rewrite R3. cbn [obind].
  destruct (await_done wakes i c (rebase bb3 s2) {[Lide]} HL3 ltac:(set_solver) Hc Hv Hd) as (b4 & R4 & HL4 & Hs4).
  exists b4. replace ({[Lide]} ∖ {[Lide]} : gset lockid) with (∅ : gset lockid) in HL4 by set_solver.
  split; [|split; [exact HL4|by etransitivity; [exact Hs4|]]]. exact R4.
Qed.
End submit.

(** ** A drive *)

(** A drive that reads busy three times after a command or a sector of data, and
    [wlag] times between a write command and its data; while it is busy it ignores
    the ports.  It has two disks; the sectors [bad] cannot be read. *)
Module SimDrive.
Section sim.
Context (bad : list Z) (wlag : nat).

Record sim := Sim { s_ph : phase; s_reg : Z → Z; s_med : Z → list block; s_lag : nat; s_err : bool }.

Definition busy (h : sim) : nat := Nat.min 3 (s_lag h).

Definition status (h : sim) : Z :=
  match busy h with
  | O => Z.lor IDE_DRDY (if s_err h then IDE_ERR else 0)
  | S _ => Z.lor IDE_BSY (if s_err h then IDE_ERR else 0)
  end.

#[local] Instance ports : Ports sim := {|
  hw_inb p h :=
    if p =? 0x1f7 then (status h, Sim (s_ph h) (s_reg h) (s_med h) (pred (busy h)) (s_err h)) else (0, h);
  hw_outb p v h :=
    if negb (busy h =? 0)%nat then h
    else if p =? 0x1f7 then
      let d := reg_unit (s_reg h) in
      let n := reg_lba (s_reg h) in
      if v =? IDE_CMD_READ then Sim (Reading d n) (s_reg h) (s_med h) 3 false
      else if v =? IDE_CMD_WRITE then Sim (DataOut d n) (s_reg h) (s_med h) wlag false
      else h
    else Sim (s_ph h) (set_reg p v (s_reg h)) (s_med h) (s_lag h) (s_err h);
  hw_insl p cnt h :=
    match s_ph h, busy h with
    | DataIn bytes, O => (bytes, Sim Idle (s_reg h) (s_med h) 0 (s_err h))
    | _, _ => (replicate (4 * cnt) 0, h)
    end;
  hw_outsl p bytes h :=
    match s_ph h, busy h with
    | DataOut d n, O => Sim (Writing d n bytes) (s_reg h) (s_med h) 3 (s_err h)
    | _, _ => h
    end;
  settle h :=
    match s_ph h with
    | Reading d n =>
        if bool_decide (n ∈ bad) then Sim Idle (s_reg h) (s_med h) (s_lag h) true
        else Sim (DataIn (default [] (s_med h d !! Z.to_nat n))) (s_reg h) (s_med h) (s_lag h) false
    | Writing d n bytes =>
        Sim Idle (s_reg h) (λ d', if d' =? d then <[Z.to_nat n := bytes]> (s_med h d) else s_med h d')
          (s_lag h) false
    | _ => Sim (s_ph h) (s_reg h) (s_med h) (s_lag h) false
    end
|}.

Lemma status_bits h :
  (Z.land (status h) (Z.lor IDE_BSY IDE_DRDY) = IDE_DRDY ↔ busy h = 0%nat) ∧
  (Z.land (status h) (Z.lor IDE_DF IDE_ERR) = 0 ↔ s_err h = false).
Proof. unfold status. by destruct (busy h), (s_err h). Qed.

#[local] Instance drive_ata : Ata sim.
Proof.
  refine {| ph := s_ph; reg := s_reg; medium := s_med; lag := busy; latency := 3; failed := s_err |}.
  - intros h. unfold busy. lia.
  - intros h. eexists _, _. split; [reflexivity|]. destruct (status_bits h) as [H1 H2].
    split_and!; try done. unfold busy. cbn [s_lag]. lia.
  - intros h p v Hp Hi Hl. cbn -[busy]. unfold task_port in Hp. rewrite Hl.
    assert (p ≠ 0x1f7) as Hne by (intros ->; set_solver). rewrite (proj2 (Z.eqb_neq _ _) Hne). done.
  - intros h Hi Hl Hn. cbn -[busy]. by rewrite Hl.
  - intros h Hi Hl Hn. cbn -[busy]. by rewrite Hl.
  - intros h d n bytes Hi Hl Hn. cbn -[busy]. by rewrite Hi, Hl.
  - intros h bytes Hi Hl Hn. cbn -[busy]. rewrite Hi, Hl. by eexists.
  - intros h d n bytes Hi Hb. cbn -[busy]. rewrite Hi. destruct (bool_decide (n ∈ bad)); [done|]. split; [done|].
    cbn -[busy]. f_equal. exact (f_equal (default []) Hb).
  - intros h d n bytes Hi Hf. cbn -[busy]. by rewrite Hi.
Defined.
End sim.

Lemma no_bad_sectors wlag h : failed (Ata := drive_ata [] wlag) (settle (Ports := ports [] wlag) h) = false.
Proof. cbn. by destruct (s_ph h). Qed.

Lemma prompt bad : takes_data sim (P := ports bad 0) (A := drive_ata bad 0).
Proof. intros h Hi Hl. cbn -[busy] in Hl |- *. by rewrite Hl. Qed.
End SimDrive.

(** ** Properties *)

(** What the driver's buffers and disk 1 are to the buffer cache. *)
Definition as_bio {H B} {P : Ports H} {A : Ata H} (s : dst H B) : bst B :=
  Bst (bbase (dbio s)) (bufs (dbio s)) (medium (drive s) 1) (writes (dbio s)).

Section props.
Context {H B : Type} {P : Ports H} {A : Ata H} {O : KOps B} {W : KLaws B} {V : KWake B}.

(** C22: on a drive that takes no register, command or data while it is busy, whose
    transfers do not fail and which asks for the data of a write at once, as many
    interrupts as there are requests empty the queue, and buffers and disk end up
    exactly as if the in-memory disk had served the requests one by one in the order
    they were queued; every poll of the status ends.  The processes that slept on
    the buffers of the queue are ready to run, and no other process's sleep ends. *)
Theorem disk_queue_served polls q (s : dst H B) L :
  (latency ≤ polls)%nat → takes_data H → (∀ h, failed (settle h) = false) →
  ide_ok q s → k_ok L s → Lide ∉ L → Lptable ∉ L →
  ∃ s' t, for_each q (λ _, disk_interrupt polls) s = Ok tt s' ∧ for_each q iderw (as_bio s) = Ok tt t ∧
    bufs (dbio s') = bufs t ∧ medium (drive s') 1 = disk t ∧
    idequeue s' = None ∧ ph (drive s') = Idle ∧ k_ok L s' ∧ k_self s' = k_self s ∧
    (∀ c x, k_asleep s' c x ↔ k_asleep s c x ∧ ∀ i, i ∈ q → c ≠ ChBuf i) ∧
    (∀ x, k_ready s' x ↔ k_ready s x ∨ ∃ i, i ∈ q ∧ k_asleep s (ChBuf i) x).
Proof.
  intros Hp Ht Hf Hq HL Hl Hpt.
  destruct (drain_ok polls Hp Ht q s L (as_bio s) Hq Hf HL Hl Hpt eq_refl eq_refl)
    as (s' & t & R & [Hq' _ _ Hi _] & HL' & Hs & _ & T & Hb & Hd & Ha & Hy).
  by exists s', t.
Qed.

(** a process that asks for the transfer of a busy buffer is queued behind
    the requests already there, the drive is started if it was idle, and it
    sleeps; once an interrupt has finished its transfer and it is resumed, it
    returns with the lock released and nothing else changed. *)
Theorem iderw_queues polls wakes i b q (s : dst H B) x :
  (latency ≤ polls)%nat → takes_data H → ide_ok q s → i ∉ q → bufs (dbio s) !! i = Some b → request (drive s) b →
  length (bufs (dbio s)) = S NBUF → havedisk1 s ≠ 0 → k_ok ∅ s → k_self s = Some x →
  ∃ s1 k, ide_rw polls (S wakes) i s = Switch s1 k ∧ ide_ok (q ++ [i]) s1 ∧
    unqueued (bufs (dbio s1)) = unqueued (bufs (dbio s)) ∧ medium (drive s1) = medium (drive s) ∧
    ∀ s2 c, k_ok {[Lptable]} s2 → k_self s2 = Some x → bufs (dbio s2) !! i = Some c →
      flag B_VALID c = true → flag B_DIRTY c = false →
      ∃ b3, k s2 = Ok tt (rebase b3 s2) ∧ k_ok ∅ (rebase b3 s2).
Proof.
  intros Hp Ht Hq Hi Hb Hreq Hlen Hdisk HL Hs. pose proof Hreq as [Hbusy Htodo Hdev _ _ _].
  destruct (ide_acquire ∅ s HL ltac:(set_solver)) as (b1 & R1 & HL1 & S1 & _).
  replace ({[Lide]} ∪ ∅ : gset lockid) with ({[Lide]} : gset lockid) in HL1 by set_solver.
  destruct (submit_ok polls Hp Ht i b q (rebase b1 s) Hq Hi Hb Hreq Hlen) as (o & bs & h & R2 & Hq2 & Hu & Hm).
  set (s2 := set_drive h (set_idequeue o (set_dbio (set_bufs bs (dbio (rebase b1 s))) (rebase b1 s)))) in *.
  assert (∃ c, bs !! i = Some c) as [c Hc].
  { apply lookup_lt_is_Some_2. apply (f_equal length) in Hu. unfold unqueued in Hu. rewrite !length_fmap in Hu.
    rewrite Hu. by eapply lookup_lt_Some. }
  destruct (unqueued_lookup _ _ _ _ Hu Hc) as (b' & v & Hb' & ->). cbn in Hb'. simplify_eq.
  destruct (await_sleeps wakes i _ s2 x HL1 ltac:(by etransitivity; [exact S1|]) Hc Htodo) as (bb & k & R3 & Hk).
  exists (rebase bb s2), k. split_and!; [|done..|].
  - unfold ide_rw. rewrite (bind_ok _ _ _ _ _ (dgetb_ok s i b Hb)), Hbusy.
    rewrite (bind_ok _ _ _ tt s) by done.
    rewrite land_valid_dirty, <- flag_valid, <- flag_dirty.
    assert (flag B_VALID b && negb (flag B_DIRTY b) = false) as ->.
    { destruct (flag B_VALID b); [by rewrite Htodo|done]. }
    rewrite (bind_ok _ _ _ tt s) by done. rewrite (bind_ok _ _ _ _ _ (gets_ok _ _)).
    rewrite (proj2 (Z.eqb_neq _ _) Hdisk), andb_false_r. rewrite (bind_ok _ _ _ tt s) by done.
    rewrite (bind_ok _ _ _ _ _ R1). etransitivity; [|exact R3].
    unfold mbind, K_bind in R2 |- *. destruct (enqueue i (rebase b1 s)) as [[] t| | | |]; try done.
    cbn [obind] in R2 |- *. unfold gets in R2 |- *. cbn [obind] in R2 |- *. by rewrite R2.
  - intros s3 c HL3 Hs3 Hc3 Hv Hd. destruct (Hk s3 c HL3 Hs3 Hc3 Hv Hd) as (b3 & R & HL4 & _). by exists b3.
Qed.

(** A read that the drive reports as failed leaves the buffer as it was, but
    marks it valid. *)
Theorem failed_read_valid polls i b (s : dst H B) :
  (latency ≤ polls)%nat → bufs (dbio s) !! i = Some b → flag B_DIRTY b = false → failed (drive s) = true →
  ∃ s' b', finish polls i s = Ok tt s' ∧ bufs (dbio s') !! i = Some b' ∧
    flag B_VALID b' = true ∧ flag B_DIRTY b' = false ∧ b_data b' = b_data b.
Proof.
  intros Hp Hb Hd Hf. destruct (idewait_ok polls true s Hp) as (h & R & _). rewrite Hf in R.
  unfold finish. rewrite (bind_ok _ _ _ _ _ (dgetb_ok s i b Hb)), Hd. cbn [negb].
  rewrite (bind_ok _ _ _ tt (set_drive h s)) by (by rewrite (bind_ok _ _ _ _ _ R)).
  rewrite (bind_ok _ _ _ _ _ (dsetb_ok (set_drive h s) i b _ Hb)).
  eexists _, _. split; [by eapply dsetb_ok; rewrite dset_lookup, decide_True; [cbn [dbio set_drive]; rewrite Hb|]|].
  rewrite !dset_lookup, !decide_True by done. cbn [dbio set_drive]. rewrite Hb. split; [reflexivity|].
  split_and!; [by flags; rewrite ?Z.lor_spec; flags|by flags|done].
Qed.
End props.

(** ** Examples *)

(** Buffer 0 waits for block 5, buffer 1 to be written to block 6. *)
Module Queue2.
#[local] Instance ports : Ports SimDrive.sim := SimDrive.ports [] 0.
#[local] Instance ata : Ata SimDrive.sim := SimDrive.drive_ata [] 0.

Definition reading : buf := Buf B_BUSY 1 5 1 bhead (Some 1%nat) zero_block.
Definition writing : buf := Buf (Z.lor B_BUSY B_DIRTY) 1 6 2 0 None (replicate BSIZE 9).
Definition bufs2 : list buf := <[0%nat := reading]> (<[1%nat := writing]> bufs_init).
Definition sim0 (p : phase) : SimDrive.sim := SimDrive.Sim p (λ _, 0) (λ _, disk40) 3 false.
Definition irq0 : irqst := Irqst irqmask0 [] false 0 0 ∅.

(** Slot 5 sleeps on buffer 0. *)
Definition waiting : pst :=
  set_procs (alter (set_p_chan (Some (ChBuf 0))) 5%nat (procs (Table.table mach0 100))) (Table.table mach0 100).

Lemma waiting_ok : pst_ok ∅ waiting.
Proof.
  destruct (table_ok : pst_ok ∅ (Table.table mach0 100)) as [(Q & F & HI) HL _].
  split; [exists Q, F; by apply queues_ok_alter|exact HL|]. intros x Hx. injection Hx as <-. by exists 1.
Qed.

Definition st : dst SimDrive.sim pst :=
  Dst (Bst waiting bufs2 disk40 []) irq0 (Some 0%nat) 1 (sim0 (Reading 1 5)).

Lemma reading_request p : request (sim0 p) reading.
Proof. by split. Qed.

Lemma writing_request p : request (sim0 p) writing.
Proof. by split. Qed.

Lemma queue2_ok : ide_ok [0%nat; 1%nat] st.
Proof.
  split.
  - split; [done|]. exists reading. split; [done|]. split; [done|]. by exists writing.
  - apply NoDup_cons. split; [set_solver|apply NoDup_singleton].
  - intros i b [->|[->|[]%not_elem_of_nil]%elem_of_cons]%elem_of_cons Hb; injection Hb as <-;
      [apply reading_request|apply writing_request].
  - intros b Hb. by injection Hb as <-.
  - intros d n bytes. apply disk40_len.
Qed.

(** Both buffers idle, the drive too. *)
Definition quiet : dst SimDrive.sim pst :=
  Dst (Bst (Table.table mach0 100) (<[0%nat := reading]> bufs_init) disk40 []) irq0 None 1 (sim0 Idle).

Lemma quiet_ok : ide_ok [] quiet.
Proof. split; [done|constructor|set_solver|done|]. intros d n bytes. apply disk40_len. Qed.

Lemma disk_queue_served_witness :
  ∃ s' t, for_each [0%nat; 1%nat] (λ _, disk_interrupt 3) st = Ok tt s' ∧
    for_each [0%nat; 1%nat] iderw (as_bio st) = Ok tt t ∧ bufs (dbio s') = bufs t ∧ k_ready s' 5%nat.
Proof.
  destruct (disk_queue_served 3 [0%nat; 1%nat] st ∅) as (s' & t & R & T & Hb & _ & _ & _ & _ & _ & _ & Hy).
  - done.
  - exact (SimDrive.prompt []).
  - exact (SimDrive.no_bad_sectors 0).
  - exact queue2_ok.
  - exact waiting_ok.
  - set_solver.
  - set_solver.
  - exists s', t. split; [exact R|]. split; [exact T|]. split; [exact Hb|]. apply Hy. right. exists 0%nat.
    split; [apply list_elem_of_here|]. eexists. split; [reflexivity|split; reflexivity].
Defined.

Lemma iderw_queues_witness :
  ∃ s1 k, ide_rw 3 1 0 quiet = Switch s1 k ∧ ide_ok [0%nat] s1.
Proof.
  destruct (iderw_queues 3 0 0 reading [] quiet 0) as (s1 & k & R & Hok & _).
  - done.
  - exact (SimDrive.prompt []).
  - exact quiet_ok.
  - set_solver.
  - done.
  - apply reading_request.
  - done.
  - done.
  - exact table_ok.
  - done.
  - exists s1, k. split; [exact R|exact Hok].
Defined.
End Queue2.

(** Sector 5 cannot be read: the buffer of block 5, all zeros, is handed to the
    file system as its content. *)
Module BadSector.
#[local] Instance ports : Ports SimDrive.sim := SimDrive.ports [5] 0.
#[local] Instance ata : Ata SimDrive.sim := SimDrive.drive_ata [5] 0.

Lemma bad_sector_read :
  ∃ s' b', finish 3 0 (set_drive (settle (Queue2.sim0 (Reading 1 5))) Queue2.st) = Ok tt s' ∧
    bufs (dbio s') !! 0%nat = Some b' ∧ flag B_VALID b' = true ∧ b_data b' = zero_block ∧
    disk40 !! 5%nat = Some (replicate BSIZE 7).
Proof.
  destruct (failed_read_valid 3 0 Queue2.reading (set_drive (settle (Queue2.sim0 (Reading 1 5))) Queue2.st))
    as (s' & b' & R & Hb & Hv & _ & Hd); [done..|].
  exists s', b'. split_and!; [exact R|done|done|done|by vm_compute].
Defined.
End BadSector.

(** A drive that is busy for a moment between a write command and its data, as the
    standard allows: [idestart] sends the data at once, and the drive waits for it
    for ever. *)
Module SlowWrite.
#[local] Instance ports : Ports SimDrive.sim := SimDrive.ports [] 1.
#[local] Instance ata : Ata SimDrive.sim := SimDrive.drive_ata [] 1.

Lemma write_data_lost :
  ∃ h, idestart (H := SimDrive.sim) 3 (Some 1%nat) (set_drive (Queue2.sim0 Idle) Queue2.st) =
      Ok tt (set_drive h (set_drive (Queue2.sim0 Idle) Queue2.st)) ∧ ph h = DataOut 1 6.
Proof. eexists. split; vm_compute; reflexivity. Qed.
End SlowWrite.
