(* ===== verification/BufSpec.v ===== *)
(** * The buffer cache as its callers see it

    [quiet L H s]: the cache invariant holds, exactly the buffers [H] are busy
    (all taken by this thread), and the locks [L] are held.  [held s i n d t]:
    buffer [i] is busy with block [n], its data is [d] and [t] says whether it is
    dirty.  In these terms [bread], changing the data, [bwrite], marking dirty
    and [brelse] have simple contracts, which the log and the file system build
    on. *)
From S2P Require Import Prelude Spinlock Str Ptable PtableLists Sched Services BioRing Bio BioFacts.

Section view.
Context {B : Type} {O : KOps B} {W : KLaws B}.
Implicit Types (s : bst B) (H : list nat) (L : gset lockid) (n : Z) (d : block).

(** A buffer without its links. *)
Definition bl s (i : nat) : option buf := strip <$> bufs s !! i.

Record quiet L H s : Prop := Quiet {
  q_bio : ∃ l, bio_ok s l;
  q_k : k_ok L s;
  q_L : Lbcache ∉ L ∧ Lptable ∉ L;
  q_busy : ∀ i b, (i < NBUF)%nat → bl s i = Some b → flag B_BUSY b = true ↔ i ∈ H;
  q_H : NoDup H ∧ ∀ i, i ∈ H → (i < NBUF)%nat;
  q_dirty : ∀ i b, (i < NBUF)%nat → bl s i = Some b → flag B_DIRTY b = true → b_dev b = 1
}.

Definition held s (i : nat) n d (t : bool) : Prop :=
  (i < NBUF)%nat ∧ ∃ b, bl s i = Some b ∧ flag B_BUSY b = true ∧ flag B_VALID b = true ∧
    has 1 n b = true ∧ b_data b = d ∧ flag B_DIRTY b = t.

(** Block [n] is cached with changes that are not on the disk. *)
Definition dirty s n : Prop :=
  ∃ i b, (i < NBUF)%nat ∧ bl s i = Some b ∧ has 1 n b = true ∧ flag B_DIRTY b = true.

Definition dirty_idx s : list nat :=
  filter (λ i, Is_true (from_option (flag B_DIRTY) false (bl s i))) (seq 0 NBUF).

Lemma bl_Some s i b : bl s i = Some b → ∃ b0, bufs s !! i = Some b0 ∧ strip b0 = b.
Proof. unfold bl. destruct (bufs s !! i) as [b0|]; [|done]. intros [= <-]. eauto. Qed.

Lemma lookup_bl s i b : bufs s !! i = Some b → bl s i = Some (strip b).
Proof. unfold bl. by intros ->. Qed.

Lemma bl_bset s i f j b :
  bufs s !! i = Some b → bl (bset i f s) j = if decide (i = j) then Some (strip (f b)) else bl s j.
Proof. intros Hb. unfold bl. rewrite bset_lookup. case_decide; [subst; by rewrite Hb|done]. Qed.

Lemma elem_of_dirty_idx s i :
  i ∈ dirty_idx s ↔ (i < NBUF)%nat ∧ ∃ b, bl s i = Some b ∧ flag B_DIRTY b = true.
Proof.
  unfold dirty_idx. rewrite list_elem_of_filter, elem_of_seq0.
  destruct (bl s i) as [b|]; simpl; [rewrite Is_true_true; naive_solver|naive_solver].
Qed.

(** With few enough buffers busy or dirty, one can be recycled. *)
Lemma quiet_spare L H s :
  quiet L H s → (length H + length (dirty_idx s) < NBUF)%nat → spare s.
Proof.
  intros Q Hlt. destruct (q_bio _ _ _ Q) as [l Hok].
  destruct (decide (Exists (λ i, i ∉ H ++ dirty_idx s) (seq 0 NBUF))) as
    [(i & Hi & Hnot)%Exists_exists|Hall].
  - rewrite elem_of_seq0 in Hi. destruct (bo_lookup _ _ i Hok ltac:(lia)) as [b Hb].
    exists i, b. split_and!; [done|done|]. unfold clean. pose proof (lookup_bl _ _ _ Hb) as Hbl.
    assert (flag B_BUSY b = false) as ->.
    { destruct (flag B_BUSY b) eqn:E; [|done]. exfalso. apply Hnot, elem_of_app. left.
      by apply (q_busy _ _ _ Q i (strip b)). }
    destruct (flag B_DIRTY b) eqn:E; [|done]. exfalso. apply Hnot, elem_of_app. right.
    apply elem_of_dirty_idx. eauto.
  - exfalso. assert (length (seq 0 NBUF) ≤ length (H ++ dirty_idx s))%nat as Hle.
    { apply submseteq_length, NoDup_submseteq; [apply NoDup_seq|]. intros i Hi.
      destruct (decide (i ∈ H ++ dirty_idx s)); [done|]. exfalso. apply Hall, Exists_exists. eauto. }
    rewrite length_seq, length_app in Hle. lia.
Qed.

Lemma no_dirty L H s : quiet L H s → (∀ n, ¬ dirty s n) → dirty_idx s = [].
Proof.
  intros Q Hno. destruct (dirty_idx s) as [|i l] eqn:E; [done|]. exfalso.
  assert (i ∈ dirty_idx s) as (Hi & b & Hb & Hd)%elem_of_dirty_idx by (rewrite E; left).
  apply (Hno (b_blockno b)). exists i, b. split_and!; try done. unfold has.
  by rewrite (q_dirty _ _ _ Q i b Hi Hb Hd), !Z.eqb_refl.
Qed.

Lemma held_block s l i j n d t d' t' :
  bio_ok s l → held s i n d t → held s j n d' t' → i = j.
Proof.
  intros Hok (Hi & b & Hb & _ & _ & Hh & _) (Hj & b' & Hb' & _ & _ & Hh' & _).
  destruct (bl_Some _ _ _ Hb) as (b0 & Hb0 & <-). destruct (bl_Some _ _ _ Hb') as (b0' & Hb0' & <-).
  unfold has in *. rewrite andb_true_iff, !Z.eqb_eq in Hh, Hh'. simpl in Hh, Hh'.
  eapply (bo_unique _ _ Hok i j b0 b0'); try done; [intuition congruence..|]. destruct Hh as [-> _]. done.
Qed.

Lemma held_lblk s l i n d t : bio_ok s l → held s i n d t → lblk s n = Some d.
Proof.
  intros Hok (Hi & b & Hb & _ & Hv & Hh & <- & _). destruct (bl_Some _ _ _ Hb) as (b0 & Hb0 & <-).
  rewrite (lblk_cached s l i b0 n Hok Hi Hb0 Hh). change (flag B_VALID (strip b0)) with (flag B_VALID b0) in Hv.
  by rewrite Hv.
Qed.
End view.

(** ** Contracts *)

Section ops.
Context {B : Type} {O : KOps B} {W : KLaws B}.
Implicit Types (s : bst B) (H : list nat) (L : gset lockid) (n m : Z) (d : block).

(** What every operation keeps: the base state up to locks and scheduling. *)
Record reading L H s n i s' d t : Prop := Reading {
  rd_quiet : quiet L (i :: H) s';
  rd_new : i ∉ H;
  rd_held : held s' i n d t;
  rd_content : lblk s n = Some d;
  rd_coherent : t = false → disk s !! Z.to_nat n = Some d;
  rd_others : ∀ j, j ≠ i → bl s' j = bl s j;
  rd_lblk : ∀ m, 0 ≤ m → lblk s' m = lblk s m;
  rd_disk : disk s' = disk s;
  rd_writes : writes s' = writes s;
  rd_keep : k_keep (bbase s) (bbase s');
  rd_dirty_idx : dirty_idx s' = dirty_idx s;
  rd_dirty : ∀ m, dirty s' m ↔ dirty s m;
  rd_t : t = true ↔ dirty s n
}.

Lemma dirty_idx_ext s s' :
  (∀ i, from_option (flag B_DIRTY) false (bl s' i) = from_option (flag B_DIRTY) false (bl s i)) →
  dirty_idx s' = dirty_idx s.
Proof. intros Hext. unfold dirty_idx. apply list_filter_iff. intros i. by rewrite Hext. Qed.

Lemma has_inj n m (b : buf) : has 1 n b = true → has 1 m b = true → n = m.
Proof. unfold has. rewrite !andb_true_iff, !Z.eqb_eq. lia. Qed.

Lemma has_dev n (b : buf) : has 1 n b = true → b_dev b = 1.
Proof. unfold has. rewrite andb_true_iff, !Z.eqb_eq. tauto. Qed.

(** One buffer changes, keeping its block if it is dirty. *)
Lemma dirty_change s s' i b0 b :
  bl s i = Some b0 → bl s' i = Some b → (∀ j, j ≠ i → bl s' j = bl s j) →
  flag B_DIRTY b = flag B_DIRTY b0 → (flag B_DIRTY b = true → ∀ m, has 1 m b = has 1 m b0) →
  dirty_idx s' = dirty_idx s ∧ ∀ m, dirty s' m ↔ dirty s m.
Proof.
  intros Hb0 Hb Ho Hd Hh. split.
  - apply dirty_idx_ext. intros j. destruct (decide (j = i)) as [->|]; [|by rewrite Ho].
    by rewrite Hb0, Hb.
  - intros m. split; intros (j & bj & Hj & Hbj & Hhj & Hdj); exists j;
      (destruct (decide (j = i)) as [->|Hne]; [|rewrite Ho in * by done; eauto]).
    + rewrite Hb in Hbj. injection Hbj as <-. exists b0. rewrite Hd in Hdj. rewrite Hh in Hhj by congruence. done.
    + rewrite Hb0 in Hbj. injection Hbj as <-. exists b. rewrite Hd, Hdj, Hh by congruence. done.
Qed.

Lemma quiet_available L H s n :
  quiet L H s → (∀ i b, i ∈ H → bl s i = Some b → has 1 n b = false) →
  (dirty s n ∨ (length H + length (dirty_idx s) < NBUF)%nat) → available s n.
Proof.
  intros Q Hfree Hlt. split.
  - intros i b Hi Hb Hh. destruct (flag B_BUSY b) eqn:E; [|done]. exfalso.
    assert (i ∈ H) as HiH by (apply (q_busy _ _ _ Q i (strip b)); [done|by apply lookup_bl|done]).
    pose proof (Hfree i (strip b) HiH (lookup_bl _ _ _ Hb)) as Hf.
    change (has 1 n (strip b)) with (has 1 n b) in Hf. congruence.
  - intros Hno. destruct Hlt as [(i & b & Hi & Hb & Hh & _)|Hlt]; [|by eapply quiet_spare].
    destruct (bl_Some _ _ _ Hb) as (b0 & Hb0 & <-). pose proof (Hno i b0 Hi Hb0) as Hf.
    change (has 1 n (strip b0)) with (has 1 n b0) in Hh. congruence.
Qed.

Lemma bread_q retries L H s n :
  quiet L H s → 0 ≤ n < Z.of_nat (length (disk s)) →
  (∀ i b, i ∈ H → bl s i = Some b → has 1 n b = false) →
  (dirty s n ∨ (length H + length (dirty_idx s) < NBUF)%nat) →
  ∃ i s' d t, bread retries 1 n s = Ok i s' ∧ reading L H s n i s' d t.
Proof.
  intros Q Hn Hfree Hlt. pose proof (quiet_available L H s n Q Hfree Hlt) as Hav.
  destruct (q_bio _ _ _ Q) as [l Hok]. destruct (q_L _ _ _ Q) as [HLb HLp].
  destruct (bread_ok retries L s l n Hok (q_k _ _ _ Q) HLb Hn Hav) as (i & s' & b & Hr & G & Hb & Hv & Hd).
  destruct G as [G1 G2 G3 (bf & Hbf & Hbusy0) (b' & G5 & G5b & G5h & _ & (b0 & Hb0 & Hd0 & Hh0) & Hcoh) G6 G7 G8 G9 G10].
  rewrite Hb in G5. injection G5 as <-. rewrite Hbf in Hb0. injection Hb0 as <-.
  assert (i ∉ H) as HiH.
  { intros Hin. apply (q_busy _ _ _ Q i (strip bf)) in Hin; [|done|by apply lookup_bl].
    change (flag B_BUSY (strip bf)) with (flag B_BUSY bf) in Hin. congruence. }
  assert (∀ j, j ≠ i → bl s' j = bl s j) as Ho by (intros j Hj; unfold bl; by rewrite G6).
  destruct (dirty_change s s' i (strip bf) (strip b)) as [Hidx Hdirty];
    [by apply lookup_bl|by apply lookup_bl|done|done| |].
  { intros Hdi m. change (has 1 m b = has 1 m bf). pose proof (Hh0 Hdi) as Hh0'.
    unfold has in *. rewrite !andb_true_iff, !Z.eqb_eq in G5h, Hh0'. destruct G5h as [-> ->], Hh0' as [-> ->]. done. }
  exists i, s', (b_data b), (flag B_DIRTY b). split; [done|]. split; try done.
  - split; [by exists l|done|done| | |].
    + intros j bj Hj Hbj. rewrite elem_of_cons. destruct (decide (j = i)) as [->|Hne].
      * rewrite (lookup_bl _ _ _ Hb) in Hbj. injection Hbj as <-. split; [by left|done].
      * rewrite Ho in Hbj by done. rewrite (q_busy _ _ _ Q j bj Hj Hbj). naive_solver.
    + destruct (q_H _ _ _ Q) as [HN HH]. split; [by apply NoDup_cons|]. intros j [->|Hj]%elem_of_cons; auto.
    + intros j bj Hj Hbj. destruct (decide (j = i)) as [->|Hne]; [|rewrite Ho in Hbj by done; by apply (q_dirty _ _ _ Q j)].
      rewrite (lookup_bl _ _ _ Hb) in Hbj. injection Hbj as <-. intros _. by apply (has_dev n).
  - split; [done|]. exists (strip b). split_and!; try done. by apply lookup_bl.
  - intros Hdi. rewrite <- G8. by apply Hcoh.
  - rewrite <- Hdirty. split.
    + intros Hdi. exists i, (strip b). split_and!; try done. by apply lookup_bl.
    + intros (j & bj & Hj & Hbj & Hhj & Hdj). destruct (bl_Some _ _ _ Hbj) as (bj0 & Hbj0 & <-).
      assert (j = i) as ->; [|rewrite Hb in Hbj0; by injection Hbj0 as <-].
      unfold has in *. rewrite andb_true_iff, !Z.eqb_eq in G5h, Hhj. simpl in Hhj.
      eapply (bo_unique _ _ G1 j i bj0 b); try done; [intuition congruence..|]. destruct Hhj as [-> _]. done.
Qed.

(** The state after an operation on buffer [i] that keeps it held. *)
Record kept L H s i s' : Prop := Kept {
  kp_quiet : quiet L H s';
  kp_others : ∀ j, j ≠ i → bl s' j = bl s j;
  kp_base : bbase s' = bbase s
}.

Lemma held_buf s i n d t :
  held s i n d t → ∃ b, bufs s !! i = Some b ∧ flag B_BUSY b = true ∧ flag B_VALID b = true ∧
    has 1 n b = true ∧ b_data b = d ∧ flag B_DIRTY b = t.
Proof.
  intros (Hi & b & Hb & H1). destruct (bl_Some _ _ _ Hb) as (b0 & Hb0 & <-). by exists b0.
Qed.

Lemma buf_held s i n b :
  (i < NBUF)%nat → bufs s !! i = Some b → flag B_BUSY b = true → flag B_VALID b = true →
  has 1 n b = true → held s i n (b_data b) (flag B_DIRTY b).
Proof. intros Hi Hb ???. split; [done|]. exists (strip b). split_and!; try done. by apply lookup_bl. Qed.

Lemma quiet_change L H s s' i b b' l :
  quiet L H s → bufs s !! i = Some b → bufs s' !! i = Some b' → flag B_BUSY b' = flag B_BUSY b →
  b_dev b' = 1 → (∀ j, j ≠ i → bl s' j = bl s j) → bio_ok s' l → bbase s' = bbase s → quiet L H s'.
Proof.
  intros [Q1 Q2 Q3 Q4 Q5 Q6] Hb Hb' Hbusy Hdev Ho Hok Hbase. split; [by exists l| |done| |done|].
  - change (k_ok L (bbase s')). rewrite Hbase. exact Q2.
  - intros j bj Hj Hbj. destruct (decide (j = i)) as [->|Hne]; [|rewrite Ho in Hbj by done; by apply Q4].
    rewrite (lookup_bl _ _ _ Hb') in Hbj. injection Hbj as <-. rewrite <- (Q4 i (strip b)); [|done|by apply lookup_bl].
    change (flag B_BUSY b' = true ↔ flag B_BUSY b = true). by rewrite Hbusy.
  - intros j bj Hj Hbj. destruct (decide (j = i)) as [->|Hne]; [|rewrite Ho in Hbj by done; by apply (Q6 j)].
    rewrite (lookup_bl _ _ _ Hb') in Hbj. by injection Hbj as <-.
Qed.

(** Writing through [b->data]. *)
Definition setdata (i : nat) (d : block) : K (bst B) unit := setb i (set_b_data d).

Lemma setdata_q L H s i n d t d' :
  quiet L H s → held s i n d t → length d' = BSIZE →
  ∃ s', setdata i d' s = Ok tt s' ∧ kept L H s i s' ∧ held s' i n d' t ∧
    disk s' = disk s ∧ writes s' = writes s ∧ dirty_idx s' = dirty_idx s ∧ (∀ m, dirty s' m ↔ dirty s m) ∧
    (∀ m, m ≠ n → lblk s' m = lblk s m).
Proof.
  intros Q Hh Hlen. destruct (held_buf _ _ _ _ _ Hh) as (b & Hb & Hbusy & Hv & Hn & Hd & Ht).
  destruct (q_bio _ _ _ Q) as [l Hok]. pose proof (proj1 Hh) as Hi.
  assert (bufs (bset i (set_b_data d') s) !! i = Some (set_b_data d' b)) as Hb' by by rewrite bset_lookup, decide_True, Hb.
  assert (∀ j, j ≠ i → bl (bset i (set_b_data d') s) j = bl s j) as Ho.
  { intros j Hj. unfold bl. by rewrite bset_lookup, decide_False. }
  assert (bio_ok (bset i (set_b_data d') s) l) as Hok' by by eapply bio_ok_busy.
  exists (bset i (set_b_data d') s). split_and!; try done.
  - unfold setdata. by apply setb_alter with b.
  - split; [|done|done]. eapply quiet_change with (l := l); try done. by apply (has_dev n).
  - rewrite <- Ht. by apply (buf_held _ i n (set_b_data d' b)).
  - by eapply dirty_change; [by apply lookup_bl|by apply lookup_bl|..].
  - by eapply dirty_change; [by apply lookup_bl|by apply lookup_bl|..].
  - intros m Hm. assert (has 1 m b = false) as Hm'.
    { destruct (has 1 m b) eqn:E; [|done]. exfalso. apply Hm. by eapply has_inj. }
    by apply (lblk_bset_other s l i b).
Qed.

(** [b->flags |= B_DIRTY]. *)
Definition setdirty (i : nat) : K (bst B) unit := setb i (λ b, set_b_flags (Z.lor (b_flags b) B_DIRTY) b).

Lemma length_dirty_idx s s' i :
  (∀ j, j ≠ i → bl s' j = bl s j) → (length (dirty_idx s') ≤ S (length (dirty_idx s)))%nat.
Proof.
  intros Ho. change (S (length (dirty_idx s))) with (length (i :: dirty_idx s)).
  apply submseteq_length, NoDup_submseteq; [apply NoDup_filter, NoDup_seq|].
  intros j (Hj & b & Hb & Hd)%elem_of_dirty_idx. destruct (decide (j = i)) as [->|Hne]; [left|right].
  apply elem_of_dirty_idx. rewrite <- Ho by done. eauto.
Qed.

Lemma setdirty_q L H s i n d t :
  quiet L H s → held s i n d t →
  ∃ s', setdirty i s = Ok tt s' ∧ kept L H s i s' ∧ held s' i n d true ∧
    disk s' = disk s ∧ writes s' = writes s ∧ (∀ m, dirty s' m ↔ dirty s m ∨ m = n) ∧
    (∀ m, lblk s' m = lblk s m) ∧
    (length (dirty_idx s') ≤ length (dirty_idx s) + (if t then 0 else 1))%nat.
Proof.
  intros Q Hh. destruct (held_buf _ _ _ _ _ Hh) as (b & Hb & Hbusy & Hv & Hn & Hd & Ht).
  destruct (q_bio _ _ _ Q) as [l Hok]. pose proof (proj1 Hh) as Hi.
  set (f := λ b, set_b_flags (Z.lor (b_flags b) B_DIRTY) b).
  destruct (flag_set_dirty b) as (D1 & D2 & D3).
  assert (bufs (bset i f s) !! i = Some (f b)) as Hb' by by rewrite bset_lookup, decide_True, Hb.
  assert (∀ j, j ≠ i → bl (bset i f s) j = bl s j) as Ho.
  { intros j Hj. unfold bl. by rewrite bset_lookup, decide_False. }
  assert (bio_ok (bset i f s) l) as Hok'.
  { eapply bio_ok_busy; try done; [by rewrite <- Hbusy|]. apply (bk_len _ _ (bo_buf _ _ Hok i b Hi Hb)). }
  exists (bset i f s). split_and!; try done.
  - by apply setb_alter with b.
  - split; [|done|done]. eapply quiet_change with (l := l); try done. by apply (has_dev n).
  - rewrite <- Hd, <- D1. apply (buf_held _ i n (f b)); try done; unfold f; congruence.
  - intros m. split.
    + intros (j & bj & Hj & Hbj & Hhj & Hdj). destruct (decide (j = i)) as [->|Hne].
      * right. rewrite (lookup_bl _ _ _ Hb') in Hbj. injection Hbj as <-. by eapply has_inj.
      * left. exists j, bj. rewrite Ho in Hbj by done. done.
    + intros [(j & bj & Hj & Hbj & Hhj & Hdj)| ->].
      * destruct (decide (j = i)) as [->|Hne]; [|exists j, bj; by rewrite Ho].
        exists i, (strip (f b)). split_and!; try done; [by apply lookup_bl|].
        rewrite (lookup_bl _ _ _ Hb) in Hbj. by injection Hbj as <-.
      * exists i, (strip (f b)). split_and!; try done. by apply lookup_bl.
  - intros m. apply (lblk_bset_same s l i b f m); try done.
  - destruct t; [|rewrite Nat.add_1_r; by apply (length_dirty_idx s (bset i f s) i)].
    destruct (dirty_change s (bset i f s) i (strip b) (strip (f b))) as [-> _];
      [by apply lookup_bl|by apply lookup_bl|done| |done|lia].
    etrans; [exact D1|]. by symmetry.
Qed.

Lemma bwrite_q L H s i n d t :
  quiet L H s → held s i n d t → 0 ≤ n < Z.of_nat (length (disk s)) →
  ∃ s', bwrite i s = Ok tt s' ∧ kept L H s i s' ∧ held s' i n d false ∧
    disk s' = <[Z.to_nat n := d]> (disk s) ∧ writes s' = writes s ++ [(n, d)] ∧
    (∀ m, dirty s' m ↔ dirty s m ∧ m ≠ n) ∧ (length (dirty_idx s') ≤ length (dirty_idx s))%nat ∧
    (∀ m, 0 ≤ m → lblk s' m = lblk s m).
Proof.
  intros Q Hh Hrange. destruct (held_buf _ _ _ _ _ Hh) as (b & Hb & Hbusy & Hv & Hn & Hd & Ht).
  destruct (q_bio _ _ _ Q) as [l Hok]. pose proof (proj1 Hh) as Hi.
  destruct (bwrite_ok s l i b n Hok Hi Hb Hbusy Hv Hn Hrange) as (f & Hrun & Hok' & F1 & F2 & F3 & F4 & F5 & Hl).
  set (s' := dset n (b_data b) (bset i f s)) in *.
  assert (bufs s' !! i = Some (f b)) as Hb' by (change (bufs (bset i f s) !! i = Some (f b)); by rewrite bset_lookup, decide_True, Hb).
  assert (∀ j, j ≠ i → bl s' j = bl s j) as Ho.
  { intros j Hj. unfold bl. change (bufs s') with (bufs (bset i f s)). by rewrite bset_lookup, decide_False. }
  assert (∀ j bj, bl s' j = Some bj → flag B_DIRTY bj = true → j ≠ i) as Hni.
  { intros j bj Hbj Hdj ->. rewrite (lookup_bl _ _ _ Hb') in Hbj. injection Hbj as <-.
    change (flag B_DIRTY (f b) = true) in Hdj. congruence. }
  exists s'. split_and!; try done.
  - split; [|done|done]. eapply quiet_change with (l := l); try done; [congruence|by apply (has_dev n)].
  - rewrite <- Hd, <- F1, <- F5. by apply (buf_held _ i n (f b)).
  - simpl. by rewrite Hd.
  - simpl. by rewrite Hd.
  - intros m. split.
    + intros (j & bj & Hj & Hbj & Hhj & Hdj). pose proof (Hni j bj Hbj Hdj) as Hne. rewrite Ho in Hbj by done.
      split; [by exists j, bj|]. intros ->. apply Hne. destruct (bl_Some _ _ _ Hbj) as (b0 & Hb0 & <-).
      assert (has 1 n b0 = true) as Hh0 by done.
      unfold has in Hn, Hh0. rewrite andb_true_iff, !Z.eqb_eq in Hn, Hh0.
      eapply (bo_unique _ _ Hok j i b0 b); try done; [intuition congruence..|]. destruct Hh0 as [-> _]. done.
    + intros [(j & bj & Hj & Hbj & Hhj & Hdj) Hne]. exists j, bj. rewrite Ho; [done|]. intros ->.
      rewrite (lookup_bl _ _ _ Hb) in Hbj. injection Hbj as <-. apply Hne. by eapply has_inj.
  - apply submseteq_length, NoDup_submseteq; [apply NoDup_filter, NoDup_seq|].
    intros j (Hj & bj & Hbj & Hdj)%elem_of_dirty_idx. pose proof (Hni j bj Hbj Hdj) as Hne.
    apply elem_of_dirty_idx. rewrite <- Ho by done. eauto.
Qed.

(** Giving the buffer back: it must be dirty or hold what the disk holds. *)
Lemma brelse_q L H1 H2 s i n d t :
  quiet L (H1 ++ i :: H2) s → held s i n d t → 0 ≤ n → (t = false → disk s !! Z.to_nat n = Some d) →
  ∃ s', brelse i s = Ok tt s' ∧ quiet L (H1 ++ H2) s' ∧ (∀ j, j ≠ i → bl s' j = bl s j) ∧
    disk s' = disk s ∧ writes s' = writes s ∧ k_keep (bbase s) (bbase s') ∧
    dirty_idx s' = dirty_idx s ∧ (∀ m, dirty s' m ↔ dirty s m) ∧ (∀ m, lblk s' m = lblk s m).
Proof.
  intros Q Hh Hn0 Hclean. destruct (held_buf _ _ _ _ _ Hh) as (b & Hb & Hbusy & Hv & Hn & Hd & Ht).
  destruct (q_bio _ _ _ Q) as [l Hok]. pose proof (proj1 Hh) as Hi. destruct (q_L _ _ _ Q) as [HLb HLp].
  assert (i ∈ l) as (l1 & l2 & ->)%list_elem_of_split by by apply (bo_elem _ _ i Hok).
  destruct (flag_clear_busy b) as (U1 & U2 & U3). fold (unbusy b) in U1, U2, U3.
  assert (buf_ok (disk s) (unbusy b)) as Hbk.
  { split; [apply (bk_len _ _ (bo_buf _ _ Hok i b Hi Hb))| |congruence].
    intros _ Hdi _. rewrite U3 in Hdi. unfold has in Hn. rewrite andb_true_iff, !Z.eqb_eq in Hn.
    destruct Hn as [Hn1 Hn2]. simpl. rewrite Hn1, Hn2, Hd. split_and!; [done|done|]. apply Hclean. congruence. }
  destruct (brelse_ok L s l1 i l2 b Hok (q_k _ _ _ Q) HLb HLp Hb Hbusy Hbk)
    as (s' & Hrun & Hok' & Hk' & Hs & Hdk & Hw & Hkeep & Hl).
  assert (∀ j, bl s' j = if decide (j = i) then Some (strip (unbusy b)) else bl s j) as Hbl.
  { intros j. unfold bl. rewrite <- list_lookup_fmap, Hs, list_lookup_fmap.
    case_decide; [subst; by rewrite list_lookup_alter_eq, Hb|by rewrite list_lookup_alter_ne]. }
  destruct (dirty_change s s' i (strip b) (strip (unbusy b))) as [Hidx Hdirty];
    [by apply lookup_bl|by rewrite Hbl, decide_True|intros j Hj; by rewrite Hbl, decide_False|done|done|].
  exists s'. split_and!; try done; [|intros j Hj; by rewrite Hbl, decide_False].
  destruct (q_H _ _ _ Q) as [HN HH]. rewrite <- Permutation_middle in HN. apply NoDup_cons in HN as [Hni HN].
  split; [by eexists|done|done| |split; [done|]|].
  - intros j bj Hj Hbj. rewrite Hbl in Hbj. case_decide as Hji.
    + subst. injection Hbj as <-. change (flag B_BUSY (strip (unbusy b))) with (flag B_BUSY (unbusy b)). rewrite U1. naive_solver.
    + rewrite (q_busy _ _ _ Q j bj Hj Hbj), <- Permutation_middle, elem_of_cons. naive_solver.
  - intros j Hj. apply HH. rewrite <- Permutation_middle. by right.
  - intros j bj Hj Hbj. rewrite Hbl in Hbj. case_decide as Hji; [|by apply (q_dirty _ _ _ Q j)].
    injection Hbj as <-. intros _. by apply (has_dev n).
Qed.
End ops.
