(* ===== verification/DiskFmt.v ===== *)
(** * Integers and structures inside disk blocks (fs.h, and the casts of
    [bp->data] in log.c and fs.c)

    A block is the list of its bytes.  [get32]/[put32] and [get16]/[put16] read
    and write a little-endian integer at a byte offset, [None] past the end of
    the block. *)
From S2P Require Import Prelude Str.

(** ** Little-endian integers *)

Fixpoint le (bs : list Z) : Z :=
  match bs with
  | [] => 0
  | b :: bs' => b + 256 * le bs'
  end.

Fixpoint le_bytes (n : nat) (w : Z) : list Z :=
  match n with
  | O => []
  | S n' => u8 w :: le_bytes n' (w / 256)
  end.

(** [d] with the bytes from offset [off] on replaced by [bs]. *)
Definition splice (d : list Z) (off : nat) (bs : list Z) : list Z :=
  take off d ++ bs ++ drop (off + length bs) d.

Definition slice (d : list Z) (off n : nat) : list Z := take n (drop off d).

Definition getn (n : nat) (d : list Z) (off : nat) : option Z :=
  if (off + n <=? length d)%nat then Some (le (slice d off n)) else None.
Definition putn (n : nat) (d : list Z) (off : nat) (w : Z) : option (list Z) :=
  if (off + n <=? length d)%nat then Some (splice d off (le_bytes n w)) else None.

Definition get32 : list Z → nat → option Z := getn 4.
Definition put32 : list Z → nat → Z → option (list Z) := putn 4.
Definition get16 : list Z → nat → option Z := getn 2.
Definition put16 : list Z → nat → Z → option (list Z) := putn 2.

(** ** Lemmas *)

Definition byte (b : Z) : Prop := 0 ≤ b < 256.

Lemma u8_byte z : byte (u8 z).
Proof. unfold byte, u8. pose proof (Z.mod_pos_bound z (2 ^ 8)). lia. Qed.

Lemma length_le_bytes n w : length (le_bytes n w) = n.
Proof. revert w. induction n as [|n IH]; intros w; simpl; [done|]. by rewrite IH. Qed.

Lemma le_bytes_byte n w : Forall byte (le_bytes n w).
Proof. revert w. induction n as [|n IH]; intros w; simpl; [done|]. constructor; [apply u8_byte|apply IH]. Qed.

Lemma le_le_bytes n w : le (le_bytes n w) = w `mod` 256 ^ Z.of_nat n.
Proof.
  revert w. induction n as [|n IH]; intros w; [simpl; by rewrite Z.mod_1_r|].
  cbn [le_bytes le]. rewrite IH. rewrite Nat2Z.inj_succ, Z.pow_succ_r by lia.
  rewrite Z.rem_mul_r by lia. unfold u8. done.
Qed.

Lemma le_range bs : Forall byte bs → 0 ≤ le bs < 256 ^ Z.of_nat (length bs).
Proof.
  induction 1 as [|b bs Hb Hbs IH]; [simpl; lia|]. cbn [le length].
  rewrite Nat2Z.inj_succ, Z.pow_succ_r by lia. unfold byte in Hb. lia.
Qed.

Lemma le_bytes_le bs : Forall byte bs → le_bytes (length bs) (le bs) = bs.
Proof.
  induction 1 as [|b bs Hb Hbs IH]; [done|]. cbn [le length le_bytes]. unfold byte in Hb.
  f_equal.
  - unfold u8. change (2 ^ 8) with 256. rewrite Z.mul_comm, Z.mod_add by lia. apply Z.mod_small. lia.
  - replace ((b + 256 * le bs) / 256) with (le bs); [done|].
    rewrite Z.add_comm, Z.mul_comm, Z.div_add_l by lia. rewrite (Z.div_small b 256) by lia. lia.
Qed.

Lemma length_splice d off bs : (off + length bs ≤ length d)%nat → length (splice d off bs) = length d.
Proof. intros H. unfold splice. rewrite !length_app, length_take, length_drop. lia. Qed.

Lemma lookup_splice d off bs i :
  (off + length bs ≤ length d)%nat →
  splice d off bs !! i = if decide (off ≤ i < off + length bs)%nat then bs !! (i - off)%nat else d !! i.
Proof.
  intros H. unfold splice. destruct (decide (i < off)%nat).
  - rewrite decide_False by lia. rewrite lookup_app_l by (rewrite length_take; lia). by rewrite lookup_take_lt.
  - rewrite lookup_app_r by (rewrite length_take; lia). rewrite length_take_le by lia.
    case_decide.
    + by rewrite lookup_app_l by lia.
    + rewrite lookup_app_r by lia. rewrite lookup_drop. f_equal. lia.
Qed.

Lemma splice_byte d off bs : Forall byte d → Forall byte bs → Forall byte (splice d off bs).
Proof. intros Hd Hbs. apply Forall_app; split; [by apply Forall_take|]. apply Forall_app; split; [done|by apply Forall_drop]. Qed.

Lemma lookup_slice d off n i : slice d off n !! i = if decide (i < n)%nat then d !! (off + i)%nat else None.
Proof.
  unfold slice. case_decide; [by rewrite lookup_take_lt, lookup_drop|]. rewrite lookup_take_ge; [done|lia].
Qed.

Lemma length_slice d off n : (off + n ≤ length d)%nat → length (slice d off n) = n.
Proof. intros H. unfold slice. rewrite length_take, length_drop. lia. Qed.

Lemma slice_byte d off n : Forall byte d → Forall byte (slice d off n).
Proof. intros H. by apply Forall_take, Forall_drop. Qed.

Lemma slice_splice d off bs :
  (off + length bs ≤ length d)%nat → slice (splice d off bs) off (length bs) = bs.
Proof.
  intros H. apply list_eq. intros i. rewrite lookup_slice, lookup_splice by done. case_decide.
  - rewrite decide_True by lia. f_equal. lia.
  - symmetry. apply lookup_ge_None. lia.
Qed.

Lemma slice_splice_ne d off bs off' n :
  (off + length bs ≤ length d)%nat → (off' + n ≤ off ∨ off + length bs ≤ off')%nat →
  slice (splice d off bs) off' n = slice d off' n.
Proof.
  intros H Hd. apply list_eq. intros i. rewrite !lookup_slice. case_decide; [|done].
  rewrite lookup_splice by done. by rewrite decide_False by lia.
Qed.

(** What was written is read back; other offsets are not touched. *)
Lemma getn_putn n d d' off w :
  putn n d off w = Some d' → getn n d' off = Some (w `mod` 256 ^ Z.of_nat n) ∧ length d' = length d.
Proof.
  unfold putn, getn. destruct (Nat.leb_spec (off + n) (length d)); [|done]. intros [= <-].
  rewrite length_splice by (rewrite length_le_bytes; lia). rewrite (proj2 (Nat.leb_le _ _)) by done.
  split; [|done]. rewrite <- (length_le_bytes n w) at 2. rewrite slice_splice by (rewrite length_le_bytes; lia).
  by rewrite le_le_bytes.
Qed.

Lemma getn_putn_ne n m d d' off off' w :
  putn n d off w = Some d' → (off' + m ≤ off ∨ off + n ≤ off')%nat → getn m d' off' = getn m d off'.
Proof.
  unfold putn, getn. destruct (Nat.leb_spec (off + n) (length d)); [|done]. intros [= <-] Hne.
  rewrite length_splice by (rewrite length_le_bytes; lia).
  rewrite slice_splice_ne by (rewrite length_le_bytes; lia). done.
Qed.

Lemma putn_Some n d off w : (off + n ≤ length d)%nat → ∃ d', putn n d off w = Some d'.
Proof. intros H. unfold putn. rewrite (proj2 (Nat.leb_le _ _)) by done. eauto. Qed.

Lemma putn_byte n d off w d' : putn n d off w = Some d' → Forall byte d → Forall byte d'.
Proof.
  unfold putn. destruct (Nat.leb_spec (off + n) (length d)); [|done]. intros [= <-] Hd.
  apply splice_byte; [done|]. apply le_bytes_byte.
Qed.

Lemma getn_Some n d off : (off + n ≤ length d)%nat → ∃ w, getn n d off = Some w.
Proof. intros H. unfold getn. rewrite (proj2 (Nat.leb_le _ _)) by done. eauto. Qed.

Lemma getn_range n d off w : Forall byte d → getn n d off = Some w → 0 ≤ w < 256 ^ Z.of_nat n.
Proof.
  unfold getn. intros Hd. destruct (Nat.leb_spec (off + n) (length d)); [|done]. intros [= <-].
  pose proof (le_range _ (slice_byte d off n Hd)) as Hr. by rewrite length_slice in Hr.
Qed.

(** Filling a block from its start, one integer after the other. *)
Lemma splice_nil d off : splice d off [] = d.
Proof. unfold splice. simpl. rewrite Nat.add_0_r. apply take_drop. Qed.

Lemma splice_snoc d xs ys :
  (length xs + length ys ≤ length d)%nat →
  splice (splice d 0 xs) (length xs) ys = splice d 0 (xs ++ ys).
Proof.
  intros H. apply list_eq. intros i.
  rewrite !lookup_splice; rewrite ?length_splice, ?length_app by lia; try lia.
  case_decide as H1; [rewrite decide_True by lia|].
  - rewrite Nat.sub_0_r, lookup_app_r by lia. done.
  - case_decide; [rewrite decide_True by lia; by rewrite lookup_app_l by lia|].
    by rewrite decide_False by lia.
Qed.

Lemma putn_snoc n d xs w :
  (length xs + n ≤ length d)%nat →
  putn n (splice d 0 xs) (length xs) w = Some (splice d 0 (xs ++ le_bytes n w)).
Proof.
  intros H. unfold putn. rewrite length_splice by lia. rewrite (proj2 (Nat.leb_le _ _)) by lia.
  by rewrite splice_snoc by (rewrite length_le_bytes; lia).
Qed.

Lemma slice_splice_in d xs off n :
  (length xs ≤ length d)%nat → (off + n ≤ length xs)%nat → slice (splice d 0 xs) off n = slice xs off n.
Proof.
  intros H Hn. apply list_eq. intros i. rewrite !lookup_slice. case_decide; [|done].
  rewrite lookup_splice by lia. rewrite decide_True by lia. f_equal. lia.
Qed.

Lemma slice_app_in xs ys zs : slice (xs ++ ys ++ zs) (length xs) (length ys) = ys.
Proof. unfold slice. by rewrite drop_app_length, take_app_length. Qed.

Lemma length_concat_bytes n ws : length (concat (le_bytes n <$> ws)) = (n * length ws)%nat.
Proof. induction ws as [|w ws IH]; [simpl; lia|]. rewrite fmap_cons. cbn [concat length]. rewrite length_app, IH, length_le_bytes. lia. Qed.

(** The [i]th integer of an array of them. *)
Lemma getn_array n d pre ws i w :
  (length pre + n * length ws ≤ length d)%nat → ws !! i = Some w →
  getn n (splice d 0 (pre ++ concat (le_bytes n <$> ws))) (length pre + n * i) =
    Some (w `mod` 256 ^ Z.of_nat n).
Proof.
  intros H Hw. pose proof (lookup_lt_Some _ _ _ Hw) as Hi. apply list_elem_of_split_length in Hw as (l1 & l2 & -> & ->).
  rewrite length_app in *. simpl in *. unfold getn.
  assert (length (pre ++ concat (le_bytes n <$> l1 ++ w :: l2)) = length pre + n * (length l1 + S (length l2)))%nat as Hl
    by (rewrite length_app, length_concat_bytes, length_app; simpl; lia).
  rewrite length_splice by lia. rewrite (proj2 (Nat.leb_le _ _)) by lia.
  rewrite slice_splice_in by lia. rewrite fmap_app, fmap_cons, concat_app, app_assoc. cbn [concat].
  replace (length pre + n * length l1)%nat with (length (pre ++ concat (le_bytes n <$> l1)))
    by (rewrite length_app, length_concat_bytes; lia).
  pose proof (slice_app_in (pre ++ concat (le_bytes n <$> l1)) (le_bytes n w) (concat (le_bytes n <$> l2))) as Hs.
  rewrite length_le_bytes in Hs. by rewrite Hs, le_le_bytes.
Qed.
