(* ===== verification/Log.v ===== *)
(** * The log (log.c)

    [lst B]: the buffer cache and disk, and [struct log].  The functions are the
    code's; [retries] bounds how often a thread is woken in [bread] and in
    [begin_op] without getting what it waits for (see Bio.v). *)
From S2P Require Import Prelude Spinlock Str Ptable PtableLists Sched Services BioRing Bio DiskFmt.

(** ** Data *)

(** [struct superblock] of fs.h. *)
Record superblock := Superblock {
  sb_size : Z;
  sb_nblocks : Z;
  sb_ninodes : Z;
  sb_nlog : Z;
  sb_logstart : Z;
  sb_inodestart : Z;
  sb_bmapstart : Z
}.

(** The bytes of a superblock, read as the structure. *)
Definition superblock_of (d : block) : option superblock :=
  size ← get32 d 0;
  nblocks ← get32 d 4;
  ninodes ← get32 d 8;
  nlog ← get32 d 12;
  logstart ← get32 d 16;
  inodestart ← get32 d 20;
  bmapstart ← get32 d 24;
  Some (Superblock size nblocks ninodes nlog logstart inodestart bmapstart).

(** [struct log], with the header [lh] inline. *)
Record lst (B : Type) := Lst {
  lbase : bst B;
  log_start : Z;
  log_size : Z;
  log_outstanding : Z;
  log_committing : Z;
  log_dev : Z;
  lh_n : Z;
  lh_block : list Z
}.
Arguments Lst {B}.
Arguments lbase {B}.
Arguments log_start {B}.
Arguments log_size {B}.
Arguments log_outstanding {B}.
Arguments log_committing {B}.
Arguments log_dev {B}.
Arguments lh_n {B}.
Arguments lh_block {B}.

Section setters.
Context {B : Type}.
Implicit Types s : lst B.
Definition set_lbase (b : bst B) s := Lst b (log_start s) (log_size s) (log_outstanding s) (log_committing s) (log_dev s) (lh_n s) (lh_block s).
Definition set_log_start x s := Lst (lbase s) x (log_size s) (log_outstanding s) (log_committing s) (log_dev s) (lh_n s) (lh_block s).
Definition set_log_size x s := Lst (lbase s) (log_start s) x (log_outstanding s) (log_committing s) (log_dev s) (lh_n s) (lh_block s).
Definition set_log_outstanding x s := Lst (lbase s) (log_start s) (log_size s) x (log_committing s) (log_dev s) (lh_n s) (lh_block s).
Definition set_log_committing x s := Lst (lbase s) (log_start s) (log_size s) (log_outstanding s) x (log_dev s) (lh_n s) (lh_block s).
Definition set_log_dev x s := Lst (lbase s) (log_start s) (log_size s) (log_outstanding s) (log_committing s) x (lh_n s) (lh_block s).
Definition set_lh_n x s := Lst (lbase s) (log_start s) (log_size s) (log_outstanding s) (log_committing s) (log_dev s) x (lh_block s).
Definition set_lh_block x s := Lst (lbase s) (log_start s) (log_size s) (log_outstanding s) (log_committing s) (log_dev s) (lh_n s) x.
End setters.

#[global] Instance lst_base B : Lens (lst B) (bst B) := {| view := lbase; put := set_lbase |}.
#[global] Instance lst_base_ok B : LensOk (lst B) (bst B).
Proof. by split; intros; try destruct s. Qed.
#[global] Instance lst_ops B {O : KOps B} : KOps (lst B) := wrap_ops.
#[global] Instance lst_laws B {O : KOps B} {W : KLaws B} : KLaws (lst B) := wrap_laws.

(** [for(i = 0; i < bound; i++) body], the bound being read in every iteration. *)
Definition for_below {S} (fuel : nat) (bound : S → Z) (body : Z → K S unit) : K S unit :=
  while fuel (λ i, n ← gets bound;
    if i <? n then body i;; mret (inl (i + 1)) else mret (inr i)) 0;;
  mret tt.

(** [lh.block] has [LOGSIZE] elements: an index outside faults. *)
Definition get_lh_block {B} (i : Z) : K (lst B) Z :=
  l ← gets lh_block; if i <? 0 then fault else deref (l !! Z.to_nat i).
Definition put_lh_block {B} (i v : Z) : K (lst B) unit :=
  l ← gets lh_block;
  if (0 <=? i) && (i <? Z.of_nat (length l)) then modify (set_lh_block (<[Z.to_nat i := v]> l)) else fault.

(** A loop below [lh.n] has left the array after [LOGSIZE] iterations. *)
Definition log_fuel : nat := 32.

(** Running the cache below the log. *)
Definition inb {B A} (m : K (bst B) A) : K (lst B) A := lift m.

Section log.
Context {B : Type} {O : KOps B}.

(** [memmove(to->data, from->data, BSIZE)] *)
Definition copy_data (to from : nat) : K (bst B) unit :=
  x ← getb from; setb to (set_b_data (b_data x)).

Definition readsb (retries : nat) (dev : Z) : K (bst B) superblock :=
  bp ← bread retries dev 1;
  x ← getb bp;
  sb ← deref (superblock_of (b_data x));
  brelse bp;;
  mret sb.

(** The body of the loop of [install_trans]. *)
Definition install_step (retries : nat) (tail : Z) : K (lst B) unit :=
  s ← get;
  lbuf ← inb (bread retries (u32 (log_dev s)) (u32 (log_start s + tail + 1)));
  n ← get_lh_block tail;
  dbuf ← inb (bread retries (u32 (log_dev s)) (u32 n));
  inb (copy_data dbuf lbuf);;
  inb (bwrite dbuf);;
  inb (brelse lbuf);;
  inb (brelse dbuf).

Definition install_trans (retries : nat) : K (lst B) unit :=
  for_below log_fuel lh_n (install_step retries).

Definition read_head (retries : nat) : K (lst B) unit :=
  s ← get;
  buf ← inb (bread retries (u32 (log_dev s)) (u32 (log_start s)));
  x ← inb (getb buf);
  n ← deref (get32 (b_data x) 0);
  modify (set_lh_n (i32 n));;
  for_below log_fuel lh_n (λ i,
    x ← inb (getb buf);
    w ← deref (get32 (b_data x) (Z.to_nat (4 + 4 * i)));
    put_lh_block i (i32 w));;
  inb (brelse buf).

(** [hb->field = w] for the header [hb] in the data of [buf]. *)
Definition put_head (buf : nat) (off w : Z) : K (bst B) unit :=
  x ← getb buf;
  d ← deref (put32 (b_data x) (Z.to_nat off) w);
  setb buf (set_b_data d).

Definition write_head (retries : nat) : K (lst B) unit :=
  s ← get;
  buf ← inb (bread retries (u32 (log_dev s)) (u32 (log_start s)));
  n ← gets lh_n;
  inb (put_head buf 0 n);;
  for_below log_fuel lh_n (λ i,
    n ← get_lh_block i;
    inb (put_head buf (4 + 4 * i) n));;
  inb (bwrite buf);;
  inb (brelse buf).

Definition recover_from_log (retries : nat) : K (lst B) unit :=
  read_head retries;;
  install_trans retries;;
  modify (set_lh_n 0);;
  write_head retries.

Definition initlog (retries : nat) (dev : Z) : K (lst B) unit :=
  panic_if (4 + 4 * LOGSIZE >=? Z.of_nat BSIZE) "initlog: too big logheader";;
  k_initlock Llog "log";;
  sb ← inb (readsb retries (u32 dev));
  modify (set_log_start (i32 (sb_logstart sb)));;
  modify (set_log_size (i32 (sb_nlog sb)));;
  modify (set_log_dev dev);;
  recover_from_log retries.

(** The body of the [while(1)] of [begin_op]: [inl] goes round again. *)
Definition begin_try (_ : nat) : K (lst B) (nat + nat) :=
  s ← get;
  if negb (log_committing s =? 0) then k_sleep ChLog Llog;; mret (inl 0%nat)
  else if lh_n s + (log_outstanding s + 1) * MAXOPBLOCKS >? LOGSIZE then
    k_sleep ChLog Llog;; mret (inl 0%nat)
  else
    modify (set_log_outstanding (log_outstanding s + 1));;
    k_release Llog;;
    mret (inr 0%nat).

Definition begin_op (retries : nat) : K (lst B) unit :=
  k_acquire Llog;;
  while (S retries) begin_try 0%nat;;
  mret tt.

(** The body of the loop of [write_log]. *)
Definition write_log_step (retries : nat) (tail : Z) : K (lst B) unit :=
  s ← get;
  to ← inb (bread retries (u32 (log_dev s)) (u32 (log_start s + tail + 1)));
  n ← get_lh_block tail;
  from ← inb (bread retries (u32 (log_dev s)) (u32 n));
  inb (copy_data to from);;
  inb (bwrite to);;
  inb (brelse from);;
  inb (brelse to).

Definition write_log (retries : nat) : K (lst B) unit :=
  for_below log_fuel lh_n (write_log_step retries).

Definition commit (retries : nat) : K (lst B) unit :=
  n ← gets lh_n;
  if n >? 0 then
    write_log retries;;
    write_head retries;;
    install_trans retries;;
    modify (set_lh_n 0);;
    write_head retries
  else mret tt.

Definition end_op (retries : nat) : K (lst B) unit :=
  k_acquire Llog;;
  modify (λ s, set_log_outstanding (log_outstanding s - 1) s);;
  c ← gets log_committing;
  panic_if (negb (c =? 0)) "log.committing";;
  o ← gets log_outstanding;
  (if o =? 0 then modify (set_log_committing 1) else k_wakeup ChLog);;
  k_release Llog;;
  if o =? 0 then
    commit retries;;
    k_acquire Llog;;
    modify (set_log_committing 0);;
    k_wakeup ChLog;;
    k_release Llog
  else mret tt.

(** The first [i < lh.n] with [lh.block[i] == blockno], or [lh.n]. *)
Definition find_logged (blockno : Z) : K (lst B) Z :=
  while log_fuel (λ i, n ← gets lh_n;
    if i <? n then
      w ← get_lh_block i;
      if u32 w =? blockno then mret (inr i) else mret (inl (i + 1))
    else mret (inr i)) 0.

Definition log_write (b : nat) : K (lst B) unit :=
  s ← get;
  panic_if ((lh_n s >=? LOGSIZE) || (lh_n s >=? log_size s - 1)) "too big a transaction";;
  panic_if (log_outstanding s <? 1) "log_write outside of trans";;
  k_acquire Llog;;
  x ← inb (getb b);
  i ← find_logged (b_blockno x);
  put_lh_block i (i32 (b_blockno x));;
  n ← gets lh_n;
  (if i =? n then modify (set_lh_n (n + 1)) else mret tt);;
  inb (setb b (λ x, set_b_flags (Z.lor (b_flags x) B_DIRTY) x));;
  k_release Llog.
End log.
