(* ===== verification/LogFacts.v ===== *)
(** * Running the log code

    The commit path and recovery as sequences of disk writes: [copied] is the
    effect of moving one block to another through the cache, [write_log],
    [install_trans] and [write_head] are computed from it. *)
From S2P Require Import Prelude Spinlock Str Ptable PtableLists Sched Services BioRing Bio BioFacts BufSpec DiskFmt Log.

(** ** One block moved through the cache *)

Section move.
Context {B : Type} {O : KOps B} {W : KLaws B}.
Implicit Types (s : bst B) (L : gset lockid) (v : block).

Lemma quiet_perm L H H' s : H ≡ₚ H' → quiet L H s → quiet L H' s.
Proof.
  intros Hp [Q1 Q2 Q3 Q4 [Q5 Q6] Q7]. split; [done|done|done| |split|done].
  - intros i b Hi Hb. by rewrite <- Hp, Q4.
  - by rewrite <- Hp.
  - intros i. rewrite <- Hp. apply Q6.
Qed.

Lemma held_ext s s' i n d t : bl s' i = bl s i → held s i n d t → held s' i n d t.
Proof. intros He (Hi & b & Hb & H). split; [done|]. exists b. by rewrite He. Qed.

(** The state after block [dst] has been written with [v]. *)
Record copied L s s' (dst : Z) v : Prop := Copied {
  cp_quiet : quiet L [] s';
  cp_disk : disk s' = <[Z.to_nat dst := v]> (disk s);
  cp_writes : writes s' = writes s ++ [(dst, v)];
  cp_lblk : ∀ m, 0 ≤ m → lblk s' m = if decide (m = dst) then Some v else lblk s m;
  cp_dirty : ∀ m, dirty s' m ↔ dirty s m ∧ m ≠ dst;
  cp_idx : (length (dirty_idx s') ≤ length (dirty_idx s))%nat;
  cp_keep : k_keep (bbase s) (bbase s')
}.

Lemma held_length L H s i n d t : quiet L H s → held s i n d t → length d = BSIZE.
Proof.
  intros Q Hh. destruct (held_buf _ _ _ _ _ Hh) as (b & Hb & _ & _ & _ & <- & _).
  destruct (q_bio _ _ _ Q) as [l Hok]. apply (bk_len _ _ (bo_buf _ _ Hok i b (proj1 Hh) Hb)).
Qed.

Lemma held_get s i n d t : held s i n d t → ∃ b, getb i s = Ok b s ∧ b_data b = d ∧ b_blockno b = n.
Proof.
  intros Hh. destruct (held_buf _ _ _ _ _ Hh) as (b & Hb & _ & _ & Hn & Hd & _).
  exists b. split_and!; [by apply getb_ok|done|]. unfold has in Hn. rewrite andb_true_iff, !Z.eqb_eq in Hn. tauto.
Qed.

Lemma held_ne s i j n m d d' t t' : held s i n d t → held s j m d' t' → n ≠ m → i ≠ j.
Proof.
  intros (_ & b & Hb & _ & _ & Hn & _) (_ & b' & Hb' & _ & _ & Hm & _) Hne ->. rewrite Hb in Hb'.
  injection Hb' as <-. apply Hne. by eapply has_inj.
Qed.

Lemma copy_tail_q L s i j src dst v w t t' :
  quiet L [i; j] s → held s i src v t → held s j dst w t' → src ≠ dst →
  0 ≤ src → 0 ≤ dst < Z.of_nat (length (disk s)) → (t = false → disk s !! Z.to_nat src = Some v) →
  ∃ s', (copy_data j i;; bwrite j;; brelse i;; brelse j) s = Ok tt s' ∧ copied L s s' dst v.
Proof.
  intros Q Hi Hj Hne Hs0 Hdst Hclean. pose proof (held_ne _ _ _ _ _ _ _ _ _ Hi Hj Hne) as Hij.
  destruct (held_get _ _ _ _ _ Hi) as (b & Hget & Hd & _).
  destruct (setdata_q L [i; j] s j dst w t' v Q Hj (held_length _ _ _ _ _ _ _ Q Hi))
    as (s1 & R1 & [Q1 O1 B1] & Hj1 & D1 & W1 & X1 & Y1 & L1).
  assert (held s1 i src v t) as Hi1 by (eapply held_ext; [by apply O1|done]).
  destruct (bwrite_q L [i; j] s1 j dst v t' Q1 Hj1) as (s2 & R2 & [Q2 O2 B2] & Hj2 & D2 & W2 & Y2 & X2 & L2);
    [by rewrite D1|].
  assert (held s2 i src v t) as Hi2 by (eapply held_ext; [by apply O2|done]).
  destruct (brelse_q L [] [j] s2 i src v t Q2 Hi2 Hs0) as (s3 & R3 & Q3 & O3 & D3 & W3 & K3 & X3 & Y3 & L3).
  { intros Ht. rewrite D2, D1, list_lookup_insert_ne by lia. by apply Hclean. }
  assert (held s3 j dst v false) as Hj3 by (eapply held_ext; [by apply O3|done]).
  destruct (brelse_q L [] [] s3 j dst v false Q3 Hj3) as (s4 & R4 & Q4 & O4 & D4 & W4 & K4 & X4 & Y4 & L4); [lia| |].
  { intros _. rewrite D3, D2, D1. apply list_lookup_insert_eq. lia. }
  exists s4. split.
  { unfold copy_data. rewrite (bind_ok (x ← getb i; _) _ s tt s1) by (rewrite (bind_ok _ _ _ _ _ Hget), Hd; exact R1).
    by rewrite (bind_ok _ _ _ _ _ R2), (bind_ok _ _ _ _ _ R3). }
  split; [done|congruence|congruence| | |congruence|].
  - intros m Hm. rewrite L4, L3, L2 by done. case_decide as Hmd.
    + subst. destruct (q_bio _ _ _ Q1) as [l Hok]. by eapply held_lblk.
    + by apply L1.
  - intros m. by rewrite Y4, Y3, Y2, Y1.
  - rewrite <- B1, <- B2. by etrans.
Qed.

(** There is a buffer for block [n] while [k] are busy. *)
Definition room s (k : nat) (n : Z) : Prop := dirty s n ∨ (k + length (dirty_idx s) < NBUF)%nat.

Lemma bread_first retries L s n :
  quiet L [] s → 0 ≤ n < Z.of_nat (length (disk s)) → room s 0 n →
  ∃ i s' d t, bread retries 1 n s = Ok i s' ∧ reading L [] s n i s' d t.
Proof. intros Q Hn Hr. apply bread_q; [done|done|set_solver|done]. Qed.

Lemma bread_second retries L s s1 i n m d t :
  reading L [] s n i s1 d t → n ≠ m → 0 ≤ m < Z.of_nat (length (disk s)) → room s 1 m →
  ∃ j s2 d' t', bread retries 1 m s1 = Ok j s2 ∧ reading L [i] s1 m j s2 d' t' ∧
    held s2 i n d t ∧ i ≠ j.
Proof.
  intros R Hne Hm Hr. destruct R as [rq0 rn0 rh0 rc0 rco0 ro0 rl0 rdk0 rw0 rk0 rx0 ry0 rt0]. destruct (bread_q retries L [i] s1 m) as (j & s2 & d' & t' & Hrun & R2); [done|by rewrite rdk0| | |].
  - intros k b ->%list_elem_of_singleton Hb. destruct rh0 as (_ & b' & Hb' & _ & _ & Hn & _).
    rewrite Hb in Hb'. injection Hb' as <-. destruct (has 1 m b) eqn:E; [|done]. exfalso. apply Hne. by eapply has_inj.
  - unfold room in Hr. rewrite rx0. destruct Hr; [left; by apply ry0|by right].
  - exists j, s2, d', t'. split_and!; [done|done| |].
    + eapply held_ext; [|done]. apply R2. intros ->. by eapply rd_new, list_elem_of_singleton.
    + intros ->. by eapply rd_new, list_elem_of_singleton.
Qed.

(** The two loop bodies: reading source first, or destination first. *)
Lemma copied_after L s s2 s' dst v :
  (disk s2 = disk s) → writes s2 = writes s → (∀ m, 0 ≤ m → lblk s2 m = lblk s m) →
  (∀ m, dirty s2 m ↔ dirty s m) → dirty_idx s2 = dirty_idx s → k_keep (bbase s) (bbase s2) →
  copied L s2 s' dst v → copied L s s' dst v.
Proof.
  intros HD HW HL HY HX HK [C1 C2 C3 C4 C5 C6 C7]. split; [done|congruence|congruence| | |congruence|by etrans].
  - intros m Hm. by rewrite C4, HL.
  - intros m. by rewrite C5, HY.
Qed.

Lemma install_block_q retries L s src dst v :
  quiet L [] s → lblk s src = Some v → src ≠ dst →
  0 ≤ src < Z.of_nat (length (disk s)) → 0 ≤ dst < Z.of_nat (length (disk s)) →
  room s 0 src → room s 1 dst →
  ∃ i s1 j s2 s', bread retries 1 src s = Ok i s1 ∧ bread retries 1 dst s1 = Ok j s2 ∧
    (copy_data j i;; bwrite j;; brelse i;; brelse j) s2 = Ok tt s' ∧ copied L s s' dst v.
Proof.
  intros Q Hv Hne Hs Hd Hr1 Hr2.
  destruct (bread_first retries L s src Q Hs Hr1) as (i & s1 & d & t & R1 & G1).
  destruct (bread_second retries L s s1 i src dst d t G1 Hne Hd Hr2) as (j & s2 & d' & t' & R2 & G2 & Hi & Hij).
  destruct G1 as [rq0 rn0 rh0 rc0 rco0 ro0 rl0 rdk0 rw0 rk0 rx0 ry0 rt0], G2 as [rq1 rn1 rh1 rc1 rco1 ro1 rl1 rdk1 rw1 rk1 rx1 ry1 rt1]. rewrite Hv in rc0. injection rc0 as <-.
  destruct (copy_tail_q L s2 i j src dst v d' t t') as (s' & R & C); try done; [|lia| | |].
  - eapply quiet_perm; [|done]. apply Permutation_swap.
  - rewrite rdk1, rdk0. lia.
  - rewrite rdk1, rdk0. done.
  - exists i, s1, j, s2, s'. split_and!; try done. eapply copied_after; [..|done]; try congruence.
    + intros m Hm. rewrite rl1, rl0; done.
    + intros m. by rewrite ry1, ry0.
    + by etrans.
Qed.

Lemma log_block_q retries L s src dst v :
  quiet L [] s → lblk s src = Some v → src ≠ dst →
  0 ≤ src < Z.of_nat (length (disk s)) → 0 ≤ dst < Z.of_nat (length (disk s)) →
  room s 0 dst → room s 1 src →
  ∃ j s1 i s2 s', bread retries 1 dst s = Ok j s1 ∧ bread retries 1 src s1 = Ok i s2 ∧
    (copy_data j i;; bwrite j;; brelse i;; brelse j) s2 = Ok tt s' ∧ copied L s s' dst v.
Proof.
  intros Q Hv Hne Hs Hd Hr1 Hr2.
  destruct (bread_first retries L s dst Q Hd Hr1) as (j & s1 & d & t & R1 & G1).
  destruct (bread_second retries L s s1 j dst src d t G1 (not_eq_sym Hne) Hs Hr2) as (i & s2 & d' & t' & R2 & G2 & Hj & Hij).
  destruct G1 as [rq0 rn0 rh0 rc0 rco0 ro0 rl0 rdk0 rw0 rk0 rx0 ry0 rt0], G2 as [rq1 rn1 rh1 rc1 rco1 ro1 rl1 rdk1 rw1 rk1 rx1 ry1 rt1]. rewrite rl0, Hv in rc1 by lia. injection rc1 as <-.
  destruct (copy_tail_q L s2 i j src dst v d t' t) as (s' & R & C); try done; [lia| | |].
  - rewrite rdk1, rdk0. lia.
  - rewrite rdk1. done.
  - exists j, s1, i, s2, s'. split_and!; try done. eapply copied_after; [..|done]; try congruence.
    + intros m Hm. rewrite rl1, rl0; done.
    + intros m. by rewrite ry1, ry0.
    + by etrans.
Qed.
End move.

(** ** Sequences of writes *)

Definition apply_writes (ws : list (Z * block)) (D : list block) : list block :=
  foldl (λ D w, <[Z.to_nat w.1 := w.2]> D) D ws.

(** The content of block [m] after the writes, [o] being the content before. *)
Definition after (ws : list (Z * block)) (m : Z) (o : option block) : option block :=
  foldl (λ o w, if decide (m = w.1) then Some w.2 else o) o ws.

Lemma apply_writes_cons w ws D : apply_writes (w :: ws) D = apply_writes ws (<[Z.to_nat w.1 := w.2]> D).
Proof. done. Qed.

Lemma after_cons w ws m o : after (w :: ws) m o = after ws m (if decide (m = w.1) then Some w.2 else o).
Proof. done. Qed.

Lemma length_apply_writes ws D : length (apply_writes ws D) = length D.
Proof. revert D. induction ws as [|w ws IH]; intros D; [done|]. by rewrite apply_writes_cons, IH, length_insert. Qed.

Lemma apply_writes_app ws1 ws2 D : apply_writes (ws1 ++ ws2) D = apply_writes ws2 (apply_writes ws1 D).
Proof. unfold apply_writes. by rewrite foldl_app. Qed.

Lemma after_app ws1 ws2 m o : after (ws1 ++ ws2) m o = after ws2 m (after ws1 m o).
Proof. unfold after. by rewrite foldl_app. Qed.

Lemma after_ne ws m o : m ∉ ws.*1 → after ws m o = o.
Proof.
  revert o. induction ws as [|[n v] ws IH]; intros o Hm; [done|]. rewrite after_cons.
  cbn in Hm |- *. rewrite decide_False by set_solver. apply IH. set_solver.
Qed.

Lemma take_fst (ws : list (Z * block)) i m : m ∈ (take i ws).*1 → m ∈ ws.*1.
Proof. rewrite fmap_take. intros (k & Hk & _)%elem_of_take. apply list_elem_of_lookup. eauto. Qed.

Lemma after_in ws m v o : NoDup ws.*1 → (m, v) ∈ ws → after ws m o = Some v.
Proof.
  revert o. induction ws as [|[n w] ws IH]; intros o Hn Hin; [by apply not_elem_of_nil in Hin|].
  rewrite after_cons. rewrite fmap_cons in Hn. apply NoDup_cons in Hn as [Hn1 Hn2]. apply elem_of_cons in Hin as [[= <- <-]|Hin].
  - rewrite decide_True by done. by apply after_ne.
  - by apply IH.
Qed.

Lemma lookup_apply_writes ws D m :
  Forall (λ n, 0 ≤ n < Z.of_nat (length D)) ws.*1 → 0 ≤ m →
  apply_writes ws D !! Z.to_nat m = after ws m (D !! Z.to_nat m).
Proof.
  intros Hw Hm. revert D Hw. induction ws as [|[n v] ws IH]; intros D Hw; [done|].
  rewrite fmap_cons in Hw. apply Forall_cons in Hw as [H1 H2]. cbn in H1.
  rewrite apply_writes_cons, after_cons. cbn. rewrite IH by (by rewrite length_insert). f_equal.
  case_decide; [subst; apply list_lookup_insert_eq; lia|]. rewrite list_lookup_insert_ne; [done|lia].
Qed.

Section wrote.
Context {B : Type} {O : KOps B} {W : KLaws B}.
Implicit Types (b : bst B) (L : gset lockid) (v : block).

(** The effect of writing [ws] through the cache. *)
Record wrote L b b' (ws : list (Z * block)) : Prop := Wrote {
  wr_quiet : quiet L [] b';
  wr_disk : disk b' = apply_writes ws (disk b);
  wr_writes : writes b' = writes b ++ ws;
  wr_lblk : ∀ m, 0 ≤ m → lblk b' m = after ws m (lblk b m);
  wr_dirty : ∀ m, dirty b' m ↔ dirty b m ∧ m ∉ ws.*1;
  wr_idx : (length (dirty_idx b') ≤ length (dirty_idx b))%nat;
  wr_keep : k_keep (bbase b) (bbase b')
}.

Lemma wrote_nil L b : quiet L [] b → wrote L b b [].
Proof.
  intros Q. split; try done; [by rewrite app_nil_r|]. intros m. split; [|tauto].
  intros; split; [done|]. apply not_elem_of_nil.
Qed.

Lemma wrote_trans L b1 b2 b3 ws ws' : wrote L b1 b2 ws → wrote L b2 b3 ws' → wrote L b1 b3 (ws ++ ws').
Proof.
  intros [A1 A2 A3 A4 A5 A6 A7] [C1 C2 C3 C4 C5 C6 C7]. split; [done| | | | |lia|by etrans].
  - by rewrite C2, A2, apply_writes_app.
  - by rewrite C3, A3, app_assoc.
  - intros m Hm. by rewrite C4, A4, after_app.
  - intros m. rewrite C5, A5, fmap_app, not_elem_of_app. tauto.
Qed.

Lemma copied_wrote L b b' n v : copied L b b' n v → wrote L b b' [(n, v)].
Proof.
  intros [C1 C2 C3 C4 C5 C6 C7]. split; try done. intros m. rewrite C5. simpl. set_solver.
Qed.

Lemma room_wrote L b b' ws k n : wrote L b b' ws → n ∉ ws.*1 → room b k n → room b' k n.
Proof.
  intros Hw Hn [Hd|Hr]; [left; by apply (wr_dirty _ _ _ _ Hw)|right]. pose proof (wr_idx _ _ _ _ Hw). lia.
Qed.

(** What is not waiting in the cache is on the disk. *)
Lemma lblk_disk L b n : quiet L [] b → ¬ dirty b n → 0 ≤ n → lblk b n = disk b !! Z.to_nat n.
Proof.
  intros Q Hd Hn. destruct (q_bio _ _ _ Q) as [l Hok].
  destruct (cached b n) as [i|] eqn:E.
  - apply (cached_iff b l) in E as (Hi & x & Hx & Hh); [|done].
    rewrite (lblk_cached b l i x n Hok Hi Hx Hh). destruct (flag B_VALID x) eqn:Ev; [|done].
    assert (flag B_BUSY x = false) as Hb.
    { destruct (flag B_BUSY x) eqn:Eb; [|done]. exfalso.
      apply (not_elem_of_nil i), (q_busy _ _ _ Q i (strip x)); [done|by apply lookup_bl|done]. }
    assert (flag B_DIRTY x = false) as Hdx.
    { destruct (flag B_DIRTY x) eqn:Eb; [|done]. exfalso. apply Hd. exists i, (strip x). split_and!; try done. by apply lookup_bl. }
    destruct (bk_clean _ _ (bo_buf _ _ Hok i x Hi Hx) Hb Hdx Ev) as (_ & _ & Hdk).
    unfold has in Hh. rewrite andb_true_iff, !Z.eqb_eq in Hh. destruct Hh as [_ <-]. done.
  - apply (lblk_uncached b l); [done|]. intros i x Hi Hx. destruct (has 1 n x) eqn:Eh; [|done]. exfalso.
    assert (cached b n = Some i) as Hc; [|congruence]. apply (cached_iff b l); eauto.
Qed.
End wrote.

(** ** A block being edited in its buffer *)

Section editing.
Context {B : Type} {O : KOps B} {W : KLaws B}.
Implicit Types (b c : bst B) (L : gset lockid) (d : block).

(** From [b], buffer [i] has been read with block [n], and now holds [d]. *)
Record editing L b c (i : nat) (n : Z) d (t : bool) : Prop := Editing {
  ed_quiet : quiet L [i] c;
  ed_held : held c i n d t;
  ed_disk : disk c = disk b;
  ed_writes : writes c = writes b;
  ed_lblk : ∀ m, 0 ≤ m → m ≠ n → lblk c m = lblk b m;
  ed_idx : dirty_idx c = dirty_idx b;
  ed_dirty : ∀ m, dirty c m ↔ dirty b m;
  ed_keep : k_keep (bbase b) (bbase c)
}.

Lemma edit_start L b c i n d t : reading L [] b n i c d t → editing L b c i n d t.
Proof. intros []. split; try done. intros m Hm _. auto. Qed.

Lemma edit_data L b c i n d t d' :
  editing L b c i n d t → length d' = BSIZE →
  ∃ c', setb i (set_b_data d') c = Ok tt c' ∧ editing L b c' i n d' t.
Proof.
  intros [E1 E2 E3 E4 E5 E6 E7 E8] Hlen.
  destruct (setdata_q L [i] c i n d t d' E1 E2 Hlen) as (c' & R & [K1 K2 K3] & Hh & D & Ws & X & Y & Lb).
  exists c'. split; [exact R|]. split; [done|done|congruence|congruence| |congruence| |by rewrite K3].
  - intros m Hm Hne. rewrite Lb by done. auto.
  - intros m. by rewrite Y, E7.
Qed.

Lemma edit_put L b c i n d t off w d' :
  editing L b c i n d t → put32 d (Z.to_nat off) w = Some d' →
  ∃ c', put_head i off w c = Ok tt c' ∧ editing L b c' i n d' t.
Proof.
  intros Ed Hp. destruct (held_get _ _ _ _ _ (ed_held _ _ _ _ _ _ _ Ed)) as (x & Hget & Hx & _).
  assert (length d' = BSIZE) as Hlen.
  { destruct (getn_putn 4 d d' (Z.to_nat off) w Hp) as [_ ->].
    by eapply held_length; [apply Ed|apply (ed_held _ _ _ _ _ _ _ Ed)]. }
  destruct (edit_data L b c i n d t d' Ed Hlen) as (c' & R & Ed'). exists c'. split; [|done].
  unfold put_head. rewrite (bind_ok _ _ _ _ _ Hget), Hx. by rewrite Hp.
Qed.

(** Writing it to the disk and giving it back. *)
Lemma edit_write L b c i n d t :
  editing L b c i n d t → 0 ≤ n < Z.of_nat (length (disk b)) →
  ∃ c1 c2, bwrite i c = Ok tt c1 ∧ brelse i c1 = Ok tt c2 ∧ copied L b c2 n d.
Proof.
  intros [E1 E2 E3 E4 E5 E6 E7 E8] Hn.
  destruct (bwrite_q L [i] c i n d t E1 E2) as (c1 & R1 & [K1 K2 K3] & Hh1 & D1 & W1 & Y1 & X1 & L1); [by rewrite E3|].
  destruct (brelse_q L [] [] c1 i n d false K1 Hh1) as (c2 & R2 & Q2 & O2 & D2 & W2 & B2 & X2 & Y2 & L2); [lia| |].
  { intros _. rewrite D1, E3. apply list_lookup_insert_eq. lia. }
  exists c1, c2. split_and!; [done|done|]. split; [done|congruence|congruence| | |by rewrite X2, <- E6|].
  - intros m Hm. rewrite L2, L1 by done. case_decide as Hmn; [|by apply E5].
    subst. destruct (q_bio _ _ _ E1) as [l Hok]. by eapply held_lblk.
  - intros m. by rewrite Y2, Y1, E7.
  - etrans; [done|]. by rewrite <- K3.
Qed.

(** Giving it back as it was read. *)
Lemma read_release L b n i c d t :
  reading L [] b n i c d t → 0 ≤ n → ∃ c', brelse i c = Ok tt c' ∧ wrote L b c' [].
Proof.
  intros [rq rn rh rc rco ro rl rdk rw rk rx ry rt] Hn.
  destruct (brelse_q L [] [] c i n d t rq rh Hn) as (c' & R & Q' & O' & D' & W' & K' & X' & Y' & L');
    [by rewrite rdk|].
  exists c'. split; [done|]. split; [done|cbn; congruence|rewrite app_nil_r; congruence| | |by rewrite X', rx|by etrans].
  - intros m Hm. cbn. by rewrite L', rl.
  - intros m. rewrite Y', ry. split; [|tauto]. intros; split; [done|apply not_elem_of_nil].
Qed.
End editing.

(** ** The loops *)

(** [copies L s s' ws]: the writes [ws], in order. *)
Section loops.
Context {B : Type} {O : KOps B} {W : KLaws B}.
Implicit Types (s : lst B) (L : gset lockid) (v : block).

Lemma for_below_ok fuel (bound : lst B → Z) body (I : Z → lst B → Prop) s n :
  0 ≤ n → (Z.to_nat n < fuel)%nat → I 0 s →
  (∀ i s, 0 ≤ i ≤ n → I i s → bound s = n) →
  (∀ i s, 0 ≤ i < n → I i s → ∃ s', body i s = Ok tt s' ∧ I (i + 1) s') →
  ∃ s', for_below fuel bound body s = Ok tt s' ∧ I n s'.
Proof.
  intros Hn Hf H0 Hb Hstep. unfold for_below.
  assert (∀ k i s, Z.of_nat k = n - i → 0 ≤ i → (k < fuel)%nat → I i s →
    ∃ s', while fuel (λ i, n ← gets bound; if i <? n then body i;; mret (inl (i + 1)) else mret (inr i)) i s = Ok n s' ∧ I n s') as Hw.
  { clear Hf H0 s. induction fuel as [|fuel IH]; intros k i s Hk Hi Hf HI; [lia|].
    destruct (Z.ltb_spec i n) as [Hlt|Hge].
    - destruct (Hstep i s ltac:(lia) HI) as (s1 & R1 & I1).
      destruct (IH (k - 1)%nat (i + 1) s1) as (s' & R' & I'); [lia|lia|lia|done|].
      exists s'. split; [|done]. rewrite (while_ok _ _ _ _ (inl (i + 1)) s1); [exact R'|]. cbv beta.
      rewrite (bind_ok (gets bound) _ s n s) by (unfold gets; by rewrite (Hb i s ltac:(lia) HI)).
      rewrite (proj2 (Z.ltb_lt i n)) by done. by rewrite (bind_ok _ _ _ _ _ R1).
    - assert (i = n) as -> by lia. exists s. split; [|done]. rewrite (while_ok _ _ _ _ (inr n) s); [done|]. cbv beta.
      rewrite (bind_ok (gets bound) _ s n s) by (unfold gets; by rewrite (Hb n s ltac:(lia) HI)).
      by rewrite (proj2 (Z.ltb_ge n n)) by done. }
  destruct (Hw (Z.to_nat n) 0 s) as (s' & R' & I'); [lia|lia|lia|done|].
  exists s'. split; [|done]. by rewrite (bind_ok _ _ _ _ _ R').
Qed.

(** The log's geometry, and [bs] the blocks listed in the in-memory header. *)
Record log_geo s (bs : list Z) : Prop := Log_geo {
  lg_dev : log_dev s = 1;
  lg_start : 0 ≤ log_start s;
  lg_size : log_start s + log_size s ≤ Z.of_nat (length (disk (lbase s))) < 2 ^ 31;
  lg_lhlen : length (lh_block s) = Z.to_nat LOGSIZE;
  lg_n : lh_n s = Z.of_nat (length bs);
  lg_blocks : take (length bs) (lh_block s) = bs;
  lg_fits : Z.of_nat (length bs) ≤ LOGSIZE ∧ Z.of_nat (length bs) < log_size s;
  lg_nodup : NoDup bs;
  lg_home : Forall (λ n, 0 ≤ n < Z.of_nat (length (disk (lbase s))) ∧
    ¬ (log_start s ≤ n < log_start s + log_size s)) bs
}.

(** The blocks of the log area, and the home blocks. *)
Definition log_writes (start : Z) (vs : list block) : list (Z * block) :=
  imap (λ i v, (start + Z.of_nat i + 1, v)) vs.

Lemma log_writes_fst start vs m :
  m ∈ (log_writes start vs).*1 → start < m ≤ start + Z.of_nat (length vs).
Proof.
  intros ([n v] & -> & Hin)%list_elem_of_fmap. apply list_elem_of_lookup in Hin as [i Hi].
  unfold log_writes in Hi. rewrite list_lookup_imap in Hi. destruct (vs !! i) eqn:E; [|done].
  apply lookup_lt_Some in E. simpl in Hi. injection Hi as <- <-. simpl. lia.
Qed.

Lemma get_lh_block_ok s bs i n :
  take (length bs) (lh_block s) = bs → bs !! i = Some n → get_lh_block (Z.of_nat i) s = Ok n s.
Proof.
  intros Hbs Hn. unfold get_lh_block. rewrite (bind_ok (gets lh_block) _ s (lh_block s) s) by done.
  rewrite (proj2 (Z.ltb_ge _ _)) by lia. rewrite Nat2Z.id. unfold deref.
  rewrite <- Hbs in Hn. apply lookup_take_Some in Hn as [-> _]. done.
Qed.

(** A loop below [lh.n] whose iterations write the blocks [ws]. *)
Lemma loop_writes L s body ws :
  quiet L [] (lbase s) → lh_n s = Z.of_nat (length ws) → Z.of_nat (length ws) ≤ LOGSIZE →
  (∀ i n v b1, ws !! i = Some (n, v) → wrote L (lbase s) b1 (take i ws) →
     ∃ b2, body (Z.of_nat i) (set_lbase b1 s) = Ok tt (set_lbase b2 s) ∧ copied L b1 b2 n v) →
  ∃ b', for_below log_fuel lh_n body s = Ok tt (set_lbase b' s) ∧ wrote L (lbase s) b' ws.
Proof.
  intros Q Hn Hle Hstep.
  destruct (for_below_ok log_fuel lh_n body
    (λ i s', ∃ b', s' = set_lbase b' s ∧ wrote L (lbase s) b' (take (Z.to_nat i) ws)) s (lh_n s)) as (s' & R & I).
  - lia.
  - rewrite Hn. unfold log_fuel, LOGSIZE, MAXOPBLOCKS in *. lia.
  - exists (lbase s). split; [by destruct s|]. simpl. by apply wrote_nil.
  - intros i s' _ (b' & -> & _). done.
  - intros i s' Hi (b' & -> & Hw).
    destruct (lookup_lt_is_Some_2 ws (Z.to_nat i)) as [[n v] Hv]; [lia|].
    destruct (Hstep _ n v b' Hv Hw) as (b2 & R2 & C2). rewrite Z2Nat.id in R2 by lia.
    exists (set_lbase b2 s). split; [exact R2|]. exists b2. split; [done|].
    replace (Z.to_nat (i + 1)) with (S (Z.to_nat i)) by lia. rewrite (take_S_r _ _ _ Hv).
    eapply wrote_trans; [done|]. by apply copied_wrote.
  - destruct I as (b' & -> & Hw). exists b'. split; [exact R|]. rewrite take_ge in Hw; [done|lia].
Qed.

Lemma inb_ok {A} (m : K (bst B) A) s a b' : m (lbase s) = Ok a b' → inb m s = Ok a (set_lbase b' s).
Proof. intros H. exact (lift_run m s a b' H). Qed.

Lemma inb_seq (m1 m2 m3 m4 : K (bst B) unit) s b' :
  (m1;; m2;; m3;; m4) (lbase s) = Ok tt b' →
  (inb m1;; inb m2;; inb m3;; inb m4) s = Ok tt (set_lbase b' s).
Proof.
  intros R. unfold mbind, K_bind, inb, lift in *. simpl in *.
  destruct (m1 (lbase s)) as [[] b1| | | |]; try discriminate R. simpl in *.
  destruct (m2 b1) as [[] b2| | | |]; try discriminate R. simpl in *.
  destruct (m3 b2) as [[] b3| | | |]; try discriminate R. simpl in *.
  rewrite R. done.
Qed.

(** The numbers the code computes do not wrap around. *)
Lemma log_block_no s bs i :
  log_geo s bs → (i < length bs)%nat →
  u32 (log_start s + Z.of_nat i + 1) = log_start s + Z.of_nat i + 1 ∧
  0 ≤ log_start s + Z.of_nat i + 1 < Z.of_nat (length (disk (lbase s))) ∧
  log_start s < log_start s + Z.of_nat i + 1 < log_start s + log_size s.
Proof. intros [G1 G2 G3 G4 G5 G6 G7 G8 G9] Hi. rewrite u32_small; lia. Qed.

Lemma home_block_no s bs i n :
  log_geo s bs → bs !! i = Some n →
  u32 n = n ∧ 0 ≤ n < Z.of_nat (length (disk (lbase s))) ∧ ¬ (log_start s ≤ n < log_start s + log_size s).
Proof.
  intros [G1 G2 G3 G4 G5 G6 G7 G8 G9] Hi. destruct (Forall_lookup_1 _ _ _ _ G9 Hi) as [H1 H2].
  split_and!; try lia. rewrite u32_small; lia.
Qed.

Lemma write_log_step_ok retries L s bs i n v b1 :
  log_geo s bs → bs !! i = Some n → length (disk b1) = length (disk (lbase s)) →
  quiet L [] b1 → lblk b1 n = Some v → dirty b1 n → (length (dirty_idx b1) < NBUF)%nat →
  ∃ b2, write_log_step retries (Z.of_nat i) (set_lbase b1 s) = Ok tt (set_lbase b2 s) ∧
    copied L b1 b2 (log_start s + Z.of_nat i + 1) v.
Proof.
  intros G Hi Hlen Q Hv Hd Hidx. pose proof (lookup_lt_Some _ _ _ Hi) as Hlt.
  destruct (log_block_no s bs i G Hlt) as (N1 & N2 & N3). destruct (home_block_no s bs i n G Hi) as (M1 & M2 & M3).
  destruct (log_block_q retries L b1 n (log_start s + Z.of_nat i + 1) v Q Hv) as (j & c1 & i' & c2 & b2 & R1 & R2 & R3 & C);
    [lia|lia|lia|right; lia|by left|].
  exists b2. split; [|done]. unfold write_log_step.
  rewrite (bind_ok get _ _ (set_lbase b1 s) (set_lbase b1 s)) by done. cbn [log_dev log_start set_lbase].
  rewrite (lg_dev _ _ G), N1. change (u32 1) with 1.
  rewrite (bind_ok _ _ _ _ _ (inb_ok _ (set_lbase b1 s) _ _ R1)).
  rewrite (bind_ok _ _ _ _ _ (get_lh_block_ok (set_lbase c1 s) bs i n (lg_blocks _ _ G) Hi)).
  rewrite M1, (bind_ok _ _ _ _ _ (inb_ok _ (set_lbase c1 s) _ _ R2)).
  apply (inb_seq _ _ _ _ (set_lbase c2 s)). exact R3.
Qed.

Lemma install_step_ok retries L s bs i n v b1 :
  log_geo s bs → bs !! i = Some n → length (disk b1) = length (disk (lbase s)) →
  quiet L [] b1 → lblk b1 (log_start s + Z.of_nat i + 1) = Some v → room b1 1 n →
  (length (dirty_idx b1) < NBUF)%nat →
  ∃ b2, install_step retries (Z.of_nat i) (set_lbase b1 s) = Ok tt (set_lbase b2 s) ∧ copied L b1 b2 n v.
Proof.
  intros G Hi Hlen Q Hv Hd Hidx. pose proof (lookup_lt_Some _ _ _ Hi) as Hlt.
  destruct (log_block_no s bs i G Hlt) as (N1 & N2 & N3). destruct (home_block_no s bs i n G Hi) as (M1 & M2 & M3).
  destruct (install_block_q retries L b1 (log_start s + Z.of_nat i + 1) n v Q Hv) as (j & c1 & i' & c2 & b2 & R1 & R2 & R3 & C);
    [lia|lia|lia|right; lia|done|].
  exists b2. split; [|done]. unfold install_step.
  rewrite (bind_ok get _ _ (set_lbase b1 s) (set_lbase b1 s)) by done. cbn [log_dev log_start set_lbase].
  rewrite (lg_dev _ _ G), N1. change (u32 1) with 1.
  rewrite (bind_ok _ _ _ _ _ (inb_ok _ (set_lbase b1 s) _ _ R1)).
  rewrite (bind_ok _ _ _ _ _ (get_lh_block_ok (set_lbase c1 s) bs i n (lg_blocks _ _ G) Hi)).
  rewrite M1, (bind_ok _ _ _ _ _ (inb_ok _ (set_lbase c1 s) _ _ R2)).
  apply (inb_seq _ _ _ _ (set_lbase c2 s)). exact R3.
Qed.

Lemma lookup_log_writes start vs i n v :
  log_writes start vs !! i = Some (n, v) ↔ vs !! i = Some v ∧ n = start + Z.of_nat i + 1.
Proof.
  unfold log_writes. rewrite list_lookup_imap. destruct (vs !! i) as [w|]; simpl; naive_solver.
Qed.

Lemma write_log_ok retries L s bs vs :
  log_geo s bs → quiet L [] (lbase s) →
  Forall2 (λ n v, lblk (lbase s) n = Some v ∧ dirty (lbase s) n) bs vs →
  (length (dirty_idx (lbase s)) < NBUF)%nat →
  ∃ b', write_log retries s = Ok tt (set_lbase b' s) ∧ wrote L (lbase s) b' (log_writes (log_start s) vs).
Proof.
  intros G Q Hvs Hidx. pose proof (Forall2_length _ _ _ Hvs) as Hlen.
  apply loop_writes; [done|unfold log_writes; rewrite length_imap, (lg_n _ _ G); lia
    |unfold log_writes; rewrite length_imap; pose proof (lg_fits _ _ G); lia|].
  intros i m v b1 [Hv ->]%lookup_log_writes Hw.
  destruct (Forall2_lookup_r _ _ _ _ _ Hvs Hv) as (n & Hn & Hl & Hd).
  destruct (home_block_no s bs i n G Hn) as (M1 & M2 & M3).
  assert (n ∉ (take i (log_writes (log_start s) vs)).*1) as Hni.
  { intros Hin%take_fst%log_writes_fst. pose proof (lg_fits _ _ G). lia. }
  destruct (write_log_step_ok retries L s bs i n v b1) as (b2 & R2 & C2); try done.
  - rewrite (wr_disk _ _ _ _ Hw). apply length_apply_writes.
  - apply Hw.
  - rewrite (wr_lblk _ _ _ _ Hw), after_ne by (done || lia). done.
  - by apply (wr_dirty _ _ _ _ Hw).
  - pose proof (wr_idx _ _ _ _ Hw). lia.
  - by exists b2.
Qed.

(** Installing: the blocks of the log area go to their home locations. *)
Lemma install_trans_ok retries L s bs vs :
  log_geo s bs → quiet L [] (lbase s) → length vs = length bs →
  (∀ i v, vs !! i = Some v → lblk (lbase s) (log_start s + Z.of_nat i + 1) = Some v) →
  Forall (room (lbase s) 1) bs → (length (dirty_idx (lbase s)) < NBUF)%nat →
  ∃ b', install_trans retries s = Ok tt (set_lbase b' s) ∧ wrote L (lbase s) b' (zip bs vs).
Proof.
  intros G Q Hlen Hvs Hroom Hidx. assert (length (zip bs vs) = length bs) as Hz by (rewrite length_zip_with; lia).
  apply loop_writes; [done|rewrite Hz; apply (lg_n _ _ G)|pose proof (lg_fits _ _ G); lia|].
  intros i n v b1 Hi Hw. apply lookup_zip_with_Some in Hi as (n' & v' & [= <- <-] & Hn & Hv).
  destruct (home_block_no s bs i n G Hn) as (M1 & M2 & M3). pose proof (lookup_lt_Some _ _ _ Hn) as Hlt.
  destruct (log_block_no s bs i G Hlt) as (N1 & N2 & N3).
  destruct (install_step_ok retries L s bs i n v b1) as (b2 & R2 & C2); try done.
  - rewrite (wr_disk _ _ _ _ Hw). apply length_apply_writes.
  - apply Hw.
  - rewrite (wr_lblk _ _ _ _ Hw), after_ne; [by apply Hvs| |lia]. intros Hin%take_fst.
    rewrite fst_zip in Hin by lia. apply list_elem_of_lookup in Hin as [k Hk].
    destruct (home_block_no s bs k _ G Hk) as (_ & _ & Hno). lia.
  - eapply room_wrote; [done| |by eapply Forall_lookup_1]. rewrite fmap_take, fst_zip by lia.
    intros (k & Hk & Hki)%elem_of_take. pose proof (NoDup_lookup _ _ _ _ (lg_nodup _ _ G) Hn Hk). lia.
  - pose proof (wr_idx _ _ _ _ Hw). lia.
  - by exists b2.
Qed.

(** ** The header *)

(** The header block [h] with the list [bs] stored in it. *)
Definition head_image (h : block) (bs : list Z) : block :=
  splice h 0 (le_bytes 4 (Z.of_nat (length bs)) ++ concat (le_bytes 4 <$> bs)).

Lemma head_image_step h bs i n :
  length h = BSIZE → (length bs ≤ 30)%nat → bs !! i = Some n →
  put32 (splice h 0 (le_bytes 4 (Z.of_nat (length bs)) ++ concat (le_bytes 4 <$> take i bs)))
    (Z.to_nat (4 + 4 * Z.of_nat i)) n =
  Some (splice h 0 (le_bytes 4 (Z.of_nat (length bs)) ++ concat (le_bytes 4 <$> take (S i) bs))).
Proof.
  intros Hh Hbs Hi. pose proof (lookup_lt_Some _ _ _ Hi) as Hlt.
  set (pre := le_bytes 4 (Z.of_nat (length bs)) ++ concat (le_bytes 4 <$> take i bs)).
  assert (length pre = 4 + 4 * i)%nat as Hpre.
  { unfold pre. rewrite length_app, length_le_bytes, length_concat_bytes, length_take. lia. }
  replace (Z.to_nat (4 + 4 * Z.of_nat i)) with (length pre) by lia.
  unfold put32. rewrite putn_snoc by (unfold BSIZE in Hh; lia). do 2 f_equal.
  rewrite (take_S_r _ _ _ Hi), fmap_app, concat_app. unfold pre. cbn [fmap list_fmap concat].
  by rewrite app_nil_r, app_assoc.
Qed.

Lemma write_head_ok retries L s bs h :
  log_geo s bs → quiet L [] (lbase s) → lblk (lbase s) (log_start s) = Some h →
  (length (dirty_idx (lbase s)) < NBUF)%nat →
  ∃ b', write_head retries s = Ok tt (set_lbase b' s) ∧
    wrote L (lbase s) b' [(log_start s, head_image h bs)].
Proof.
  intros G Q Hh Hidx. destruct G as [G1 G2 G3 G4 G5 G6 G7 G8 G9].
  assert (0 ≤ log_start s < Z.of_nat (length (disk (lbase s)))) as Hst by lia.
  destruct (bread_first retries L (lbase s) (log_start s) Q Hst (or_intror Hidx)) as (i & c1 & d & t & R1 & Rd).
  pose proof (edit_start _ _ _ _ _ _ _ Rd) as Ed. pose proof (rd_content _ _ _ _ _ _ _ _ Rd) as Hd.
  rewrite Hh in Hd. injection Hd as <-.
  pose proof (held_length _ _ _ _ _ _ _ (ed_quiet _ _ _ _ _ _ _ Ed) (ed_held _ _ _ _ _ _ _ Ed)) as Hlen.
  assert (length bs ≤ 30)%nat as Hbs by (unfold LOGSIZE, MAXOPBLOCKS in *; lia).
  assert (put32 h (Z.to_nat 0) (lh_n s) = Some (splice h 0 (le_bytes 4 (Z.of_nat (length bs)) ++ []))) as Hp0.
  { rewrite G5, app_nil_r. change (Z.to_nat 0) with (length (@nil Z)). rewrite <- (splice_nil h 0) at 1.
    unfold put32. by rewrite putn_snoc by (unfold BSIZE in Hlen; cbn [length]; lia). }
  destruct (edit_put _ _ _ _ _ _ _ 0 (lh_n s) _ Ed Hp0) as (c2 & R2 & Ed2).
  destruct (for_below_ok log_fuel lh_n (λ k, n ← get_lh_block k; inb (put_head i (4 + 4 * k) n))
    (λ k s', ∃ c, s' = set_lbase c s ∧ editing L (lbase s) c i (log_start s)
       (splice h 0 (le_bytes 4 (Z.of_nat (length bs)) ++ concat (le_bytes 4 <$> take (Z.to_nat k) bs))) t)
    (set_lbase c2 s) (lh_n s)) as (s3 & R3 & c3 & -> & Ed3).
  - lia.
  - rewrite G5. unfold log_fuel. lia.
  - by exists c2.
  - by intros k s' _ (c & -> & _).
  - intros k s' Hk (c & -> & Edc). destruct (lookup_lt_is_Some_2 bs (Z.to_nat k)) as [n Hn]; [lia|].
    pose proof (head_image_step h bs (Z.to_nat k) n Hlen Hbs Hn) as Hp. rewrite Z2Nat.id in Hp by lia.
    destruct (edit_put _ _ _ _ _ _ _ _ _ _ Edc Hp) as (c' & Rc & Edc').
    exists (set_lbase c' s). split.
    + rewrite <- (Z2Nat.id k) at 1 by lia.
      rewrite (bind_ok _ _ _ _ _ (get_lh_block_ok (set_lbase c s) bs _ n G6 Hn)).
      exact (inb_ok _ (set_lbase c s) _ _ Rc).
    + exists c'. split; [done|]. by replace (Z.to_nat (k + 1)) with (S (Z.to_nat k)) by lia.
  - rewrite G5, Nat2Z.id, take_ge in Ed3 by lia.
    destruct (edit_write _ _ _ _ _ _ _ Ed3 Hst) as (c4 & c5 & R4 & R5 & C).
    exists c5. split; [|by apply copied_wrote]. unfold write_head.
    rewrite (bind_ok get _ s s s) by done. rewrite G1. change (u32 1) with 1. rewrite (u32_small (log_start s)) by lia.
    rewrite (bind_ok _ _ _ _ _ (inb_ok _ s _ _ R1)).
    rewrite (bind_ok (gets lh_n) _ _ (lh_n s) (set_lbase c1 s)) by done.
    rewrite (bind_ok _ _ _ _ _ (inb_ok _ (set_lbase c1 s) _ _ R2)). cbn [set_lbase].
    rewrite (bind_ok _ _ _ _ _ R3).
    rewrite (bind_ok _ _ _ _ _ (inb_ok _ (set_lbase c3 s) _ _ R4)). exact (inb_ok _ (set_lbase c4 s) _ _ R5).
Qed.

(** Reading a header that lists [bs]. *)
Definition head_lists (h : block) (bs : list Z) : Prop :=
  get32 h 0 = Some (Z.of_nat (length bs)) ∧
  ∀ i n, bs !! i = Some n → get32 h (4 + 4 * i) = Some n.

Lemma put_lh_block_ok s i (v : Z) :
  (i < length (lh_block s))%nat →
  put_lh_block (Z.of_nat i) v s = Ok tt (set_lh_block (<[i := v]> (lh_block s)) s).
Proof.
  intros Hi. unfold put_lh_block. rewrite (bind_ok (gets lh_block) _ s (lh_block s) s) by done.
  rewrite (proj2 (Z.leb_le _ _)), (proj2 (Z.ltb_lt _ _)) by lia. by rewrite Nat2Z.id.
Qed.

Lemma read_head_ok retries L s h bs :
  quiet L [] (lbase s) → log_dev s = 1 → lblk (lbase s) (log_start s) = Some h → head_lists h bs →
  Forall (λ n, 0 ≤ n < 2 ^ 31) bs → (length bs ≤ Z.to_nat LOGSIZE)%nat → length (lh_block s) = Z.to_nat LOGSIZE →
  0 ≤ log_start s < Z.of_nat (length (disk (lbase s))) → Z.of_nat (length (disk (lbase s))) < 2 ^ 31 →
  (length (dirty_idx (lbase s)) < NBUF)%nat →
  ∃ b', read_head retries s = Ok tt
      (set_lbase b' (set_lh_block (bs ++ drop (length bs) (lh_block s)) (set_lh_n (Z.of_nat (length bs)) s))) ∧
    wrote L (lbase s) b' [].
Proof.
  intros Q Hdev Hh [Hn Hl] Hr Hle Hlh Hst Hsz Hidx.
  destruct (bread_first retries L (lbase s) (log_start s) Q Hst (or_intror Hidx)) as (i & c1 & d & t & R1 & Rd).
  pose proof (rd_content _ _ _ _ _ _ _ _ Rd) as Hd. rewrite Hh in Hd. injection Hd as <-.
  destruct (held_get _ _ _ _ _ (rd_held _ _ _ _ _ _ _ _ Rd)) as (x & Hget & Hx & _).
  set (n := Z.of_nat (length bs)). set (s1 := set_lh_n n (set_lbase c1 s)).
  destruct (for_below_ok log_fuel lh_n (λ k, x ← inb (getb i); w ← deref (get32 (b_data x) (Z.to_nat (4 + 4 * k))); put_lh_block k (i32 w))
    (λ k s', s' = set_lh_block (take (Z.to_nat k) bs ++ drop (Z.to_nat k) (lh_block s)) s1)
    s1 n) as (s3 & R3 & ->).
  - lia.
  - unfold n, log_fuel, LOGSIZE, MAXOPBLOCKS in *. lia.
  - by destruct s.
  - by intros k s' _ ->.
  - intros k s' Hk ->. destruct (lookup_lt_is_Some_2 bs (Z.to_nat k)) as [m Hm]; [lia|].
    pose proof (Forall_lookup_1 _ _ _ _ Hr Hm) as Hmr. cbn in Hmr.
    eexists. split.
    + rewrite (bind_ok _ _ _ x _ (inb_ok _ (set_lh_block _ s1) _ _ Hget)), Hx.
      replace (Z.to_nat (4 + 4 * k)) with (4 + 4 * Z.to_nat k)%nat by lia. rewrite (Hl _ _ Hm).
      rewrite (bind_ok _ _ _ _ _ (deref_some m _)). rewrite i32_small by lia. rewrite <- (Z2Nat.id k) at 1 by lia.
      apply put_lh_block_ok. cbn. rewrite length_app, length_take, length_drop. lia.
    + unfold s1, set_lh_block, set_lh_n, set_lbase. cbn. f_equal.
      replace (Z.to_nat (k + 1)) with (S (Z.to_nat k)) by lia. rewrite (take_S_r _ _ _ Hm), <- app_assoc.
      rewrite insert_app_r_alt by (rewrite length_take; lia). rewrite length_take_le by lia.
      rewrite Nat.sub_diag. f_equal.
      destruct (lookup_lt_is_Some_2 (lh_block s) (Z.to_nat k)) as [y Hy]; [lia|].
      by rewrite (drop_S _ _ _ Hy).
  - destruct (read_release _ _ _ _ _ _ _ Rd (proj1 Hst)) as (c' & R4 & Hw).
    exists c'. split; [|done]. unfold read_head.
    rewrite (bind_ok get _ s s s) by done. rewrite Hdev. change (u32 1) with 1. rewrite (u32_small (log_start s)) by lia.
    rewrite (bind_ok _ _ _ _ _ (inb_ok _ s _ _ R1)), (bind_ok _ _ _ _ _ (inb_ok _ (set_lbase c1 s) _ _ Hget)), Hx, Hn.
    rewrite (bind_ok _ _ _ _ _ (deref_some (Z.of_nat (length bs)) _)). rewrite i32_small by (unfold LOGSIZE, MAXOPBLOCKS in *; lia).
    rewrite (bind_ok _ _ _ _ _ (modify_ok _ _)). fold n s1. rewrite (bind_ok _ _ _ _ _ R3).
    unfold n. rewrite Nat2Z.id, (take_ge bs) by lia. exact (inb_ok _ (set_lh_block _ s1) _ _ R4).
Qed.
End loops.
