(* ===== verification/Crash.v ===== *)
(** * Crash safety of the log

    [commit] and [recover_from_log] as sequences of disk writes, and what a
    crash between any two of them leaves.  [intact D T]: the disk [D] means [T],
    that is, recovery turns it into [T] (outside the log area). *)
From S2P Require Import Prelude Spinlock Str Ptable PtableLists Sched Choice Scheduling Services Kalloc BioRing Bio BioFacts BioProps BufSpec DiskFmt Log LogFacts.

(** ** The header *)

Lemma length_head_image h bs : length h = BSIZE → (length bs ≤ 30)%nat → length (head_image h bs) = BSIZE.
Proof.
  intros Hh Hb. unfold head_image. rewrite length_splice; [done|].
  rewrite length_app, length_le_bytes, length_concat_bytes. unfold BSIZE in Hh. lia.
Qed.

Lemma head_image_lists h bs :
  length h = BSIZE → (length bs ≤ 30)%nat → Forall (λ n, 0 ≤ n < 2 ^ 31) bs → head_lists (head_image h bs) bs.
Proof.
  intros Hh Hb Hr. unfold BSIZE in Hh. split.
  - unfold head_image. pose proof (getn_array 4 h [] (Z.of_nat (length bs) :: bs) 0 (Z.of_nat (length bs))) as Hg.
    cbn [length] in Hg. etrans; [apply Hg; [lia|done]|]. f_equal. apply Z.mod_small. simpl. lia.
  - intros i n Hi. pose proof (Forall_lookup_1 _ _ _ _ Hr Hi) as Hn. cbn in Hn. unfold head_image.
    pose proof (getn_array 4 h (le_bytes 4 (Z.of_nat (length bs))) bs i n) as Hg. rewrite length_le_bytes in Hg.
    unfold get32. rewrite Hg; [|lia|done]. f_equal. apply Z.mod_small. simpl. lia.
Qed.

Lemma head_lists_nil h : get32 h 0 = Some 0 → head_lists h [].
Proof. intros Hh. split; [done|]. intros i n Hi. by rewrite lookup_nil in Hi. Qed.

Lemma log_writes_nodup start vs : NoDup (log_writes start vs).*1.
Proof.
  apply NoDup_alt. intros i1 i2 n. rewrite !list_lookup_fmap. unfold log_writes. rewrite !list_lookup_imap.
  destruct (vs !! i1), (vs !! i2); simpl; try done. intros [= <-] [=]. lia.
Qed.

(** ** What a disk means *)

Section image.
Variables (start size : Z) (sb : superblock).

(** The log area, and a log there that lists the blocks [bs] with contents [vs]. *)
Definition in_log (n : Z) : Prop := start ≤ n < start + size.

Record log_image (D : list block) (bs : list Z) (vs : list block) : Prop := Log_image {
  li_geo : 2 ≤ start ∧ start + size ≤ Z.of_nat (length D) < 2 ^ 31;
  li_sb : ∃ d, D !! 1%nat = Some d ∧ superblock_of d = Some sb ∧ i32 (sb_logstart sb) = start ∧ i32 (sb_nlog sb) = size;
  li_blocks : ∀ n d, D !! n = Some d → length d = BSIZE;
  li_head : ∃ h, D !! Z.to_nat start = Some h ∧ head_lists h bs;
  li_log : ∀ i v, vs !! i = Some v → D !! Z.to_nat (start + Z.of_nat i + 1) = Some v;
  li_len : length vs = length bs;
  li_fits : Z.of_nat (length bs) ≤ LOGSIZE ∧ Z.of_nat (length bs) < size;
  li_nodup : NoDup bs;
  li_home : Forall (λ n, 0 ≤ n < Z.of_nat (length D) ∧ ¬ in_log n ∧ n ≠ 1) bs
}.

Definition intact (D T : list block) : Prop :=
  ∃ bs vs, log_image D bs vs ∧ length T = length D ∧
    ∀ n, 0 ≤ n → ¬ in_log n → apply_writes (zip bs vs) D !! Z.to_nat n = T !! Z.to_nat n.

(** Writes that keep the log: to home locations of listed blocks. *)
Lemma log_image_home D bs vs ws :
  log_image D bs vs → Forall (λ w, w.1 ∈ bs ∧ length w.2 = BSIZE) ws → log_image (apply_writes ws D) bs vs.
Proof.
  intros [I1 I2 I3 I4 I5 I6 I7 I8 I9] Hws. rewrite Forall_forall in Hws. rewrite Forall_forall in I9.
  assert (Forall (λ n, 0 ≤ n < Z.of_nat (length D)) ws.*1) as Hr.
  { apply Forall_forall. intros n ([n' v] & -> & Hin)%list_elem_of_fmap. destruct (Hws _ Hin) as [Hb _]. by apply I9 in Hb as [? _]. }
  assert (∀ n, 0 ≤ n → (in_log n ∨ n = 1) → apply_writes ws D !! Z.to_nat n = D !! Z.to_nat n) as Hsame.
  { intros n Hn Hl. rewrite lookup_apply_writes, after_ne; [done| |done|done].
    intros ([n' v] & -> & Hin)%list_elem_of_fmap. destruct (Hws _ Hin) as [(_ & H1 & H2)%I9 _]. naive_solver. }
  assert (Z.of_nat (length bs) < size) as Hsz by lia. split; rewrite ?length_apply_writes; try done.
  - change 1%nat with (Z.to_nat 1). rewrite Hsame by (lia || by right). done.
  - intros n d Hd. rewrite <- (Nat2Z.id n), lookup_apply_writes in Hd by (done || lia).
    revert Hd. assert (∀ o, (∀ d, o = Some d → length d = BSIZE) → after ws (Z.of_nat n) o = Some d → length d = BSIZE) as Ha.
    { clear -Hws. induction ws as [|w ws IH]; intros o Ho; [by apply Ho|]. rewrite after_cons. apply IH.
      - intros w' Hin. apply Hws. by right.
      - intros d'. case_decide; [|apply Ho]. intros [= <-]. apply (Hws w). by left. }
    apply Ha. intros d' Hd'. rewrite Nat2Z.id in Hd'. eauto.
  - rewrite Hsame; [done|lia|]. left. unfold in_log. lia.
  - intros i v Hv. rewrite Hsame; [by apply I5|lia|]. left. apply lookup_lt_Some in Hv. unfold in_log. lia.
  - by apply Forall_forall.
Qed.

(** A write to the header block that empties the log. *)
Lemma log_image_clear D bs vs h :
  log_image D bs vs → length h = BSIZE → head_lists h [] → log_image (<[Z.to_nat start := h]> D) [] [].
Proof.
  intros [I1 I2 I3 I4 I5 I6 I7 I8 I9] Hlen Hh. split; rewrite ?length_insert; try done; try lia.
  - rewrite list_lookup_insert_ne by lia. done.
  - intros n d [(_ & <- & _)|[_ Hd]]%list_lookup_insert_Some; eauto.
  - exists h. split; [|done]. apply list_lookup_insert_eq. lia.
  - simpl. lia.
  - constructor.
Qed.

Lemma image_data D bs vs : log_image D bs vs → Forall (λ w, w.1 ∈ bs ∧ length w.2 = BSIZE) (zip bs vs).
Proof.
  intros I. apply Forall_forall. intros [n v] [i Hi]%list_elem_of_lookup.
  apply lookup_zip_with_Some in Hi as (n' & v' & [= <- <-] & Hn & Hv). simpl. split.
  - apply list_elem_of_lookup. eauto.
  - eapply (li_blocks _ _ _ I), (li_log _ _ _ I), Hv.
Qed.

Lemma image_range D bs vs (ws : list (Z * block)) :
  log_image D bs vs → ws.*1 ⊆ bs → Forall (λ n, 0 ≤ n < Z.of_nat (length D)) ws.*1.
Proof.
  intros I Hs. apply Forall_forall. intros n Hn%Hs. pose proof (li_home _ _ _ I) as Hh.
  rewrite Forall_forall in Hh. by apply Hh in Hn as [? _].
Qed.

(** Installing again what has been partly installed changes nothing. *)
Lemma reinstall D bs vs k n :
  log_image D bs vs → 0 ≤ n →
  apply_writes (zip bs vs) (apply_writes (take k (zip bs vs)) D) !! Z.to_nat n =
  apply_writes (zip bs vs) D !! Z.to_nat n.
Proof.
  intros I Hn. pose proof (li_len _ _ _ I) as Hlen. assert ((zip bs vs).*1 = bs) as Hfst by (apply fst_zip; lia).
  assert ((take k (zip bs vs)).*1 ⊆ bs) as Hsub by (intros m Hm%take_fst; by rewrite Hfst in Hm).
  assert (Forall (λ n, 0 ≤ n < Z.of_nat (length D)) (zip bs vs).*1) as Hr by (eapply image_range; [done|by rewrite Hfst]).
  assert (Forall (λ n, 0 ≤ n < Z.of_nat (length D)) (take k (zip bs vs)).*1) as Hr' by by eapply image_range.
  rewrite (lookup_apply_writes _ (apply_writes _ _)), !lookup_apply_writes by (rewrite ?length_apply_writes; done).
  destruct (decide (n ∈ bs)) as [Hin|Hnin].
  - rewrite <- Hfst in Hin. apply list_elem_of_fmap in Hin as ([n' v] & -> & Hin).
    rewrite !(after_in _ _ v); rewrite ?Hfst; try done; apply (li_nodup _ _ _ I).
  - rewrite !(after_ne (zip bs vs)) by (by rewrite Hfst). rewrite after_ne; [done|]. set_solver.
Qed.

Lemma outside_start n : 2 ≤ start → 0 < size → ¬ in_log n → 0 ≤ n → Z.to_nat start ≠ Z.to_nat n.
Proof. unfold in_log. lia. Qed.

(** A crash during recovery. *)
Lemma recovery_prefix D T bs vs h k :
  log_image D bs vs → length T = length D →
  (∀ n, 0 ≤ n → ¬ in_log n → apply_writes (zip bs vs) D !! Z.to_nat n = T !! Z.to_nat n) →
  length h = BSIZE → head_lists h [] →
  intact (apply_writes (take k (zip bs vs ++ [(start, h)])) D) T.
Proof.
  intros I HT Hmean Hlen Hh. destruct (decide (k ≤ length (zip bs vs))%nat) as [Hk|Hk].
  - rewrite take_app_le by done. exists bs, vs. split_and!; [| |].
    + eapply log_image_home; [done|]. apply Forall_take, (image_data _ _ _ I).
    + by rewrite length_apply_writes.
    + intros n Hn Ho. rewrite (reinstall D) by done. by apply Hmean.
  - rewrite take_ge by (rewrite length_app; simpl; lia). rewrite apply_writes_app. cbn [apply_writes foldl].
    exists [], []. split_and!.
    + eapply log_image_clear; [|done|done]. eapply log_image_home; [done|]. apply (image_data _ _ _ I).
    + by rewrite length_insert, length_apply_writes.
    + intros n Hn Ho. cbn. rewrite list_lookup_insert_ne; [by apply Hmean|].
      apply outside_start; try done; [apply (li_geo _ _ _ I)|]. pose proof (li_fits _ _ _ I). lia.
Qed.

(** ** A crash during a commit *)

Definition commit_writes (h : block) (bs : list Z) (vs : list block) : list (Z * block) :=
  log_writes start vs ++ (start, head_image h bs) :: zip bs vs ++ [(start, head_image (head_image h bs) [])].

Lemma after_lengths ws m o d :
  (∀ d, o = Some d → length d = BSIZE) → Forall (λ w, length w.2 = BSIZE) ws → after ws m o = Some d → length d = BSIZE.
Proof.
  revert o. induction ws as [|w ws IH]; intros o Ho Hw; [by apply Ho|].
  apply Forall_cons in Hw as [H1 H2]. rewrite after_cons. apply IH; [|done].
  intros d'. case_decide; [by intros [= <-]|apply Ho].
Qed.

(** Writes inside the log area do not change the rest of the disk. *)
Lemma log_area_writes D bs vs ws :
  log_image D bs vs → Forall (λ w, in_log w.1 ∧ length w.2 = BSIZE) ws →
  length (apply_writes ws D) = length D ∧
  (∀ n, 0 ≤ n → apply_writes ws D !! Z.to_nat n = after ws n (D !! Z.to_nat n)) ∧
  (∀ n, 0 ≤ n → ¬ in_log n → apply_writes ws D !! Z.to_nat n = D !! Z.to_nat n) ∧
  (∀ n d, apply_writes ws D !! n = Some d → length d = BSIZE).
Proof.
  intros I Hws. pose proof (li_geo _ _ _ I) as Hgeo.
  assert (Forall (λ n, 0 ≤ n < Z.of_nat (length D)) ws.*1) as Hr.
  { apply Forall_fmap. eapply Forall_impl; [done|]. intros [n v]. cbn. unfold in_log. lia. }
  split_and!; [apply length_apply_writes|intros; by apply lookup_apply_writes| |].
  - intros n Hn Ho. rewrite lookup_apply_writes, after_ne; try done.
    intros ([n' v] & -> & Hin)%list_elem_of_fmap. rewrite Forall_forall in Hws. by destruct (Hws _ Hin).
  - intros n d. rewrite <- (Nat2Z.id n), lookup_apply_writes by (done || lia). apply after_lengths.
    + intros d'. rewrite Nat2Z.id. apply (li_blocks _ _ _ I).
    + eapply Forall_impl; [done|]. by intros w [_ ?].
Qed.

Lemma log_writes_in_log (vs : list block) :
  2 ≤ start → Z.of_nat (length vs) < size → Forall (λ v, length v = BSIZE) vs →
  Forall (λ w, in_log w.1 ∧ length w.2 = BSIZE) (log_writes start vs).
Proof.
  intros Hs Hl Hv. apply Forall_lookup. intros i [n v] [Hi ->]%lookup_log_writes. simpl. split.
  - pose proof (lookup_lt_Some (A:=block) _ _ _ Hi). unfold in_log. lia.
  - by eapply Forall_lookup_1 in Hv.
Qed.

(** Before the header is written. *)
Lemma commit_before D ws h :
  log_image D [] [] → D !! Z.to_nat start = Some h →
  Forall (λ w, in_log w.1 ∧ length w.2 = BSIZE) ws → start ∉ ws.*1 → intact (apply_writes ws D) D.
Proof.
  intros I Hh Hws Hst. destruct (log_area_writes D [] [] ws I Hws) as (A1 & A2 & A3 & A4).
  destruct I as [I1 I2 I3 I4 I5 I6 I7 I8 I9]. exists [], []. split_and!; [|done|done].
  split; rewrite ?A1; try done.
  - change 1%nat with (Z.to_nat 1). rewrite A3; [done|lia|]. unfold in_log. lia.
  - rewrite A2, after_ne by (done || lia). done.
Qed.

(** Once it is written. *)
Lemma commit_logged (D : list block) bs (vs : list block) (h : block) :
  log_image D [] [] → D !! Z.to_nat start = Some h → length vs = length bs →
  Z.of_nat (length bs) ≤ LOGSIZE → Z.of_nat (length bs) < size → NoDup bs →
  Forall (λ n, 0 ≤ n < Z.of_nat (length D) ∧ ¬ in_log n ∧ n ≠ 1) bs → Forall (λ v, length v = BSIZE) vs →
  let D2 := <[Z.to_nat start := head_image h bs]> (apply_writes (log_writes start vs) D) in
  log_image D2 bs vs ∧ ∀ n, 0 ≤ n → ¬ in_log n → D2 !! Z.to_nat n = D !! Z.to_nat n.
Proof.
  intros I Hh Hlen Hb1 Hb2 Hnd Hhome Hvs D2. pose proof (li_geo _ _ _ I) as Hgeo.
  pose proof (log_writes_in_log vs ltac:(lia) ltac:(lia) Hvs) as Hlw.
  destruct (log_area_writes D [] [] _ I Hlw) as (A1 & A2 & A3 & A4).
  assert (length h = BSIZE) as Hhl by by eapply (li_blocks _ _ _ I).
  assert (length bs ≤ 30)%nat as Hb by (unfold LOGSIZE, MAXOPBLOCKS in *; lia).
  assert (∀ n, 0 ≤ n → ¬ in_log n → D2 !! Z.to_nat n = D !! Z.to_nat n) as Hout.
  { intros n Hn Ho. unfold D2. rewrite list_lookup_insert_ne; [by apply A3|]. apply outside_start; try done; lia. }
  split; [|done]. destruct I as [I1 I2 I3 I4 I5 I6 I7 I8 I9].
  split; unfold D2; rewrite ?length_insert, ?A1; try done.
  - change 1%nat with (Z.to_nat 1). fold D2. rewrite Hout; [done|lia|]. unfold in_log. lia.
  - intros n d [(_ & <- & _)|[_ Hd]]%list_lookup_insert_Some; [by apply length_head_image|by eapply A4].
  - exists (head_image h bs). split; [apply list_lookup_insert_eq; rewrite A1; lia|].
    apply head_image_lists; [done|done|]. eapply Forall_impl; [exact Hhome|]. cbn. lia.
  - intros i v Hv. rewrite list_lookup_insert_ne by lia. rewrite A2 by lia.
    apply after_in.
    + apply log_writes_nodup.
    + apply list_elem_of_lookup. exists i. by apply lookup_log_writes.
Qed.

(** What a commit of [bs] with contents [vs] needs of the disk. *)
Record can_commit (D : list block) (bs : list Z) (vs : list block) (h : block) : Prop := Can_commit {
  cc_empty : log_image D [] [];
  cc_head : D !! Z.to_nat start = Some h;
  cc_len : length vs = length bs;
  cc_fits : Z.of_nat (length bs) ≤ LOGSIZE ∧ Z.of_nat (length bs) < size;
  cc_nodup : NoDup bs;
  cc_home : Forall (λ n, 0 ≤ n < Z.of_nat (length D) ∧ ¬ in_log n ∧ n ≠ 1) bs;
  cc_vals : Forall (λ v, length v = BSIZE) vs
}.

(** However many of the writes reach the disk, it means the old or the new
    state, and the new one from the write of the header on. *)
Lemma commit_prefix D bs vs h k :
  can_commit D bs vs h →
  intact (apply_writes (take k (commit_writes h bs vs)) D)
    (if decide (k ≤ length bs)%nat then D else apply_writes (zip bs vs) D).
Proof.
  intros [I Hh Hlen [Hf1 Hf2] Hnd Hhome Hvs]. pose proof (li_geo _ _ _ I) as Hgeo.
  assert (length (log_writes start vs) = length bs) as Hlw by (unfold log_writes; by rewrite length_imap).
  pose proof (log_writes_in_log vs ltac:(lia) ltac:(lia) Hvs) as Hin. unfold commit_writes. case_decide as Hk.
  - rewrite take_app_le by lia. eapply commit_before; [done|done|by apply Forall_take|].
    intros Hst%take_fst%log_writes_fst. lia.
  - rewrite take_app_ge, apply_writes_app by lia.
    replace (k - length (log_writes start vs))%nat with (S (k - S (length bs))) by lia.
    cbn [take]. rewrite apply_writes_cons. cbn [fst snd].
    destruct (commit_logged D bs vs h I Hh Hlen Hf1 Hf2 Hnd Hhome Hvs) as [I2 Hout].
    assert (length h = BSIZE) as Hhl by by eapply (li_blocks _ _ _ I).
    assert (length bs ≤ 30)%nat as Hb by (unfold LOGSIZE, MAXOPBLOCKS in *; lia).
    apply recovery_prefix; [done| | | |].
    + rewrite length_apply_writes, length_insert. by rewrite length_apply_writes.
    + intros n Hn Ho. rewrite !lookup_apply_writes; try done.
      * by rewrite Hout.
      * rewrite fst_zip by lia. eapply Forall_impl; [exact Hhome|]. cbn. tauto.
      * rewrite fst_zip by lia. eapply Forall_impl; [exact (li_home _ _ _ I2)|]. cbn. tauto.
    + apply length_head_image; [by apply length_head_image|simpl; lia].
    + apply head_image_lists; [by apply length_head_image|simpl; lia|constructor].
Qed.
End image.

(** ** Running recovery *)

Section run.
Context {B : Type} {O : KOps B} {W : KLaws B}.
Implicit Types (s : lst B) (L : gset lockid).

Lemma clean_lblk L (b : bst B) n : quiet L [] b → dirty_idx b = [] → 0 ≤ n → lblk b n = disk b !! Z.to_nat n.
Proof.
  intros Q Hd Hn. eapply lblk_disk; [done| |done]. intros (i & x & Hi & Hx & _ & Hdx).
  apply (not_elem_of_nil i). rewrite <- Hd. apply elem_of_dirty_idx. eauto.
Qed.

Lemma recover_ok retries L s sb bs vs :
  quiet L [] (lbase s) → dirty_idx (lbase s) = [] → log_dev s = 1 → length (lh_block s) = Z.to_nat LOGSIZE →
  log_image (log_start s) (log_size s) sb (disk (lbase s)) bs vs →
  ∃ h l b', length h = BSIZE ∧ head_lists h [] ∧
    recover_from_log retries s = Ok tt (set_lbase b' (set_lh_block l (set_lh_n 0 s))) ∧
    length l = Z.to_nat LOGSIZE ∧ wrote L (lbase s) b' (zip bs vs ++ [(log_start s, h)]).
Proof.
  intros Q Hd Hdev Hlh I. destruct I as [I1 I2 I3 (h & Hh & Hlist) I5 I6 I7 I8 I9] eqn:HI.
  assert (log_image (log_start s) (log_size s) sb (disk (lbase s)) bs vs) as I' by exact I. clear HI I.
  assert (0 ≤ log_start s < Z.of_nat (length (disk (lbase s)))) as Hst by lia.
  assert (Forall (λ n, 0 ≤ n < 2 ^ 31) bs) as Hr by (eapply Forall_impl; [exact I9|]; cbn; intros n Hn; lia).
  assert (length bs ≤ 30)%nat as Hbs by (unfold LOGSIZE, MAXOPBLOCKS in *; lia).
  assert (length (dirty_idx (lbase s)) < NBUF)%nat as Hidx by (rewrite Hd; unfold NBUF; simpl; lia).
  destruct (read_head_ok retries L s h bs) as (b1 & R1 & W1); try done;
    [rewrite (clean_lblk L) by (done || lia); done|lia|].
  set (s1 := set_lbase b1 (set_lh_block (bs ++ drop (length bs) (lh_block s)) (set_lh_n (Z.of_nat (length bs)) s))) in *.
  assert (log_geo s1 bs) as G1.
  { assert (disk b1 = disk (lbase s)) as Hdk by apply W1. split; try done; cbn; rewrite ?Hdk; try lia.
    - rewrite length_app, length_drop. lia.
    - by rewrite take_app_length.
    - eapply Forall_impl; [exact I9|]. cbn. unfold in_log. tauto. }
  assert (dirty_idx b1 = []) as Hd1.
  { apply nil_length_inv. pose proof (wr_idx _ _ _ _ W1). rewrite Hd in *. simpl in *. lia. }
  destruct (install_trans_ok retries L s1 bs vs) as (b2 & R2 & W2); [done|apply W1|done| | | |].
  { intros i v Hv. cbn. rewrite (wr_lblk _ _ _ _ W1) by lia. cbn. rewrite (clean_lblk L) by (done || lia). by apply I5. }
  { apply Forall_forall. intros n _. right. change (lbase s1) with b1. rewrite Hd1. unfold NBUF. simpl. lia. }
  { change (lbase s1) with b1. rewrite Hd1. unfold NBUF. simpl. lia. }
  set (s2 := set_lh_n 0 (set_lbase b2 s1)).
  assert (disk b2 = apply_writes (zip bs vs) (disk b1)) as Hdk2 by apply W2.
  assert (disk b1 = disk (lbase s)) as Hdk1 by apply W1.
  assert (log_geo s2 []) as G2.
  { split; try done; cbn; rewrite ?Hdk2, ?length_apply_writes, ?Hdk1; try lia.
    - rewrite length_app, length_drop. lia.
    - constructor. }
  assert (lblk b2 (log_start s) = Some h) as Hh2.
  { rewrite (wr_lblk _ _ _ _ W2), (wr_lblk _ _ _ _ W1) by lia. cbn. rewrite (clean_lblk L) by (done || lia).
    rewrite after_ne, Hh; [done|]. rewrite fst_zip by lia. intros Hin. rewrite Forall_forall in I9.
    destruct (I9 _ Hin) as (_ & Hno & _). apply Hno. unfold in_log. lia. }
  destruct (write_head_ok retries L s2 [] h G2) as (b3 & R3 & W3); [apply W2|done| |].
  { change (lbase s2) with b2. pose proof (wr_idx _ _ _ _ W2) as Hi2. change (lbase s1) with b1 in Hi2. rewrite Hd1 in Hi2. simpl in Hi2. unfold NBUF. lia. }
  assert (length h = BSIZE) as Hhlen by eauto.
  exists (head_image h []), (bs ++ drop (length bs) (lh_block s)), b3. split_and!.
  - apply length_head_image; [done|simpl; lia].
  - apply head_image_lists; [done|simpl; lia|constructor].
  - unfold recover_from_log. rewrite (bind_ok _ _ _ _ _ R1), (bind_ok _ _ _ _ _ R2), (bind_ok _ _ _ _ _ (modify_ok _ _)).
    exact R3.
  - rewrite length_app, length_drop. lia.
  - apply (wrote_trans _ _ _ _ [] _ W1). eapply wrote_trans; [exact W2|exact W3].
Qed.

(** Only the state below the cache changes. *)
Lemma quiet_base L L' H (b : bst B) x :
  quiet L H b → k_ok L' x → Lbcache ∉ L' → Lptable ∉ L' → quiet L' H (set_bbase x b).
Proof.
  intros [(l & Q1) Q2 Q3 Q4 Q5 Q6] Hk H1 H2. split; try done. exists l. by apply bio_ok_base.
Qed.

Lemma readsb_ok retries L (b : bst B) d sb :
  quiet L [] b → dirty_idx b = [] → disk b !! 1%nat = Some d → superblock_of d = Some sb →
  ∃ b', readsb retries 1 b = Ok sb b' ∧ wrote L b b' [].
Proof.
  intros Q Hd Hdk Hsb. pose proof (lookup_lt_Some _ _ _ Hdk) as Hlt.
  destruct (bread_first retries L b 1 Q) as (i & c & d' & t & R & Rd);
    [lia|right; rewrite Hd; unfold NBUF; simpl; lia|].
  pose proof (rd_content _ _ _ _ _ _ _ _ Rd) as Hc. rewrite (clean_lblk L) in Hc by (done || lia).
  change (Z.to_nat 1) with 1%nat in Hc. rewrite Hdk in Hc. injection Hc as <-.
  destruct (held_get _ _ _ _ _ (rd_held _ _ _ _ _ _ _ _ Rd)) as (x & Hget & Hx & _).
  destruct (read_release _ _ _ _ _ _ _ Rd ltac:(lia)) as (c' & R' & Hw).
  exists c'. split; [|done]. unfold readsb. rewrite (bind_ok _ _ _ _ _ R), (bind_ok _ _ _ _ _ Hget), Hx, Hsb.
  rewrite (bind_ok _ _ _ _ _ (deref_some sb _)), (bind_ok _ _ _ _ _ R'). done.
Qed.

(** The kernel as it starts, with disk [D]. *)
Definition booted (x : B) (D : list block) : lst B :=
  Lst (Bst x bufs_init D []) 0 0 0 0 0 0 (replicate (Z.to_nat LOGSIZE) 0).

Lemma booted_quiet L x D :
  k_ok L x → Lbcache ∉ L → Lptable ∉ L → (∀ n d, D !! n = Some d → length d = BSIZE) →
  quiet L [] (lbase (booted x D)) ∧ dirty_idx (lbase (booted x D)) = [].
Proof.
  intros Hk H1 H2 HD.
  assert (∀ i b, (i < NBUF)%nat → bl (lbase (booted x D)) i = Some b → b_flags b = 0) as Hfl.
  { intros i b Hi Hb. unfold bl in Hb. cbn [lbase booted bufs] in Hb. unfold bufs_init in Hb.
    rewrite lookup_app_l, list_lookup_fmap, lookup_seq_lt in Hb by (rewrite ?length_fmap, ?length_seq; done).
    by injection Hb as <-. }
  split.
  - split; [eexists; by apply bufs_init_ok|done|done| |split; [constructor|set_solver]|].
    + intros i b Hi Hb. unfold flag. rewrite (Hfl i b Hi Hb). split; [done|by intros ?%not_elem_of_nil].
    + intros i b Hi Hb. unfold flag. by rewrite (Hfl i b Hi Hb).
  - destruct (dirty_idx (lbase (booted x D))) as [|i l] eqn:E; [done|]. exfalso.
    assert (i ∈ dirty_idx (lbase (booted x D))) as (Hi & b & Hb & Hd)%elem_of_dirty_idx by (rewrite E; left).
    unfold flag in Hd. by rewrite (Hfl i b Hi Hb) in Hd.
Qed.

Record recovered L (D : list block) start size s' (ws : list (Z * block)) : Prop := Recovered {
  rc_quiet : quiet L [] (lbase s');
  rc_clean : dirty_idx (lbase s') = [];
  rc_disk : disk (lbase s') = apply_writes ws D;
  rc_writes : writes (lbase s') = ws;
  rc_log : log_start s' = start ∧ log_size s' = size ∧ log_dev s' = 1 ∧ lh_n s' = 0 ∧
    log_outstanding s' = 0 ∧ log_committing s' = 0 ∧ length (lh_block s') = Z.to_nat LOGSIZE
}.

Lemma initlog_ok retries L x D start size sb bs vs :
  k_ok L x → Lbcache ∉ L → Lptable ∉ L → Llog ∉ L → log_image start size sb D bs vs →
  ∃ h s', length h = BSIZE ∧ head_lists h [] ∧ initlog retries 1 (booted x D) = Ok tt s' ∧
    recovered L D start size s' (zip bs vs ++ [(start, h)]).
Proof.
  intros Hk H1 H2 H3 I. destruct (booted_quiet L x D Hk H1 H2 (li_blocks _ _ _ _ _ _ I)) as [Q Hd].
  destruct (inner_initlock L Llog "log" (booted x D)) as (b1 & R1 & K1 & (x1 & -> & _) & _);
    [exact Hk|done|].
  set (b1 := put x1 (view (booted x D))) in *.
  assert (quiet L [] b1) as Q1 by (eapply quiet_base; done).
  assert (dirty_idx b1 = []) as Hd1 by done.
  destruct (li_sb _ _ _ _ _ _ I) as (d & Hdk & Hsb & Hstart & Hsize).
  destruct (readsb_ok retries L b1 d sb Q1 Hd1 Hdk Hsb) as (b2 & R2 & W2).
  set (s2 := set_log_dev 1 (set_log_size size (set_log_start start (set_lbase b2 (booted x D))))).
  assert (disk b2 = D) as Hdk2 by apply W2.
  assert (dirty_idx b2 = []) as Hd2.
  { apply nil_length_inv. pose proof (wr_idx _ _ _ _ W2) as Hi. rewrite Hd1 in Hi. simpl in Hi. lia. }
  destruct (recover_ok retries L s2 sb bs vs) as (h & l & b3 & Hlen & Hh & R3 & Hl & W3); try done;
    [apply W2|cbn; by rewrite Hdk2|].
  exists h, (set_lbase b3 (set_lh_block l (set_lh_n 0 s2))). split_and!; [done|done| |].
  - unfold initlog. rewrite (bind_ok (panic_if _ _) _ _ tt (booted x D)) by done.
    rewrite (bind_ok _ _ _ _ _ R1). change (u32 1) with 1.
    rewrite (bind_ok _ _ _ _ _ (inb_ok _ (set_lbase b1 (booted x D)) _ _ R2)). rewrite Hstart, Hsize.
    rewrite !(bind_ok _ _ _ _ _ (modify_ok _ _)). exact R3.
  - change (lbase s2) with b2 in W3. split.
    + apply W3.
    + apply nil_length_inv. pose proof (wr_idx _ _ _ _ W3) as Hi. rewrite Hd2 in Hi. simpl in Hi. cbn [lbase set_lbase]. lia.
    + cbn [lbase set_lbase]. rewrite (wr_disk _ _ _ _ W3). by rewrite Hdk2.
    + cbn [lbase set_lbase]. rewrite (wr_writes _ _ _ _ W3), (wr_writes _ _ _ _ W2). done.
    + done.
Qed.

(** ** Running a commit *)

Lemma geo_base s bs b : log_geo s bs → length (disk b) = length (disk (lbase s)) → log_geo (set_lbase b s) bs.
Proof. intros [] Hl. split; cbn; rewrite ?Hl; done. Qed.

Lemma geo_empty s bs : log_geo s bs → log_geo (set_lh_n 0 s) [].
Proof. intros []. split; cbn; try done; [lia|constructor]. Qed.

Lemma wrote_length L (b b' : bst B) ws : wrote L b b' ws → length (disk b') = length (disk b).
Proof. intros Hw. by rewrite (wr_disk _ _ _ _ Hw), length_apply_writes. Qed.

Lemma commit_ok retries L s bs vs h :
  log_geo s bs → quiet L [] (lbase s) → bs ≠ [] →
  Forall2 (λ n v, lblk (lbase s) n = Some v ∧ dirty (lbase s) n) bs vs →
  (length (dirty_idx (lbase s)) < NBUF)%nat → lblk (lbase s) (log_start s) = Some h →
  ∃ b', commit retries s = Ok tt (set_lbase b' (set_lh_n 0 s)) ∧
    wrote L (lbase s) b' (commit_writes (log_start s) h bs vs).
Proof.
  intros G Q Hne Hvs Hidx Hh. pose proof (Forall2_length _ _ _ Hvs) as Hlen.
  destruct G as [G1 G2 G3 G4 G5 G6 G7 G8 G9] eqn:HG. pose proof G as G'. clear HG G.
  destruct (write_log_ok retries L s bs vs G' Q Hvs Hidx) as (b1 & R1 & W1).
  set (s1 := set_lbase b1 s) in *. assert (log_geo s1 bs) as Gs1 by (eapply geo_base, wrote_length; done).
  assert (∀ m, m ∈ (log_writes (log_start s) vs).*1 → log_start s < m < log_start s + log_size s) as Hlw.
  { intros m Hm%log_writes_fst. lia. }
  destruct (write_head_ok retries L s1 bs h Gs1) as (b2 & R2 & W2); [apply W1| | |].
  { cbn. rewrite (wr_lblk _ _ _ _ W1), after_ne by (done || lia || (intros Hm%Hlw; lia)). done. }
  { change (lbase s1) with b1. pose proof (wr_idx _ _ _ _ W1). lia. }
  set (s2 := set_lbase b2 s1) in *. assert (log_geo s2 bs) as Gs2 by (eapply geo_base, wrote_length; done).
  pose proof (wrote_trans _ _ _ _ _ _ W1 W2) as W12. change (log_start s1) with (log_start s) in *.
  assert (∀ n, n ∈ bs → n ∉ (log_writes (log_start s) vs ++ [(log_start s, head_image h bs)]).*1) as Hhome.
  { intros n Hn. rewrite Forall_forall in G9. apply G9 in Hn as [_ Hn]. rewrite fmap_app, not_elem_of_app. split.
    - intros Hm%Hlw. lia.
    - intros Hm%list_elem_of_singleton. simpl in Hm. lia. }
  destruct (install_trans_ok retries L s2 bs vs Gs2) as (b3 & R3 & W3); [apply W2|lia| | | |].
  { intros i v Hi. change (lbase s2) with b2. change (log_start s2) with (log_start s). rewrite (wr_lblk _ _ _ _ W12), after_app by lia. cbn.
    rewrite decide_False by lia. apply after_in; [apply log_writes_nodup|].
    apply list_elem_of_lookup. exists i. by apply lookup_log_writes. }
  { apply Forall_forall. intros n Hn. left. change (lbase s2) with b2. apply (wr_dirty _ _ _ _ W12). split; [|by apply Hhome].
    apply list_elem_of_lookup in Hn as [i Hi]. by destruct (Forall2_lookup_l _ _ _ _ _ Hvs Hi) as (v & _ & _ & ?). }
  { change (lbase s2) with b2. pose proof (wr_idx _ _ _ _ W12). lia. }
  set (s3 := set_lbase b3 s2) in *. pose proof (wrote_trans _ _ _ _ _ _ W12 W3) as W13.
  assert (log_geo (set_lh_n 0 s3) []) as Gs3 by (eapply geo_empty, geo_base, wrote_length; done).
  destruct (write_head_ok retries L (set_lh_n 0 s3) [] (head_image h bs) Gs3) as (b4 & R4 & W4); [apply W3| | |].
  { change (lblk b3 (log_start s) = Some (head_image h bs)). rewrite (wr_lblk _ _ _ _ W13), !after_app by lia. cbn.
    rewrite decide_True by done. rewrite after_ne; [done|]. rewrite fst_zip by lia. intros Hin.
    rewrite Forall_forall in G9. apply G9 in Hin as [_ Hin]. lia. }
  { change (lbase (set_lh_n 0 s3)) with b3. pose proof (wr_idx _ _ _ _ W13). lia. }
  pose proof (wrote_trans _ _ _ _ _ _ W13 W4) as W14. exists b4. split.
  - unfold commit. rewrite (bind_ok _ _ _ _ _ (gets_ok lh_n s)), G5.
    assert (0 < length bs)%nat by (destruct bs; [done|simpl; lia]).
    rewrite (proj2 (Z.gtb_lt _ _)) by lia.
    rewrite (bind_ok _ _ _ _ _ R1), (bind_ok _ _ _ _ _ R2), (bind_ok _ _ _ _ _ R3), (bind_ok _ _ _ _ _ (modify_ok _ _)).
    exact R4.
  - unfold commit_writes. by rewrite <- !app_assoc in W14.
Qed.
End run.
