(* ===== verification/Txn.v ===== *)
(** * Transactions

    The log as a system call uses it ([begin_op], buffer updates passed to
    [log_write], [end_op]): every crash leaves all of the updates or none. *)
From S2P Require Import Prelude Spinlock Str Ptable PtableLists Sched Choice Scheduling Services Kalloc BioRing Bio BioFacts BioProps BufSpec DiskFmt Log LogFacts Crash.

(** ** Locks, seen from the log *)

Section locks.
Context {B : Type} {O : KOps B} {W : KLaws B}.
Implicit Types (s : lst B) (L : gset lockid) (x : B).

(** Only the state below the cache has changed. *)
Definition rebase x s : lst B := set_lbase (set_bbase x (lbase s)) s.

Lemma lst_acquire L lk s :
  k_ok L (bbase (lbase s)) → lk ∉ L →
  ∃ x, k_acquire lk s = Ok tt (rebase x s) ∧ k_ok ({[lk]} ∪ L) x ∧ k_keep (bbase (lbase s)) x.
Proof.
  intros HL Hlk. assert (k_ok (B:=bst B) L (view s)) as HL2 by exact HL.
  destruct (inner_acquire (B:=bst B) L lk s HL2 Hlk) as (b & R & K & (x & -> & F) & S1 & M1).
  exists x. split_and!; [exact R|exact K|]. split_and!; [exact F|exact S1|exact M1].
Qed.

Lemma lst_release L lk s :
  k_ok L (bbase (lbase s)) → lk ∈ L →
  ∃ x, k_release lk s = Ok tt (rebase x s) ∧ k_ok (L ∖ {[lk]}) x ∧ k_keep (bbase (lbase s)) x.
Proof.
  intros HL Hlk. assert (k_ok (B:=bst B) L (view s)) as HL2 by exact HL.
  destruct (inner_release (B:=bst B) L lk s HL2 Hlk) as (b & R & K & (x & -> & F) & S1 & M1).
  exists x. split_and!; [exact R|exact K|]. split_and!; [exact F|exact S1|exact M1].
Qed.

Lemma lst_wakeup L c s :
  k_ok L (bbase (lbase s)) → Lptable ∉ L →
  ∃ x, k_wakeup c s = Ok tt (rebase x s) ∧ k_ok L x ∧ k_keep (bbase (lbase s)) x.
Proof.
  intros HL Hlk. assert (k_ok (B:=bst B) L (view s)) as HL2 by exact HL.
  destruct (inner_wakeup (B:=bst B) L c s HL2 Hlk) as (b & R & K & (x & -> & F) & S1 & M1).
  exists x. split_and!; [exact R|exact K|]. split_and!; [exact F|exact S1|exact M1].
Qed.
End locks.

(** ** log_write *)

Section log_write.
Context {B : Type} {O : KOps B} {W : KLaws B}.
Implicit Types (s : lst B) (L : gset lockid) (x : B) (bs : list Z).

Lemma find_logged_ok s bs n :
  lh_n s = Z.of_nat (length bs) → take (length bs) (lh_block s) = bs → (length bs ≤ 30)%nat →
  Forall (λ m, 0 ≤ m < 2 ^ 31) bs →
  ∃ j, find_logged n s = Ok (Z.of_nat j) s ∧
    ((bs !! j = Some n) ∨ (j = length bs ∧ n ∉ bs)).
Proof.
  intros Hn Hb Hl Hr. unfold find_logged.
  assert (∀ fuel k, (length bs - k < fuel)%nat → (k ≤ length bs)%nat → n ∉ take k bs →
    ∃ j, while fuel (λ i, n0 ← gets lh_n; if i <? n0 then w ← get_lh_block i; if u32 w =? n then mret (inr i) else mret (inl (i + 1)) else mret (inr i))
      (Z.of_nat k) s = Ok (Z.of_nat j) s ∧ (bs !! j = Some n ∨ (j = length bs ∧ n ∉ bs))) as Hw.
  { induction fuel as [|fuel IH]; intros k Hf Hk Hni; [lia|].
    destruct (decide (k = length bs)) as [->|Hne].
    - exists (length bs). rewrite (while_ok _ _ _ _ (inr (Z.of_nat (length bs))) s).
      + split; [done|]. right. by rewrite take_ge in Hni.
      + rewrite (bind_ok _ _ _ _ _ (gets_ok lh_n s)), Hn. by rewrite (proj2 (Z.ltb_ge _ _)) by lia.
    - destruct (lookup_lt_is_Some_2 bs k) as [m Hm]; [lia|].
      pose proof (Forall_lookup_1 _ _ _ _ Hr Hm) as Hmr. cbn in Hmr.
      assert ((n0 ← gets lh_n; if Z.of_nat k <? n0 then w ← get_lh_block (Z.of_nat k); if u32 w =? n then mret (inr (Z.of_nat k)) else mret (inl (Z.of_nat k + 1)) else mret (inr (Z.of_nat k))) s =
        Ok (if m =? n then inr (Z.of_nat k) else inl (Z.of_nat k + 1)) s) as Hs.
      { rewrite (bind_ok _ _ _ _ _ (gets_ok lh_n s)), Hn, (proj2 (Z.ltb_lt _ _)) by lia.
        rewrite (bind_ok _ _ _ _ _ (get_lh_block_ok s bs k m Hb Hm)), u32_small by lia. by destruct (m =? n). }
      rewrite (while_ok _ _ _ _ _ _ Hs). destruct (Z.eqb_spec m n) as [->|Hmn].
      + exists k. split; [done|]. by left.
      + replace (Z.of_nat k + 1) with (Z.of_nat (S k)) by lia. apply IH; [lia|lia|].
        rewrite (take_S_r _ _ _ Hm), not_elem_of_app. split; [done|]. intros ->%list_elem_of_singleton. done. }
  apply (Hw log_fuel 0%nat); [unfold log_fuel; lia|lia|]. simpl. apply not_elem_of_nil.
Qed.

(** The header's list with [n] recorded. *)
Definition record bs (n : Z) : list Z := if decide (n ∈ bs) then bs else bs ++ [n].

Lemma elem_of_record bs n m : m ∈ record bs n ↔ m ∈ bs ∨ m = n.
Proof. unfold record. case_decide; set_solver. Qed.

Lemma length_record bs n : (length (record bs n) ≤ S (length bs))%nat.
Proof. unfold record. case_decide; [lia|]. rewrite length_app. simpl. lia. Qed.

Lemma record_geo s bs n b l :
  log_geo s bs → lh_block s = l → Z.of_nat (length bs) < LOGSIZE → Z.of_nat (length bs) < log_size s - 1 →
  0 ≤ n < Z.of_nat (length (disk (lbase s))) → ¬ (log_start s ≤ n < log_start s + log_size s) →
  length (disk b) = length (disk (lbase s)) →
  ∀ j, (bs !! j = Some n ∨ (j = length bs ∧ n ∉ bs)) →
  log_geo (set_lbase b (set_lh_n (if decide (n ∈ bs) then lh_n s else lh_n s + 1) (set_lh_block (<[j := n]> l) s)))
    (record bs n).
Proof.
  intros [G1 G2 G3 G4 G5 G6 G7 G8 G9] <- H1 H2 Hn Ho Hl j Hj. unfold record.
  destruct Hj as [Hj|[-> Hni]].
  - assert (n ∈ bs) as Hin by (apply list_elem_of_lookup; eauto). rewrite !decide_True by done.
    rewrite list_insert_id by (rewrite <- G6 in Hj; by apply lookup_take_Some in Hj as [? _]).
    split; cbn; rewrite ?Hl; done.
  - rewrite !decide_False by done. assert (length bs < length (lh_block s))%nat by (rewrite G4; unfold LOGSIZE, MAXOPBLOCKS in *; lia).
    split; cbn; rewrite ?Hl, ?length_insert, ?length_app; try done; try (simpl; lia).
    + replace (length bs + length [n])%nat with (S (length bs)) by (simpl; lia).
      rewrite (take_S_r _ _ n) by (by apply list_lookup_insert_eq). f_equal.
      rewrite take_insert_ge by lia. done.
    + apply NoDup_app. split_and!; [done|set_solver|apply NoDup_singleton].
    + apply Forall_app. split; [done|]. by apply Forall_singleton.
Qed.

Lemma quiet_rebase L L' H s x :
  quiet L H (lbase s) → k_ok L' x → Lbcache ∉ L' → Lptable ∉ L' → quiet L' H (lbase (rebase x s)).
Proof. intros. by eapply quiet_base. Qed.

(** The state after [log_write] of buffer [i], which holds block [n]. *)
Record logged L s bs i n d (t : bool) s' : Prop := Logged {
  ld_geo : log_geo s' (record bs n);
  ld_quiet : quiet L [i] (lbase s');
  ld_held : held (lbase s') i n d true;
  ld_disk : disk (lbase s') = disk (lbase s);
  ld_writes : writes (lbase s') = writes (lbase s);
  ld_dirty : ∀ m, dirty (lbase s') m ↔ dirty (lbase s) m ∨ m = n;
  ld_lblk : ∀ m, lblk (lbase s') m = lblk (lbase s) m;
  ld_idx : (length (dirty_idx (lbase s')) ≤ length (dirty_idx (lbase s)) + (if t then 0 else 1))%nat;
  ld_log : log_start s' = log_start s ∧ log_size s' = log_size s ∧
    log_outstanding s' = log_outstanding s ∧ log_committing s' = log_committing s
}.

Lemma log_write_ok L s bs i n d t :
  log_geo s bs → quiet L [i] (lbase s) → held (lbase s) i n d t → Llog ∉ L →
  Z.of_nat (length bs) < LOGSIZE → Z.of_nat (length bs) < log_size s - 1 → 1 ≤ log_outstanding s →
  0 ≤ n < Z.of_nat (length (disk (lbase s))) → ¬ (log_start s ≤ n < log_start s + log_size s) →
  ∃ s', log_write i s = Ok tt s' ∧ logged L s bs i n d t s'.
Proof.
  intros G Q Hh HL H1 H2 Ho Hn Hlog. destruct (q_L _ _ _ Q) as [HLb HLp].
  destruct (lst_acquire L Llog s (q_k _ _ _ Q) HL) as (x1 & R1 & K1 & _). set (s1 := rebase x1 s) in *.
  assert (quiet ({[Llog]} ∪ L) [i] (lbase s1)) as Q1 by (apply (quiet_rebase L _ _ s x1); [done|done|set_solver|set_solver]).
  assert (held (lbase s1) i n d t) as Hh1 by exact Hh.
  destruct (held_get _ _ _ _ _ Hh1) as (b & Hget & _ & Hbn).
  assert (length bs ≤ 30)%nat as Hlen by (unfold LOGSIZE, MAXOPBLOCKS in *; lia).
  assert (Forall (λ m, 0 ≤ m < 2 ^ 31) bs) as Hr.
  { eapply Forall_impl; [apply (lg_home _ _ G)|]. cbn. intros m Hm. pose proof (lg_size _ _ G). lia. }
  destruct (find_logged_ok s1 bs n (lg_n _ _ G) (lg_blocks _ _ G) Hlen Hr) as (j & Rf & Hj).
  assert (i32 n = n) as Hi32 by (apply i32_small; pose proof (lg_size _ _ G); lia).
  assert (j < length (lh_block s1))%nat as Hjl.
  { change (lh_block s1) with (lh_block s). rewrite (lg_lhlen _ _ G). destruct Hj as [Hj|[-> _]].
    - apply lookup_lt_Some in Hj. unfold LOGSIZE, MAXOPBLOCKS in *. lia.
    - unfold LOGSIZE, MAXOPBLOCKS in *. lia. }
  pose proof (put_lh_block_ok s1 j n Hjl) as Rp. set (s2 := set_lh_block (<[j:=n]> (lh_block s1)) s1) in *.
  set (s3 := set_lh_n (if decide (n ∈ bs) then lh_n s else lh_n s + 1) s2).
  assert ((if Z.of_nat j =? lh_n s2 then modify (set_lh_n (lh_n s2 + 1)) else mret tt) s2 = Ok tt s3) as Rn.
  { change (lh_n s2) with (lh_n s). pose proof (lg_n _ _ G) as Hln. unfold s3. destruct Hj as [Hj|[-> Hni]].
    - assert (n ∈ bs) by (apply list_elem_of_lookup; eauto). rewrite decide_True by done. apply lookup_lt_Some in Hj.
      rewrite (proj2 (Z.eqb_neq _ _)) by lia. by destruct s.
    - rewrite decide_False by done. by rewrite (proj2 (Z.eqb_eq _ _)) by lia. }
  destruct (setdirty_q ({[Llog]} ∪ L) [i] (lbase s3) i n d t Q1 Hh1)
    as (b4 & R4 & [Q4 O4 B4] & Hh4 & D4 & W4 & Y4 & L4 & X4).
  set (s4 := set_lbase b4 s3).
  destruct (lst_release ({[Llog]} ∪ L) Llog s4) as (x5 & R5 & K5 & _); [apply Q4|set_solver|].
  rewrite diff_union_lock in K5 by done.
  exists (rebase x5 s4). split.
  - unfold log_write. rewrite (bind_ok get _ s s s) by done.
    rewrite (bind_ok (panic_if _ _) _ s tt s).
    2: { rewrite (lg_n _ _ G). by rewrite !Z.geb_leb, !(proj2 (Z.leb_gt _ _)) by lia. }
    rewrite (bind_ok (panic_if _ _) _ s tt s) by (by rewrite (proj2 (Z.ltb_ge _ _)) by lia).
    rewrite (bind_ok _ _ _ _ _ R1), (bind_ok _ _ _ _ _ (inb_ok _ s1 _ _ Hget)), Hbn.
    change (set_lbase (lbase s1) s1) with s1. rewrite (bind_ok _ _ _ _ _ Rf), Hi32, (bind_ok _ _ _ _ _ Rp).
    rewrite (bind_ok _ _ _ _ _ (gets_ok lh_n s2)), (bind_ok _ _ _ _ _ Rn).
    rewrite (bind_ok _ _ _ _ _ (inb_ok _ s3 _ _ R4)). exact R5.
  - split; try done.
    + apply (record_geo s bs n (set_bbase x5 b4) (lh_block s)); try done. cbn. by rewrite D4.
    + by eapply quiet_rebase.
Qed.
End log_write.

(** ** A transaction *)

Section txn.
Context {B : Type} {O : KOps B} {W : KLaws B}.
Implicit Types (s : lst B) (L : gset lockid) (us : list (Z * block)) (bs : list Z).

(** The use of [log_write] that log.c describes: read a block, modify its data,
    log it, release it. *)
Definition update (retries : nat) (n : Z) (d : block) : K (lst B) unit :=
  bp ← inb (bread retries 1 n);
  inb (setb bp (set_b_data d));;
  log_write bp;;
  inb (brelse bp).

Definition op (retries : nat) us : K (lst B) unit :=
  begin_op retries;;
  for_each us (λ w, update retries w.1 w.2);;
  end_op retries.

(** In a transaction: the updates [us] are in the cache, the header lists their
    blocks, and the disk is still [D]. *)
Record txn L (s0 : lst B) (D : list block) us s bs : Prop := Txn {
  tx_geo : log_geo s bs;
  tx_quiet : quiet L [] (lbase s);
  tx_disk : disk (lbase s) = D;
  tx_writes : writes (lbase s) = writes (lbase s0);
  tx_dirty : ∀ n, dirty (lbase s) n ↔ n ∈ bs;
  tx_idx : (length (dirty_idx (lbase s)) ≤ length bs)%nat;
  tx_bs : ∀ n, n ∈ bs ↔ n ∈ us.*1;
  tx_lblk : ∀ n, 0 ≤ n → lblk (lbase s) n = after us n (D !! Z.to_nat n);
  tx_log : log_start s = log_start s0 ∧ log_size s = log_size s0 ∧ log_outstanding s = log_outstanding s0 ∧
    log_committing s = log_committing s0
}.

Lemma after_snoc us n d m o : after (us ++ [(n, d)]) m o = if decide (m = n) then Some d else after us m o.
Proof. by rewrite after_app. Qed.

Lemma update_ok retries L s0 D us s bs n d :
  txn L s0 D us s bs → Llog ∉ L → length d = BSIZE → 1 ≤ log_outstanding s0 →
  Z.of_nat (length bs) < LOGSIZE → Z.of_nat (length bs) < log_size s0 - 1 →
  0 ≤ n < Z.of_nat (length D) → ¬ (log_start s0 ≤ n < log_start s0 + log_size s0) →
  ∃ s', update retries n d s = Ok tt s' ∧ txn L s0 D (us ++ [(n, d)]) s' (record bs n).
Proof.
  intros [T1 T2 T3 T4 T5 T6 T7 T8 (T9 & T10 & T11 & T12)] HL Hd Ho H1 H2 Hn Hlog.
  assert (0 ≤ n < Z.of_nat (length (disk (lbase s)))) as Hn' by by rewrite T3.
  destruct (bread_first retries L (lbase s) n T2 Hn') as (i & c1 & d0 & t & R1 & Rd).
  { right. unfold LOGSIZE, MAXOPBLOCKS, NBUF in *. lia. }
  destruct (edit_data L (lbase s) c1 i n d0 t d (edit_start _ _ _ _ _ _ _ Rd) Hd) as (c2 & R2 & [E1 E2 E3 E4 E5 E6 E7 E8]).
  set (s2 := set_lbase c2 s).
  assert (log_geo s2 bs) as G2 by (apply geo_base; [done|by rewrite E3]).
  destruct (log_write_ok L s2 bs i n d t) as (s3 & R3 & [L1 L2 L3 L4 L5 L6 L7 L8 (L9 & L10 & L11 & L12)]); try done;
    [cbn; lia|cbn; lia|cbn; by rewrite E3|cbn; lia|].
  change (lbase s2) with c2 in *.
  destruct (brelse_q L [] [] (lbase s3) i n d true L2 L3) as (c4 & R4 & Q4 & O4 & D4 & W4 & K4 & X4 & Y4 & Z4); [lia|done|].
  exists (set_lbase c4 s3). split.
  { unfold update. rewrite (bind_ok _ _ _ _ _ (inb_ok _ s _ _ R1)), (bind_ok _ _ _ _ _ (inb_ok _ (set_lbase c1 s) _ _ R2)).
    rewrite (bind_ok _ _ _ _ _ R3). exact (inb_ok _ s3 _ _ R4). }
  pose proof (rd_t _ _ _ _ _ _ _ _ Rd) as Ht.
  split; cbn [lbase set_lbase].
  - apply geo_base; [done|]. by rewrite D4.
  - done.
  - by rewrite D4, L4, E3.
  - by rewrite W4, L5, E4.
  - intros m. rewrite Y4, L6, E7, T5, elem_of_record. done.
  - rewrite X4. rewrite E6 in L8. unfold record. case_decide as Hin.
    + assert (t = true) as -> by (apply Ht, T5; done). lia.
    + rewrite length_app. simpl. destruct t; lia.
  - intros m. rewrite elem_of_record, T7, fmap_app. set_solver.
  - intros m Hm. rewrite Z4, L7, after_snoc. case_decide as Hmn; [|rewrite E5 by done; by apply T8].
    subst m. destruct (q_bio _ _ _ E1) as [l Hok]. by eapply held_lblk.
  - change (log_start s2) with (log_start s) in L9. change (log_size s2) with (log_size s) in L10.
    change (log_outstanding s2) with (log_outstanding s) in L11. change (log_committing s2) with (log_committing s) in L12.
    cbn. split_and!; congruence.
Qed.

(** What an operation may write: data blocks outside the log area. *)
Definition valid_update start size (D : list block) (w : Z * block) : Prop :=
  0 ≤ w.1 < Z.of_nat (length D) ∧ ¬ in_log start size w.1 ∧ w.1 ≠ 1 ∧ length w.2 = BSIZE.

Lemma updates_ok retries L s0 D us s bs us' :
  txn L s0 D us s bs → Llog ∉ L → 1 ≤ log_outstanding s0 →
  Z.of_nat (length bs + length us') ≤ LOGSIZE → Z.of_nat (length bs + length us') < log_size s0 →
  Forall (valid_update (log_start s0) (log_size s0) D) us' →
  ∃ s' bs', for_each us' (λ w, update retries w.1 w.2) s = Ok tt s' ∧ txn L s0 D (us ++ us') s' bs' ∧
    (length bs' ≤ length bs + length us')%nat.
Proof.
  intros T HL Ho. revert us s bs T. induction us' as [|[n d] us' IH]; intros us s bs T H1 H2 Hv.
  - exists s, bs. rewrite app_nil_r. split_and!; [done|done|lia].
  - apply Forall_cons in Hv as [(V1 & V2 & V3 & V4) Hv]. cbn [length fst snd] in *.
    destruct (update_ok retries L s0 D us s bs n d) as (s1 & R1 & T1); try done; [lia|lia|].
    pose proof (length_record bs n) as Hr.
    destruct (IH _ s1 _ T1) as (s2 & bs2 & R2 & T2 & Hl); [lia|lia|done|].
    exists s2, bs2. rewrite <- app_assoc in T2. split_and!; [|done|lia].
    cbn [for_each fst snd]. rewrite (bind_ok _ _ _ _ _ R1). exact R2.
Qed.
End txn.

(** ** Crash and recovery *)

Section recovery.
Context {B : Type} {O : KOps B} {W : KLaws B}.
Implicit Types (s : lst B) (L : gset lockid).

(** No operation in progress, nothing in the log. *)
Record idle L sb s : Prop := Idle {
  id_geo : log_geo s [];
  id_quiet : quiet L [] (lbase s);
  id_clean : dirty_idx (lbase s) = [];
  id_image : log_image (log_start s) (log_size s) sb (disk (lbase s)) [] [];
  id_out : log_outstanding s = 0;
  id_com : log_committing s = 0
}.

(** The locks free for the file system's use. *)
Definition fs_free L : Prop := Lbcache ∉ L ∧ Lptable ∉ L ∧ Llog ∉ L.

(** The kernel starts on disk [D], and crashes during [initlog] (or after it),
    leaving [D']. *)
Definition crashed retries L (D D' : list block) : Prop :=
  ∃ x s' k, k_ok L x ∧ initlog retries 1 (booted x D) = Ok tt s' ∧
    D' = apply_writes (take k (writes (lbase s'))) D.

Lemma intact_recovers retries L start size sb D T x :
  fs_free L → intact start size sb D T → k_ok L x →
  ∃ s', initlog retries 1 (booted x D) = Ok tt s' ∧ idle L sb s' ∧
    (∀ k, intact start size sb (apply_writes (take k (writes (lbase s'))) D) T) ∧
    ∀ n, 0 ≤ n → ¬ in_log start size n → disk (lbase s') !! Z.to_nat n = T !! Z.to_nat n.
Proof.
  intros (H1 & H2 & H3) (bs & vs & I & HT & Hmean) Hx.
  destruct (initlog_ok retries L x D start size sb bs vs Hx H1 H2 H3 I) as (h & s' & Hlen & Hh & R & [C1 C2 C3 C4 (C5 & C6 & C7 & C8 & C9 & C10 & C11)]).
  pose proof (li_geo _ _ _ _ _ _ I) as Hgeo. pose proof (li_fits _ _ _ _ _ _ I) as Hfits.
  assert (log_image start size sb (disk (lbase s')) [] []) as I'.
  { rewrite C3, apply_writes_app. cbn. eapply log_image_clear; [|done|done].
    eapply log_image_home; [done|]. apply (image_data _ _ _ _ _ _ I). }
  exists s'. split_and!; [done| |intros k; rewrite C4; by apply recovery_prefix|].
  - split; try done; [|by rewrite C5, C6]. split; try done; cbn.
    + lia.
    + rewrite C5, C6. apply (li_geo _ _ _ _ _ _ I').
    + lia.
    + constructor.
  - intros n Hn Ho. rewrite C3, apply_writes_app. cbn. rewrite list_lookup_insert_ne; [by apply Hmean|].
    apply (outside_start start size); try done; lia.
Qed.

Lemma crashes_intact retries L start size sb D D' T :
  fs_free L → rtc (crashed retries L) D D' → intact start size sb D T → intact start size sb D' T.
Proof.
  intros HL Hc. induction Hc as [|D1 D2 D3 (x & s' & k & Hx & R & ->) _ IH]; [done|]. intros I.
  apply IH. destruct (intact_recovers retries L start size sb D1 T x HL I Hx) as (s2 & R2 & _ & Hk & _).
  rewrite R in R2. injection R2 as ->. apply Hk.
Qed.
End recovery.

(** ** Operations *)

Section ops.
Context {B : Type} {O : KOps B} {W : KLaws B}.
Implicit Types (s : lst B) (L : gset lockid) (us : list (Z * block)).

Lemma begin_op_ok retries L s :
  k_ok L (bbase (lbase s)) → Llog ∉ L → log_committing s = 0 →
  lh_n s + (log_outstanding s + 1) * MAXOPBLOCKS ≤ LOGSIZE →
  ∃ x, begin_op retries s = Ok tt (rebase x (set_log_outstanding (log_outstanding s + 1) s)) ∧ k_ok L x.
Proof.
  intros HL Hlk Hc Hroom. destruct (lst_acquire L Llog s HL Hlk) as (x1 & R1 & K1 & _).
  set (s2 := set_log_outstanding (log_outstanding s + 1) (rebase x1 s)).
  destruct (lst_release ({[Llog]} ∪ L) Llog s2) as (x2 & R2 & K2 & _); [done|set_solver|].
  rewrite diff_union_lock in K2 by done. exists x2. split; [|done].
  unfold begin_op. rewrite (bind_ok _ _ _ _ _ R1).
  rewrite (bind_ok (while _ _ _) _ _ 0%nat (rebase x2 s2)); [done|].
  rewrite (while_ok _ _ _ _ (inr 0%nat) (rebase x2 s2)); [done|]. unfold begin_try.
  rewrite (bind_ok get _ _ (rebase x1 s) (rebase x1 s)) by done. cbn [log_committing log_outstanding lh_n rebase set_lbase].
  rewrite Hc. cbn [negb Z.eqb]. rewrite Z.gtb_ltb, (proj2 (Z.ltb_ge _ _)) by lia.
  rewrite (bind_ok _ _ _ _ _ (modify_ok _ _)). by rewrite (bind_ok _ _ _ _ _ R2).
Qed.

Lemma set_lh_n_id s : lh_n s = 0 → set_lbase (lbase s) (set_lh_n 0 s) = s.
Proof. destruct s. cbn. by intros ->. Qed.

(** [commit], also when nothing has been logged. *)
Definition commit_ws start h (bs : list Z) (vs : list block) : list (Z * block) :=
  if decide (bs = []) then [] else commit_writes start h bs vs.

Lemma commit_any retries L s bs vs h :
  log_geo s bs → quiet L [] (lbase s) →
  Forall2 (λ n v, lblk (lbase s) n = Some v ∧ dirty (lbase s) n) bs vs →
  (length (dirty_idx (lbase s)) < NBUF)%nat → lblk (lbase s) (log_start s) = Some h →
  ∃ b', commit retries s = Ok tt (set_lbase b' (set_lh_n 0 s)) ∧ wrote L (lbase s) b' (commit_ws (log_start s) h bs vs).
Proof.
  intros G Q Hvs Hi Hh. unfold commit_ws. case_decide as Hbs; [|by apply commit_ok].
  subst. exists (lbase s). split; [|by apply wrote_nil]. unfold commit.
  by rewrite (bind_ok _ _ _ _ _ (gets_ok lh_n s)), (set_lh_n_id s), (lg_n _ _ G) by apply (lg_n _ _ G).
Qed.

Lemma end_op_ok retries L s bs vs h :
  log_geo s bs → quiet L [] (lbase s) → Llog ∉ L → log_outstanding s = 1 → log_committing s = 0 →
  Forall2 (λ n v, lblk (lbase s) n = Some v ∧ dirty (lbase s) n) bs vs →
  (length (dirty_idx (lbase s)) < NBUF)%nat → lblk (lbase s) (log_start s) = Some h →
  ∃ b', end_op retries s = Ok tt (set_lbase b' (set_log_committing 0 (set_log_outstanding 0 (set_lh_n 0 s)))) ∧
    wrote L (lbase s) b' (commit_ws (log_start s) h bs vs).
Proof.
  intros G Q Hlk Ho Hc Hvs Hi Hh. destruct (q_L _ _ _ Q) as [HLb HLp].
  destruct (lst_acquire L Llog s (q_k _ _ _ Q) Hlk) as (x1 & R1 & K1 & F1).
  set (s2 := set_log_committing 1 (set_log_outstanding 0 (rebase x1 s))).
  destruct (lst_release ({[Llog]} ∪ L) Llog s2) as (x3 & R3 & K3 & F3); [done|set_solver|].
  rewrite diff_union_lock in K3 by done. set (s3 := rebase x3 s2) in *.
  assert (log_geo s3 bs) as G3 by (by destruct G).
  assert (quiet L [] (lbase s3)) as Q3 by by eapply (quiet_rebase L L [] s x3).
  destruct (commit_any retries L s3 bs vs h G3 Q3 Hvs Hi Hh) as (b4 & R4 & W4).
  set (s4 := set_lbase b4 (set_lh_n 0 s3)) in *.
  destruct (lst_acquire L Llog s4) as (x5 & R5 & K5 & F5); [apply W4|done|].
  set (s5 := set_log_committing 0 (rebase x5 s4)).
  destruct (lst_wakeup ({[Llog]} ∪ L) ChLog s5) as (x6 & R6 & K6 & F6); [done|set_solver|].
  set (s6 := rebase x6 s5) in *.
  destruct (lst_release ({[Llog]} ∪ L) Llog s6) as (x7 & R7 & K7 & F7); [done|set_solver|].
  rewrite diff_union_lock in K7 by done.
  exists (set_bbase x7 b4). split.
  - unfold end_op. rewrite (bind_ok _ _ _ _ _ R1), (bind_ok _ _ _ _ _ (modify_ok _ _)), (bind_ok _ _ _ _ _ (gets_ok _ _)).
    cbn [log_committing rebase set_lbase set_log_outstanding]. rewrite Hc.
    rewrite (bind_ok (panic_if _ _) _ _ tt (set_log_outstanding (log_outstanding s - 1) (rebase x1 s))) by done.
    rewrite (bind_ok _ _ _ _ _ (gets_ok _ _)). cbn [log_outstanding set_log_outstanding]. rewrite Ho. change (1 - 1) with 0. cbn [Z.eqb].
    rewrite (bind_ok _ _ _ _ _ (modify_ok _ _)), (bind_ok _ _ _ _ _ R3), (bind_ok _ _ _ _ _ R4), (bind_ok _ _ _ _ _ R5).
    rewrite (bind_ok _ _ _ _ _ (modify_ok _ _)), (bind_ok _ _ _ _ _ R6). exact R7.
  - destruct W4 as [A1 A2 A3 A4 A5 A6 A7]. split; try done.
    + by eapply quiet_base.
    + etrans; [exact F1|]. etrans; [exact F3|]. etrans; [exact A7|]. etrans; [exact F5|]. by etrans; [exact F6|].
Qed.
End ops.
