(* ===== verification/LogProps.v ===== *)
(** * Properties of the log

    A transaction is atomic with respect to crashes, also when recovery itself
    is interrupted; recovery leaves an idle log; the reservation made by
    [begin_op] keeps a transaction within the log. *)
From S2P Require Import Prelude Spinlock Str Ptable PtableLists Sched Choice Scheduling Services Kalloc BioRing Bio BioFacts BioProps BufSpec DiskFmt Log LogFacts Crash Txn.

Section atomic.
Context {B : Type} {O : KOps B} {W : KLaws B}.
Implicit Types (s : lst B) (L : gset lockid) (us : list (Z * block)).

Lemma after_some us n o : n ∈ us.*1 → ∃ v, after us n o = Some v.
Proof.
  revert o. induction us as [|[m v] us IH]; intros o Hn; [by apply not_elem_of_nil in Hn|].
  rewrite after_cons. cbn in *. destruct (decide (n ∈ us.*1)) as [Hin|Hni]; [by apply IH|].
  apply elem_of_cons in Hn as [->|Hn]; [|done]. exists v. rewrite decide_True by done. by apply after_ne.
Qed.

(** The end of a commit: the log is empty again. *)
Lemma commit_done start size sb D bs vs h :
  can_commit start size sb D bs vs h → log_image start size sb (apply_writes (commit_ws start h bs vs) D) [] [].
Proof.
  intros [I Hh Hlen [Hf1 Hf2] Hnd Hhome Hvs]. unfold commit_ws. case_decide; [done|].
  destruct (commit_logged start size sb D bs vs h I Hh Hlen Hf1 Hf2 Hnd Hhome Hvs) as [I2 _].
  assert (length h = BSIZE) as Hhl by by eapply (li_blocks _ _ _ _ _ _ I).
  assert (length bs ≤ 30)%nat as Hb by (unfold LOGSIZE, MAXOPBLOCKS in *; lia).
  unfold commit_writes. rewrite apply_writes_app, apply_writes_cons, apply_writes_app. cbn [apply_writes foldl].
  eapply log_image_clear.
  - eapply log_image_home; [exact I2|]. apply (image_data _ _ _ _ _ _ I2).
  - apply length_head_image; [by apply length_head_image|simpl; lia].
  - apply head_image_lists; [by apply length_head_image|simpl; lia|constructor].
Qed.

(** The contents a transaction ends with. *)
Lemma txn_values L sb s0 D us s bs :
  txn L s0 D us s bs → log_image (log_start s0) (log_size s0) sb D [] [] →
  Forall (valid_update (log_start s0) (log_size s0) D) us → Z.of_nat (length bs) < log_size s0 → Z.of_nat (length bs) ≤ LOGSIZE →
  ∃ vs h, Forall2 (λ n v, lblk (lbase s) n = Some v ∧ dirty (lbase s) n) bs vs ∧
    can_commit (log_start s0) (log_size s0) sb D bs vs h ∧ lblk (lbase s) (log_start s) = Some h ∧
    ∀ n, 0 ≤ n → apply_writes (zip bs vs) D !! Z.to_nat n = apply_writes us D !! Z.to_nat n.
Proof.
  intros [T1 T2 T3 T4 T5 T6 T7 T8 (T9 & T10 & T11 & T12)] I Hus Hsz Hls. rewrite Forall_forall in Hus.
  assert (∀ n, n ∈ bs → 0 ≤ n < Z.of_nat (length D) ∧ ¬ in_log (log_start s0) (log_size s0) n ∧ n ≠ 1) as Hv.
  { intros n Hn%T7. apply list_elem_of_fmap in Hn as (w & -> & Hw). destruct (Hus w Hw) as (? & ? & ? & _). done. }
  set (vs := (λ n, default ([] : block) (lblk (lbase s) n)) <$> bs : list block).
  assert (∀ n, n ∈ bs → lblk (lbase s) n = Some (default ([] : block) (lblk (lbase s) n))) as Hsome.
  { intros n Hn. destruct (Hv n Hn) as [Hr _]. rewrite T8 by lia.
    destruct (after_some us n (D !! Z.to_nat n)) as [v ->]; [by apply T7|done]. }
  destruct (li_head _ _ _ _ _ _ I) as (h & Hh & _). pose proof (li_geo _ _ _ _ _ _ I) as Hgeo.
  assert (length vs = length bs) as Hlen by (unfold vs; by rewrite length_fmap).
  assert (∀ n v, (n, v) ∈ zip bs vs → n ∈ bs ∧ lblk (lbase s) n = Some v) as Hzip.
  { intros n v [i Hi]%list_elem_of_lookup. apply lookup_zip_with_Some in Hi as (n' & v' & [= <- <-] & Hn & Hvi).
    unfold vs in Hvi. rewrite list_lookup_fmap, Hn in Hvi. injection Hvi as <-.
    assert (n ∈ bs) by (apply list_elem_of_lookup; eauto). split; [done|by apply Hsome]. }
  exists vs, h. split_and!.
  - apply Forall2_lookup. intros i. unfold vs. rewrite list_lookup_fmap. destruct (bs !! i) as [n|] eqn:E; [|constructor].
    assert (n ∈ bs) as Hn by (apply list_elem_of_lookup; eauto). constructor. split; [by apply Hsome|by apply T5].
  - split; try done; [apply (lg_nodup _ _ T1)|by apply Forall_forall|]. apply Forall_forall. intros v Hvin.
    apply list_elem_of_fmap in Hvin as (n & -> & Hn). destruct (Hv n Hn) as [Hr _].
    eapply (after_lengths us n (D !! Z.to_nat n)); [apply (li_blocks _ _ _ _ _ _ I)| |rewrite <- T8 by lia; by apply Hsome].
    apply Forall_forall. intros w Hw. by destruct (Hus w Hw) as (_ & _ & _ & ?).
  - rewrite T9, T8 by lia. rewrite after_ne; [done|]. intros Hin%T7%Hv. destruct Hin as (_ & Hno & _). apply Hno.
    unfold in_log. lia.
  - intros n Hn. rewrite !lookup_apply_writes; try done.
    + destruct (decide (n ∈ bs)) as [Hin|Hni].
      * rewrite <- T8 by done. destruct (list_elem_of_lookup_1 _ _ Hin) as [i Hi].
        rewrite (after_in _ _ (default ([] : block) (lblk (lbase s) n))), (Hsome n Hin); [done| |].
        { rewrite fst_zip by lia. apply (lg_nodup _ _ T1). }
        apply list_elem_of_lookup. exists i. apply lookup_zip_with_Some. eexists _, _. split_and!; [done|done|].
        unfold vs. by rewrite list_lookup_fmap, Hi.
      * rewrite !after_ne; [done|by rewrite <- T7|]. by rewrite fst_zip by lia.
    + apply Forall_fmap, Forall_forall. intros w Hw. by destruct (Hus w Hw).
    + rewrite fst_zip by lia. apply Forall_forall. intros m Hm. by destruct (Hv m Hm).
Qed.

Lemma op_ok retries L sb s us :
  idle L sb s → fs_free L → Forall (valid_update (log_start s) (log_size s) (disk (lbase s))) us →
  Z.of_nat (length us) ≤ MAXOPBLOCKS → Z.of_nat (length us) < log_size s →
  ∃ s' bs vs h, op retries us s = Ok tt s' ∧ idle L sb s' ∧
    can_commit (log_start s) (log_size s) sb (disk (lbase s)) bs vs h ∧
    (∀ n, 0 ≤ n → apply_writes (zip bs vs) (disk (lbase s)) !! Z.to_nat n = apply_writes us (disk (lbase s)) !! Z.to_nat n) ∧
    writes (lbase s') = writes (lbase s) ++ commit_ws (log_start s) h bs vs ∧
    disk (lbase s') = apply_writes (commit_ws (log_start s) h bs vs) (disk (lbase s)).
Proof.
  intros [I1 I2 I3 I4 I5 I6] (F1 & F2 & F3) Hus Hl1 Hl2. pose proof (lg_n _ _ I1) as Hn. cbn in Hn.
  destruct (begin_op_ok retries L s (q_k _ _ _ I2) F3 I6) as (x1 & R1 & K1).
  { unfold LOGSIZE. lia. }
  set (s1 := rebase x1 (set_log_outstanding (log_outstanding s + 1) s)) in *. set (D := disk (lbase s)) in *.
  assert (txn L s1 D [] s1 []) as T1.
  { split; try done.
    - by destruct I1.
    - by apply (quiet_rebase L L [] s x1).
    - intros n. split; [|by intros ?%not_elem_of_nil]. intros (i & b & Hi & Hb & _ & Hd).
      assert (i ∈ dirty_idx (lbase s)) as Hin by (apply elem_of_dirty_idx; eauto). rewrite I3 in Hin. by apply not_elem_of_nil in Hin.
    - change (dirty_idx (lbase s1)) with (dirty_idx (lbase s)). by rewrite I3.
    - intros n Hn0. cbn [after foldl]. by apply (clean_lblk L (lbase s)). }
  destruct (updates_ok retries L s1 D [] s1 [] us T1 F3) as (s2 & bs & R2 & T2 & Hlen); try done;
    [cbn; rewrite I5; lia|unfold LOGSIZE; cbn [length]; lia|].
  cbn [length app] in Hlen, T2.
  destruct (txn_values L sb s1 D us s2 bs T2) as (vs & h & Hvs & Hcc & Hh & Hz); try done;
    [change (log_size s1) with (log_size s); lia|unfold LOGSIZE; lia|].
  destruct T2 as [A1 A2 A3 A4 A5 A6 A7 A8 (A9 & A10 & A11 & A12)].
  destruct (end_op_ok retries L s2 bs vs h A1 A2 F3) as (b3 & R3 & W3); try done.
  { rewrite A11. change (log_outstanding s1) with (log_outstanding s + 1). by rewrite I5. }
  { by rewrite A12. }
  { unfold MAXOPBLOCKS, NBUF in *. lia. }
  set (s3 := set_lbase b3 _) in R3. rewrite A9 in W3. change (log_start s1) with (log_start s) in W3.
  assert (disk b3 = apply_writes (commit_ws (log_start s) h bs vs) D) as HD3 by (by rewrite (wr_disk _ _ _ _ W3), A3).
  assert (log_start s3 = log_start s ∧ log_size s3 = log_size s) as [Hs3 Hz3] by (split; [exact A9|exact A10]).
  exists s3, bs, vs, h. split_and!; try done.
  - unfold op. rewrite (bind_ok _ _ _ _ _ R1), (bind_ok _ _ _ _ _ R2). exact R3.
  - split; [| | |rewrite Hs3, Hz3; change (lbase s3) with b3; rewrite HD3; by apply commit_done|done|done].
    + apply (geo_base (set_log_committing 0 (set_log_outstanding 0 (set_lh_n 0 s2)))); [|by eapply wrote_length].
      destruct (geo_empty _ _ A1). by split.
    + apply W3.
    + change (lbase s3) with b3. eapply no_dirty; [apply W3|]. intros n [Hd Hno]%(wr_dirty _ _ _ _ W3).
      apply A5 in Hd. apply Hno. unfold commit_ws. rewrite decide_False by (intros ->; by apply not_elem_of_nil in Hd).
      unfold commit_writes. rewrite fmap_app, fmap_cons, fmap_app, fst_zip by (rewrite (cc_len _ _ _ _ _ _ _ Hcc); lia).
      set_solver.
  - change (lbase s3) with b3. rewrite (wr_writes _ _ _ _ W3), A4. done.
Qed.

Lemma ws_prefix start size sb D bs vs h us k :
  can_commit start size sb D bs vs h →
  (∀ n, 0 ≤ n → apply_writes (zip bs vs) D !! Z.to_nat n = apply_writes us D !! Z.to_nat n) →
  ∃ T, (T = D ∨ T = apply_writes us D) ∧ intact start size sb (apply_writes (take k (commit_ws start h bs vs)) D) T.
Proof.
  intros Hcc Hz. unfold commit_ws. case_decide as Hbs.
  - exists D. split; [by left|]. rewrite take_nil. exists [], []. split_and!; [apply Hcc|done|done].
  - pose proof (commit_prefix start size sb D bs vs h k Hcc) as Hint. case_decide.
    + exists D. auto.
    + exists (apply_writes us D). split; [by right|]. destruct Hint as (bs' & vs' & I & Hl & Hm).
      exists bs', vs'. split_and!; [done|rewrite length_apply_writes in *; done|]. intros n Hn Ho. by rewrite Hm, Hz.
Qed.

(** The completed commit, outside the log area. *)
Lemma commit_outside start size sb D bs vs h n :
  can_commit start size sb D bs vs h → 0 ≤ n → ¬ in_log start size n →
  apply_writes (commit_ws start h bs vs) D !! Z.to_nat n = apply_writes (zip bs vs) D !! Z.to_nat n.
Proof.
  intros Hcc Hn Ho. destruct Hcc as [I Hh Hlen [Hf1 Hf2] Hnd Hhome Hvs]. pose proof (li_geo _ _ _ _ _ _ I) as Hgeo.
  unfold commit_ws. case_decide; [by subst|]. unfold commit_writes.
  destruct (commit_logged start size sb D bs vs h I Hh Hlen Hf1 Hf2 Hnd Hhome Hvs) as [I2 Hout].
  rewrite apply_writes_app, apply_writes_cons, apply_writes_app. cbn [apply_writes foldl fst snd].
  rewrite list_lookup_insert_ne by (apply (outside_start start size); try done; lia).
  assert (Forall (λ n, 0 ≤ n < Z.of_nat (length D)) (zip bs vs).*1) as Hr.
  { rewrite fst_zip by lia. eapply Forall_impl; [exact Hhome|]. cbn. tauto. }
  rewrite !lookup_apply_writes; try done; [by rewrite Hout|].
  by rewrite length_insert, length_apply_writes.
Qed.

(** C5: a file-system operation is atomic.  From an idle log, an operation of at most
    [MAXOPBLOCKS] block updates returns with the log idle again and the disk (outside
    the log area) updated; and for every number [k] of its disk writes that reach the
    disk before a crash, the kernel's recovery code, even if it is itself interrupted
    any number of times and started again, brings back either the disk before the
    operation or the disk with all its updates. *)
Theorem transaction_atomic retries L sb s us :
  idle L sb s → fs_free L → Forall (valid_update (log_start s) (log_size s) (disk (lbase s))) us →
  Z.of_nat (length us) ≤ MAXOPBLOCKS → Z.of_nat (length us) < log_size s →
  let D := disk (lbase s) in
  let outside n := 0 ≤ n ∧ ¬ in_log (log_start s) (log_size s) n in
  ∃ s' ws, op retries us s = Ok tt s' ∧ idle L sb s' ∧ writes (lbase s') = writes (lbase s) ++ ws ∧
    (∀ n, outside n → disk (lbase s') !! Z.to_nat n = apply_writes us D !! Z.to_nat n) ∧
    ∀ k, ∃ T, (T = D ∨ T = apply_writes us D) ∧
      ∀ D' x, rtc (crashed retries L) (apply_writes (take k ws) D) D' → k_ok L x →
        ∃ s'', initlog retries 1 (booted x D') = Ok tt s'' ∧ idle L sb s'' ∧
          ∀ n, outside n → disk (lbase s'') !! Z.to_nat n = T !! Z.to_nat n.
Proof.
  intros Hid HL Hus Hl1 Hl2 D outside.
  destruct (op_ok retries L sb s us Hid HL Hus Hl1 Hl2) as (s' & bs & vs & h & R & Hid' & Hcc & Hz & Hw & Hd).
  set (ws := commit_ws (log_start s) h bs vs) in *. exists s', ws.
  split_and!; [done|done|done| |].
  - intros n [Hn Ho]. rewrite Hd. etrans; [by eapply commit_outside|]. exact (Hz n Hn).
  - intros k. destruct (ws_prefix _ _ _ _ _ _ _ us k Hcc Hz) as (T & HT & Hint). exists T. split; [done|].
    intros D' x Hcr Hx. pose proof (crashes_intact _ _ _ _ _ _ _ _ HL Hcr Hint) as Hint'.
    destruct (intact_recovers retries L _ _ _ _ _ x HL Hint' Hx) as (s2 & R2 & Hid2 & _ & Hout).
    exists s2. split_and!; [done|done|]. intros n [Hn Ho]. by apply Hout.
Qed.
End atomic.

(** A disk of 70 blocks with an empty log in blocks 2..31. *)
Definition sb70 : superblock := Superblock 70 36 8 30 2 32 33.
Definition sb_bytes (sb : superblock) : list Z :=
  concat (le_bytes 4 <$> [sb_size sb; sb_nblocks sb; sb_ninodes sb; sb_nlog sb; sb_logstart sb;
    sb_inodestart sb; sb_bmapstart sb]).
Definition log_disk : list block :=
  <[1%nat := sb_bytes sb70 ++ replicate (BSIZE - 28) 0]> (replicate 70 zero_block).
Definition log_idle : lst pst :=
  Lst (Bst (Table.table mach0 100) bufs_init log_disk []) 2 30 0 0 1 0 (replicate (Z.to_nat LOGSIZE) 0).

Lemma log_disk_len n d : log_disk !! n = Some d → length d = BSIZE.
Proof.
  unfold log_disk. intros [(_ & <- & _)|[_ Hd]]%list_lookup_insert_Some; [by vm_compute|].
  apply lookup_replicate in Hd as [-> _]. unfold zero_block. by rewrite length_replicate.
Qed.

Lemma log_idle_ok : idle ∅ sb70 log_idle.
Proof.
  destruct (booted_quiet ∅ (Table.table mach0 100) log_disk) as [Q Hd];
    [exact table_ok|set_solver|set_solver|exact log_disk_len|].
  split; [|exact Q|exact Hd| |done|done].
  - split; try (vm_compute; done). constructor.
  - split.
    + vm_compute. done.
    + eexists. split; [vm_compute; reflexivity|]. by vm_compute.
    + exact log_disk_len.
    + exists zero_block. split; [by vm_compute|]. by apply head_lists_nil; vm_compute.
    + done.
    + done.
    + by vm_compute.
    + constructor.
    + constructor.
Qed.

(** Two updates of block 35 and one of block 36. *)
Definition some_updates : list (Z * block) :=
  [(35, replicate BSIZE 1); (36, replicate BSIZE 2); (35, replicate BSIZE 3)].

Lemma some_updates_valid : Forall (valid_update 2 30 log_disk) some_updates.
Proof.
  repeat constructor; cbn [fst snd]; unfold in_log; try (vm_compute; congruence); try lia;
    by rewrite length_replicate.
Qed.

Lemma transaction_atomic_witness :
  ∃ s', op 0 some_updates log_idle = Ok tt s' ∧ disk (lbase s') !! 35%nat = Some (replicate BSIZE 3).
Proof.
  destruct (transaction_atomic 0 ∅ sb70 log_idle some_updates) as (s' & ws & Hr & _ & _ & Ho & _).
  - exact log_idle_ok.
  - unfold fs_free. set_solver.
  - exact some_updates_valid.
  - by vm_compute.
  - by vm_compute.
  - exists s'. split; [exact Hr|]. etrans; [apply (Ho 35); cbn; unfold in_log; lia|].
    vm_compute. reflexivity.
Defined.

(** ** The reservation of [begin_op] *)

Section reserve.
Context {B : Type} {O : KOps B} {W : KLaws B}.
Implicit Types (s : lst B).

(** A thread that sleeps in [begin_op] resumes as itself. *)
Definition begin_env (x : nat) : env (lst B) :=
  Env (λ _, True) (λ _ s, k_ok {[Lptable]} s ∧ k_self s = Some x) True.

(** No commit runs, and the header has room for the operations in progress and
    one more, as [begin_op] counts it. *)
Definition room s : Prop :=
  log_committing s = 0 ∧ lh_n s + (log_outstanding s + 1) * MAXOPBLOCKS ≤ LOGSIZE.

(** The operation has been let in, in a state that had room for it. *)
Definition let_in s0 s' : Prop :=
  room s0 ∧ k_ok ∅ s' ∧ ∃ y, s' = rebase y (set_log_outstanding (log_outstanding s0 + 1) s0).

Lemma begin_try_spec x s0 y n :
  let s := rebase y s0 in
  k_ok {[Llog]} s → k_self s = Some x →
  wps (begin_env x) (begin_try n) (λ s1 r s', match r with
    | inl _ => ∃ z, s' = rebase z s1 ∧ k_ok {[Llog]} s' ∧ k_self s' = Some x
    | inr _ => let_in s1 s'
    end) s0 s.
Proof.
  intros s HL Hx. unfold begin_try. apply wps_bind. eapply wps_ok; [done|].
  assert (wps (begin_env x) (k_sleep ChLog Llog;; mret (inl 0%nat : nat + nat)) (λ s1 r s', match r with
    | inl _ => ∃ z, s' = rebase z s1 ∧ k_ok {[Llog]} s' ∧ k_self s' = Some x
    | inr _ => let_in s1 s'
    end) s0 s) as Hsleep.
  { apply wps_bind. eapply (wps_k_sleep _ _ _ s x); [done|done|done|]. intros s2 _. split; [done|].
    intros s3 (HL3 & Hx3). split_and!; [done|done|]. intros s4 HL4 (b4 & -> & (z & -> & _)) Hx4.
    eapply wps_ok; [done|]. by exists z. }
  change (log_committing s) with (log_committing s0). change (lh_n s) with (lh_n s0).
  change (log_outstanding s) with (log_outstanding s0).
  destruct (log_committing s0 =? 0) eqn:Ec; cbn [negb]; [|apply Hsleep].
  destruct (lh_n s0 + (log_outstanding s0 + 1) * MAXOPBLOCKS >? LOGSIZE) eqn:Er; [apply Hsleep|].
  apply wps_bind. eapply wps_ok; [done|]. apply wps_bind.
  destruct (lst_release {[Llog]} Llog (set_log_outstanding (log_outstanding s0 + 1) s)) as (z & R & K & _);
    [exact HL|set_solver|]. eapply wps_ok; [exact R|]. eapply wps_ok; [done|].
  rewrite difference_diag_L in K. split; [|split; [done|by exists z]].
  split; [by apply Z.eqb_eq|]. rewrite Z.gtb_ltb in Er. by apply Z.ltb_ge in Er.
Qed.

Lemma begin_op_spec x s retries :
  k_ok ∅ s → k_self s = Some x →
  wps (begin_env x) (begin_op retries) (λ s0 _ s', let_in s0 s') s s.
Proof.
  intros HL Hx. unfold begin_op. apply wps_bind.
  destruct (lst_acquire ∅ Llog s HL) as (y & R & K & (_ & Hs & _)); [set_solver|]. eapply wps_ok; [exact R|].
  rewrite empty_union_lock in K. assert (k_self (rebase y s) = Some x) as Hx1 by (etransitivity; [exact Hs|exact Hx]).
  change (k_ok {[Llog]} (rebase y s)) in K. clear HL Hx Hs R. apply wps_bind. generalize 0%nat. revert s y K Hx1.
  generalize (S retries) as fuel. induction fuel as [|fuel IH]; intros s y K Hx1 n0; [done|]. cbn [while]. apply wps_bind.
  eapply wpso_mono; [|by apply begin_try_spec]. intros s1 [n|n] s' Hpost; [|eapply wps_ok; [done|]; by eapply wps_ok].
  destruct Hpost as (z & -> & K2 & Hx2). by apply IH.
Qed.

(** C36: [begin_op] under contention: however often the thread sleeps because a commit is
    running or the log is full, and whatever others do meanwhile, it lets the
    operation in only in a state [s0], the start or the one in which the thread
    was last resumed, in which no commit runs and the header, with [MAXOPBLOCKS]
    for each operation in progress and this one, stays within [LOGSIZE]; it then
    counts the operation and changes nothing else of the log.  If there is room at
    the start it returns without sleeping. *)
Theorem begin_op_reserves x s retries :
  k_ok ∅ s → k_self s = Some x →
  wps (begin_env x) (begin_op retries) (λ s0 _ s', let_in s0 s') s s ∧
  (room s → ∃ s', begin_op retries s = Ok tt s').
Proof.
  intros HL Hx. split; [by apply begin_op_spec|]. intros [Hc Hr].
  destruct (begin_op_ok retries ∅ s HL) as (y & R & _); [set_solver|done|done|]. eauto.
Qed.
End reserve.

Lemma begin_op_reserves_witness :
  wps (begin_env 0) (begin_op 10) (λ s0 _ s', let_in s0 s') log_idle log_idle ∧ ∃ s', begin_op 10 log_idle = Ok tt s'.
Proof.
  destruct (begin_op_reserves 0 log_idle 10) as [H1 H2]; [exact table_ok|reflexivity|].
  split; [exact H1|]. apply H2. split; [reflexivity|by vm_compute].
Defined.

(** ** The log is one block smaller than the reservation *)

Section overflow.
Context {B : Type} {O : KOps B} {W : KLaws B}.
Implicit Types (s : lst B) (L : gset lockid) (us : list (Z * block)).

Lemma log_write_full i s :
  log_size s - 1 ≤ lh_n s → log_write i s = Panic "too big a transaction".
Proof.
  intros Hn. unfold log_write. rewrite (bind_ok get _ s s s) by done. apply bind_panic.
  rewrite !Z.geb_leb, (proj2 (Z.leb_le (log_size s - 1) _)) by lia. by rewrite orb_true_r.
Qed.

Lemma record_length us (bs : list Z) :
  NoDup us.*1 → NoDup bs → (∀ n, n ∈ bs ↔ n ∈ us.*1) → length bs = length us.
Proof.
  intros H1 H2 H. rewrite <- (length_fmap fst us). apply Permutation_length, NoDup_Permutation; done.
Qed.

(** C38: on a log of [LOGSIZE] blocks (what mkfs makes), [begin_op] lets three operations
    of [MAXOPBLOCKS] blocks in at once, but the log has room for one block less
    than they may write: after 29 distinct blocks have been logged, the next
    [log_write] panics, although each operation has kept to its limit. *)
Theorem reservation_overflows retries L sb s us i :
  idle L sb s → fs_free L → log_size s = LOGSIZE →
  Forall (valid_update (log_start s) (log_size s) (disk (lbase s))) us → NoDup us.*1 → length us = 29%nat →
  ∃ s', (begin_op retries;; begin_op retries;; begin_op retries;; for_each us (λ w, update retries w.1 w.2)) s = Ok tt s' ∧
    log_outstanding s' = 3 ∧ log_write i s' = Panic "too big a transaction".
Proof.
  intros [I1 I2 I3 I4 I5 I6] (F1 & F2 & F3) Hsz Hus Hnd Hlen. pose proof (lg_n _ _ I1) as Hn. cbn in Hn.
  destruct (begin_op_ok retries L s (q_k _ _ _ I2) F3 I6) as (x1 & R1 & K1); [rewrite Hn, I5; by vm_compute|].
  set (s1 := rebase x1 _) in R1.
  destruct (begin_op_ok retries L s1 K1 F3 I6) as (x2 & R2 & K2); [cbn; rewrite Hn, I5; by vm_compute|].
  set (s2 := rebase x2 _) in R2.
  destruct (begin_op_ok retries L s2 K2 F3 I6) as (x3 & R3 & K3); [cbn; rewrite Hn, I5; by vm_compute|].
  set (s3 := rebase x3 _) in R3.
  assert (txn L s3 (disk (lbase s)) [] s3 []) as T3.
  { split; try done.
    - by destruct I1.
    - by apply (quiet_rebase L L [] s x3).
    - intros n. split; [|by intros ?%not_elem_of_nil]. intros (j & b & Hj & Hb & _ & Hd).
      assert (j ∈ dirty_idx (lbase s)) as Hin by (apply elem_of_dirty_idx; eauto).
      rewrite I3 in Hin. by apply not_elem_of_nil in Hin.
    - change (dirty_idx (lbase s3)) with (dirty_idx (lbase s)). by rewrite I3.
    - intros n Hn0. cbn [after foldl]. by apply (clean_lblk L (lbase s)). }
  assert (log_outstanding s3 = 3) as Ho3 by (cbn; by rewrite I5).
  destruct (updates_ok retries L s3 (disk (lbase s)) [] s3 [] us T3 F3) as (s4 & bs & R4 & T4 & _); try done;
    [lia|cbn [length]; unfold LOGSIZE, MAXOPBLOCKS; lia|cbn [length]; change (log_size s3) with (log_size s); unfold LOGSIZE, MAXOPBLOCKS in *; lia|].
  destruct T4 as [A1 A2 A3 A4 A5 A6 A7 A8 (A9 & A10 & A11 & A12)].
  exists s4. split_and!; [|congruence|].
  - by rewrite (bind_ok _ _ _ _ _ R1), (bind_ok _ _ _ _ _ R2), (bind_ok _ _ _ _ _ R3).
  - apply log_write_full. rewrite (lg_n _ _ A1), (record_length us bs Hnd (lg_nodup _ _ A1) A7), A10, Hlen.
    change (log_size s3) with (log_size s). rewrite Hsz. unfold LOGSIZE, MAXOPBLOCKS. lia.
Qed.
End overflow.

Definition many_updates : list (Z * block) := (λ i, (Z.of_nat i + 35, zero_block)) <$> seq 0 29.

Lemma reservation_overflows_witness :
  ∃ s', (begin_op 0;; begin_op 0;; begin_op 0;; for_each many_updates (λ w, update 0 w.1 w.2)) log_idle = Ok tt s' ∧
    log_outstanding s' = 3 ∧ log_write 0 s' = Panic "too big a transaction".
Proof.
  apply (reservation_overflows 0 ∅ sb70 log_idle many_updates 0).
  - exact log_idle_ok.
  - unfold fs_free. set_solver.
  - reflexivity.
  - apply Forall_forall. intros w (i & -> & Hi%elem_of_seq)%list_elem_of_fmap. unfold valid_update, in_log. cbn [fst snd].
    split_and!; try (vm_compute; lia); cbn; try lia; unfold zero_block; by rewrite length_replicate.
  - apply (bool_decide_unpack _). vm_compute. exact I.
  - reflexivity.
Defined.
