(* ===== verification/Fs.v ===== *)
(** * The file system (fs.c, fs.h, stat.h)

    [ist B]: the log below, the superblock in memory and the inode cache.  A
    [struct inode *] is an index into [icache.inode]; a disk inode is 64 bytes of
    a block, a directory entry 16 bytes of a file.  [readi] returns the bytes it
    copies to its destination, [writei] takes the bytes at its source.  A path is
    the list of its characters before the NUL.  Console output is not modelled
    here ([iinit] prints the superblock).

    [retries]: how often a thread may find a buffer or an inode busy (see Bio.v);
    the fuel of the other loops is computed from what they iterate over. *)
From S2P Require Import Prelude Spinlock Str Ptable PtableLists Sched Services BioRing Bio DiskFmt Log.

(** ** Data *)

Definition ROOTINO : Z := 1.
Definition NDIRECT : Z := 12.
Definition NINDIRECT : Z := 128.
Definition MAXFILE : Z := NDIRECT + NINDIRECT.
Definition DINODE : Z := 64.
Definition IPB : Z := Z.of_nat BSIZE / DINODE.
Definition IBLOCK (i : Z) (sb : superblock) : Z := u32 (i / IPB + sb_inodestart sb).
Definition BPB : Z := Z.of_nat BSIZE * 8.
Definition BBLOCK (b : Z) (sb : superblock) : Z := u32 (b / BPB + sb_bmapstart sb).
Definition DIRSIZ : nat := 14.
Definition DIRENT : Z := 16.

Definition T_DIR : Z := 1.
Definition T_FILE : Z := 2.
Definition T_DEV : Z := 3.

Definition I_BUSY : Z := 0x1.
Definition I_VALID : Z := 0x2.

(** [struct inode] of file.h. *)
Record inode := Inode {
  i_dev : Z;
  i_inum : Z;
  i_ref : Z;
  i_flags : Z;
  i_type : Z;
  i_major : Z;
  i_minor : Z;
  i_nlink : Z;
  i_size : Z;
  i_addrs : list Z
}.

Definition set_i_dev x (i : inode) := Inode x (i_inum i) (i_ref i) (i_flags i) (i_type i) (i_major i) (i_minor i) (i_nlink i) (i_size i) (i_addrs i).
Definition set_i_inum x (i : inode) := Inode (i_dev i) x (i_ref i) (i_flags i) (i_type i) (i_major i) (i_minor i) (i_nlink i) (i_size i) (i_addrs i).
Definition set_i_ref x (i : inode) := Inode (i_dev i) (i_inum i) x (i_flags i) (i_type i) (i_major i) (i_minor i) (i_nlink i) (i_size i) (i_addrs i).
Definition set_i_flags x (i : inode) := Inode (i_dev i) (i_inum i) (i_ref i) x (i_type i) (i_major i) (i_minor i) (i_nlink i) (i_size i) (i_addrs i).
Definition set_i_type x (i : inode) := Inode (i_dev i) (i_inum i) (i_ref i) (i_flags i) x (i_major i) (i_minor i) (i_nlink i) (i_size i) (i_addrs i).
Definition set_i_major x (i : inode) := Inode (i_dev i) (i_inum i) (i_ref i) (i_flags i) (i_type i) x (i_minor i) (i_nlink i) (i_size i) (i_addrs i).
Definition set_i_minor x (i : inode) := Inode (i_dev i) (i_inum i) (i_ref i) (i_flags i) (i_type i) (i_major i) x (i_nlink i) (i_size i) (i_addrs i).
Definition set_i_nlink x (i : inode) := Inode (i_dev i) (i_inum i) (i_ref i) (i_flags i) (i_type i) (i_major i) (i_minor i) x (i_size i) (i_addrs i).
Definition set_i_size x (i : inode) := Inode (i_dev i) (i_inum i) (i_ref i) (i_flags i) (i_type i) (i_major i) (i_minor i) (i_nlink i) x (i_addrs i).
Definition set_i_addrs x (i : inode) := Inode (i_dev i) (i_inum i) (i_ref i) (i_flags i) (i_type i) (i_major i) (i_minor i) (i_nlink i) (i_size i) x.

Definition iflag (f : Z) (i : inode) : bool := negb (Z.land (i_flags i) f =? 0).

Record ist (B : Type) := Ist {
  ibase : lst B;
  isb : superblock;
  inodes : list inode
}.
Arguments Ist {B}.
Arguments ibase {B}.
Arguments isb {B}.
Arguments inodes {B}.

Definition set_ibase {B} (b : lst B) (s : ist B) : ist B := Ist b (isb s) (inodes s).
Definition set_isb {B} (x : superblock) (s : ist B) : ist B := Ist (ibase s) x (inodes s).
Definition set_inodes {B} (x : list inode) (s : ist B) : ist B := Ist (ibase s) (isb s) x.

#[global] Instance ist_base B : Lens (ist B) (lst B) := {| view := ibase; put := set_ibase |}.
#[global] Instance ist_base_ok B : LensOk (ist B) (lst B).
Proof. by split; intros; try destruct s. Qed.
#[global] Instance ist_ops B {O : KOps B} : KOps (ist B) := wrap_ops.
#[global] Instance ist_laws B {O : KOps B} {W : KLaws B} : KLaws (ist B) := wrap_laws.

(** Running the cache and the log below the file system. *)
Definition onb {B A} (m : K (bst B) A) : K (ist B) A := lift (inb m).
Definition onl {B A} (m : K (lst B) A) : K (ist B) A := lift m.

Definition geti {B} (i : nat) : K (ist B) inode := s ← get; deref (inodes s !! i).
Definition seti {B} (i : nat) (f : inode → inode) : K (ist B) unit := λ s,
  match inodes s !! i with
  | Some ip => Ok tt (set_inodes (<[i := f ip]> (inodes s)) s)
  | None => Fault
  end.

(** The data of a buffer, and a change of it. *)
Definition bdata {B} (bp : nat) : K (ist B) block := x ← onb (getb bp); mret (b_data x).
Definition set_bdata {B} (bp : nat) (d : block) : K (ist B) unit := onb (setb bp (set_b_data d)).

(** The fields of the disk inode at offset [off] of a block. *)
Definition addrs_of (d : block) (off : nat) (n : nat) : option (list Z) :=
  mapM (λ k, get32 d (off + 4 * k)) (seq 0 n).

Definition dinode_fill (d : block) (off : nat) (ip : inode) : option inode :=
  ty ← get16 d off;
  ma ← get16 d (off + 2);
  mi ← get16 d (off + 4);
  nl ← get16 d (off + 6);
  sz ← get32 d (off + 8);
  ad ← addrs_of d (off + 12) (Z.to_nat (NDIRECT + 1));
  Some (set_i_addrs ad (set_i_size sz (set_i_nlink (i16 nl) (set_i_minor (i16 mi)
    (set_i_major (i16 ma) (set_i_type (i16 ty) ip)))))).

Definition dinode_bytes (ip : inode) : list Z :=
  le_bytes 2 (i_type ip) ++ le_bytes 2 (i_major ip) ++ le_bytes 2 (i_minor ip) ++
  le_bytes 2 (i_nlink ip) ++ le_bytes 4 (i_size ip) ++ concat (le_bytes 4 <$> i_addrs ip).

Definition dinode_off (inum : Z) : nat := Z.to_nat ((inum `mod` IPB) * DINODE).

(** ** Blocks *)

(** The inner loop of [balloc]: the first clear bit from [bi] on. *)
Fixpoint free_bit (fuel : nat) (d : block) (b size bi : Z) : option Z :=
  match fuel with
  | O => None
  | S fuel' =>
      if (bi <? BPB) && (b + bi <? size) then
        if Z.land (default 0 (d !! Z.to_nat (bi / 8))) (Z.shiftl 1 (bi `mod` 8)) =? 0 then Some bi
        else free_bit fuel' d b size (bi + 1)
      else None
  end.

(** The scan of the inode cache in [iget]: the entry of the inode, or else the
    first entry without references. *)
Fixpoint iget_scan (l : list inode) (k : nat) (dev inum : Z) (empty : option nat) : nat + option nat :=
  match l with
  | [] => inr empty
  | ip :: l' =>
      if (i_ref ip >? 0) && (i_dev ip =? dev) && (i_inum ip =? inum) then inl k
      else iget_scan l' (S k) dev inum
        (match empty with None => if i_ref ip =? 0 then Some k else None | e => e end)
  end.

(** ** Paths *)

Definition slash : Z := 47.

Fixpoint skip_slashes (path : list Z) : list Z :=
  match path with
  | c :: p' => if c =? slash then skip_slashes p' else path
  | [] => []
  end.

Fixpoint elem_split (path : list Z) : list Z * list Z :=
  match path with
  | c :: p' => if c =? slash then ([], path) else let '(s, r) := elem_split p' in (c :: s, r)
  | [] => ([], [])
  end.

(** [None] for the null pointer, else the rest of the path and the contents of
    [name] (of which only the bytes written change). *)
Definition skipelem (path name : list Z) : option (list Z * list Z) :=
  match skip_slashes path with
  | [] => None
  | path' =>
      let '(s, rest) := elem_split path' in
      let len := length s in
      let name' := if (DIRSIZ <=? len)%nat then splice name 0 (take DIRSIZ s)
                   else splice name 0 (s ++ [0]) in
      Some (skip_slashes rest, name')
  end.

Definition namecmp (s t : list Z) : option Z := strncmp s t DIRSIZ.

Section fs.
Context {B : Type} {O : KOps B} (retries : nat).

(** ** Blocks *)

Definition bzero (dev bno : Z) : K (ist B) unit :=
  bp ← onb (bread retries (u32 dev) (u32 bno));
  set_bdata bp (replicate BSIZE 0);;
  onl (log_write bp);;
  onb (brelse bp).

(** The outer loop of [balloc] returns the block as [inr (Some _)] and goes on
    with the next bitmap block on [inl]. *)
Definition balloc (dev : Z) : K (ist B) Z :=
  s0 ← get;
  r ← while (S (S (Z.to_nat (sb_size (isb s0) / BPB)))) (λ st : Z * option Z,
    s ← get;
    if fst st <? sb_size (isb s) then
      bp ← onb (bread retries dev (BBLOCK (fst st) (isb s)));
      d ← bdata bp;
      match free_bit (S (Z.to_nat BPB)) d (fst st) (sb_size (isb s)) 0 with
      | Some bi =>
          set_bdata bp (alter (λ x, u8 (Z.lor x (Z.shiftl 1 (bi `mod` 8)))) (Z.to_nat (bi / 8)) d);;
          onl (log_write bp);;
          onb (brelse bp);;
          bzero dev (fst st + bi);;
          mret (inr (fst st, Some (fst st + bi)))
      | None =>
          onb (brelse bp);;
          mret (inl (fst st + BPB, None))
      end
    else mret (inr st)) (0, None);
  match snd r with
  | Some b => mret (u32 b)
  | None => panic "balloc: out of blocks"
  end.

Definition bfree (dev b : Z) : K (ist B) unit :=
  sb ← onb (readsb retries (u32 dev));
  modify (set_isb sb);;
  bp ← onb (bread retries (u32 dev) (BBLOCK b sb));
  d ← bdata bp;
  let bi := b `mod` BPB in
  let m := Z.shiftl 1 (bi `mod` 8) in
  panic_if (Z.land (default 0 (d !! Z.to_nat (bi / 8))) m =? 0) "freeing free block";;
  set_bdata bp (alter (λ x, u8 (Z.ldiff x m)) (Z.to_nat (bi / 8)) d);;
  onl (log_write bp);;
  onb (brelse bp).

(** ** Inodes *)

Definition iinit (dev : Z) : K (ist B) unit :=
  k_initlock Licache "icache";;
  sb ← onb (readsb retries (u32 dev));
  modify (set_isb sb).

Definition iget (dev inum : Z) : K (ist B) nat :=
  k_acquire Licache;;
  s ← get;
  match iget_scan (inodes s) 0 dev inum None with
  | inl i =>
      seti i (λ ip, set_i_ref (i_ref ip + 1) ip);;
      k_release Licache;;
      mret i
  | inr None => panic "iget: no inodes"
  | inr (Some i) =>
      seti i (set_i_dev dev);;
      seti i (set_i_inum inum);;
      seti i (set_i_ref 1);;
      seti i (set_i_flags 0);;
      k_release Licache;;
      mret i
  end.

Definition ialloc (dev type : Z) : K (ist B) nat :=
  s0 ← get;
  r ← while (S (Z.to_nat (sb_ninodes (isb s0)))) (λ st : Z * option nat,
    s ← get;
    if fst st <? sb_ninodes (isb s) then
      bp ← onb (bread retries dev (IBLOCK (fst st) (isb s)));
      d ← bdata bp;
      ty ← deref (get16 d (dinode_off (fst st)));
      if ty =? 0 then
        let d1 := splice d (dinode_off (fst st)) (replicate (Z.to_nat DINODE) 0) in
        d2 ← deref (put16 d1 (dinode_off (fst st)) type);
        set_bdata bp d2;;
        onl (log_write bp);;
        onb (brelse bp);;
        i ← iget dev (fst st);
        mret (inr (fst st, Some i))
      else
        onb (brelse bp);;
        mret (inl (fst st + 1, None))
    else mret (inr st)) (1, None);
  match snd r with
  | Some i => mret i
  | None => panic "ialloc: no inodes"
  end.

Definition iupdate (i : nat) : K (ist B) unit :=
  ip ← geti i;
  s ← get;
  bp ← onb (bread retries (i_dev ip) (IBLOCK (i_inum ip) (isb s)));
  d ← bdata bp;
  ip ← geti i;
  set_bdata bp (splice d (dinode_off (i_inum ip)) (dinode_bytes ip));;
  onl (log_write bp);;
  onb (brelse bp).

Definition idup (i : nat) : K (ist B) nat :=
  k_acquire Licache;;
  seti i (λ ip, set_i_ref (i_ref ip + 1) ip);;
  k_release Licache;;
  mret i.

Definition ilock (o : option nat) : K (ist B) unit :=
  match o with
  | None => panic "ilock"
  | Some i =>
      ip ← geti i;
      panic_if (i_ref ip <? 1) "ilock";;
      k_acquire Licache;;
      while (S retries) (λ _ : nat,
        ip ← geti i;
        if iflag I_BUSY ip then k_sleep (ChInode i) Licache;; mret (inl 0%nat) else mret (inr 0%nat)) 0%nat;;
      seti i (λ ip, set_i_flags (Z.lor (i_flags ip) I_BUSY) ip);;
      k_release Licache;;
      ip ← geti i;
      if negb (iflag I_VALID ip) then
        s ← get;
        bp ← onb (bread retries (i_dev ip) (IBLOCK (i_inum ip) (isb s)));
        d ← bdata bp;
        ip ← geti i;
        ip' ← deref (dinode_fill d (dinode_off (i_inum ip)) ip);
        seti i (λ _, ip');;
        onb (brelse bp);;
        seti i (λ ip, set_i_flags (Z.lor (i_flags ip) I_VALID) ip);;
        ip ← geti i;
        panic_if (i_type ip =? 0) "ilock: no type"
      else mret tt
  end.

Definition iunlock (o : option nat) : K (ist B) unit :=
  match o with
  | None => panic "iunlock"
  | Some i =>
      ip ← geti i;
      panic_if (negb (iflag I_BUSY ip) || (i_ref ip <? 1)) "iunlock";;
      k_acquire Licache;;
      seti i (λ ip, set_i_flags (Z.ldiff (i_flags ip) I_BUSY) ip);;
      k_wakeup (ChInode i);;
      k_release Licache
  end.

(** [itrunc], with the loops over the direct and the indirect addresses. *)
Definition itrunc (i : nat) : K (ist B) unit :=
  for_each (seq 0 (Z.to_nat NDIRECT)) (λ k,
    ip ← geti i;
    a ← deref (i_addrs ip !! k);
    if negb (a =? 0) then
      bfree (i_dev ip) a;;
      seti i (λ ip, set_i_addrs (<[k := 0]> (i_addrs ip)) ip)
    else mret tt);;
  ip ← geti i;
  ind ← deref (i_addrs ip !! Z.to_nat NDIRECT);
  (if negb (ind =? 0) then
     bp ← onb (bread retries (i_dev ip) ind);
     for_each (seq 0 (Z.to_nat NINDIRECT)) (λ j,
       d ← bdata bp;
       a ← deref (get32 d (4 * j));
       if negb (a =? 0) then bfree (i_dev ip) a else mret tt);;
     onb (brelse bp);;
     bfree (i_dev ip) ind;;
     seti i (λ ip, set_i_addrs (<[Z.to_nat NDIRECT := 0]> (i_addrs ip)) ip)
   else mret tt);;
  seti i (set_i_size 0);;
  iupdate i.

Definition iput (i : nat) : K (ist B) unit :=
  k_acquire Licache;;
  ip ← geti i;
  (if (i_ref ip =? 1) && iflag I_VALID ip && (i_nlink ip =? 0) then
     panic_if (iflag I_BUSY ip) "iput busy";;
     seti i (λ ip, set_i_flags (Z.lor (i_flags ip) I_BUSY) ip);;
     k_release Licache;;
     itrunc i;;
     seti i (set_i_type 0);;
     iupdate i;;
     k_acquire Licache;;
     seti i (set_i_flags 0);;
     k_wakeup (ChInode i)
   else mret tt);;
  seti i (λ ip, set_i_ref (i_ref ip - 1) ip);;
  k_release Licache.

Definition iunlockput (i : nat) : K (ist B) unit :=
  iunlock (Some i);;
  iput i.

(** ** Inode content *)

Definition bmap (i : nat) (bn : Z) : K (ist B) Z :=
  ip ← geti i;
  if bn <? NDIRECT then
    a ← deref (i_addrs ip !! Z.to_nat bn);
    if a =? 0 then
      a' ← balloc (i_dev ip);
      seti i (λ ip, set_i_addrs (<[Z.to_nat bn := a']> (i_addrs ip)) ip);;
      mret a'
    else mret a
  else
    let bn' := bn - NDIRECT in
    if bn' <? NINDIRECT then
      ind ← deref (i_addrs ip !! Z.to_nat NDIRECT);
      ind' ← (if ind =? 0 then
                a' ← balloc (i_dev ip);
                seti i (λ ip, set_i_addrs (<[Z.to_nat NDIRECT := a']> (i_addrs ip)) ip);;
                mret a'
              else mret ind);
      bp ← onb (bread retries (i_dev ip) ind');
      d ← bdata bp;
      a ← deref (get32 d (4 * Z.to_nat bn'));
      a' ← (if a =? 0 then
              a' ← balloc (i_dev ip);
              d ← bdata bp;
              d' ← deref (put32 d (4 * Z.to_nat bn') a');
              set_bdata bp d';;
              onl (log_write bp);;
              mret a'
            else mret a);
      onb (brelse bp);;
      mret a'
    else panic "bmap: out of range".

(** [struct stat] *)
Record stat := Stat { st_type : Z; st_dev : Z; st_ino : Z; st_nlink : Z; st_size : Z }.

Definition stati (i : nat) : K (ist B) stat :=
  ip ← geti i;
  mret (Stat (i_type ip) (i32 (i_dev ip)) (i_inum ip) (i_nlink ip) (i_size ip)).
End fs.

(** ** Reading, writing, directories and names

    [dev_read] and [dev_write] are [devsw[major].read] and [.write], [None] for a
    null entry. *)
Section files.
Context {B : Type} {O : KOps B} (retries : nat).
Context (dev_read : Z → option (nat → Z → K (ist B) (Z * list Z))).
Context (dev_write : Z → option (nat → list Z → Z → K (ist B) Z)).

Definition dev_fun {A} (f : Z → option A) (major : Z) : option A :=
  if (major <? 0) || (major >=? NDEV) then None else f major.

(** The loop of [readi]; its state is [(tot, off, dst)], [dst] being the bytes
    copied so far. *)
Definition readi_step (i : nat) (ip : inode) (n : Z) (st : Z * Z * list Z) :
    K (ist B) (Z * Z * list Z + Z * Z * list Z) :=
  let '(tot, off, dst) := st in
  if tot <? n then
    a ← bmap retries i (off / Z.of_nat BSIZE);
    bp ← onb (bread retries (i_dev ip) a);
    let o := off `mod` Z.of_nat BSIZE in
    let m := Z.min (n - tot) (Z.of_nat BSIZE - o) in
    d ← bdata bp;
    onb (brelse bp);;
    mret (inl (tot + m, off + m, dst ++ slice d (Z.to_nat o) (Z.to_nat m)))
  else mret (inr st).

Definition readi (i : nat) (off n : Z) : K (ist B) (Z * list Z) :=
  ip ← geti i;
  if i_type ip =? T_DEV then
    match dev_fun dev_read (i_major ip) with
    | None => mret (-1, [])
    | Some f => f i n
    end
  else if (off >? i_size ip) || (u32 (off + n) <? off) then mret (-1, [])
  else
    let n := if off + n >? i_size ip then i_size ip - off else n in
    r ← while (S (Z.to_nat n)) (readi_step i ip n) (0, off, []);
    mret (n, snd r).

Definition writei (i : nat) (src : list Z) (off n : Z) : K (ist B) Z :=
  ip ← geti i;
  if i_type ip =? T_DEV then
    match dev_fun dev_write (i_major ip) with
    | None => mret (-1)
    | Some f => f i src n
    end
  else if (off >? i_size ip) || (u32 (off + n) <? off) then mret (-1)
  else if off + n >? MAXFILE * Z.of_nat BSIZE then mret (-1)
  else
    r ← while (S (Z.to_nat n)) (λ st : Z * Z,
      let '(tot, off) := st in
      if tot <? n then
        a ← bmap retries i (off / Z.of_nat BSIZE);
        bp ← onb (bread retries (i_dev ip) a);
        let o := off `mod` Z.of_nat BSIZE in
        let m := Z.min (n - tot) (Z.of_nat BSIZE - o) in
        d ← bdata bp;
        set_bdata bp (splice d (Z.to_nat o) (slice src (Z.to_nat tot) (Z.to_nat m)));;
        onl (log_write bp);;
        onb (brelse bp);;
        mret (inl (tot + m, off + m))
      else mret (inr st)) (0, off);
    let off := snd r in
    ip ← geti i;
    (if (n >? 0) && (off >? i_size ip) then
       seti i (set_i_size off);;
       iupdate retries i
     else mret tt);;
    mret n.

(** The fields of a directory entry. *)
Definition de_inum (de : list Z) : Z := le (take 2 de).
Definition de_name (de : list Z) : list Z := slice de 2 DIRSIZ.

(** The inode and, for [poff], the offset of the entry. *)
Definition dirlookup (dp : nat) (name : list Z) : K (ist B) (option (nat * Z)) :=
  ip ← geti dp;
  panic_if (negb (i_type ip =? T_DIR)) "dirlookup not DIR";;
  r ← while (S (S (Z.to_nat (i_size ip / DIRENT)))) (λ st : Z * option (nat * Z),
    let off := fst st in
    ip ← geti dp;
    if off <? i_size ip then
      r ← readi dp off DIRENT;
      panic_if (negb (fst r =? DIRENT)) "dirlink read";;
      let de := snd r in
      if de_inum de =? 0 then mret (inl (off + DIRENT, None))
      else
        c ← deref (namecmp name (de_name de));
        if c =? 0 then
          i ← iget (i_dev ip) (de_inum de);
          mret (inr (off, Some (i, off)))
        else mret (inl (off + DIRENT, None))
    else mret (inr (off, None))) (0, None);
  mret (snd r).

(** The loop of [dirlink]: the offset of the first free entry, or the size. *)
Definition free_dirent (dp : nat) : K (ist B) Z :=
  ip ← geti dp;
  while (S (S (Z.to_nat (i_size ip / DIRENT)))) (λ off,
    ip ← geti dp;
    if off <? i_size ip then
      r ← readi dp off DIRENT;
      panic_if (negb (fst r =? DIRENT)) "dirlink read";;
      if de_inum (snd r) =? 0 then mret (inr off) else mret (inl (off + DIRENT))
    else mret (inr off)) 0.

(** [de.name] is uninitialised when the loop has read nothing; [strncpy] fills all
    of it. *)
Definition dirlink (dp : nat) (name : list Z) (inum : Z) : K (ist B) Z :=
  o ← dirlookup dp name;
  match o with
  | Some (ip, _) => iput retries ip;; mret (-1)
  | None =>
      off ← free_dirent dp;
      nm ← deref (strncpy (replicate DIRSIZ 0) name DIRSIZ);
      r ← writei dp (le_bytes 2 inum ++ nm) off DIRENT;
      panic_if (negb (r =? DIRENT)) "dirlink";;
      mret 0
  end.

(** The loop of [namex] returns [inr (Some _)] for a [return] from its body and
    [inr None] when the path is exhausted. *)
Definition namex (path : list Z) (nameiparent : bool) (name : list Z) : K (ist B) (option nat * list Z) :=
  ip ← (match path with
        | c :: _ => if c =? slash then iget ROOTDEV ROOTINO
                    else q ← k_getproc; cwd ← deref (p_cwd q); idup cwd
        | [] => q ← k_getproc; cwd ← deref (p_cwd q); idup cwd
        end);
  r ← while (S (length path)) (λ st : list Z * list Z * nat * option (option nat),
    let '(path, name, ip, _) := st in
    match skipelem path name with
    | None => mret (inr st)
    | Some (path', name') =>
        ilock retries (Some ip);;
        x ← geti ip;
        if negb (i_type x =? T_DIR) then
          iunlockput retries ip;;
          mret (inr (path', name', ip, Some None))
        else if nameiparent && (match path' with [] => true | _ => false end) then
          iunlock (Some ip);;
          mret (inr (path', name', ip, Some (Some ip)))
        else
          o ← dirlookup ip name';
          match o with
          | None =>
              iunlockput retries ip;;
              mret (inr (path', name', ip, Some None))
          | Some (next, _) =>
              iunlockput retries ip;;
              mret (inl (path', name', next, None))
          end
    end) (path, name, ip, None);
  let '(_, name', ip, ret) := r in
  match ret with
  | Some o => mret (o, name')
  | None =>
      if nameiparent then iput retries ip;; mret (None, name')
      else mret (Some ip, name')
  end.

Definition namei (path : list Z) : K (ist B) (option nat) :=
  r ← namex path false (replicate DIRSIZ 0); mret (fst r).

Definition nameiparent (path name : list Z) : K (ist B) (option nat * list Z) :=
  namex path true name.
End files.
