(* ===== verification/FsProps.v ===== *)
(** * Properties of the file system

    Path elements, the disk format of inodes, the inode cache. *)
From S2P Require Import Prelude Spinlock Str Ptable PtableLists Sched Choice Scheduling Services Kalloc BioRing Bio BioFacts BioProps BufSpec DiskFmt Log LogFacts Crash Txn LogProps Fs.

(** ** Paths *)

(** The elements of a path: its longest slash-free parts. *)
Fixpoint parts (path cur : list Z) : list (list Z) :=
  match path with
  | [] => match cur with [] => [] | _ => [cur] end
  | c :: p =>
      if c =? slash then match cur with [] => parts p [] | _ => cur :: parts p [] end
      else parts p (cur ++ [c])
  end.
Definition elements (path : list Z) : list (list Z) := parts path [].

Lemma elements_skip path : elements (skip_slashes path) = elements path.
Proof.
  induction path as [|c p IH]; [done|]. unfold elements in *. simpl.
  destruct (c =? slash) eqn:E; [done|]. simpl. by rewrite E.
Qed.

Lemma skip_head path : match skip_slashes path with c :: _ => c ≠ slash | [] => True end.
Proof.
  induction path as [|c p IH]; [done|]. simpl. destruct (Z.eqb_spec c slash); [done|]. done.
Qed.

Lemma parts_split path cur :
  cur ≠ [] → parts path cur = (cur ++ (elem_split path).1) :: elements (elem_split path).2.
Proof.
  revert cur. induction path as [|c p IH]; intros cur Hc; simpl.
  - rewrite app_nil_r. by destruct cur.
  - destruct (c =? slash) eqn:E; simpl.
    + rewrite app_nil_r. unfold elements. simpl. rewrite E. by destruct cur.
    + destruct (elem_split p) as [e r] eqn:Ep. rewrite IH by (by destruct cur). simpl. by rewrite <- app_assoc.
Qed.

Lemma length_skip path : (length (skip_slashes path) ≤ length path)%nat.
Proof. induction path as [|c p IH]; simpl; [lia|]. destruct (c =? slash); simpl; lia. Qed.

Lemma length_split path : (length (elem_split path).1 + length (elem_split path).2 = length path)%nat.
Proof. induction path as [|c p IH]; simpl; [done|]. destruct (c =? slash); [done|]. destruct (elem_split p). simpl in *. lia. Qed.

(** What [name] holds for the element [e]: all of it and a NUL, or its first
    [DIRSIZ] characters. *)
Definition holds_name (name e : list Z) : Prop :=
  length name = DIRSIZ ∧
  if (DIRSIZ <=? length e)%nat then name = take DIRSIZ e else take (S (length e)) name = e ++ [0].

Lemma name_written name e :
  length name = DIRSIZ →
  holds_name (if (DIRSIZ <=? length e)%nat then splice name 0 (take DIRSIZ e) else splice name 0 (e ++ [0])) e.
Proof.
  intros Hn. unfold holds_name. destruct (Nat.leb_spec DIRSIZ (length e)).
  - rewrite length_splice by (rewrite length_take; lia). split; [done|].
    unfold splice. rewrite take_0, drop_ge, app_nil_r; [done|]. rewrite length_take. lia.
  - rewrite length_splice by (rewrite length_app; simpl; lia). split; [done|].
    unfold splice. rewrite take_0. cbn [app].
    replace (S (length e)) with (length (e ++ [0])) by (rewrite length_app; simpl; lia). apply take_app_length.
Qed.

Lemma skipelem_spec path name :
  length name = DIRSIZ →
  match skipelem path name with
  | None => elements path = []
  | Some (rest, name') =>
      ∃ e, elements path = e :: elements rest ∧ holds_name name' e ∧
        match rest with c :: _ => c ≠ slash | [] => True end ∧ (length rest < length path)%nat
  end.
Proof.
  intros Hn. unfold skipelem. pose proof (skip_head path) as Hh. pose proof (length_skip path) as Hl.
  rewrite <- (elements_skip path). destruct (skip_slashes path) as [|c p]; [done|].
  assert (elem_split (c :: p) = (c :: (elem_split p).1, (elem_split p).2)) as ->.
  { simpl. rewrite (proj2 (Z.eqb_neq _ _)) by done. by destruct (elem_split p). }
  exists (c :: (elem_split p).1). split_and!.
  - unfold elements at 1. simpl. rewrite (proj2 (Z.eqb_neq _ _)) by done.
    rewrite parts_split by done. by rewrite elements_skip.
  - by apply name_written.
  - apply skip_head.
  - pose proof (length_skip (elem_split p).2). pose proof (length_split p). simpl in *. lia.
Qed.

(** [skipelem] takes the path apart one element at a time: it returns the null
    pointer exactly when the path has no element, and otherwise stores the first
    element in [name] (cut to [DIRSIZ] characters) and returns the other
    elements, without leading slashes and shorter than the path, so that the
    loop of [namex] ends. *)
Theorem skipelem_elements path name :
  length name = DIRSIZ →
  match skipelem path name with
  | None => elements path = []
  | Some (rest, name') =>
      ∃ e, elements path = e :: elements rest ∧ holds_name name' e ∧
        match rest with c :: _ => c ≠ slash | [] => True end ∧ (length rest < length path)%nat
  end.
Proof. apply skipelem_spec. Qed.

(** The examples of the comment in fs.c. *)
Lemma skipelem_elements_witness :
  (∃ e, elements (chars "///a//bb") = e :: elements (chars "bb") ∧
     holds_name (chars "a" ++ replicate 13 0) e) ∧
  elements (chars "////") = [].
Proof.
  pose proof (skipelem_elements (chars "///a//bb") (replicate DIRSIZ 0) eq_refl) as H1.
  pose proof (skipelem_elements (chars "////") (replicate DIRSIZ 0) eq_refl) as H2.
  split; [|exact H2]. destruct H1 as (e & He & Hn & _). exists e. split; [exact He|exact Hn].
Defined.

(** ** Disk inodes *)

Lemma slice_splice_at d off xs k n :
  (off + length xs ≤ length d)%nat → (k + n ≤ length xs)%nat →
  slice (splice d off xs) (off + k) n = slice xs k n.
Proof.
  intros H Hk. apply list_eq. intros i. rewrite !lookup_slice. case_decide; [|done].
  rewrite lookup_splice by done. rewrite decide_True by lia. f_equal. lia.
Qed.

Lemma getn_splice_at n d off xs k :
  (off + length xs ≤ length d)%nat → (k + n ≤ length xs)%nat →
  getn n (splice d off xs) (off + k) = Some (le (slice xs k n)).
Proof.
  intros H Hk. unfold getn. rewrite length_splice by done. rewrite (proj2 (Nat.leb_le _ _)) by lia.
  by rewrite slice_splice_at.
Qed.

Lemma i16_u16 x : - 2 ^ 15 ≤ x < 2 ^ 15 → i16 (x `mod` 256 ^ Z.of_nat 2) = x.
Proof.
  intros Hx. unfold i16. change (256 ^ Z.of_nat 2) with (2 ^ 16).
  rewrite Z.add_mod_idemp_l by lia. rewrite Z.mod_small; lia.
Qed.

(** The ranges of the fields. *)
Record inode_wf (ip : inode) : Prop := Inode_wf {
  iw_type : - 2 ^ 15 ≤ i_type ip < 2 ^ 15;
  iw_major : - 2 ^ 15 ≤ i_major ip < 2 ^ 15;
  iw_minor : - 2 ^ 15 ≤ i_minor ip < 2 ^ 15;
  iw_nlink : - 2 ^ 15 ≤ i_nlink ip < 2 ^ 15;
  iw_size : 0 ≤ i_size ip < 2 ^ 32;
  iw_len : length (i_addrs ip) = Z.to_nat (NDIRECT + 1);
  iw_addrs : Forall (λ a, 0 ≤ a < 2 ^ 32) (i_addrs ip)
}.

Lemma length_dinode_bytes ip : inode_wf ip → length (dinode_bytes ip) = Z.to_nat DINODE.
Proof.
  intros Hw. unfold dinode_bytes. rewrite !length_app, !length_le_bytes, length_concat_bytes, (iw_len _ Hw). done.
Qed.

Lemma dinode_off_le inum : 0 ≤ inum → (dinode_off inum + Z.to_nat DINODE ≤ BSIZE)%nat.
Proof.
  intros H. unfold dinode_off, IPB, DINODE, BSIZE. change (Z.of_nat 512 / 64) with 8.
  pose proof (Z.mod_pos_bound inum 8 ltac:(lia)). lia.
Qed.

Lemma addrs_back n ws d off pre :
  (off + length pre + 4 * length ws ≤ length d)%nat → n = length ws → Forall (λ a, 0 ≤ a < 2 ^ 32) ws →
  addrs_of (splice d off (pre ++ concat (le_bytes 4 <$> ws))) (off + length pre) n = Some ws.
Proof.
  intros Hl -> Hr. unfold addrs_of. apply mapM_Some. apply Forall2_same_length_lookup. split; [by rewrite length_seq|].
  intros i k w Hk Hw. apply lookup_seq in Hk as [-> Hi]. cbn [Nat.add]. unfold get32.
  rewrite <- Nat.add_assoc.
  rewrite getn_splice_at; rewrite ?length_app, ?length_concat_bytes; try lia.
  pose proof (getn_array 4 (pre ++ concat (le_bytes 4 <$> ws)) pre ws i w) as Hg.
  unfold getn in Hg. rewrite length_app, length_concat_bytes in Hg. specialize (Hg ltac:(lia) Hw).
  assert (splice (pre ++ concat (le_bytes 4 <$> ws)) 0 (pre ++ concat (le_bytes 4 <$> ws)) = pre ++ concat (le_bytes 4 <$> ws)) as Hs.
  { unfold splice. rewrite take_0, drop_ge, app_nil_r by lia. done. }
  rewrite Hs, length_app, length_concat_bytes, (proj2 (Nat.leb_le _ _)) in Hg by lia. rewrite Hg. f_equal.
  apply Z.mod_small. by eapply Forall_lookup_1 in Hr.
Qed.

(** The fields that live on disk, of [ip], in the cache entry [e]. *)
Definition with_disk_fields (ip e : inode) : inode :=
  Inode (i_dev e) (i_inum e) (i_ref e) (i_flags e) (i_type ip) (i_major ip) (i_minor ip)
    (i_nlink ip) (i_size ip) (i_addrs ip).

Lemma dinode_read_back d off ip e :
  inode_wf ip → (off + Z.to_nat DINODE ≤ length d)%nat →
  dinode_fill (splice d off (dinode_bytes ip)) off e = Some (with_disk_fields ip e).
Proof.
  intros Hw Hl. pose proof (length_dinode_bytes ip Hw) as Hb. change (Z.to_nat DINODE) with 64%nat in *.
  assert (∀ n k, (k + n ≤ 64)%nat →
    getn n (splice d off (dinode_bytes ip)) (off + k) = Some (le (slice (dinode_bytes ip) k n))) as Hg.
  { intros n k Hk. apply getn_splice_at; rewrite Hb; lia. }
  assert (addrs_of (splice d off (dinode_bytes ip)) (off + 12) (Z.to_nat (NDIRECT + 1)) = Some (i_addrs ip)) as Ha.
  { unfold dinode_bytes. rewrite !app_assoc. apply (addrs_back _ _ d off); [|symmetry; apply Hw|apply Hw].
    rewrite !length_app, !length_le_bytes, (iw_len _ Hw). vm_compute Z.to_nat. lia. }
  assert (∀ n k pre w post, dinode_bytes ip = pre ++ le_bytes n w ++ post → length pre = k →
    slice (dinode_bytes ip) k n = le_bytes n w) as Hs.
  { intros n k pre w post -> <-. pose proof (slice_app_in pre (le_bytes n w) post) as Hs. by rewrite length_le_bytes in Hs. }
  unfold dinode_fill. unfold get16, get32.
  pose proof (Hg 2%nat 0%nat ltac:(lia)) as Hg0. rewrite Nat.add_0_r in Hg0. rewrite Hg0, !Hg by lia. cbn [mbind option_bind]. rewrite Ha.
  cbn [mbind option_bind].
  rewrite (Hs 2%nat 0%nat [] (i_type ip) _ eq_refl) by done.
  rewrite (Hs 2%nat 2%nat (le_bytes 2 (i_type ip)) (i_major ip) _ eq_refl) by done.
  rewrite (Hs 2%nat 4%nat (le_bytes 2 (i_type ip) ++ le_bytes 2 (i_major ip)) (i_minor ip) _ eq_refl) by done.
  rewrite (Hs 2%nat 6%nat (le_bytes 2 (i_type ip) ++ le_bytes 2 (i_major ip) ++ le_bytes 2 (i_minor ip)) (i_nlink ip) _ eq_refl) by done.
  rewrite (Hs 4%nat 8%nat (le_bytes 2 (i_type ip) ++ le_bytes 2 (i_major ip) ++ le_bytes 2 (i_minor ip) ++ le_bytes 2 (i_nlink ip)) (i_size ip) _ eq_refl) by done.
  rewrite !le_le_bytes, !i16_u16 by apply Hw. rewrite Z.mod_small by apply Hw. done.
Qed.

(** Storing one inode leaves the others of its block alone. *)
Lemma dinode_others d inum ip k e' :
  length d = BSIZE → 0 ≤ inum → inode_wf ip → 0 ≤ k → dinode_off k ≠ dinode_off inum →
  dinode_fill (splice d (dinode_off inum) (dinode_bytes ip)) (dinode_off k) e' = dinode_fill d (dinode_off k) e'.
Proof.
  intros Hd Hi Hw Hk Hne. set (d' := splice d (dinode_off inum) (dinode_bytes ip)).
  pose proof (dinode_off_le inum Hi) as Hoff. pose proof (length_dinode_bytes ip Hw) as Hb.
  pose proof (dinode_off_le k Hk) as Hoffk.
  assert (dinode_off k + 64 ≤ dinode_off inum ∨ dinode_off inum + 64 ≤ dinode_off k)%nat as Hdis.
  { unfold dinode_off, IPB, DINODE, BSIZE in *. change (Z.of_nat 512 / 64) with 8 in *.
    pose proof (Z.mod_pos_bound inum 8 ltac:(lia)). pose proof (Z.mod_pos_bound k 8 ltac:(lia)). lia. }
  change (Z.to_nat DINODE) with 64%nat in *.
  assert (∀ n o, (o + n ≤ 64)%nat → getn n d' (dinode_off k + o) = getn n d (dinode_off k + o)) as Hg.
  { intros n o Ho. unfold getn, d'. rewrite length_splice, slice_splice_ne by (rewrite Hb, ?Hd; lia). done. }
  unfold dinode_fill, get16, get32. pose proof (Hg 2%nat 0%nat ltac:(lia)) as Hg0. rewrite Nat.add_0_r in Hg0.
  rewrite Hg0, !Hg by lia.
  assert (addrs_of d' (dinode_off k + 12) (Z.to_nat (NDIRECT + 1)) = addrs_of d (dinode_off k + 12) (Z.to_nat (NDIRECT + 1))) as ->; [|done].
  unfold addrs_of. apply Forall_mapM_ext, Forall_forall. intros j Hj%elem_of_seq. unfold get32.
  rewrite <- Nat.add_assoc. apply Hg. change (Z.to_nat (NDIRECT + 1)) with 13%nat in Hj. lia.
Qed.

(** storing an inode in its block ([iupdate]) and filling a cache entry from the
    block ([ilock]) gives the same inode back, and leaves the seven other
    inodes of the block as they are. *)
Theorem dinode_roundtrip d inum ip e :
  length d = BSIZE → 0 ≤ inum → inode_wf ip →
  let d' := splice d (dinode_off inum) (dinode_bytes ip) in
  dinode_fill d' (dinode_off inum) e = Some (with_disk_fields ip e) ∧ length d' = BSIZE ∧
  ∀ k e', 0 ≤ k → dinode_off k ≠ dinode_off inum → dinode_fill d' (dinode_off k) e' = dinode_fill d (dinode_off k) e'.
Proof.
  intros Hd Hi Hw d'. pose proof (dinode_off_le inum Hi) as Hoff. pose proof (length_dinode_bytes ip Hw) as Hb.
  split_and!.
  - apply dinode_read_back; [done|by rewrite Hd].
  - unfold d'. rewrite length_splice; [done|]. rewrite Hb, Hd. done.
  - intros k e' Hk Hne. by apply dinode_others.
Qed.

Definition ip1 : inode := Inode 1 5 1 3 T_FILE 0 0 1 700 ([40; 41] ++ replicate 11 0).

Lemma dinode_roundtrip_witness :
  dinode_fill (splice (replicate BSIZE 9) (dinode_off 5) (dinode_bytes ip1)) (dinode_off 5) ip1 = Some ip1 ∧
  inode_wf ip1.
Proof.
  assert (inode_wf ip1) as Hw.
  { split; cbn [i_type i_major i_minor i_nlink i_size i_addrs ip1]; unfold T_FILE; try lia; [done|].
    cbn [app replicate]. repeat (apply Forall_cons; split; [lia|]). constructor. }
  split; [|exact Hw].
  destruct (dinode_roundtrip (replicate BSIZE 9) 5 ip1 ip1) as [H _]; [|lia|exact Hw|exact H].
  apply length_replicate.
Defined.

(** ** The inode cache *)

Section icache.
Context {B : Type} {O : KOps B} {W : KLaws B}.
Implicit Types (s : ist B) (L : gset lockid) (ip : inode).

(** The entry is in use for inode [inum] of device [dev]. *)
Definition caches (dev inum : Z) ip : bool := (i_ref ip >? 0) && (i_dev ip =? dev) && (i_inum ip =? inum).

(** The references to an inode. *)
Definition refs s (dev inum : Z) : Z :=
  foldr (λ ip a, (if caches dev inum ip then i_ref ip else 0) + a) 0 (inodes s).

Record icache_ok s : Prop := Icache_ok {
  ic_len : length (inodes s) = NINODE;
  ic_ref : Forall (λ ip, 0 ≤ i_ref ip) (inodes s);
  ic_unique : ∀ i j a b dev inum, inodes s !! i = Some a → inodes s !! j = Some b →
    caches dev inum a = true → caches dev inum b = true → i = j
}.

Lemma iget_scan_hit l k dev inum e i :
  iget_scan l k dev inum e = inl i → ∃ j ip, i = (k + j)%nat ∧ l !! j = Some ip ∧ caches dev inum ip = true.
Proof.
  revert k e. induction l as [|ip l IH]; intros k e; simpl; [done|]. destruct (_ && _) eqn:E.
  - intros [= <-]. exists 0%nat, ip. split_and!; [lia|done|done].
  - intros (j & ip' & -> & Hj & Hc)%IH. exists (S j), ip'. split_and!; [lia|done|done].
Qed.

Lemma iget_scan_miss l k dev inum e o :
  iget_scan l k dev inum e = inr o →
  Forall (λ ip, caches dev inum ip = false) l ∧
  (e = None → match o with
    | Some i => ∃ j ip, i = (k + j)%nat ∧ l !! j = Some ip ∧ i_ref ip = 0
    | None => Forall (λ ip, i_ref ip ≠ 0) l
    end) ∧ (e ≠ None → o = e).
Proof.
  revert k e. induction l as [|ip l IH]; intros k e; simpl.
  - intros [= <-]. split_and!; [constructor| |done]. intros ->. constructor.
  - destruct (_ && _) eqn:E; [done|]. intros (H1 & H2 & H3)%IH. split; [by constructor|]. split.
    + intros ->. destruct (i_ref ip =? 0) eqn:Er.
      * rewrite (H3 ltac:(done)). exists 0%nat, ip. split_and!; [lia|done|]. by apply Z.eqb_eq.
      * specialize (H2 eq_refl). destruct o as [i|].
        -- destruct H2 as (j & ip' & -> & Hj & Hr). exists (S j), ip'. split_and!; [lia|done|done].
        -- constructor; [by apply Z.eqb_neq|done].
    + intros He. destruct e; [by apply H3|done].
Qed.

Lemma refs_insert s i ip ip' dev inum :
  inodes s !! i = Some ip →
  refs (set_inodes (<[i := ip']> (inodes s)) s) dev inum =
    refs s dev inum - (if caches dev inum ip then i_ref ip else 0) + (if caches dev inum ip' then i_ref ip' else 0).
Proof.
  unfold refs. cbn [inodes set_inodes]. generalize (inodes s) as l. intros l. revert i.
  induction l as [|x l IH]; intros [|i] Hi; simplify_eq/=; [lia|]. rewrite (IH i Hi). lia.
Qed.

Lemma caches_key dev inum dev' inum' ip :
  caches dev inum ip = true → caches dev' inum' ip = (dev' =? dev) && (inum' =? inum).
Proof.
  unfold caches. rewrite !andb_true_iff, !Z.eqb_eq. intros [[Hr <-] <-]. rewrite Hr. cbn.
  by rewrite (Z.eqb_sym dev'), (Z.eqb_sym inum').
Qed.

(** [iget] adds one reference to the inode, and to no other. *)
Definition one (b : bool) : Z := if b then 1 else 0.

Lemma seti_ok s i ip f : inodes s !! i = Some ip → seti i f s = Ok tt (set_inodes (<[i := f ip]> (inodes s)) s).
Proof. intros H. unfold seti. by rewrite H. Qed.

Lemma ist_acquire L lk s :
  k_ok L s → lk ∉ L → ∃ b, k_acquire lk s = Ok tt (set_ibase b s) ∧ k_ok ({[lk]} ∪ L) (set_ibase b s).
Proof.
  intros HL Hlk. assert (k_ok (B:=lst B) L (view s)) as HL2 by exact HL.
  destruct (inner_acquire (B:=lst B) L lk s HL2 Hlk) as (b & R & K & _). exists b. split; [exact R|exact K].
Qed.

Lemma ist_release L lk s :
  k_ok L s → lk ∈ L → ∃ b, k_release lk s = Ok tt (set_ibase b s) ∧ k_ok (L ∖ {[lk]}) (set_ibase b s).
Proof.
  intros HL Hlk. assert (k_ok (B:=lst B) L (view s)) as HL2 by exact HL.
  destruct (inner_release (B:=lst B) L lk s HL2 Hlk) as (b & R & K & _). exists b. split; [exact R|exact K].
Qed.

Lemma icache_ok_insert s i ip ip' :
  icache_ok s → inodes s !! i = Some ip → 0 ≤ i_ref ip' →
  (∀ dev inum, caches dev inum ip' = true → caches dev inum ip = true ∨
     ∀ j a, inodes s !! j = Some a → caches dev inum a = false) →
  icache_ok (set_inodes (<[i := ip']> (inodes s)) s).
Proof.
  intros [H1 H2 H3] Hi Hr Hu. split; cbn.
  - by rewrite length_insert.
  - by apply Forall_insert.
  - intros j k a b dev inum Hj Hk Ha Hb.
    apply list_lookup_insert_Some in Hj as [(-> & -> & _)|[Hji Hj]];
      apply list_lookup_insert_Some in Hk as [(-> & -> & _)|[Hki Hk]]; try done.
    + exfalso. destruct (Hu dev inum Ha) as [Hc|Hc]; [|by rewrite (Hc k b Hk) in Hb].
      apply Hki. by eapply (H3 j k).
    + exfalso. destruct (Hu dev inum Hb) as [Hc|Hc]; [|by rewrite (Hc j a Hj) in Ha].
      apply Hji. by eapply (H3 k j).
    + by eapply H3.
Qed.

Lemma icache_ok_base s b : icache_ok s → icache_ok (set_ibase b s).
Proof. by intros []. Qed.

(** The three assignments of [iget] to a recycled entry. *)
Lemma caches_fresh dev inum ip d n :
  caches d n (set_i_flags 0 (set_i_ref 1 (set_i_inum inum (set_i_dev dev ip)))) = (d =? dev) && (n =? inum).
Proof. unfold caches. cbn. by rewrite (Z.eqb_sym dev), (Z.eqb_sym inum). Qed.

Lemma iget_hit L s dev inum i :
  icache_ok s → k_ok L s → Licache ∉ L → iget_scan (inodes s) 0 dev inum None = inl i →
  ∃ s' ip, iget dev inum s = Ok i s' ∧ icache_ok s' ∧ k_ok L s' ∧ inodes s' !! i = Some ip ∧
    caches dev inum ip = true ∧ ∀ d n, refs s' d n = refs s d n + one ((d =? dev) && (n =? inum)).
Proof.
  intros Hok HL Hlk Hscan. destruct (ist_acquire L Licache s HL Hlk) as (b1 & R1 & K1).
  destruct (iget_scan_hit _ _ _ _ _ _ Hscan) as (j & ip & -> & Hi & Hc). cbn [Nat.add] in *.
  set (ip' := set_i_ref (i_ref ip + 1) ip). set (s2 := set_inodes (<[j := ip']> (inodes s)) (set_ibase b1 s)).
  destruct (ist_release ({[Licache]} ∪ L) Licache s2) as (b3 & R3 & K3); [exact K1|set_solver|].
  rewrite diff_union_lock in K3 by done.
  assert (i_ref ip > 0) as Hr. { unfold caches in Hc. rewrite !andb_true_iff in Hc. destruct Hc as [[Hc _] _]. lia. }
  assert (∀ d n, caches d n ip' = caches d n ip) as Hcc.
  { intros d n. unfold caches, ip'. cbn. rewrite !Z.gtb_ltb. f_equal. f_equal. by rewrite !(proj2 (Z.ltb_lt _ _)) by lia. }
  exists (set_ibase b3 s2), ip'. split_and!.
  - unfold iget. rewrite (bind_ok _ _ _ _ _ R1), (bind_ok get _ _ (set_ibase b1 s) (set_ibase b1 s)) by done.
    cbn [inodes set_ibase]. rewrite Hscan. rewrite (bind_ok _ _ _ _ _ (seti_ok (set_ibase b1 s) j ip _ Hi)).
    by rewrite (bind_ok _ _ _ _ _ R3).
  - apply icache_ok_base, (icache_ok_insert (set_ibase b1 s) j ip); [by apply icache_ok_base|done|cbn; lia|].
    intros d n. rewrite Hcc. auto.
  - exact K3.
  - cbn. apply list_lookup_insert_eq. by eapply lookup_lt_Some.
  - by rewrite Hcc.
  - intros d n. pose proof (refs_insert (set_ibase b1 s) j ip ip' d n Hi) as Hrf.
    change (refs (set_ibase b3 s2) d n = refs s d n + one ((d =? dev) && (n =? inum))).
    etrans; [exact Hrf|]. change (refs (set_ibase b1 s) d n) with (refs s d n).
    rewrite Hcc, (caches_key dev inum d n ip Hc). destruct (_ && _); cbn; lia.
Qed.

Lemma iget_miss L s dev inum i :
  icache_ok s → k_ok L s → Licache ∉ L → iget_scan (inodes s) 0 dev inum None = inr (Some i) →
  ∃ s' ip, iget dev inum s = Ok i s' ∧ icache_ok s' ∧ k_ok L s' ∧ inodes s' !! i = Some ip ∧
    caches dev inum ip = true ∧ ∀ d n, refs s' d n = refs s d n + one ((d =? dev) && (n =? inum)).
Proof.
  intros Hok HL Hlk Hscan. destruct (ist_acquire L Licache s HL Hlk) as (b1 & R1 & K1).
  destruct (iget_scan_miss _ _ _ _ _ _ Hscan) as (Hno & Hfree & _).
  destruct (Hfree eq_refl) as (j & ip & -> & Hi & Hr). cbn [Nat.add] in *.
  set (ip' := set_i_flags 0 (set_i_ref 1 (set_i_inum inum (set_i_dev dev ip)))).
  set (s2 := set_inodes (<[j := ip']> (inodes s)) (set_ibase b1 s)).
  destruct (ist_release ({[Licache]} ∪ L) Licache s2) as (b3 & R3 & K3); [exact K1|set_solver|].
  rewrite diff_union_lock in K3 by done. pose proof (lookup_lt_Some _ _ _ Hi) as Hlt.
  exists (set_ibase b3 s2), ip'. split_and!.
  - unfold iget. rewrite (bind_ok _ _ _ _ _ R1), (bind_ok get _ _ (set_ibase b1 s) (set_ibase b1 s)) by done.
    cbn [inodes set_ibase]. rewrite Hscan.
    rewrite (bind_ok _ _ _ _ _ (seti_ok (set_ibase b1 s) j ip _ Hi)).
    do 3 (erewrite (bind_ok (seti _ _)) by (apply seti_ok; cbn; apply list_lookup_insert_eq; rewrite ?length_insert; done)).
    cbn [inodes set_inodes set_ibase]. rewrite !list_insert_insert_eq. by rewrite (bind_ok _ _ _ _ _ R3).
  - apply icache_ok_base, (icache_ok_insert (set_ibase b1 s) j ip); [by apply icache_ok_base|done|cbn; lia|].
    intros d n. unfold ip'. rewrite caches_fresh, andb_true_iff, !Z.eqb_eq. intros [-> ->]. right.
    intros k a Hk. by eapply Forall_lookup_1 in Hno.
  - exact K3.
  - cbn. by apply list_lookup_insert_eq.
  - unfold ip'. by rewrite caches_fresh, !Z.eqb_refl.
  - intros d n. pose proof (refs_insert (set_ibase b1 s) j ip ip' d n Hi) as Hrf.
    change (refs (set_ibase b3 s2) d n = refs s d n + one ((d =? dev) && (n =? inum))).
    etrans; [exact Hrf|]. change (refs (set_ibase b1 s) d n) with (refs s d n).
    assert (caches d n ip = false) as ->. { unfold caches. by rewrite Hr. }
    unfold ip'. rewrite caches_fresh. cbn [i_ref set_i_flags set_i_ref]. destruct (_ && _); cbn; lia.
Qed.

(** C25: [iget] returns the one cache entry of the inode, with one reference more, taking
    a free entry if the inode is not cached; no inode ever has two entries and
    the references to all other inodes stay as they are.  It panics only if the
    inode is not cached and all entries are in use. *)
Theorem iget_counts L s dev inum :
  icache_ok s → k_ok L s → Licache ∉ L →
  (∃ i s' ip, iget dev inum s = Ok i s' ∧ icache_ok s' ∧ k_ok L s' ∧ inodes s' !! i = Some ip ∧
     caches dev inum ip = true ∧ ∀ d n, refs s' d n = refs s d n + one ((d =? dev) && (n =? inum))) ∨
  (iget dev inum s = Panic "iget: no inodes" ∧
     Forall (λ ip, i_ref ip ≠ 0 ∧ caches dev inum ip = false) (inodes s)).
Proof.
  intros Hok HL Hlk. destruct (iget_scan (inodes s) 0 dev inum None) as [i|[i|]] eqn:Hscan.
  - left. exists i. by eapply iget_hit.
  - left. exists i. by eapply iget_miss.
  - right. destruct (iget_scan_miss _ _ _ _ _ _ Hscan) as (Hno & Hfull & _). split.
    + destruct (ist_acquire L Licache s HL Hlk) as (b1 & R1 & K1). unfold iget.
      rewrite (bind_ok _ _ _ _ _ R1), (bind_ok get _ _ (set_ibase b1 s) (set_ibase b1 s)) by done.
      cbn [inodes set_ibase]. by rewrite Hscan.
    + apply Forall_and. split; [by apply Hfull|done].
Qed.
End icache.

(** Inode 5 cached once in entry 0, all other entries free. *)
Definition free_inode : inode := Inode 0 0 0 0 0 0 0 0 0 (replicate 13 0).
Definition ist1 : ist pst := Ist log_idle sb70 (ip1 :: replicate 49 free_inode).

Lemma ist1_ok : icache_ok ist1.
Proof.
  assert (∀ i a dev inum, inodes ist1 !! i = Some a → caches dev inum a = true → i = 0%nat) as H0.
  { intros [|i] a dev inum Hi Hc; [done|]. change (replicate 49 free_inode !! i = Some a) in Hi.
    apply lookup_replicate in Hi as [-> _]. discriminate Hc. }
  split.
  - reflexivity.
  - apply Forall_cons. split; [done|]. by apply Forall_replicate.
  - intros i j a b dev inum Hi Hj Ha Hb. rewrite (H0 i a dev inum Hi Ha), (H0 j b dev inum Hj Hb). done.
Qed.

Lemma iget_counts_witness :
  ∃ i s', iget 1 5 ist1 = Ok i s' ∧ refs s' 1 5 = 2 ∧ refs s' 1 7 = 0.
Proof.
  destruct (iget_counts ∅ ist1 1 5) as [(i & s' & ip & Hr & _ & _ & _ & _ & Hrefs)|[_ Hfull]].
  - exact ist1_ok.
  - exact table_ok.
  - set_solver.
  - exists i, s'. split; [exact Hr|]. split; [exact (Hrefs 1 5)|exact (Hrefs 1 7)].
  - exfalso. apply (Forall_lookup_1 _ _ 1%nat free_inode) in Hfull; [|reflexivity].
    destruct Hfull as [Hfull _]. apply Hfull. reflexivity.
Defined.
