(* ===== verification/FsRead.v ===== *)
(** * Reading a file

    The content of a file is the concatenation of its blocks, direct and
    indirect; [readi] returns exactly the requested part of it. *)
From S2P Require Import Prelude Spinlock Str Ptable PtableLists Sched Choice Scheduling Services Kalloc BioRing Bio BioFacts BioProps BufSpec DiskFmt Log LogFacts Crash Txn LogProps Fs FsProps.

Section read.
Context {B : Type} {O : KOps B} {W : KLaws B} (retries : nat).
Context (dev_read : Z → option (nat → Z → K (ist B) (Z * list Z))).
Implicit Types (s : ist B) (L : gset lockid) (ip : inode) (b : bst B).

(** The cache below the file system, and the state with another one. *)
Definition cache s : bst B := lbase (ibase s).
Definition set_cache b s : ist B := set_ibase (set_lbase b (ibase s)) s.

(** The block number of block [bn] of the file. *)
Definition faddr b ip (bn : Z) : option Z :=
  if bn <? NDIRECT then i_addrs ip !! Z.to_nat bn
  else if bn - NDIRECT <? NINDIRECT then
    ind ← i_addrs ip !! Z.to_nat NDIRECT; d ← lblk b ind; get32 d (4 * Z.to_nat (bn - NDIRECT))
  else None.

(** Byte [p] of the file. *)
Definition fbyte b ip (p : Z) : option Z :=
  a ← faddr b ip (p / Z.of_nat BSIZE); d ← lblk b a; d !! Z.to_nat (p `mod` Z.of_nat BSIZE).

(** Every block of the file up to its size is on the disk. *)
Record file_ok b ip : Prop := File_ok {
  fi_dev : i_dev ip = 1;
  fi_size : 0 ≤ i_size ip ≤ MAXFILE * Z.of_nat BSIZE;
  fi_len : length (i_addrs ip) = Z.to_nat (NDIRECT + 1);
  fi_blocks : ∀ bn, 0 ≤ bn → bn * Z.of_nat BSIZE < i_size ip →
    ∃ a, faddr b ip bn = Some a ∧ 0 < a < Z.of_nat (length (disk b));
  fi_ind : NDIRECT * Z.of_nat BSIZE < i_size ip →
    ∃ a, i_addrs ip !! Z.to_nat NDIRECT = Some a ∧ 0 < a < Z.of_nat (length (disk b))
}.

Lemma onb_ok {A} (m : K (bst B) A) s a b' : m (cache s) = Ok a b' → onb m s = Ok a (set_cache b' s).
Proof. intros H. unfold onb. unfold lift at 1. cbn [view ist_base]. by rewrite (inb_ok m (ibase s) a b' H). Qed.

Lemma geti_ok s i ip : inodes s !! i = Some ip → geti i s = Ok ip s.
Proof. intros H. unfold geti. rewrite (bind_ok get _ s s s) by done. by rewrite H. Qed.

Lemma faddr_wrote L b b' ip bn :
  wrote L b b' [] → file_ok b ip → bn < NDIRECT ∨ NDIRECT * Z.of_nat BSIZE < i_size ip →
  faddr b' ip bn = faddr b ip bn.
Proof.
  intros Hw F Hs. unfold faddr. destruct (Z.ltb_spec bn NDIRECT); [done|]. destruct Hs as [Hs|Hs]; [lia|].
  destruct (fi_ind _ _ F Hs) as (a & Ha & Hr). rewrite Ha. cbn. by rewrite (wr_lblk _ _ _ _ Hw) by lia.
Qed.

(** There is a buffer to read with. *)
Definition roomy b : Prop := (S (length (dirty_idx b)) < NBUF)%nat.

Lemma roomy_wrote L b b' ws : wrote L b b' ws → roomy b → roomy b'.
Proof. intros Hw. unfold roomy. pose proof (wr_idx _ _ _ _ Hw). lia. Qed.

(** Reading a block and giving it back. *)
Lemma read_block_ok L b n :
  quiet L [] b → roomy b → 0 ≤ n < Z.of_nat (length (disk b)) →
  ∃ bp c x d b', bread retries 1 n b = Ok bp c ∧ getb bp c = Ok x c ∧ b_data x = d ∧ lblk b n = Some d ∧
    length d = BSIZE ∧ brelse bp c = Ok tt b' ∧ wrote L b b' [].
Proof.
  intros Q Hr Hn. destruct (bread_first retries L b n Q Hn) as (bp & c & d & t & R & Rd); [right; unfold roomy in Hr; lia|].
  destruct (held_get _ _ _ _ _ (rd_held _ _ _ _ _ _ _ _ Rd)) as (x & Hget & Hx & _).
  destruct (read_release _ _ _ _ _ _ _ Rd ltac:(lia)) as (b' & R' & Hw).
  exists bp, c, x, d, b'. split_and!; try done; [apply Rd|].
  eapply held_length; [apply (rd_quiet _ _ _ _ _ _ _ _ Rd)|apply Rd].
Qed.

Lemma bmap_mapped L s i ip bn a :
  quiet L [] (cache s) → roomy (cache s) → inodes s !! i = Some ip → file_ok (cache s) ip →
  0 ≤ bn → bn * Z.of_nat BSIZE < i_size ip → faddr (cache s) ip bn = Some a →
  ∃ b', bmap retries i bn s = Ok a (set_cache b' s) ∧ wrote L (cache s) b' [].
Proof.
  intros Q Hr Hi F Hbn Hsz Ha. destruct (fi_blocks _ _ F bn Hbn Hsz) as (a' & Ha' & Hra).
  rewrite Ha in Ha'. injection Ha' as <-. unfold bmap. rewrite (bind_ok _ _ _ _ _ (geti_ok s i ip Hi)).
  unfold faddr in Ha. destruct (Z.ltb_spec bn NDIRECT).
  - rewrite Ha, (bind_ok _ _ _ _ _ (deref_some a s)), (proj2 (Z.eqb_neq _ _)) by lia.
    exists (cache s). split; [by destruct s as [[]]|by apply wrote_nil].
  - destruct (Z.ltb_spec (bn - NDIRECT) NINDIRECT); [|done].
    assert (NDIRECT * Z.of_nat BSIZE < i_size ip) as Hind by (unfold NDIRECT, BSIZE in *; lia).
    destruct (fi_ind _ _ F Hind) as (ind & Hi12 & Hrind). rewrite Hi12 in Ha |- *. cbn [mbind option_bind] in Ha.
    rewrite (bind_ok _ _ _ _ _ (deref_some ind s)), (proj2 (Z.eqb_neq _ _)) by lia.
    rewrite (bind_ok (mret ind) _ s ind s) by done. rewrite (fi_dev _ _ F).
    destruct (read_block_ok L (cache s) ind Q Hr ltac:(lia)) as (bp & c & x & d & b' & R1 & R2 & Hd & Hl & _ & R3 & Hw).
    rewrite Hl in Ha. cbn [mbind option_bind] in Ha.
    rewrite (bind_ok _ _ _ _ _ (onb_ok _ s _ _ R1)). unfold bdata.
    rewrite (bind_ok (x ← onb (getb bp); _) _ _ d (set_cache c s)).
    2: { rewrite (bind_ok _ _ _ _ _ (onb_ok _ (set_cache c s) _ _ R2)). by rewrite Hd. }
    rewrite Ha, (bind_ok _ _ _ _ _ (deref_some a _)), (proj2 (Z.eqb_neq _ _)) by lia.
    rewrite (bind_ok (mret a) _ _ a (set_cache c s)) by done.
    rewrite (bind_ok _ _ _ _ _ (onb_ok _ (set_cache c s) _ _ R3)). by exists b'.
Qed.

Lemma file_ok_wrote L b b' ip : wrote L b b' [] → file_ok b ip → file_ok b' ip.
Proof.
  intros Hw F. assert (length (disk b') = length (disk b)) as Hl by by eapply wrote_length.
  split; rewrite ?Hl; try apply F. intros bn Hbn Hsz. rewrite (faddr_wrote L b); try done; [by apply F|].
  destruct (decide (bn < NDIRECT)); [by left|]. right. unfold BSIZE in *. lia.
Qed.

Lemma fbyte_wrote L b b' ip p :
  wrote L b b' [] → file_ok b ip → 0 ≤ p < i_size ip → fbyte b' ip p = fbyte b ip p.
Proof.
  intros Hw F Hp. unfold fbyte. assert (p / Z.of_nat BSIZE * Z.of_nat BSIZE ≤ p) as Hle.
  { unfold BSIZE. pose proof (Z.mul_div_le p 512 ltac:(lia)). lia. }
  assert (0 ≤ p / Z.of_nat BSIZE) by (apply Z.div_pos; unfold BSIZE; lia).
  rewrite (faddr_wrote L b); try done.
  - destruct (fi_blocks _ _ F (p / Z.of_nat BSIZE)) as (a & -> & Ha); [done|lia|]. cbn.
    by rewrite (wr_lblk _ _ _ _ Hw) by lia.
  - destruct (decide (p / Z.of_nat BSIZE < NDIRECT)); [by left|]. right. unfold BSIZE in *. lia.
Qed.

(** One iteration: the part of one block. *)
Lemma readi_step_ok L s i ip n tot off dst :
  quiet L [] (cache s) → roomy (cache s) → inodes s !! i = Some ip → file_ok (cache s) ip →
  0 ≤ tot < n → 0 ≤ off → off + (n - tot) ≤ i_size ip →
  let m := Z.min (n - tot) (Z.of_nat BSIZE - off `mod` Z.of_nat BSIZE) in
  ∃ b' bs, readi_step retries i ip n (tot, off, dst) s = Ok (inl (tot + m, off + m, dst ++ bs)) (set_cache b' s) ∧
    wrote L (cache s) b' [] ∧ 0 < m ∧ length bs = Z.to_nat m ∧
    ∀ k, (k < Z.to_nat m)%nat → bs !! k = fbyte (cache s) ip (off + Z.of_nat k).
Proof.
  intros Q Hr Hi F Htot Hoff Hend m. set (bn := off / Z.of_nat BSIZE). set (o := off `mod` Z.of_nat BSIZE) in *.
  assert (off = Z.of_nat BSIZE * bn + o ∧ 0 ≤ o < Z.of_nat BSIZE) as [Hdiv Ho].
  { unfold bn, o, BSIZE. pose proof (Z.div_mod off 512 ltac:(lia)). pose proof (Z.mod_pos_bound off 512 ltac:(lia)). lia. }
  assert (0 ≤ bn) as Hbn by (apply Z.div_pos; unfold BSIZE; lia).
  destruct (fi_blocks _ _ F bn Hbn ltac:(unfold BSIZE in *; lia)) as (a & Ha & Hra).
  destruct (bmap_mapped L s i ip bn a Q Hr Hi F Hbn ltac:(unfold BSIZE in *; lia) Ha) as (b1 & R1 & W1).
  set (s1 := set_cache b1 s) in *.
  destruct (read_block_ok L (cache s1) a) as (bp & c & x & d & b2 & R2 & R3 & Hd & Hl & Hlen & R4 & W2);
    [apply W1|by eapply roomy_wrote|change (cache s1) with b1; rewrite (wrote_length _ _ _ _ W1); lia|].
  exists b2, (slice d (Z.to_nat o) (Z.to_nat m)). split_and!.
  - unfold readi_step. rewrite (proj2 (Z.ltb_lt _ _)) by lia. fold bn. rewrite (bind_ok _ _ _ _ _ R1).
    rewrite (fi_dev _ _ F), (bind_ok _ _ _ _ _ (onb_ok _ s1 _ _ R2)). unfold bdata.
    rewrite (bind_ok (x ← onb (getb bp); _) _ _ d (set_cache c s1)).
    2: { rewrite (bind_ok _ _ _ _ _ (onb_ok _ (set_cache c s1) _ _ R3)). by rewrite Hd. }
    by rewrite (bind_ok _ _ _ _ _ (onb_ok _ (set_cache c s1) _ _ R4)).
  - apply (wrote_trans _ _ _ _ [] []  W1 W2).
  - unfold m. lia.
  - apply length_slice. rewrite Hlen. unfold m. lia.
  - intros k Hk. rewrite lookup_slice, decide_True by done. unfold fbyte.
    assert ((off + Z.of_nat k) / Z.of_nat BSIZE = bn ∧ (off + Z.of_nat k) `mod` Z.of_nat BSIZE = o + Z.of_nat k) as [-> ->].
    { replace (off + Z.of_nat k) with (bn * Z.of_nat BSIZE + (o + Z.of_nat k)) by lia.
      split; [rewrite Z.div_add_l by (unfold BSIZE; lia); rewrite Z.div_small by (unfold m in Hk; lia); lia|].
      rewrite Z.add_comm, Z.mod_add by (unfold BSIZE; lia). apply Z.mod_small. unfold m in Hk. lia. }
    rewrite Ha. cbn. change (cache s1) with b1 in Hl. rewrite (wr_lblk _ _ _ _ W1) in Hl by lia. cbn in Hl. rewrite Hl. cbn.
    f_equal. lia.
Qed.

Lemma readi_loop L s i ip n off0 fuel :
  quiet L [] (cache s) → roomy (cache s) → inodes s !! i = Some ip → file_ok (cache s) ip →
  0 ≤ off0 → off0 + n ≤ i_size ip →
  ∀ k tot dst b1, wrote L (cache s) b1 [] → 0 ≤ tot ≤ n → (Z.to_nat (n - tot) ≤ k)%nat → (k < fuel)%nat →
    length dst = Z.to_nat tot → (∀ j, (j < Z.to_nat tot)%nat → dst !! j = fbyte (cache s) ip (off0 + Z.of_nat j)) →
    ∃ b' dst', while fuel (readi_step retries i ip n) (tot, off0 + tot, dst) (set_cache b1 s) = Ok (n, off0 + n, dst') (set_cache b' s) ∧
      wrote L (cache s) b' [] ∧ length dst' = Z.to_nat n ∧
      ∀ j, (j < Z.to_nat n)%nat → dst' !! j = fbyte (cache s) ip (off0 + Z.of_nat j).
Proof.
  intros Q Hr Hi F Hoff Hend. induction fuel as [|fuel IH]; intros k tot dst b1 W1 Htot Hk Hf Hlen Hb; [lia|].
  destruct (decide (tot = n)) as [->|Hne].
  - exists b1, dst. rewrite (while_ok _ _ _ _ (inr (n, off0 + n, dst)) (set_cache b1 s)); [done|].
    unfold readi_step. by rewrite (proj2 (Z.ltb_ge _ _)) by lia.
  - destruct (readi_step_ok L (set_cache b1 s) i ip n tot (off0 + tot) dst) as (b2 & bs & R & W2 & Hm & Hbl & Hbs);
      [apply W1|by eapply roomy_wrote|done|by eapply file_ok_wrote|lia|lia|lia|].
    set (m := Z.min _ _) in *. change (cache (set_cache b1 s)) with b1 in *.
    rewrite (while_ok _ _ _ _ _ _ R). replace (off0 + tot + m) with (off0 + (tot + m)) by lia.
    change (set_cache b2 (set_cache b1 s)) with (set_cache b2 s).
    apply (IH (Z.to_nat (n - (tot + m)))); [by apply (wrote_trans _ _ _ _ [] [] W1 W2)|lia|lia|lia| |].
    + rewrite length_app, Hlen, Hbl. lia.
    + intros j Hj. destruct (decide (j < Z.to_nat tot)%nat).
      * rewrite lookup_app_l by lia. by apply Hb.
      * rewrite lookup_app_r by lia. rewrite Hbs by lia.
        rewrite (fbyte_wrote L (cache s)) by (done || lia). f_equal. lia.
Qed.

Lemma readi_spec L s i ip off n :
  quiet L [] (cache s) → roomy (cache s) → inodes s !! i = Some ip → file_ok (cache s) ip →
  i_type ip ≠ T_DEV → 0 ≤ off < 2 ^ 32 → 0 ≤ n < 2 ^ 32 →
  let n' := Z.min n (i_size ip - off) in
  if (off >? i_size ip) || (off + n >=? 2 ^ 32) then readi retries dev_read i off n s = Ok (-1, []) s
  else ∃ b' bs, readi retries dev_read i off n s = Ok (n', bs) (set_cache b' s) ∧ wrote L (cache s) b' [] ∧
    length bs = Z.to_nat n' ∧ ∀ k, (k < Z.to_nat n')%nat → bs !! k = fbyte (cache s) ip (off + Z.of_nat k).
Proof.
  intros Q Hr Hi F Ht Hoff Hn n'. unfold readi. rewrite (bind_ok _ _ _ _ _ (geti_ok s i ip Hi)).
  rewrite (proj2 (Z.eqb_neq _ _)) by done.
  assert ((u32 (off + n) <? off) = (off + n >=? 2 ^ 32)) as ->.
  { unfold u32. rewrite Z.geb_leb. destruct (Z.leb_spec (2 ^ 32) (off + n)).
    - apply Z.ltb_lt. replace (off + n) with (off + n - 2 ^ 32 + 1 * 2 ^ 32) by lia. rewrite Z.mod_add, Z.mod_small by lia. lia.
    - apply Z.ltb_ge. rewrite Z.mod_small by lia. lia. }
  destruct ((off >? i_size ip) || (off + n >=? 2 ^ 32)) eqn:E; [done|].
  apply orb_false_iff in E as [E1 E2]. rewrite Z.gtb_ltb in E1. apply Z.ltb_ge in E1.
  assert ((if off + n >? i_size ip then i_size ip - off else n) = n') as ->.
  { unfold n'. rewrite Z.gtb_ltb. destruct (Z.ltb_spec (i_size ip) (off + n)); lia. }
  destruct (readi_loop L s i ip n' off (S (Z.to_nat n')) Q Hr Hi F ltac:(lia) ltac:(lia) (Z.to_nat n') 0 [] (cache s))
    as (b' & dst & R & Hw & Hlen & Hb); [by apply wrote_nil|lia|lia|lia|done|lia|].
  rewrite Z.add_0_r in R.
  assert (set_cache (cache s) s = s) as Hid by (by destruct s as [[]]). rewrite Hid in R.
  exists b', dst. split_and!; [|done|done|done]. rewrite (bind_ok _ _ _ _ _ R). done.
Qed.

(** C23: [readi] on a file whose blocks are all on the disk returns exactly the bytes of
    the file from [off] on, across block boundaries and through the indirect
    block: [n] of them, or as many as there are; it fails exactly when [off] is
    past the end or [off + n] overflows; and it changes nothing but the cache. *)
Theorem readi_content L s i ip off n :
  quiet L [] (cache s) → roomy (cache s) → inodes s !! i = Some ip → file_ok (cache s) ip →
  i_type ip ≠ T_DEV → 0 ≤ off < 2 ^ 32 → 0 ≤ n < 2 ^ 32 →
  let n' := Z.min n (i_size ip - off) in
  if (off >? i_size ip) || (off + n >=? 2 ^ 32) then readi retries dev_read i off n s = Ok (-1, []) s
  else ∃ b' bs, readi retries dev_read i off n s = Ok (n', bs) (set_cache b' s) ∧ wrote L (cache s) b' [] ∧
    length bs = Z.to_nat n' ∧ ∀ k, (k < Z.to_nat n')%nat → bs !! k = fbyte (cache s) ip (off + Z.of_nat k).
Proof. apply readi_spec. Qed.
End read.

(** A file of 700 bytes in blocks 40 and 41, the first one full of sevens. *)
Definition fs_disk : list block := <[40%nat := replicate BSIZE 7]> log_disk.
Definition fs1 : ist pst :=
  Ist (Lst (Bst (Table.table mach0 100) bufs_init fs_disk []) 2 30 0 0 1 0 (replicate 30 0)) sb70
    (ip1 :: replicate 49 free_inode).

Lemma fs1_quiet : quiet ∅ [] (cache fs1) ∧ dirty_idx (cache fs1) = [].
Proof.
  apply (booted_quiet ∅ (Table.table mach0 100) fs_disk); [exact table_ok|set_solver|set_solver|].
  intros n d [(_ & <- & _)|[_ Hd]]%list_lookup_insert_Some; [apply length_replicate|by eapply log_disk_len].
Qed.

Lemma fs1_file : file_ok (cache fs1) ip1.
Proof.
  split.
  - reflexivity.
  - by vm_compute.
  - reflexivity.
  - intros bn Hbn Hsz. assert (bn = 0 ∨ bn = 1) as [-> | ->] by (cbn in Hsz; unfold BSIZE in Hsz; lia).
    + exists 40. split; [reflexivity|]. by vm_compute.
    + exists 41. split; [reflexivity|]. by vm_compute.
  - intros H. exfalso. revert H. by vm_compute.
Qed.

Lemma readi_content_witness :
  ∃ s' bs, readi 0 (λ _, None) 0 510 10 fs1 = Ok (10, bs) s' ∧ length bs = 10%nat ∧
    bs !! 1%nat = Some 7 ∧ bs !! 2%nat = Some 0.
Proof.
  destruct fs1_quiet as [Q Hd].
  destruct (readi_content 0 (λ _, None) ∅ fs1 0 ip1 510 10) as (b' & bs & R & _ & Hl & Hb).
  - exact Q.
  - unfold roomy. rewrite Hd. unfold NBUF. cbn. lia.
  - reflexivity.
  - exact fs1_file.
  - discriminate.
  - lia.
  - lia.
  - exists (set_cache b' fs1), bs. split; [exact R|]. split; [exact Hl|].
    rewrite !Hb by (vm_compute; lia). split; vm_compute; reflexivity.
Defined.
