(* ===== verification/File.v ===== *)
(** * Open files and pipes (file.c, pipe.c, file.h)

    [vst B]: the file system below, the table of open files, and the pipes.  A
    [struct file *] is an index into [ftable.file]; a [struct pipe *] is the
    address of the page it was allocated in, whose content is kept in [pipes].
    Bytes that the functions read from or copy to their [addr] argument are
    passed and returned as lists.  [kend] is the linker's [end] (see Kalloc.v),
    [retries] bounds how often a thread is woken in vain. *)
From S2P Require Import Prelude Spinlock Str Ptable PtableLists Sched Services Kalloc BioRing Bio DiskFmt Log Fs.

(** ** Data *)

Definition PIPESIZE : Z := 512.

Record pipe := Pipe {
  pi_data : list Z;
  pi_nread : Z;
  pi_nwrite : Z;
  pi_readopen : bool;
  pi_writeopen : bool
}.
Definition set_pi_data x (p : pipe) := Pipe x (pi_nread p) (pi_nwrite p) (pi_readopen p) (pi_writeopen p).
Definition set_pi_nread x (p : pipe) := Pipe (pi_data p) x (pi_nwrite p) (pi_readopen p) (pi_writeopen p).
Definition set_pi_nwrite x (p : pipe) := Pipe (pi_data p) (pi_nread p) x (pi_readopen p) (pi_writeopen p).
Definition set_pi_readopen x (p : pipe) := Pipe (pi_data p) (pi_nread p) (pi_nwrite p) x (pi_writeopen p).
Definition set_pi_writeopen x (p : pipe) := Pipe (pi_data p) (pi_nread p) (pi_nwrite p) (pi_readopen p) x.

Inductive ftype := FD_NONE | FD_PIPE | FD_INODE.
#[global] Instance ftype_eq_dec : EqDecision ftype.
Proof. solve_decision. Defined.

(** [struct file]; [f_pipe] and [f_ip] are null when [0] and [None]. *)
Record file := File {
  f_type : ftype;
  f_ref : Z;
  f_readable : bool;
  f_writable : bool;
  f_pipe : Z;
  f_ip : option nat;
  f_off : Z
}.
Definition set_f_type x (f : file) := File x (f_ref f) (f_readable f) (f_writable f) (f_pipe f) (f_ip f) (f_off f).
Definition set_f_ref x (f : file) := File (f_type f) x (f_readable f) (f_writable f) (f_pipe f) (f_ip f) (f_off f).
Definition set_f_readable x (f : file) := File (f_type f) (f_ref f) x (f_writable f) (f_pipe f) (f_ip f) (f_off f).
Definition set_f_writable x (f : file) := File (f_type f) (f_ref f) (f_readable f) x (f_pipe f) (f_ip f) (f_off f).
Definition set_f_pipe x (f : file) := File (f_type f) (f_ref f) (f_readable f) (f_writable f) x (f_ip f) (f_off f).
Definition set_f_ip x (f : file) := File (f_type f) (f_ref f) (f_readable f) (f_writable f) (f_pipe f) x (f_off f).
Definition set_f_off x (f : file) := File (f_type f) (f_ref f) (f_readable f) (f_writable f) (f_pipe f) (f_ip f) x.

Record vst (B : Type) := Vst {
  fbase : ist (kst B);
  files : list file;
  pipes : gmap Z pipe
}.
Arguments Vst {B}.
Arguments fbase {B}.
Arguments files {B}.
Arguments pipes {B}.

Definition set_fbase {B} (b : ist (kst B)) (s : vst B) : vst B := Vst b (files s) (pipes s).
Definition set_files {B} (x : list file) (s : vst B) : vst B := Vst (fbase s) x (pipes s).
Definition set_pipes {B} (x : gmap Z pipe) (s : vst B) : vst B := Vst (fbase s) (files s) x.

#[global] Instance vst_base B : Lens (vst B) (ist (kst B)) := {| view := fbase; put := set_fbase |}.
#[global] Instance vst_base_ok B : LensOk (vst B) (ist (kst B)).
Proof. by split; intros; try destruct s. Qed.
#[global] Instance vst_ops B {O : KOps B} : KOps (vst B) := wrap_ops.
#[global] Instance vst_laws B {O : KOps B} {W : KLaws B} : KLaws (vst B) := wrap_laws.

(** Running the layers below: file system, log, page allocator. *)
Definition oni {B A} (m : K (ist (kst B)) A) : K (vst B) A := lift m.
Definition onlog {B A} (m : K (lst (kst B)) A) : K (vst B) A := oni (onl m).
Definition onk {B A} (m : K (kst B) A) : K (vst B) A := oni (onb (lift m)).

Definition getf {B} (i : nat) : K (vst B) file := s ← get; deref (files s !! i).
Definition setf {B} (i : nat) (g : file → file) : K (vst B) unit := λ s,
  match files s !! i with
  | Some f => Ok tt (set_files (<[i := g f]> (files s)) s)
  | None => Fault
  end.
Definition getpipe {B} (p : Z) : K (vst B) pipe := s ← get; deref (pipes s !! p).
Definition setpipe {B} (p : Z) (g : pipe → pipe) : K (vst B) unit := λ s,
  match pipes s !! p with
  | Some x => Ok tt (set_pipes (<[p := g x]> (pipes s)) s)
  | None => Fault
  end.

(** [p->data[p->nwrite++ % PIPESIZE] = c] and [c = p->data[p->nread++ % PIPESIZE]]. *)
Definition pipe_put (c : Z) (p : pipe) : pipe :=
  set_pi_nwrite (u32 (pi_nwrite p + 1)) (set_pi_data (<[Z.to_nat (pi_nwrite p `mod` PIPESIZE) := c]> (pi_data p)) p).
Definition pipe_get (p : pipe) : option Z := pi_data p !! Z.to_nat (pi_nread p `mod` PIPESIZE).

(** [data] of a new pipe is what the page holds behind the lock (52 bytes). *)
Definition pipe_page (m : mem) (p : Z) : list Z :=
  (λ k, m (p + 52 + Z.of_nat k)) <$> seq 0 (Z.to_nat PIPESIZE).

(** The scan of [filealloc]. *)
Fixpoint free_file (l : list file) (k : nat) : option nat :=
  match l with
  | [] => None
  | f :: l' => if f_ref f =? 0 then Some k else free_file l' (S k)
  end.

Section file.
Context {B : Type} {O : KOps B} (kend : Z) (retries : nat).
Context (dev_read : Z → option (nat → Z → K (ist (kst B)) (Z * list Z))).
Context (dev_write : Z → option (nat → list Z → Z → K (ist (kst B)) Z)).

(** ** Pipes *)

Definition pipeclose (p : Z) (writable : bool) : K (vst B) unit :=
  k_acquire (Lpipe p);;
  (if writable then
     setpipe p (set_pi_writeopen false);;
     k_wakeup (ChPipeRead p)
   else
     setpipe p (set_pi_readopen false);;
     k_wakeup (ChPipeWrite p));;
  x ← getpipe p;
  if negb (pi_readopen x) && negb (pi_writeopen x) then
    k_release (Lpipe p);;
    onk (kfree kend p);;
    modify (λ s, set_pipes (delete p (pipes s)) s)
  else k_release (Lpipe p).

(** The inner loop of [pipewrite]: [inr true] for its [return -1]. *)
Definition pipe_full (p : Z) (_ : bool) : K (vst B) (bool + bool) :=
  x ← getpipe p;
  if pi_nwrite x =? u32 (pi_nread x + PIPESIZE) then
    q ← k_getproc;
    if negb (pi_readopen x) || p_killed q then
      k_release (Lpipe p);;
      mret (inr true)
    else
      k_wakeup (ChPipeRead p);;
      k_sleep (ChPipeWrite p) (Lpipe p);;
      mret (inl false)
  else mret (inr false).

(** One round of its outer loop. *)
Definition pipewrite_byte (p : Z) (addr : list Z) (i : nat) : K (vst B) (option Z) :=
  full ← while (S retries) (pipe_full p) false;
  if (full : bool) then mret (Some (-1))
  else
    c ← deref (addr !! i);
    setpipe p (pipe_put c);;
    mret None.

Definition pipewrite (p : Z) (addr : list Z) (n : Z) : K (vst B) Z :=
  k_acquire (Lpipe p);;
  r ← for_ret (seq 0 (Z.to_nat n)) (pipewrite_byte p addr);
  match r with
  | Some v => mret v
  | None =>
      k_wakeup (ChPipeRead p);;
      k_release (Lpipe p);;
      mret n
  end.

(** The first loop of [piperead]: [inr true] for its [return -1]. *)
Definition pipe_empty (p : Z) (_ : bool) : K (vst B) (bool + bool) :=
  x ← getpipe p;
  if (pi_nread x =? pi_nwrite x) && pi_writeopen x then
    q ← k_getproc;
    if p_killed q then
      k_release (Lpipe p);;
      mret (inr true)
    else
      k_sleep (ChPipeRead p) (Lpipe p);;
      mret (inl false)
  else mret (inr false).

(** Its second loop: the bytes, at most [n]. *)
Fixpoint pipe_take (p : Z) (n : nat) : K (vst B) (list Z) :=
  match n with
  | 0%nat => mret []
  | S n' =>
      x ← getpipe p;
      if pi_nread x =? pi_nwrite x then mret []
      else
        c ← deref (pipe_get x);
        setpipe p (set_pi_nread (u32 (pi_nread x + 1)));;
        l ← pipe_take p n';
        mret (c :: l)
  end.

Definition piperead (p n : Z) : K (vst B) (Z * list Z) :=
  k_acquire (Lpipe p);;
  killed ← while (S retries) (pipe_empty p) false;
  if (killed : bool) then mret (-1, [])
  else
    l ← pipe_take p (Z.to_nat n);
    k_wakeup (ChPipeWrite p);;
    k_release (Lpipe p);;
    mret (Z.of_nat (length l), l).

(** ** Files *)

Definition fileinit : K (vst B) unit := k_initlock Lftable "ftable".

Definition filealloc : K (vst B) (option nat) :=
  k_acquire Lftable;;
  s ← get;
  match free_file (files s) 0 with
  | Some i =>
      setf i (set_f_ref 1);;
      k_release Lftable;;
      mret (Some i)
  | None =>
      k_release Lftable;;
      mret None
  end.

Definition filedup (i : nat) : K (vst B) nat :=
  k_acquire Lftable;;
  f ← getf i;
  panic_if (f_ref f <? 1) "filedup";;
  setf i (set_f_ref (f_ref f + 1));;
  k_release Lftable;;
  mret i.

Definition fileclose (i : nat) : K (vst B) unit :=
  k_acquire Lftable;;
  f ← getf i;
  panic_if (f_ref f <? 1) "fileclose";;
  setf i (set_f_ref (f_ref f - 1));;
  ff ← getf i;
  if f_ref ff >? 0 then k_release Lftable
  else
    setf i (set_f_ref 0);;
    setf i (set_f_type FD_NONE);;
    k_release Lftable;;
    match f_type ff with
    | FD_PIPE => pipeclose (f_pipe ff) (f_writable ff)
    | FD_INODE =>
        onlog (begin_op retries);;
        ip ← deref (f_ip ff);
        oni (iput retries ip);;
        onlog (end_op retries)
    | FD_NONE => mret tt
    end.

Definition filestat (i : nat) : K (vst B) (Z * option stat) :=
  f ← getf i;
  match f_type f with
  | FD_INODE =>
      ip ← deref (f_ip f);
      oni (ilock retries (Some ip));;
      st ← oni (stati ip);
      oni (iunlock (Some ip));;
      mret (0, Some st)
  | _ => mret (-1, None)
  end.

Definition fileread (i : nat) (n : Z) : K (vst B) (Z * list Z) :=
  f ← getf i;
  if negb (f_readable f) then mret (-1, [])
  else
    match f_type f with
    | FD_PIPE => piperead (f_pipe f) n
    | FD_INODE =>
        ip ← deref (f_ip f);
        oni (ilock retries (Some ip));;
        r ← oni (readi retries dev_read ip (f_off f) (u32 n));
        let v := i32 (fst r) in
        (if v >? 0 then setf i (λ f, set_f_off (u32 (f_off f + v)) f) else mret tt);;
        oni (iunlock (Some ip));;
        mret (v, snd r)
    | FD_NONE => panic "fileread"
    end.

(** The largest piece [filewrite] gives to one transaction. *)
Definition write_max : Z := ((LOGSIZE - 1 - 1 - 2) / 2) * 512.

(** One iteration of its loop; [inr] for its end and for the [break]. *)
Definition filewrite_step (k : nat) (ip : nat) (addr : list Z) (n : Z) (i : Z) : K (vst B) (Z + Z) :=
  if i <? n then
    let n1 := if n - i >? write_max then write_max else n - i in
    onlog (begin_op retries);;
    oni (ilock retries (Some ip));;
    f ← getf k;
    r ← oni (writei retries dev_write ip (drop (Z.to_nat i) addr) (f_off f) (u32 n1));
    (if r >? 0 then setf k (λ f, set_f_off (u32 (f_off f + r)) f) else mret tt);;
    oni (iunlock (Some ip));;
    onlog (end_op retries);;
    if r <? 0 then mret (inr i)
    else
      panic_if (negb (r =? n1)) "short filewrite";;
      mret (inl (i + r))
  else mret (inr i).

Definition filewrite (k : nat) (addr : list Z) (n : Z) : K (vst B) Z :=
  f ← getf k;
  if negb (f_writable f) then mret (-1)
  else
    match f_type f with
    | FD_PIPE => pipewrite (f_pipe f) addr n
    | FD_INODE =>
        ip ← deref (f_ip f);
        i ← while (S (Z.to_nat n)) (filewrite_step k ip addr n) 0;
        mret (if i =? n then n else -1)
    | FD_NONE => panic "filewrite"
    end.

(** [bad:] of [pipealloc] closes the files that were allocated. *)
Definition pipealloc : K (vst B) (option (nat * nat)) :=
  f0 ← filealloc;
  match f0 with
  | None => mret None
  | Some f0 =>
      f1 ← filealloc;
      match f1 with
      | None => fileclose f0;; mret None
      | Some f1 =>
          p ← onk kalloc;
          if p =? 0 then fileclose f0;; fileclose f1;; mret None
          else
            m ← onk (gets memory);
            modify (λ s, set_pipes (<[p := Pipe (pipe_page m p) 0 0 true true]> (pipes s)) s);;
            k_initlock (Lpipe p) "pipe";;
            setf f0 (λ f, set_f_pipe p (set_f_writable false (set_f_readable true (set_f_type FD_PIPE f))));;
            setf f1 (λ f, set_f_pipe p (set_f_writable true (set_f_readable false (set_f_type FD_PIPE f))));;
            mret (Some (f0, f1))
      end
  end.
End file.
