(* ===== verification/FileProps.v ===== *)
(** * Properties of pipes and open files

    A pipe is a queue of bytes: writing appends and reading takes from the
    front, although the buffer wraps around at [PIPESIZE] and the counters at
    2^32. *)
From S2P Require Import Prelude Spinlock Str Ptable PtableLists Sched Choice Scheduling Services Kalloc BioRing Bio BioFacts BioProps BufSpec DiskFmt Log LogFacts Crash Txn LogProps Fs FsProps FsRead File.

(** ** A pipe as a queue *)

(** The number of bytes in the pipe. *)
Definition pipe_count (p : pipe) : Z := u32 (pi_nwrite p - pi_nread p).

(** The bytes, oldest first. *)
Definition pipe_queue (p : pipe) : list Z :=
  (λ k, default 0 (pi_data p !! Z.to_nat (u32 (pi_nread p + Z.of_nat k) `mod` PIPESIZE))) <$> seq 0 (Z.to_nat (pipe_count p)).

Record pipe_ok (p : pipe) : Prop := Pipe_ok {
  pk_len : length (pi_data p) = Z.to_nat PIPESIZE;
  pk_read : 0 ≤ pi_nread p < 2 ^ 32;
  pk_write : 0 ≤ pi_nwrite p < 2 ^ 32;
  pk_count : pipe_count p ≤ PIPESIZE
}.

Lemma u32_mod_pipe z : u32 z `mod` PIPESIZE = z `mod` PIPESIZE.
Proof.
  unfold u32, PIPESIZE. change (2 ^ 32) with (512 * 8388608). rewrite Z.rem_mul_r by lia.
  rewrite Z.mul_comm, Z.mod_add by lia. apply Z.mod_mod. lia.
Qed.

Lemma length_pipe_queue p : length (pipe_queue p) = Z.to_nat (pipe_count p).
Proof. unfold pipe_queue. by rewrite length_fmap, length_seq. Qed.

Lemma pipe_count_range p : 0 ≤ pipe_count p.
Proof. unfold pipe_count. apply u32_range. Qed.

(** Full and empty, as the code tests them. *)
Lemma pipe_full_iff p : pipe_ok p → (pi_nwrite p =? u32 (pi_nread p + PIPESIZE)) = (pipe_count p =? PIPESIZE).
Proof.
  intros [H1 H2 H3 H4]. unfold pipe_count, u32, PIPESIZE in *.
  destruct (Z.eqb_spec (pi_nwrite p) ((pi_nread p + 512) `mod` 2 ^ 32)),
    (Z.eqb_spec ((pi_nwrite p - pi_nread p) `mod` 2 ^ 32) 512); try done; exfalso;
    Z.to_euclidean_division_equations; lia.
Qed.

Lemma pipe_empty_iff p : pipe_ok p → (pi_nread p =? pi_nwrite p) = (pipe_count p =? 0).
Proof.
  intros [H1 H2 H3 H4]. unfold pipe_count, u32, PIPESIZE in *.
  destruct (Z.eqb_spec (pi_nread p) (pi_nwrite p)), (Z.eqb_spec ((pi_nwrite p - pi_nread p) `mod` 2 ^ 32) 0); try done;
    exfalso; Z.to_euclidean_division_equations; lia.
Qed.

Lemma count_put c p : pipe_ok p → pipe_count p < PIPESIZE → pipe_count (pipe_put c p) = pipe_count p + 1.
Proof.
  intros [H1 H2 H3 H4] Hc. unfold pipe_count, pipe_put, u32, PIPESIZE in *. cbn.
  Z.to_euclidean_division_equations; lia.
Qed.

Lemma slot_index p k :
  0 ≤ k → u32 (pi_nread p + k) `mod` PIPESIZE = (pi_nread p + k) `mod` PIPESIZE.
Proof. intros _. apply u32_mod_pipe. Qed.

(** Different positions within the size of the buffer are different slots. *)
Lemma slot_ne a j k : 0 ≤ j < PIPESIZE → 0 ≤ k < PIPESIZE → j ≠ k → (a + j) `mod` PIPESIZE ≠ (a + k) `mod` PIPESIZE.
Proof. unfold PIPESIZE. intros. Z.to_euclidean_division_equations; lia. Qed.

Lemma write_slot p : pipe_ok p → pi_nwrite p `mod` PIPESIZE = (pi_nread p + pipe_count p) `mod` PIPESIZE.
Proof.
  intros [H1 H2 H3 H4]. rewrite <- (u32_mod_pipe (pi_nread p + _)). f_equal. unfold pipe_count, u32, PIPESIZE in *.
  Z.to_euclidean_division_equations; lia.
Qed.

Lemma put_ok c p : pipe_ok p → pipe_count p < PIPESIZE → pipe_ok (pipe_put c p).
Proof.
  intros Hok Hc. pose proof (count_put c p Hok Hc) as Hcp. destruct Hok as [H1 H2 H3 H4]. split; cbn.
  - by rewrite length_insert.
  - done.
  - apply u32_range.
  - lia.
Qed.

Lemma put_queue c p : pipe_ok p → pipe_count p < PIPESIZE → pipe_queue (pipe_put c p) = pipe_queue p ++ [c].
Proof.
  intros Hok Hc. unfold pipe_queue. rewrite count_put by done. pose proof (pipe_count_range p) as Hp.
  replace (Z.to_nat (pipe_count p + 1)) with (Z.to_nat (pipe_count p) + 1)%nat by lia.
  rewrite seq_app, fmap_app. cbn [seq fmap list_fmap Nat.add]. unfold PIPESIZE in Hc.
  assert (∀ k, pi_nread (pipe_put c p) + Z.of_nat k = pi_nread p + Z.of_nat k) as Hr by done.
  assert ((pi_nwrite p) `mod` PIPESIZE < 512) as Hlt by (unfold PIPESIZE; apply Z.mod_pos_bound; lia).
  pose proof (Z.mod_pos_bound (pi_nwrite p) PIPESIZE ltac:(unfold PIPESIZE; lia)) as Hpos.
  f_equal.
  - apply list_fmap_ext. intros j k [-> Hj]%lookup_seq. cbn [Nat.add]. unfold pipe_put. cbn [pi_data pi_nread set_pi_nwrite set_pi_data].
    rewrite !slot_index, list_lookup_insert_ne; [done| |lia]. rewrite (write_slot p Hok). intros Heq.
    apply (slot_ne (pi_nread p) (pipe_count p) (Z.of_nat j)); unfold PIPESIZE in *; try lia.
    apply Z2Nat.inj; try done; apply Z.mod_pos_bound; lia.
  - unfold pipe_put. cbn [pi_data pi_nread set_pi_nwrite set_pi_data]. f_equal.
    rewrite slot_index, Z2Nat.id by lia. rewrite <- (write_slot p Hok), list_lookup_insert_eq; [done|].
    rewrite (pk_len _ Hok). unfold PIPESIZE in *. lia.
Qed.

Lemma get_queue p :
  pipe_ok p → pipe_count p ≠ 0 →
  let p' := set_pi_nread (u32 (pi_nread p + 1)) p in
  pipe_ok p' ∧ ∃ c, pipe_get p = Some c ∧ pipe_queue p = c :: pipe_queue p'.
Proof.
  intros Hok Hc p'. pose proof (pipe_count_range p) as Hp.
  assert (pipe_count p' = pipe_count p - 1) as Hcp.
  { destruct Hok as [H1 H2 H3 H4]. unfold p', pipe_count, u32, PIPESIZE in *. cbn. Z.to_euclidean_division_equations; lia. }
  split.
  { destruct Hok as [H1 H2 H3 H4]. split; cbn; [done|apply u32_range|done|lia]. }
  destruct (lookup_lt_is_Some_2 (pi_data p) (Z.to_nat (pi_nread p `mod` PIPESIZE))) as [c Hgc].
  { rewrite (pk_len _ Hok). pose proof (Z.mod_pos_bound (pi_nread p) PIPESIZE ltac:(unfold PIPESIZE; lia)). lia. }
  exists c. split; [exact Hgc|]. unfold pipe_queue. rewrite Hcp.
  replace (Z.to_nat (pipe_count p)) with (S (Z.to_nat (pipe_count p - 1))) by lia. cbn [seq fmap list_fmap]. f_equal.
  - rewrite slot_index, Z.add_0_r, Hgc by lia. done.
  - rewrite <- fmap_S_seq, <- list_fmap_compose. apply list_fmap_ext. intros j k _. cbn.
    rewrite !u32_mod_pipe. rewrite <- (Z.add_mod_idemp_l (u32 _)), u32_mod_pipe, Z.add_mod_idemp_l by (unfold PIPESIZE; lia).
    do 4 f_equal. lia.
Qed.

(** ** The operations on that queue *)

Section pipes.
Context {B : Type} {O : KOps B} {W : KLaws B} (retries : nat).
Implicit Types (s : vst B) (p : Z) (x : pipe).

(** The state with pipe [p] replaced. *)
Definition with_pipe p x s : vst B := set_pipes (<[p := x]> (pipes s)) s.

Lemma vst_frame s s' : k_frame s s' → pipes s' = pipes s ∧ files s' = files s.
Proof. by intros (b & -> & _). Qed.

Lemma k_ok_pipe L p x s : k_ok L (with_pipe p x s) ↔ k_ok L s.
Proof. done. Qed.

Lemma getpipe_ok p x s : pipes s !! p = Some x → getpipe p s = Ok x s.
Proof. intros H. unfold getpipe. krun. by rewrite H. Qed.

Lemma setpipe_ok p x g s : pipes s !! p = Some x → setpipe p g s = Ok tt (with_pipe p (g x) s).
Proof. intros H. unfold setpipe. by rewrite H. Qed.

Lemma with_pipe_twice p x y s : with_pipe p y (with_pipe p x s) = with_pipe p y s.
Proof. unfold with_pipe, set_pipes. cbn. by rewrite insert_insert_eq. Qed.

Lemma with_pipe_same p x s : pipes s !! p = Some x → with_pipe p x s = s.
Proof. intros H. unfold with_pipe, set_pipes. rewrite insert_id by done. by destruct s. Qed.

Lemma with_pipe_lookup p x s : pipes (with_pipe p x s) !! p = Some x.
Proof. apply lookup_insert_eq. Qed.

(** One byte written to a pipe with room. *)
Lemma write_byte_room p addr i c x s :
  pipes s !! p = Some x → pipe_ok x → pipe_count x < PIPESIZE → addr !! i = Some c →
  pipewrite_byte retries p addr i s = Ok None (with_pipe p (pipe_put c x) s).
Proof.
  intros Hx Hok Hc Hi. unfold pipewrite_byte.
  assert (pipe_full p false s = Ok (inr false) s) as Hf.
  { unfold pipe_full. rewrite (bind_ok _ _ _ _ _ (getpipe_ok _ _ _ Hx)), pipe_full_iff by done.
    destruct (Z.eqb_spec (pipe_count x) PIPESIZE); [lia|done]. }
  rewrite (bind_ok _ _ s false s) by (by rewrite (while_ok _ _ _ _ (inr false) s)).
  rewrite Hi, (bind_ok _ _ _ _ _ (deref_some _ _)), (bind_ok _ _ _ _ _ (setpipe_ok _ _ _ _ Hx)). done.
Qed.

(** As many bytes as there is room for. *)
Lemma write_room p addr bs i x s :
  pipes s !! p = Some x → pipe_ok x → take (length bs) (drop i addr) = bs →
  pipe_count x + Z.of_nat (length bs) ≤ PIPESIZE →
  ∃ x', for_ret (seq i (length bs)) (pipewrite_byte retries p addr) s = Ok None (with_pipe p x' s) ∧
    pipe_ok x' ∧ pipe_queue x' = pipe_queue x ++ bs ∧
    pi_readopen x' = pi_readopen x ∧ pi_writeopen x' = pi_writeopen x.
Proof.
  revert i x s. induction bs as [|c bs IH]; intros i x s Hx Hok Hbs Hc.
  { exists x. cbn. rewrite app_nil_r, with_pipe_same by done. done. }
  cbn [length] in *.
  destruct (addr !! i) as [c'|] eqn:Hi.
  2: { apply lookup_ge_None in Hi. rewrite drop_ge in Hbs by done. by rewrite take_nil in Hbs. }
  rewrite (drop_S _ _ _ Hi) in Hbs. cbn in Hbs. injection Hbs as -> Hbs.
  destruct (IH (S i) (pipe_put c x) (with_pipe p (pipe_put c x) s)) as (x' & Hr & Hok' & Hq & Hro & Hwo).
  { apply with_pipe_lookup. }
  { apply put_ok; [done|lia]. }
  { done. }
  { rewrite count_put by (done || lia). lia. }
  exists x'. cbn [seq for_ret].
  rewrite (bind_ok _ _ _ _ _ (write_byte_room p addr i c x s Hx Hok ltac:(lia) Hi)), Hr, with_pipe_twice.
  split_and!; [done|done| |done|done]. rewrite Hq, put_queue by (done || lia). by rewrite <- app_assoc.
Qed.

(** The bytes read from a pipe: as many as asked for or as there are. *)
Lemma take_bytes p n x s :
  pipes s !! p = Some x → pipe_ok x →
  ∃ x', pipe_take p n s = Ok (take n (pipe_queue x)) (with_pipe p x' s) ∧
    pipe_ok x' ∧ pipe_queue x' = drop n (pipe_queue x) ∧
    pi_readopen x' = pi_readopen x ∧ pi_writeopen x' = pi_writeopen x.
Proof.
  revert x s. induction n as [|n IH]; intros x s Hx Hok.
  { exists x. by rewrite with_pipe_same. }
  cbn [pipe_take]. rewrite (bind_ok _ _ _ _ _ (getpipe_ok _ _ _ Hx)), pipe_empty_iff by done.
  destruct (Z.eqb_spec (pipe_count x) 0) as [H0|H0].
  { exists x. pose proof (length_pipe_queue x) as Hl. rewrite H0 in Hl. apply nil_length_inv in Hl.
    rewrite Hl, with_pipe_same by done. done. }
  destruct (get_queue x Hok H0) as (Hok1 & c & Hg & Hq).
  rewrite Hg, (bind_ok _ _ _ _ _ (deref_some _ _)), (bind_ok _ _ _ _ _ (setpipe_ok _ _ _ _ Hx)).
  destruct (IH _ (with_pipe p (set_pi_nread (u32 (pi_nread x + 1)) x) s) (with_pipe_lookup _ _ _) Hok1)
    as (x' & Hr & Hok' & Hq' & Hro & Hwo).
  rewrite (bind_ok _ _ _ _ _ Hr), with_pipe_twice. exists x'. rewrite Hq. split_and!; done.
Qed.

(** The pipe [p] of [s] holds [q]. *)
Definition holds_queue p (readers writers : bool) (q : list Z) s : Prop :=
  k_ok ∅ s ∧ is_Some (k_self s) ∧
  ∃ x, pipes s !! p = Some x ∧ pipe_ok x ∧ pipe_queue x = q ∧ pi_readopen x = readers ∧ pi_writeopen x = writers.

(** Nothing but pipe [p] and the scheduling of processes has changed. *)
Definition elsewhere p s s' : Prop := files s' = files s ∧ delete p (pipes s') = delete p (pipes s).

(** The same pipes, files and current process. *)
Definition same_files s s' : Prop := pipes s' = pipes s ∧ files s' = files s ∧ k_self s' = k_self s.

Lemma keep_same_files s s' : k_frame s s' → k_self s' = k_self s → same_files s s'.
Proof. intros Hf Hs. destruct (vst_frame _ _ Hf). by split_and!. Qed.

Lemma same_files_trans s1 s2 s3 : same_files s1 s2 → same_files s2 s3 → same_files s1 s3.
Proof. intros (?&?&?) (?&?&?). split_and!; congruence. Qed.

(** From the state in which the lock was taken to the end of the function. *)
Lemma to_queue p s s1 x' s2 :
  is_Some (k_self s) → same_files s s1 → same_files (with_pipe p x' s1) s2 → k_ok ∅ s2 → pipe_ok x' →
  holds_queue p (pi_readopen x') (pi_writeopen x') (pipe_queue x') s2 ∧ elsewhere p s s2.
Proof.
  intros Hcur (Hp1 & Hf1 & Hs1) (Hp2 & Hf2 & Hs2) HL Hok.
  change (k_self (with_pipe p x' s1)) with (k_self s1) in Hs2. change (files (with_pipe p x' s1)) with (files s1) in Hf2.
  split.
  - split_and!; [done|by rewrite Hs2, Hs1|]. exists x'. rewrite Hp2, with_pipe_lookup. done.
  - split; [congruence|]. rewrite Hp2. cbn. by rewrite delete_insert_eq, Hp1.
Qed.

(** The end of both functions. *)
Lemma pipe_done {A} c p (v : A) s :
  k_ok {[Lpipe p]} s →
  ∃ s', (k_wakeup c;; k_release (Lpipe p);; mret v) s = Ok v s' ∧ k_ok ∅ s' ∧ same_files s s'.
Proof.
  intros HL. destruct (k_wakeup_ok _ c s HL ltac:(set_solver)) as (s1 & Hr1 & HL1 & Hf1 & Hs1 & _).
  destruct (k_release_ok _ (Lpipe p) s1 HL1 ltac:(set_solver)) as (s2 & Hr2 & HL2 & Hf2 & Hs2 & _).
  exists s2. rewrite (bind_ok _ _ _ _ _ Hr1), (bind_ok _ _ _ _ _ Hr2).
  replace (∅ : gset lockid) with ({[Lpipe p]} ∖ {[Lpipe p]} : gset lockid) by set_solver.
  split_and!; [done|done|]. eapply same_files_trans; by eapply keep_same_files.
Qed.

(** The lock is taken and nothing else happens. *)
Lemma pipe_lock p s :
  k_ok ∅ s → ∃ s', k_acquire (Lpipe p) s = Ok tt s' ∧ k_ok {[Lpipe p]} s' ∧ same_files s s'.
Proof.
  intros HL. destruct (k_acquire_ok _ (Lpipe p) s HL ltac:(set_solver)) as (s1 & Hr1 & HL1 & Hf1 & Hs & Hm).
  exists s1. rewrite union_empty_r_L in HL1. split_and!; [done|done|by apply keep_same_files].
Qed.

Lemma holds_length p r w q s : holds_queue p r w q s → Z.of_nat (length q) ≤ PIPESIZE.
Proof.
  intros (_ & _ & x & _ & Hok & <- & _). rewrite length_pipe_queue. pose proof (pk_count x Hok).
  pose proof (pipe_count_range x). lia.
Qed.

Lemma count_queue x q : pipe_queue x = q → pipe_count x = Z.of_nat (length q).
Proof. intros <-. rewrite length_pipe_queue. pose proof (pipe_count_range x). lia. Qed.

Lemma pipewrite_room p bs r w q s :
  holds_queue p r w q s → Z.of_nat (length q + length bs) ≤ PIPESIZE →
  ∃ s', pipewrite retries p bs (Z.of_nat (length bs)) s = Ok (Z.of_nat (length bs)) s' ∧
    holds_queue p r w (q ++ bs) s' ∧ elsewhere p s s'.
Proof.
  intros (HL & Hcur & x & Hx & Hok & Hq & Hr & Hw) Hc. pose proof (count_queue x q Hq) as Hcq.
  destruct (pipe_lock p s HL) as (s1 & Hr1 & HL1 & Hs1). unfold pipewrite. rewrite (bind_ok _ _ _ _ _ Hr1), Nat2Z.id.
  destruct (write_room p bs bs 0 x s1) as (x' & Hrw & Hok' & Hq' & Hr' & Hw').
  { by rewrite (proj1 Hs1). }
  { done. }
  { by rewrite drop_0, firstn_all. }
  { lia. }
  rewrite (bind_ok _ _ _ _ _ Hrw).
  destruct (pipe_done (ChPipeRead p) p (Z.of_nat (length bs)) (with_pipe p x' s1) HL1) as (s2 & Hr2 & HL2 & Hs2).
  exists s2. split; [done|]. replace (q ++ bs) with (pipe_queue x') by congruence.
  replace r with (pi_readopen x') by congruence. replace w with (pi_writeopen x') by congruence.
  by apply (to_queue p s s1).
Qed.

(** A full pipe nobody reads any more. *)
Lemma write_byte_closed p addr i x s cur :
  k_ok {[Lpipe p]} s → k_self s = Some cur → pipes s !! p = Some x → pipe_ok x →
  pipe_count x = PIPESIZE → pi_readopen x = false →
  ∃ s', pipewrite_byte retries p addr i s = Ok (Some (-1)) s' ∧ k_ok ∅ s' ∧ same_files s s'.
Proof.
  intros HL Hcur Hx Hok Hc Hro.
  destruct (k_release_ok _ (Lpipe p) s HL ltac:(set_solver)) as (s2 & Hr2 & HL2 & Hf2 & Hs2 & _).
  destruct (k_getproc_ok _ s cur HL Hcur) as (q & Hq & _).
  assert (pipe_full p false s = Ok (inr true) s2) as Hf.
  { unfold pipe_full. rewrite (bind_ok _ _ _ _ _ (getpipe_ok _ _ _ Hx)), pipe_full_iff, Hc by done.
    rewrite Z.eqb_refl, (bind_ok _ _ _ _ _ Hq), Hro. cbn [negb orb]. by rewrite (bind_ok _ _ _ _ _ Hr2). }
  exists s2. unfold pipewrite_byte.
  rewrite (bind_ok _ _ s true s2) by (by rewrite (while_ok _ _ _ _ (inr true) s2)).
  replace (∅ : gset lockid) with ({[Lpipe p]} ∖ {[Lpipe p]} : gset lockid) by set_solver.
  split_and!; [done|done|by apply keep_same_files].
Qed.

Lemma pipewrite_closed p bs w q s :
  holds_queue p false w q s → PIPESIZE < Z.of_nat (length q + length bs) →
  ∃ s', pipewrite retries p bs (Z.of_nat (length bs)) s = Ok (-1) s' ∧
    holds_queue p false w (q ++ take (Z.to_nat PIPESIZE - length q) bs) s' ∧ elsewhere p s s'.
Proof.
  intros Hh Hc. pose proof (holds_length _ _ _ _ _ Hh) as Hmax. unfold PIPESIZE in Hmax, Hc.
  destruct Hh as (HL & [cur Hcur] & x & Hx & Hok & Hq & Hr & Hw). pose proof (count_queue x q Hq) as Hcq.
  destruct (pipe_lock p s HL) as (s1 & Hr1 & HL1 & Hs1). unfold pipewrite. rewrite (bind_ok _ _ _ _ _ Hr1), Nat2Z.id.
  set (k := (Z.to_nat PIPESIZE - length q)%nat).
  assert (k = 512 - length q)%nat as Hk by done.
  assert (length (take k bs) = k) as Hlen by (rewrite length_take; lia).
  destruct (write_room p bs (take k bs) 0 x s1) as (x' & Hrw & Hok' & Hq' & Hr' & Hw').
  { by rewrite (proj1 Hs1). }
  { done. }
  { by rewrite drop_0, Hlen. }
  { unfold PIPESIZE. lia. }
  assert (pipe_count x' = PIPESIZE) as Hfull.
  { rewrite (count_queue _ _ Hq'), Hq, length_app, Hlen. unfold PIPESIZE. lia. }
  destruct (write_byte_closed p bs k x' (with_pipe p x' s1) cur HL1) as (s2 & Hr2 & HL2 & Hs2);
    [exact (eq_trans (proj2 (proj2 Hs1)) Hcur)|apply with_pipe_lookup|done|done|congruence|].
  rewrite (seq_split (length bs) k) by lia. rewrite Hlen in Hrw.
  rewrite (bind_ok _ _ _ (Some (-1)) s2).
  2: { rewrite (for_ret_app _ _ _ _ _ Hrw). cbn [for_ret]. by rewrite (bind_ok _ _ _ _ _ Hr2). }
  exists s2. split; [done|]. replace (q ++ take k bs) with (pipe_queue x') by congruence.
  replace false with (pi_readopen x') by congruence. replace w with (pi_writeopen x') by congruence.
  apply (to_queue p s s1); [by eexists|done..].
Qed.

Lemma piperead_ready p n r w q s :
  holds_queue p r w q s → q ≠ [] ∨ w = false →
  ∃ s', piperead retries p n s = Ok (Z.of_nat (length (take (Z.to_nat n) q)), take (Z.to_nat n) q) s' ∧
    holds_queue p r w (drop (Z.to_nat n) q) s' ∧ elsewhere p s s'.
Proof.
  intros (HL & Hcur & x & Hx & Hok & Hq & Hr & Hw) Hrdy. pose proof (count_queue x q Hq) as Hcq.
  destruct (pipe_lock p s HL) as (s1 & Hr1 & HL1 & Hs1). unfold piperead. rewrite (bind_ok _ _ _ _ _ Hr1).
  assert (pipes s1 !! p = Some x) as Hx1 by (by rewrite (proj1 Hs1)).
  assert (pipe_empty p false s1 = Ok (inr false) s1) as He.
  { unfold pipe_empty. rewrite (bind_ok _ _ _ _ _ (getpipe_ok _ _ _ Hx1)), pipe_empty_iff, Hcq, Hw by done.
    destruct Hrdy as [Hne| ->]; [|by rewrite andb_false_r]. by destruct q. }
  rewrite (bind_ok _ _ s1 false s1) by (by rewrite (while_ok _ _ _ _ (inr false) s1)).
  destruct (take_bytes p (Z.to_nat n) x s1 Hx1 Hok) as (x' & Hrt & Hok' & Hq' & Hr' & Hw').
  rewrite (bind_ok _ _ _ _ _ Hrt), Hq.
  destruct (pipe_done (ChPipeWrite p) p (Z.of_nat (length (take (Z.to_nat n) q)), take (Z.to_nat n) q)
    (with_pipe p x' s1) HL1) as (s2 & Hr2 & HL2 & Hs2).
  exists s2. split; [done|]. replace (drop (Z.to_nat n) q) with (pipe_queue x') by congruence.
  replace r with (pi_readopen x') by congruence. replace w with (pi_writeopen x') by congruence.
  by apply (to_queue p s s1).
Qed.

(** *** The abstract pipe: a queue of bytes and its two ends *)

Inductive pipe_op := PWrite (bs : list Z) | PRead (n : Z).

(** A write to a pipe that cannot take all of it waits while there are readers,
    and fails once it is full when there are none; a read waits for the first
    byte while there are writers.  [None]: the operation waits. *)
Definition queue_op (readers writers : bool) (q : list Z) (o : pipe_op) : option (Z * list Z * list Z) :=
  match o with
  | PWrite bs =>
      if (length q + length bs <=? Z.to_nat PIPESIZE)%nat then Some (Z.of_nat (length bs), [], q ++ bs)
      else if readers then None
      else Some (-1, [], q ++ take (Z.to_nat PIPESIZE - length q) bs)
  | PRead n =>
      if bool_decide (q = []) && writers then None
      else Some (Z.of_nat (length (take (Z.to_nat n) q)), take (Z.to_nat n) q, drop (Z.to_nat n) q)
  end.

Fixpoint queue_run (readers writers : bool) (q : list Z) (os : list pipe_op) : option (list (Z * list Z) * list Z) :=
  match os with
  | [] => Some ([], q)
  | o :: os' =>
      '(v, bs, q') ← queue_op readers writers q o;
      '(vs, q'') ← queue_run readers writers q' os';
      Some ((v, bs) :: vs, q'')
  end.

(** The same operations of pipe.c. *)
Definition pipe_run1 p (o : pipe_op) : K (vst B) (Z * list Z) :=
  match o with
  | PWrite bs => v ← pipewrite retries p bs (Z.of_nat (length bs)); mret (v, [])
  | PRead n => piperead retries p n
  end.

Fixpoint pipe_run p (os : list pipe_op) : K (vst B) (list (Z * list Z)) :=
  match os with
  | [] => mret []
  | o :: os' => r ← pipe_run1 p o; rs ← pipe_run p os'; mret (r :: rs)
  end.


Lemma pipe_op_refines p r w q o v bs q' s :
  queue_op r w q o = Some (v, bs, q') → holds_queue p r w q s →
  ∃ s', pipe_run1 p o s = Ok (v, bs) s' ∧ holds_queue p r w q' s' ∧ elsewhere p s s'.
Proof.
  intros Ho Hh. pose proof (holds_length _ _ _ _ _ Hh) as Hmax. unfold PIPESIZE in Hmax. destruct o as [cs|n]; unfold queue_op in Ho; unfold pipe_run1.
  - destruct (Nat.leb_spec (length q + length cs) (Z.to_nat PIPESIZE)) as [Hle|Hle]; unfold PIPESIZE in Hle.
    + injection Ho as <- <- <-.
      destruct (pipewrite_room p cs r w q s Hh) as (s' & Hr & Hpost); [unfold PIPESIZE; lia|].
      exists s'. by rewrite (bind_ok _ _ _ _ _ Hr).
    + destruct r; [done|]. injection Ho as <- <- <-.
      destruct (pipewrite_closed p cs w q s Hh) as (s' & Hr & Hpost); [unfold PIPESIZE; lia|].
      exists s'. by rewrite (bind_ok _ _ _ _ _ Hr).
  - destruct (bool_decide (q = []) && w) eqn:Hb; [done|]. injection Ho as <- <- <-. apply piperead_ready; [done|].
    destruct w; [left|by right]. rewrite andb_true_r in Hb. by apply bool_decide_eq_false in Hb.
Qed.

Lemma pipe_run_refines p r w os q rs q' s :
  queue_run r w q os = Some (rs, q') → holds_queue p r w q s →
  ∃ s', pipe_run p os s = Ok rs s' ∧ holds_queue p r w q' s' ∧ elsewhere p s s'.
Proof.
  revert q rs s. induction os as [|o os IH]; intros q rs s Hr Hh; cbn in Hr.
  { injection Hr as <- <-. by exists s. }
  destruct (queue_op r w q o) as [[[v bs] q1]|] eqn:Ho; [|done]. cbn in Hr.
  destruct (queue_run r w q1 os) as [[vs q2]|] eqn:Hos; [|done]. cbn in Hr. injection Hr as <- <-.
  destruct (pipe_op_refines p r w q o v bs q1 s Ho Hh) as (s1 & Hr1 & Hh1 & He1 & He1').
  destruct (IH q1 vs s1 Hos Hh1) as (s2 & Hr2 & Hh2 & He2 & He2').
  exists s2. cbn [pipe_run]. rewrite (bind_ok _ _ _ _ _ Hr1), (bind_ok _ _ _ _ _ Hr2).
  split_and!; [done|done|split; congruence].
Qed.
End pipes.

(** C21: A pipe behaves as a bounded queue of bytes: any sequence of writes and reads
    of which the queue lets none wait runs to completion and returns what the
    queue returns, byte for byte, also across the wrap-around of the buffer and
    of the 32-bit counters; a write that meets a full pipe without readers
    returns -1, a read at the end of the data of a pipe without writers returns
    0; no other pipe and no open file changes. *)
Theorem pipe_refines_queue {B : Type} {O : KOps B} {W : KLaws B} (retries : nat) p readers writers q os rs q' (s : vst B) :
  holds_queue p readers writers q s →
  queue_run readers writers q os = Some (rs, q') →
  ∃ s', pipe_run retries p os s = Ok rs s' ∧ holds_queue p readers writers q' s' ∧ elsewhere p s s'.
Proof. intros Hh Hr. by apply (pipe_run_refines retries p readers writers os q). Qed.

(** A pipe whose counters are about to wrap around, with nobody to read it. *)
Definition pipe1 : pipe := Pipe (replicate 512 9) (2 ^ 32 - 2) 0 false true.
Definition vst1 : vst pst :=
  Vst (Ist (Lst (Bst kst1 bufs_init log_disk []) 2 30 0 0 1 0 (replicate 30 0)) sb70 (ip1 :: replicate 49 free_inode))
    [] {[0x80401000 := pipe1]}.

Lemma pipe_refines_queue_witness :
  ∃ s', pipe_run 0 0x80401000 [PWrite [1; 2; 3]; PRead 4; PWrite (replicate 600 5)] vst1 =
    Ok [(3, []); (4, [9; 9; 1; 2]); (-1, [])] s'.
Proof.
  destruct (pipe_refines_queue 0 0x80401000 false true [9; 9] [PWrite [1; 2; 3]; PRead 4; PWrite (replicate 600 5)]
    [(3, []); (4, [9; 9; 1; 2]); (-1, [])] ([3] ++ replicate 511 5) vst1) as (s' & Hr & _).
  - split_and!; [exact table_ok|by eexists|]. exists pipe1.
    split_and!; [reflexivity| |by vm_compute|reflexivity|reflexivity]. by split; vm_compute.
  - by vm_compute.
  - by exists s'.
Defined.
