(* ===== verification/Vm.v ===== *)
(** * Page tables and user memory (vm.c, mmu.h)

    Page directories and page tables live in the memory of Kalloc.v, in pages
    that [kalloc] hands out; an entry is read and written as a 32-bit word at
    its kernel address.  A null pointer is the address 0.  [kend] and [kdata]
    are the linker's [end] and [data].  The message [allocuvm] prints when it
    runs out of memory is not represented. *)
From S2P Require Import Prelude Spinlock Str Ptable PtableLists Sched Services Kalloc BioRing Bio DiskFmt Log Fs.

(** ** Addresses and entries (mmu.h) *)

Definition PDXSHIFT : Z := 22.
Definition PTXSHIFT : Z := 12.
Definition NPDENTRIES : nat := 1024.
Definition NPTENTRIES : Z := 1024.
Definition PDX (va : Z) : Z := Z.land (Z.shiftr (u32 va) PDXSHIFT) 0x3FF.
Definition PTX (va : Z) : Z := Z.land (Z.shiftr (u32 va) PTXSHIFT) 0x3FF.

Definition PTE_P : Z := 0x001.
Definition PTE_W : Z := 0x002.
Definition PTE_U : Z := 0x004.
Definition PTE_ADDR (pte : Z) : Z := Z.land (u32 pte) (Z.lnot 0xFFF).
Definition PTE_FLAGS (pte : Z) : Z := Z.land (u32 pte) 0xFFF.

(** [pte & bit]. *)
Definition hasbit (pte bit : Z) : bool := negb (Z.land pte bit =? 0).

(** A row of [kmap]. *)
Record kmap_row := Kmap { virt : Z; phys_start : Z; phys_end : Z; perm : Z }.

(** [memmove] of bytes that are not in [memory]: a buffer of the caller. *)
Fixpoint write_bytes (m : mem) (a : Z) (l : list Z) : mem :=
  match l with [] => m | c :: l' => write_bytes (mwrite m a c) (a + 1) l' end.

Section vm.
Context {B : Type} {O : KOps B} (kend kdata : Z).

Definition getm (a : Z) : K (kst B) Z := gets (λ s, mread32 (memory s) a).
Definition setm (a w : Z) : K (kst B) unit := modify (λ s, set_memory (mwrite32 (memory s) a w) s).
Definition fillm (a c n : Z) : K (kst B) unit := modify (λ s, set_memory (memset (memory s) a c n) s).

(** ** Walking and mapping *)

Definition walkpgdir (pgdir va : Z) (alloc : bool) : K (kst B) Z :=
  let pde := pgdir + 4 * PDX va in
  e ← getm pde;
  if hasbit e PTE_P then mret (p2v (PTE_ADDR e) + 4 * PTX va)
  else if negb alloc then mret 0
  else
    pgtab ← kalloc;
    if pgtab =? 0 then mret 0
    else
      fillm pgtab 0 PGSIZE;;
      setm pde (Z.lor (Z.lor (Z.lor (v2p pgtab) PTE_P) PTE_W) PTE_U);;
      mret (pgtab + 4 * PTX va).

(** The loop of [mappages]. *)
Fixpoint map_loop (fuel : nat) (pgdir a last pa perm : Z) : K (kst B) Z :=
  match fuel with
  | 0%nat => diverge
  | S n =>
      pte ← walkpgdir pgdir a true;
      if pte =? 0 then mret (-1)
      else
        e ← getm pte;
        panic_if (hasbit e PTE_P) "remap";;
        setm pte (Z.lor (Z.lor pa perm) PTE_P);;
        if a =? last then mret 0
        else map_loop n pgdir (u32 (a + PGSIZE)) last (u32 (pa + PGSIZE)) perm
  end.

(** The loop makes one round per page from [a] to [last]. *)
Definition mappages (pgdir va size pa perm : Z) : K (kst B) Z :=
  let a := PGROUNDDOWN (u32 va) in
  let last := PGROUNDDOWN (u32 (va + size - 1)) in
  map_loop (S (Z.to_nat (u32 (last - a) / PGSIZE))) pgdir a last pa perm.

(** ** The kernel's part *)

Definition kmap : list kmap_row := [
  Kmap KERNBASE 0 EXTMEM PTE_W;
  Kmap KERNLINK (v2p KERNLINK) (v2p kdata) 0;
  Kmap kdata (v2p kdata) PHYSTOP PTE_W;
  Kmap DEVSPACE DEVSPACE 0 PTE_W ].

Definition setupkvm : K (kst B) Z :=
  pgdir ← kalloc;
  if pgdir =? 0 then mret 0
  else
    fillm pgdir 0 PGSIZE;;
    panic_if (p2v PHYSTOP >? DEVSPACE) "PHYSTOP too high";;
    r ← for_ret kmap (λ k,
      r ← mappages pgdir (virt k) (u32 (phys_end k - phys_start k)) (phys_start k) (perm k);
      mret (if r <? 0 then Some 0 else None));
    mret (default pgdir r).

(** ** The user's part *)

Definition inituvm (pgdir : Z) (init : list Z) (sz : Z) : K (kst B) unit :=
  panic_if (sz >=? PGSIZE) "inituvm: more than a page";;
  mem ← kalloc;
  (if mem =? 0 then fault else mret tt);;
  fillm mem 0 PGSIZE;;
  _ ← mappages pgdir 0 PGSIZE (v2p mem) (Z.lor PTE_W PTE_U);
  modify (λ s, set_memory (write_bytes (memory s) mem (take (Z.to_nat sz) init)) s).

(** One round of the loop of [deallocuvm]. *)
Definition dealloc_step (pgdir oldsz a : Z) : K (kst B) (Z + Z) :=
  if a <? oldsz then
    pte ← walkpgdir pgdir a false;
    if pte =? 0 then mret (inl (u32 (a + (NPTENTRIES - 1) * PGSIZE + PGSIZE)))
    else
      e ← getm pte;
      (if hasbit e PTE_P then
         let pa := PTE_ADDR e in
         panic_if (pa =? 0) "kfree";;
         kfree kend (p2v pa);;
         setm pte 0
       else mret tt);;
      mret (inl (u32 (a + PGSIZE)))
  else mret (inr a).

(** A round moves [a] by a page at least. *)
Definition deallocuvm (pgdir oldsz newsz : Z) : K (kst B) Z :=
  if newsz >=? oldsz then mret oldsz
  else
    _ ← while (S (S (Z.to_nat (oldsz / PGSIZE)))) (dealloc_step pgdir oldsz) (PGROUNDUP newsz);
    mret newsz.

(** The loop of [allocuvm]: [inr (a, false)] when a page is missing. *)
Definition alloc_step (pgdir newsz : Z) (x : Z * bool) : K (kst B) (Z * bool + Z * bool) :=
  let a := fst x in
  if a <? newsz then
    mem ← kalloc;
    if mem =? 0 then mret (inr (a, false))
    else
      fillm mem 0 PGSIZE;;
      _ ← mappages pgdir a PGSIZE (v2p mem) (Z.lor PTE_W PTE_U);
      mret (inl (u32 (a + PGSIZE), true))
  else mret (inr (a, true)).

Definition allocuvm (pgdir oldsz newsz : Z) : K (kst B) Z :=
  if newsz >=? KERNBASE then mret 0
  else if newsz <? oldsz then mret oldsz
  else
    r ← while (S (S (Z.to_nat (newsz / PGSIZE)))) (alloc_step pgdir newsz) (PGROUNDUP oldsz, true);
    if (snd r : bool) then mret newsz
    else
      _ ← deallocuvm pgdir newsz oldsz;
      mret 0.

Definition freevm (pgdir : Z) : K (kst B) unit :=
  panic_if (pgdir =? 0) "freevm: no pgdir";;
  _ ← deallocuvm pgdir KERNBASE 0;
  for_each (seq 0 NPDENTRIES) (λ i,
    e ← getm (pgdir + 4 * Z.of_nat i);
    if hasbit e PTE_P then kfree kend (p2v (PTE_ADDR e)) else mret tt);;
  kfree kend pgdir.

Definition clearpteu (pgdir uva : Z) : K (kst B) unit :=
  pte ← walkpgdir pgdir uva false;
  panic_if (pte =? 0) "clearpteu";;
  e ← getm pte;
  setm pte (Z.land e (Z.lnot PTE_U)).

(** One round of the loop of [copyuvm]; [Some _] for its [goto bad]. *)
Definition copy_step (pgdir d : Z) (k : nat) : K (kst B) (option unit) :=
  let i := PGSIZE * Z.of_nat k in
  pte ← walkpgdir pgdir i false;
  panic_if (pte =? 0) "copyuvm: pte should exist";;
  e ← getm pte;
  panic_if (negb (hasbit e PTE_P)) "copyuvm: page not present";;
  mem ← kalloc;
  if mem =? 0 then mret (Some tt)
  else
    modify (λ s, set_memory (memmove (memory s) mem (p2v (PTE_ADDR e)) PGSIZE) s);;
    r ← mappages d i PGSIZE (v2p mem) (PTE_FLAGS e);
    mret (if r <? 0 then Some tt else None).

(** The pages below [sz]. *)
Definition npages (sz : Z) : nat := Z.to_nat ((sz + PGSIZE - 1) / PGSIZE).

Definition copyuvm (pgdir sz : Z) : K (kst B) Z :=
  d ← setupkvm;
  if d =? 0 then mret 0
  else
    r ← for_ret (seq 0 (npages sz)) (copy_step pgdir d);
    match r with
    | None => mret d
    | Some _ => freevm d;; mret 0
    end.

(** [*pte] with [pte] null is a fault. *)
Definition uva2ka (pgdir uva : Z) : K (kst B) Z :=
  pte ← walkpgdir pgdir uva false;
  (if pte =? 0 then fault else mret tt);;
  e ← getm pte;
  if negb (hasbit e PTE_P) then mret 0
  else if negb (hasbit e PTE_U) then mret 0
  else mret (p2v (PTE_ADDR e)).

(** The loop of [copyout]: each round copies at least one byte. *)
Fixpoint copyout_loop (fuel : nat) (pgdir va : Z) (buf : list Z) : K (kst B) Z :=
  match fuel with
  | 0%nat => diverge
  | S f =>
      if bool_decide (buf = []) then mret 0
      else
        let va0 := PGROUNDDOWN va in
        pa0 ← uva2ka pgdir va0;
        if pa0 =? 0 then mret (-1)
        else
          let n := Z.min (PGSIZE - (va - va0)) (Z.of_nat (length buf)) in
          modify (λ s, set_memory (write_bytes (memory s) (pa0 + (va - va0)) (take (Z.to_nat n) buf)) s);;
          copyout_loop f pgdir (u32 (va0 + PGSIZE)) (drop (Z.to_nat n) buf)
  end.

Definition copyout (pgdir va : Z) (p : list Z) : K (kst B) Z :=
  copyout_loop (S (length p)) pgdir va p.

(** ** Loading a program *)

(** The memory as the file system's state sees it. *)
Definition onkst {A} (m : K (kst B) A) : K (ist (kst B)) A := onb (lift m).

Section load.
Context (retries : nat) (dev_read : Z → option (nat → Z → K (ist (kst B)) (Z * list Z))).

(** One round of the loop of [loaduvm]; [Some _] for its [return -1]. *)
Definition load_step (pgdir addr : Z) (ip : nat) (offset sz : Z) (k : nat) : K (ist (kst B)) (option unit) :=
  let i := PGSIZE * Z.of_nat k in
  pte ← onkst (walkpgdir pgdir (u32 (addr + i)) false);
  panic_if (pte =? 0) "loaduvm: address should exist";;
  e ← onkst (getm pte);
  let pa := PTE_ADDR e in
  let n := if sz - i <? PGSIZE then sz - i else PGSIZE in
  r ← readi retries dev_read ip (u32 (offset + i)) n;
  onkst (modify (λ s, set_memory (write_bytes (memory s) (p2v pa) (snd r)) s));;
  mret (if negb (u32 (fst r) =? n) then Some tt else None).

Definition loaduvm (pgdir addr : Z) (ip : nat) (offset sz : Z) : K (ist (kst B)) Z :=
  panic_if (negb (addr `mod` PGSIZE =? 0)) "loaduvm: addr must be page aligned";;
  r ← for_ret (seq 0 (npages sz)) (load_step pgdir addr ip offset sz);
  mret (match r with None => 0 | Some _ => -1 end).
End load.
End vm.

(** ** The kernel's own page table *)

Definition kvmalloc (kdata : Z) : K (kst pst) unit :=
  d ← setupkvm kdata;
  lift (modify (set_kpgdir d));;
  lift switchkvm.
