(* ===== verification/VmFacts.v ===== *)
(** * Facts about page tables

    [pte_at m pgdir va] is the page-table entry the hardware finds for [va]
    (0 when there is no table), [pt_ok] the shape of a page table, and [step]
    what a mapping operation may change.  [walkpgdir] and [mappages] are
    characterised by their effect on [pte_at]. *)
From S2P Require Import Prelude Spinlock Str Ptable PtableLists Sched Choice Scheduling Services Kalloc BioRing Bio DiskFmt Log Fs Vm.

(** ** Words of a page *)

Lemma lor_aligned a f : a `mod` 4096 = 0 → 0 ≤ f < 4096 → Z.lor a f = a + f.
Proof.
  intros Ha Hf. assert (Z.land a f = 0) as Hl.
  { apply Z.bits_inj'. intros i Hi. rewrite Z.land_spec, Z.bits_0. destruct (Z.ltb_spec i 12).
    - replace a with (Z.shiftl (a / 4096) 12).
      + by rewrite Z.shiftl_spec_low.
      + rewrite Z.shiftl_mul_pow2 by lia. change (2 ^ 12) with 4096. pose proof (Z.div_mod a 4096). lia.
    - rewrite <- (Z.mod_small f (2 ^ 12)) by (change (2 ^ 12) with 4096; lia).
      by rewrite Z.mod_pow2_bits_high, andb_false_r by lia. }
  pose proof (Z.add_lor_land a f). lia.
Qed.

Lemma PTE_ADDR_eq e : PTE_ADDR e = 4096 * (u32 e / 4096).
Proof. unfold PTE_ADDR. change (Z.lnot 0xFFF) with (Z.lnot (PGSIZE - 1)). apply PGROUNDDOWN_eq. Qed.

Lemma PTE_FLAGS_eq e : PTE_FLAGS e = u32 e `mod` 4096.
Proof. unfold PTE_FLAGS. change 0xFFF with (Z.ones 12). by rewrite Z.land_ones. Qed.

Lemma PDX_eq va : PDX va = u32 va / 2 ^ 22.
Proof.
  unfold PDX, PDXSHIFT. change 0x3FF with (Z.ones 10). rewrite Z.land_ones, Z.shiftr_div_pow2 by lia.
  apply Z.mod_small. pose proof (u32_range va) as H. change (2 ^ 22) with 4194304. change (2 ^ 10) with 1024.
  change (2 ^ 32) with 4294967296 in H. Z.to_euclidean_division_equations; lia.
Qed.

Lemma PTX_eq va : PTX va = (u32 va / 4096) `mod` 1024.
Proof. unfold PTX, PTXSHIFT. change 0x3FF with (Z.ones 10). by rewrite Z.land_ones, Z.shiftr_div_pow2 by lia. Qed.

Lemma PDX_range va : 0 ≤ PDX va < 1024.
Proof.
  rewrite PDX_eq. pose proof (u32_range va) as H. change (2 ^ 22) with 4194304. change (2 ^ 32) with 4294967296 in H.
  Z.to_euclidean_division_equations; lia.
Qed.

Lemma PTX_range va : 0 ≤ PTX va < 1024.
Proof. rewrite PTX_eq. apply Z.mod_pos_bound. lia. Qed.

(** The page of an address. *)
Definition pg (va : Z) : Z := 4096 * (u32 va / 4096).

(** Directory and table index together are the page. *)
Lemma pg_index va va' : pg va = pg va' ↔ PDX va = PDX va' ∧ PTX va = PTX va'.
Proof.
  unfold pg. rewrite !PDX_eq, !PTX_eq. change (2 ^ 22) with (4096 * 1024). rewrite <- !Z.div_div by lia.
  generalize (u32 va / 4096) (u32 va' / 4096). intros x y.
  pose proof (Z.div_mod x 1024). pose proof (Z.div_mod y 1024). split; [intros; replace x with y by lia; done|].
  intros [H1 H2]. lia.
Qed.

Lemma pg_page a : 0 ≤ a < 2 ^ 32 → a `mod` 4096 = 0 → pg a = a.
Proof. intros H Hm. unfold pg. rewrite u32_small by done. pose proof (Z.div_mod a 4096). lia. Qed.

(** *** Memory *)

Lemma slot_in p i x : 0 ≤ i < 1024 → inrange (p + 4 * i) 4 x = true → inrange p PGSIZE x = true.
Proof. unfold inrange, PGSIZE. rewrite !andb_true_iff, !Z.leb_le, !Z.ltb_lt. lia. Qed.

(** Two words of pages: the same word, or disjoint. *)
Lemma mread32_slots kend m p i q j w :
  page kend p → page kend q → 0 ≤ i < 1024 → 0 ≤ j < 1024 →
  mread32 (mwrite32 m (p + 4 * i) w) (q + 4 * j) =
    if decide (p = q ∧ i = j) then u32 w else mread32 m (q + 4 * j).
Proof.
  intros (Hp & _) (Hq & _) Hi Hj. unfold PGSIZE in *. case_decide as H.
  - destruct H as [-> ->]. apply mread32_mwrite32.
  - apply mread32_other. pose proof (Z.div_mod p 4096). pose proof (Z.div_mod q 4096). lia.
Qed.

Lemma mread32_page_ext m m' p j :
  0 ≤ j < 1024 → (∀ x, inrange p PGSIZE x = true → m' x = m x) → mread32 m' (p + 4 * j) = mread32 m (p + 4 * j).
Proof. intros Hj H. apply mread32_ext. intros x Hx. apply H. by eapply slot_in. Qed.

Lemma mread32_zero m p j : 0 ≤ j < 1024 → mread32 (memset m p 0 PGSIZE) (p + 4 * j) = 0.
Proof.
  intros Hj. transitivity (mread32 (λ _, 0) (p + 4 * j)); [|done]. apply mread32_ext. intros x Hx.
  rewrite memset_spec by (unfold PGSIZE; lia). by rewrite (slot_in p j x Hj Hx).
Qed.

Lemma p2v_v2p kend t : page kend t → p2v (v2p t) = t.
Proof.
  intros H. pose proof (page_range kend t H) as [Hr _]. unfold p2v, v2p, KERNBASE in *. rewrite (u32_small (t - _)) by lia.
  rewrite u32_small by lia. lia.
Qed.

Lemma v2p_page kend t : page kend t → 0 ≤ v2p t < PHYSTOP ∧ v2p t `mod` 4096 = 0.
Proof.
  intros H. pose proof (page_range kend t H) as [Hr Hs]. destruct H as (Hm & _ & _). unfold v2p, KERNBASE, PHYSTOP, PGSIZE in *.
  rewrite u32_small by lia. split; [lia|]. pose proof (Z.div_mod t 4096). 
  replace (t - 2147483648) with (t + - 524288 * 4096) by lia. by rewrite Z_mod_plus_full.
Qed.

Lemma PTE_ADDR_u32 e : PTE_ADDR (u32 e) = PTE_ADDR e.
Proof. unfold PTE_ADDR. f_equal. apply u32_small, u32_range. Qed.

(** An entry made of a page address and flags. *)
Lemma entry_eq a f : a `mod` 4096 = 0 → 0 ≤ a < 2 ^ 32 → 0 ≤ f < 4096 →
  u32 (Z.lor a f) = a + f ∧ PTE_ADDR (Z.lor a f) = a ∧ PTE_FLAGS (Z.lor a f) = f.
Proof.
  intros Ha Hr Hf. rewrite PTE_ADDR_eq, PTE_FLAGS_eq, lor_aligned by done.
  pose proof (Z.div_mod a 4096 ltac:(lia)) as Hd. rewrite Ha in Hd. rewrite u32_small by lia.
  split; [done|]. clear -Hd Hf Hr. Z.to_euclidean_division_equations; lia.
Qed.

Lemma hasbit_lor e b c : hasbit (Z.lor e c) b = hasbit e b || hasbit c b.
Proof.
  unfold hasbit. rewrite Z.land_comm, Z.land_lor_distr_r, !(Z.land_comm b).
  destruct (Z.eqb_spec (Z.land e b) 0) as [->|He]; [by rewrite Z.lor_0_l|].
  destruct (Z.eqb_spec (Z.lor (Z.land e b) (Z.land c b)) 0) as [H|]; [|done].
  by apply Z.lor_eq_0_iff in H as [? _].
Qed.

Lemma hasbit_u32 e b : 0 ≤ b < 2 ^ 32 → hasbit (u32 e) b = hasbit e b.
Proof.
  intros Hb. unfold hasbit, u32. do 2 f_equal. rewrite <- Z.land_ones by lia.
  rewrite <- Z.land_assoc, (Z.land_comm (Z.ones 32)), Z.land_ones, (Z.mod_small b) by lia. done.
Qed.

(** ** Page tables *)

(** The page table of directory entry [d]. *)
Definition table (m : mem) (pgdir d : Z) : option Z :=
  let e := mread32 m (pgdir + 4 * d) in
  if hasbit e PTE_P then Some (p2v (PTE_ADDR e)) else None.

(** The entry for [va]. *)
Definition pte_at (m : mem) (pgdir va : Z) : Z :=
  match table m pgdir (PDX va) with
  | Some t => mread32 m (t + 4 * PTX va)
  | None => 0
  end.

(** A page the page table consists of. *)
Definition pt_page (m : mem) (pgdir p : Z) : Prop :=
  p = pgdir ∨ ∃ d, 0 ≤ d < 1024 ∧ table m pgdir d = Some p.

Section facts.
Context (kend : Z).
Implicit Types (m : mem) (F : list Z).

(** Directory and tables are pages, all different, none of them free. *)
Record pt_ok m (pgdir : Z) F : Prop := Pt_ok {
  pt_dir : page kend pgdir;
  pt_dir_free : pgdir ∉ F;
  pt_tab : ∀ d t, 0 ≤ d < 1024 → table m pgdir d = Some t → page kend t ∧ t ≠ pgdir ∧ t ∉ F;
  pt_inj : ∀ d d' t, 0 ≤ d < 1024 → 0 ≤ d' < 1024 → table m pgdir d = Some t → table m pgdir d' = Some t → d = d'
}.

Lemma table_ext m m' pgdir d :
  0 ≤ d < 1024 → (∀ x, inrange pgdir PGSIZE x = true → m' x = m x) → table m' pgdir d = table m pgdir d.
Proof. intros Hd H. unfold table. by rewrite (mread32_page_ext m m'). Qed.

(** A page table is what its pages hold. *)
Lemma pt_ext m m' pgdir :
  (∀ p x, pt_page m pgdir p → inrange p PGSIZE x = true → m' x = m x) →
  (∀ d, 0 ≤ d < 1024 → table m' pgdir d = table m pgdir d) ∧ (∀ va, pte_at m' pgdir va = pte_at m pgdir va).
Proof.
  intros H. assert (∀ d, 0 ≤ d < 1024 → table m' pgdir d = table m pgdir d) as Ht.
  { intros d Hd. apply table_ext; [done|]. intros x. apply H. by left. }
  split; [done|]. intros va. unfold pte_at. rewrite Ht by apply PDX_range.
  destruct (table m pgdir (PDX va)) as [t|] eqn:E; [|done]. apply mread32_page_ext; [apply PTX_range|].
  intros x. apply H. right. exists (PDX va). split; [apply PDX_range|done].
Qed.

Lemma pt_ok_ext m m' pgdir F F' :
  pt_ok m pgdir F → (∀ p x, pt_page m pgdir p → inrange p PGSIZE x = true → m' x = m x) →
  (∀ p, p ∈ F' → p ∈ F) → pt_ok m' pgdir F'.
Proof.
  intros [H1 H2 H3 H4] Hext HF. destruct (pt_ext m m' pgdir Hext) as [Ht _]. split; [done|auto| |].
  - intros d t Hd. rewrite Ht by done. intros E. destruct (H3 d t Hd E) as (?&?&?). split_and!; auto.
  - intros d d' t Hd Hd'. rewrite !Ht by done. by apply H4.
Qed.

(** Storing an entry in a page table. *)
Lemma set_pte m pgdir F va t w :
  pt_ok m pgdir F → table m pgdir (PDX va) = Some t →
  let m' := mwrite32 m (t + 4 * PTX va) w in
  pt_ok m' pgdir F ∧ (∀ d, 0 ≤ d < 1024 → table m' pgdir d = table m pgdir d) ∧
  ∀ va', pte_at m' pgdir va' = if decide (pg va' = pg va) then u32 w else pte_at m pgdir va'.
Proof.
  intros [H1 H2 H3 H4] E m'. destruct (H3 _ _ (PDX_range va) E) as (Hpt & Hne & HtF).
  assert (∀ d, 0 ≤ d < 1024 → table m' pgdir d = table m pgdir d) as Ht.
  { intros d Hd. unfold table, m'. rewrite (mread32_slots kend) by (done || apply PTX_range).
    by rewrite decide_False by tauto. }
  split_and!; [|done|].
  - split; [done|done| |].
    + intros d t' Hd. rewrite Ht by done. by apply H3.
    + intros d d' t' Hd Hd'. rewrite !Ht by done. by apply H4.
  - intros va'. unfold pte_at. rewrite Ht by apply PDX_range.
    destruct (table m pgdir (PDX va')) as [t'|] eqn:E'.
    + destruct (H3 _ _ (PDX_range va') E') as (Hpt' & _ & _). unfold m'.
      rewrite (mread32_slots kend) by (done || apply PTX_range).
      destruct (decide (pg va' = pg va)) as [Hpg|Hpg].
      * apply pg_index in Hpg as [Hd Hx]. rewrite Hd, E in E'. injection E' as <-. by rewrite decide_True.
      * rewrite decide_False; [done|]. intros [<- Hx]. apply Hpg, pg_index. split; [|done].
        by apply (H4 _ _ t); [apply PDX_range|apply PDX_range| |].
    + rewrite decide_False; [done|]. intros [Hd _]%pg_index. by rewrite Hd, E in E'.
Qed.

(** A fresh zeroed page as the table of directory entry [PDX va]. *)
Lemma new_table m pgdir F va t :
  pt_ok m pgdir (t :: F) → page kend t → t ∉ F → table m pgdir (PDX va) = None →
  let m' := mwrite32 (memset m t 0 PGSIZE) (pgdir + 4 * PDX va) (Z.lor (v2p t) 7) in
  pt_ok m' pgdir F ∧
  (∀ d, 0 ≤ d < 1024 → table m' pgdir d = if decide (d = PDX va) then Some t else table m pgdir d) ∧
  ∀ va', pte_at m' pgdir va' = pte_at m pgdir va'.
Proof.
  intros [H1 H2 H3 H4] Hpt HtF E m'. pose proof (PDX_range va) as HD.
  assert (t ≠ pgdir) as Hne by set_solver.
  assert (∀ p x, page kend p → p ≠ t → p ≠ pgdir → inrange p PGSIZE x = true → m' x = m x) as Hother.
  { intros p x Hp Hpt' Hpd Hx. unfold m'. rewrite mwrite32_other.
    - rewrite memset_spec by (unfold PGSIZE; lia). by rewrite (page_disjoint kend p t x).
    - destruct (inrange _ 4 x) eqn:Ex; [|done]. apply slot_in in Ex; [|done].
      by rewrite (page_disjoint kend p pgdir x Hp H1 Hpd Hx) in Ex. }
  assert (∀ d, 0 ≤ d < 1024 → mread32 (memset m t 0 PGSIZE) (pgdir + 4 * d) = mread32 m (pgdir + 4 * d)) as Hdir.
  { intros d Hd. apply mread32_page_ext; [done|]. intros x Hx. rewrite memset_spec by (unfold PGSIZE; lia).
    by rewrite (page_disjoint kend pgdir t x). }
  destruct (v2p_page kend t Hpt) as [Hv Hvm].
  destruct (entry_eq (v2p t) 7 Hvm) as (He1 & He2 & _); [unfold PHYSTOP in *; lia|lia|].
  assert (∀ d, 0 ≤ d < 1024 → table m' pgdir d = if decide (d = PDX va) then Some t else table m pgdir d) as Ht.
  { intros d Hd. unfold table, m'. rewrite (mread32_slots kend) by done. destruct (decide (d = PDX va)) as [->|Hd'].
    - rewrite decide_True, hasbit_u32 by (done || lia). rewrite hasbit_lor. change (hasbit 7 PTE_P) with true.
      rewrite orb_true_r, PTE_ADDR_u32, He2. f_equal. by eapply p2v_v2p.
    - rewrite decide_False by (intros [_ ?]; congruence). by rewrite Hdir. }
  split_and!; [|done|].
  - split; [done|set_solver| |].
    + intros d t'. intros Hd. rewrite Ht by done. case_decide; [intros [= <-]; done|].
      intros E'. destruct (H3 d t' Hd E') as (?&?&?). split_and!; [done|done|set_solver].
    + intros d d' t' Hd Hd'. rewrite !Ht by done. repeat case_decide; intros E1 E2; simplify_eq; try done.
      * destruct (H3 _ _ Hd' E2) as (_ & _ & ?). set_solver.
      * destruct (H3 _ _ Hd E1) as (_ & _ & ?). set_solver.
      * by apply (H4 d d' t').
  - intros va'. unfold pte_at. rewrite Ht by apply PDX_range. destruct (decide (PDX va' = PDX va)) as [Hd|Hd].
    + rewrite Hd, E. unfold m'. rewrite mread32_other.
      * apply mread32_zero, PTX_range.
      * pose proof (PTX_range va'). destruct Hpt as (Hm1 & _), H1 as (Hm2 & _). unfold PGSIZE in *.
        pose proof (Z.div_mod t 4096). pose proof (Z.div_mod pgdir 4096). lia.
    + destruct (table m pgdir (PDX va')) as [t'|] eqn:E'; [|done].
      destruct (H3 _ _ (PDX_range va') E') as (Hp' & Hn' & HF'). apply mread32_page_ext; [apply PTX_range|].
      intros x. apply (Hother t' x); [done|set_solver|done].
Qed.
End facts.

(** ** Walking and mapping *)

Section ops.
Context {B : Type} {O : KOps B} {W : KLaws B} (kend : Z) (L : gset lockid).
Implicit Types (s : kst B) (F : list Z).

(** Memory, locks and free pages are in order. *)
Definition mem_ok s F : Prop := free_ok kend s F ∧ locks_ok L s.

(** What an operation on the page table [pgdir] may do: take pages from the front
    of the free list, and write in those and in the pages of the table. *)
Record step (pgdir : Z) F s F' s' : Prop := Step {
  st_ok : mem_ok s' F';
  st_keep : kst_keep s s';
  st_suffix : ∃ T, F = T ++ F';
  st_pt : pt_ok kend (memory s') pgdir F';
  st_pages : ∀ p, pt_page (memory s') pgdir p → pt_page (memory s) pgdir p ∨ p ∈ F;
  st_mono : ∀ p, pt_page (memory s) pgdir p → pt_page (memory s') pgdir p;
  st_taken : ∀ p, p ∈ F → p ∈ F' ∨ pt_page (memory s') pgdir p;
  st_out : ∀ p x, page kend p → ¬ pt_page (memory s) pgdir p → p ∉ F →
    inrange p PGSIZE x = true → memory s' x = memory s x
}.

Lemma step_refl pgdir F s : mem_ok s F → pt_ok kend (memory s) pgdir F → step pgdir F s F s.
Proof. intros H1 H2. split; [done|by split|by exists []|done|by left|done|by left|done]. Qed.

Lemma step_trans pgdir F s F1 s1 F2 s2 : step pgdir F s F1 s1 → step pgdir F1 s1 F2 s2 → step pgdir F s F2 s2.
Proof.
  intros [A1 A2 [T1 A3] A4 A5 A7 A8 A6] [B1 B2 [T2 B3] B4 B5 B7 B8 B6]. split.
  - done.
  - destruct A2, B2. split; [congruence|by etrans].
  - exists (T1 ++ T2). by rewrite A3, B3, app_assoc.
  - done.
  - intros p [H|H]%B5; [auto|]. right. set_solver.
  - auto.
  - intros p [Hp|Hp]%A8; auto.
  - intros p x Hp Hn HF Hx. rewrite (B6 p x), (A6 p x); try done; [|set_solver].
    intros [?|?]%A5; auto.
Qed.

(** The same memory, another state. *)
Lemma step_same pgdir F s s' :
  mem_ok s' F → kst_keep s s' → memory s' = memory s → pt_ok kend (memory s) pgdir F → step pgdir F s F s'.
Proof.
  intros H1 H2 Hm H3. split; rewrite ?Hm; auto. by exists [].
Qed.

Lemma mem_ok_write s F p m :
  mem_ok s F → page kend p → p ∉ F → (∀ x, inrange p PGSIZE x = false → m x = memory s x) → mem_ok (set_memory m s) F.
Proof. intros [H1 H2] Hp HF Hm. split; [by eapply free_ok_outside|done]. Qed.

Lemma walk_present s pgdir va t alloc :
  table (memory s) pgdir (PDX va) = Some t → walkpgdir pgdir va alloc s = Ok (t + 4 * PTX va) s.
Proof.
  unfold table. intros H. unfold walkpgdir, getm. krun.
  destruct (hasbit _ PTE_P); [by injection H as ->|done].
Qed.

Lemma walk_absent s pgdir va : table (memory s) pgdir (PDX va) = None → walkpgdir pgdir va false s = Ok 0 s.
Proof. unfold table. intros H. unfold walkpgdir, getm. krun. by destruct (hasbit _ PTE_P). Qed.

(** The pages of a table that got one more. *)
Lemma new_pages m m' pgdir va t :
  (∀ d, 0 ≤ d < 1024 → table m' pgdir d = if decide (d = PDX va) then Some t else table m pgdir d) →
  ∀ p, pt_page m' pgdir p → pt_page m pgdir p ∨ p = t.
Proof.
  intros Ht p [->|(d & Hd & E)]; [by left; left|]. rewrite Ht in E by done. case_decide.
  - right. congruence.
  - left. right. eauto.
Qed.

(** A table is made for [va] if there is none, unless memory is out. *)
Lemma walk_alloc pgdir F va s :
  mem_ok s F → pt_ok kend (memory s) pgdir F →
  (∃ s' F' t, walkpgdir pgdir va true s = Ok (t + 4 * PTX va) s' ∧ step pgdir F s F' s' ∧
     table (memory s') pgdir (PDX va) = Some t ∧ ∀ va', pte_at (memory s') pgdir va' = pte_at (memory s) pgdir va') ∨
  (∃ s', walkpgdir pgdir va true s = Ok 0 s' ∧ step pgdir F s F s' ∧ F = [] ∧ memory s' = memory s).
Proof.
  intros Hok Hpt. destruct (table (memory s) pgdir (PDX va)) as [t|] eqn:E.
  { left. exists s, F, t. split_and!; [by apply walk_present|by apply step_refl|done|done]. }
  assert (hasbit (mread32 (memory s) (pgdir + 4 * PDX va)) PTE_P = false) as Hb.
  { unfold table in E. by destruct (hasbit _ PTE_P). }
  destruct Hok as [Hf HL]. destruct (kalloc_ok kend L s F Hf HL) as (s1 & Hr & Hf1 & Hm1 & HL1 & Hk1).
  assert (walkpgdir pgdir va true s =
    (pgtab ← kalloc; if pgtab =? 0 then mret 0 else fillm pgtab 0 PGSIZE;;
      setm (pgdir + 4 * PDX va) (Z.lor (Z.lor (Z.lor (v2p pgtab) PTE_P) PTE_W) PTE_U);; mret (pgtab + 4 * PTX va)) s) as ->.
  { unfold walkpgdir at 1, getm. rewrite (bind_ok _ _ _ _ _ (gets_ok _ _)), Hb. done. }
  rewrite (bind_ok _ _ _ _ _ Hr). destruct F as [|t F]; cbn [head tail default] in *; cbv delta [id] beta in Hr |- *.
  { right. exists s1. split_and!; [done|by apply step_same|done|done]. }
  left. pose proof (fo_page _ _ _ Hf) as HFp. rewrite Forall_cons in HFp. destruct HFp as [Htp _].
  pose proof (fo_nodup _ _ _ Hf) as Hnd. rewrite NoDup_cons in Hnd. destruct Hnd as [HtF _].
  pose proof (page_range _ _ Htp). destruct (Z.eqb_spec t 0); [unfold KERNBASE in *; lia|].
  rewrite <- !Z.lor_assoc. change (Z.lor PTE_P (Z.lor PTE_W PTE_U)) with 7.
  destruct (new_table kend (memory s) pgdir F va t Hpt Htp HtF E) as (Hpt' & Ht' & Hpte').
  set (m1 := memset (memory s) t 0 PGSIZE) in *. set (m2 := mwrite32 m1 _ _) in *.
  unfold fillm, setm. cbv beta iota. rewrite (bind_ok _ _ _ _ _ (modify_ok _ _)). cbv beta.
  rewrite (bind_ok _ _ _ _ _ (modify_ok _ _)).
  cbn [memory set_memory]. rewrite Hm1. fold m1 m2.
  exists (set_memory m2 (set_memory m1 s1)), F, t.
  assert (page kend pgdir ∧ pgdir ∉ t :: F) as [Hdp HdF] by (split; apply Hpt).
  assert (∀ x, inrange t PGSIZE x = false → m1 x = memory s x) as Hm1'.
  { intros x Hx. unfold m1. rewrite memset_spec by (unfold PGSIZE; lia). by rewrite Hx. }
  assert (∀ x, inrange pgdir PGSIZE x = false → m2 x = m1 x) as Hm2'.
  { intros x Hx. unfold m2. apply mwrite32_other. destruct (inrange _ 4 x) eqn:Ex; [|done].
    apply slot_in in Ex; [congruence|apply PDX_range]. }
  split_and!; [done| | |done].
  - split.
    + apply (mem_ok_write _ _ pgdir); [|done|set_solver|done].
      apply (mem_ok_write _ _ t); [by split|done|done|]. intros x. rewrite Hm1. apply Hm1'.
    + done.
    + by exists [t].
    + done.
    + intros p Hp. destruct (new_pages _ _ _ _ _ Ht' p Hp) as [| ->]; [by left|right; set_solver].
    + intros p [->|(d & Hd & Ed)]; [by left|]. right. exists d. cbn [memory set_memory]. rewrite Ht', decide_False by congruence. done.
    + intros p [->|?]%elem_of_cons; [|by left]. right; right. exists (PDX va). cbn [memory set_memory].
      rewrite Ht', decide_True by (done || apply PDX_range). split; [apply PDX_range|done].
    + intros p x Hp Hn HF Hx. cbn [memory set_memory]. rewrite Hm2', Hm1'; [done| |].
      * apply (page_disjoint kend p t x); [done|done|set_solver|done].
      * apply (page_disjoint kend p pgdir x); [done|done| |done]. intros ->. by apply Hn; left.
  - cbn [memory set_memory]. rewrite Ht' by apply PDX_range. by rewrite decide_True.
Qed.

(** Storing the entry of [va], whose table exists. *)
Lemma set_entry pgdir F va t w s :
  mem_ok s F → pt_ok kend (memory s) pgdir F → table (memory s) pgdir (PDX va) = Some t →
  let s' := set_memory (mwrite32 (memory s) (t + 4 * PTX va) w) s in
  step pgdir F s F s' ∧
  ∀ va', pte_at (memory s') pgdir va' = if decide (pg va' = pg va) then u32 w else pte_at (memory s) pgdir va'.
Proof.
  intros Hok Hpt E s'. destruct (set_pte kend (memory s) pgdir F va t w Hpt E) as (Hpt' & Ht' & Hpte).
  destruct (pt_tab _ _ _ _ Hpt _ _ (PDX_range va) E) as (Htp & Hne & HtF).
  assert (∀ x, inrange t PGSIZE x = false → memory s' x = memory s x) as Hm.
  { intros x Hx. apply mwrite32_other. destruct (inrange _ 4 x) eqn:Ex; [|done].
    apply slot_in in Ex; [congruence|apply PTX_range]. }
  assert (∀ p, pt_page (memory s') pgdir p ↔ pt_page (memory s) pgdir p) as Hpp.
  { intros p. unfold pt_page. split; (intros [|(d & Hd & Ed)]; [by left|right; exists d; split; [done|]]); by rewrite <- Ed, Ht'. }
  split; [|done]. split; [by eapply mem_ok_write|by split|by exists []|done| | |by left|].
  - intros p Hp%Hpp. by left.
  - by intros p ?%Hpp.
  - intros p x Hp Hn HF Hx. apply Hm. apply (page_disjoint kend p t x); [done|done| |done].
    intros ->. apply Hn. right. exists (PDX va). split; [apply PDX_range|done].
Qed.

(** The [n] pages from [a] on are mapped to the pages from [pa] on. *)
Definition maps (m m' : mem) (pgdir a : Z) (n : nat) (pa perm : Z) : Prop :=
  ∀ va, pte_at m' pgdir va =
    if decide (a ≤ pg va < a + 4096 * Z.of_nat n)
    then u32 (Z.lor (Z.lor (u32 (pa + (pg va - a))) perm) PTE_P) else pte_at m pgdir va.

Lemma maps_S m m1 m2 pgdir a n pa perm :
  0 ≤ a → a `mod` 4096 = 0 → 0 ≤ pa < 2 ^ 32 →
  (∀ va, pte_at m1 pgdir va = if decide (pg va = a) then u32 (Z.lor (Z.lor pa perm) PTE_P) else pte_at m pgdir va) →
  maps m1 m2 pgdir (a + PGSIZE) n (u32 (pa + PGSIZE)) perm → maps m m2 pgdir a (S n) pa perm.
Proof.
  intros H0 Ha Hpa H1 H2 va. rewrite H2, H1. unfold PGSIZE.
  pose proof (Z.div_mod a 4096 ltac:(lia)) as Hd. rewrite Ha in Hd.
  destruct (decide (pg va = a)) as [Hpg|Hpg].
  - rewrite decide_False by lia. rewrite decide_True by lia. by rewrite Hpg, Z.sub_diag, Z.add_0_r, (u32_small pa).
  - destruct (decide (a + 4096 ≤ pg va < a + 4096 + 4096 * Z.of_nat n)) as [Hr|Hr].
    + rewrite decide_True by lia. do 3 f_equal. unfold u32. rewrite Zplus_mod_idemp_l. f_equal. lia.
    + rewrite decide_False; [done|]. unfold pg in *. lia.
Qed.

(** One round of the loop of [mappages] that finds or makes its table. *)
Lemma map_round pgdir F a s (k : Z → K (kst B) Z) w :
  mem_ok s F → pt_ok kend (memory s) pgdir F → hasbit (pte_at (memory s) pgdir a) PTE_P = false →
  (∃ s' F', (pte ← walkpgdir pgdir a true;
             if pte =? 0 then mret (-1)
             else e ← getm pte; panic_if (hasbit e PTE_P) "remap";; setm pte w;; k pte) s = k (default 0 (table (memory s') pgdir (PDX a)) + 4 * PTX a) s' ∧
     step pgdir F s F' s' ∧
     ∀ va, pte_at (memory s') pgdir va = if decide (pg va = pg a) then u32 w else pte_at (memory s) pgdir va) ∨
  (∃ s', (pte ← walkpgdir pgdir a true;
          if pte =? 0 then mret (-1)
          else e ← getm pte; panic_if (hasbit e PTE_P) "remap";; setm pte w;; k pte) s = Ok (-1) s' ∧
     step pgdir F s [] s' ∧ memory s' = memory s).
Proof.
  intros Hok Hpt Hun. destruct (walk_alloc pgdir F a s Hok Hpt) as [(s1 & F1 & t & Hr & Hst & Ht & Hpte)|(s1 & Hr & Hst & -> & Hm)].
  - left. destruct (pt_tab _ _ _ _ (st_pt _ _ _ _ _ Hst) _ _ (PDX_range a) Ht) as (Htp & _ & _).
    destruct (set_entry pgdir F1 a t w s1) as [Hst2 Hpte2]; [apply Hst|apply Hst|done|].
    exists (set_memory (mwrite32 (memory s1) (t + 4 * PTX a) w) s1), F1.
    rewrite (bind_ok _ _ _ _ _ Hr). pose proof (page_range _ _ Htp). pose proof (PTX_range a).
    destruct (Z.eqb_spec (t + 4 * PTX a) 0); [unfold KERNBASE in *; lia|].
    assert (mread32 (memory s1) (t + 4 * PTX a) = pte_at (memory s) pgdir a) as He.
    { rewrite <- Hpte. unfold pte_at. by rewrite Ht. }
    split_and!.
    + unfold getm, setm. cbv iota. rewrite (bind_ok _ _ _ _ _ (gets_ok _ _)), He, Hun. cbv iota beta. krun.
      destruct (set_pte kend (memory s1) pgdir F1 a t w) as (_ & Ht2 & _); [apply Hst|done|].
      cbn [memory set_memory]. by rewrite Ht2, Ht by apply PDX_range.
    + by eapply step_trans.
    + intros va. by rewrite Hpte2, Hpte.
  - right. exists s1. rewrite (bind_ok _ _ _ _ _ Hr). done.
Qed.

Lemma map_loop_S n pgdir a last pa perm s :
  map_loop (S n) pgdir a last pa perm s =
    (pte ← walkpgdir pgdir a true;
     if pte =? 0 then mret (-1)
     else e ← getm pte; panic_if (hasbit e PTE_P) "remap";; setm pte (Z.lor (Z.lor pa perm) PTE_P);;
       if a =? last then mret 0 else map_loop n pgdir (u32 (a + PGSIZE)) last (u32 (pa + PGSIZE)) perm) s.
Proof. done. Qed.

Lemma map_loop_ok pgdir perm n : ∀ a pa s F,
  mem_ok s F → pt_ok kend (memory s) pgdir F → 0 ≤ a → a `mod` 4096 = 0 → a + 4096 * Z.of_nat (S n) ≤ 2 ^ 32 →
  0 ≤ pa < 2 ^ 32 →
  (∀ k, (k ≤ n)%nat → hasbit (pte_at (memory s) pgdir (a + 4096 * Z.of_nat k)) PTE_P = false) →
  ∃ s' F' k, step pgdir F s F' s' ∧ maps (memory s) (memory s') pgdir a k pa perm ∧
    ((map_loop (S n) pgdir a (a + 4096 * Z.of_nat n) pa perm s = Ok 0 s' ∧ k = S n) ∨
     (map_loop (S n) pgdir a (a + 4096 * Z.of_nat n) pa perm s = Ok (-1) s' ∧ (k ≤ n)%nat ∧ F' = [])).
Proof.
  induction n as [|n IH]; intros a pa s F Hok Hpt H0 Ha Hw Hpa Hun;
    pose proof (Hun 0%nat ltac:(lia)) as Hun0; rewrite Z.mul_0_r, Z.add_0_r in Hun0;
    assert (pg a = a) as Hpg by (apply pg_page; [lia|done]); rewrite map_loop_S;
    set (w0 := Z.lor (Z.lor pa perm) PTE_P) in *.
  - set (last := a + 4096 * Z.of_nat 0).
    destruct (map_round pgdir F a s (λ _, if a =? last then mret 0 else map_loop 0 pgdir (u32 (a + PGSIZE)) last
      (u32 (pa + PGSIZE)) perm) w0 Hok Hpt Hun0)
      as [(s' & F' & Hr & Hst & Hpte)|(s' & Hr & Hst & Hm)].
    + exists s', F', 1%nat. split_and!; [done| |left; rewrite Hr; split; [|done]].
      * eapply maps_S; [done|done|done|rewrite Hpg in Hpte; exact Hpte|]. intros va. by rewrite decide_False by lia.
      * unfold last. by rewrite Z.mul_0_r, Z.add_0_r, Z.eqb_refl.
    + exists s', [], 0%nat. split_and!; [done|intros va; by rewrite decide_False, Hm by lia|right; split_and!; [done|lia|done]].
  - set (last := a + 4096 * Z.of_nat (S n)). assert (last ≠ a) as Hlast by (unfold last; lia).
    destruct (map_round pgdir F a s (λ _, if a =? last then mret 0 else
      map_loop (S n) pgdir (u32 (a + PGSIZE)) last (u32 (pa + PGSIZE)) perm) w0 Hok Hpt Hun0)
      as [(s1 & F1 & Hr & Hst & Hpte)|(s1 & Hr & Hst & Hm)].
    + rewrite Hpg in Hpte. destruct (Z.eqb_spec a last); [congruence|].
      assert (last = a + PGSIZE + 4096 * Z.of_nat n) as Hl by (unfold last, PGSIZE; lia).
      assert ((a + PGSIZE) `mod` 4096 = 0) as Ha'.
      { unfold PGSIZE. rewrite <- Zplus_mod_idemp_l, Ha. done. }
      destruct (IH (a + PGSIZE) (u32 (pa + PGSIZE)) s1 F1) as (s2 & F2 & k & Hst2 & Hmaps & Hres);
        [apply Hst|apply Hst|unfold PGSIZE; lia|done|unfold PGSIZE; lia|apply u32_range| |].
      { intros k Hk. rewrite Hpte. pose proof (Hun (S k) ltac:(lia)) as Hk'.
        replace (a + PGSIZE + 4096 * Z.of_nat k) with (a + 4096 * Z.of_nat (S k)) by (unfold PGSIZE; lia).
        rewrite decide_False; [done|]. rewrite pg_page; [lia|lia|].
        rewrite Z.mul_comm, Z_mod_plus_full. done. }
      exists s2, F2, (S k). split_and!; [by eapply step_trans|eapply maps_S; [done|done|done|exact Hpte|exact Hmaps]|]. rewrite Hr, Hl, u32_small by (unfold PGSIZE; lia).
      destruct Hres as [[Hr2 ->]|(Hr2 & Hk & ->)]; [by left|right; split_and!; [done|lia|done]].
    + exists s1, [], 0%nat. split_and!; [done|intros va; by rewrite decide_False, Hm by lia|right; split_and!; [exact Hr|lia|done]].
Qed.
End ops.
