(* ===== verification/VmSpace.v ===== *)
(** * Address spaces

    Whole page tables: what [setupkvm] builds, what [freevm] gives back, and
    what [copyuvm] copies. *)
From S2P Require Import Prelude Spinlock Str Ptable PtableLists Sched Choice Scheduling Services Kalloc BioRing Bio DiskFmt Log Fs Vm VmFacts.

(** ** Mapping a range *)

Section space.
Context {B : Type} {O : KOps B} {W : KLaws B} (kend : Z) (L : gset lockid).
Implicit Types (s : kst B) (F : list Z) (m : mem).

(** The pages a range touches, all but the first. *)
Definition more_pages (va size : Z) : nat := Z.to_nat ((pg (va + size - 1) - pg va) / 4096).

Lemma mappages_ok pgdir va size pa perm s F :
  mem_ok kend L s F → pt_ok kend (memory s) pgdir F → 0 ≤ va → 0 < size → va + size ≤ 2 ^ 32 → 0 ≤ pa < 2 ^ 32 →
  (∀ v, pg va ≤ pg v ≤ pg (va + size - 1) → hasbit (pte_at (memory s) pgdir v) PTE_P = false) →
  ∃ s' F' k, step kend L pgdir F s F' s' ∧ maps (memory s) (memory s') pgdir (pg va) k pa perm ∧
    ((mappages pgdir va size pa perm s = Ok 0 s' ∧ k = S (more_pages va size)) ∨
     (mappages pgdir va size pa perm s = Ok (-1) s' ∧ (k ≤ more_pages va size)%nat ∧ F' = [])).
Proof.
  intros Hok Hpt H0 Hs Hw Hpa Hun. unfold mappages. rewrite !PGROUNDDOWN_eq. change PGSIZE with 4096.
  fold (pg va) (pg (va + size - 1)). unfold more_pages.
  assert (pg va ≤ pg (va + size - 1) < 2 ^ 32 ∧ 0 ≤ pg va) as [Hle Hge].
  { unfold pg. rewrite !u32_small by lia. Z.to_euclidean_division_equations; lia. }
  rewrite u32_small by lia. set (n := Z.to_nat _).
  assert (pg (va + size - 1) = pg va + 4096 * Z.of_nat n) as Hn.
  { unfold n, pg in *. Z.to_euclidean_division_equations; lia. }
  assert (pg va `mod` 4096 = 0) as Hm by (unfold pg; rewrite Z.mul_comm; apply Z_mod_mult).
  rewrite Hn. apply map_loop_ok; try done.
  - assert (pg (va + size - 1) + 4096 ≤ 2 ^ 32); [|lia]. unfold pg. pose proof (u32_range (va + size - 1)) as Hu.
    change (2 ^ 32) with (4096 * 1048576) in *. Z.to_euclidean_division_equations; lia.
  - intros k Hk. apply Hun. rewrite (pg_page (pg va + _)); [lia|lia|]. by rewrite (Z.mul_comm 4096), Z_mod_plus_full.
Qed.

(** A single page. *)
Lemma mappages_page pgdir a pa perm s F :
  mem_ok kend L s F → pt_ok kend (memory s) pgdir F → 0 ≤ a → a `mod` 4096 = 0 → a + 4096 ≤ 2 ^ 32 → 0 ≤ pa < 2 ^ 32 →
  hasbit (pte_at (memory s) pgdir a) PTE_P = false →
  ∃ s' F' r, mappages pgdir a PGSIZE pa perm s = Ok r s' ∧ step kend L pgdir F s F' s' ∧
    ((r = 0 ∧ ∀ va, pte_at (memory s') pgdir va =
        if decide (pg va = a) then u32 (Z.lor (Z.lor pa perm) PTE_P) else pte_at (memory s) pgdir va) ∨
     (r = -1 ∧ F' = [] ∧ ∀ va, pte_at (memory s') pgdir va = pte_at (memory s) pgdir va)).
Proof.
  intros Hok Hpt H0 Ha Hw Hpa Hun. assert (pg a = a) as Hpg by (apply pg_page; [lia|done]).
  assert (pg (a + PGSIZE - 1) = a) as Hlast.
  { unfold pg, PGSIZE. rewrite u32_small by lia. Z.to_euclidean_division_equations; lia. }
  assert (more_pages a PGSIZE = 0%nat) as Hmore by (unfold more_pages; by rewrite Hpg, Hlast, Z.sub_diag).
  destruct (mappages_ok pgdir a PGSIZE pa perm s F) as (s' & F' & k & Hst & Hmaps & Hres); try done.
  { intros v Hv. rewrite Hlast, Hpg in Hv. assert (pg v = pg a) as [H1 H2]%pg_index by lia.
    revert Hun. unfold pte_at. by rewrite H1, H2. }
  rewrite Hmore, Hpg in *. exists s', F'. destruct Hres as [[Hr ->]|(Hr & Hk & ->)].
  - exists 0. split_and!; [done|done|left]. split; [done|]. intros va. rewrite Hmaps.
    assert (pg va `mod` 4096 = 0) by (unfold pg; rewrite Z.mul_comm; apply Z_mod_mult).
    repeat case_decide; try done; try (exfalso; Z.to_euclidean_division_equations; lia).
    do 3 f_equal. rewrite u32_small by lia. lia.
  - exists (-1). split_and!; [done|done|right]. split_and!; [done|done|]. intros va. rewrite Hmaps. by rewrite decide_False by lia.
Qed.

(** ** The kernel's part *)

(** How a row of [kmap] describes a virtual page. *)
Definition row_size (r : kmap_row) : Z := u32 (phys_end r - phys_start r).
Definition in_row (r : kmap_row) (va : Z) : bool := (virt r <=? pg va) && (pg va <? virt r + row_size r).
Definition row_pte (r : kmap_row) (va : Z) : Z :=
  u32 (Z.lor (Z.lor (u32 (phys_start r + (pg va - virt r))) (perm r)) PTE_P).

(** The entry of the kernel's part for [va]. *)
Definition kernel_pte (rows : list kmap_row) (va : Z) : Z :=
  match list_find (λ r, Is_true (in_row r va)) rows with Some (_, r) => row_pte r va | None => 0 end.

Record row_ok (r : kmap_row) : Prop := Row_ok {
  ro_virt : 0 ≤ virt r ∧ virt r `mod` 4096 = 0;
  ro_size : 0 < row_size r ∧ row_size r `mod` 4096 = 0;
  ro_end : virt r + row_size r ≤ 2 ^ 32;
  ro_phys : 0 ≤ phys_start r < 2 ^ 32
}.

(** No two rows describe the same page. *)
Definition apart (rows : list kmap_row) : Prop :=
  ∀ i j r r' va, rows !! i = Some r → rows !! j = Some r' → in_row r va = true → in_row r' va = true → i = j.

(** Mapping one row. *)
Lemma map_row pgdir r s F :
  mem_ok kend L s F → pt_ok kend (memory s) pgdir F → row_ok r →
  (∀ va, in_row r va = true → hasbit (pte_at (memory s) pgdir va) PTE_P = false) →
  ∃ s' F' v, mappages pgdir (virt r) (row_size r) (phys_start r) (perm r) s = Ok v s' ∧ step kend L pgdir F s F' s' ∧
    ((v = 0 ∧ ∀ va, pte_at (memory s') pgdir va = if in_row r va then row_pte r va else pte_at (memory s) pgdir va) ∨
     (v = -1 ∧ F' = [])).
Proof.
  intros Hok Hpt [[Hv1 Hv2] [Hs1 Hs2] He Hp] Hun.
  assert (pg (virt r) = virt r) as Hpg by (apply pg_page; lia).
  assert (pg (virt r + row_size r - 1) = virt r + row_size r - 4096) as Hlast.
  { unfold pg. rewrite u32_small by lia. Z.to_euclidean_division_equations; lia. }
  destruct (mappages_ok pgdir (virt r) (row_size r) (phys_start r) (perm r) s F)
    as (s' & F' & k & Hst & Hmaps & Hres); try done.
  { intros v Hv. apply Hun. unfold in_row. rewrite andb_true_iff, Z.leb_le, Z.ltb_lt. lia. }
  exists s', F'. destruct Hres as [[Hr ->]|(Hr & _ & ->)].
  - exists 0. split_and!; [done|done|]. left. split; [done|]. intros va. rewrite Hmaps.
    unfold more_pages. rewrite Hpg, Hlast. unfold in_row, row_pte.
    assert (4096 * Z.of_nat (S (Z.to_nat ((virt r + row_size r - 4096 - virt r) / 4096))) = row_size r) as ->.
    { Z.to_euclidean_division_equations; lia. }
    case_decide as Hd; destruct (Z.leb_spec (virt r) (pg va)), (Z.ltb_spec (pg va) (virt r + row_size r)); done || lia.
  - exists (-1). split_and!; [done|done|by right].
Qed.

(** All rows. *)
Definition map_rows (pgdir : Z) (rows : list kmap_row) : K (kst B) (option Z) :=
  for_ret rows (λ k,
    r ← mappages pgdir (virt k) (u32 (phys_end k - phys_start k)) (phys_start k) (perm k);
    mret (if r <? 0 then Some 0 else None)).

Lemma map_rows_ok pgdir rows s F :
  mem_ok kend L s F → pt_ok kend (memory s) pgdir F → Forall row_ok rows → apart rows →
  (∀ va, existsb (λ r, in_row r va) rows = true → hasbit (pte_at (memory s) pgdir va) PTE_P = false) →
  ∃ s' F' v, map_rows pgdir rows s = Ok v s' ∧ step kend L pgdir F s F' s' ∧
    ((v = None ∧ ∀ va, pte_at (memory s') pgdir va =
        if existsb (λ r, in_row r va) rows then kernel_pte rows va else pte_at (memory s) pgdir va) ∨
     (v = Some 0 ∧ F' = [])).
Proof.
  revert s F. induction rows as [|r rows IH]; intros s F Hok Hpt Hro Hap Hun.
  { exists s, F, None. split_and!; [done|by apply step_refl|by left]. }
  rewrite Forall_cons in Hro. destruct Hro as [Hr Hro].
  destruct (map_row pgdir r s F Hok Hpt Hr) as (s1 & F1 & v & Hrun & Hst & Hres).
  { intros va Hin. apply Hun. cbn. by rewrite Hin. }
  unfold map_rows. cbn [for_ret]. fold (row_size r). rewrite (bind_ok _ _ s (if v <? 0 then Some 0 else None) s1).
  2: { by rewrite (bind_ok _ _ _ _ _ Hrun). }
  destruct Hres as [[-> Hpte]|[-> ->]].
  2: { exists s1, [], (Some 0). split_and!; [done|done|by right]. }
  assert (∀ va, in_row r va = true → existsb (λ r, in_row r va) rows = false) as Hdis.
  { intros va Hin. apply not_true_is_false. intros Hex. apply existsb_exists in Hex as (r' & Hr' & Hin').
    apply list_elem_of_In, list_elem_of_lookup in Hr' as [j Hj].
    discriminate (Hap 0%nat (S j) r r' va eq_refl Hj Hin Hin'). }
  destruct (IH s1 F1) as (s2 & F2 & v & Hrun2 & Hst2 & Hres2); [apply Hst|apply Hst|done| | |].
  { intros i j r1 r2 va Hi Hj H1 H2. by injection (Hap (S i) (S j) r1 r2 va Hi Hj H1 H2). }
  { intros va Hex. rewrite Hpte. destruct (in_row r va) eqn:Hin; [by rewrite Hdis in Hex|].
    apply Hun. cbn. by rewrite Hex, orb_true_r. }
  exists s2, F2, v. split_and!; [done|by eapply step_trans|]. destruct Hres2 as [[-> Hpte2]|]; [|by right].
  left. split; [done|]. intros va. rewrite Hpte2, Hpte. cbn [existsb]. unfold kernel_pte. cbn [list_find].
  destruct (in_row r va) eqn:Hin; cbn [orb].
  - rewrite (Hdis va Hin). by rewrite decide_True by done.
  - destruct (existsb _ rows); [|done]. rewrite decide_False by (cbn; tauto).
    by destruct (list_find _ rows) as [[]|].
Qed.

(** Where the linker puts [data]. *)
Definition kdata_ok (kdata : Z) : Prop := kdata `mod` 4096 = 0 ∧ KERNLINK < kdata < KERNBASE + PHYSTOP.

(** The four rows: where they start and how long they are. *)
Lemma row_cases kdata i r :
  kdata_ok kdata → kmap kdata !! i = Some r →
  (i = 0%nat ∧ virt r = KERNBASE ∧ row_size r = EXTMEM ∧ phys_start r = 0) ∨
  (i = 1%nat ∧ virt r = KERNLINK ∧ row_size r = kdata - KERNLINK ∧ phys_start r = EXTMEM) ∨
  (i = 2%nat ∧ virt r = kdata ∧ row_size r = KERNBASE + PHYSTOP - kdata ∧ phys_start r = kdata - KERNBASE) ∨
  (i = 3%nat ∧ virt r = DEVSPACE ∧ row_size r = 0x2000000 ∧ phys_start r = DEVSPACE).
Proof.
  intros [_ H] Hi. unfold kmap, row_size in *.
  assert (v2p kdata = kdata - KERNBASE) as Hv.
  { unfold v2p, KERNLINK, KERNBASE, EXTMEM, PHYSTOP in *. apply u32_small. lia. }
  assert (v2p KERNLINK = EXTMEM) as Hl by done.
  destruct i as [|[|[|[|i]]]]; [| | | |done]; injection Hi as <-; cbn [virt phys_start phys_end]; rewrite ?Hv, ?Hl.
  - by left.
  - right; left. rewrite u32_small; unfold KERNLINK, KERNBASE, EXTMEM, PHYSTOP in *; split_and!; lia.
  - right; right; left. rewrite u32_small; unfold KERNLINK, KERNBASE, EXTMEM, PHYSTOP in *; split_and!; lia.
  - by right; right; right.
Qed.

Lemma kmap_rows kdata : kdata_ok kdata → Forall row_ok (kmap kdata) ∧ apart (kmap kdata).
Proof.
  intros H. split.
  - apply Forall_lookup. intros i r Hi. pose proof (row_cases kdata i r H Hi) as Hc. destruct H as [Hm Hr].
    unfold KERNLINK, KERNBASE, EXTMEM, PHYSTOP, DEVSPACE in *.
    destruct Hc as [(_ & Hv & Hs & Hp)|[(_ & Hv & Hs & Hp)|[(_ & Hv & Hs & Hp)|(_ & Hv & Hs & Hp)]]];
      split; rewrite ?Hv, ?Hs, ?Hp; clear Hv Hs Hp; change (2 ^ 32) with 4294967296; Z.to_euclidean_division_equations; lia.
  - intros i j r r' va Hi Hj. pose proof (row_cases kdata i r H Hi) as Hc. pose proof (row_cases kdata j r' H Hj) as Hc'.
    destruct H as [Hm Hr]. unfold in_row. rewrite !andb_true_iff, !Z.leb_le, !Z.ltb_lt. intros H1 H2.
    unfold KERNLINK, KERNBASE, EXTMEM, PHYSTOP, DEVSPACE in *. lia.
Qed.

Lemma keep_trans s1 s2 s3 : kst_keep s1 s2 → kst_keep s2 s3 → kst_keep s1 s3.
Proof. intros [H1 H2] [H3 H4]. split; [congruence|by etrans]. Qed.

(** A zeroed page is an empty page table. *)
Lemma empty_pt m d F :
  page kend d → d ∉ F → (∀ i, 0 ≤ i < 1024 → mread32 m (d + 4 * i) = 0) →
  pt_ok kend m d F ∧ (∀ va, pte_at m d va = 0) ∧ (∀ p, pt_page m d p → p = d).
Proof.
  intros Hd HF Hz. assert (∀ i, 0 ≤ i < 1024 → table m d i = None) as Ht.
  { intros i Hi. unfold table. by rewrite Hz. }
  split_and!.
  - split; [done|done| |]; intros i t; [intros Hi|intros t' Hi Hi']; by rewrite Ht.
  - intros va. unfold pte_at. by rewrite Ht by apply PDX_range.
  - intros p [|(i & Hi & E)]; [done|]. by rewrite Ht in E.
Qed.

(** A page table has a directory and at most 1024 tables. *)
Definition table_pages m pgdir : list Z := pgdir :: map (λ i, default 0 (table m pgdir (Z.of_nat i))) (seq 0 1024).

Lemma table_pages_in m pgdir p : pt_page m pgdir p → p ∈ table_pages m pgdir.
Proof.
  unfold table_pages. intros [->|(d & Hd & E)]; [apply list_elem_of_here|]. apply elem_of_cons. right.
  apply list_elem_of_In, in_map_iff. exists (Z.to_nat d). rewrite Z2Nat.id by lia. rewrite E. split; [done|]. apply in_seq. lia.
Qed.

Lemma taken_le (F l : list Z) : NoDup F → (∀ p, p ∈ F → p ∈ l) → (length F ≤ length l)%nat.
Proof. intros Hn H. apply submseteq_length, NoDup_submseteq; done. Qed.

Lemma setupkvm_ok kdata s F :
  kdata_ok kdata → mem_ok kend L s F →
  ∃ s' F' v, setupkvm kdata s = Ok v s' ∧ mem_ok kend L s' F' ∧ kst_keep s s' ∧ (∃ T, F = T ++ F') ∧
    (∀ p x, page kend p → p ∉ F → inrange p PGSIZE x = true → memory s' x = memory s x) ∧
    ((v = 0 ∧ F' = [] ∧ (length F ≤ 1025)%nat) ∨
     (v ≠ 0 ∧ pt_ok kend (memory s') v F' ∧ (∀ p, pt_page (memory s') v p → p ∈ F) ∧
      (∀ p, p ∈ F → p ∈ F' ∨ pt_page (memory s') v p) ∧
      ∀ va, pte_at (memory s') v va = kernel_pte (kmap kdata) va)).
Proof.
  intros Hkd [Hf HL]. destruct (kalloc_ok kend L s F Hf HL) as (s1 & Hr & Hf1 & Hm1 & HL1 & Hk1).
  unfold setupkvm. rewrite (bind_ok _ _ _ _ _ Hr). destruct F as [|d F]; cbn [head tail default] in *; cbv delta [id] beta in Hr |- *.
  { exists s1, [], 0. split_and!; [done|by split|done|by exists []| |left; split_and!; [done|done|cbn; lia]]. intros. by rewrite Hm1. }
  pose proof (fo_page _ _ _ Hf) as HFp. rewrite Forall_cons in HFp. destruct HFp as [Hdp _].
  pose proof (fo_nodup _ _ _ Hf) as Hnd. rewrite NoDup_cons in Hnd. destruct Hnd as [HdF _].
  pose proof (page_range _ _ Hdp). destruct (Z.eqb_spec d 0); [unfold KERNBASE in *; lia|].
  unfold fillm. rewrite (bind_ok _ _ _ _ _ (modify_ok _ _)), Hm1. cbv beta.
  set (m1 := memset (memory s) d 0 PGSIZE). set (s2 := set_memory m1 s1).
  assert (∀ x, inrange d PGSIZE x = false → m1 x = memory s x) as Hm1'.
  { intros x Hx. unfold m1. rewrite memset_spec by (unfold PGSIZE; lia). by rewrite Hx. }
  destruct (empty_pt m1 d F Hdp HdF) as (Hpt & Hz & Hpp).
  { intros i Hi. by apply mread32_zero. }
  destruct (kmap_rows kdata Hkd) as [Hro Hap].
  destruct (map_rows_ok d (kmap kdata) s2 F) as (s3 & F3 & v & Hr3 & Hst & Hres); [|done|done|done| |].
  { apply (mem_ok_write kend L _ _ d); [by split|done|done|]. intros x. rewrite Hm1. apply Hm1'. }
  { intros va _. cbn [memory set_memory s2]. by rewrite Hz. }
  change (panic_if _ _) with (mret tt : K (kst B) unit). rewrite (bind_ok _ _ s2 tt s2) by done.
  unfold map_rows in Hr3. rewrite (bind_ok _ _ _ _ _ Hr3). exists s3, F3, (default d v).
  destruct (st_suffix _ _ _ _ _ _ _ Hst) as [T HT]. split_and!; [done|apply Hst| |exists (d :: T); by rewrite HT| |].
  - exact (keep_trans s s1 s3 Hk1 (st_keep _ _ _ _ _ _ _ Hst)).
  - intros p x Hp Hpf Hx. rewrite (st_out _ _ _ _ _ _ _ Hst p x Hp); [|by intros ->%Hpp; set_solver|set_solver|done].
    apply Hm1'. apply (page_disjoint kend p d x); [done|done|set_solver|done].
  - assert (∀ p, p ∈ d :: F → p ∈ F3 ∨ pt_page (memory s3) d p) as Htk.
    { intros p [->|Hp]%elem_of_cons; [by right; left|]. by apply (st_taken _ _ _ _ _ _ _ Hst). }
    destruct Hres as [[-> Hpte]|[-> ->]]; [right|left].
    2: { split_and!; [done|done|]. apply (taken_le _ (table_pages (memory s3) d)); [apply (fo_nodup _ _ _ Hf)|].
      intros p [[]%not_elem_of_nil|?]%Htk. by apply table_pages_in. }
    split_and!; [done|apply Hst| |done|].
    + intros p Hp. destruct (st_pages _ _ _ _ _ _ _ Hst p Hp) as [->%Hpp|]; set_solver.
    + intros va. rewrite Hpte. cbn [memory set_memory s2]. rewrite Hz. destruct (existsb _ _) eqn:Ex; [done|].
      unfold kernel_pte. destruct (list_find _ _) as [[i r]|] eqn:El; [|done]. apply list_find_Some in El as (Hi & Hin & _).
      exfalso. apply not_true_iff_false in Ex. apply Ex, existsb_exists. exists r. split; [|by apply Is_true_true].
      by apply list_elem_of_In, (list_elem_of_lookup_2 _ i).
Qed.
End space.
