(* ===== verification/VmUser.v ===== *)
(** * The user's part of an address space

    [us_ok]: the pages a page table maps below [KERNBASE] are pages of the pool,
    each mapped once, none of them free or part of the table.  [deallocuvm] and
    [freevm] give back exactly those pages, and the table. *)
From S2P Require Import Prelude Spinlock Str Ptable PtableLists Sched Choice Scheduling Services Kalloc BioRing Bio DiskFmt Log Fs Vm VmFacts VmSpace.

(** The page mapped at [va]. *)
Definition upage (m : mem) (pgdir va : Z) : option Z :=
  let e := pte_at m pgdir va in
  if hasbit e PTE_P then Some (p2v (PTE_ADDR e)) else None.

(** Membership in lists made of [::] and [++]. *)
Ltac list_in :=
  rewrite ?not_elem_of_cons, ?not_elem_of_app, ?elem_of_cons, ?elem_of_app;
  repeat match goal with
  | H : _ ∉ _ :: _ |- _ => rewrite !not_elem_of_cons, ?not_elem_of_app in H
  | H : _ ∉ _ ++ _ |- _ => rewrite !not_elem_of_app, ?not_elem_of_cons in H
  | H : _ ∈ _ :: _ |- _ => rewrite !elem_of_cons, ?elem_of_app in H
  | H : _ ∈ _ ++ _ |- _ => rewrite !elem_of_app, ?elem_of_cons in H
  end; first [tauto|intuition congruence].

(** An entry after [deallocuvm]. *)
Definition cleared (e : Z) : Z := if hasbit e PTE_P then 0 else e.

Section user.
Context {B : Type} {O : KOps B} {W : KLaws B} (kend : Z) (L : gset lockid).
Context (Hkend : KERNBASE < kend).
Implicit Types (s : kst B) (F : list Z) (m : mem).

Record us_ok m (pgdir : Z) F : Prop := Us_ok {
  us_pt : pt_ok kend m pgdir F;
  us_page : ∀ va u, 0 ≤ va < KERNBASE → upage m pgdir va = Some u → page kend u ∧ u ∉ F ∧ ¬ pt_page m pgdir u;
  us_inj : ∀ va va' u, 0 ≤ va < KERNBASE → 0 ≤ va' < KERNBASE →
    upage m pgdir va = Some u → upage m pgdir va' = Some u → pg va = pg va'
}.

Lemma pt_page_ext m m' pgdir p :
  (∀ d, 0 ≤ d < 1024 → table m' pgdir d = table m pgdir d) → pt_page m' pgdir p ↔ pt_page m pgdir p.
Proof. intros Ht. unfold pt_page. split; (intros [|(d & Hd & E)]; [by left|right; exists d; split; [done|]]); by rewrite <- E, Ht. Qed.

Lemma us_ext m m' pgdir F F' :
  us_ok m pgdir F → (∀ p x, pt_page m pgdir p → inrange p PGSIZE x = true → m' x = m x) →
  (∀ p, p ∈ F' → p ∈ F) → us_ok m' pgdir F'.
Proof.
  intros [H1 H2 H3] Hext HF. destruct (pt_ext m m' pgdir Hext) as [Ht Hpte].
  assert (∀ va, upage m' pgdir va = upage m pgdir va) as Hu by (intros va; unfold upage; by rewrite Hpte).
  split; [by eapply pt_ok_ext| |].
  - intros va u Hva. rewrite Hu. intros E. destruct (H2 va u Hva E) as (?&?&?). rewrite pt_page_ext by done. split_and!; auto.
  - intros va va' u Hva Hva'. rewrite !Hu. by apply H3.
Qed.

Lemma upage_pg m pgdir va va' : pg va = pg va' → upage m pgdir va = upage m pgdir va'.
Proof. intros H%pg_index. unfold upage, pte_at. by destruct H as [-> ->]. Qed.

(** What [kfree] does for the owner of the page. *)
Lemma free_user s F pgdir va u :
  mem_ok kend L s F → us_ok (memory s) pgdir F → 0 ≤ va < KERNBASE → upage (memory s) pgdir va = Some u →
  ∃ s', kfree kend u s = Ok tt s' ∧ mem_ok kend L s' (u :: F) ∧ kst_keep s s' ∧
    (∀ x, inrange u PGSIZE x = false → memory s' x = memory s x) ∧ pt_ok kend (memory s') pgdir (u :: F) ∧
    (∀ d, 0 ≤ d < 1024 → table (memory s') pgdir d = table (memory s) pgdir d) ∧
    (∀ va', pte_at (memory s') pgdir va' = pte_at (memory s) pgdir va').
Proof.
  intros [Hf HL] Hus Hva Hu. destruct (us_page _ _ _ Hus va u Hva Hu) as (Hp & HuF & Hnp).
  destruct (kfree_ok kend L s F u Hf Hp HuF HL) as (s' & Hr & Hf' & Hm & HL' & Hk).
  assert (∀ p x, pt_page (memory s) pgdir p → inrange p PGSIZE x = true → memory s' x = memory s x) as Hext.
  { intros p x Hpp Hx. apply Hm. apply (page_disjoint kend p u x); [|done| |done].
    - destruct Hpp as [->|(d & Hd & E)]; [apply (us_pt _ _ _ Hus)|].
      by destruct (pt_tab _ _ _ _ (us_pt _ _ _ Hus) d p Hd E).
    - intros ->. done. }
  destruct (pt_ext _ _ _ Hext) as [Ht Hpte]. exists s'. split_and!; [done|by split|done|done| |done|done].
  pose proof (us_pt _ _ _ Hus) as Hpt. pose proof (pt_ok_ext kend _ _ _ _ F Hpt Hext (λ _ H, H)) as [P1 P2 P3 P4].
  split; [done| | |done].
  - intros [->|?]%elem_of_cons; [|done]. apply Hnp. by left.
  - intros d t Hd E. destruct (P3 d t Hd E) as (?&?&?). split_and!; [done|done|].
    intros [->|?]%elem_of_cons; [|done]. apply Hnp. right. exists d. by rewrite <- Ht.
Qed.

(** ** Unmapping *)

Lemma getm_pte s pgdir va t : table (memory s) pgdir (PDX va) = Some t → getm (t + 4 * PTX va) s = Ok (pte_at (memory s) pgdir va) s.
Proof. intros E. unfold getm, gets, pte_at. by rewrite E. Qed.

(** A user address, page aligned. *)
Definition upg (a : Z) : Prop := 0 ≤ a < KERNBASE ∧ a `mod` 4096 = 0.

Lemma upg_pg a : upg a → pg a = a.
Proof. intros [H1 H2]. apply pg_page; [unfold KERNBASE in *; lia|done]. Qed.

(** A round that finds a table. *)
Lemma dealloc_round s F pgdir oldsz a t :
  mem_ok kend L s F → us_ok (memory s) pgdir F → upg a → a < oldsz → table (memory s) pgdir (PDX a) = Some t →
  let T := from_option (λ u, [u]) [] (upage (memory s) pgdir a) in
  ∃ s', dealloc_step kend pgdir oldsz a s = Ok (inl (a + PGSIZE)) s' ∧ mem_ok kend L s' (T ++ F) ∧ kst_keep s s' ∧
    us_ok (memory s') pgdir (T ++ F) ∧
    (∀ d, 0 ≤ d < 1024 → table (memory s') pgdir d = table (memory s) pgdir d) ∧
    (∀ va, pte_at (memory s') pgdir va = if decide (pg va = a) then cleared (pte_at (memory s) pgdir va) else pte_at (memory s) pgdir va) ∧
    (∀ p x, page kend p → ¬ pt_page (memory s) pgdir p → p ∉ T ++ F → inrange p PGSIZE x = true → memory s' x = memory s x).
Proof.
  intros Hok Hus Ha Hlt E T. unfold dealloc_step. destruct (Z.ltb_spec a oldsz); [|lia].
  rewrite (bind_ok _ _ _ _ _ (walk_present s pgdir a t false E)).
  pose proof (us_pt _ _ _ Hus) as Hpt. destruct (pt_tab _ _ _ _ Hpt _ _ (PDX_range a) E) as (Htp & _ & _).
  pose proof (page_range _ _ Htp). pose proof (PTX_range a). destruct (Z.eqb_spec (t + 4 * PTX a) 0); [unfold KERNBASE in *; lia|].
  cbv iota. rewrite (bind_ok _ _ _ _ _ (getm_pte s pgdir a t E)).
  assert (u32 (a + PGSIZE) = a + PGSIZE) as Hnext by (destruct Ha; unfold PGSIZE, KERNBASE in *; apply u32_small; lia).
  rewrite Hnext. unfold T, upage. destruct (hasbit (pte_at (memory s) pgdir a) PTE_P) eqn:Hb; cbn [from_option app].
  - set (u := p2v (PTE_ADDR (pte_at (memory s) pgdir a))).
    assert (upage (memory s) pgdir a = Some u) as Hu by (unfold upage; by rewrite Hb).
    destruct Ha as [Har Ham]. destruct (us_page _ _ _ Hus a u Har Hu) as (Hup & HuF & Hnp).
    destruct (free_user s F pgdir a u Hok Hus Har Hu) as (s1 & Hr1 & Hok1 & Hk1 & Hm1 & Hpt1 & Ht1 & Hpte1).
    destruct (set_entry kend L pgdir (u :: F) a t 0 s1 Hok1 Hpt1) as [Hst Hpte2]; [by rewrite Ht1 by apply PDX_range|].
    destruct (set_pte kend (memory s1) pgdir (u :: F) a t 0 Hpt1) as (_ & Ht2 & _); [by rewrite Ht1 by apply PDX_range|].
    set (s2 := set_memory (mwrite32 (memory s1) (t + 4 * PTX a) 0) s1) in *.
    assert (PTE_ADDR (pte_at (memory s) pgdir a) ≠ 0) as Hnz.
    { intros Hz. unfold u in Hup. rewrite Hz in Hup. destruct Hup as (_ & Hu0 & _). unfold p2v, KERNBASE in *.
      rewrite u32_small in Hu0 by lia. lia. }
    assert (∀ va, pte_at (memory s2) pgdir va = if decide (pg va = a) then cleared (pte_at (memory s) pgdir va) else pte_at (memory s) pgdir va) as Hpte.
    { intros va. rewrite Hpte2, Hpte1. rewrite (upg_pg a) by done. case_decide as Hpg; [|done]. unfold cleared.
      assert (pte_at (memory s) pgdir va = pte_at (memory s) pgdir a) as ->; [|by rewrite Hb].
      rewrite <- (upg_pg a) in Hpg by done. apply pg_index in Hpg as [H1' H2']. unfold pte_at. by rewrite H1', H2'. }
    assert (∀ va v, upage (memory s2) pgdir va = Some v → upage (memory s) pgdir va = Some v ∧ pg va ≠ a) as Hup2.
    { intros va v. unfold upage. rewrite Hpte. case_decide; [|done]. unfold cleared.
      destruct (hasbit (pte_at (memory s) pgdir va) PTE_P) eqn:Hb'; [by cbn|by rewrite Hb']. }
    exists s2. split_and!.
    + destruct (Z.eqb_spec (PTE_ADDR (pte_at (memory s) pgdir a)) 0); [done|].
      rewrite (bind_ok _ _ s tt s2); [done|]. rewrite (bind_ok _ _ s tt s) by done. rewrite (bind_ok _ _ _ _ _ Hr1). done.
    + apply Hst.
    + eapply keep_trans; [done|apply Hst].
    + split; [apply Hst| |].
      * intros va v Hva Hv. destruct (Hup2 va v Hv) as [Hv' Hne]. destruct (us_page _ _ _ Hus va v Hva Hv') as (?&?&Hn).
        split_and!; [done| |].
        -- intros [->|?]%elem_of_cons; [|done]. apply Hne. rewrite <- (upg_pg a) by done. by apply (us_inj _ _ _ Hus va a u).
        -- rewrite pt_page_ext; [exact Hn|]. intros d Hd. by rewrite Ht2, Ht1.
      * intros va va' v Hva Hva' Hv Hv'. apply Hup2 in Hv as [Hv _], Hv' as [Hv' _]. by apply (us_inj _ _ _ Hus va va' v).
    + intros d Hd. by rewrite Ht2, Ht1.
    + exact Hpte.
    + intros p x Hp Hnpt Hnu Hx. rewrite (st_out _ _ _ _ _ _ _ Hst p x Hp); [|by rewrite pt_page_ext|done|done].
      apply Hm1. apply (page_disjoint kend p u x); [done|done|set_solver|done].
  - exists s. split_and!; [done|done|by split|done|done| |done].
    intros va. case_decide as Hpg; [|done]. unfold cleared.
    assert (pte_at (memory s) pgdir va = pte_at (memory s) pgdir a) as ->; [|by rewrite Hb].
    rewrite <- (upg_pg a) in Hpg by done. apply pg_index in Hpg as [H1' H2']. unfold pte_at. by rewrite H1', H2'.
Qed.

(** A round that finds none passes over the addresses of a whole table. *)
Lemma dealloc_skip s pgdir oldsz a :
  upg a → a < oldsz → table (memory s) pgdir (PDX a) = None →
  dealloc_step kend pgdir oldsz a s = Ok (inl (a + 2 ^ 22)) s.
Proof.
  intros [Ha _] Hlt E. unfold dealloc_step. destruct (Z.ltb_spec a oldsz); [|lia].
  rewrite (bind_ok _ _ _ _ _ (walk_absent s pgdir a E)), Z.eqb_refl. cbv iota. unfold NPTENTRIES, PGSIZE, KERNBASE in *.
  rewrite u32_small by lia. change (2 ^ 22) with 4194304. unfold mret, K_ret. do 2 f_equal. lia.
Qed.

(** The user pages from [lo] to [hi] are unmapped and put on the free list, as [T]. *)
Record freed (pgdir lo hi : Z) F s T s' : Prop := Freed {
  fr_ok : mem_ok kend L s' (T ++ F);
  fr_keep : kst_keep s s';
  fr_us : us_ok (memory s') pgdir (T ++ F);
  fr_tab : ∀ d, 0 ≤ d < 1024 → table (memory s') pgdir d = table (memory s) pgdir d;
  fr_pte : ∀ va, pte_at (memory s') pgdir va =
    if decide (lo ≤ pg va < hi) then cleared (pte_at (memory s) pgdir va) else pte_at (memory s) pgdir va;
  fr_list : ∀ p, p ∈ T ↔ ∃ va, lo ≤ pg va < hi ∧ upage (memory s) pgdir va = Some p;
  fr_out : ∀ p x, page kend p → ¬ pt_page (memory s) pgdir p → p ∉ T ++ F →
    inrange p PGSIZE x = true → memory s' x = memory s x
}.

Lemma freed_none pgdir lo hi F s :
  mem_ok kend L s F → us_ok (memory s) pgdir F → (∀ va, lo ≤ pg va < hi → table (memory s) pgdir (PDX va) = None) →
  freed pgdir lo hi F s [] s.
Proof.
  intros H1 H2 Hn. assert (∀ va, lo ≤ pg va < hi → pte_at (memory s) pgdir va = 0) as Hz.
  { intros va Hva. unfold pte_at. by rewrite Hn. }
  split; [done|by split|done|done| | |done].
  - intros va. case_decide; [|done]. by rewrite Hz.
  - intros p. split; [by intros ?%not_elem_of_nil|]. intros (va & Hva & Hu). unfold upage in Hu. by rewrite Hz in Hu.
Qed.

Lemma freed_app pgdir lo mid hi F s T1 s1 T2 s2 :
  (∀ va, lo ≤ pg va < hi ↔ lo ≤ pg va < mid ∨ mid ≤ pg va < hi) → freed pgdir lo mid F s T1 s1 → freed pgdir mid hi (T1 ++ F) s1 T2 s2 →
  freed pgdir lo hi F s (T2 ++ T1) s2.
Proof.
  intros Hle [A1 A2 A3 A4 A5 A6 A7] [B1 B2 B3 B4 B5 B6 B7]. rewrite (app_assoc T2 T1 F) in *.
  split; [done|by eapply keep_trans|done| | | |].
  - intros d Hd. by rewrite B4, A4.
  - intros va. rewrite B5, A5. specialize (Hle va). repeat case_decide; try done; try tauto; lia.
  - intros p. rewrite elem_of_app, B6, A6. unfold upage. split.
    + intros [(va & Hva & Hu)|(va & Hva & Hu)]; exists va; (split; [apply Hle; auto|]); [|done].
      rewrite A5 in Hu. by rewrite decide_False in Hu by lia.
    + intros (va & [Hva|Hva]%Hle & Hu); [right|left]; exists va; (split; [done|]); [done|].
      rewrite A5. by rewrite decide_False by lia.
  - intros p x Hp Hn HF Hx. rewrite (B7 p x), (A7 p x); try done; [set_solver|].
    by rewrite pt_page_ext.
Qed.

Lemma freed_extend pgdir lo lo' hi F s T s' :
  lo ≤ lo' → (∀ va, lo ≤ pg va < lo' → table (memory s) pgdir (PDX va) = None) →
  freed pgdir lo' hi F s T s' → freed pgdir lo hi F s T s'.
Proof.
  intros Hle Hn [A1 A2 A3 A4 A5 A6 A7]. split; try done.
  - intros va. rewrite A5. repeat case_decide; try done; try lia. unfold pte_at. rewrite Hn by lia. done.
  - intros p. rewrite A6. split; intros (va & Hva & Hu); exists va; (split; [|done]); [lia|].
    destruct (decide (lo' ≤ pg va)); [lia|]. unfold upage, pte_at in Hu. rewrite Hn in Hu by lia. done.
Qed.

Lemma pg_step va a : a `mod` 4096 = 0 → a ≤ pg va < a + PGSIZE ↔ pg va = a.
Proof. unfold pg, PGSIZE. intros Ha. pose proof (Z.div_mod a 4096 ltac:(lia)). lia. Qed.

Lemma dealloc_loop pgdir oldsz fuel : ∀ a s F,
  mem_ok kend L s F → us_ok (memory s) pgdir F → 0 ≤ a → a `mod` 4096 = 0 → oldsz ≤ KERNBASE →
  (a < oldsz → a `mod` 2 ^ 22 = 0 ∨ is_Some (table (memory s) pgdir (PDX a))) →
  (0 < fuel)%nat → oldsz - a ≤ 4096 * (Z.of_nat fuel - 1) →
  ∃ s' a' T, while fuel (dealloc_step kend pgdir oldsz) a s = Ok a' s' ∧ freed pgdir a oldsz F s T s'.
Proof.
  induction fuel as [|fuel IH]; intros a s F Hok Hus Ha Hm Hsz Hsk Hpos Hfuel; [lia|].
  destruct (Z.ltb_spec a oldsz) as [Hlt|Hge].
  2: { exists s, a, []. split; [|apply freed_none; [done|done|lia]].
       rewrite (while_ok _ _ _ _ (inr a) s); [done|]. unfold dealloc_step. destruct (Z.ltb_spec a oldsz); [lia|done]. }
  assert (upg a) as Hu by (split; [unfold KERNBASE in *; lia|done]).
  destruct (table (memory s) pgdir (PDX a)) as [t|] eqn:E.
  - destruct (dealloc_round s F pgdir oldsz a t Hok Hus Hu Hlt E) as (s1 & Hr & Hok1 & Hk1 & Hus1 & Ht1 & Hpte1 & Hout1).
    set (T1 := from_option (λ u, [u]) [] (upage (memory s) pgdir a)) in *.
    assert (freed pgdir a (a + PGSIZE) F s T1 s1) as Hfr.
    { split; [done|done|done|done| | |done].
      - intros va. rewrite Hpte1. repeat case_decide; try done; by rewrite pg_step in * by done.
      - intros p. unfold T1. split.
        + intros Hp. exists a. rewrite pg_step, upg_pg by done. split; [done|].
          destruct (upage (memory s) pgdir a) as [u|]; cbn in Hp; [|by apply not_elem_of_nil in Hp].
          by apply list_elem_of_singleton in Hp as ->.
        + intros (va & Hva & Hp). rewrite pg_step in Hva by done. rewrite <- (upg_pg a) in Hva by done.
          rewrite (upage_pg _ _ _ _ Hva) in Hp. rewrite Hp. cbn. apply list_elem_of_here. }
    assert (a + PGSIZE ≤ KERNBASE) as Hle.
    { unfold PGSIZE, KERNBASE in *. pose proof (Z.div_mod a 4096). lia. }
    destruct (IH (a + PGSIZE) s1 (T1 ++ F)) as (s2 & a2 & T2 & Hr2 & Hfr2); try done.
    + unfold PGSIZE. lia.
    + unfold PGSIZE. by rewrite <- Zplus_mod_idemp_l, Hm.
    + intros Hlt'. destruct (decide ((a + PGSIZE) `mod` 2 ^ 22 = 0)) as [|Hna]; [by left|right].
      rewrite Ht1 by apply PDX_range. assert (PDX (a + PGSIZE) = PDX a) as ->; [|by eexists].
      rewrite !PDX_eq. unfold PGSIZE, KERNBASE in *. rewrite !u32_small by lia. revert Hna. change (2 ^ 22) with (4096 * 1024).
      clear -Hm Ha. Z.to_euclidean_division_equations; lia.
    + destruct fuel; [|lia]. cbn in Hfuel. lia.
    + unfold PGSIZE. lia.
    + exists s2, a2, (T2 ++ T1). rewrite (while_ok _ _ _ _ _ _ Hr). split; [done|].
      eapply freed_app; [|done|done]. intros va. rewrite pg_step by done. unfold pg, PGSIZE in *.
      pose proof (Z.div_mod a 4096). lia.
  - destruct (Hsk Hlt) as [Hal|[t Ht]]; [|congruence].
    destruct (IH (a + 2 ^ 22) s F) as (s2 & a2 & T2 & Hr2 & Hfr2); try done.
    + lia.
    + rewrite <- Zplus_mod_idemp_l, Hm. done.
    + intros _. left. rewrite <- Zplus_mod_idemp_l, Hal. done.
    + destruct fuel; [|lia]. cbn in Hfuel. lia.
    + change (2 ^ 22) with 4194304. lia.
    + exists s2, a2, T2. rewrite (while_ok _ _ _ _ _ _ (dealloc_skip s pgdir oldsz a Hu Hlt E)). split; [done|].
      apply (freed_extend pgdir a (a + 2 ^ 22)); [lia| |done]. intros va Hva. rewrite <- E. f_equal. revert Hva.
      rewrite !PDX_eq. unfold pg, KERNBASE in *. rewrite (u32_small a) by lia. change (2 ^ 22) with (4096 * 1024) in *.
      clear -Hal Ha. Z.to_euclidean_division_equations; lia.
Qed.

Lemma deallocuvm_ok pgdir oldsz newsz s F :
  mem_ok kend L s F → us_ok (memory s) pgdir F → 0 ≤ newsz < oldsz → oldsz ≤ KERNBASE →
  (PGROUNDUP newsz < oldsz → PGROUNDUP newsz `mod` 2 ^ 22 = 0 ∨ is_Some (table (memory s) pgdir (PDX (PGROUNDUP newsz)))) →
  ∃ s' T, deallocuvm kend pgdir oldsz newsz s = Ok newsz s' ∧ freed pgdir (PGROUNDUP newsz) oldsz F s T s'.
Proof.
  intros Hok Hus Hn Hsz Hsk. destruct (PGROUNDUP_bounds newsz) as [Hal Hb]; [lia|unfold PGSIZE, KERNBASE in *; lia|].
  destruct (dealloc_loop pgdir oldsz (S (S (Z.to_nat (oldsz / PGSIZE)))) (PGROUNDUP newsz) s F) as (s' & a' & T & Hr & Hfr);
    try done; [lia|lia| |].
  { rewrite !Nat2Z.inj_succ. pose proof (Z.div_mod oldsz PGSIZE). pose proof (Z.mod_pos_bound oldsz PGSIZE).
    unfold PGSIZE in *. rewrite Z2Nat.id; [lia|]. apply Z.div_pos; lia. }
  exists s', T. split; [|done]. unfold deallocuvm. rewrite Z.geb_leb. destruct (Z.leb_spec oldsz newsz); [lia|].
  by rewrite (bind_ok _ _ _ _ _ Hr).
Qed.

(** ** Giving back a page table *)

Definition free_table (pgdir : Z) (i : nat) : K (kst B) unit :=
  e ← getm (pgdir + 4 * Z.of_nat i);
  if hasbit e PTE_P then kfree kend (p2v (PTE_ADDR e)) else mret tt.

Lemma free_table_eq pgdir i s :
  free_table pgdir i s = match table (memory s) pgdir (Z.of_nat i) with Some t => kfree kend t s | None => Ok tt s end.
Proof. unfold free_table, getm, table. rewrite (bind_ok _ _ _ _ _ (gets_ok _ _)). by destruct (hasbit _ PTE_P). Qed.

Lemma free_tables pgdir l : ∀ s F,
  mem_ok kend L s F → pt_ok kend (memory s) pgdir F ∨ (page kend pgdir ∧ pgdir ∉ F ∧
    ∀ i t, i ∈ l → table (memory s) pgdir (Z.of_nat i) = Some t → page kend t ∧ t ≠ pgdir ∧ t ∉ F) →
  (∀ i j t, i ∈ l → j ∈ l → table (memory s) pgdir (Z.of_nat i) = Some t → table (memory s) pgdir (Z.of_nat j) = Some t → i = j) →
  NoDup l → (∀ i, i ∈ l → (i < 1024)%nat) →
  ∃ s' T, for_each l (free_table pgdir) s = Ok tt s' ∧ mem_ok kend L s' (T ++ F) ∧ kst_keep s s' ∧
    (∀ p, p ∈ T ↔ ∃ i, i ∈ l ∧ table (memory s) pgdir (Z.of_nat i) = Some p) ∧
    (∀ p x, page kend p → p ∉ T → inrange p PGSIZE x = true → memory s' x = memory s x).
Proof.
  induction l as [|i l IH]; intros s F Hok Hpt Hinj Hnd Hlt.
  { exists s, []. split_and!; [done|done|by split| |done]. intros p. split; [by intros ?%not_elem_of_nil|].
    intros (i & Hi & _). by apply not_elem_of_nil in Hi. }
  assert (page kend pgdir ∧ pgdir ∉ F ∧ ∀ j t, j ∈ i :: l → table (memory s) pgdir (Z.of_nat j) = Some t →
    page kend t ∧ t ≠ pgdir ∧ t ∉ F) as (Hdp & HdF & Htab).
  { destruct Hpt as [[P1 P2 P3 P4]|]; [|done]. split_and!; [done|done|]. intros j t Hj. apply P3. specialize (Hlt j Hj). lia. }
  clear Hpt. rewrite NoDup_cons in Hnd. destruct Hnd as [Hil Hnd]. cbn [for_each].
  destruct (table (memory s) pgdir (Z.of_nat i)) as [t|] eqn:E.
  - destruct (Htab i t) as (Htp & Htd & HtF); [list_in|done|]. destruct Hok as [Hf HL].
    destruct (kfree_ok kend L s F t Hf Htp HtF HL) as (s1 & Hr1 & Hf1 & Hm1 & HL1 & Hk1).
    assert (∀ j, (j < 1024)%nat → table (memory s1) pgdir (Z.of_nat j) = table (memory s) pgdir (Z.of_nat j)) as Ht1.
    { intros j Hj. apply table_ext; [lia|]. intros x Hx. apply Hm1. by apply (page_disjoint kend pgdir t x). }
    destruct (IH s1 (t :: F)) as (s2 & T & Hr2 & Hok2 & Hk2 & HT & Hout); [by split| | |done|intros j Hj; apply Hlt; list_in|].
    + right. split_and!; [done|list_in|]. intros j t' Hj. rewrite Ht1 by (apply Hlt; list_in). intros E'.
      destruct (Htab j t') as (?&?&?); [list_in|done|]. split_and!; [done|done|].
      intros [->|?]%elem_of_cons; [|done]. apply Hil. by rewrite (Hinj i j t) by list_in.
    + intros j j' t' Hj Hj'. rewrite !Ht1 by (apply Hlt; list_in). apply Hinj; list_in.
    + exists s2, (T ++ [t]). rewrite (bind_ok _ _ s tt s1) by (by rewrite free_table_eq, E). rewrite <- app_assoc.
      split_and!; [done|done|by eapply keep_trans| |].
      * intros p. rewrite elem_of_app, list_elem_of_singleton, HT. split.
        -- intros [(j & Hj & Ej)| ->]; [exists j; rewrite Ht1 in Ej by (apply Hlt; list_in)|exists i]; (split; [list_in|done]).
        -- intros (j & [->|Hj]%elem_of_cons & Ej); [right; congruence|left]. exists j. by rewrite Ht1 by (apply Hlt; list_in).
      * intros p x Hp HpT Hx. rewrite (Hout p x) by list_in. apply Hm1. apply (page_disjoint kend p t x); [done|done|list_in|done].
  - destruct (IH s F) as (s2 & T & Hr2 & Hok2 & Hk2 & HT & Hout); [done| | |done|intros j Hj; apply Hlt; list_in|].
    + right. split_and!; [done|done|]. intros j t Hj. apply Htab. list_in.
    + intros j j' t Hj Hj'. apply Hinj; list_in.
    + exists s2, T. rewrite (bind_ok _ _ s tt s) by (by rewrite free_table_eq, E). split_and!; [done|done|done| |done].
      intros p. rewrite HT. split; intros (j & Hj & Ej); exists j; (split; [|done]); [list_in|].
      apply elem_of_cons in Hj as [->|]; [congruence|done].
Qed.

(** A page of an address space: of its table, or mapped for the user. *)
Definition owned m pgdir p : Prop := pt_page m pgdir p ∨ ∃ va, 0 ≤ va < KERNBASE ∧ upage m pgdir va = Some p.

Lemma freevm_ok pgdir s F :
  mem_ok kend L s F → us_ok (memory s) pgdir F →
  ∃ s' T, freevm kend pgdir s = Ok tt s' ∧ mem_ok kend L s' (T ++ F) ∧ kst_keep s s' ∧
    (∀ p, p ∈ T ↔ owned (memory s) pgdir p) ∧
    (∀ p x, page kend p → p ∉ T ++ F → inrange p PGSIZE x = true → memory s' x = memory s x).
Proof.
  intros Hok Hus. pose proof (us_pt _ _ _ Hus) as Hpt. pose proof (pt_dir _ _ _ _ Hpt) as Hdp. pose proof (page_range _ _ Hdp).
  unfold freevm. destruct (Z.eqb_spec pgdir 0); [unfold KERNBASE in *; lia|]. rewrite (bind_ok _ _ s tt s) by done.
  destruct (deallocuvm_ok pgdir KERNBASE 0 s F Hok Hus) as (s1 & T1 & Hr1 & [A1 A2 A3 A4 A5 A6 A7]); [done|done|by left|].
  change (PGROUNDUP 0) with 0 in *. rewrite (bind_ok _ _ _ _ _ Hr1). pose proof (us_pt _ _ _ A3) as [P1 P2 P3 P4].
  change (for_each (seq 0 NPDENTRIES) _) with (for_each (seq 0 NPDENTRIES) (free_table pgdir)).
  destruct (free_tables pgdir (seq 0 NPDENTRIES) s1 (T1 ++ F)) as (s2 & T2 & Hr2 & Hok2 & Hk2 & HT2 & Hout2);
    [done|left; apply A3| |apply NoDup_seq|intros i; rewrite elem_of_seq0; unfold NPDENTRIES; lia|].
  { intros i j t Hi%elem_of_seq0 Hj%elem_of_seq0 Ei Ej. unfold NPDENTRIES in *. apply Nat2Z.inj, (P4 _ _ t); [lia|lia|done|done]. }
  rewrite (bind_ok _ _ _ _ _ Hr2). destruct Hok2 as [Hf2 HL2].
  assert (∀ p, p ∈ T2 ↔ ∃ d, 0 ≤ d < 1024 ∧ table (memory s) pgdir d = Some p) as HT2'.
  { intros p. rewrite HT2. split.
    - intros (i & Hi%elem_of_seq0 & Ei). unfold NPDENTRIES in *. exists (Z.of_nat i). rewrite A4 in Ei by lia. split; [lia|done].
    - intros (d & Hd & Ed). exists (Z.to_nat d). rewrite elem_of_seq0, Z2Nat.id, A4 by lia. unfold NPDENTRIES. split; [lia|done]. }
  destruct (kfree_ok kend L s2 (T2 ++ T1 ++ F) pgdir) as (s3 & Hr3 & Hf3 & Hm3 & HL3 & Hk3); [done|done| |done|].
  { rewrite elem_of_app, HT2'. intros [(d & Hd & Ed)|?]; [|done]. by destruct (pt_tab _ _ _ _ Hpt d pgdir Hd Ed) as (_ & ? & _). }
  exists s3, (pgdir :: T2 ++ T1). cbn [app]. rewrite <- app_assoc.
  split_and!; [done|by split|eapply keep_trans; [exact A2|by eapply keep_trans]| |].
  - intros p. rewrite elem_of_cons, elem_of_app, HT2', A6. unfold owned, pt_page. split.
    + intros [->|[?|(va & Hva & Hu)]]; [by left; left|by left; right|right]. exists (pg va). split; [lia|].
      rewrite <- Hu. apply upage_pg. unfold KERNBASE in *. apply pg_page; [lia|]. unfold pg. by rewrite Z.mul_comm, Z_mod_mult.
    + intros [[->|?]|(va & Hva & Hu)]; [by left|by right; left|right; right]. exists va. split; [|done].
      unfold pg, KERNBASE in *. rewrite u32_small by lia. clear -Hva. Z.to_euclidean_division_equations; lia.
  - intros p x Hp HF Hx. rewrite not_elem_of_cons, !not_elem_of_app in HF. destruct HF as (Hpd & HpT2 & HpT1 & HpF).
    rewrite Hm3, (Hout2 p x), (A7 p x); try done.
    + by intros [->|Hex%HT2'].
    + rewrite not_elem_of_app. done.
    + by apply (page_disjoint kend p pgdir x).
Qed.
End user.
