(* ===== verification/VmCopy.v ===== *)
(** * Copying an address space

    [copyuvm], which [fork] uses: the child gets pages of its own that hold what
    the parent's pages hold, with the same flags. *)
From S2P Require Import Prelude Spinlock Str Ptable PtableLists Sched Choice Scheduling Services Kalloc BioRing Bio DiskFmt Log Fs Vm VmFacts VmSpace VmUser.

Section copy.
Context {B : Type} {O : KOps B} {W : KLaws B} (kend kdata : Z) (L : gset lockid).
Context (Hkend : KERNBASE < kend) (Hkd : kdata_ok kdata).
Implicit Types (s : kst B) (F : list Z) (m : mem).

(** *** User addresses and the kernel's part *)

Lemma kernel_pte_user va : 0 ≤ va < KERNBASE → kernel_pte (kmap kdata) va = 0.
Proof.
  intros Hva. unfold kernel_pte. destruct (list_find _ _) as [[i r]|] eqn:E; [|done].
  apply list_find_Some in E as (Hi & Hin & _). apply Is_true_true in Hin. unfold in_row in Hin.
  rewrite andb_true_iff, Z.leb_le in Hin. pose proof (row_cases kdata i r Hkd Hi) as Hc. destruct Hkd as [_ Hk].
  assert (pg va ≤ va). { unfold pg, KERNBASE in *. rewrite u32_small by lia. Z.to_euclidean_division_equations; lia. }
  unfold KERNLINK, KERNBASE, EXTMEM, PHYSTOP, DEVSPACE in *. lia.
Qed.

(** The pages of the parent are as they were. *)
Definition same_pages m0 (pgdir : Z) m : Prop :=
  ∀ p x, owned m0 pgdir p → inrange p PGSIZE x = true → m x = m0 x.

(** The [k] first pages have been copied from [pgdir] in [m0] to [d], whose pages
    are from [F0]. *)
Record child_copy F0 m0 (pgdir d : Z) (k : nat) s F : Prop := Child_copy {
  cp_ok : mem_ok kend L s F;
  cp_us : us_ok kend (memory s) d F;
  cp_free : ∀ p, p ∈ F → p ∈ F0;
  cp_frame : ∀ p x, page kend p → p ∉ F0 → inrange p PGSIZE x = true → memory s x = m0 x;
  cp_apart : ∀ p, owned (memory s) d p → p ∈ F0;
  cp_done : ∀ va, 0 ≤ va < KERNBASE → pg va < 4096 * Z.of_nat k →
    ∃ u v, upage m0 pgdir va = Some u ∧ upage (memory s) d va = Some v ∧
      PTE_FLAGS (pte_at (memory s) d va) = PTE_FLAGS (pte_at m0 pgdir va) ∧
      ∀ i, 0 ≤ i < PGSIZE → memory s (v + i) = m0 (u + i);
  cp_todo : ∀ va, 0 ≤ va < KERNBASE → 4096 * Z.of_nat k ≤ pg va → pte_at (memory s) d va = 0;
  cp_kern : ∀ va, KERNBASE ≤ va < 2 ^ 32 → pte_at (memory s) d va = kernel_pte (kmap kdata) va
}.

Lemma owned_page m pgdir F p : us_ok kend m pgdir F → owned m pgdir p → page kend p ∧ p ∉ F.
Proof.
  intros Hus [[->|(d & Hd & E)]|(va & Hva & Hu)].
  - split; apply (us_pt _ _ _ _ Hus).
  - by destruct (pt_tab _ _ _ _ (us_pt _ _ _ _ Hus) d p Hd E) as (?&?&?).
  - by destruct (us_page _ _ _ _ Hus va p Hva Hu) as (?&?&?).
Qed.

Lemma cp_same F0 m0 pgdir d k s F : us_ok kend m0 pgdir F0 → child_copy F0 m0 pgdir d k s F → same_pages m0 pgdir (memory s).
Proof. intros Hus C p x Hp. destruct (owned_page _ _ _ _ Hus Hp). by apply (cp_frame _ _ _ _ _ _ _ C p). Qed.

Lemma free_unowned m pgdir F p : us_ok kend m pgdir F → p ∈ F → ¬ owned m pgdir p.
Proof. intros Hus Hp Ho. by destruct (owned_page _ _ _ _ Hus Ho). Qed.

(** The parent's table is what it was. *)
Lemma same_pte m0 pgdir m : same_pages m0 pgdir m →
  (∀ d, 0 ≤ d < 1024 → table m pgdir d = table m0 pgdir d) ∧ (∀ va, pte_at m pgdir va = pte_at m0 pgdir va).
Proof. intros H. apply pt_ext. intros p x Hp. apply H. by left. Qed.

(** From [s] to [s'] the table of [d] has gained pages, all of them from [F], of
    which [X] have been lost. *)
Definition took (d : Z) s F s' F' (X : list Z) : Prop :=
  (∀ p, owned (memory s) d p → owned (memory s') d p) ∧
  (∀ p, p ∈ F → p ∈ F' ∨ owned (memory s') d p ∨ p ∈ X).

Lemma took_trans d s F s' F' s'' F'' X : took d s F s' F' [] → took d s' F' s'' F'' X → took d s F s'' F'' X.
Proof.
  intros [A1 A2] [B1 B2]. split; [auto|]. intros p [H|[H|[]%not_elem_of_nil]]%A2; [auto|]. right; left. auto.
Qed.

Lemma setup_copied pgdir s F :
  mem_ok kend L s F → us_ok kend (memory s) pgdir F →
  ∃ s' F' d, setupkvm kdata s = Ok d s' ∧ kst_keep s s' ∧
    ((d = 0 ∧ mem_ok kend L s' F' ∧ (∀ p x, page kend p → p ∉ F → inrange p PGSIZE x = true → memory s' x = memory s x) ∧ F' = [] ∧ (length F ≤ 1025)%nat) ∨
     (d ≠ 0 ∧ child_copy F (memory s) pgdir d 0 s' F' ∧ ∀ p, p ∈ F → p ∈ F' ∨ owned (memory s') d p)).
Proof.
  intros Hok Hus. destruct (setupkvm_ok kend L kdata s F Hkd Hok) as (s' & F' & d & Hr & Hok' & Hk & [T HT] & Hout & Hres).
  exists s', F', d. split_and!; [done|done|].
  destruct Hres as [(-> & -> & Hlen)|(Hd & Hpt & Hpp & Htk & Hpte)]; [by left|right].
  assert (∀ va, 0 ≤ va < KERNBASE → upage (memory s') d va = None) as Hnone.
  { intros va Hva. unfold upage. by rewrite Hpte, kernel_pte_user. }
  split_and!; [done| |intros p [?|?]%Htk; [by left|by right; left]]. split; [done| | |done| | | |].
  - split; [done| |]; intros va; [intros u Hva|intros va' u Hva Hva']; by rewrite Hnone.
  - intros p Hp. rewrite HT. list_in.
  - intros p [Hp|(va & Hva & Hu)]; [by apply Hpp|by rewrite Hnone in Hu].
  - intros va Hva. unfold pg. pose proof (u32_range va). Z.to_euclidean_division_equations; lia.
  - intros va Hva _. by rewrite Hpte, kernel_pte_user.
  - intros va _. apply Hpte.
Qed.

(** The flags of a present entry survive [mappages]. *)
Lemma copied_entry e v :
  page kend v → hasbit e PTE_P = true →
  let w := u32 (Z.lor (Z.lor (v2p v) (PTE_FLAGS e)) PTE_P) in
  hasbit w PTE_P = true ∧ p2v (PTE_ADDR w) = v ∧ PTE_FLAGS w = PTE_FLAGS e.
Proof.
  intros Hv Hb w. destruct (v2p_page kend v Hv) as [Hr Hm].
  assert (0 ≤ PTE_FLAGS e < 4096) as Hf by (rewrite PTE_FLAGS_eq; apply Z.mod_pos_bound; lia).
  assert (Z.lor (PTE_FLAGS e) PTE_P = PTE_FLAGS e) as Hl.
  { apply Z.bits_inj'. intros i Hi. rewrite Z.lor_spec. destruct (decide (i = 0)) as [->|].
    - rewrite orb_true_r. symmetry. unfold PTE_FLAGS. rewrite Z.land_spec, andb_true_r. unfold u32.
      rewrite Z.mod_pow2_bits_low by lia. unfold hasbit in Hb. apply negb_true_iff, Z.eqb_neq in Hb.
      destruct (Z.testbit e 0) eqn:Ht; [done|]. destruct Hb. apply Z.bits_inj'. intros j Hj.
      rewrite Z.land_spec, Z.bits_0. destruct (decide (j = 0)) as [->|]; [by rewrite Ht|].
      unfold PTE_P. rewrite (Z.bits_above_log2 1 j), andb_false_r by (cbn; lia). done.
    - unfold PTE_P. by rewrite (Z.bits_above_log2 1 i), orb_false_r by (cbn; lia). }
  unfold w. rewrite <- Z.lor_assoc, Hl. destruct (entry_eq (v2p v) (PTE_FLAGS e) Hm) as (E1 & E2 & E3); [unfold PHYSTOP in *; lia|done|].
  split_and!.
  - rewrite hasbit_u32 by (unfold PTE_P; lia). rewrite hasbit_lor, <- Hl, hasbit_lor. change (hasbit PTE_P PTE_P) with true. by rewrite !orb_true_r.
  - rewrite PTE_ADDR_u32, E2. by eapply p2v_v2p.
  - rewrite <- E3 at 2. unfold PTE_FLAGS at 1 3. f_equal. apply u32_small, u32_range.
Qed.

Lemma upage_same m m' pgdir va : pte_at m' pgdir va = pte_at m pgdir va → upage m' pgdir va = upage m pgdir va.
Proof. unfold upage. by intros ->. Qed.

(** What the free page [v] holds does not matter to the child or the parent. *)
Lemma copy_fill F0 m0 pgdir d k s s1 F v m1 :
  child_copy F0 m0 pgdir d k s (v :: F) → us_ok kend m0 pgdir F0 → memory s1 = memory s → mem_ok kend L s1 F → page kend v → v ∉ F →
  (∀ x, inrange v PGSIZE x = false → m1 x = memory s x) →
  child_copy F0 m0 pgdir d k (set_memory m1 s1) F ∧ (∀ p, owned m1 d p ↔ owned (memory s) d p).
Proof.
  intros [C1 C2 C3 C4 C5 C6 C7 C8] Hus0 Hm Hok Hv HvF Hm1.
  assert (∀ p x, page kend p → p ≠ v → inrange p PGSIZE x = true → m1 x = memory s x) as Hother.
  { intros p x Hp Hne Hx. apply Hm1. by apply (page_disjoint kend p v x). }
  assert (∀ p, owned (memory s) d p → page kend p ∧ p ≠ v) as Hown.
  { intros p Hp. destruct (owned_page _ _ _ _ C2 Hp). split; [done|]. intros ->. list_in. }
  assert (∀ p x, pt_page (memory s) d p → inrange p PGSIZE x = true → m1 x = memory s x) as Hext.
  { intros p x Hp. destruct (Hown p) as [? ?]; [by left|]. by apply (Hother p x). }
  destruct (pt_ext _ _ _ Hext) as [Ht Hpte].
  assert (us_ok kend m1 d F) as Hus by (eapply us_ext; [done|done|]; intros p; list_in).
  assert (∀ p, owned m1 d p ↔ owned (memory s) d p) as Ho.
  { intros p. unfold owned. rewrite pt_page_ext by done. by setoid_rewrite (upage_same _ _ _ _ (Hpte _)). }
  split; [|done]. split; cbn [memory set_memory].
  - apply (mem_ok_write kend L _ _ v); [done|done|done|]. by rewrite Hm.
  - done.
  - intros p Hp. apply C3. list_in.
  - intros p x Hp HpF Hx. rewrite <- (C4 p x) by done. apply (Hother p); [done|intros ->|done]. apply HpF, C3. list_in.
  - intros p Hp%Ho. by apply C5.
  - intros va Hva Hpg. destruct (C6 va Hva Hpg) as (u & w & Hu & Hw & Hfl & Hc). exists u, w. rewrite Hpte, (upage_same _ _ _ _ (Hpte _)).
    split_and!; [done|done|done|]. intros i Hi. rewrite <- Hc by done. destruct (Hown w) as [Hwp Hwv]; [right; eauto|].
    apply (Hother w); [done|done|]. unfold inrange. rewrite andb_true_iff, Z.leb_le, Z.ltb_lt. lia.
  - intros va Hva Hpg. rewrite Hpte. by apply C7.
  - intros va Hva. rewrite Hpte. by apply C8.
Qed.

(** The child after an operation on its table that changed at most the entry of
    the [k]-th page, to one for the page [v]. *)
Lemma copy_step_ok F0 m0 pgdir d k s F F' s' v u w (new : bool) :
  child_copy F0 m0 pgdir d k s F → us_ok kend m0 pgdir F0 → step kend L d F s F' s' →
  page kend v → v ∉ F → ¬ owned (memory s) d v → v ∈ F0 →
  upage m0 pgdir (4096 * Z.of_nat k) = Some u → 4096 * Z.of_nat k < KERNBASE →
  (∀ i, 0 ≤ i < PGSIZE → memory s (v + i) = m0 (u + i)) →
  hasbit w PTE_P = true → p2v (PTE_ADDR w) = v → PTE_FLAGS w = PTE_FLAGS (pte_at m0 pgdir (4096 * Z.of_nat k)) →
  (∀ va, pte_at (memory s') d va = if decide (new = true ∧ pg va = 4096 * Z.of_nat k) then w else pte_at (memory s) d va) →
  child_copy F0 m0 pgdir d (if new then S k else k) s' F'.
Proof.
  intros [C1 C2 C3 C4 C5 C6 C7 C8] Hus0 [S1 S2 [T S3] S4 S5 S6] Hv HvF Hvd Hv0 Hu Ha Hcont Hw1 Hw2 Hw3 Hpte.
  set (a := 4096 * Z.of_nat k) in *.
  assert (pg a = a) as Hpg by (apply pg_page; [unfold KERNBASE in *; lia|unfold a; by rewrite Z.mul_comm, Z_mod_mult]).
  assert (∀ va, upage (memory s') d va = if decide (new = true ∧ pg va = a) then Some v else upage (memory s) d va) as Hup.
  { intros va. unfold upage. cbv zeta. rewrite !Hpte. destruct (decide (new = true ∧ pg va = a)); [by rewrite Hw1, Hw2|done]. }
  assert (∀ p, p ∈ F' → p ∈ F) as HF' by (intros p Hp; rewrite S3; list_in).
  assert (∀ p, owned (memory s') d p → owned (memory s) d p ∨ p ∈ F ∨ p = v) as Hown.
  { intros p [Hp|(va & Hva & Hp)]; [apply S5 in Hp as [?|?]; [by left; left|auto]|]. rewrite Hup in Hp. case_decide.
    - right; right. congruence.
    - left; right; eauto. }
  assert (∀ p x, page kend p → ¬ pt_page (memory s) d p → p ∉ F → inrange p PGSIZE x = true → memory s' x = memory s x) as Hout by done.
  assert (∀ x, inrange v PGSIZE x = true → memory s' x = memory s x) as Hvs.
  { intros x. apply (Hout v); [done| |done]. intros ?. apply Hvd. by left. }
  assert (∀ va q, 0 ≤ va < KERNBASE → upage (memory s) d va = Some q → page kend q ∧ q ∉ F ∧ ¬ pt_page (memory s) d q) as HusP
    by apply (us_page _ _ _ _ C2).
  split.
  - done.
  - split; [done| |].
    + intros va q Hva Hq. rewrite Hup in Hq. case_decide.
      * injection Hq as <-. split_and!; [done|auto|]. intros [?|?]%S5; [apply Hvd; by left|done].
      * destruct (HusP va q Hva Hq) as (?&?&?). split_and!; [done|auto|]. by intros [?|?]%S5.
    + intros va va' q Hva Hva' Hq Hq'. rewrite Hup in Hq, Hq'.
      destruct (decide (new = true ∧ pg va = a)) as [[_ H1]|H1], (decide (new = true ∧ pg va' = a)) as [[_ H2]|H2].
      * congruence.
      * exfalso. apply Hvd. right. exists va'. split; [done|congruence].
      * exfalso. apply Hvd. right. exists va. split; [done|congruence].
      * by apply (us_inj _ _ _ _ C2 va va' q).
  - intros p Hp. by apply C3, HF'.
  - intros p x Hp HpF Hx. rewrite <- (C4 p x) by done.
    apply (Hout p); [done| | |done]; intros ?; apply HpF; [|by apply C3]. apply C5. by left.
  - intros p [Hp|[Hp| ->]]%Hown; [by apply C5|by apply C3|done].
  - intros va Hva Hlt. destruct (decide (new = true ∧ pg va = a)) as [Hd|Hd].
    + exists u, v. rewrite Hup, Hpte, !decide_True by done. destruct Hd as [_ Hd]. rewrite <- Hpg in Hd.
      split_and!; [by rewrite (upage_pg _ _ _ _ Hd)|done| |].
      * rewrite Hw3. apply pg_index in Hd as [H1 H2]. unfold pte_at. by rewrite H1, H2.
      * intros i Hi. rewrite <- Hcont by done. apply Hvs. unfold inrange. rewrite andb_true_iff, Z.leb_le, Z.ltb_lt. lia.
    + assert (pg va < a) as Hlt'.
      { destruct new; [|done]. assert (pg va ≠ a) by tauto. unfold pg, a in *. lia. }
      destruct (C6 va Hva Hlt') as (u' & q & Hu' & Hq & Hfl & Hc). exists u', q.
      rewrite Hup, Hpte, !decide_False by done. split_and!; [done|done|done|]. intros i Hi. rewrite <- Hc by done.
      destruct (HusP va q Hva Hq) as (?&?&?). apply (Hout q); [done|done|done|].
      unfold inrange. rewrite andb_true_iff, Z.leb_le, Z.ltb_lt. lia.
  - intros va Hva Hle. rewrite Hpte, decide_False; [apply C7; [done|destruct new; lia]|]. intros [-> Hd]. unfold a in *. lia.
  - intros va Hva. rewrite Hpte, decide_False; [by apply C8|]. intros [_ Hd].
    unfold pg, a, KERNBASE in *. rewrite u32_small in Hd by lia. Z.to_euclidean_division_equations; lia.
Qed.

Lemma copy_step_took d k s F F' s' v w (new : bool) :
  step kend L d F s F' s' →
  (∀ va, 0 ≤ va < KERNBASE → 4096 * Z.of_nat k ≤ pg va → pte_at (memory s) d va = 0) →
  4096 * Z.of_nat k < KERNBASE → hasbit w PTE_P = true → p2v (PTE_ADDR w) = v →
  (∀ va, pte_at (memory s') d va = if decide (new = true ∧ pg va = 4096 * Z.of_nat k) then w else pte_at (memory s) d va) →
  took d s F s' F' [] ∧ (new = true → owned (memory s') d v).
Proof.
  intros Hst Htodo Ha Hw1 Hw2 Hpte. split; [split|].
  - intros p [Hp|(va & Hva & Hp)]; [left; by apply (st_mono _ _ _ _ _ _ _ Hst)|right]. exists va. split; [done|].
    rewrite (upage_same (memory s)); [done|]. rewrite Hpte, decide_False; [done|]. intros [_ Hd].
    revert Hp. unfold upage. cbv zeta. by rewrite Htodo by lia.
  - intros p [?|?]%(st_taken _ _ _ _ _ _ _ Hst); [by left|by right; left; left].
  - intros ->. right. exists (4096 * Z.of_nat k). split; [lia|]. unfold upage. cbv zeta.
    rewrite Hpte, decide_True; [by rewrite Hw1, Hw2|]. split; [done|].
    apply pg_page; [unfold KERNBASE in *; lia|by rewrite Z.mul_comm, Z_mod_mult].
Qed.

Lemma us_free m pgdir F0 F : us_ok kend m pgdir F0 → (∀ p, p ∈ F → ¬ owned m pgdir p) → us_ok kend m pgdir F.
Proof.
  intros [[P1 P2 P3 P4] U1 U2] HF. split; [split|..]; try done.
  - intros Hp. apply (HF _ Hp). by left; left.
  - intros d t Hd E. destruct (P3 d t Hd E) as (?&?&_). split_and!; [done|done|]. intros Hp. apply (HF _ Hp). left; right; eauto.
  - intros va u Hva Hu. destruct (U1 va u Hva Hu) as (?&_&?). split_and!; [done| |done]. intros Hp. apply (HF _ Hp). right; eauto.
Qed.

(** Copying the page [u] of the parent to the page [v] and mapping that. *)
Lemma copy_into F0 m0 pgdir d k s s1 F v u :
  let a := 4096 * Z.of_nat k in
  child_copy F0 m0 pgdir d k s (v :: F) → us_ok kend m0 pgdir F0 → a < KERNBASE → upage m0 pgdir a = Some u →
  memory s1 = memory s → mem_ok kend L s1 F → page kend v → v ∉ F →
  ∃ s' F' X r,
    (modify (λ s, set_memory (memmove (memory s) v u PGSIZE) s);;
     r ← mappages d a PGSIZE (v2p v) (PTE_FLAGS (pte_at m0 pgdir a));
     mret (if r <? 0 then Some tt else None)) s1 = Ok r s' ∧ kst_keep s1 s' ∧ child_copy F0 m0 pgdir d (if r then k else S k) s' F' ∧
    took d s (v :: F) s' F' X ∧ (if r then F' = [] ∧ X = [v] else X = []).
Proof.
  intros a C Hus0 Ha Hu Hm Hok Hv HvF.
  assert (hasbit (pte_at m0 pgdir a) PTE_P = true) as Hb by (unfold upage in Hu; by destruct (hasbit _ PTE_P)).
  destruct (us_page _ _ _ _ Hus0 a u) as (Hup & HuF & _); [unfold a in *; lia|done|].
  pose proof (page_range _ _ Hup) as Hur. assert (v ∈ F0) as Hv0 by (apply (cp_free _ _ _ _ _ _ _ C); list_in).
  assert (u ≠ v) as Huv by (by intros ->).
  set (m1 := memmove (memory s) v u PGSIZE).
  assert (∀ x, m1 x = if inrange v PGSIZE x then memory s (u + (x - v)) else memory s x) as Hm1.
  { intros x. apply memmove_spec; unfold PGSIZE, KERNBASE, PHYSTOP in *; lia. }
  destruct (copy_fill F0 m0 pgdir d k s s1 F v m1 C Hus0 Hm Hok Hv HvF) as [C1 Hown1].
  { intros x Hx. by rewrite Hm1, Hx. }
  assert (¬ owned m1 d v) as Hvd.
  { intros Ho%Hown1. destruct (owned_page (memory s) d (v :: F) v) as [_ HF]; [apply C|done|list_in]. }
  rewrite (bind_ok _ _ _ _ _ (modify_ok _ _)), Hm. fold m1. cbv beta. set (s2 := set_memory m1 s1) in *.
  assert (a `mod` 4096 = 0) as Ham by (unfold a; by rewrite Z.mul_comm, Z_mod_mult).
  assert (pg a = a) as Hpg by (apply pg_page; [unfold a, KERNBASE in *; lia|done]).
  destruct (mappages_page kend L d a (v2p v) (PTE_FLAGS (pte_at m0 pgdir a)) s2 F) as (s3 & F3 & r & Hr & Hst & Hres);
    [apply C1|apply C1|unfold a; lia|done|unfold KERNBASE in *; lia|destruct (v2p_page kend v Hv); unfold PHYSTOP in *; lia| |].
  { rewrite (cp_todo _ _ _ _ _ _ _ C1 a); [done|unfold a in *; lia|unfold a in *; lia]. }
  destruct (copied_entry (pte_at m0 pgdir a) v Hv Hb) as (W1 & W2 & W3).
  set (w := u32 (Z.lor (Z.lor (v2p v) (PTE_FLAGS (pte_at m0 pgdir a))) PTE_P)) in *.
  assert (∀ i, 0 ≤ i < PGSIZE → m1 (v + i) = m0 (u + i)) as Hcont.
  { intros i Hi. rewrite Hm1. unfold inrange. destruct (Z.leb_spec v (v + i)), (Z.ltb_spec (v + i) (v + PGSIZE)); try lia. cbn [andb].
    replace (u + (v + i - v)) with (u + i) by lia. apply (cp_same _ _ _ _ _ _ _ Hus0 C u); [right; exists a; unfold a in *; split; [lia|done]|].
    unfold inrange. rewrite andb_true_iff, Z.leb_le, Z.ltb_lt. lia. }
  rewrite (bind_ok _ _ _ _ _ Hr). 
  assert (∀ X, took d s2 F s3 F3 [] → owned (memory s3) d v ∨ X = [v] → took d s (v :: F) s3 F3 X) as Htook.
  { intros X [T1 T2] Hv3. split; [intros p Hp%Hown1; by apply T1|]. intros p [->|Hp]%elem_of_cons.
    - destruct Hv3 as [?| ->]; [by right; left|right; right; apply list_elem_of_here].
    - apply T2 in Hp as [?|[?|[]%not_elem_of_nil]]; auto. }
  pose proof (cp_todo _ _ _ _ _ _ _ C1) as Htodo. destruct Hres as [[-> Hpte]|(-> & -> & Hpte)].
  - assert (∀ va, pte_at (memory s3) d va = if decide (true = true ∧ pg va = a) then w else pte_at (memory s2) d va) as Hpte'.
    { intros va. rewrite Hpte. by repeat case_decide; try tauto. }
    destruct (copy_step_took d k s2 F F3 s3 v w true) as [Hk1 Hk2]; try done.
    exists s3, F3, [], None. split_and!; [done|apply Hst| |apply Htook; [done|left; by apply Hk2]|done].
    apply (copy_step_ok F0 m0 pgdir d k s2 F F3 s3 v u w true); done.
  - destruct (copy_step_took d k s2 F [] s3 v w false) as [Hk1 _]; try done.
    exists s3, [], [v], (Some tt). split_and!; [done|apply Hst| |apply Htook; [done|by right]|done|done].
    apply (copy_step_ok F0 m0 pgdir d k s2 F [] s3 v u w false); done.
Qed.

(** One round of the loop of [copyuvm]. *)
Lemma copy_round F0 m0 pgdir d k s F u :
  child_copy F0 m0 pgdir d k s F → us_ok kend m0 pgdir F0 → 4096 * Z.of_nat k < KERNBASE →
  upage m0 pgdir (4096 * Z.of_nat k) = Some u →
  ∃ s' F' X r, copy_step pgdir d k s = Ok r s' ∧ kst_keep s s' ∧
    child_copy F0 m0 pgdir d (if r then k else S k) s' F' ∧ took d s F s' F' X ∧
    (if r then F' = [] ∧ (length X ≤ 1)%nat else X = []).
Proof.
  intros C Hus0 Ha Hu.
  destruct (same_pte _ _ _ (cp_same _ _ _ _ _ _ _ Hus0 C)) as [Htab Hpte0]. set (a := 4096 * Z.of_nat k) in *.
  assert (hasbit (pte_at m0 pgdir a) PTE_P = true ∧ u = p2v (PTE_ADDR (pte_at m0 pgdir a))) as [Hb Hue].
  { unfold upage in Hu. destruct (hasbit _ PTE_P); [by injection Hu as <-|done]. }
  destruct (table m0 pgdir (PDX a)) as [t|] eqn:E.
  2: { exfalso. revert Hb. unfold pte_at. by rewrite E. }
  assert (table (memory s) pgdir (PDX a) = Some t) as Et by (by rewrite Htab by apply PDX_range).
  destruct (pt_tab _ _ _ _ (us_pt _ _ _ _ Hus0) _ _ (PDX_range a) E) as (Htp & _ & _).
  unfold copy_step. change (PGSIZE * Z.of_nat k) with a. rewrite (bind_ok _ _ _ _ _ (walk_present s pgdir a t false Et)).
  pose proof (page_range _ _ Htp). pose proof (PTX_range a). destruct (Z.eqb_spec (t + 4 * PTX a) 0); [unfold KERNBASE in *; lia|].
  rewrite (bind_ok _ _ s tt s) by done. rewrite (bind_ok _ _ _ _ _ (getm_pte s pgdir a t Et)), Hpte0, Hb.
  rewrite (bind_ok _ _ s tt s) by done. rewrite <- Hue.
  destruct (cp_ok _ _ _ _ _ _ _ C) as [Hf HL]. destruct (kalloc_ok kend L s F Hf HL) as (s1 & Hr & Hf1 & Hm1 & HL1 & Hk1).
  rewrite (bind_ok _ _ _ _ _ Hr). destruct F as [|v F]; cbn [head tail default] in *; cbv delta [id] beta in Hr |- *.
  { exists s1, [], [], (Some tt). split_and!; [done|done| |split; [by rewrite Hm1|by intros p ?%not_elem_of_nil]|done|cbn; lia]. destruct C as [C1 C2 C3 C4 C5 C6 C7 C8]. rewrite <- Hm1 in *. by split. }
  pose proof (fo_page _ _ _ Hf) as HFp. rewrite Forall_cons in HFp. destruct HFp as [Hvp _].
  pose proof (fo_nodup _ _ _ Hf) as Hnd. rewrite NoDup_cons in Hnd. destruct Hnd as [HvF _].
  pose proof (page_range _ _ Hvp). destruct (Z.eqb_spec v 0); [unfold KERNBASE in *; lia|]. cbv iota.
  destruct (copy_into F0 m0 pgdir d k s s1 F v u C Hus0 Ha Hu Hm1 (conj Hf1 HL1) Hvp HvF) as (s' & F' & X & r & Hr' & Hk' & C' & HX & HrX).
  exists s', F', X, r. split_and!; [done|by eapply keep_trans|done|done|]. destruct r; [|done]. destruct HrX as [-> ->]. cbn. auto.
Qed.

Lemma copy_loop F0 m0 pgdir d n : ∀ k s F,
  child_copy F0 m0 pgdir d k s F → us_ok kend m0 pgdir F0 →
  (∀ j, (k ≤ j < k + n)%nat → 4096 * Z.of_nat j < KERNBASE ∧ is_Some (upage m0 pgdir (4096 * Z.of_nat j))) →
  ∃ s' F' X k' r, for_ret (seq k n) (copy_step pgdir d) s = Ok r s' ∧ kst_keep s s' ∧
    child_copy F0 m0 pgdir d k' s' F' ∧ took d s F s' F' X ∧
    (if r then F' = [] ∧ (length X ≤ 1)%nat ∧ (k' < k + n)%nat else k' = (k + n)%nat ∧ X = []).
Proof.
  induction n as [|n IH]; intros k s F C Hus0 Hp.
  { exists s, F, [], k, None. split_and!; [done|by split|done|split; auto|lia|done]. }
  destruct (Hp k) as [Hk [u Hu]]; [lia|].
  destruct (copy_round F0 m0 pgdir d k s F u C Hus0 Hk Hu) as (s1 & F1 & X1 & r1 & Hr1 & Hk1 & C1 & HX1 & Hr1').
  destruct r1 as [[]|].
  - exists s1, F1, X1, k, (Some tt). cbn [seq for_ret]. rewrite (bind_ok _ _ _ _ _ Hr1).
    destruct Hr1'. split_and!; [done|done|done|done|done|done|lia].
  - subst X1. destruct (IH (S k) s1 F1 C1 Hus0) as (s2 & F2 & X2 & k2 & r2 & Hr2 & Hk2 & C2 & HX2 & Hr2'); [intros j Hj; apply Hp; lia|].
    exists s2, F2, X2, k2, r2. cbn [seq for_ret]. rewrite (bind_ok _ _ _ _ _ Hr1). split_and!; [done|by eapply keep_trans|done|by eapply took_trans|].
    replace (k + S n)%nat with (S k + n)%nat by lia. done.
Qed.

(** The pages the child can have taken. *)
Lemma copy_count F0 m0 pgdir d k s X :
  child_copy F0 m0 pgdir d k s [] → NoDup F0 → (∀ p, p ∈ F0 → owned (memory s) d p ∨ p ∈ X) →
  (length F0 ≤ 1025 + k + length X)%nat.
Proof.
  intros C Hn Hin.
  transitivity (length (table_pages (memory s) d ++ map (λ j, default 0 (upage (memory s) d (4096 * Z.of_nat j))) (seq 0 k) ++ X)).
  - apply taken_le; [done|]. intros p Hp. rewrite !elem_of_app. destruct (Hin p Hp) as [[Ht|(va & Hva & Hu)]|HX]; [left|right; left|auto].
    + by apply table_pages_in.
    + assert (pg va < 4096 * Z.of_nat k) as Hlt.
      { apply Z.nle_gt. intros Hle. revert Hu. unfold upage. cbv zeta. by rewrite (cp_todo _ _ _ _ _ _ _ C va Hva Hle). }
      apply list_elem_of_In, in_map_iff. pose proof (u32_range va). assert (0 ≤ u32 va / 4096) by (apply Z.div_pos; lia).
      pose proof (Z.mul_div_le (u32 va) 4096 eq_refl).
      exists (Z.to_nat (u32 va / 4096)). unfold pg in Hlt. split; [|apply in_seq; lia].
      rewrite Z2Nat.id by done. change (4096 * (u32 va / 4096)) with (pg va).
      rewrite (upage_pg _ _ (pg va) va); [by rewrite Hu|]. unfold KERNBASE in *. apply pg_page; [unfold pg; lia|].
      unfold pg. by rewrite Z.mul_comm, Z_mod_mult.
  - rewrite !length_app, length_map, length_seq. unfold table_pages. cbn [length]. rewrite length_map, length_seq. lia.
Qed.

(** The [sz] bytes of the child's user space are those of the parent's, in pages
    of the child's own with the flags the parent's have; nothing else is mapped
    for the user and the kernel's part is mapped. *)
Record cloned m0 (pgdir sz : Z) m (d : Z) : Prop := Cloned {
  cl_bytes : ∀ va, 0 ≤ va < sz →
    ∃ u v, upage m0 pgdir va = Some u ∧ upage m d va = Some v ∧
      PTE_FLAGS (pte_at m d va) = PTE_FLAGS (pte_at m0 pgdir va) ∧ ∀ i, 0 ≤ i < PGSIZE → m (v + i) = m0 (u + i);
  cl_none : ∀ va, PGROUNDUP sz ≤ va < KERNBASE → upage m d va = None;
  cl_kern : ∀ va, KERNBASE ≤ va < 2 ^ 32 → pte_at m d va = kernel_pte (kmap kdata) va;
  cl_apart : ∀ p, owned m d p → ¬ owned m pgdir p
}.

Lemma npages_rounds sz : 0 ≤ sz ≤ KERNBASE → PGROUNDUP sz = 4096 * Z.of_nat (npages sz) ∧ sz ≤ PGROUNDUP sz.
Proof.
  intros H. destruct (PGROUNDUP_bounds sz) as [Hm Hb]; [lia|unfold PGSIZE, KERNBASE in *; lia|].
  unfold npages. change PGSIZE with 4096 in *. rewrite Z2Nat.id by (apply Z.div_pos; lia).
  split; [|lia]. Z.to_euclidean_division_equations; lia.
Qed.

Lemma parent_kept m0 pgdir m F0 F :
  us_ok kend m0 pgdir F0 → same_pages m0 pgdir m → (∀ p, p ∈ F → ¬ owned m0 pgdir p) →
  us_ok kend m pgdir F ∧ ∀ p, owned m pgdir p ↔ owned m0 pgdir p.
Proof.
  intros Hus Hs HF. destruct (same_pte _ _ _ Hs) as [Ht Hpte].
  assert (∀ p x, pt_page m0 pgdir p → inrange p PGSIZE x = true → m x = m0 x) as He by (intros p x Hp; apply (Hs p); by left).
  split; [eapply us_ext; [by eapply us_free|done|done]|]. intros p. unfold owned.
  rewrite pt_page_ext by done. by setoid_rewrite (upage_same _ _ _ _ (Hpte _)).
Qed.

Lemma copied_cloned F pgdir sz s s' F' d :
  us_ok kend (memory s) pgdir F → 0 ≤ sz ≤ KERNBASE → child_copy F (memory s) pgdir d (npages sz) s' F' →
  cloned (memory s) pgdir sz (memory s') d.
Proof.
  intros Hus Hsz C. destruct (npages_rounds sz Hsz) as [Hnp Hru].
  destruct (parent_kept (memory s) pgdir (memory s') F [] Hus) as [_ Ho]; [by apply (cp_same _ _ _ _ _ _ _ Hus C)|by intros p ?%not_elem_of_nil|].
  split.
  - intros va Hva. apply (cp_done _ _ _ _ _ _ _ C); [lia|]. rewrite <- Hnp. unfold pg. rewrite u32_small by (unfold KERNBASE in *; lia).
    pose proof (Z.mul_div_le va 4096 eq_refl). lia.
  - intros va [Hva Hvk]. unfold upage. cbv zeta. rewrite (cp_todo _ _ _ _ _ _ _ C); [done|lia|].
    rewrite Hnp in *. unfold pg. rewrite u32_small by (unfold KERNBASE in *; lia). clear -Hva. Z.to_euclidean_division_equations; lia.
  - apply (cp_kern _ _ _ _ _ _ _ C).
  - intros p Hp Hp'%Ho. apply (free_unowned _ _ _ p Hus); [|done]. by apply (cp_apart _ _ _ _ _ _ _ C).
Qed.

Lemma copyuvm_ok pgdir sz s F :
  mem_ok kend L s F → us_ok kend (memory s) pgdir F → 0 ≤ sz ≤ KERNBASE →
  (∀ va, 0 ≤ va < sz → is_Some (upage (memory s) pgdir va)) →
  ∃ s' F' d, copyuvm kend kdata pgdir sz s = Ok d s' ∧ kst_keep s s' ∧ mem_ok kend L s' F' ∧
    same_pages (memory s) pgdir (memory s') ∧ us_ok kend (memory s') pgdir F' ∧ (∀ p, p ∈ F' → p ∈ F) ∧
    (∀ p x, page kend p → p ∉ F → inrange p PGSIZE x = true → memory s' x = memory s x) ∧
    (d ≠ 0 → us_ok kend (memory s') d F' ∧ cloned (memory s) pgdir sz (memory s') d ∧
      ∀ p, p ∈ F ↔ p ∈ F' ∨ owned (memory s') d p) ∧
    (d = 0 → (F' = [] ∧ (length F ≤ 1025)%nat) ∨ ∃ X, (length X ≤ 1)%nat ∧ ∀ p, p ∈ F → p ∈ F' ∨ p ∈ X) ∧
    ((1025 + npages sz < length F)%nat → d ≠ 0).
Proof.
  intros Hok Hus Hsz Hmap. destruct (setup_copied pgdir s F Hok Hus) as (s1 & F1 & d & Hr1 & Hk1 & Hres).
  unfold copyuvm. rewrite (bind_ok _ _ _ _ _ Hr1). destruct Hres as [(-> & Hok1 & Hout1 & -> & Hlen)|(Hd & C & Htk)].
  { exists s1, [], 0. assert (same_pages (memory s) pgdir (memory s1)) as Hsame.
    { intros p x Hp. destruct (owned_page _ _ _ _ Hus Hp). by apply (Hout1 p). }
    split_and!; [done|done|done|done| |by intros p ?%not_elem_of_nil|done|done|by left|lia].
    eapply parent_kept; [done|done|]. by intros p ?%not_elem_of_nil. }
  destruct (Z.eqb_spec d 0) as [|_]; [done|]. destruct (npages_rounds sz Hsz) as [Hnp Hru].
  destruct (copy_loop F (memory s) pgdir d (npages sz) 0 s1 F1 C Hus) as (s2 & F2 & X & k & r & Hr2 & Hk2 & C2 & HX & Hrx).
  { intros j Hj. assert (4096 * Z.of_nat j < sz); [|split; [lia|apply Hmap; lia]].
    destruct (PGROUNDUP_bounds sz); unfold PGSIZE, KERNBASE in *; lia. }
  rewrite (bind_ok _ _ _ _ _ Hr2). destruct r as [[]|].
  - destruct (freevm_ok kend L Hkend d s2 F2) as (s3 & T & Hr3 & Hok3 & Hk3 & HT & Hout); [apply C2|apply C2|].
    rewrite (bind_ok _ _ _ _ _ Hr3). destruct Hrx as (-> & HXl & Hk).
    assert (∀ p, p ∈ T ++ [] → p ∈ F) as HTF.
    { intros p. rewrite app_nil_r. intros Hp%HT. by apply (cp_apart _ _ _ _ _ _ _ C2). }
    assert (∀ p x, page kend p → p ∉ F → inrange p PGSIZE x = true → memory s3 x = memory s x) as Hs3.
    { intros p x Hp HpF Hx. rewrite (Hout p x); [by apply (cp_frame _ _ _ _ _ _ _ C2 p)|done|by intros ?%HTF|done]. }
    assert (same_pages (memory s) pgdir (memory s3)) as Hsame.
    { intros p x Hp. destruct (owned_page _ _ _ _ Hus Hp). by apply (Hs3 p). }
    assert (∀ p, p ∈ F → owned (memory s2) d p ∨ p ∈ X) as HFX.
    { intros p [Hp|Hp]%Htk; [|left; by apply HX]. by destruct (proj2 HX p Hp) as [?%not_elem_of_nil|?]. }
    exists s3, (T ++ []), 0. split_and!; [done|eapply keep_trans; [done|by eapply keep_trans]|done|done| |done|done|done| |].
    { eapply parent_kept; [done|done|]. intros p Hp. by apply (free_unowned _ _ _ _ Hus), HTF. }
    { intros _. right. exists X. split; [done|]. intros p [Hp|]%HFX; [left|by right]. rewrite app_nil_r. by apply HT. }
    intros Hl. exfalso. assert (length F ≤ 1025 + k + length X)%nat; [|lia]. pose proof (fo_nodup _ _ _ (proj1 Hok)) as Hnd.
    by apply (copy_count F (memory s) pgdir d k s2).
  - destruct Hrx as [-> ->]. destruct (parent_kept (memory s) pgdir (memory s2) F F2 Hus) as [Hu2 Ho2].
    { by apply (cp_same _ _ _ _ _ _ _ Hus C2). }
    { intros p Hp. apply (free_unowned _ _ _ _ Hus). by apply (cp_free _ _ _ _ _ _ _ C2). }
    exists s2, F2, d. split_and!; [done|by eapply keep_trans|apply C2|by apply (cp_same _ _ _ _ _ _ _ Hus C2)|done|apply C2|apply C2| |done|done].
    intros _. split_and!; [apply C2|by eapply copied_cloned|]. intros p. split.
    + intros [Hp|Hp]%Htk; [|right; by apply HX]. by destruct (proj2 HX p Hp) as [?|[?|?%not_elem_of_nil]]; [left|right|].
    + intros [?|?]; [by apply (cp_free _ _ _ _ _ _ _ C2)|by apply (cp_apart _ _ _ _ _ _ _ C2)].
Qed.
End copy.
