(* ===== verification/VmExample.v ===== *)
(** * A process with an address space of one page

    A state on which the properties of memory and system calls are checked.  The
    free pages are the 2048 pages from 0x80500000; the page directory, its table
    and the page mapped at address 0 are below them.  The process that runs has
    made a system call: its stack pointer is 40, and its first argument is the
    address 60 of the string hi.  At 74 there are the arguments of another call,
    [read(0, 4000, -1)]. *)
From S2P Require Import Prelude Spinlock Str Ptable PtableLists Sched Choice Scheduling Services Kalloc BioRing Bio DiskFmt Log Fs Vm VmFacts VmSpace VmUser VmCopy.

Module OnePage.

Definition kend : Z := 0x80116000.
Definition kdata : Z := 0x80109000.
Definition pgdir : Z := 0x80400000.
Definition pgtab : Z := 0x80401000.
Definition upg0 : Z := 0x80402000.
Definition F : list Z := pages 0x80500000 2048.

(** The process table, with process 0 running on its page table. *)
Definition caller (q : proc) : proc :=
  set_p_pgdir pgdir (set_p_sz 100 (set_p_cwd (Some 0%nat) (set_p_ofile (Some 0%nat :: replicate 15 None)
    (set_p_frame (set_tf_esp 40 (p_frame q)) q)))).
Definition tbl : pst :=
  let t := Table.table mach0 100 in
  set_hw (Regs (v2p pgdir) 0 0 0) (set_procs (alter caller 0%nat (procs t)) t).

Lemma tbl_queues : queues_ok None tbl Table.queues Table.frees.
Proof. apply queues_okb_sound. vm_compute. reflexivity. Qed.

Lemma tbl_ok : pst_ok ∅ tbl.
Proof.
  split; [eexists _, _; exact tbl_queues|exact mach0_holds|]. intros x [= <-]. exists 1. reflexivity.
Qed.

(** What the user's page holds; the free pages hold anything. *)
Definition image (x : Z) : Z :=
  match x - upg0 with
  | 44 => 60 | 45 => 0 | 46 => 0 | 47 => 0
  | 60 => 104 | 61 => 105 | 62 => 0
  | 74 => 0 | 75 => 0 | 76 => 0 | 77 => 0
  | 78 => 160 | 79 => 15 | 80 => 0 | 81 => 0
  | 82 => 255 | 83 => 255 | 84 => 255 | 85 => 255
  | _ => x `mod` 251
  end.

Definition push (v : Z) (s : kst pst) : kst pst := set_freelist v (set_memory (mwrite32 (memory s) v (freelist s)) s).
Definition booted : kst pst := foldr push (Kst tbl image 0 true) F.

Definition space : mem :=
  mwrite32 (mwrite32 (memset (memset (memory booted) pgdir 0 PGSIZE) pgtab 0 PGSIZE) (pgdir + 4 * PDX 0) (Z.lor (v2p pgtab) 7))
    (pgtab + 4 * PTX 0) (Z.lor (v2p upg0) 7).
Definition st : kst pst := set_memory space booted.

Lemma Fpages n p : p `mod` PGSIZE = 0 → 0x80500000 ≤ p → p + PGSIZE * Z.of_nat n ≤ KERNBASE + PHYSTOP →
  NoDup (pages p n) ∧ Forall (page kend) (pages p n).
Proof.
  revert p. induction n as [|n IH]; intros p Hm Hl Hh; cbn [pages]; [split; constructor|].
  unfold PGSIZE in *. destruct (IH (p + 4096)) as [Hn Hp]; [Z.to_euclidean_division_equations; lia|lia|lia|].
  split; constructor; try done.
  - intros Hin%elem_of_pages. unfold PGSIZE in *. lia.
  - unfold page, kend, PGSIZE, KERNBASE, PHYSTOP in *. lia.
Qed.

Lemma pushed_free l s : NoDup l → Forall (page kend) l → free_ok kend s [] → free_ok kend (foldr push s l) l.
Proof.
  intros Hn Hp Hs. induction l as [|v l IH]; [done|]. rewrite NoDup_cons in Hn. rewrite Forall_cons in Hp.
  destruct Hn as [Hv Hn], Hp as [Hvp Hp]. specialize (IH Hn Hp). cbn [foldr]. apply free_ok_push; try done.
  - intros x Hx. apply mwrite32_other. destruct (inrange v 4 x) eqn:E; [|done]. by rewrite (inrange_word _ _ E) in Hx.
  - rewrite mread32_mwrite32. apply u32_small. by eapply free_ok_freelist.
Qed.

Lemma booted_rest : kbase booted = tbl ∧ use_lock booted = true.
Proof. unfold booted. induction F as [|v l IH]; [done|]. cbn [foldr push]. exact IH. Qed.

Lemma booted_ok : mem_ok kend ∅ booted F.
Proof.
  destruct (Fpages 2048 0x80500000) as [Hn Hp]; [done|lia|unfold PGSIZE, KERNBASE, PHYSTOP; lia|]. split.
  - apply pushed_free; [done|done|]. split; [done|constructor|constructor].
  - unfold locks_ok. rewrite (proj1 booted_rest). split; [exact tbl_ok|]. intros _. apply not_elem_of_empty.
Qed.

Lemma low_page v : v = pgdir ∨ v = pgtab ∨ v = upg0 → page kend v ∧ v ∉ F.
Proof.
  intros Hv. split.
  - unfold page, kend, pgdir, pgtab, upg0, PGSIZE, KERNBASE, PHYSTOP in *. destruct Hv as [->|[->| ->]]; (split; [reflexivity|lia]).
  - intros Hin%elem_of_pages. unfold pgdir, pgtab, upg0 in Hv. lia.
Qed.

Lemma dir_page : page kend pgdir ∧ pgdir ∉ F.
Proof. apply low_page. auto. Qed.
Lemma tab_page : page kend pgtab ∧ pgtab ∉ F.
Proof. apply low_page. auto. Qed.
Lemma user_page : page kend upg0 ∧ upg0 ∉ F.
Proof. apply low_page. auto. Qed.

Lemma space_pt :
  pt_ok kend space pgdir F ∧
  (∀ d, 0 ≤ d < 1024 → table space pgdir d = if decide (d = 0) then Some pgtab else None) ∧
  ∀ va, pte_at space pgdir va = if decide (pg va = 0) then Z.lor (v2p upg0) 7 else 0.
Proof.
  destruct dir_page as [D1 D2], tab_page as [T1 T2].
  set (m1 := memset (memory booted) pgdir 0 PGSIZE).
  destruct (empty_pt kend m1 pgdir (pgtab :: F)) as (P1 & Z1 & O1); [done|rewrite not_elem_of_cons; done|by intros i; apply mread32_zero|].
  assert (∀ d, 0 ≤ d < 1024 → table m1 pgdir d = None) as N1.
  { intros d Hd. unfold table, m1. by rewrite mread32_zero. }
  destruct (new_table kend m1 pgdir F 0 pgtab P1 T1 T2 (N1 _ (PDX_range 0))) as (P2 & N2 & Z2).
  destruct (set_pte kend _ pgdir F 0 pgtab (Z.lor (v2p upg0) 7) P2) as (P3 & N3 & Z3).
  { rewrite N2 by apply PDX_range. by rewrite decide_True. }
  split_and!; [exact P3| |].
  - intros d Hd. etransitivity; [exact (N3 d Hd)|]. rewrite N2, N1 by done. change (PDX 0) with 0. done.
  - intros va. etransitivity; [exact (Z3 va)|]. rewrite Z2, Z1. change (pg 0) with 0. done.
Qed.

Lemma space_upage va : upage space pgdir va = if decide (pg va = 0) then Some upg0 else None.
Proof.
  destruct space_pt as (_ & _ & Hpte). unfold upage. cbv zeta. rewrite Hpte.
  destruct (decide (pg va = 0)); reflexivity.
Qed.

Lemma st_us : us_ok kend (memory st) pgdir F.
Proof.
  destruct space_pt as (Hpt & Ht & _). change (memory st) with space. split; [done| |].
  - intros va u Hva. rewrite space_upage. destruct (decide (pg va = 0)); [|done]. intros [= <-].
    split_and!; [apply user_page|apply user_page|]. intros [?|(d & Hd & E)]; [done|]. rewrite Ht in E by done. by case_decide.
  - intros va va' u _ _. rewrite !space_upage. destruct (decide (pg va = 0)), (decide (pg va' = 0)); congruence.
Qed.

Lemma two_pages_ok (s : kst pst) p q a b :
  page kend p ∧ p ∉ F → page kend q ∧ q ∉ F → mem_ok kend ∅ s F →
  mem_ok kend ∅ (set_memory (mwrite32 (mwrite32 (memset (memset (memory s) p 0 PGSIZE) q 0 PGSIZE) (p + 4 * PDX 0) a) (q + 4 * PTX 0) b) s) F.
Proof.
  intros [P1 P2] [Q1 Q2] Hok. set (m1 := memset (memory s) p 0 PGSIZE). set (m2 := memset m1 q 0 PGSIZE). set (m3 := mwrite32 m2 _ a).
  assert (mem_ok kend ∅ (set_memory m1 s) F) as H1.
  { apply (mem_ok_write kend ∅ s F p); [done|done|done|]. intros x Hx. unfold m1. by rewrite memset_spec, Hx. }
  assert (mem_ok kend ∅ (set_memory m2 s) F) as H2.
  { apply (mem_ok_write kend ∅ (set_memory m1 s) F q); [done|done|done|]. intros x Hx. unfold m2. by rewrite memset_spec, Hx. }
  assert (mem_ok kend ∅ (set_memory m3 s) F) as H3.
  { apply (mem_ok_write kend ∅ (set_memory m2 s) F p); [done|done|done|]. intros x Hx. apply mwrite32_other.
    destruct (inrange _ 4 x) eqn:E; [|done]. apply slot_in in E; [congruence|apply PDX_range]. }
  apply (mem_ok_write kend ∅ (set_memory m3 s) F q); [done|done|done|]. intros x Hx. apply mwrite32_other.
  destruct (inrange _ 4 x) eqn:E; [|done]. apply slot_in in E; [congruence|apply PTX_range].
Qed.

Lemma st_ok : mem_ok kend ∅ st F.
Proof. exact (two_pages_ok booted pgdir pgtab _ _ dir_page tab_page booted_ok). Qed.

Lemma st_mapped va : 0 ≤ va < 4096 → is_Some (upage (memory st) pgdir va).
Proof.
  intros Hva. change (memory st) with space. rewrite space_upage, decide_True; [done|].
  unfold pg. rewrite u32_small by lia. rewrite Z.div_small by lia. done.
Qed.
End OnePage.
