(* ===== verification/VmProps.v ===== *)
(** * Properties of the address spaces

    The claims about [setupkvm], [copyuvm] and [freevm]. *)
From S2P Require Import Prelude Spinlock Str Ptable PtableLists Sched Choice Scheduling Services Kalloc BioRing Bio DiskFmt Log Fs Vm VmFacts VmSpace VmUser VmCopy VmExample.

(** ** The kernel's part *)

Lemma kernel_find kdata i r va :
  kdata_ok kdata → kmap kdata !! i = Some r → in_row r va = true → kernel_pte (kmap kdata) va = row_pte r va.
Proof.
  intros Hkd Hi Hin. destruct (kmap_rows kdata Hkd) as [_ Hap]. unfold kernel_pte.
  destruct (list_find _ _) as [[j r']|] eqn:E.
  - apply list_find_Some in E as (Hj & Hin' & _). apply Is_true_true in Hin'.
    pose proof (Hap i j r r' va Hi Hj Hin Hin'). congruence.
  - apply list_find_None in E. rewrite Forall_lookup in E. exfalso. apply (E i r Hi). by rewrite Hin.
Qed.

Lemma row_entry pa f :
  pa `mod` 4096 = 0 → 0 ≤ pa < 2 ^ 32 → 0 ≤ f < 4096 → 0 ≤ Z.lor f PTE_P < 4096 →
  let e := u32 (Z.lor (Z.lor (u32 pa) f) PTE_P) in PTE_ADDR e = pa ∧ PTE_FLAGS e = Z.lor f PTE_P.
Proof.
  intros Hm Hr Hf Hf' e. unfold e. rewrite (u32_small pa), <- Z.lor_assoc by done. destruct (entry_eq pa (Z.lor f PTE_P) Hm) as (E1 & E2 & E3); [done|done|].
  rewrite PTE_ADDR_u32, E2. split; [done|]. rewrite <- E3 at 2. unfold PTE_FLAGS. f_equal. apply u32_small, u32_range.
Qed.

(** Kernel addresses translate to physical memory, which is read only from the
    start of the kernel's text to [data]. *)
Lemma kernel_translates kdata va :
  kdata_ok kdata → KERNBASE ≤ va < KERNBASE + PHYSTOP →
  let e := kernel_pte (kmap kdata) va in
  PTE_ADDR e = pg va - KERNBASE ∧
  PTE_FLAGS e = if (KERNLINK <=? va) && (va <? kdata) then PTE_P else Z.lor PTE_W PTE_P.
Proof.
  intros Hkd Hva e.
  assert (pg va ≤ va < pg va + 4096 ∧ pg va `mod` 4096 = 0) as [Hpg Hal].
  { unfold pg. rewrite u32_small by (unfold KERNBASE, PHYSTOP in *; lia). split; [|by rewrite Z.mul_comm, Z_mod_mult]. clear. Z.to_euclidean_division_equations; lia. }
  assert (∀ i r, kmap kdata !! i = Some r → in_row r va = true → virt r - phys_start r = KERNBASE → perm r = 0 ∨ perm r = PTE_W →
    PTE_ADDR e = pg va - KERNBASE ∧ PTE_FLAGS e = Z.lor (perm r) PTE_P) as Hrow.
  { intros i r Hi Hin Hvp Hpm. unfold e. rewrite (kernel_find kdata i r va Hkd Hi Hin). unfold row_pte.
    replace (phys_start r + (pg va - virt r)) with (pg va - KERNBASE) by lia. destruct Hkd as [Hkm _].
    apply row_entry; [|unfold KERNBASE, PHYSTOP in *; clear -Hva Hpg Hal; Z.to_euclidean_division_equations; lia| |]; try (destruct Hpm as [-> | ->]; done).
    clear -Hal. unfold KERNBASE. Z.to_euclidean_division_equations; lia. }
  pose proof (row_cases kdata 0 _ Hkd eq_refl) as R0. pose proof (row_cases kdata 1 _ Hkd eq_refl) as R1.
  pose proof (row_cases kdata 2 _ Hkd eq_refl) as R2.
  destruct R0 as [(_&V0&S0&P0)|[(?&_)|[(?&_)|(?&_)]]]; try done.
  destruct R1 as [(?&_)|[(_&V1&S1&P1)|[(?&_)|(?&_)]]]; try done.
  destruct R2 as [(?&_)|[(?&_)|[(_&V2&S2&P2)|(?&_)]]]; try done. destruct Hkd as [Hkm Hkr].
  assert (∀ r, virt r ≤ pg va < virt r + row_size r → in_row r va = true) as Hin.
  { intros r Hr. unfold in_row. rewrite andb_true_iff, Z.leb_le, Z.ltb_lt. lia. }
  destruct (Z.leb_spec KERNLINK va), (Z.ltb_spec va kdata); cbn [andb].
  - refine (Hrow 1%nat _ eq_refl _ _ (or_introl eq_refl)); [apply Hin; rewrite V1, S1|rewrite V1, P1; done].
    unfold KERNLINK, KERNBASE, EXTMEM in *. clear -Hpg Hal Hkm H H0. Z.to_euclidean_division_equations; lia.
  - refine (Hrow 2%nat _ eq_refl _ _ (or_intror eq_refl)); [apply Hin; rewrite V2, S2|rewrite V2, P2; lia].
    unfold KERNLINK, KERNBASE, EXTMEM in *. clear -Hpg Hal Hkm H0 Hva. Z.to_euclidean_division_equations; lia.
  - refine (Hrow 0%nat _ eq_refl _ _ (or_intror eq_refl)); [apply Hin; rewrite V0, S0|rewrite V0, P0; done].
    unfold KERNLINK, KERNBASE, EXTMEM in *. clear -Hpg Hal H Hva. Z.to_euclidean_division_equations; lia.
  - lia.
Qed.

(** The devices, above [DEVSPACE], are mapped where they are. *)
Lemma device_translates kdata va :
  kdata_ok kdata → DEVSPACE ≤ va < 2 ^ 32 →
  let e := kernel_pte (kmap kdata) va in PTE_ADDR e = pg va ∧ PTE_FLAGS e = Z.lor PTE_W PTE_P.
Proof.
  intros Hkd Hva e.
  assert (pg va ≤ va < pg va + 4096 ∧ pg va `mod` 4096 = 0) as [Hpg Hal].
  { unfold pg. rewrite u32_small by (unfold DEVSPACE in *; lia). split; [|by rewrite Z.mul_comm, Z_mod_mult]. clear. Z.to_euclidean_division_equations; lia. }
  destruct (row_cases kdata 3 _ Hkd eq_refl) as [(?&_)|[(?&_)|[(?&_)|(_&V3&S3&P3)]]]; try done.
  unfold e. rewrite (kernel_find kdata 3 _ va Hkd eq_refl).
  - unfold row_pte. rewrite P3, V3. replace (DEVSPACE + (pg va - DEVSPACE)) with (pg va) by lia. apply row_entry; [done| |done|done].
    unfold DEVSPACE in *. lia.
  - unfold in_row. rewrite V3, S3, andb_true_iff, Z.leb_le, Z.ltb_lt. unfold DEVSPACE in *.
    clear -Hva Hpg Hal. Z.to_euclidean_division_equations; lia.
Qed.

(** Between the memory and the devices nothing is mapped. *)
Lemma gap_unmapped kdata va :
  kdata_ok kdata → KERNBASE + PHYSTOP ≤ va < DEVSPACE → kernel_pte (kmap kdata) va = 0.
Proof.
  intros Hkd Hva. unfold kernel_pte. destruct (list_find _ _) as [[i r]|] eqn:E; [|done].
  apply list_find_Some in E as (Hi & Hin & _). apply Is_true_true in Hin. unfold in_row in Hin.
  rewrite andb_true_iff, Z.leb_le, Z.ltb_lt in Hin. pose proof (row_cases kdata i r Hkd Hi) as Hc. destruct Hkd as [_ Hk].
  assert (KERNBASE + PHYSTOP ≤ pg va < DEVSPACE).
  { unfold pg, KERNBASE, PHYSTOP, DEVSPACE in *. rewrite u32_small by lia. Z.to_euclidean_division_equations; lia. }
  unfold KERNLINK, KERNBASE, EXTMEM, PHYSTOP, DEVSPACE in *. lia.
Qed.

(** ** Properties *)

(** C26: [setupkvm] returns a page directory of its own pages in which every kernel
    address has the entry that [kmap] asks for: below [KERNBASE + PHYSTOP] it
    translates to the physical address [KERNBASE] below it, for the kernel only
    and read only in the kernel's text; from [DEVSPACE] on to itself, for the
    kernel only; between them, and below [KERNBASE], nothing is mapped.  It
    returns 0 only when it has used up the free pages, which were at most 1025. *)
Theorem setupkvm_maps {B} {O : KOps B} {W : KLaws B} kend kdata L (s : kst B) F :
  kdata_ok kdata → mem_ok kend L s F →
  ∃ s' F' d, setupkvm kdata s = Ok d s' ∧ kst_keep s s' ∧ mem_ok kend L s' F' ∧
    (∀ p x, page kend p → p ∉ F → inrange p PGSIZE x = true → memory s' x = memory s x) ∧
    ((d = 0 ∧ F' = [] ∧ (length F ≤ 1025)%nat) ∨
     (d ≠ 0 ∧ pt_ok kend (memory s') d F' ∧ (∀ p, pt_page (memory s') d p → p ∈ F) ∧
      (∀ va, 0 ≤ va < KERNBASE → upage (memory s') d va = None) ∧
      (∀ va, KERNBASE ≤ va < KERNBASE + PHYSTOP →
        PTE_ADDR (pte_at (memory s') d va) = pg va - KERNBASE ∧
        PTE_FLAGS (pte_at (memory s') d va) = if (KERNLINK <=? va) && (va <? kdata) then PTE_P else Z.lor PTE_W PTE_P) ∧
      (∀ va, KERNBASE + PHYSTOP ≤ va < DEVSPACE → pte_at (memory s') d va = 0) ∧
      (∀ va, DEVSPACE ≤ va < 2 ^ 32 →
        PTE_ADDR (pte_at (memory s') d va) = pg va ∧ PTE_FLAGS (pte_at (memory s') d va) = Z.lor PTE_W PTE_P))).
Proof.
  intros Hkd Hok. destruct (setupkvm_ok kend L kdata s F Hkd Hok) as (s' & F' & d & Hr & Hok' & Hk & _ & Hout & Hres).
  exists s', F', d. split_and!; [done|done|done|done|]. destruct Hres as [|(Hd & Hpt & Hpp & _ & Hpte)]; [by left|right].
  split_and!; [done|done|done|..]; intros va Hva.
  - unfold upage. by rewrite Hpte, kernel_pte_user.
  - rewrite Hpte. by apply kernel_translates.
  - rewrite Hpte. by apply gap_unmapped.
  - rewrite Hpte. by apply device_translates.
Qed.

Lemma setupkvm_maps_witness :
  ∃ s' d, setupkvm OnePage.kdata OnePage.st = Ok d s' ∧ d ≠ 0 ∧
    PTE_ADDR (pte_at (memory s') d 0x80200123) = 0x200000.
Proof.
  destruct (setupkvm_maps OnePage.kend OnePage.kdata ∅ OnePage.st OnePage.F) as (s' & F' & d & Hr & _ & _ & _ & Hres).
  - split; [reflexivity|]. unfold OnePage.kdata, KERNLINK, KERNBASE, EXTMEM, PHYSTOP. lia.
  - exact OnePage.st_ok.
  - exists s', d. split; [exact Hr|]. destruct Hres as [(_ & _ & Hl)|(Hd & _ & _ & _ & Hk & _)].
    + exfalso. apply Nat.leb_le in Hl. vm_compute in Hl. discriminate Hl.
    + split; [exact Hd|]. apply Hk. unfold KERNBASE, PHYSTOP. lia.
Defined.

(** C9: [copyuvm], with which [fork] makes the child's memory, returns a page
    directory that maps the same user addresses as the parent's to pages of its
    own with the same contents and flags, maps the kernel, and shares no page
    with the parent.  The free pages are then exactly those that were free and are
    not the child's.  It writes in no page that was not free, so the parent's
    pages are what they were, whatever the result.  It does not panic on a space
    whose [sz] bytes are mapped, and it succeeds when more than 1025 pages, and
    those to copy, are free.  When the copying fails, every page that was free is
    free again but for at most one, the page that could not be mapped; only when
    [setupkvm] fails, with at most 1025 pages free, are they all lost. *)
Theorem copyuvm_copies {B} {O : KOps B} {W : KLaws B} kend kdata L pgdir sz (s : kst B) F :
  KERNBASE < kend → kdata_ok kdata → mem_ok kend L s F → us_ok kend (memory s) pgdir F → 0 ≤ sz ≤ KERNBASE →
  (∀ va, 0 ≤ va < sz → is_Some (upage (memory s) pgdir va)) →
  ∃ s' F' d, copyuvm kend kdata pgdir sz s = Ok d s' ∧ kst_keep s s' ∧ mem_ok kend L s' F' ∧
    same_pages (memory s) pgdir (memory s') ∧ us_ok kend (memory s') pgdir F' ∧ (∀ p, p ∈ F' → p ∈ F) ∧
    (∀ p x, page kend p → p ∉ F → inrange p PGSIZE x = true → memory s' x = memory s x) ∧
    (d ≠ 0 → us_ok kend (memory s') d F' ∧ cloned kdata (memory s) pgdir sz (memory s') d ∧
      ∀ p, p ∈ F ↔ p ∈ F' ∨ owned (memory s') d p) ∧
    (d = 0 → (F' = [] ∧ (length F ≤ 1025)%nat) ∨ ∃ X, (length X ≤ 1)%nat ∧ ∀ p, p ∈ F → p ∈ F' ∨ p ∈ X) ∧
    ((1025 + npages sz < length F)%nat → d ≠ 0).
Proof. intros. by apply copyuvm_ok. Qed.

Lemma copyuvm_copies_witness :
  ∃ s' d, copyuvm OnePage.kend OnePage.kdata OnePage.pgdir 100 OnePage.st = Ok d s' ∧ d ≠ 0 ∧
    (∃ v, upage (memory s') d 7 = Some v ∧ memory s' (v + 7) = memory OnePage.st (OnePage.upg0 + 7)) ∧
    upage (memory s') d 0x1000 = None.
Proof.
  destruct (copyuvm_copies OnePage.kend OnePage.kdata ∅ OnePage.pgdir 100 OnePage.st OnePage.F) as (s' & F' & d & Hr & _ & _ & _ & _ & _ & _ & Hc & _ & Hd).
  - unfold OnePage.kend, KERNBASE. lia.
  - split; [reflexivity|]. unfold OnePage.kdata, KERNLINK, KERNBASE, EXTMEM, PHYSTOP. lia.
  - exact OnePage.st_ok.
  - exact OnePage.st_us.
  - unfold KERNBASE. lia.
  - intros va Hva. apply OnePage.st_mapped. lia.
  - assert (d ≠ 0) as Hd' by (apply Hd, Nat.ltb_lt; vm_compute; reflexivity). destruct (Hc Hd') as (_ & Hcl & _).
    exists s', d. split; [exact Hr|]. split; [exact Hd'|]. split.
    + destruct (cl_bytes _ _ _ _ _ _ Hcl 7) as (u & v & Hu & Hv & _ & Hb); [lia|]. exists v. split; [exact Hv|].
      assert (u = OnePage.upg0) as <- by (pose proof (eq_trans (eq_sym (OnePage.space_upage 7)) Hu) as H7; injection H7 as <-; reflexivity).
      apply Hb. unfold PGSIZE. lia.
    + apply (cl_none _ _ _ _ _ _ Hcl). vm_compute. split; [discriminate|reflexivity].
Defined.

(** C16: [freevm] gives back to the free list exactly the pages of the address
    space, each once: the directory, the tables and the pages mapped for the
    user.  It writes in no other page, and neither panics nor fails. *)
Theorem freevm_frees {B} {O : KOps B} {W : KLaws B} kend L pgdir (s : kst B) F :
  KERNBASE < kend → mem_ok kend L s F → us_ok kend (memory s) pgdir F →
  ∃ s' T, freevm kend pgdir s = Ok tt s' ∧ kst_keep s s' ∧ mem_ok kend L s' (T ++ F) ∧ NoDup (T ++ F) ∧
    (∀ p, p ∈ T ↔ owned (memory s) pgdir p) ∧
    (∀ p x, page kend p → p ∉ T ++ F → inrange p PGSIZE x = true → memory s' x = memory s x).
Proof.
  intros Hk Hok Hus. destruct (freevm_ok kend L Hk pgdir s F Hok Hus) as (s' & T & Hr & Hok' & Hk' & HT & Hout).
  exists s', T. split_and!; try done. apply (fo_nodup _ _ _ (proj1 Hok')).
Qed.

Lemma freevm_frees_witness :
  ∃ s' T, freevm OnePage.kend OnePage.pgdir OnePage.st = Ok tt s' ∧ free_ok OnePage.kend s' (T ++ OnePage.F) ∧
    OnePage.upg0 ∈ T ∧ OnePage.pgtab ∈ T.
Proof.
  destruct (freevm_frees OnePage.kend ∅ OnePage.pgdir OnePage.st OnePage.F) as (s' & T & Hr & _ & Hok & _ & HT & _).
  - unfold OnePage.kend, KERNBASE. lia.
  - exact OnePage.st_ok.
  - exact OnePage.st_us.
  - exists s', T. split; [exact Hr|]. split; [apply Hok|]. split; apply HT.
    + right. exists 0. split; [unfold KERNBASE; lia|]. exact (OnePage.space_upage 0).
    + left. right. exists 0. split; [lia|]. destruct OnePage.space_pt as (_ & Ht & _). apply Ht. lia.
Defined.
