(* ===== verification/ProcLife.v ===== *)
(** * The life of a process (allocproc, userinit, growproc, fork, exit, wait and
      forkret of proc.c)

    These functions use the whole kernel: the process table, the page
    allocator, page tables, open files and the file system.  They run on
    [vst B], where [B] is the state at the bottom that holds the process table
    ([Lens B pst]).  [kend] and [kdata] are the linker's [end] and [data],
    [trapret] and [forkret_addr] the addresses of those entry points, and
    [initcode] the bytes of the first program. *)
From S2P Require Import Prelude Spinlock Str Ptable PtableLists Sched Services Kalloc BioRing Bio DiskFmt Log Fs File Vm.

(** The process table alone. *)
#[global] Instance pst_id : Lens pst pst := {| view := λ s, s; put := λ s _, s |}.

(** [sizeof] of the two structures at the top of a kernel stack. *)
Definition TRAPFRAME : Z := 76.
Definition CONTEXT : Z := 20.

Definition SEG_UCODE : Z := 4.
Definition SEG_UDATA : Z := 5.
Definition DPL_USER : Z := 3.

Section life.
Context {B : Type} {O : KOps B} {PL : Lens B pst} (kend kdata trapret forkret_addr : Z) (retries : nat).

(** The process table as the file layer's state sees it. *)
Definition onp {A} (m : K pst A) : K (vst B) A := onk (lift (lift m)).

Definition lock_ptable : K (vst B) unit := onp (lift (acquire Lptable)).
Definition unlock_ptable : K (vst B) unit := onp (lift (release Lptable)).

(** ** Allocation *)

(** The first part of [allocproc], up to the release of the lock. *)
Definition take_free : K (vst B) (option nat) :=
  lock_ptable;;
  p ← onp (gets freeList);
  match p with
  | None =>
      unlock_ptable;;
      mret None
  | Some p =>
      q ← onp (getp p);
      onp (modify (set_freeList (p_next q)));;
      onp (setp p (set_p_next None));;
      onp (setp p (set_p_state EMBRYO));;
      pid ← onp (gets nextpid);
      onp (modify (set_nextpid (i32 (pid + 1))));;
      onp (setp p (set_p_pid pid));;
      unlock_ptable;;
      mret (Some p)
  end.

(** The code that would put the slot back on the free list when there is no
    memory for the stack is under [CS333_Scheduler], which is not set.  What the
    trap frame holds is whatever the page held. *)
Definition allocproc : K (vst B) (option nat) :=
  p ← take_free;
  match p with
  | None => mret None
  | Some p =>
      kstack ← onk kalloc;
      onp (setp p (set_p_kstack kstack));;
      if kstack =? 0 then
        onp (setp p (set_p_state UNUSED));;
        mret None
      else
        let sp := kstack + KSTACKSIZE - TRAPFRAME in
        onp (setp p (set_p_tf sp));;
        onk (setm (sp - 4) trapret);;
        let sp' := sp - 4 - CONTEXT in
        onp (setp p (set_p_context sp'));;
        onp (setp p (set_p_ctx (set_c_eip forkret_addr context0)));;
        mret (Some p)
  end.

(** The trap frame of the first process. *)
Definition init_frame : trapframe :=
  let ds := Z.lor (Z.shiftl SEG_UDATA 3) DPL_USER in
  set_tf_eip 0 (set_tf_esp PGSIZE (set_tf_eflags FL_IF (set_tf_ss ds (set_tf_es ds (set_tf_ds ds
    (set_tf_cs (Z.lor (Z.shiftl SEG_UCODE 3) DPL_USER) trapframe0)))))).

(** ["initcode"] and ["/"]. *)
Definition initcode_name : list Z := [105; 110; 105; 116; 99; 111; 100; 101; 0].
Definition root_path : list Z := [47].

Definition userinit (dev_read : Z → option (nat → Z → K (ist (kst B)) (Z * list Z))) (initcode : list Z) : K (vst B) unit :=
  lock_ptable;;
  onp initFreeList;;
  onp (modify (set_timeToReset COUNT));;
  unlock_ptable;;
  p ← allocproc;
  onp (modify (set_initproc p));;
  p ← deref p;
  pgdir ← onk (setupkvm kdata);
  onp (setp p (set_p_pgdir pgdir));;
  panic_if (pgdir =? 0) "userinit: out of memory?";;
  onk (inituvm pgdir initcode (Z.of_nat (length initcode)));;
  onp (setp p (set_p_sz PGSIZE));;
  onp (setp p (set_p_frame init_frame));;
  onp (setp p (set_p_uid USERID));;
  onp (setp p (set_p_gid GROUPID));;
  q ← onp (getp p);
  nm ← deref (safestrcpy (p_name q) initcode_name (Z.of_nat NAMELEN));
  onp (setp p (set_p_name nm));;
  cwd ← oni (namei retries dev_read root_path);
  onp (setp p (set_p_cwd cwd));;
  onp (setp p (set_p_state RUNNABLE));;
  lock_ptable;;
  for_each [0; 1; 2] (λ i, onp (setReady i None));;
  q ← onp (getp p);
  onp (putOnReadyList p (p_priority q));;
  unlock_ptable.

(** ** Memory *)

Definition growproc (n : Z) : K (vst B) Z :=
  me ← onp myproc;
  q ← onp (getp me);
  let sz := p_sz q in
  sz' ← (if n >? 0 then onk (allocuvm kend (p_pgdir q) sz (u32 (sz + n)))
         else if n <? 0 then onk (deallocuvm kend (p_pgdir q) sz (u32 (sz + n)))
         else mret sz);
  if negb (n =? 0) && (sz' =? 0) then mret (-1)
  else
    onp (setp me (set_p_sz sz'));;
    onp (switchuvm me);;
    mret 0.

(** ** Fork *)

(** One round of the loop that shares the open files. *)
Definition fork_file (me np : nat) (i : nat) : K (vst B) unit :=
  q ← onp (getp me);
  o ← deref (p_ofile q !! i);
  match o with
  | None => mret tt
  | Some f =>
      f' ← filedup f;
      onp (setp np (λ r, set_p_ofile (<[i := Some f']> (p_ofile r)) r))
  end.

Definition fork : K (vst B) Z :=
  np ← allocproc;
  match np with
  | None => mret (-1)
  | Some np =>
      me ← onp myproc;
      q ← onp (getp me);
      pgdir ← onk (copyuvm kend kdata (p_pgdir q) (p_sz q));
      onp (setp np (set_p_pgdir pgdir));;
      if pgdir =? 0 then
        r ← onp (getp np);
        onk (kfree kend (p_kstack r));;
        onp (setp np (set_p_kstack 0));;
        onp (setp np (set_p_state UNUSED));;
        lock_ptable;;
        onp (putOnFreeList np);;
        unlock_ptable;;
        mret (-1)
      else
        onp (setp np (set_p_sz (p_sz q)));;
        onp (setp np (set_p_parent (Some me)));;
        onp (setp np (set_p_frame (p_frame q)));;
        onp (setp np (set_p_gid (p_gid q)));;
        onp (setp np (set_p_uid (p_uid q)));;
        onp (setp np (set_p_priority DEFAULTPRIO));;
        onp (setp np (λ r, set_p_frame (set_tf_eax 0 (p_frame r)) r));;
        for_each (seq 0 NOFILE) (fork_file me np);;
        q ← onp (getp me);
        cwd ← deref (p_cwd q);
        cwd' ← oni (idup cwd);
        onp (setp np (set_p_cwd (Some cwd')));;
        r ← onp (getp np);
        nm ← deref (safestrcpy (p_name r) (p_name q) (Z.of_nat NAMELEN));
        onp (setp np (set_p_name nm));;
        r ← onp (getp np);
        let pid := p_pid r in
        lock_ptable;;
        onp (setp np (set_p_state RUNNABLE));;
        r ← onp (getp np);
        onp (putOnReadyList np (p_priority r));;
        unlock_ptable;;
        mret pid
  end.

(** ** Exit *)

Definition exit_file (me fd : nat) : K (vst B) unit :=
  q ← onp (getp me);
  o ← deref (p_ofile q !! fd);
  match o with
  | None => mret tt
  | Some f =>
      fileclose kend retries f;;
      onp (setp me (λ r, set_p_ofile (<[fd := None]> (p_ofile r)) r))
  end.

(** One round of the loop that passes children to [initproc]. *)
Definition reparent (me p : nat) : K pst unit :=
  q ← getp p;
  if decide (p_parent q = Some me) then
    i ← gets initproc;
    setp p (set_p_parent i);;
    q ← getp p;
    if decide (p_state q = ZOMBIE) then wakeup1 (ChProc <$> i) else mret tt
  else mret tt.

Definition exit : K (vst B) unit :=
  me ← onp (gets curproc);
  i ← onp (gets initproc);
  panic_if (bool_decide (me = i)) "init exiting";;
  me ← deref me;
  for_each (seq 0 NOFILE) (exit_file me);;
  onlog (begin_op retries);;
  q ← onp (getp me);
  cwd ← deref (p_cwd q);
  oni (iput retries cwd);;
  onlog (end_op retries);;
  onp (setp me (set_p_cwd None));;
  lock_ptable;;
  q ← onp (getp me);
  onp (wakeup1 (ChProc <$> p_parent q));;
  for_each (seq 0 NPROC) (λ p, onp (reparent me p));;
  onp (setp me (set_p_state ZOMBIE));;
  onp sched;;
  panic "zombie exit".

(** ** Wait *)

(** What [wait] does to the zombie it finds.  The call of [putOnFreeList] is
    under [USE_CS333_SCHEDULER], which is not set. *)
Definition reap (p : nat) : K (vst B) Z :=
  q ← onp (getp p);
  let pid := p_pid q in
  onk (kfree kend (p_kstack q));;
  onp (setp p (set_p_kstack 0));;
  onk (freevm kend (p_pgdir q));;
  onp (setp p (set_p_state UNUSED));;
  onp (setp p (set_p_pid 0));;
  onp (setp p (set_p_parent None));;
  onp (setp p (λ r, set_p_name (<[0%nat := 0]> (p_name r)) r));;
  onp (setp p (set_p_killed false));;
  unlock_ptable;;
  mret pid.

(** The scan of the table: [havekids], and the pid of a child that was reaped. *)
Fixpoint wait_scan (me : nat) (l : list nat) (havekids : bool) : K (vst B) (bool * option Z) :=
  match l with
  | [] => mret (havekids, None)
  | p :: l' =>
      q ← onp (getp p);
      if decide (p_parent q = Some me) then
        if decide (p_state q = ZOMBIE) then
          pid ← reap p;
          mret (true, Some pid)
        else wait_scan me l' true
      else wait_scan me l' havekids
  end.

(** A round of [for(;;)]: the result when it returns. *)
Definition wait_step (_ : Z) : K (vst B) (Z + Z) :=
  me ← onp myproc;
  r ← wait_scan me (seq 0 NPROC) false;
  match snd r with
  | Some pid => mret (inr pid)
  | None =>
      q ← onp (getp me);
      if negb (fst r) || p_killed q then
        unlock_ptable;;
        mret (inr (-1))
      else
        onp (sleep (Some (ChProc me)) (Some Lptable));;
        mret (inl 0)
  end.

Definition wait : K (vst B) Z :=
  lock_ptable;;
  while (S retries) wait_step 0.

(** ** The first run of a process *)

(** [first] is the static variable; its new value is returned. *)
Definition forkret (first : bool) : K (vst B) bool :=
  unlock_ptable;;
  if first then
    oni (iinit retries ROOTDEV);;
    onlog (initlog retries ROOTDEV);;
    mret false
  else mret first.
End life.
