(* ===== verification/Layers.v ===== *)
(** * The layers of the kernel's state

    The process table and the page allocator seen from the state [vst B] that
    the process and file calls run on: [kof] and [pof] are the two layers, [kput]
    and [pput] replace them, and running code on a layer changes that layer only.

    The services a component uses are stated with a contract that lets other
    processes run ([KLaws]).  Code that takes and releases spinlocks but never
    sleeps changes nothing of the table but the locks: [quiet_laws] is that
    stronger contract, for any state whose locks are those of the table.

    At the end, a kernel in which a process makes a system call: [OnePage.st] with a
    file system and an empty file table on top. *)
From S2P Require Import Prelude Spinlock Str Ptable PtableLists Sched Choice Scheduling Services Kalloc BioRing Bio BioFacts BioProps DiskFmt Log LogFacts Crash Txn LogProps Fs FsProps FsRead File Vm VmFacts VmSpace VmUser VmCopy VmExample ProcLife.

(** ** Slots of the table *)

(** The table with the slot [x] changed. *)
Definition upd (x : nat) (f : proc → proc) (t : pst) : pst := set_procs (alter f x (procs t)) t.

Lemma upd_upd x f g t : upd x f (upd x g t) = upd x (λ r, f (g r)) t.
Proof. unfold upd. cbn. by rewrite alter_alter. Qed.
Lemma upd_length x f t : length (procs (upd x f t)) = length (procs t).
Proof. cbn. apply length_alter. Qed.
Lemma upd_lookup x f t q : procs t !! x = Some q → procs (upd x f t) !! x = Some (f q).
Proof. intros H. cbn. by rewrite list_lookup_alter_eq, H. Qed.
Lemma upd_other x y f t : x ≠ y → procs (upd x f t) !! y = procs t !! y.
Proof. intros H. cbn. by rewrite list_lookup_alter_ne. Qed.

Lemma upd_id x f t r : procs t !! x = Some r → f r = r → upd x f t = t.
Proof.
  intros Hr Hf. unfold upd. rewrite (alter_insert f x _ r Hr), Hf, list_insert_id by done. by destruct t.
Qed.

(** ** The layers *)

#[global] Instance pst_id_ok : LensOk pst pst.
Proof. by split. Qed.

Section layers.
Context {B : Type} {PL : Lens B pst} {LO : LensOk B pst}.
Implicit Types (s : vst B).

Definition kof s : kst B := bbase (lbase (ibase (fbase s))).
Definition kput (k : kst B) s : vst B :=
  set_fbase (set_ibase (set_lbase (set_bbase k (lbase (ibase (fbase s)))) (ibase (fbase s))) (fbase s)) s.
Definition pof s : pst := view (kbase (kof s)).
Definition pput (t : pst) s : vst B := kput (set_kbase (put t (kbase (kof s))) (kof s)) s.

Lemma kof_kput k s : kof (kput k s) = k.
Proof. done. Qed.
Lemma kput_kput k k' s : kput k (kput k' s) = kput k s.
Proof. done. Qed.
Lemma kput_kof s : kput (kof s) s = s.
Proof. by destruct s as [[[[]]]]. Qed.
Lemma pof_pput t s : pof (pput t s) = t.
Proof. unfold pof, pput. rewrite kof_kput. cbn. apply view_put. Qed.
Lemma pput_pput t t' s : pput t (pput t' s) = pput t s.
Proof. unfold pput. rewrite kput_kput, kof_kput. cbn. by rewrite put_put. Qed.
Lemma pput_pof s : pput (pof s) s = s.
Proof. unfold pput, pof. rewrite put_view. transitivity (kput (kof s) s); [|apply kput_kof]. f_equal. by destruct (kof s). Qed.
Lemma kof_pput t s : kof (pput t s) = set_kbase (put t (kbase (kof s))) (kof s).
Proof. done. Qed.

(** Running code on a layer. *)
Lemma onk_ok {A} (m : K (kst B) A) s a k : m (kof s) = Ok a k → onk m s = Ok a (kput k s).
Proof. intros H. unfold onk, oni, onb, inb, lift. cbn. fold (kof s). by rewrite H. Qed.

Lemma onp_ok {A} (m : K pst A) s a t : m (pof s) = Ok a t → onp m s = Ok a (pput t s).
Proof.
  intros H. unfold onp. apply (onk_ok (lift (lift m)) s a (set_kbase (put t (kbase (kof s))) (kof s))).
  unfold lift. cbn. fold (pof s). by rewrite H.
Qed.

(** Reading a layer. *)
Lemma onk_read {A} (m : K (kst B) A) s a : m (kof s) = Ok a (kof s) → onk m s = Ok a s.
Proof. intros H. rewrite (onk_ok _ _ _ _ H), kput_kof. done. Qed.
Lemma onp_read {A} (m : K pst A) s a : m (pof s) = Ok a (pof s) → onp m s = Ok a s.
Proof. intros H. rewrite (onp_ok _ _ _ _ H), pput_pof. done. Qed.

Lemma onp_pput {A} (m : K pst A) t s a t' : m t = Ok a t' → onp m (pput t s) = Ok a (pput t' s).
Proof. intros H. rewrite (onp_ok m (pput t s) a t'), pput_pput; [done|]. by rewrite pof_pput. Qed.

(** What is neither the table, nor memory, nor a file or inode table. *)
Definition vrest s :=
  let l := ibase (fbase s) in let b := lbase l in
  (Lst (Bst tt (bufs b) (disk b) (writes b)) (log_start l) (log_size l) (log_outstanding l) (log_committing l) (log_dev l) (lh_n l) (lh_block l),
   isb (fbase s), pipes s).
Definition unp (b b' : B) : Prop := ∃ t, b' = put t b.

(** What may differ is the table, memory, open files and inodes. *)
Record same_rest s s' : Prop := Same_rest {
  sr_rest : vrest s' = vrest s;
  sr_base : unp (kbase (kof s)) (kbase (kof s'));
  sr_lock : use_lock (kof s') = use_lock (kof s)
}.
#[global] Instance same_rest_preorder : PreOrder same_rest.
Proof.
  split.
  - intros s. split; [done| |done]. exists (view (kbase (kof s))). by rewrite put_view.
  - intros s1 s2 s3 [A1 [t A2] A3] [B1 [t' B2] B3]. split; [congruence| |congruence].
    exists t'. by rewrite B2, A2, put_put.
Qed.
Lemma pput_rest t s : same_rest s (pput t s).
Proof. split; [done|by exists t|done]. Qed.
End layers.

Ltac onp_step H := rewrite (bind_ok _ _ _ _ _ (onp_pput _ _ _ _ _ H)).

(** ** Locks without sleeping *)

(** [m] does to [B] what [n] does to its process table. *)
Definition as_table {B : Type} {PL : Lens B pst} (m : K B unit) (n : K pst unit) : Prop :=
  (∀ b t, n (view b) = Ok tt t → m b = Ok tt (put t b)) ∧ (∀ b e, n (view b) = Panic e → m b = Panic e).

(** The locks of [B] are those of its process table. *)
Class TableLocks (B : Type) {O : KOps B} {PL : Lens B pst} := {
  tl_acquire : ∀ lk, as_table (k_acquire lk) (lift (acquire lk));
  tl_release : ∀ lk, as_table (k_release lk) (lift (release lk));
  tl_initlock : ∀ lk nm, as_table (k_initlock lk nm) (lift (initlock lk nm))
}.

Lemma as_table_lift {B} {PL : Lens B pst} (n : K pst unit) : as_table (lift n) n.
Proof. split; intros b x H; unfold lift; by rewrite H. Qed.

#[global] Instance pst_locks : TableLocks pst.
Proof. split; intros; by split. Qed.

Section quiet.
Context {B : Type} {O : KOps B} {PL : Lens B pst} {LO : LensOk B pst} {TL : TableLocks B}.

(** The same locks; no code that sleeps. *)
Definition quiet_ops : KOps B := {|
  k_acquire := k_acquire; k_release := k_release; k_initlock := k_initlock;
  k_sleep := λ _ _, fault; k_wakeup := λ _, mret tt; k_getproc := fault; k_setproc := λ _, fault
|}.

Definition locks_only (b b' : B) : Prop := ∃ m, b' = put (set_mch m (view b)) b.

#[global] Instance locks_only_preorder : PreOrder locks_only.
Proof.
  split.
  - intros b. exists (mch (view b)). rewrite <- (put_view b) at 1. by destruct (view b).
  - intros b1 b2 b3 [m ->] [m' ->]. exists m'. by rewrite view_put, put_put.
Qed.

Lemma acquire_quiet L lk (b : B) : holds L (mch (view b)) → lk ∉ L →
  ∃ m, k_acquire lk b = Ok tt (put (set_mch m (view b)) b) ∧ holds ({[lk]} ∪ L) m.
Proof.
  intros HL Hlk. destruct (lift_acquire L lk (view b) HL Hlk) as (m & Hr & Hm).
  exists m. split; [|done]. by apply (proj1 (tl_acquire lk)).
Qed.

Lemma release_quiet L lk (b : B) : holds L (mch (view b)) → lk ∈ L →
  ∃ m, k_release lk b = Ok tt (put (set_mch m (view b)) b) ∧ holds (L ∖ {[lk]}) m.
Proof.
  intros HL Hlk. destruct (lift_release L lk (view b) HL Hlk) as (m & Hr & Hm).
  exists m. split; [|done]. by apply (proj1 (tl_release lk)).
Qed.

Definition quiet_laws : @KLaws B quiet_ops.
Proof.
  refine (@Build_KLaws B quiet_ops (λ L b, holds L (mch (view b))) (λ _, None) (λ _, None) locks_only _ _ _ _ _ _ _ _ _ _); cbn; try done.
  - intros L lk b HL Hlk. destruct (acquire_quiet L lk b HL Hlk) as (m & Hr & Hm).
    exists (put (set_mch m (view b)) b). rewrite view_put. split_and!; [done|done|by exists m|done|done].
  - intros L lk b HL Hlk. apply (proj2 (tl_acquire lk)). unfold lift. cbn. by rewrite (acquire_held lk _ L).
  - intros L lk nm b HL Hlk. eexists. split; [by apply (proj1 (tl_initlock lk nm))|]. rewrite view_put.
    split_and!; [by apply initlock_holds|by eexists|done|done].
  - intros L lk b HL Hlk. destruct (release_quiet L lk b HL Hlk) as (m & Hr & Hm).
    exists (put (set_mch m (view b)) b). rewrite view_put. split_and!; [done|done|by exists m|done|done].
  - intros L c b HL _. exists b. split_and!; done.
Defined.

(** A lock taken or released from the layer of the file calls. *)
Lemma vst_acquire L lk t (s : vst B) : holds L (mch t) → lk ∉ L →
  ∃ m, k_acquire lk (pput t s) = Ok tt (pput (set_mch m t) s) ∧ holds ({[lk]} ∪ L) m.
Proof.
  intros HL Hlk. destruct (acquire_quiet L lk (kbase (kof (pput t s)))) as (m & Hr & Hm); [by rewrite kof_pput; cbn; rewrite view_put|done|].
  exists m. split; [|done]. rewrite kof_pput in Hr. cbn [kbase set_kbase] in Hr. rewrite view_put, put_put in Hr.
  change (k_acquire lk (pput t s)) with (onk (lift (k_acquire lk : K B unit)) (pput t s)).
  erewrite onk_ok; [|unfold lift; cbn; rewrite Hr; reflexivity]. unfold pput. by rewrite !kput_kput.
Qed.

Lemma vst_release L lk t (s : vst B) : holds L (mch t) → lk ∈ L →
  ∃ m, k_release lk (pput t s) = Ok tt (pput (set_mch m t) s) ∧ holds (L ∖ {[lk]}) m.
Proof.
  intros HL Hlk. destruct (release_quiet L lk (kbase (kof (pput t s)))) as (m & Hr & Hm); [by rewrite kof_pput; cbn; rewrite view_put|done|].
  exists m. split; [|done]. rewrite kof_pput in Hr. cbn [kbase set_kbase] in Hr. rewrite view_put, put_put in Hr.
  change (k_release lk (pput t s)) with (onk (lift (k_release lk : K B unit)) (pput t s)).
  erewrite onk_ok; [|unfold lift; cbn; rewrite Hr; reflexivity]. unfold pput. by rewrite !kput_kput.
Qed.

(** The same from the file system. *)
Lemma fs_acquire L lk t (s : vst B) : holds L (mch t) → lk ∉ L →
  ∃ m, k_acquire lk (fbase (pput t s)) = Ok tt (fbase (pput (set_mch m t) s)) ∧ holds ({[lk]} ∪ L) m.
Proof.
  intros HL Hlk. destruct (acquire_quiet L lk (kbase (kof (pput t s)))) as (m & Hr & Hm); [by rewrite kof_pput; cbn; rewrite view_put|done|].
  exists m. split; [|done]. rewrite kof_pput in Hr. cbn [kbase set_kbase] in Hr. rewrite view_put, put_put in Hr.
  change (k_acquire lk (fbase (pput t s))) with (onkst (lift (k_acquire lk : K B unit)) (fbase (pput t s))).
  unfold onkst, onb, inb, lift. cbn. by rewrite Hr.
Qed.

Lemma fs_release L lk t (s : vst B) : holds L (mch t) → lk ∈ L →
  ∃ m, k_release lk (fbase (pput t s)) = Ok tt (fbase (pput (set_mch m t) s)) ∧ holds (L ∖ {[lk]}) m.
Proof.
  intros HL Hlk. destruct (release_quiet L lk (kbase (kof (pput t s)))) as (m & Hr & Hm); [by rewrite kof_pput; cbn; rewrite view_put|done|].
  exists m. split; [|done]. rewrite kof_pput in Hr. cbn [kbase set_kbase] in Hr. rewrite view_put, put_put in Hr.
  change (k_release lk (fbase (pput t s))) with (onkst (lift (k_release lk : K B unit)) (fbase (pput t s))).
  unfold onkst, onb, inb, lift. cbn. by rewrite Hr.
Qed.

(** Code on memory that takes no lock but its own leaves the table alone. *)
Lemma onk_quiet {A} (m : K (kst B) A) t (s : vst B) a k :
  m (kof (pput t s)) = Ok a k → @kst_keep B quiet_ops quiet_laws (kof (pput t s)) k →
  onk m (pput t s) = Ok a (kput k s) ∧ same_rest s (kput k s) ∧ ∃ x, pof (kput k s) = set_mch x t.
Proof.
  intros Hr [Hu [[x Hx] _]]. rewrite kof_pput in Hu, Hx. cbn [kbase set_kbase use_lock] in Hu, Hx. rewrite view_put, put_put in Hx.
  split_and!.
  - rewrite (onk_ok _ _ _ _ Hr). done.
  - split; [done| |done]. rewrite kof_kput. by eexists.
  - exists x. unfold pof. rewrite kof_kput, Hx. apply view_put.
Qed.

(** Free pages and locks. *)
Definition mem_q (kend : Z) (L : gset lockid) (k : kst B) (F : list Z) : Prop := @mem_ok B quiet_ops quiet_laws kend L k F.

Lemma pput_self t (s : vst B) : pof s = t → s = pput t s.
Proof. intros <-. by rewrite pput_pof. Qed.

Lemma free_ok_pput kend t (s : vst B) F : free_ok kend (kof s) F → free_ok kend (kof (pput t s)) F.
Proof. intros [H1 H2 H3]. by split. Qed.

Lemma mem_q_pput kend L t (s : vst B) F : free_ok kend (kof s) F → holds L (mch t) → Lkmem ∉ L → mem_q kend L (kof (pput t s)) F.
Proof.
  intros Hf HL HkL. split; [by apply free_ok_pput|]. split; [|done]. cbn. by rewrite view_put.
Qed.

Lemma mem_q_holds kend L k (s : vst B) F : mem_q kend L k F → pof (kput k s) = view (kbase k) ∧ holds L (mch (pof (kput k s))).
Proof. intros [_ [HL _]]. split; [done|]. exact HL. Qed.

Definition kmem (m : mem) (s : vst B) : vst B := kput (set_memory m (kof s)) s.

Lemma setm_step {A} a w t (s : vst B) (k : K (vst B) A) :
  (onk (setm a w);; k) (pput t s) = k (pput t (kmem (mwrite32 (memory (kof s)) a w) s)).
Proof.
  rewrite (bind_ok _ _ _ tt (pput t (kmem (mwrite32 (memory (kof s)) a w) s))); [done|].
  by rewrite (onk_ok _ _ tt (set_memory (mwrite32 (memory (kof s)) a w) (kof (pput t s)))).
Qed.

(** One call on memory, by what its contract says. *)
Lemma onk_run {A} kend L (m : K (kst B) A) t (s : vst B) a k F :
  m (kof (pput t s)) = Ok a k → @kst_keep B quiet_ops quiet_laws (kof (pput t s)) k → mem_q kend L k F →
  ∃ x, onk m (pput t s) = Ok a (pput (set_mch x t) (kput k s)) ∧ holds L x ∧ same_rest s (kput k s).
Proof.
  intros Hr Hk Hok. destruct (onk_quiet _ t s _ k Hr Hk) as (Hrun & Hsr & x & Hx). exists x.
  pose proof (proj2 (mem_q_holds kend L k s F Hok)) as Hh. rewrite Hx in Hh.
  split_and!; [by rewrite <- (pput_self _ _ Hx)|exact Hh|done].
Qed.

Lemma setp_step {A} x f t (s : vst B) (k : K (vst B) A) :
  (x < length (procs t))%nat → (onp (setp x f);; k) (pput t s) = k (pput (upd x f t) s).
Proof. intros H. by rewrite (bind_ok _ _ _ _ _ (onp_pput _ _ _ _ _ (setp_ok t x f H))). Qed.

Lemma lock_ok t (s : vst B) : holds ∅ (mch t) →
  ∃ m, lock_ptable (pput t s) = Ok tt (pput (set_mch m t) s) ∧ holds {[Lptable]} m.
Proof.
  intros HL. destruct (lift_acquire ∅ Lptable t HL) as (m & Hr & Hm); [by apply not_elem_of_empty|].
  exists m. rewrite (right_id_L ∅ (∪)) in Hm. split; [|done]. by apply onp_pput.
Qed.

Lemma unlock_ok t (s : vst B) : holds {[Lptable]} (mch t) →
  ∃ m, unlock_ptable (pput t s) = Ok tt (pput (set_mch m t) s) ∧ holds ∅ m.
Proof.
  intros HL. destruct (lift_release {[Lptable]} Lptable t HL) as (m & Hr & Hm); [set_solver|].
  exists m. rewrite difference_diag_L in Hm. split; [|done]. by apply onp_pput.
Qed.

End quiet.

(** ** An example *)

(** An inode that is in memory and not locked. *)
Definition ip_idle : inode := Inode 1 5 2 2 T_FILE 0 0 1 700 ([40; 41] ++ replicate 11 0).

Definition sys1 : vst pst :=
  Vst (Ist (Lst (Bst OnePage.st bufs_init log_disk []) 2 30 0 0 1 0 (replicate 30 0)) sb70 (ip_idle :: replicate 49 free_inode))
    (File FD_INODE 1 true false 0 (Some 0%nat) 0 :: replicate 99 (File FD_NONE 0 false false 0 None 0)) ∅.

(** The process of [sys1], which makes a system call with the argument 60. *)
Definition caller1 : proc := OnePage.caller (Table.mk RUNNING 1 1 None None).

(** The same process, of a whole page, calling [read(0, 4000, -1)]. *)
Definition sys2 : vst pst :=
  pput (set_procs (alter (λ q, set_p_sz 4096 (set_p_frame (set_tf_esp 70 (p_frame q)) q)) 0%nat (procs (pof sys1))) (pof sys1)) sys1.
