(* ===== verification/ForkFacts.v ===== *)
(** * Making a process

    Facts about [allocproc] and [fork]: a slot leaves the free list, gets a stack,
    a copy of the parent's memory, its open files and its directory, and goes to
    the end of a ready list.  The states are written [pput t s]: the process table
    [t] in the state [s]. *)
From S2P Require Import Prelude Spinlock Str Ptable PtableLists Sched Choice Scheduling Services Kalloc BioRing Bio DiskFmt Log Fs File Vm VmFacts VmSpace VmUser VmCopy ProcLife Layers.

(** ** The free list *)

(** The table when the slot [np] has been taken from the free list. *)
Definition claim (np : nat) (q : proc) (t : pst) : pst :=
  set_nextpid (i32 (nextpid t + 1)) (set_freeList (p_next q)
    (set_procs (alter (λ r, set_p_pid (nextpid t) (set_p_state EMBRYO (set_p_next None r))) np (procs t)) t)).

Lemma alter_status_prio f x (ps : list proc) q :
  ps !! x = Some q → p_priority (f q) = p_priority q → status (alter f x ps) x = Some (p_state (f q), p_priority q).
Proof. intros Hx Hf. unfold status. rewrite list_lookup_alter_eq, Hx. cbn. by rewrite Hf. Qed.

Lemma claim_ok t Q np F q :
  queues_ok None t Q (np :: F) → procs t !! np = Some q → queues_ok None (claim np q t) Q F ∧ freeList t = Some np.
Proof.
  intros HI Hq. pose proof (qo_lists _ _ _ _ HI) as [H1 H2 H3 H4 H5]. cbn [app] in H5. rewrite NoDup_cons, not_elem_of_app in H5.
  destruct H5 as [[HnF HnQ] H5]. destruct H4 as (Hf & q' & Hq' & H4). replace q' with q in * by congruence. split; [|done].
  assert (∀ y, y ≠ np → status (procs (claim np q t)) y = status (procs t) y) as Hs by (intros; by apply status_alter_ne).
  assert (status (procs (claim np q t)) np = Some (EMBRYO, p_priority q)) as Hn by (exact (alter_status_prio (λ r, set_p_pid (nextpid t) (set_p_state EMBRYO (set_p_next None r))) np _ q Hq eq_refl)).
  eapply queues_ok_transfer; [done| | | | |].
  - split; cbn; [by rewrite length_alter|done| | |done].
    + eapply chains_transfer; [done|]. intros i h k Hk Hc. apply chain_alter_ne; [|done].
      intros Hin. apply HnQ, elem_of_concat. eauto.
    + by apply chain_alter_ne.
  - intros i l x Hl Hx. rewrite Hs; [by eapply (qo_ready _ _ _ _ HI)|]. intros ->. apply HnQ, elem_of_concat. eauto.
  - intros x pr Hx _. destruct (decide (x = np)) as [->|]; [by rewrite Hn in Hx|]. rewrite Hs in Hx by done.
    by apply (qo_all _ _ _ _ HI x pr).
  - intros x Hx. rewrite Hs by (by intros ->). apply (qo_free _ _ _ _ HI). by right.
  - intros x st pr Hx. destruct (decide (x = np)) as [->|]; [|rewrite Hs in Hx by done; eauto].
    rewrite Hn in Hx. injection Hx as <- <-. left. rewrite (lookup_status _ _ _ Hq). eauto.
Qed.

(** Changing a slot that is on no list. *)
Lemma queues_ok_off t Q F np f r :
  queues_ok None t Q F → procs t !! np = Some r → p_state r ≠ RUNNABLE → p_state r ≠ UNUSED →
  (∀ q, p_next (f q) = p_next q) → p_state (f r) ≠ RUNNABLE → HIGH ≤ p_priority (f r) ≤ LOW →
  queues_ok None (upd np f t) Q F ∧ np ∉ F ++ concat Q.
Proof.
  intros HI Hr Hst Hst' Hn Hf Hp.
  assert (∀ y, y ≠ np → status (procs (upd np f t)) y = status (procs t) y) as Hs by (intros; by apply status_alter_ne).
  pose proof (lookup_status _ _ _ (upd_lookup np f t r Hr)) as Hsf.
  pose proof (qo_off_lists _ _ _ _ HI np _ _ (lookup_status _ _ _ Hr) Hst Hst') as Hoff. split; [|done].
  rewrite not_elem_of_app in Hoff. destruct Hoff as [HnF HnQ].
  eapply queues_ok_transfer; [done|apply lists_ok_alter; [done|apply HI]| | | |].
  - intros i l x Hl Hx. rewrite Hs; [by eapply (qo_ready _ _ _ _ HI)|]. intros ->. apply HnQ, elem_of_concat. eauto.
  - intros x pr Hx _. destruct (decide (x = np)) as [->|]; [rewrite Hsf in Hx; congruence|].
    rewrite Hs in Hx by done. by apply (qo_all _ _ _ _ HI x pr).
  - intros x Hx. rewrite Hs by (by intros ->). by apply (qo_free _ _ _ _ HI).
  - intros x st pr Hx. destruct (decide (x = np)) as [->|]; [|rewrite Hs in Hx by done; eauto].
    rewrite Hsf in Hx. injection Hx as _ <-. by right.
Qed.

Section fork.
Context {B : Type} {O : KOps B} {PL : Lens B pst} {LO : LensOk B pst} {TL : TableLocks B}.
Context (kend kdata trapret forkret_addr : Z).
Implicit Types (s : vst B) (t : pst).

Lemma take_free_none t s Q : queues_ok None t Q [] → holds ∅ (mch t) →
  ∃ m, take_free (pput t s) = Ok None (pput (set_mch m t) s) ∧ holds ∅ m.
Proof.
  intros HI HL. destruct (lock_ok t s HL) as (m & Hr & Hm). unfold take_free. rewrite (bind_ok _ _ _ _ _ Hr).
  onp_step (gets_ok freeList (set_mch m t)). cbn [freeList set_mch]. rewrite (lo_free _ _ _ (qo_lists _ _ _ _ HI)).
  destruct (unlock_ok (set_mch m t) s Hm) as (m' & Hr' & Hm'). rewrite (bind_ok _ _ _ _ _ Hr'). by exists m'.
Qed.

Lemma take_free_ok t s Q np F q :
  queues_ok None t Q (np :: F) → procs t !! np = Some q → holds ∅ (mch t) →
  ∃ m, take_free (pput t s) = Ok (Some np) (pput (set_mch m (claim np q t)) s) ∧ holds ∅ m.
Proof.
  intros HI Hq HL. destruct (claim_ok t Q np F q HI Hq) as [_ Hf].
  destruct (lock_ok t s HL) as (m & Hr & Hm). unfold take_free. rewrite (bind_ok _ _ _ _ _ Hr).
  onp_step (gets_ok freeList (set_mch m t)). cbn [freeList set_mch]. rewrite Hf.
  assert (np < length (procs t))%nat as Hlt by (by eapply lookup_lt_Some).
  onp_step (getp_ok (set_mch m t) np q Hq). onp_step (modify_ok (set_freeList (p_next q)) (set_mch m t)).
  cbv beta. set (t1 := set_freeList (p_next q) (set_mch m t)).
  rewrite !setp_step by (rewrite ?upd_length; exact Hlt). rewrite upd_upd. set (t2 := upd np _ t1).
  onp_step (gets_ok nextpid t2). onp_step (modify_ok (set_nextpid (i32 (nextpid t2 + 1))) t2). cbv beta.
  rewrite setp_step by (cbn; by rewrite length_alter).
  set (t3 := upd np _ _). destruct (unlock_ok t3 s Hm) as (m' & Hr' & Hm'). rewrite (bind_ok _ _ _ _ _ Hr').
  exists m'. split; [|done]. do 2 f_equal. unfold t3, t2, t1, upd, claim. cbn. by rewrite alter_alter.
Qed.

(** ** The stack *)

(** The slot with its kernel stack [v]. *)
Definition born (v : Z) (r : proc) : proc :=
  set_p_ctx (set_c_eip forkret_addr context0) (set_p_context (v + KSTACKSIZE - TRAPFRAME - 4 - CONTEXT)
    (set_p_tf (v + KSTACKSIZE - TRAPFRAME) (set_p_kstack v r))).

Lemma allocproc_ok t s Q np F q v Fp :
  queues_ok None t Q (np :: F) → procs t !! np = Some q → holds ∅ (mch t) → free_ok kend (kof s) (v :: Fp) →
  ∃ m s1, allocproc trapret forkret_addr (pput t s) = Ok (Some np) (pput (set_mch m (upd np (born v) (claim np q t))) s1) ∧
    holds ∅ m ∧ same_rest s s1 ∧ files s1 = files s ∧ inodes (fbase s1) = inodes (fbase s) ∧
    free_ok kend (kof s1) Fp ∧ page kend v ∧ v ∉ Fp ∧
    (∀ x, inrange v PGSIZE x = false → memory (kof s1) x = memory (kof s) x) ∧
    mread32 (memory (kof s1)) (v + KSTACKSIZE - TRAPFRAME - 4) = u32 trapret.
Proof.
  intros HI Hq HL Hf. destruct (take_free_ok t s Q np F q HI Hq HL) as (m1 & Hr1 & Hm1).
  assert (np < length (procs t))%nat as Hlt by (by eapply lookup_lt_Some).
  set (t1 := set_mch m1 (claim np q t)) in *. unfold allocproc. rewrite (bind_ok _ _ _ _ _ Hr1).
  destruct (mem_q_pput kend ∅ t1 s _ Hf Hm1 (not_elem_of_empty _)) as [Hf1 HL1].
  destruct (@kalloc_ok B quiet_ops quiet_laws kend ∅ _ _ Hf1 HL1) as (k & Hr & Hf2 & Hm2 & HL2 & Hk2).
  destruct (onk_run kend ∅ _ t1 s _ k _ Hr Hk2 (conj Hf2 HL2)) as (x & Hrun & Hhx & Hsr). rewrite (bind_ok _ _ _ _ _ Hrun).
  cbn [head tail default] in *. cbv delta [id] beta. set (s2 := kput k s) in *.
  pose proof (fo_page _ _ _ Hf) as HFp. rewrite Forall_cons in HFp. destruct HFp as [Hv _].
  pose proof (fo_nodup _ _ _ Hf) as Hnd. rewrite NoDup_cons in Hnd. destruct Hnd as [HvF _].
  rewrite setp_step by (cbn; by rewrite length_alter). pose proof (page_range _ _ Hv).
  destruct (Z.eqb_spec v 0); [unfold KERNBASE in *; lia|].
  rewrite setp_step, setm_step, !setp_step by (cbn; by rewrite ?length_alter). rewrite !upd_upd.
  set (a := v + KSTACKSIZE - TRAPFRAME - 4). set (m' := mwrite32 _ a trapret).
  assert (∀ y, inrange v PGSIZE y = false → m' y = memory (kof s) y) as Hm'.
  { intros y Hy. unfold m'. rewrite mwrite32_other; [change (memory (kof s2)) with (memory k); by rewrite Hm2|].
    revert Hy. unfold a, inrange, KSTACKSIZE, TRAPFRAME, PGSIZE. zcases; done || lia. }
  exists x, (kmem m' s2). split_and!; [done| |etrans; [exact Hsr|]|done|done| |done|done|done|apply mread32_mwrite32].
  - done.
  - split; [done| |done]. exists (view (kbase (kof s2))). by rewrite put_view.
  - apply (free_ok_outside kend k Fp v m'); [done|done|done|]. intros y Hy. rewrite Hm2. by apply Hm'.
Qed.

(** ** Open files and the directory *)

Definition dup_ref (f : file) : file := set_f_ref (f_ref f + 1) f.

(** One more reference to each file of the list. *)
Definition dup_all (l : list (option nat)) (fs : list file) : list file :=
  foldl (λ fs o, match o with Some i => alter dup_ref i fs | None => fs end) fs l.

(** Open files are in use. *)
Definition fds_ok (l : list (option nat)) (fs : list file) : Prop :=
  ∀ i, Some i ∈ l → ∃ f, fs !! i = Some f ∧ 1 ≤ f_ref f.

Lemma fds_ok_dup l i fs : fds_ok l fs → fds_ok l (alter dup_ref i fs).
Proof.
  intros H j Hj. destruct (H j Hj) as (f & Hf & Hr). destruct (decide (i = j)) as [->|].
  - exists (dup_ref f). rewrite list_lookup_alter_eq, Hf. split; [done|cbn; lia].
  - exists f. by rewrite list_lookup_alter_ne.
Qed.

Lemma filedup_ok i f t s :
  files s !! i = Some f → 1 ≤ f_ref f → holds ∅ (mch t) →
  ∃ m, filedup i (pput t s) = Ok i (pput (set_mch m t) (set_files (alter dup_ref i (files s)) s)) ∧ holds ∅ m.
Proof.
  intros Hf Hr HL. destruct (vst_acquire ∅ Lftable t s HL) as (m1 & H1 & Hm1); [apply not_elem_of_empty|].
  unfold filedup. rewrite (bind_ok _ _ _ _ _ H1). set (s1 := pput (set_mch m1 t) s).
  assert (getf i s1 = Ok f s1) as Hg by (unfold getf; change (deref (files s !! i) s1 = Ok f s1); by rewrite Hf).
  rewrite (bind_ok _ _ _ _ _ Hg). destruct (Z.ltb_spec (f_ref f) 1); [lia|]. rewrite (bind_ok _ _ s1 tt s1) by done.
  set (s2 := set_files (alter dup_ref i (files s)) s).
  assert (setf i (set_f_ref (f_ref f + 1)) s1 = Ok tt (pput (set_mch m1 t) s2)) as Hs.
  { unfold setf. change (files s1) with (files s). rewrite Hf. change (pput (set_mch m1 t) s2) with (set_files (alter dup_ref i (files s)) s1).
    do 2 f_equal. symmetry. by apply (alter_insert dup_ref). }
  rewrite (bind_ok _ _ _ _ _ Hs). destruct (vst_release ({[Lftable]} ∪ ∅) Lftable (set_mch m1 t) s2 Hm1) as (m2 & H2 & Hm2); [set_solver|].
  rewrite (bind_ok _ _ _ _ _ H2). exists m2. split; [done|]. by replace (({[Lftable]} ∪ ∅) ∖ {[Lftable]}) with (∅ : gset lockid) in Hm2 by set_solver.
Qed.

Lemma fork_file_none me np q k t s :
  procs t !! me = Some q → p_ofile q !! k = Some None → fork_file me np k (pput t s) = Ok tt (pput t s).
Proof. intros Hq Ho. unfold fork_file. onp_step (getp_ok t me q Hq). by rewrite Ho. Qed.

Lemma fork_file_some me np q k i f t s :
  procs t !! me = Some q → p_ofile q !! k = Some (Some i) → files s !! i = Some f → 1 ≤ f_ref f →
  (np < length (procs t))%nat → holds ∅ (mch t) →
  ∃ m, fork_file me np k (pput t s) =
      Ok tt (pput (set_mch m (upd np (λ r, set_p_ofile (<[k := Some i]> (p_ofile r)) r) t)) (set_files (alter dup_ref i (files s)) s)) ∧
    holds ∅ m.
Proof.
  intros Hq Ho Hf Hr Hlt HL. destruct (filedup_ok i f t s Hf Hr HL) as (m & Hd & Hm). exists m. split; [|done].
  unfold fork_file. onp_step (getp_ok t me q Hq). rewrite Ho. rewrite (bind_ok _ _ (pput t s) (Some i) (pput t s)) by done.
  rewrite (bind_ok _ _ _ _ _ Hd). by apply onp_pput, (setp_ok (set_mch m t) np).
Qed.

Lemma fork_files_ok me np q P : me ≠ np → p_ofile q = P → length P = NOFILE → ∀ n k t s r,
  (k + n = NOFILE)%nat → procs t !! me = Some q → procs t !! np = Some r →
  p_ofile r = take k P ++ replicate n None → fds_ok P (files s) → holds ∅ (mch t) →
  ∃ m, for_each (seq k n) (fork_file me np) (pput t s) =
      Ok tt (pput (set_mch m (upd np (set_p_ofile P) t)) (set_files (dup_all (drop k P) (files s)) s)) ∧ holds ∅ m.
Proof.
  intros Hne HP HlP. induction n as [|n IH]; intros k t s r Hk Hq Hr Hof Hfd HL.
  { exists (mch t). rewrite take_ge, app_nil_r in Hof by lia. rewrite drop_ge by lia. split; [|done].
    rewrite (upd_id np _ t r Hr) by (rewrite <- Hof; by destruct r). cbn. do 2 f_equal; [by destruct t|by destruct s]. }
  destruct (lookup_lt_is_Some_2 P k) as [o Ho]; [lia|]. rewrite (drop_S P o k Ho). cbn [seq for_each].
  rewrite <- HP in Ho. destruct o as [i|].
  - destruct (Hfd i) as (f & Hf & Hfr); [rewrite <- HP; by eapply list_elem_of_lookup_2|].
    destruct (fork_file_some me np q k i f t s Hq Ho Hf Hfr) as (m & Hrun & Hm); [by eapply lookup_lt_Some|done|].
    rewrite (bind_ok _ _ _ _ _ Hrun). set (g := λ r : proc, set_p_ofile _ r). set (t1 := set_mch m (upd np g t)).
    destruct (IH (S k) t1 (set_files (alter dup_ref i (files s)) s) (g r)) as (m' & Hrun' & Hm'); [lia| | | |by apply fds_ok_dup|done|].
    + change (procs t1) with (procs (upd np g t)). by rewrite upd_other.
    + by apply (upd_lookup np g).
    + cbn. rewrite Hof, <- HP, (take_S_r _ _ _ Ho), insert_app_r_alt, length_take, HP by (rewrite length_take; lia).
      replace (k - k `min` length P)%nat with 0%nat by lia. cbn. by rewrite <- app_assoc.
    + exists m'. split; [|done]. rewrite Hrun'.
      unfold t1. change (upd np (set_p_ofile P) (set_mch m (upd np g t))) with (set_mch m (upd np (set_p_ofile P) (upd np g t))).
      rewrite upd_upd. done.
  - rewrite (bind_ok _ _ _ _ _ (fork_file_none me np q k t s Hq Ho)).
    destruct (IH (S k) t s r) as (m & Hrun & Hm); [lia|done|done| |done|done|].
    + rewrite Hof, <- HP, (take_S_r _ _ _ Ho), <- app_assoc. done.
    + exists m. by rewrite Hrun.
Qed.

Definition dup_inode (ip : inode) : inode := set_i_ref (i_ref ip + 1) ip.

(** The state with another inode table. *)
Definition with_inodes (l : list inode) s : vst B := set_fbase (set_inodes l (fbase s)) s.

Lemma idup_ok c ip t s :
  inodes (fbase s) !! c = Some ip → holds ∅ (mch t) →
  ∃ m, oni (idup c) (pput t s) = Ok c (pput (set_mch m t) (with_inodes (alter dup_inode c (inodes (fbase s))) s)) ∧ holds ∅ m.
Proof.
  intros Hip HL. destruct (fs_acquire ∅ Licache t s HL) as (m1 & H1 & Hm1); [apply not_elem_of_empty|].
  set (s2 := with_inodes (alter dup_inode c (inodes (fbase s))) s).
  destruct (fs_release ({[Licache]} ∪ ∅) Licache (set_mch m1 t) s2 Hm1) as (m2 & H2 & Hm2); [set_solver|].
  exists m2. replace (({[Licache]} ∪ ∅) ∖ {[Licache]}) with (∅ : gset lockid) in Hm2 by set_solver. split; [|done].
  assert (idup c (fbase (pput t s)) = Ok c (fbase (pput (set_mch m2 t) s2))) as Hr.
  { unfold idup. rewrite (bind_ok _ _ _ _ _ H1). rewrite (bind_ok _ _ _ tt (fbase (pput (set_mch m1 t) s2))).
    - by rewrite (bind_ok _ _ _ _ _ H2).
    - unfold seti. change (inodes (fbase (pput (set_mch m1 t) s))) with (inodes (fbase s)). rewrite Hip.
      change (set_i_ref (i_ref ip + 1) ip) with (dup_inode ip). by rewrite <- (alter_insert dup_inode c _ ip Hip). }
  unfold oni, lift. change (view (pput t s)) with (fbase (pput t s)). by rewrite Hr.
Qed.

(** ** Fork *)

(** What [fork] needs: the current process [me] is [q], [np] is the first free
    slot, [Fp] the free pages, [c] the current directory; [nm] is the copy of the
    process's name. *)
Record fork_ready s Q np F q0 me q Fp c ip nm : Prop := Fork_ready {
  fr_queues : queues_ok None (pof s) Q (np :: F);
  fr_locks : holds ∅ (mch (pof s));
  fr_slot : procs (pof s) !! np = Some q0;
  fr_closed : p_ofile q0 = replicate NOFILE None;
  fr_self : curproc (pof s) = Some me;
  fr_proc : procs (pof s) !! me = Some q;
  fr_running : p_state q = RUNNING;
  fr_free : free_ok kend (kof s) Fp;
  fr_space : us_ok kend (memory (kof s)) (p_pgdir q) Fp;
  fr_size : 0 ≤ p_sz q ≤ KERNBASE;
  fr_mapped : ∀ va, 0 ≤ va < p_sz q → is_Some (upage (memory (kof s)) (p_pgdir q) va);
  fr_nofile : length (p_ofile q) = NOFILE;
  fr_files : fds_ok (p_ofile q) (files s);
  fr_cwd : p_cwd q = Some c;
  fr_inode : inodes (fbase s) !! c = Some ip;
  fr_name : safestrcpy (p_name q0) (p_name q) (Z.of_nat NAMELEN) = Some nm
}.

Lemma ready_distinct s Q np F q0 me q Fp c ip nm : fork_ready s Q np F q0 me q Fp c ip nm → me ≠ np.
Proof.
  intros R ->. destruct (qo_free _ _ _ _ (fr_queues _ _ _ _ _ _ _ _ _ _ _ R) np) as [pr Hpr]; [apply list_elem_of_here|].
  rewrite (lookup_status _ _ _ (fr_proc _ _ _ _ _ _ _ _ _ _ _ R)), (fr_running _ _ _ _ _ _ _ _ _ _ _ R) in Hpr. done.
Qed.

(** A clone of a space is one of the same space before pages of another were
    written. *)
Lemma cloned_src m0 m1 pgdir sz m d F :
  us_ok kend m0 pgdir F → 0 ≤ sz ≤ KERNBASE → same_pages m0 pgdir m1 → cloned kdata m1 pgdir sz m d → cloned kdata m0 pgdir sz m d.
Proof.
  intros Hus Hsz Hs [C1 C2 C3 C4]. destruct (same_pte _ _ _ Hs) as [_ Hpte]. split; [|done|done|done].
  intros va Hva. destruct (C1 va Hva) as (u & v & Hu & Hv & Hf & Hb). rewrite (upage_same _ _ _ _ (Hpte va)) in Hu.
  exists u, v. rewrite Hpte in Hf. split_and!; [done|done|done|]. intros i Hi. rewrite Hb by done.
  apply (Hs u); [right; exists va; split; [lia|done]|]. unfold inrange. rewrite andb_true_iff, Z.leb_le, Z.ltb_lt. lia.
Qed.

Context (Hkend : KERNBASE < kend) (Hkd : kdata_ok kdata).

(** The stack and the memory of the child. *)
Record child_memory s s' q (Fp : list Z) (v d : Z) (F' : list Z) : Prop := Child_memory {
  cm_free : free_ok kend (kof s') F';
  cm_from : ∀ p, p ∈ F' → p ∈ Fp;
  cm_stack : page kend v ∧ v ∈ Fp ∧ v ∉ F';
  cm_frame : ∀ p x, page kend p → p ∉ Fp → inrange p PGSIZE x = true → memory (kof s') x = memory (kof s) x;
  cm_parent : us_ok kend (memory (kof s')) (p_pgdir q) F';
  cm_child : d ≠ 0 → us_ok kend (memory (kof s')) d F' ∧ ¬ owned (memory (kof s')) d v ∧
    cloned kdata (memory (kof s)) (p_pgdir q) (p_sz q) (memory (kof s')) d
}.

(** Another table does not matter. *)
Lemma kof_memory t s : memory (kof (pput t s)) = memory (kof s).
Proof. done. Qed.

Lemma fork_memory s s1 t q v Fp :
  us_ok kend (memory (kof s)) (p_pgdir q) (v :: Fp) → 0 ≤ p_sz q ≤ KERNBASE →
  (∀ va, 0 ≤ va < p_sz q → is_Some (upage (memory (kof s)) (p_pgdir q) va)) →
  free_ok kend (kof s1) Fp → page kend v → v ∉ Fp → holds ∅ (mch t) →
  (∀ x, inrange v PGSIZE x = false → memory (kof s1) x = memory (kof s) x) →
  ∃ d m s2 F', onk (copyuvm kend kdata (p_pgdir q) (p_sz q)) (pput t s1) = Ok d (pput (set_mch m t) s2) ∧
    holds ∅ m ∧ same_rest s1 s2 ∧ files s2 = files s1 ∧ inodes (fbase s2) = inodes (fbase s1) ∧
    child_memory s s2 q (v :: Fp) v d F' ∧ ((1025 + npages (p_sz q) < length Fp)%nat → d ≠ 0).
Proof.
  intros Hus Hsz Hmap Hf Hv HvF HL Hm.
  assert (same_pages (memory (kof s)) (p_pgdir q) (memory (kof s1))) as Hsame.
  { intros p x Hp Hx. apply Hm. destruct (owned_page _ _ _ _ _ Hus Hp) as [Hpp HpF].
    apply (page_disjoint kend p v x); [done|done|list_in|done]. }
  destruct (parent_kept kend _ (p_pgdir q) (memory (kof s1)) (v :: Fp) Fp Hus Hsame) as [Hus1 _].
  { intros p Hp. apply (free_unowned kend _ _ _ p Hus). list_in. }
  destruct (same_pte _ _ _ Hsame) as [_ Hpte].
  destruct (@copyuvm_ok B quiet_ops quiet_laws kend kdata ∅ Hkend Hkd (p_pgdir q) (p_sz q) (kof (pput t s1)) Fp)
    as (k & F' & d & Hr & Hk & [Hf' HL'] & Hsp & Hus' & HF' & Hout & Hc & Hlost & Hd).
  { apply mem_q_pput; [done|done|apply not_elem_of_empty]. }
  { by rewrite kof_memory. }
  { done. }
  { intros va Hva. rewrite kof_memory, (upage_same _ _ _ _ (Hpte va)). by apply Hmap. }
  destruct (onk_run kend ∅ _ t s1 d k F' Hr Hk (conj Hf' HL')) as (x & Hrun & Hhx & Hsr). set (s2 := kput k s1) in *.
  exists d, x, s2, F'. rewrite kof_memory in *. split_and!; [exact Hrun|done|done|done|done| |done].
  - split.
    + done.
    + intros p Hp%HF'. list_in.
    + split_and!; [done|list_in|]. by intros ?%HF'.
    + intros p y Hp HpF Hy. etransitivity; [apply (Hout p y); [done|list_in|done]|]. apply Hm, (page_disjoint kend p v y); [done|done|list_in|done].
    + done.
    + intros Hd0. destruct (Hc Hd0) as (Hud & Hcl & Hfr). split_and!; [done|intros Ho; apply HvF, Hfr; by right|by eapply cloned_src].
Qed.

(** The child's slot, before it is made RUNNABLE. *)
Definition inherit (me : nat) (q : proc) (d : Z) (r : proc) : proc :=
  set_p_frame (set_tf_eax 0 (p_frame q)) (set_p_priority DEFAULTPRIO (set_p_uid (p_uid q) (set_p_gid (p_gid q)
    (set_p_parent (Some me) (set_p_sz (p_sz q) (set_p_pgdir d r)))))).
Definition child (me : nat) (q : proc) (pid v d : Z) (nm : list Z) (r : proc) : proc :=
  set_p_name nm (set_p_cwd (p_cwd q) (set_p_ofile (p_ofile q) (inherit me q d
    (born v (set_p_pid pid (set_p_state EMBRYO (set_p_next None r))))))).

(** The last part of [fork]: queueing the child. *)
Lemma fork_queue t s Q F np pr q :
  queues_ok None t Q F → procs t !! np = Some q → p_state q = EMBRYO → p_priority q = Z.of_nat pr → holds ∅ (mch t) →
  ∃ l t', Q !! pr = Some l ∧
    (lock_ptable;;
     onp (setp np (set_p_state RUNNABLE));;
     r ← onp (getp np);
     onp (putOnReadyList np (p_priority r));;
     unlock_ptable;;
     mret (p_pid q)) (pput t s) = Ok (p_pid q) (pput t' s) ∧
    queues_ok None t' (<[pr := l ++ [np]]> Q) F ∧ holds ∅ (mch t') ∧
    erase (procs t') = erase (alter (set_p_state RUNNABLE) np (procs t)) ∧
    rest (set_mch (mch t) t') = rest t ∧ freeList t' = freeList t.
Proof.
  intros HI Hq Hst Hpr HL. destruct (lock_ok t s HL) as (m1 & Hr1 & Hm1). rewrite (bind_ok _ _ _ _ _ Hr1).
  set (t1 := set_mch m1 t) in *. assert (queues_ok None t1 Q F) as HI1 by (by apply (queues_ok_ext None t)).
  destruct (make_ready_ok t1 Q F np EMBRYO (Z.of_nat pr) HI1) as (i & l & t2 & Hi & Hl & Hrun & HI2 & He & Hrest & Hfl);
    [change (procs t1) with (procs t); rewrite (lookup_status _ _ _ Hq); congruence|done|done|]. apply Nat2Z.inj in Hi as <-.
  assert (np < length (procs t1))%nat as Hlt by (by eapply lookup_lt_Some).
  rewrite (bind_ok _ _ _ _ _ (setp_ok t1 np _ Hlt)) in Hrun. rewrite setp_step by done.
  pose proof (upd_lookup np (set_p_state RUNNABLE) t1 q Hq) as Hq1.
  rewrite (bind_ok _ _ _ _ _ (getp_ok _ np _ Hq1)) in Hrun. onp_step (getp_ok _ np _ Hq1).
  onp_step Hrun. destruct (unlock_ok t2 s) as (m3 & Hr3 & Hm3).
  { injection Hrest as -> _. done. }
  rewrite (bind_ok _ _ _ _ _ Hr3). exists l, (set_mch m3 t2). split_and!; [done|done|by apply (queues_ok_ext None t2)|done|done| |done].
  unfold rest in *. cbn in *. by injection Hrest as _ -> -> -> -> -> ->.
Qed.

(** The part of [fork] that shares the open files and the directory. *)
Lemma fork_files_cwd me np q c ip t s r :
  me ≠ np → procs t !! me = Some q → procs t !! np = Some r → p_ofile r = replicate NOFILE None →
  length (p_ofile q) = NOFILE → fds_ok (p_ofile q) (files s) → p_cwd q = Some c → inodes (fbase s) !! c = Some ip → holds ∅ (mch t) →
  ∃ m, holds ∅ m ∧ ∀ A (k : proc → K (vst B) A),
    (for_each (seq 0 NOFILE) (fork_file me np);;
     q ← onp (getp me);
     cwd ← deref (p_cwd q);
     cwd' ← oni (idup cwd);
     onp (setp np (set_p_cwd (Some cwd')));;
     k q) (pput t s) =
    k q (pput (set_mch m (upd np (λ r, set_p_cwd (Some c) (set_p_ofile (p_ofile q) r)) t))
      (with_inodes (alter dup_inode c (inodes (fbase s))) (set_files (dup_all (p_ofile q) (files s)) s))).
Proof.
  intros Hne Hq Hr Hof Hno Hfd Hcwd Hip HL.
  destruct (fork_files_ok me np q (p_ofile q) Hne eq_refl Hno NOFILE 0 t s r) as (m3 & Hr3 & Hm3); try done.
  rewrite drop_0 in Hr3. set (t1 := set_mch m3 (upd np (set_p_ofile (p_ofile q)) t)) in *. set (s3 := set_files _ s) in *.
  assert (procs t1 !! me = Some q) as Hq1 by (etransitivity; [apply (upd_other np me); congruence|exact Hq]).
  destruct (idup_ok c ip t1 s3) as (m4 & Hr4 & Hm4); [done|done|]. exists m4. split; [done|]. intros A k.
  rewrite (bind_ok _ _ _ _ _ Hr3). onp_step (getp_ok t1 me q Hq1). rewrite Hcwd.
  rewrite (bind_ok _ _ (pput t1 s3) c (pput t1 s3)) by done. rewrite (bind_ok _ _ _ _ _ Hr4).
  rewrite setp_step by (cbn; rewrite length_alter; by eapply lookup_lt_Some).
  change (upd np (set_p_cwd (Some c)) (set_mch m4 t1)) with (set_mch m4 (upd np (set_p_cwd (Some c)) (upd np (set_p_ofile (p_ofile q)) t))).
  by rewrite upd_upd.
Qed.

(** What [fork] has done. *)
Record forked s s' Q np F me q (Fp : list Z) c v d nm (F' : list Z) : Prop := Forked {
  fk_queues : ∃ l, Q !! Z.to_nat DEFAULTPRIO = Some l ∧ queues_ok None (pof s') (<[Z.to_nat DEFAULTPRIO := l ++ [np]]> Q) F;
  fk_locks : holds ∅ (mch (pof s'));
  fk_procs : erase (procs (pof s')) =
    erase (alter (λ r, set_p_state RUNNABLE (child me q (nextpid (pof s)) v d nm r)) np (procs (pof s)));
  fk_table : rest (set_mch (mch (pof s)) (pof s')) = rest (set_nextpid (i32 (nextpid (pof s) + 1)) (pof s));
  fk_memory : child_memory s s' q Fp v d F';
  fk_space : d ≠ 0;
  fk_files : files s' = dup_all (p_ofile q) (files s);
  fk_inodes : inodes (fbase s') = alter dup_inode c (inodes (fbase s));
  fk_rest : same_rest s s'
}.

Lemma child_memory_ext s s1 s2 q Fp v d F' :
  memory (kof s2) = memory (kof s1) → freelist (kof s2) = freelist (kof s1) → child_memory s s1 q Fp v d F' → child_memory s s2 q Fp v d F'.
Proof.
  intros Hm Hfl [[C1 C1' C1''] C2 C3 C4 C5 C6]. split; [split|..]; rewrite ?Hm, ?Hfl; done.
Qed.

Lemma fork_ok s Q np F q0 me q Fp c ip nm :
  fork_ready s Q np F q0 me q Fp c ip nm → (1026 + npages (p_sz q) < length Fp)%nat →
  ∃ s' v d F', fork kend kdata trapret forkret_addr s = Ok (nextpid (pof s)) s' ∧ forked s s' Q np F me q Fp c v d nm F'.
Proof.
  intros R Hlen. pose proof (ready_distinct _ _ _ _ _ _ _ _ _ _ _ R) as Hne. destruct R as [HI HL Hq0 Hof Hcur Hq Hrun Hf Hus Hsz Hmap Hno Hfd Hcwd Hip Hnm].
  destruct Fp as [|v Fp]; [cbn in Hlen; lia|]. set (t := pof s) in *.
  destruct (allocproc_ok t s Q np F q0 v Fp HI Hq0 HL Hf) as (m1 & s1 & Hr1 & Hm1 & Hsr1 & Hfi1 & Hin1 & Hf1 & Hv & HvF & Hmem1 & _).
  assert (np < length (procs t))%nat as Hlt by (by eapply lookup_lt_Some).
  set (T := upd np (born v) (claim np q0 t)) in *. set (tA := set_mch m1 T) in *.
  assert (procs T !! me = Some q) as Hq1 by (cbn; by rewrite !list_lookup_alter_ne).
  set (r1 := born v (set_p_pid (nextpid t) (set_p_state EMBRYO (set_p_next None q0)))).
  assert (procs T !! np = Some r1) as Hr0 by (cbn; by rewrite !list_lookup_alter_eq, Hq0).
  destruct (claim_ok t Q np F q0 HI Hq0) as [HI1 _].
  destruct (fork_memory s s1 tA q v Fp Hus Hsz Hmap Hf1 Hv HvF Hm1 Hmem1) as (d & m2 & s2 & F' & Hr2 & Hm2 & Hsr2 & Hfi2 & Hin2 & Hcm & Hd).
  assert (d ≠ 0) as Hd0 by (apply Hd; cbn in Hlen; lia). set (tB := set_mch m2 T).
  unfold fork. assert (pput t s = s) as Hts by apply pput_pof. rewrite Hts in Hr1. rewrite (bind_ok _ _ _ _ _ Hr1).
  onp_step (myproc_ok tA me Hcur). onp_step (getp_ok tA me q Hq1). rewrite (bind_ok _ _ _ _ _ Hr2).
  change (set_mch m2 tA) with tB. assert (np < length (procs tB))%nat as HltB by (cbn; by rewrite !length_alter).
  rewrite setp_step by done. destruct (Z.eqb_spec d 0); [done|].
  rewrite !setp_step by (rewrite ?upd_length; done). rewrite !upd_upd.
  set (tC := upd np _ tB). assert (tC = upd np (inherit me q d) tB) as HtC by done. rewrite HtC. clear HtC tC. set (tC := upd np (inherit me q d) tB).
  assert (procs tC !! me = Some q) as HqC by (etransitivity; [apply (upd_other np me); congruence|exact Hq1]).
  assert (procs tC !! np = Some (inherit me q d r1)) as HrC by (by apply upd_lookup).
  set (r2 := set_p_cwd (Some c) (set_p_ofile (p_ofile q) (inherit me q d r1))).
  destruct (fork_files_cwd me np q c ip tC s2 (inherit me q d r1)) as (m4 & Hm4 & Hr4); try done.
  { by rewrite Hfi2, Hfi1. }
  { by rewrite Hin2, Hin1. }
  rewrite Hr4. clear Hr4. set (s4 := with_inodes _ _).
  set (tE := set_mch m4 (upd np (λ r, set_p_cwd (Some c) (set_p_ofile (p_ofile q) r)) tC)).
  assert (procs tE !! np = Some r2) as HrE by exact (upd_lookup np (λ r, set_p_cwd (Some c) (set_p_ofile (p_ofile q) r)) tC _ HrC).
  onp_step (getp_ok tE np r2 HrE). change (p_name r2) with (p_name q0). rewrite Hnm.
  rewrite (bind_ok _ _ (pput tE s4) nm (pput tE s4)) by done. rewrite setp_step by (by eapply lookup_lt_Some).
  set (tF := upd np (set_p_name nm) tE). assert (procs tF !! np = Some (set_p_name nm r2)) as HrF by (by apply upd_lookup).
  onp_step (getp_ok tF np _ HrF).
  set (g := λ r, set_p_name nm (set_p_cwd (Some c) (set_p_ofile (p_ofile q) (inherit me q d (born v r))))).
  assert (tF = set_mch m4 (upd np g (claim np q0 t))) as HtF.
  { transitivity (set_mch m4 (upd np (set_p_name nm) (upd np (λ r, set_p_cwd (Some c) (set_p_ofile (p_ofile q) r))
      (upd np (inherit me q d) (upd np (born v) (claim np q0 t)))))); [done|]. by rewrite !upd_upd. }
  assert (queues_ok None tF Q F) as HIF.
  { rewrite HtF. apply (queues_ok_ext None (upd np g (claim np q0 t))); [done|done|done|].
    apply (queues_ok_off _ _ _ _ _ (set_p_pid (nextpid t) (set_p_state EMBRYO (set_p_next None q0)))); try done.
    cbn. by rewrite list_lookup_alter_eq, Hq0. }
  destruct (fork_queue tF s4 Q F np (Z.to_nat DEFAULTPRIO) (set_p_name nm r2) HIF HrF eq_refl eq_refl Hm4)
    as (l & t' & Hl & Hr5 & HI5 & HL5 & He5 & Hrest5 & Hfl5).
  exists (pput t' s4), v, d, F'. split; [exact Hr5|]. rewrite HtF in He5, Hrest5. split; rewrite ?pof_pput.
  - by exists l.
  - done.
  - rewrite He5. cbn [procs set_mch upd set_procs claim set_nextpid set_freeList]. rewrite !alter_alter. unfold g, child.
    by rewrite Hcwd.
  - unfold rest in *. cbn in *. by injection Hrest5 as -> -> -> -> -> ->.
  - by apply (child_memory_ext s s2).
  - done.
  - change (files (pput t' s4)) with (dup_all (p_ofile q) (files s2)). by rewrite Hfi2, Hfi1.
  - change (inodes (fbase (pput t' s4))) with (alter dup_inode c (inodes (fbase s2))). by rewrite Hin2, Hin1.
  - etrans; [exact Hsr1|]. etrans; [exact Hsr2|]. etrans; [|apply pput_rest]. split; [done| |done].
    exists (view (kbase (kof s2))). by rewrite put_view.
Qed.
End fork.
