(* ===== verification/WaitFacts.v ===== *)
(** * The end of a process

    Facts about [wait]: the scan of the table finds the first child that is a
    ZOMBIE, and [reap] frees its stack and its memory. *)
From S2P Require Import Prelude Spinlock Str Ptable PtableLists Sched Choice Scheduling Services Kalloc BioRing Bio DiskFmt Log Fs File Vm VmFacts VmSpace VmUser VmCopy ProcLife Layers ForkFacts.

Section wait.
Context {B : Type} {O : KOps B} {PL : Lens B pst} {LO : LensOk B pst} {TL : TableLocks B}.
Context (kend : Z) (retries : nat) (Hkend : KERNBASE < kend).
Implicit Types (s : vst B) (t : pst) (q : proc).

(** The slot of a child that has been waited for. *)
Definition reaped (r : proc) : proc :=
  set_p_killed false (let r := set_p_parent None (set_p_pid 0 (set_p_state UNUSED (set_p_kstack 0 r))) in
    set_p_name (<[0%nat := 0]> (p_name r)) r).

(** What a ZOMBIE still has: a kernel stack and an address space. *)
Record zombie_ok s q (Fp : list Z) : Prop := Zombie_ok {
  zo_free : free_ok kend (kof s) Fp;
  zo_space : us_ok kend (memory (kof s)) (p_pgdir q) Fp;
  zo_stack : page kend (p_kstack q) ∧ p_kstack q ∉ Fp ∧ ¬ owned (memory (kof s)) (p_pgdir q) (p_kstack q)
}.

Lemma reap_ok t s p q Fp :
  procs t !! p = Some q → holds {[Lptable]} (mch t) → zombie_ok s q Fp →
  ∃ m s' T, reap kend p (pput t s) = Ok (p_pid q) (pput (set_mch m (upd p reaped t)) s') ∧ holds ∅ m ∧ same_rest s s' ∧
    free_ok kend (kof s') (T ++ p_kstack q :: Fp) ∧ (∀ x, x ∈ T ↔ owned (memory (kof s)) (p_pgdir q) x) ∧
    files s' = files s ∧ inodes (fbase s') = inodes (fbase s).
Proof.
  intros Hq HL [Hf Hus (Hv & HvF & Hvo)]. assert (Lkmem ∉ ({[Lptable]} : gset lockid)) as Hkl by set_solver.
  assert (p < length (procs t))%nat as Hlt by (by eapply lookup_lt_Some).
  destruct (mem_q_pput kend _ t s Fp Hf HL Hkl) as [Hf0 HL0].
  destruct (@kfree_ok B quiet_ops quiet_laws kend {[Lptable]} _ _ (p_kstack q) Hf0 Hv HvF HL0) as (k1 & Hr1 & Hf1 & Hm1 & HL1 & Hk1).
  destruct (onk_run kend _ _ t s tt k1 _ Hr1 Hk1 (conj Hf1 HL1)) as (x1 & Hrun1 & Hx1 & Hsr1). set (s1 := kput k1 s) in *.
  assert (same_pages (memory (kof s)) (p_pgdir q) (memory (kof s1))) as Hsame.
  { intros p' y Hp' Hy. apply Hm1. destruct (owned_page _ _ _ _ _ Hus Hp') as [Hpp _].
    apply (page_disjoint kend p' (p_kstack q) y); [done|done|by intros ->|done]. }
  destruct (parent_kept kend _ (p_pgdir q) (memory (kof s1)) Fp (p_kstack q :: Fp) Hus Hsame) as [Hus1 Ho1].
  { intros p' [->|Hp']%elem_of_cons; [done|]. by apply (free_unowned kend _ _ _ _ Hus). }
  set (t1 := upd p (set_p_kstack 0) (set_mch x1 t)).
  destruct (mem_q_pput kend _ t1 s1 _ Hf1 Hx1 Hkl) as [Hf2 HL2].
  destruct (@freevm_ok B quiet_ops quiet_laws kend {[Lptable]} Hkend (p_pgdir q) _ _ (conj Hf2 HL2) Hus1)
    as (k2 & T & Hr2 & [Hf3 HL3] & Hk2 & HT & _).
  destruct (onk_run kend _ _ t1 s1 tt k2 _ Hr2 Hk2 (conj Hf3 HL3)) as (x2 & Hrun2 & Hx2 & Hsr2).
  set (s2 := kput k2 s1) in *. set (t2 := upd p reaped (set_mch x2 t)).
  destruct (unlock_ok t2 s2 Hx2) as (m & Hr3 & Hm). exists m, s2, T. split_and!; [|done|by etrans|done| |done|done].
  - unfold reap. onp_step (getp_ok t p q Hq). etransitivity; [apply (bind_ok _ _ _ _ _ Hrun1)|].
    rewrite setp_step by done. fold t1. etransitivity; [apply (bind_ok _ _ _ _ _ Hrun2)|].
    rewrite !setp_step by (cbn; by rewrite ?length_alter). rewrite !upd_upd.
    replace (upd p _ (set_mch x2 t1)) with t2; [by rewrite (bind_ok _ _ _ _ _ Hr3)|].
    unfold t1. change (set_mch x2 (upd p ?f (set_mch x1 t))) with (upd p f (set_mch x2 t)). by rewrite upd_upd.
  - intros x. rewrite <- Ho1. apply HT.
Qed.

(** ** Finding the child *)

Definition zombie_child (me : nat) q : Prop := p_parent q = Some me ∧ p_state q = ZOMBIE.

Lemma wait_scan_ok me p q pid t s s' l2 : ∀ l1 hk,
  (∀ y, y ∈ l1 → ∃ r, procs t !! y = Some r ∧ ¬ zombie_child me r) →
  procs t !! p = Some q → zombie_child me q → reap kend p (pput t s) = Ok pid s' →
  wait_scan kend me (l1 ++ p :: l2) hk (pput t s) = Ok (true, Some pid) s'.
Proof.
  induction l1 as [|y l1 IH]; intros hk Hl Hq [Hp Hz] Hr; cbn [app wait_scan].
  - onp_step (getp_ok t p q Hq). rewrite !decide_True by done. by rewrite (bind_ok _ _ _ _ _ Hr).
  - destruct (Hl y) as (r & Hy & Hn); [list_in|]. onp_step (getp_ok t y r Hy).
    assert (∀ y, y ∈ l1 → ∃ r, procs t !! y = Some r ∧ ¬ zombie_child me r) as Hl' by (intros; apply Hl; list_in).
    destruct (decide (p_parent r = Some me)); [|by apply IH].
    destruct (decide (p_state r = ZOMBIE)); [by destruct Hn|by apply IH].
Qed.

(** What [wait] needs to return at once: [p] is the first child that has ended. *)
Record wait_ready s Q F me p q Fp : Prop := Wait_ready {
  wr_queues : queues_ok None (pof s) Q F;
  wr_locks : holds ∅ (mch (pof s));
  wr_self : curproc (pof s) = Some me;
  wr_proc : procs (pof s) !! p = Some q;
  wr_child : zombie_child me q;
  wr_first : ∀ y r, (y < p)%nat → procs (pof s) !! y = Some r → ¬ zombie_child me r;
  wr_memory : zombie_ok s q Fp
}.

Lemma wait_ok s Q F me p q Fp :
  wait_ready s Q F me p q Fp →
  ∃ s' T, wait kend retries s = Ok (p_pid q) s' ∧
    queues_ok None (pof s') Q F ∧ p ∉ F ++ concat Q ∧ holds ∅ (mch (pof s')) ∧
    procs (pof s') = alter reaped p (procs (pof s)) ∧ rest (set_mch (mch (pof s)) (pof s')) = rest (pof s) ∧
    free_ok kend (kof s') (T ++ p_kstack q :: Fp) ∧ (∀ x, x ∈ T ↔ owned (memory (kof s)) (p_pgdir q) x) ∧
    files s' = files s ∧ inodes (fbase s') = inodes (fbase s) ∧ same_rest s s'.
Proof.
  intros [HI HL Hc Hq Hz Hfirst Hm]. set (t := pof s) in *. assert (pput t s = s) as Hts by apply pput_pof.
  destruct (lock_ok t s HL) as (m1 & Hr1 & Hm1). set (t1 := set_mch m1 t) in *.
  destruct (reap_ok t1 s p q Fp Hq Hm1 Hm) as (m2 & s' & T & Hr2 & Hm2 & Hsr & Hf & HT & Hfi & Hin).
  assert (p < NPROC)%nat as Hlt.
  { rewrite <- (lo_procs _ _ _ (qo_lists _ _ _ _ HI)). by eapply lookup_lt_Some. }
  destruct (queues_ok_off t Q F p reaped q HI Hq) as [HI2 Hoff]; try (by destruct Hz as [_ ->] || done).
  { exact (qo_prio _ _ _ _ HI _ _ _ (lookup_status _ _ _ Hq)). }
  exists (pput (set_mch m2 (upd p reaped t1)) s'), T. rewrite !pof_pput. split_and!; try done.
  - unfold wait. rewrite Hts in Hr1. rewrite (bind_ok _ _ _ _ _ Hr1). apply (while_ok _ _ _ _ (inr (p_pid q)) (pput (set_mch m2 (upd p reaped t1)) s')).
    unfold wait_step. onp_step (myproc_ok t1 me Hc). rewrite (seq_split NPROC p Hlt).
    rewrite (bind_ok _ _ _ (true, Some (p_pid q)) (pput (set_mch m2 (upd p reaped t1)) s')); [done|].
    eapply wait_scan_ok; [|exact Hq|done|done]. intros y [_ Hy]%elem_of_seq.
    destruct (lookup_lt_is_Some_2 (procs t) y) as [r Hr]; [rewrite (lo_procs _ _ _ (qo_lists _ _ _ _ HI)); lia|].
    exists r. split; [done|]. by apply (Hfirst y).
  - by apply (queues_ok_ext None (upd p reaped t)).
  - by apply free_ok_pput.
  - etrans; [exact Hsr|apply pput_rest].
Qed.
End wait.
