(* ===== verification/ProcProps.v ===== *)
(** * Properties of the life of a process

    The claims about [fork] and [wait]. *)
From S2P Require Import Prelude Spinlock Str Ptable PtableLists Sched Choice Scheduling Services Kalloc BioRing Bio DiskFmt Log Fs FsProps File Vm VmFacts VmSpace VmUser VmCopy VmExample ProcLife Layers ForkFacts WaitFacts.

(** C3: [fork] returns the new process id to the parent.  The child is the first
    slot of the free list, at the end of the ready list of the default priority;
    its fields are the parent's, but for its id, its parent, its stack, its page
    table and the 0 it will see [fork] return; its memory is a copy of the
    parent's in pages of its own, which were free; each open file and the
    directory have one more reference for each use.  Every other process and all
    else is as it was, and no lock is held.  It succeeds whenever there are a free
    slot and enough free pages: one for the stack, a page directory with all
    page tables, and the pages of the process. *)
Theorem fork_clones {B} {O : KOps B} {PL : Lens B pst} {LO : LensOk B pst} {TL : TableLocks B}
    kend kdata trapret forkret_addr (s : vst B) Q np F q0 me q Fp c ip nm :
  KERNBASE < kend → kdata_ok kdata → fork_ready kend s Q np F q0 me q Fp c ip nm → (1026 + npages (p_sz q) < length Fp)%nat →
  ∃ s' v d F', fork kend kdata trapret forkret_addr s = Ok (nextpid (pof s)) s' ∧
    forked kend kdata forkret_addr s s' Q np F me q Fp c v d nm F'.
Proof. intros Hk Hd. by apply fork_ok. Qed.

Lemma sys1_fork : fork_ready OnePage.kend sys1 Table.queues 7 (seq 8 56) (Table.free_slot 7) 0 caller1 OnePage.F 0 ip_idle
  (cstring "sh" ++ replicate 13 0).
Proof.
  split.
  - exact OnePage.tbl_queues.
  - exact mach0_holds.
  - reflexivity.
  - reflexivity.
  - reflexivity.
  - reflexivity.
  - reflexivity.
  - apply OnePage.st_ok.
  - exact OnePage.st_us.
  - unfold KERNBASE. cbn. lia.
  - intros va Hva. apply OnePage.st_mapped. cbn in Hva. lia.
  - reflexivity.
  - intros i Hi. change (p_ofile caller1) with (Some 0%nat :: replicate 15 None) in Hi. apply elem_of_cons in Hi as [Hi|Hi].
    + injection Hi as ->. eexists. split; [reflexivity|]. cbn. lia.
    + by apply elem_of_replicate in Hi as [Hi _].
  - reflexivity.
  - reflexivity.
  - vm_compute. reflexivity.
Qed.

Lemma fork_clones_witness :
  ∃ s', fork OnePage.kend OnePage.kdata 0x80105000 0x80104000 sys1 = Ok 8 s' ∧
    (∃ n r, procs (pof s') !! 7%nat = Some (set_p_next n r) ∧ p_state r = RUNNABLE ∧ tf_eax (p_frame r) = 0 ∧ p_sz r = 100).
Proof.
  destruct (fork_clones OnePage.kend OnePage.kdata 0x80105000 0x80104000 sys1 Table.queues 7 (seq 8 56) (Table.free_slot 7) 0 caller1
    OnePage.F 0 ip_idle (cstring "sh" ++ replicate 13 0)) as (s' & v & d & F' & Hr & Hf).
  - unfold OnePage.kend, KERNBASE. lia.
  - split; [reflexivity|]. unfold OnePage.kdata, KERNLINK, KERNBASE, EXTMEM, PHYSTOP. lia.
  - exact sys1_fork.
  - apply Nat.ltb_lt. vm_compute. reflexivity.
  - exists s'. split; [exact Hr|].
    destruct (erase_lookup _ _ 7%nat _ (fk_procs _ _ _ _ _ _ _ _ _ _ _ _ _ _ _ _ Hf) eq_refl) as [n Hn].
    eexists n, _. split; [exact Hn|]. split; [reflexivity|]. split; reflexivity.
Defined.

(** C30: [wait] returns the process id of the first child that has ended, frees its
    stack and exactly the pages of its address space, and changes nothing else
    but the child's slot.  That slot becomes UNUSED, but the free list does not
    get it back: it is on no list, so [allocproc] never finds it again. *)
Theorem wait_loses_slot {B} {O : KOps B} {PL : Lens B pst} {LO : LensOk B pst} {TL : TableLocks B}
    kend retries (s : vst B) Q F me p q Fp :
  KERNBASE < kend → wait_ready kend s Q F me p q Fp →
  ∃ s' T, wait kend retries s = Ok (p_pid q) s' ∧
    queues_ok None (pof s') Q F ∧ p ∉ F ++ concat Q ∧ holds ∅ (mch (pof s')) ∧
    procs (pof s') = alter reaped p (procs (pof s)) ∧ rest (set_mch (mch (pof s)) (pof s')) = rest (pof s) ∧
    free_ok kend (kof s') (T ++ p_kstack q :: Fp) ∧ (∀ x, x ∈ T ↔ owned (memory (kof s)) (p_pgdir q) x) ∧
    files s' = files s ∧ inodes (fbase s') = inodes (fbase s) ∧ same_rest s s'.
Proof. intros Hk Hr. by apply (wait_ok kend retries Hk s Q F me p q Fp). Qed.

(** The process 7 of [sys1] has ended; its address space is the one of the example. *)
Definition ended (q : proc) : proc := set_p_pgdir OnePage.pgdir (set_p_kstack 0x80403000 q).
Definition sys3 : vst pst := pput (set_procs (alter ended 6%nat (procs (pof sys1))) (pof sys1)) sys1.

Lemma sys3_wait : wait_ready OnePage.kend sys3 Table.queues Table.frees 0 6 (ended (Table.mk ZOMBIE 7 1 None None)) OnePage.F.
Proof.
  split; unfold sys3; rewrite ?pof_pput.
  - apply queues_okb_sound. vm_compute. reflexivity.
  - exact mach0_holds.
  - reflexivity.
  - reflexivity.
  - split; reflexivity.
  - intros y r Hy Hr [_ Hz]. revert Hr Hz. do 6 (destruct y as [|y]; [intros [= <-]; discriminate|]). lia.
  - split.
    + apply free_ok_pput. apply OnePage.st_ok.
    + rewrite kof_memory. exact OnePage.st_us.
    + rewrite kof_memory. split_and!.
      * unfold page, OnePage.kend, PGSIZE, KERNBASE, PHYSTOP. cbn [p_kstack ended set_p_pgdir set_p_kstack]. split; [reflexivity|lia].
      * intros Hin%elem_of_pages. cbn in Hin. lia.
      * intros [[Hd|(d & Hd & E)]|(va & Hva & Hu)]; [discriminate Hd| |].
        -- destruct OnePage.space_pt as (_ & Ht & _). pose proof (eq_trans (eq_sym E) (Ht d Hd)) as E'.
           destruct (decide (d = 0)); [|discriminate E']. injection E'. discriminate.
        -- pose proof (eq_trans (eq_sym Hu) (OnePage.space_upage va)) as E.
           destruct (decide (pg va = 0)); [|discriminate E]. injection E. discriminate.
Qed.

Lemma wait_loses_slot_witness :
  ∃ s', wait OnePage.kend 0 sys3 = Ok 7 s' ∧ freeList (pof s') = freeList (pof sys3) ∧ status (procs (pof s')) 6%nat = Some (UNUSED, 1).
Proof.
  destruct (wait_loses_slot OnePage.kend 0 sys3 Table.queues Table.frees 0 6 (ended (Table.mk ZOMBIE 7 1 None None)) OnePage.F)
    as (s' & T & Hr & Hq & _ & _ & Hp & _).
  - unfold OnePage.kend, KERNBASE. lia.
  - exact sys3_wait.
  - exists s'. split; [exact Hr|]. split.
    + destruct (lo_free _ _ _ (qo_lists _ _ _ _ Hq)) as [-> _]. reflexivity.
    + rewrite Hp. reflexivity.
Defined.
