(* ===== verification/UserInit.v ===== *)
(** * The first process

    [userinit], which [main] calls last: the free list is built, the first slot is
    taken from it and gets a stack, the kernel's page table with one page of user
    memory that holds the first program, and the root directory, and is queued to
    run. *)
From S2P Require Import Prelude Spinlock Str Ptable PtableLists Sched Choice Scheduling Services Kalloc BioRing Bio BioProps DiskFmt Log LogProps Fs FsProps FsRead File Vm VmFacts VmSpace VmUser VmCopy VmExample ProcLife Layers ForkFacts.

(** ** The free list *)

(** The slot in front of [i]. *)
Definition pred_slot (i : nat) : option nat := match i with O => None | S j => Some j end.

(** What [initFreeList] makes of a slot. *)
Definition linked (i : nat) (q : proc) : proc := set_p_priority DEFAULTPRIO (set_p_next (pred_slot i) q).

Definition link_slot (p : nat) : K pst unit :=
  q ← getp p;
  (if decide (p_state q = UNUSED) then
     h ← gets freeList;
     setp p (set_p_next h);;
     modify (set_freeList (Some p))
   else mret tt);;
  setp p (set_p_priority DEFAULTPRIO).

Lemma link_slot_ok k t q : procs t !! k = Some q → p_state q = UNUSED → freeList t = pred_slot k →
  link_slot k t = Ok tt (set_freeList (Some k) (upd k (linked k) t)).
Proof.
  intros Hq Hu Hf. assert (k < length (procs t))%nat as Hlt by (by eapply lookup_lt_Some).
  unfold link_slot. rewrite (bind_ok _ _ _ _ _ (getp_ok t k q Hq)), decide_True by done.
  rewrite (bind_ok _ _ t tt (set_freeList (Some k) (upd k (set_p_next (pred_slot k)) t))).
  - rewrite setp_ok by (cbn; by rewrite length_alter). do 2 f_equal.
    change (set_freeList (Some k) (upd k (set_p_priority DEFAULTPRIO) (upd k (set_p_next (pred_slot k)) t)) = set_freeList (Some k) (upd k (linked k) t)).
    by rewrite upd_upd.
  - rewrite (bind_ok _ _ _ _ _ (gets_ok freeList t)), Hf. by rewrite (bind_ok _ _ _ _ _ (setp_ok t k _ Hlt)).
Qed.

Lemma link_slots n : ∀ k t, (∀ i, (k ≤ i < k + n)%nat → ∃ q, procs t !! i = Some q ∧ p_state q = UNUSED) → freeList t = pred_slot k →
  ∃ t', for_each (seq k n) link_slot t = Ok tt t' ∧ freeList t' = pred_slot (k + n) ∧ readyList t' = readyList t ∧ rest t' = rest t ∧
    ∀ i, procs t' !! i = (if decide (k ≤ i < k + n)%nat then linked i else id) <$> procs t !! i.
Proof.
  induction n as [|n IH]; intros k t Hu Hf.
  { exists t. split_and!; [done|by rewrite Nat.add_0_r|done|done|]. intros i. rewrite decide_False by lia. by destruct (procs t !! i). }
  destruct (Hu k) as (q & Hq & Hqu); [lia|]. cbn [seq for_each]. rewrite (bind_ok _ _ _ _ _ (link_slot_ok k t q Hq Hqu Hf)).
  set (t1 := set_freeList _ _). 
  assert (∀ i, i ≠ k → procs t1 !! i = procs t !! i) as Hoth by (intros i Hi; by apply (upd_other k i (linked k) t)).
  destruct (IH (S k) t1) as (t' & Hr & Hf' & Hrl & Hrest & Hp); [|done|].
  { intros i Hi. rewrite Hoth by lia. apply Hu. lia. }
  exists t'. split_and!; [done|by rewrite Nat.add_succ_r|by rewrite Hrl|by rewrite Hrest|]. intros i. rewrite Hp.
  destruct (decide (i = k)) as [->|].
  - rewrite decide_False, decide_True by lia. change (procs t1) with (procs (upd k (linked k) t)).
    by rewrite (upd_lookup k (linked k) t q Hq), Hq.
  - rewrite Hoth by done. repeat case_decide; done || lia.
Qed.

Lemma linked_chain ps n : (∀ i, (i < n)%nat → ∃ q, ps !! i = Some (linked i q)) → chain ps (pred_slot n) (reverse (seq 0 n)).
Proof.
  induction n as [|n IH]; intros Hp; [done|]. rewrite seq_S, reverse_app. cbn [reverse rev_append app]. split; [done|].
  destruct (Hp n) as [q Hq]; [lia|]. exists (linked n q). split; [done|]. apply IH. intros i Hi. apply Hp. lia.
Qed.

(** No process yet: every slot is free and no list holds one. *)
Record fresh_table (t : pst) : Prop := Fresh_table {
  ft_slots : length (procs t) = NPROC;
  ft_unused : Forall (λ q, p_state q = UNUSED) (procs t);
  ft_ready : readyList t = [None; None; None]
}.

Definition all_slots : list nat := reverse (seq 0 NPROC).

Lemma initFreeList_ok t : fresh_table t →
  ∃ t', initFreeList t = Ok tt t' ∧ queues_ok None t' [[]; []; []] all_slots ∧ readyList t' = readyList t ∧ rest t' = rest t ∧
    procs t' = imap linked (procs t).
Proof.
  intros [Hlen Hun Hrl]. rewrite Forall_lookup in Hun.
  destruct (link_slots NPROC 0 (set_freeList None t)) as (t' & Hr & Hf & Hrl' & Hrest & Hp); [|done|].
  { intros i Hi. destruct (lookup_lt_is_Some_2 (procs t) i) as [q Hq]; [lia|]. exists q. split; [done|by eapply Hun]. }
  assert (∀ i, procs t' !! i = linked i <$> procs t !! i) as Hp'.
  { intros i. rewrite Hp. change (procs (set_freeList None t)) with (procs t). case_decide; [done|].
    rewrite lookup_ge_None_2; [done|]. lia. }
  assert (procs t' = imap linked (procs t)) as Himap by (apply list_eq; intros i; by rewrite Hp', list_lookup_imap).
  assert (∀ x st pr, status (procs t') x = Some (st, pr) → st = UNUSED ∧ pr = DEFAULTPRIO) as Hst.
  { intros x st pr. unfold status. rewrite Hp'. destruct (procs t !! x) as [q|] eqn:Hq; [|done]. cbn. intros [= <- <-].
    split; [by eapply Hun|done]. }
  exists t'. split_and!; [|split|done|done|done].
  - unfold initFreeList. rewrite (bind_ok _ _ _ _ _ (modify_ok _ _)). exact Hr.
  - split; [| | | |].
    + by rewrite Himap, length_imap.
    + done.
    + rewrite Hrl'. change (readyList (set_freeList None t)) with (readyList t). rewrite Hrl. by repeat constructor.
    + rewrite Hf. apply linked_chain. intros i Hi. rewrite Hp'.
      destruct (lookup_lt_is_Some_2 (procs t) i) as [q Hq]; [lia|]. rewrite Hq. eauto.
    + cbn [concat app]. rewrite app_nil_r. unfold all_slots. rewrite reverse_Permutation. apply NoDup_seq.
  - intros i l x Hl Hx. do 3 (destruct i as [|i]; [injection Hl as <-; by apply not_elem_of_nil in Hx|]). done.
  - intros x pr Hx. by destruct (Hst _ _ _ Hx).
  - intros x Hx. apply elem_of_reverse, elem_of_seq in Hx. unfold status. rewrite Hp'.
    destruct (lookup_lt_is_Some_2 (procs t) x) as [q Hq]; [lia|]. rewrite Hq. cbn. exists DEFAULTPRIO. by rewrite (Hun _ _ Hq).
  - intros x st pr Hx. destruct (Hst _ _ _ Hx) as [_ ->]. done.
Qed.

(** ** The first program's page *)

Lemma write_bytes_spec l : ∀ m a x, write_bytes m a l x =
  if inrange a (Z.of_nat (length l)) x then default 0 (l !! Z.to_nat (x - a)) else m x.
Proof.
  induction l as [|c l IH]; intros m a x; cbn [write_bytes length].
  { unfold inrange. by zcases; try lia. }
  rewrite IH. unfold inrange, mwrite. zcases; try lia; try done.
  - by replace (Z.to_nat (x - a)) with (S (Z.to_nat (x - (a + 1)))) by lia.
  - subst x. by rewrite Z.sub_diag.
Qed.

Section first_page.
Context {B : Type} {O : KOps B} {W : KLaws B} (kend : Z) (L : gset lockid).
Implicit Types (s : kst B) (F : list Z) (m : mem).

(** The address space [pgdir] holds one page, [u], at address 0, which a program may
    write, and that page the bytes [init] and zeros. *)
Record one_page m (pgdir u : Z) (init : list Z) : Prop := One_page {
  op_entry : ∀ va, 0 ≤ va < KERNBASE → pte_at m pgdir va = if decide (pg va = 0) then v2p u + Z.lor (Z.lor PTE_W PTE_U) PTE_P else 0;
  op_bytes : ∀ i, 0 ≤ i < PGSIZE → m (u + i) = default 0 (init !! Z.to_nat i)
}.

Lemma first_entry u : page kend u → let w := u32 (Z.lor (Z.lor (v2p u) (Z.lor PTE_W PTE_U)) PTE_P) in
  w = v2p u + Z.lor (Z.lor PTE_W PTE_U) PTE_P ∧ hasbit w PTE_P = true ∧ p2v (PTE_ADDR w) = u.
Proof.
  intros Hu. destruct (v2p_page kend u Hu) as [Hr Hm]. cbv zeta. rewrite <- Z.lor_assoc.
  destruct (entry_eq (v2p u) (Z.lor (Z.lor PTE_W PTE_U) PTE_P) Hm) as (E1 & E2 & E3); [unfold PHYSTOP in *; lia|done|].
  split_and!; [done| |].
  - rewrite hasbit_u32 by (unfold PTE_P; lia). by rewrite hasbit_lor, orb_true_r.
  - rewrite PTE_ADDR_u32, E2. by eapply p2v_v2p.
Qed.

(** An entry for one page more in an address space without pages. *)
Lemma first_mapping s F s' F' pgdir u w :
  us_ok kend (memory s) pgdir F → step kend L pgdir F s F' s' → page kend u → u ∉ F → ¬ owned (memory s) pgdir u →
  hasbit w PTE_P = true → p2v (PTE_ADDR w) = u → (∀ va, 0 ≤ va < KERNBASE → pte_at (memory s) pgdir va = 0) →
  (∀ va, pte_at (memory s') pgdir va = if decide (pg va = 0) then w else pte_at (memory s) pgdir va) →
  us_ok kend (memory s') pgdir F'.
Proof.
  intros Hus [S1 S2 [T S3] S4 S5 S6] Hu HuF Huo Hw1 Hw2 Hz Hpte.
  assert (∀ va, 0 ≤ va < KERNBASE → upage (memory s') pgdir va = if decide (pg va = 0) then Some u else None) as Hup.
  { intros va Hva. unfold upage. cbv zeta. rewrite Hpte. case_decide; [by rewrite Hw1, Hw2|by rewrite Hz]. }
  split; [done| |].
  - intros va q Hva. rewrite Hup by done. case_decide; [|done]. intros [= <-]. split_and!; [done| |].
    + intros Hin. apply HuF. rewrite S3. list_in.
    + intros [?|?]%S5; [apply Huo; by left|done].
  - intros va va' q Hva Hva'. rewrite !Hup by done. repeat case_decide; congruence.
Qed.

(** [mappages] for the first page: there are pages enough for its table. *)
Lemma first_map s F pgdir u :
  mem_ok kend L s F → us_ok kend (memory s) pgdir F → page kend u → u ∉ F → ¬ owned (memory s) pgdir u →
  (∀ va, 0 ≤ va < KERNBASE → pte_at (memory s) pgdir va = 0) → (1025 < length F)%nat →
  ∃ s' F', mappages pgdir 0 PGSIZE (v2p u) (Z.lor PTE_W PTE_U) s = Ok 0 s' ∧ step kend L pgdir F s F' s' ∧
    us_ok kend (memory s') pgdir F' ∧
    ∀ va, pte_at (memory s') pgdir va =
      if decide (pg va = 0) then v2p u + Z.lor (Z.lor PTE_W PTE_U) PTE_P else pte_at (memory s) pgdir va.
Proof.
  intros Hok Hus Hu HuF Huo Hz HF. destruct (v2p_page kend u Hu) as [Hr _]. destruct (first_entry u Hu) as (He & Hb & Ha).
  destruct (mappages_page kend L pgdir 0 (v2p u) (Z.lor PTE_W PTE_U) s F) as (s' & F' & r & Hrun & Hst & Hres);
    [done|apply Hus|done|done|done|unfold PHYSTOP in *; lia|rewrite Hz; [done|done]|].
  destruct Hres as [[-> Hpte]|(_ & -> & _)].
  - exists s', F'. split_and!; [done|done| |by rewrite <- He]. by eapply first_mapping.
  - assert (length F ≤ length (table_pages (memory s') pgdir))%nat as Hle; [|unfold table_pages in Hle; cbn [length] in Hle; rewrite length_map, length_seq in Hle; lia].
    apply taken_le; [apply Hok|]. intros p Hp. apply table_pages_in.
    destruct (st_taken _ _ _ _ _ _ _ Hst p Hp) as [[]%not_elem_of_nil|]. done.
Qed.

(** Writing in a page that does not belong to the address space changes nothing of
    it. *)
Lemma write_outside s F pgdir u m :
  mem_ok kend L s F → us_ok kend (memory s) pgdir F → page kend u → u ∉ F → ¬ pt_page (memory s) pgdir u →
  (∀ x, inrange u PGSIZE x = false → m x = memory s x) →
  mem_ok kend L (set_memory m s) F ∧ us_ok kend m pgdir F ∧ (∀ va, pte_at m pgdir va = pte_at (memory s) pgdir va) ∧
  (∀ p, pt_page m pgdir p ↔ pt_page (memory s) pgdir p).
Proof.
  intros Hok Hus Hu HuF Hun Hm.
  assert (∀ p x, pt_page (memory s) pgdir p → inrange p PGSIZE x = true → m x = memory s x) as Hext.
  { intros p x Hp Hx. destruct (owned_page kend _ _ _ p Hus) as [Hpp _]; [by left|].
    apply Hm, (page_disjoint kend p u x); [done|done|congruence|done]. }
  destruct (pt_ext _ _ _ Hext) as [Ht Hpte]. split_and!; [by apply (mem_ok_write kend L s F u)|by eapply us_ext|done|].
  intros p. by apply pt_page_ext.
Qed.

Lemma inituvm_ok pgdir init s F :
  mem_ok kend L s F → us_ok kend (memory s) pgdir F → (∀ va, 0 ≤ va < KERNBASE → pte_at (memory s) pgdir va = 0) →
  Z.of_nat (length init) < PGSIZE → (1026 < length F)%nat →
  ∃ s' F' u, inituvm pgdir init (Z.of_nat (length init)) s = Ok tt s' ∧ kst_keep s s' ∧ mem_ok kend L s' F' ∧
    us_ok kend (memory s') pgdir F' ∧ (∀ p, p ∈ F' → p ∈ F) ∧ u ∈ F ∧ one_page (memory s') pgdir u init ∧
    (∀ va, KERNBASE ≤ va < 2 ^ 32 → pte_at (memory s') pgdir va = pte_at (memory s) pgdir va) ∧
    (∀ p, owned (memory s') pgdir p → owned (memory s) pgdir p ∨ p ∈ F) ∧
    (∀ p x, page kend p → ¬ owned (memory s) pgdir p → p ∉ F → inrange p PGSIZE x = true → memory s' x = memory s x).
Proof.
  intros [Hf HL] Hus Hz Hlen HF. destruct (kalloc_ok kend L s F Hf HL) as (s1 & Hr & Hf1 & Hm1 & HL1 & Hk1).
  unfold inituvm, panic_if. destruct (Z.geb_spec (Z.of_nat (length init)) PGSIZE); [lia|]. rewrite (bind_ok _ _ s tt s) by done.
  rewrite (bind_ok _ _ _ _ _ Hr). destruct F as [|u F]; [cbn in HF; lia|]. cbn [head tail default] in *; cbv delta [id] beta in Hr |- *.
  pose proof (fo_page _ _ _ Hf) as HFp. rewrite Forall_cons in HFp. destruct HFp as [Hup _].
  pose proof (fo_nodup _ _ _ Hf) as Hnd. rewrite NoDup_cons in Hnd. destruct Hnd as [HuF Hnd].
  pose proof (page_range _ _ Hup). destruct (Z.eqb_spec u 0); [unfold KERNBASE in *; lia|]. rewrite (bind_ok _ _ s1 tt s1) by done.
  unfold fillm. rewrite (bind_ok _ _ _ _ _ (modify_ok _ _)), Hm1. cbv beta.
  set (m1 := memset (memory s) u 0 PGSIZE). set (s2 := set_memory m1 s1).
  assert (∀ x, inrange u PGSIZE x = false → m1 x = memory s x) as Hm1'.
  { intros x Hx. unfold m1. rewrite memset_spec by (unfold PGSIZE; lia). by rewrite Hx. }
  assert (¬ owned (memory s) pgdir u) as Huo by (apply (free_unowned kend _ _ _ u Hus), list_elem_of_here).
  assert (us_ok kend (memory s1) pgdir F) as Hus1 by (rewrite Hm1; eapply us_ext; [done|done|]; intros p; list_in).
  destruct (write_outside s1 F pgdir u m1 (conj Hf1 HL1) Hus1 Hup HuF) as (Hok2 & Hus2 & Hpte2 & Hpt2); [rewrite Hm1; intros ?; apply Huo; by left|by rewrite Hm1|].
  rewrite Hm1 in Hpte2, Hpt2. fold s2 in Hok2.
  destruct (first_map s2 F pgdir u Hok2 Hus2 Hup HuF) as (s3 & F3 & Hr3 & Hst3 & Hus3 & Hpte3).
  { intros [Hp|(va & Hva & Hp)]; apply Huo; [left; by apply Hpt2|right]. exists va. split; [done|]. by rewrite <- (upage_same _ _ _ _ (Hpte2 va)). }
  { intros va Hva. change (memory s2) with m1. rewrite Hpte2. by apply Hz. }
  { cbn in HF. lia. }
  rewrite (bind_ok _ _ _ _ _ Hr3). rewrite Nat2Z.id, firstn_all. set (m4 := write_bytes (memory s3) u init).
  assert (¬ pt_page (memory s3) pgdir u) as Hun3.
  { intros [?%Hpt2|?]%(st_pages _ _ _ _ _ _ _ Hst3); [apply Huo; by left|done]. }
  assert (u ∉ F3) as HuF3.
  { destruct (st_suffix _ _ _ _ _ _ _ Hst3) as [T HT]. intros Hin. apply HuF. rewrite HT. list_in. }
  destruct (write_outside s3 F3 pgdir u m4 (st_ok _ _ _ _ _ _ _ Hst3) Hus3 Hup HuF3 Hun3) as (Hok4 & Hus4 & Hpte4 & Hpt4).
  { intros x Hx. unfold m4. rewrite write_bytes_spec. revert Hx. unfold inrange. by zcases; try lia. }
  exists (set_memory m4 s3), F3, u. change (memory s2) with m1 in *.
  assert (∀ va, pte_at m4 pgdir va = if decide (pg va = 0) then v2p u + Z.lor (Z.lor PTE_W PTE_U) PTE_P else pte_at (memory s) pgdir va) as Hpte.
  { intros va. by rewrite Hpte4, Hpte3, Hpte2. }
  split_and!; [done| |done|done| |apply list_elem_of_here| | | |].
  - exact (keep_trans s s1 s3 Hk1 (st_keep _ _ _ _ _ _ _ Hst3)).
  - destruct (st_suffix _ _ _ _ _ _ _ Hst3) as [T HT]. intros p Hp. rewrite HT. list_in.
  - split; [intros va Hva; cbn; rewrite Hpte; by rewrite Hz|]. intros i Hi. cbn. unfold m4. rewrite write_bytes_spec.
    replace (u + i - u) with i by lia. destruct (inrange u _ (u + i)) eqn:Hin; [done|].
    rewrite lookup_ge_None_2 by (revert Hin; unfold inrange; zcases; try done; lia).
    rewrite (st_out _ _ _ _ _ _ _ Hst3 u); [|done|intros ?%Hpt2; apply Huo; by left|done|unfold inrange; zcases; try done; lia].
    cbn. unfold m1. rewrite memset_spec by (unfold PGSIZE; lia). by destruct (inrange u PGSIZE (u + i)) eqn:E; [|revert E; unfold inrange; zcases; try done; lia].
  - intros va Hva. cbn. rewrite Hpte, decide_False; [done|]. unfold pg. rewrite u32_small by (unfold KERNBASE in *; lia).
    unfold KERNBASE in *. Z.to_euclidean_division_equations; lia.
  - intros p [[Hp%Hpt2|Hp]%Hpt4%(st_pages _ _ _ _ _ _ _ Hst3)|(va & Hva & Hp)]; [left; by left|right; list_in|right].
    revert Hp. unfold upage. cbv zeta. cbn [memory set_memory]. rewrite Hpte, Hz by done. case_decide; [|done].
    destruct (first_entry u Hup) as (<- & -> & ->). intros [= <-]. apply list_elem_of_here.
  - intros p x Hp Hpo HpF Hx. rewrite not_elem_of_cons in HpF. destruct HpF as [Hpu HpF]. cbn. unfold m4. rewrite write_bytes_spec.
    assert (inrange u PGSIZE x = false) as Hxu by (apply (page_disjoint kend p u x); done).
    destruct (inrange u (Z.of_nat (length init)) x) eqn:Hin; [revert Hxu Hin; unfold inrange; zcases; try done; lia|].
    rewrite (st_out _ _ _ _ _ _ _ Hst3 p x Hp); [exact (Hm1' x Hxu)|intros ?%Hpt2; apply Hpo; by left|done|done].
Qed.
End first_page.

(** ** The root directory *)

(** The entry of the root directory in an unused slot of the inode cache. *)
Definition root_inode (ip : inode) : inode := set_i_flags 0 (set_i_ref 1 (set_i_inum ROOTINO (set_i_dev ROOTDEV ip))).

Lemma iget_scan_unused l k dev inum e : Forall (λ ip, i_ref ip = 0) l →
  iget_scan l k dev inum e = inr (match e, l with Some i, _ => Some i | None, [] => None | None, _ => Some k end).
Proof.
  intros Hl. revert k e. induction Hl as [|ip l Hip Hl IH]; intros k e; [by destruct e|]. cbn. rewrite Hip. cbn. rewrite IH.
  by destruct e.
Qed.

Section root.
Context {B : Type} {O : KOps B} {PL : Lens B pst} {LO : LensOk B pst} {TL : TableLocks B}.
Implicit Types (s : vst B) (t : pst).

Lemma seti_step {A} c f ip t s (k : K (ist (kst B)) A) : inodes (fbase s) !! c = Some ip →
  (seti c f;; k) (fbase (pput t s)) = k (fbase (pput t (with_inodes (alter f c (inodes (fbase s))) s))).
Proof.
  intros Hip. rewrite (bind_ok _ _ _ tt (fbase (pput t (with_inodes (alter f c (inodes (fbase s))) s)))); [done|].
  unfold seti. change (inodes (fbase (pput t s))) with (inodes (fbase s)). rewrite Hip. by rewrite (alter_insert f c _ ip Hip).
Qed.

Lemma namei_root retries dev_read ip l t s :
  inodes (fbase s) = ip :: l → Forall (λ ip, i_ref ip = 0) (ip :: l) → holds ∅ (mch t) →
  ∃ m, oni (namei retries dev_read root_path) (pput t s) =
    Ok (Some 0%nat) (pput (set_mch m t) (with_inodes (root_inode ip :: l) s)) ∧ holds ∅ m.
Proof.
  intros Hin Hun HL. destruct (fs_acquire ∅ Licache t s HL) as (m1 & H1 & Hm1); [apply not_elem_of_empty|].
  set (s2 := with_inodes (root_inode ip :: l) s).
  destruct (fs_release ({[Licache]} ∪ ∅) Licache (set_mch m1 t) s2 Hm1) as (m2 & H2 & Hm2); [set_solver|].
  exists m2. replace (({[Licache]} ∪ ∅) ∖ {[Licache]}) with (∅ : gset lockid) in Hm2 by set_solver. split; [|done].
  assert (iget ROOTDEV ROOTINO (fbase (pput t s)) = Ok 0%nat (fbase (pput (set_mch m2 t) s2))) as Hr.
  { unfold iget. rewrite (bind_ok _ _ _ _ _ H1). set (x := fbase _). rewrite (bind_ok get _ x x x) by done.
    change (inodes x) with (inodes (fbase s)). rewrite Hin, iget_scan_unused by done. unfold x. clear x.
    rewrite (seti_step 0 _ ip) by (by rewrite Hin). rewrite (seti_step 0 _ (set_i_dev ROOTDEV ip)) by (cbn; by rewrite Hin).
    rewrite (seti_step 0 _ (set_i_inum ROOTINO (set_i_dev ROOTDEV ip))) by (cbn; by rewrite Hin).
    rewrite (seti_step 0 _ (set_i_ref 1 (set_i_inum ROOTINO (set_i_dev ROOTDEV ip)))) by (cbn; by rewrite Hin).
    match goal with |- (_ ;; _) (fbase (pput _ ?y)) = _ => assert (y = s2) as -> end.
    { unfold s2, with_inodes. cbn. by rewrite Hin. }
    by rewrite (bind_ok _ _ _ _ _ H2). }
  unfold oni, lift. change (view (pput t s)) with (fbase (pput t s)). unfold namei, namex, root_path.
  cbn [Z.eqb slash]. change (47 =? slash) with true. cbv iota.
  rewrite (bind_ok _ _ _ (Some 0%nat, replicate DIRSIZ 0) (fbase (pput (set_mch m2 t) s2))); [done|].
  rewrite (bind_ok _ _ _ _ _ Hr). done.
Qed.
End root.

(** ** Queueing it *)

Section queue.
Context {B : Type} {O : KOps B} {PL : Lens B pst} {LO : LensOk B pst} {TL : TableLocks B}.
Implicit Types (s : vst B) (t : pst).

Lemma empty_ready t F : queues_ok None t [[]; []; []] F → readyList t = [None; None; None].
Proof.
  intros HI. pose proof (lo_ready _ _ _ (qo_lists _ _ _ _ HI)) as H.
  inversion H as [|h1 ? r1 ? H1 H1']; subst. inversion H1' as [|h2 ? r2 ? H2 H2']; subst. inversion H2' as [|h3 ? r3 ? H3 H3']; subst.
  inversion H3'. cbn in H1, H2, H3. congruence.
Qed.

Lemma clear_ready t s : readyList t = [None; None; None] → for_each [0; 1; 2] (λ i, onp (setReady i None)) (pput t s) = Ok tt (pput t s).
Proof.
  intros Hr. assert (∀ i, 0 ≤ i ≤ 2 → onp (setReady i None) (pput t s) = Ok tt (pput t s)) as H.
  { intros i Hi. apply onp_pput. unfold setReady. destruct (Z.ltb_spec i 0); [lia|].
    destruct t as [? ? rl]. cbn in Hr |- *. subst rl. assert (i = 0 ∨ i = 1 ∨ i = 2) as [->|[->| ->]] by lia; done. }
  cbn [for_each]. by rewrite (bind_ok _ _ _ _ _ (H 0 ltac:(lia))), (bind_ok _ _ _ _ _ (H 1 ltac:(lia))), (bind_ok _ _ _ _ _ (H 2 ltac:(lia))).
Qed.

Lemma queue_first t s F np pr q :
  queues_ok None t [[]; []; []] F → procs t !! np = Some q → p_state q = EMBRYO → p_priority q = Z.of_nat pr → holds ∅ (mch t) →
  ∃ t', (onp (setp np (set_p_state RUNNABLE));;
     lock_ptable;;
     for_each [0; 1; 2] (λ i, onp (setReady i None));;
     q ← onp (getp np);
     onp (putOnReadyList np (p_priority q));;
     unlock_ptable) (pput t s) = Ok tt (pput t' s) ∧
    queues_ok None t' (<[pr := [np]]> [[]; []; []]) F ∧ holds ∅ (mch t') ∧
    erase (procs t') = erase (alter (set_p_state RUNNABLE) np (procs t)) ∧
    rest (set_mch (mch t) t') = rest t.
Proof.
  intros HI Hq Hst Hpr HL. assert (np < length (procs t))%nat as Hlt by (by eapply lookup_lt_Some).
  rewrite setp_step by done. destruct (lock_ok (upd np (set_p_state RUNNABLE) t) s HL) as (m1 & Hr1 & Hm1). rewrite (bind_ok _ _ _ _ _ Hr1).
  set (t1 := set_mch m1 t). assert (queues_ok None t1 [[]; []; []] F) as HI1 by (by apply (queues_ok_ext None t)).
  change (set_mch m1 (upd np (set_p_state RUNNABLE) t)) with (upd np (set_p_state RUNNABLE) t1).
  rewrite (bind_ok _ _ _ _ _ (clear_ready (upd np (set_p_state RUNNABLE) t1) s (empty_ready t F HI))).
  destruct (make_ready_ok t1 _ F np EMBRYO (Z.of_nat pr) HI1) as (i & l & t2 & Hi & Hl & Hrun & HI2 & He & Hrest & Hfl);
    [change (procs t1) with (procs t); rewrite (lookup_status _ _ _ Hq); congruence|done|done|]. apply Nat2Z.inj in Hi as <-.
  rewrite (bind_ok _ _ _ _ _ (setp_ok t1 np _ Hlt)) in Hrun.
  pose proof (upd_lookup np (set_p_state RUNNABLE) t1 q Hq) as Hq1.
  rewrite (bind_ok _ _ _ _ _ (getp_ok _ np _ Hq1)) in Hrun. onp_step (getp_ok _ np _ Hq1). onp_step Hrun.
  destruct (unlock_ok t2 s) as (m3 & Hr3 & Hm3); [by injection Hrest as -> _|].
  assert (l = []) as ->. { destruct pr as [|[|[|pr]]]; [by injection Hl..|done]. }
  exists (set_mch m3 t2). split_and!; [done|by apply (queues_ok_ext None t2)|done|done|].
  unfold rest in *. cbn in *. by injection Hrest as _ -> -> -> -> -> ->.
Qed.
End queue.

(** ** Its memory *)

Section first_memory.
Context {B : Type} {O : KOps B} {PL : Lens B pst} {LO : LensOk B pst} {TL : TableLocks B}.
Context (kend kdata : Z) (Hkd : kdata_ok kdata).
Implicit Types (s : vst B) (t : pst).

(** The page table [d] of the kernel alone, made of pages of [F]; [F'] are still free. *)
Record kernel_space s s' (F F' : list Z) (d : Z) : Prop := Kernel_space {
  ks_free : free_ok kend (kof s') F';
  ks_from : ∀ p, p ∈ F' → p ∈ F;
  ks_left : (length F ≤ 1025 + length F')%nat;
  ks_space : us_ok kend (memory (kof s')) d F';
  ks_owned : ∀ p, owned (memory (kof s')) d p → p ∈ F;
  ks_pte : ∀ va, pte_at (memory (kof s')) d va = kernel_pte (kmap kdata) va;
  ks_frame : ∀ p x, page kend p → p ∉ F → inrange p PGSIZE x = true → memory (kof s') x = memory (kof s) x
}.

Lemma setup_first t s F : free_ok kend (kof s) F → holds ∅ (mch t) → (1025 < length F)%nat →
  ∃ d m s' F', onk (setupkvm kdata) (pput t s) = Ok d (pput (set_mch m t) s') ∧ holds ∅ m ∧ same_rest s s' ∧
    files s' = files s ∧ inodes (fbase s') = inodes (fbase s) ∧ d ≠ 0 ∧ kernel_space s s' F F' d.
Proof.
  intros Hf HL Hlen.
  destruct (@setupkvm_ok B quiet_ops quiet_laws kend ∅ kdata (kof (pput t s)) F Hkd) as (k & F' & d & Hr & Hok & Hk & [T HT] & Hout & Hres).
  { apply mem_q_pput; [done|done|apply not_elem_of_empty]. }
  destruct (onk_run kend ∅ _ t s d k F' Hr Hk Hok) as (x & Hrun & Hhx & Hsr). exists d, x, (kput k s), F'.
  destruct Hres as [(_ & _ & Hle)|(Hd & Hpt & Hpp & Htk & Hpte)]; [lia|].
  assert (∀ va, 0 ≤ va < KERNBASE → upage (memory k) d va = None) as Hnone.
  { intros va Hva. unfold upage. by rewrite Hpte, (kernel_pte_user kdata Hkd). }
  split_and!; [done|done|done|done|done|done|]. split; rewrite ?kof_kput.
  - apply Hok.
  - intros p Hp. rewrite HT. list_in.
  - transitivity (length (table_pages (memory k) d ++ F')); [|rewrite length_app; unfold table_pages; cbn [length]; by rewrite length_map, length_seq].
    apply taken_le; [apply Hf|]. intros p [Hp|Hp]%Htk; rewrite elem_of_app; [by right|left]. by apply table_pages_in.
  - split; [done| |]; intros va; [intros u Hva|intros va' u Hva Hva']; by rewrite Hnone.
  - intros p [Hp|(va & Hva & Hu)]; [by apply Hpp|by rewrite Hnone in Hu].
  - done.
  - exact Hout.
Qed.

(** The address space of the first process. *)
Record first_space s (F F' : list Z) (d u : Z) (init : list Z) : Prop := First_space {
  fsp_free : free_ok kend (kof s) F';
  fsp_from : ∀ p, p ∈ F' → p ∈ F;
  fsp_us : us_ok kend (memory (kof s)) d F';
  fsp_owned : ∀ p, owned (memory (kof s)) d p → p ∈ F;
  fsp_page : u ∈ F ∧ one_page (memory (kof s)) d u init;
  fsp_kern : ∀ va, KERNBASE ≤ va < 2 ^ 32 → pte_at (memory (kof s)) d va = kernel_pte (kmap kdata) va
}.

Lemma program_first t s0 s F F1 d init :
  kernel_space s0 s F F1 d → holds ∅ (mch t) → Z.of_nat (length init) < PGSIZE → (1026 < length F1)%nat →
  ∃ m s' F' u, onk (inituvm d init (Z.of_nat (length init))) (pput t s) = Ok tt (pput (set_mch m t) s') ∧ holds ∅ m ∧ same_rest s s' ∧
    files s' = files s ∧ inodes (fbase s') = inodes (fbase s) ∧ first_space s' F F' d u init ∧
    ∀ p x, page kend p → p ∉ F → inrange p PGSIZE x = true → memory (kof s') x = memory (kof s0) x.
Proof.
  intros [K1 K2 K3 K4 K5 K6 K7] HL Hi Hlen.
  destruct (@inituvm_ok B quiet_ops quiet_laws kend ∅ d init (kof (pput t s)) F1) as (k & F' & u & Hr & Hk & Hok & Hus & HF' & Hu & Hop & Hkern & How & Hout);
    [by apply mem_q_pput; [| |apply not_elem_of_empty]|done| |done|done|].
  { intros va Hva. rewrite kof_memory, K6. by apply kernel_pte_user. }
  destruct (onk_run kend ∅ _ t s tt k F' Hr Hk Hok) as (x & Hrun & Hhx & Hsr). exists x, (kput k s), F', u.
  split_and!; [done|done|done|done|done| |].
  - split; rewrite ?kof_kput; [apply Hok|auto|done| |by split; [auto|]|intros va Hva; by rewrite Hkern, kof_memory, K6].
    intros p [Hp|Hp]%How; [by apply K5|by apply K2].
  - intros p y Hp HpF Hy. rewrite kof_kput, (Hout p y); [by apply K7 with p|done| |by intros ?%K2|done]. by intros ?%K5.
Qed.
End first_memory.

(** ** [userinit] *)

(** The slot [userinit] takes: the last of the table, which [initFreeList] put at the
    front of the free list. *)
Definition first_slot : nat := 63.
Definition other_slots : list nat := reverse (seq 0 63).

Lemma all_slots_first : all_slots = first_slot :: other_slots.
Proof. reflexivity. Qed.

Section userinit.
Context {B : Type} {O : KOps B} {PL : Lens B pst} {LO : LensOk B pst} {TL : TableLocks B}.
Context (kend kdata trapret forkret_addr : Z) (retries : nat) (Hkd : kdata_ok kdata).
Context (dev_read : Z → option (nat → Z → K (ist (kst B)) (Z * list Z))) (initcode : list Z).
Implicit Types (s : vst B) (t : pst).

(** The fields of the first process, with its stack [v], page table [d], id and
    name. *)
Definition first_fields (nm : list Z) (r : proc) : proc :=
  set_p_cwd (Some 0%nat) (set_p_name nm (set_p_gid GROUPID (set_p_uid USERID (set_p_frame init_frame (set_p_sz PGSIZE r))))).
Definition first_proc (v d pid : Z) (nm : list Z) (r : proc) : proc :=
  set_p_state RUNNABLE (first_fields nm (set_p_pgdir d (born forkret_addr v (set_p_pid pid (set_p_state EMBRYO (set_p_next None r)))))).

(** The kernel when [main] calls [userinit]: no process, no lock, no inode in use, and
    pages enough for the stack, two sets of page tables and a page. *)
Record booted s Fp q ip l nm : Prop := Booted {
  bt_table : fresh_table (pof s);
  bt_locks : holds ∅ (mch (pof s));
  bt_slot : procs (pof s) !! first_slot = Some q;
  bt_name : safestrcpy (p_name q) initcode_name (Z.of_nat NAMELEN) = Some nm;
  bt_free : free_ok kend (kof s) Fp;
  bt_pages : (2052 < length Fp)%nat;
  bt_inodes : inodes (fbase s) = ip :: l;
  bt_unused : Forall (λ ip, i_ref ip = 0) (ip :: l);
  bt_program : Z.of_nat (length initcode) < PGSIZE
}.

(** The first process is the only one and is ready to run. *)
Record first_ready s s' (Fp : list Z) ip l nm v d u (F' : list Z) : Prop := First_ready {
  fp_queues : queues_ok None (pof s') [[]; [first_slot]; []] other_slots;
  fp_locks : holds ∅ (mch (pof s'));
  fp_procs : erase (procs (pof s')) = erase (alter (first_proc v d (nextpid (pof s)) nm) first_slot (imap linked (procs (pof s))));
  fp_table : rest (set_mch (mch (pof s)) (pof s')) =
    rest (set_initproc (Some first_slot) (set_nextpid (i32 (nextpid (pof s) + 1)) (set_timeToReset COUNT (pof s))));
  fp_stack : page kend v ∧ v ∈ Fp ∧ v ∉ F' ∧ ¬ owned (memory (kof s')) d v ∧
    mread32 (memory (kof s')) (v + KSTACKSIZE - TRAPFRAME - 4) = u32 trapret;
  fp_space : first_space kend kdata s' Fp F' d u initcode;
  fp_inodes : inodes (fbase s') = root_inode ip :: l;
  fp_files : files s' = files s;
  fp_rest : same_rest s s';
  fp_memory : ∀ p x, page kend p → p ∉ Fp → inrange p PGSIZE x = true → memory (kof s') x = memory (kof s) x
}.

(** The start of [userinit], to the process slot. *)
Lemma userinit_alloc s Fp q ip l nm v :
  booted s (v :: Fp) q ip l nm →
  ∃ t m s1, (∀ A (k : option nat → K (vst B) A),
      (lock_ptable;; onp initFreeList;; onp (modify (set_timeToReset COUNT));; unlock_ptable;; p ← allocproc trapret forkret_addr; k p) s =
      k (Some first_slot) (pput (set_mch m (upd first_slot (born forkret_addr v) (claim first_slot (linked first_slot q) t))) s1)) ∧
    queues_ok None t [[]; []; []] all_slots ∧ procs t = imap linked (procs (pof s)) ∧
    rest (set_mch (mch (pof s)) t) = rest (set_timeToReset COUNT (pof s)) ∧
    holds ∅ m ∧ same_rest s s1 ∧ files s1 = files s ∧ inodes (fbase s1) = inodes (fbase s) ∧
    free_ok kend (kof s1) Fp ∧ page kend v ∧ v ∉ Fp ∧
    (∀ x, inrange v PGSIZE x = false → memory (kof s1) x = memory (kof s) x) ∧
    mread32 (memory (kof s1)) (v + KSTACKSIZE - TRAPFRAME - 4) = u32 trapret.
Proof.
  intros [Hft HL Hq Hnm Hf Hlen Hin Hun Hprog]. set (t0 := pof s) in *. assert (pput t0 s = s) as Hts by apply pput_pof.
  destruct (lock_ok t0 s HL) as (m1 & Hr1 & Hm1). rewrite Hts in Hr1.
  destruct (initFreeList_ok (set_mch m1 t0)) as (t1 & Hr2 & HI & Hrl & Hrest & Hp); [destruct Hft; by split|].
  set (t2 := set_timeToReset COUNT t1).
  destruct (unlock_ok t2 s) as (m2 & Hr3 & Hm2); [change (mch t2) with (mch t1); by injection Hrest as -> _|].
  set (t3 := set_mch m2 t2) in *. assert (queues_ok None t3 [[]; []; []] all_slots) as HI3 by (by apply (queues_ok_ext None t1)).
  assert (procs t3 !! first_slot = Some (linked first_slot q)) as Hq3.
  { change (procs t3) with (procs t1). rewrite Hp, list_lookup_imap. change (procs (set_mch m1 t0)) with (procs t0). by rewrite Hq. }
  rewrite all_slots_first in HI3.
  destruct (allocproc_ok kend trapret forkret_addr t3 s _ _ _ _ v Fp HI3 Hq3 Hm2 Hf)
    as (m3 & s1 & Hr4 & Hm3 & Hsr & Hfi & Hin1 & Hf1 & Hv & HvF & Hov & Htr).
  exists t3, m3, s1. split_and!; try done.
  - intros A k. rewrite (bind_ok _ _ _ _ _ Hr1). onp_step Hr2. onp_step (modify_ok (set_timeToReset COUNT) t1). cbv beta. fold t2.
    rewrite (bind_ok _ _ _ _ _ Hr3). by rewrite (bind_ok _ _ _ _ _ Hr4).
  - unfold rest in *. cbn in *. by injection Hrest as _ _ -> -> -> -> ->.
Qed.

(** The end of [userinit], when the process has its memory. *)
Lemma userinit_finish t s q ip l nm :
  queues_ok None t [[]; []; []] other_slots → procs t !! first_slot = Some q → p_state q = EMBRYO → p_priority q = DEFAULTPRIO →
  safestrcpy (p_name q) initcode_name (Z.of_nat NAMELEN) = Some nm →
  inodes (fbase s) = ip :: l → Forall (λ ip, i_ref ip = 0) (ip :: l) → holds ∅ (mch t) →
  ∃ t', (onp (setp first_slot (set_p_sz PGSIZE));;
      onp (setp first_slot (set_p_frame init_frame));;
      onp (setp first_slot (set_p_uid USERID));;
      onp (setp first_slot (set_p_gid GROUPID));;
      q ← onp (getp first_slot);
      nm ← deref (safestrcpy (p_name q) initcode_name (Z.of_nat NAMELEN));
      onp (setp first_slot (set_p_name nm));;
      cwd ← oni (namei retries dev_read root_path);
      onp (setp first_slot (set_p_cwd cwd));;
      onp (setp first_slot (set_p_state RUNNABLE));;
      lock_ptable;;
      for_each [0; 1; 2] (λ i, onp (setReady i None));;
      q ← onp (getp first_slot);
      onp (putOnReadyList first_slot (p_priority q));;
      unlock_ptable) (pput t s) = Ok tt (pput t' (with_inodes (root_inode ip :: l) s)) ∧
    queues_ok None t' [[]; [first_slot]; []] other_slots ∧ holds ∅ (mch t') ∧
    erase (procs t') = erase (alter (λ r, set_p_state RUNNABLE (first_fields nm r)) first_slot (procs t)) ∧
    rest (set_mch (mch t) t') = rest t.
Proof.
  intros HI Hq Hst Hpr Hnm Hin Hun HL. assert (first_slot < length (procs t))%nat as Hlt by (by eapply lookup_lt_Some).
  rewrite !setp_step by (rewrite ?upd_length; exact Hlt). rewrite !upd_upd.
  set (f := λ r, set_p_gid GROUPID _). onp_step (getp_ok (upd first_slot f t) first_slot (f q) (upd_lookup _ _ _ _ Hq)).
  change (p_name (f q)) with (p_name q). rewrite Hnm, (bind_ok (deref (Some nm)) _ _ nm _) by done.
  rewrite setp_step by (by rewrite upd_length). rewrite upd_upd. set (t1 := upd first_slot _ t).
  destruct (namei_root retries dev_read ip l t1 s Hin Hun HL) as (m & Hr & Hm). rewrite (bind_ok _ _ _ _ _ Hr).
  rewrite setp_step by (unfold t1; cbn; by rewrite length_alter).
  assert (upd first_slot (set_p_cwd (Some 0%nat)) (set_mch m t1) = set_mch m (upd first_slot (first_fields nm) t)) as ->.
  { transitivity (set_mch m (upd first_slot (set_p_cwd (Some 0%nat)) t1)); [done|]. unfold t1. by rewrite upd_upd. }
  set (t2 := set_mch m _). destruct (queue_first t2 (with_inodes (root_inode ip :: l) s) other_slots first_slot 1 (first_fields nm q))
    as (t' & Hr' & HI' & Hm' & He & Hrest).
  - apply (queues_ok_ext None (upd first_slot (first_fields nm) t)); [done|done|done|].
    apply (queues_ok_off t _ _ _ _ q HI Hq); [by rewrite Hst|by rewrite Hst|done|cbn; by rewrite Hst|cbn; by rewrite Hpr].
  - exact (upd_lookup first_slot (first_fields nm) t q Hq).
  - done.
  - done.
  - done.
  - exists t'. split_and!; [done|done|done| |].
    + rewrite He. change (procs t2) with (alter (first_fields nm) first_slot (procs t)). by rewrite alter_alter.
    + unfold rest in *. cbn in *. by injection Hrest as -> -> -> -> -> ->.
Qed.

Lemma userinit_ok s Fp q ip l nm :
  booted s Fp q ip l nm →
  ∃ s' v d u F', userinit kdata trapret forkret_addr retries dev_read initcode s = Ok tt s' ∧ first_ready s s' Fp ip l nm v d u F'.
Proof.
  intros Hb. destruct Fp as [|v Fp]; [destruct Hb as [_ _ _ _ _ Hlen]; cbn in Hlen; lia|].
  destruct (userinit_alloc s Fp q ip l nm v Hb) as (t & m1 & s1 & Hr1 & HI & Hp & Hrest & Hm1 & Hsr1 & Hfi1 & Hin1 & Hf1 & Hv & HvF & Hov & Htr).
  destruct Hb as [Hft HL Hq Hnm Hf Hlen Hin Hun Hprog]. cbn [length] in Hlen. unfold userinit. rewrite Hr1. clear Hr1.
  assert (procs t !! first_slot = Some (linked first_slot q)) as Hq1 by (by rewrite Hp, list_lookup_imap, Hq).
  assert (nextpid t = nextpid (pof s)) as Hpid by (by injection Hrest).
  rewrite all_slots_first in HI. destruct (claim_ok t _ _ _ _ HI Hq1) as [HI1 _].
  set (T := upd first_slot (born forkret_addr v) (claim first_slot (linked first_slot q) t)).
  onp_step (modify_ok (set_initproc (Some first_slot)) (set_mch m1 T)). cbv beta.
  rewrite (bind_ok (deref (Some first_slot)) _ _ first_slot _) by done. set (tA := set_initproc _ _).
  assert (first_slot < length (procs tA))%nat as Hlt by (cbn; rewrite !length_alter; by eapply lookup_lt_Some).
  destruct (setup_first kend kdata Hkd tA s1 Fp Hf1 Hm1) as (d & m2 & s2 & F2 & Hr2 & Hm2 & Hsr2 & Hfi2 & Hin2 & Hd & Hks); [lia|].
  rewrite (bind_ok _ _ _ _ _ Hr2). rewrite setp_step by done. destruct (Z.eqb_spec d 0); [done|].
  set (tB := upd first_slot (set_p_pgdir d) (set_mch m2 tA)). rewrite (bind_ok _ _ (pput tB s2) tt (pput tB s2)) by done.
  destruct (program_first kend kdata Hkd tB s1 s2 Fp F2 d initcode Hks Hm2 Hprog) as (m3 & s3 & F3 & u & Hr3 & Hm3 & Hsr3 & Hfi3 & Hin3 & Hsp & Hout).
  { pose proof (ks_left _ _ _ _ _ _ _ Hks). lia. }
  rewrite (bind_ok _ _ _ _ _ Hr3).
  set (r0 := set_p_pgdir d (born forkret_addr v (set_p_pid (nextpid t) (set_p_state EMBRYO (set_p_next None (linked first_slot q)))))).
  destruct (userinit_finish (set_mch m3 tB) s3 r0 ip l nm) as (t' & Hr4 & HI4 & Hm4 & He4 & Hrest4); try done.
  { apply (queues_ok_ext None (upd first_slot (λ r, set_p_pgdir d (born forkret_addr v r)) (claim first_slot (linked first_slot q) t))); [|done|done|].
    - change (procs (set_mch m3 tB)) with (procs (upd first_slot (set_p_pgdir d) T)). unfold T. by rewrite upd_upd.
    - apply (queues_ok_off _ _ _ _ _ (set_p_pid (nextpid t) (set_p_state EMBRYO (set_p_next None (linked first_slot q))))); try done.
      cbn. by rewrite list_lookup_alter_eq, Hq1. }
  { change (procs (upd first_slot (set_p_pgdir d) T) !! first_slot = Some r0). apply upd_lookup, upd_lookup. cbn. by rewrite list_lookup_alter_eq, Hq1. }
  { by rewrite Hin3, Hin2, Hin1. }
  exists (pput t' (with_inodes (root_inode ip :: l) s3)), v, d, u, F3. split; [exact Hr4|]. split; rewrite ?pof_pput.
  - done.
  - done.
  - rewrite He4. change (procs (set_mch m3 tB)) with (procs (upd first_slot (set_p_pgdir d) T)). unfold T. rewrite upd_upd.
    cbn [procs upd set_procs claim set_nextpid set_freeList]. rewrite !alter_alter, Hp, Hpid. done.
  - unfold rest in *. cbn in *. injection Hrest4 as -> -> -> -> -> ->. by injection Hrest as -> -> _ -> -> ->.
  - rewrite kof_memory. change (kof (with_inodes (root_inode ip :: l) s3)) with (kof s3). destruct Hsp as [_ P1 _ P2 _ _].
    split_and!; [done|list_in|by intros ?%P1|by intros ?%P2|]. rewrite <- Htr. symmetry. unfold mread32.
    by rewrite !(Hout v) by (done || (unfold inrange, KSTACKSIZE, TRAPFRAME, PGSIZE; zcases; done || lia)).
  - destruct Hsp as [P1 P2 P3 P4 [P5 P5'] P6]. split; rewrite ?kof_memory; try done.
    + by apply free_ok_pput.
    + intros p Hp1. apply P2 in Hp1. list_in.
    + intros p Hp1. apply P4 in Hp1. list_in.
    + split; [list_in|done].
  - done.
  - change (files s3 = files s). by rewrite Hfi3, Hfi2, Hfi1.
  - etrans; [exact Hsr1|]. etrans; [exact Hsr2|]. etrans; [exact Hsr3|]. etrans; [|apply pput_rest]. split; [done| |done].
    exists (view (kbase (kof s3))). by rewrite put_view.
  - intros p x Hpp HpF Hx. rewrite kof_memory. change (kof (with_inodes (root_inode ip :: l) s3)) with (kof s3).
    rewrite (Hout p x) by (done || list_in). apply Hov, (page_disjoint kend p v x); [done|done|list_in|done].
Qed.
End userinit.

(** C6: After [userinit] there is one process, ready to run: the queue of the default
    priority holds it, and the free list all other slots.  Its memory is one page at
    address 0, a fresh one, which holds the first program and zeros; behind its page
    table is the kernel's map; its stack, a page that is neither free nor in its
    address space, leads to [trapret]; its registers are [init_frame]; its directory
    is the root, with the only reference to any inode; no lock is held.  The open
    files, the log, the buffers and all memory outside the pages that were free are
    what they were. *)
Theorem userinit_first {B} {O : KOps B} {PL : Lens B pst} {LO : LensOk B pst} {TL : TableLocks B}
    kend kdata trapret forkret_addr retries dev_read initcode (s : vst B) Fp q ip l nm :
  kdata_ok kdata → booted kend initcode s Fp q ip l nm →
  ∃ s' v d u F', userinit kdata trapret forkret_addr retries dev_read initcode s = Ok tt s' ∧
    first_ready kend kdata trapret forkret_addr initcode s s' Fp ip l nm v d u F'.
Proof. intros Hkd. by apply userinit_ok. Qed.

(** ** A machine that has just booted *)

Module Boot0.
Definition tbl : pst := Pst mach0 (replicate NPROC proc0) [None; None; None] None 0 1 None None (Regs 0 0 0 0) 0.
Definition F : list Z := pages 0x80500000 4096.
Definition kernel : kst pst := foldr OnePage.push (Kst tbl (λ x, x `mod` 251) 0 true) F.
Definition st : vst pst :=
  Vst (Ist (Lst (Bst kernel bufs_init log_disk []) 2 30 0 0 1 0 (replicate 30 0)) sb70 (replicate 50 free_inode))
    (replicate 100 (File FD_NONE 0 false false 0 None 0)) ∅.

Lemma kernel_rest : kbase kernel = tbl.
Proof. unfold kernel. induction F as [|v l IH]; [done|]. exact IH. Qed.

Lemma st_booted : booted OnePage.kend [0x68; 0; 0xB8] st F proc0 free_inode (replicate 49 free_inode) (initcode_name ++ replicate 7 0).
Proof.
  assert (pof st = tbl) as Ht by exact kernel_rest.
  destruct (OnePage.Fpages 4096 0x80500000) as [Hn Hp]; [done|lia|unfold PGSIZE, KERNBASE, PHYSTOP; lia|].
  split; rewrite ?Ht.
  - split; [reflexivity|by apply Forall_replicate|reflexivity].
  - exact mach0_holds.
  - reflexivity.
  - vm_compute. reflexivity.
  - apply OnePage.pushed_free; [done|done|]. split; [done|constructor|constructor].
  - apply Nat.ltb_lt. vm_compute. reflexivity.
  - reflexivity.
  - by apply (Forall_replicate _ 50).
  - done.
Qed.
End Boot0.

Lemma userinit_first_witness :
  ∃ s', userinit OnePage.kdata 0x80105000 0x80104000 0 (λ _, None) [0x68; 0; 0xB8] Boot0.st = Ok tt s' ∧
    initproc (pof s') = Some first_slot ∧ status (procs (pof s')) first_slot = Some (RUNNABLE, DEFAULTPRIO) ∧
    (∃ n r, procs (pof s') !! first_slot = Some (set_p_next n r) ∧ p_frame r = init_frame ∧ p_pid r = 1).
Proof.
  destruct (userinit_first OnePage.kend OnePage.kdata 0x80105000 0x80104000 0 (λ _, None) [0x68; 0; 0xB8] Boot0.st Boot0.F proc0
    free_inode (replicate 49 free_inode) (initcode_name ++ replicate 7 0)) as (s' & v & d & u & F' & Hr & Hf).
  - split; [reflexivity|]. unfold OnePage.kdata, KERNLINK, KERNBASE, EXTMEM, PHYSTOP. lia.
  - exact Boot0.st_booted.
  - exists s'. split; [exact Hr|]. destruct Hf as [Hq _ Hp Ht _ _ _ _ _ _].
    assert (pof Boot0.st = Boot0.tbl) as Hb by exact Boot0.kernel_rest. rewrite Hb in Hp, Ht. split_and!.
    + unfold rest in Ht. cbn in Ht. by injection Ht.
    + apply (qo_ready _ _ _ _ Hq 1 [first_slot]); [done|apply list_elem_of_here].
    + destruct (erase_lookup _ _ first_slot _ Hp eq_refl) as [n Hn]. eexists n, _. split; [exact Hn|]. split; reflexivity.
Defined.
