(* ===== verification/Syscall.v ===== *)
(** * System calls: arguments, process calls, dispatch (syscall.c, sysproc.c)

    [sst B] adds the clock ([ticks] of trap.c) to the state below.  The kernel
    runs on the page table of the current process, so user memory is read and
    written through the page directory that [cr3] points to; an address that is
    not mapped, or not writable, is a [Fault].  A pointer argument is the user
    address; a string argument is handed on as its bytes.  A handler that
    returns -1 because of its arguments does so before it changes anything.
    The console messages of [syscall] are not represented. *)
From S2P Require Import Prelude Spinlock Str Ptable PtableLists Sched Services Kalloc BioRing Bio DiskFmt Log Fs File Vm ProcLife.

Record sst (B : Type) := Sst {
  sbase : vst B;
  ticks : Z
}.
Arguments Sst {B}.
Arguments sbase {B}.
Arguments ticks {B}.

Definition set_sbase {B} (b : vst B) (s : sst B) : sst B := Sst b (ticks s).
Definition set_ticks {B} (x : Z) (s : sst B) : sst B := Sst (sbase s) x.

#[global] Instance sst_base B : Lens (sst B) (vst B) := {| view := sbase; put := set_sbase |}.
#[global] Instance sst_base_ok B : LensOk (sst B) (vst B).
Proof. by split; intros; try destruct s. Qed.
#[global] Instance sst_ops B {O : KOps B} : KOps (sst B) := wrap_ops.
#[global] Instance sst_laws B {O : KOps B} {W : KLaws B} : KLaws (sst B) := wrap_laws.

Section syscall.
Context {B : Type} {O : KOps B} {PL : Lens B pst} (kend kdata trapret forkret_addr : Z) (retries : nat).

(** ** User memory *)

(** The kernel address behind the user address [va]. *)
Definition uaddr (write : bool) (va : Z) : K (vst B) Z :=
  pgdir ← onp (gets (λ s, p2v (cr3 (hw s))));
  pte ← onk (walkpgdir pgdir va false);
  (if pte =? 0 then fault else mret tt);;
  e ← onk (getm pte);
  if hasbit e PTE_P && (negb write || hasbit e PTE_W) then mret (p2v (PTE_ADDR e) + va `mod` PGSIZE)
  else fault.

Definition uread8 (va : Z) : K (vst B) Z :=
  a ← uaddr false va;
  onk (gets (λ s, memory s a)).

Fixpoint uread (va : Z) (n : nat) : K (vst B) (list Z) :=
  match n with
  | 0%nat => mret []
  | S n' => c ← uread8 va; l ← uread (u32 (va + 1)) n'; mret (c :: l)
  end.

Fixpoint uwrite (va : Z) (l : list Z) : K (vst B) unit :=
  match l with
  | [] => mret tt
  | c :: l' =>
      a ← uaddr true va;
      onk (modify (λ s, set_memory (mwrite (memory s) a c) s));;
      uwrite (u32 (va + 1)) l'
  end.

(** The current process. *)
Definition me : K (vst B) proc := p ← onp myproc; onp (getp p).

(** ** Arguments *)

Definition fetchint (addr : Z) : K (vst B) (option Z) :=
  q ← me;
  if (addr >=? p_sz q) || (u32 (addr + 4) >? p_sz q) then mret None
  else l ← uread addr 4; mret (Some (i32 (le l))).

(** The loop of [fetchstr], with the characters it has passed. *)
Fixpoint str_scan (s : Z) (n : nat) (acc : list Z) : K (vst B) (option (list Z)) :=
  match n with
  | 0%nat => mret None
  | S n' =>
      c ← uread8 s;
      if c =? 0 then mret (Some (rev acc)) else str_scan (s + 1) n' (c :: acc)
  end.

(** The string at [addr]; its length is what the code returns. *)
Definition fetchstr (addr : Z) : K (vst B) (option (list Z)) :=
  q ← me;
  if addr >=? p_sz q then mret None
  else str_scan addr (Z.to_nat (p_sz q - addr)) [].

Definition argint (n : Z) : K (vst B) (option Z) :=
  q ← me;
  fetchint (u32 (tf_esp (p_frame q) + 4 + 4 * n)).

Definition argptr (n size : Z) : K (vst B) (option Z) :=
  i ← argint n;
  match i with
  | None => mret None
  | Some i =>
      q ← me;
      if (u32 i >=? p_sz q) || (u32 (u32 i + size) >? p_sz q) then mret None
      else mret (Some (u32 i))
  end.

Definition argstr (n : Z) : K (vst B) (option (list Z)) :=
  a ← argint n;
  match a with
  | None => mret None
  | Some addr => fetchstr (u32 addr)
  end.

(** ** Process calls (sysproc.c) *)

Definition sys_fork : K (vst B) Z := fork kend kdata trapret forkret_addr.

Definition sys_exit : K (vst B) Z := exit kend retries;; mret 0.

Definition sys_wait : K (vst B) Z := wait kend retries.

Definition sys_kill : K (vst B) Z :=
  a ← argint 0;
  match a with None => mret (-1) | Some pid => onp (kill pid) end.

Definition sys_getpid : K (vst B) Z := q ← me; mret (p_pid q).

Definition sys_sbrk : K (vst B) Z :=
  a ← argint 0;
  match a with
  | None => mret (-1)
  | Some n =>
      q ← me;
      r ← growproc kend n;
      mret (if r <? 0 then -1 else i32 (p_sz q))
  end.

Definition sys_getuid : K (vst B) Z := q ← me; mret (i32 (p_uid q)).
Definition sys_getgid : K (vst B) Z := q ← me; mret (i32 (p_gid q)).

(** [proc->parent] is not tested. *)
Definition sys_getppid : K (vst B) Z :=
  q ← me;
  p ← deref (p_parent q);
  r ← onp (getp p);
  mret (p_pid r).

Definition sys_setuid : K (vst B) Z :=
  a ← argint 0;
  match a with
  | None => mret (-1)
  | Some uid => p ← onp myproc; onp (setp p (set_p_uid (u32 uid)));; mret 0
  end.

Definition sys_setgid : K (vst B) Z :=
  a ← argint 0;
  match a with
  | None => mret (-1)
  | Some gid => p ← onp myproc; onp (setp p (set_p_gid (u32 gid)));; mret 0
  end.

(** [struct uproc] in memory. *)
Definition UPROCSIZE : Z := 56.
Definition uproc_bytes (u : uproc) : list Z :=
  le_bytes 4 (up_pid u) ++ le_bytes 4 (up_gid u) ++ le_bytes 4 (up_uid u) ++ le_bytes 4 (up_ppid u) ++
  up_state u ++ le_bytes 4 (up_size u) ++ le_bytes 4 (up_priority u) ++ up_name u.
Definition uproc0 : uproc := Uproc 0 0 0 0 (replicate 16 0) 0 0 (replicate 16 0).

(** [argptr] checks that one entry lies in the process; [getProcInfo] fills up to
    [max].  Its [strncpy] overwrites all of [state] and [name], so what the table
    held does not matter. *)
Definition sys_getprocs : K (vst B) Z :=
  a ← argint 0;
  match a with
  | None => mret (-1)
  | Some max =>
      t ← argptr 1 UPROCSIZE;
      match t with
      | None => mret (-1)
      | Some table =>
          r ← onp (getProcInfo max (replicate NPROC uproc0));
          uwrite table (concat (uproc_bytes <$> take (Z.to_nat (fst r)) (snd r)));;
          mret (fst r)
      end
  end.

Definition sys_setpriority : K (vst B) Z :=
  a ← argint 0;
  match a with
  | None => mret (-1)
  | Some pid =>
      b ← argint 1;
      match b with
      | None => mret (-1)
      | Some priority =>
          if (priority >? 2) || (priority <? 0) || (pid <? 0) then mret (-1)
          else onp (setPriority pid priority)
      end
  end.

(** ** The clock *)

Definition onv {A} (m : K (vst B) A) : K (sst B) A := lift m.

(** A round of the loop of [sys_sleep]; [ticks - ticks0 < n] compares as unsigned. *)
Definition sleep_step (ticks0 n : Z) (_ : Z) : K (sst B) (Z + Z) :=
  t ← gets ticks;
  if u32 (t - ticks0) <? u32 n then
    q ← onv me;
    if p_killed q then
      k_release Lticks;;
      mret (inr (-1))
    else
      k_sleep ChTicks Lticks;;
      mret (inl 0)
  else
    k_release Lticks;;
    mret (inr 0).

Definition sys_sleep : K (sst B) Z :=
  a ← onv (argint 0);
  match a with
  | None => mret (-1)
  | Some n =>
      k_acquire Lticks;;
      ticks0 ← gets ticks;
      while (S retries) (sleep_step ticks0 n) 0
  end.

Definition sys_uptime : K (sst B) Z :=
  k_acquire Lticks;;
  xticks ← gets ticks;
  k_release Lticks;;
  mret (i32 xticks).

(** The timer's part of [trap], on the CPU that counts. *)
Definition clock_tick : K (sst B) unit :=
  k_acquire Lticks;;
  modify (λ s, set_ticks (u32 (ticks s + 1)) s);;
  k_wakeup ChTicks;;
  k_release Lticks.
End syscall.
