(* ===== verification/Exec.v ===== *)
(** * Running a program (exec.c, elf.h)

    [exec] on the state of open files.  The path and the arguments are byte
    strings without their terminator, fetched from the old address space by
    [sys_exec].  A [goto bad] is an early exit with what the label undoes: the
    new page table and, before [end_op], the locked inode. *)
From S2P Require Import Prelude Spinlock Str Ptable PtableLists Sched Services Kalloc BioRing Bio DiskFmt Log Fs File Vm ProcLife.

(** ** Headers (elf.h) *)

Definition ELF_MAGIC : Z := 0x464C457F.
Definition ELF_PROG_LOAD : Z := 1.
Definition ELFHDR : Z := 52.
Definition PROGHDR : Z := 32.

(** The fields of the file header and of a program header that [exec] uses. *)
Definition elf_magic (h : list Z) : Z := le (slice h 0 4).
Definition elf_entry (h : list Z) : Z := le (slice h 24 4).
Definition elf_phoff (h : list Z) : Z := le (slice h 28 4).
Definition elf_phnum (h : list Z) : Z := le (slice h 44 2).

Record proghdr := Proghdr { ph_type : Z; ph_off : Z; ph_vaddr : Z; ph_filesz : Z; ph_memsz : Z }.
Definition proghdr_of (h : list Z) : proghdr :=
  Proghdr (le (slice h 0 4)) (le (slice h 4 4)) (le (slice h 8 4)) (le (slice h 16 4)) (le (slice h 20 4)).

(** What follows the last slash of [path]. *)
Fixpoint last_name (last s : list Z) : list Z :=
  match s with
  | [] => last
  | c :: s' => last_name (if c =? slash then s' else last) s'
  end.

Section exec.
Context {B : Type} {O : KOps B} {PL : Lens B pst} (kend kdata : Z) (retries : nat).
Context (dev_read : Z → option (nat → Z → K (ist (kst B)) (Z * list Z))).

(** [bad:] before and after the inode has been released. *)
Definition bad_ip (pgdir : Z) (ip : nat) : K (vst B) Z :=
  (if pgdir =? 0 then mret tt else onk (freevm kend pgdir));;
  oni (iunlockput retries ip);;
  onlog (end_op retries);;
  mret (-1).
Definition bad (pgdir : Z) : K (vst B) Z :=
  (if pgdir =? 0 then mret tt else onk (freevm kend pgdir));;
  mret (-1).

(** One round of the loop over the program headers: the new size, [None] for
    [goto bad]. *)
Definition load_segment (pgdir : Z) (ip : nat) (off sz : Z) : K (vst B) (option Z) :=
  r ← oni (readi retries dev_read ip (u32 off) PROGHDR);
  if negb (fst r =? PROGHDR) then mret None
  else
    let ph := proghdr_of (snd r) in
    if negb (ph_type ph =? ELF_PROG_LOAD) then mret (Some sz)
    else if ph_memsz ph <? ph_filesz ph then mret None
    else
      sz ← onk (allocuvm kend pgdir sz (u32 (ph_vaddr ph + ph_memsz ph)));
      if sz =? 0 then mret None
      else
        r ← oni (loaduvm retries dev_read pgdir (ph_vaddr ph) ip (ph_off ph) (ph_filesz ph));
        mret (if r <? 0 then None else Some sz).

Fixpoint load_segments (n : nat) (pgdir : Z) (ip : nat) (off sz : Z) : K (vst B) (option Z) :=
  match n with
  | 0%nat => mret (Some sz)
  | S n' =>
      r ← load_segment pgdir ip off sz;
      match r with
      | None => mret None
      | Some sz' => load_segments n' pgdir ip (i32 (off + PROGHDR)) sz'
      end
  end.

(** The loop that pushes the argument strings: the stack pointer and the
    addresses of the strings, [None] for [goto bad]. *)
Fixpoint push_args (pgdir sp : Z) (argc : nat) (argv : list (list Z)) (us : list Z) : K (vst B) (option (Z * list Z)) :=
  match argv with
  | [] => mret (Some (sp, us))
  | a :: argv' =>
      if (MAXARG <=? argc)%nat then mret None
      else
        let sp' := Z.land (u32 (sp - (Z.of_nat (length a) + 1))) (Z.lnot 3) in
        r ← onk (copyout pgdir sp' (a ++ [0]));
        if r <? 0 then mret None
        else push_args pgdir sp' (S argc) argv' (us ++ [sp'])
  end.

(** [ustack]: the fake return address, [argc], [argv], the pointers, a null. *)
Definition ustack (sp : Z) (us : list Z) : list Z :=
  let argc := Z.of_nat (length us) in
  [0xffffffff; argc; u32 (sp - (argc + 1) * 4)] ++ us ++ [0].

(** The stack and the switch to the new image, once the program is loaded. *)
Definition exec_image (path : list Z) (argv : list (list Z)) (pgdir sz entry : Z) : K (vst B) Z :=
  let sz := PGROUNDUP sz in
  sz ← onk (allocuvm kend pgdir sz (u32 (sz + 2 * PGSIZE)));
  if sz =? 0 then bad pgdir
  else
    onk (clearpteu pgdir (u32 (sz - 2 * PGSIZE)));;
    r ← push_args pgdir sz 0 argv [];
    match r with
    | None => bad pgdir
    | Some (sp, us) =>
        let l := concat (le_bytes 4 <$> ustack sp us) in
        let sp := u32 (sp - (3 + Z.of_nat (length us) + 1) * 4) in
        r ← onk (copyout pgdir sp l);
        if r <? 0 then bad pgdir
        else
          p ← onp myproc;
          q ← onp (getp p);
          nm ← deref (safestrcpy (p_name q) (last_name path path ++ [0]) (Z.of_nat NAMELEN));
          onp (setp p (set_p_name nm));;
          let oldpgdir := p_pgdir q in
          onp (setp p (set_p_pgdir pgdir));;
          onp (setp p (set_p_sz sz));;
          onp (setp p (λ r, set_p_frame (set_tf_esp sp (set_tf_eip entry (p_frame r))) r));;
          onp (switchuvm p);;
          onk (freevm kend oldpgdir);;
          mret 0
    end.

Definition exec (path : list Z) (argv : list (list Z)) : K (vst B) Z :=
  onlog (begin_op retries);;
  ip ← oni (namei retries dev_read path);
  match ip with
  | None => onlog (end_op retries);; mret (-1)
  | Some ip =>
      oni (ilock retries (Some ip));;
      r ← oni (readi retries dev_read ip 0 ELFHDR);
      if u32 (fst r) <? ELFHDR then bad_ip 0 ip
      else if negb (elf_magic (snd r) =? ELF_MAGIC) then bad_ip 0 ip
      else
        pgdir ← onk (setupkvm kdata);
        if pgdir =? 0 then bad_ip 0 ip
        else
          sz ← load_segments (Z.to_nat (elf_phnum (snd r))) pgdir ip (i32 (elf_phoff (snd r))) 0;
          match sz with
          | None => bad_ip pgdir ip
          | Some sz =>
              oni (iunlockput retries ip);;
              onlog (end_op retries);;
              exec_image path argv pgdir sz (elf_entry (snd r))
          end
  end.
End exec.
