(* ===== verification/Sysfile.v ===== *)
(** * File system calls (sysfile.c)

    The handlers of sysfile.c on the state of open files.  A [goto bad] is the
    code of its label in place; [char name[DIRSIZ]] on the stack starts with
    unspecified content, which [nameiparent] overwrites before it is used. *)
From S2P Require Import Prelude Spinlock Str Ptable PtableLists Sched Services Kalloc BioRing Bio DiskFmt Log Fs File Vm ProcLife Syscall Exec.

Section sysfile.
Context {B : Type} {O : KOps B} {PL : Lens B pst} (kend kdata : Z) (retries : nat).
Context (dev_read : Z → option (nat → Z → K (ist (kst B)) (Z * list Z))).
Context (dev_write : Z → option (nat → list Z → Z → K (ist (kst B)) Z)).

(** ** Descriptors *)

(** The descriptor and the file. *)
Definition argfd (n : Z) : K (vst B) (option (nat * nat)) :=
  a ← argint n;
  match a with
  | None => mret None
  | Some fd =>
      if (fd <? 0) || (fd >=? Z.of_nat NOFILE) then mret None
      else
        q ← me;
        f ← deref (p_ofile q !! Z.to_nat fd);
        mret (pair (Z.to_nat fd) <$> f)
  end.

Fixpoint free_fd (l : list (option nat)) (k : nat) : option nat :=
  match l with
  | [] => None
  | None :: _ => Some k
  | Some _ :: l' => free_fd l' (S k)
  end.

Definition setfd (fd : nat) (f : option nat) : K (vst B) unit :=
  p ← onp myproc;
  onp (setp p (λ r, set_p_ofile (<[fd := f]> (p_ofile r)) r)).

(** -1 is [None]. *)
Definition fdalloc (f : nat) : K (vst B) (option nat) :=
  q ← me;
  match free_fd (take NOFILE (p_ofile q)) 0 with
  | None => mret None
  | Some fd => setfd fd (Some f);; mret (Some fd)
  end.

Definition sys_dup : K (vst B) Z :=
  a ← argfd 0;
  match a with
  | None => mret (-1)
  | Some (_, f) =>
      fd ← fdalloc f;
      match fd with
      | None => mret (-1)
      | Some fd => filedup f;; mret (Z.of_nat fd)
      end
  end.

(** The arguments of [sys_read] and [sys_write], in the order they are fetched. *)
Definition rw_args : K (vst B) (option (nat * Z * Z)) :=
  a ← argfd 0;
  match a with
  | None => mret None
  | Some (_, f) =>
      n ← argint 2;
      match n with
      | None => mret None
      | Some n =>
          p ← argptr 1 n;
          mret (match p with None => None | Some p => Some (f, n, p) end)
      end
  end.

Definition sys_read : K (vst B) Z :=
  a ← rw_args;
  match a with
  | None => mret (-1)
  | Some (f, n, p) =>
      r ← fileread retries dev_read f n;
      uwrite p (snd r);;
      mret (fst r)
  end.

(** The [n] bytes at [p] are read before the call. *)
Definition sys_write : K (vst B) Z :=
  a ← rw_args;
  match a with
  | None => mret (-1)
  | Some (f, n, p) =>
      l ← uread p (Z.to_nat n);
      filewrite retries dev_write f l n
  end.

Definition sys_close : K (vst B) Z :=
  a ← argfd 0;
  match a with
  | None => mret (-1)
  | Some (fd, f) =>
      setfd fd None;;
      fileclose kend retries f;;
      mret 0
  end.

(** [struct stat]: its fields at 0, 4, 8, 12 and 16. *)
Definition STATSIZE : Z := 20.
Definition write_stat (st : Z) (x : stat) : K (vst B) unit :=
  uwrite st (le_bytes 2 (st_type x));;
  uwrite (u32 (st + 4)) (le_bytes 4 (st_dev x));;
  uwrite (u32 (st + 8)) (le_bytes 4 (st_ino x));;
  uwrite (u32 (st + 12)) (le_bytes 2 (st_nlink x));;
  uwrite (u32 (st + 16)) (le_bytes 4 (st_size x)).

Definition sys_fstat : K (vst B) Z :=
  a ← argfd 0;
  match a with
  | None => mret (-1)
  | Some (_, f) =>
      p ← argptr 1 STATSIZE;
      match p with
      | None => mret (-1)
      | Some st =>
          r ← filestat retries f;
          (match snd r with Some x => write_stat st x | None => mret tt end);;
          mret (fst r)
      end
  end.

(** ** Links *)

(** [ip->nlink += d]. *)
Definition add_nlink (d : Z) (i : nat) : K (vst B) unit :=
  oni (seti i (λ ip, set_i_nlink (i16 (i_nlink ip + d)) ip)).

Definition name0 : list Z := replicate DIRSIZ 0.

(** [bad:] of [sys_link]. *)
Definition link_bad (ip : nat) : K (vst B) Z :=
  oni (ilock retries (Some ip));;
  add_nlink (-1) ip;;
  oni (iupdate retries ip);;
  oni (iunlockput retries ip);;
  onlog (end_op retries);;
  mret (-1).

Definition do_link (old new : list Z) : K (vst B) Z :=
  onlog (begin_op retries);;
  ip ← oni (namei retries dev_read old);
  match ip with
  | None => onlog (end_op retries);; mret (-1)
  | Some ip =>
      oni (ilock retries (Some ip));;
      x ← oni (geti ip);
      if i_type x =? T_DIR then
        oni (iunlockput retries ip);;
        onlog (end_op retries);;
        mret (-1)
      else
        add_nlink 1 ip;;
        oni (iupdate retries ip);;
        oni (iunlock (Some ip));;
        d ← oni (nameiparent retries dev_read new name0);
        match fst d with
        | None => link_bad ip
        | Some dp =>
            oni (ilock retries (Some dp));;
            xd ← oni (geti dp);
            x ← oni (geti ip);
            r ← (if negb (i_dev xd =? i_dev x) then mret (-1)
                 else oni (dirlink retries dev_read dev_write dp (snd d) (i_inum x)));
            oni (iunlockput retries dp);;
            if r <? 0 then link_bad ip
            else
              oni (iput retries ip);;
              onlog (end_op retries);;
              mret 0
        end
  end.

Definition sys_link : K (vst B) Z :=
  old ← argstr 0;
  match old with
  | None => mret (-1)
  | Some old =>
      new ← argstr 1;
      match new with
      | None => mret (-1)
      | Some new => do_link old new
      end
  end.

(** The loop of [isdirempty], over the entries from the third on. *)
Definition isdirempty (dp : nat) : K (ist (kst B)) bool :=
  ip ← geti dp;
  r ← while (S (S (Z.to_nat (i_size ip / DIRENT)))) (λ st : Z * bool,
    let off := fst st in
    ip ← geti dp;
    if off <? i_size ip then
      r ← readi retries dev_read dp off DIRENT;
      panic_if (negb (fst r =? DIRENT)) "isdirempty: readi";;
      if negb (de_inum (snd r) =? 0) then mret (inr (off, false))
      else mret (inl (off + DIRENT, true))
    else mret (inr (off, true))) (2 * DIRENT, true);
  mret (snd r).

(** [bad:] of [sys_unlink]. *)
Definition unlink_bad (dp : nat) : K (vst B) Z :=
  oni (iunlockput retries dp);;
  onlog (end_op retries);;
  mret (-1).

Definition do_unlink (path : list Z) : K (vst B) Z :=
  onlog (begin_op retries);;
  d ← oni (nameiparent retries dev_read path name0);
  match fst d with
  | None => onlog (end_op retries);; mret (-1)
  | Some dp =>
      oni (ilock retries (Some dp));;
      c1 ← deref (namecmp (snd d) (cstring "."));
      c2 ← deref (namecmp (snd d) (cstring ".."));
      if (c1 =? 0) || (c2 =? 0) then unlink_bad dp
      else
        o ← oni (dirlookup retries dev_read dp (snd d));
        match o with
        | None => unlink_bad dp
        | Some (ip, off) =>
            oni (ilock retries (Some ip));;
            x ← oni (geti ip);
            panic_if (i_nlink x <? 1) "unlink: nlink < 1";;
            e ← (if i_type x =? T_DIR then oni (isdirempty ip) else mret true);
            if negb (e : bool) then
              oni (iunlockput retries ip);;
              unlink_bad dp
            else
              r ← oni (writei retries dev_write dp (replicate (Z.to_nat DIRENT) 0) off DIRENT);
              panic_if (negb (r =? DIRENT)) "unlink: writei";;
              (if i_type x =? T_DIR then
                 add_nlink (-1) dp;;
                 oni (iupdate retries dp)
               else mret tt);;
              oni (iunlockput retries dp);;
              add_nlink (-1) ip;;
              oni (iupdate retries ip);;
              oni (iunlockput retries ip);;
              onlog (end_op retries);;
              mret 0
        end
  end.

Definition sys_unlink : K (vst B) Z :=
  path ← argstr 0;
  match path with None => mret (-1) | Some path => do_unlink path end.

(** ** Creating and opening *)

(** The part of [create] that makes a new inode in the directory [dp]. *)
Definition create_new (dp : nat) (name : list Z) (type major minor : Z) : K (vst B) nat :=
  xd ← oni (geti dp);
  ip ← oni (ialloc retries (i_dev xd) type);
  oni (ilock retries (Some ip));;
  oni (seti ip (λ x, set_i_nlink 1 (set_i_minor minor (set_i_major major x))));;
  oni (iupdate retries ip);;
  (if type =? T_DIR then
     add_nlink 1 dp;;
     oni (iupdate retries dp);;
     x ← oni (geti ip);
     r ← oni (dirlink retries dev_read dev_write ip (cstring ".") (i_inum x));
     panic_if (r <? 0) "create dots";;
     xd ← oni (geti dp);
     r ← oni (dirlink retries dev_read dev_write ip (cstring "..") (i_inum xd));
     panic_if (r <? 0) "create dots"
   else mret tt);;
  x ← oni (geti ip);
  r ← oni (dirlink retries dev_read dev_write dp name (i_inum x));
  panic_if (r <? 0) "create: dirlink";;
  oni (iunlockput retries dp);;
  mret ip.

Definition create (path : list Z) (type major minor : Z) : K (vst B) (option nat) :=
  d ← oni (nameiparent retries dev_read path name0);
  match fst d with
  | None => mret None
  | Some dp =>
      oni (ilock retries (Some dp));;
      o ← oni (dirlookup retries dev_read dp (snd d));
      match o with
      | Some (ip, _) =>
          oni (iunlockput retries dp);;
          oni (ilock retries (Some ip));;
          x ← oni (geti ip);
          if (type =? T_FILE) && (i_type x =? T_FILE) then mret (Some ip)
          else
            oni (iunlockput retries ip);;
            mret None
      | None => ip ← create_new dp (snd d) type major minor; mret (Some ip)
      end
  end.

(** The inode [sys_open] opens, locked; [None] after its [end_op]. *)
Definition open_inode (path : list Z) (omode : Z) : K (vst B) (option nat) :=
  if hasbit omode O_CREATE then
    ip ← create path T_FILE 0 0;
    match ip with
    | None => onlog (end_op retries);; mret None
    | Some ip => mret (Some ip)
    end
  else
    ip ← oni (namei retries dev_read path);
    match ip with
    | None => onlog (end_op retries);; mret None
    | Some ip =>
        oni (ilock retries (Some ip));;
        x ← oni (geti ip);
        if (i_type x =? T_DIR) && negb (omode =? O_RDONLY) then
          oni (iunlockput retries ip);;
          onlog (end_op retries);;
          mret None
        else mret (Some ip)
    end.

(** [filealloc] and [fdalloc]; a file without a descriptor is closed. *)
Definition open_fd : K (vst B) (option (nat * nat)) :=
  f ← filealloc;
  match f with
  | None => mret None
  | Some f =>
      fd ← fdalloc f;
      match fd with
      | None => fileclose kend retries f;; mret None
      | Some fd => mret (Some (f, fd))
      end
  end.

Definition do_open (path : list Z) (omode : Z) : K (vst B) Z :=
  onlog (begin_op retries);;
  ip ← open_inode path omode;
  match ip with
  | None => mret (-1)
  | Some ip =>
      r ← open_fd;
      match r with
      | None =>
          oni (iunlockput retries ip);;
          onlog (end_op retries);;
          mret (-1)
      | Some (f, fd) =>
          oni (iunlock (Some ip));;
          onlog (end_op retries);;
          setf f (λ x, set_f_writable (hasbit omode O_WRONLY || hasbit omode O_RDWR)
            (set_f_readable (negb (hasbit omode O_WRONLY)) (set_f_off 0 (set_f_ip (Some ip) (set_f_type FD_INODE x)))));;
          mret (Z.of_nat fd)
      end
  end.

Definition sys_open : K (vst B) Z :=
  path ← argstr 0;
  match path with
  | None => mret (-1)
  | Some path =>
      m ← argint 1;
      match m with
      | None => mret (-1)
      | Some omode => do_open path omode
      end
  end.

(** The common end of [sys_mkdir] and [sys_mknod]. *)
Definition created (ip : option nat) : K (vst B) Z :=
  match ip with
  | None => onlog (end_op retries);; mret (-1)
  | Some ip =>
      oni (iunlockput retries ip);;
      onlog (end_op retries);;
      mret 0
  end.

Definition sys_mkdir : K (vst B) Z :=
  onlog (begin_op retries);;
  path ← argstr 0;
  ip ← match path with None => mret None | Some path => create path T_DIR 0 0 end;
  created ip.

Definition sys_mknod : K (vst B) Z :=
  onlog (begin_op retries);;
  path ← argstr 0;
  ip ← match path with
       | None => mret None
       | Some path =>
           major ← argint 1;
           match major with
           | None => mret None
           | Some major =>
               minor ← argint 2;
               match minor with
               | None => mret None
               | Some minor => create path T_DEV (i16 major) (i16 minor)
               end
           end
       end;
  created ip.

Definition sys_chdir : K (vst B) Z :=
  onlog (begin_op retries);;
  path ← argstr 0;
  ip ← match path with None => mret None | Some path => oni (namei retries dev_read path) end;
  match ip with
  | None => onlog (end_op retries);; mret (-1)
  | Some ip =>
      oni (ilock retries (Some ip));;
      x ← oni (geti ip);
      if negb (i_type x =? T_DIR) then
        oni (iunlockput retries ip);;
        onlog (end_op retries);;
        mret (-1)
      else
        oni (iunlock (Some ip));;
        q ← me;
        cwd ← deref (p_cwd q);
        oni (iput retries cwd);;
        onlog (end_op retries);;
        p ← onp myproc;
        onp (setp p (set_p_cwd (Some ip)));;
        mret 0
  end.

(** ** exec and pipe *)

(** The loop of [sys_exec] over [argv[i]]; [None] for its [return -1]. *)
Fixpoint exec_args (n : nat) (uargv : Z) (i : Z) (acc : list (list Z)) : K (vst B) (option (list (list Z))) :=
  match n with
  | 0%nat => mret None
  | S n' =>
      a ← fetchint (u32 (uargv + 4 * i));
      match a with
      | None => mret None
      | Some uarg =>
          if uarg =? 0 then mret (Some (rev acc))
          else
            s ← fetchstr (u32 uarg);
            match s with
            | None => mret None
            | Some s => exec_args n' uargv (i + 1) (s :: acc)
            end
      end
  end.

Definition sys_exec : K (vst B) Z :=
  path ← argstr 0;
  match path with
  | None => mret (-1)
  | Some path =>
      a ← argint 1;
      match a with
      | None => mret (-1)
      | Some uargv =>
          argv ← exec_args MAXARG (u32 uargv) 0 [];
          match argv with
          | None => mret (-1)
          | Some argv => exec kend kdata retries dev_read path argv
          end
      end
  end.

Definition sys_pipe : K (vst B) Z :=
  p ← argptr 0 8;
  match p with
  | None => mret (-1)
  | Some fd =>
      r ← pipealloc kend retries;
      match r with
      | None => mret (-1)
      | Some (rf, wf) =>
          fd0 ← fdalloc rf;
          match fd0 with
          | None =>
              fileclose kend retries rf;;
              fileclose kend retries wf;;
              mret (-1)
          | Some fd0 =>
              fd1 ← fdalloc wf;
              match fd1 with
              | None =>
                  setfd fd0 None;;
                  fileclose kend retries rf;;
                  fileclose kend retries wf;;
                  mret (-1)
              | Some fd1 =>
                  uwrite fd (le_bytes 4 (Z.of_nat fd0));;
                  uwrite (u32 (fd + 4)) (le_bytes 4 (Z.of_nat fd1));;
                  mret 0
              end
          end
      end
  end.
End sysfile.
