(* ===== verification/SyscallProps.v ===== *)
(** * Properties of the system call arguments

    User memory as the kernel reads it while a process makes a system call, and
    what [argint], [argptr] and [argstr] return for any stack pointer and any
    argument the user passes. *)
From S2P Require Import Prelude Spinlock Str Ptable PtableLists Sched Choice Scheduling Services Kalloc BioRing Bio DiskFmt Log Fs File Vm VmFacts VmSpace VmUser VmCopy VmExample ProcLife Layers Syscall Exec Sysfile.

Section args.
Context {B : Type} {O : KOps B} {PL : Lens B pst} {LO : LensOk B pst} (kend : Z).
Implicit Types (s : vst B) (q : proc).

(** The process [q] runs on its page table, which maps the [p_sz q] bytes of it. *)
Record user_space s q : Prop := User_space {
  sp_cur : ∃ x, curproc (pof s) = Some x ∧ procs (pof s) !! x = Some q;
  sp_cr3 : p2v (cr3 (hw (pof s))) = p_pgdir q;
  sp_size : 0 ≤ p_sz q ≤ KERNBASE;
  sp_table : ∃ F, us_ok kend (memory (kof s)) (p_pgdir q) F;
  sp_mapped : ∀ va, 0 ≤ va < p_sz q → is_Some (upage (memory (kof s)) (p_pgdir q) va)
}.

(** The user's byte at [va], and the [n] bytes from there. *)
Definition ubyte s q (va : Z) : Z :=
  memory (kof s) (default 0 (upage (memory (kof s)) (p_pgdir q) va) + va `mod` PGSIZE).
Fixpoint ubytes s q (va : Z) (n : nat) : list Z :=
  match n with 0%nat => [] | S n' => ubyte s q va :: ubytes s q (va + 1) n' end.
Definition uword s q (va : Z) : Z := i32 (le (ubytes s q va 4)).

Section space.
Context (s : vst B) (q : proc) (U : user_space s q).

Lemma me_ok : me s = Ok q s.
Proof.
  destruct (sp_cur _ _ U) as (x & Hx & Hq). unfold me.
  rewrite (bind_ok _ _ _ x s) by (apply onp_read, myproc_ok, Hx). apply onp_read, getp_ok, Hq.
Qed.

Lemma uaddr_ok va u :
  upage (memory (kof s)) (p_pgdir q) va = Some u → uaddr false va s = Ok (u + va `mod` PGSIZE) s.
Proof.
  intros Hu. destruct (sp_table _ _ U) as [F Hus]. unfold uaddr, upage in *.
  set (e := pte_at (memory (kof s)) (p_pgdir q) va) in *. destruct (hasbit e PTE_P) eqn:Hb; [|done]. injection Hu as <-.
  destruct (table (memory (kof s)) (p_pgdir q) (PDX va)) as [t|] eqn:E.
  2: { exfalso. revert Hb. unfold e, pte_at. by rewrite E. }
  destruct (pt_tab _ _ _ _ (us_pt _ _ _ _ Hus) _ _ (PDX_range va) E) as (Htp & _ & _).
  pose proof (page_range _ _ Htp). pose proof (PTX_range va).
  rewrite (bind_ok _ _ s (p_pgdir q) s) by (apply onp_read; unfold gets; by rewrite (sp_cr3 _ _ U)).
  rewrite (bind_ok _ _ _ _ _ (onk_read _ _ _ (walk_present _ _ va t false E))).
  destruct (Z.eqb_spec (t + 4 * PTX va) 0); [unfold KERNBASE in *; lia|]. rewrite (bind_ok _ _ s tt s) by done.
  rewrite (bind_ok _ _ _ _ _ (onk_read _ _ _ (getm_pte _ _ va t E))). fold e. by rewrite Hb.
Qed.

Lemma uread8_ok va : 0 ≤ va < p_sz q → uread8 va s = Ok (ubyte s q va) s.
Proof.
  intros Hva. destruct (sp_mapped _ _ U va Hva) as [u Hu]. unfold uread8, ubyte. rewrite Hu.
  rewrite (bind_ok _ _ _ _ _ (uaddr_ok va u Hu)). by apply onk_read.
Qed.

Lemma uread_ok n : ∀ va, 0 ≤ va → va + Z.of_nat n ≤ p_sz q → uread va n s = Ok (ubytes s q va n) s.
Proof.
  pose proof (sp_size _ _ U) as Hsz. induction n as [|n IH]; intros va H0 Hn; [done|]. cbn [uread ubytes].
  rewrite (bind_ok _ _ _ _ _ (uread8_ok va ltac:(lia))). destruct n as [|n].
  { cbn [uread ubytes]. by rewrite (bind_ok _ _ s [] s). }
  rewrite u32_small by (unfold KERNBASE in *; lia). by rewrite (bind_ok _ _ _ _ _ (IH (va + 1) ltac:(lia) ltac:(lia))).
Qed.

(** ** Arguments *)

Lemma fetchint_ok addr :
  0 ≤ addr < 2 ^ 32 → fetchint addr s = Ok (if addr + 4 <=? p_sz q then Some (uword s q addr) else None) s.
Proof.
  intros Ha. pose proof (sp_size _ _ U) as Hsz. unfold fetchint. rewrite (bind_ok _ _ _ _ _ me_ok).
  destruct (Z.leb_spec (addr + 4) (p_sz q)).
  - rewrite Z.geb_leb, Z.gtb_ltb, u32_small by (unfold KERNBASE in *; lia).
    destruct (Z.leb_spec (p_sz q) addr), (Z.ltb_spec (p_sz q) (addr + 4)); try lia. cbn [orb].
    by rewrite (bind_ok _ _ _ _ _ (uread_ok 4 addr ltac:(lia) ltac:(lia))).
  - rewrite Z.geb_leb, Z.gtb_ltb. destruct (Z.leb_spec (p_sz q) addr); [done|].
    rewrite u32_small by (unfold KERNBASE in *; lia). by destruct (Z.ltb_spec (p_sz q) (addr + 4)); [|lia].
Qed.

(** The address of the [n]th argument. *)
Definition arg_slot (n : Z) : Z := u32 (tf_esp (p_frame q) + 4 + 4 * n).

Lemma argint_ok n : argint n s = Ok (if arg_slot n + 4 <=? p_sz q then Some (uword s q (arg_slot n)) else None) s.
Proof.
  unfold argint. rewrite (bind_ok _ _ _ _ _ me_ok). apply fetchint_ok, u32_range.
Qed.

(** What [argptr] accepts: the end of the block is computed modulo 2^32. *)
Definition accepts (a size : Z) : bool := (a <? p_sz q) && (u32 (a + size) <=? p_sz q).

Lemma argptr_ok n size :
  argptr n size s =
    Ok (if arg_slot n + 4 <=? p_sz q then
          let a := u32 (uword s q (arg_slot n)) in if accepts a size then Some a else None
        else None) s.
Proof.
  unfold argptr. rewrite (bind_ok _ _ _ _ _ (argint_ok n)).
  destruct (_ <=? _); [|done]. rewrite (bind_ok _ _ _ _ _ me_ok). set (a := u32 (uword s q (arg_slot n))). cbv zeta.
  unfold accepts. rewrite Z.geb_leb, Z.gtb_ltb.
  by destruct (Z.ltb_spec a (p_sz q)), (Z.leb_spec (p_sz q) a), (Z.leb_spec (u32 (a + size)) (p_sz q)),
    (Z.ltb_spec (p_sz q) (u32 (a + size))); try lia.
Qed.

(** For a size that is not negative this is that the block lies in the process; for
    a negative one, that its end, before its start, does. *)
Lemma accepts_size a size :
  0 ≤ a → - 2 ^ 31 < size < 2 ^ 31 →
  accepts a size = true ↔ a < p_sz q ∧ 0 ≤ a + size ≤ p_sz q.
Proof.
  intros Ha Hs. pose proof (sp_size _ _ U) as Hsz. unfold accepts. rewrite andb_true_iff, Z.ltb_lt, Z.leb_le.
  destruct (Z.leb_spec 0 (a + size)).
  - split; (intros [H1 H2]; split; [done|]); rewrite u32_small in * by (unfold KERNBASE in *; lia); lia.
  - split; [|lia]. intros [_ H2]. exfalso. unfold u32 in H2.
    rewrite <- (Z_mod_plus_full _ 1), Z.mod_small in H2 by lia. unfold KERNBASE in *. lia.
Qed.

(** The bytes from [va] up to the first 0 below [va + n]. *)
Fixpoint ustring (va : Z) (n : nat) : option (list Z) :=
  match n with
  | 0%nat => None
  | S n' => if ubyte s q va =? 0 then Some [] else cons (ubyte s q va) <$> ustring (va + 1) n'
  end.

Lemma str_scan_ok n : ∀ va acc, 0 ≤ va → va + Z.of_nat n ≤ p_sz q →
  str_scan va n acc s = Ok (app (rev acc) <$> ustring va n) s.
Proof.
  induction n as [|n IH]; intros va acc H0 Hn; [done|]. cbn [str_scan ustring].
  rewrite (bind_ok _ _ _ _ _ (uread8_ok va ltac:(lia))). destruct (ubyte s q va =? 0).
  - cbn. by rewrite app_nil_r.
  - rewrite IH by lia. f_equal. destruct (ustring (va + 1) n) as [l|]; [|done]. cbn. by rewrite <- app_assoc.
Qed.

Lemma fetchstr_ok addr : 0 ≤ addr → fetchstr addr s = Ok (ustring addr (Z.to_nat (p_sz q - addr))) s.
Proof.
  intros Ha. unfold fetchstr. rewrite (bind_ok _ _ _ _ _ me_ok), Z.geb_leb. destruct (Z.leb_spec (p_sz q) addr).
  - by rewrite Z2Nat.nonpos by lia.
  - rewrite str_scan_ok by lia. f_equal. by destruct (ustring _ _).
Qed.

Lemma argstr_ok n :
  argstr n s =
    Ok (if arg_slot n + 4 <=? p_sz q then
          let a := u32 (uword s q (arg_slot n)) in ustring a (Z.to_nat (p_sz q - a))
        else None) s.
Proof.
  unfold argstr. rewrite (bind_ok _ _ _ _ _ (argint_ok n)). destruct (_ <=? _); [|done]. apply fetchstr_ok, u32_range.
Qed.

(** What [ustring] finds. *)
Lemma ustring_spec n : ∀ va,
  match ustring va n with
  | Some l => (length l < n)%nat ∧ l = ubytes s q va (length l) ∧ Forall (.≠ 0) l ∧ ubyte s q (va + Z.of_nat (length l)) = 0
  | None => Forall (.≠ 0) (ubytes s q va n)
  end.
Proof.
  induction n as [|n IH]; intros va; cbn [ustring ubytes]; [constructor|].
  destruct (Z.eqb_spec (ubyte s q va) 0) as [E|E].
  - cbn. rewrite Z.add_0_r. split_and!; [lia|done|constructor|done].
  - specialize (IH (va + 1)). destruct (ustring (va + 1) n) as [l|]; cbn [fmap option_fmap option_map length ubytes].
    + destruct IH as (H1 & H2 & H3 & H4). split_and!; [lia|by rewrite <- H2|by constructor|].
      rewrite <- H4. f_equal. lia.
    + by constructor.
Qed.
End space.
End args.

(** ** Properties *)

(** C13: whatever stack pointer and arguments a process makes a system call with,
    the kernel reads only the memory of that process and does not fault:
    [argint] returns the argument, or fails if it does not lie in the process;
    [argptr] accepts a pointer exactly if it and the end of the block, [size] bytes
    after it, lie in the process, so that for a size of at least 0 the kernel can
    read the whole block there; [argstr] returns the bytes up to the first 0, which
    lies in the process, and fails if there is none.  Nothing changes. *)
Theorem arguments_in_process {B} {O : KOps B} {PL : Lens B pst} {LO : LensOk B pst} kend (s : vst B) q n :
  user_space kend s q →
  argint n s = Ok (if arg_slot q n + 4 <=? p_sz q then Some (uword s q (arg_slot q n)) else None) s ∧
  (∀ size, - 2 ^ 31 < size < 2 ^ 31 →
    let a := u32 (uword s q (arg_slot q n)) in
    ∃ r, argptr n size s = Ok r s ∧
      (r = Some a ∧ arg_slot q n + 4 ≤ p_sz q ∧ a < p_sz q ∧ 0 ≤ a + size ≤ p_sz q ∨
       r = None ∧ (p_sz q < arg_slot q n + 4 ∨ p_sz q ≤ a ∨ a + size < 0 ∨ p_sz q < a + size))) ∧
  (∀ size, 0 ≤ size < 2 ^ 31 →
    ∃ r, argptr n size s = Ok r s ∧
      match r with
      | Some a => 0 ≤ a < p_sz q ∧ a + size ≤ p_sz q ∧ a = u32 (uword s q (arg_slot q n)) ∧
          uread a (Z.to_nat size) s = Ok (ubytes s q a (Z.to_nat size)) s
      | None => p_sz q < arg_slot q n + 4 ∨ p_sz q ≤ u32 (uword s q (arg_slot q n)) ∨
          p_sz q < u32 (uword s q (arg_slot q n)) + size
      end) ∧
  (∃ r, argstr n s = Ok r s ∧
    let a := u32 (uword s q (arg_slot q n)) in
    match r with
    | Some l => a + Z.of_nat (length l) < p_sz q ∧ l = ubytes s q a (length l) ∧ Forall (.≠ 0) l ∧
        ubyte s q (a + Z.of_nat (length l)) = 0
    | None => p_sz q < arg_slot q n + 4 ∨ Forall (.≠ 0) (ubytes s q a (Z.to_nat (p_sz q - a)))
    end).
Proof.
  intros U. pose proof (u32_range (uword s q (arg_slot q n))) as Ha. split_and!.
  - by apply (argint_ok kend).
  - intros size Hs a. eexists. split; [by apply (argptr_ok kend)|]. cbv zeta. fold a. pose proof (accepts_size kend s q U a size) as Hacc.
    destruct (Z.leb_spec (arg_slot q n + 4) (p_sz q)); [|right; split; [done|lia]].
    destruct (accepts q a size) eqn:E; [left; destruct (proj1 (Hacc ltac:(lia) ltac:(lia)) eq_refl); split; [done|lia]|].
    right. split; [done|]. assert (¬ (a < p_sz q ∧ 0 ≤ a + size ≤ p_sz q)) by (intros Hd; apply Hacc in Hd; [done|lia|lia]). lia.
  - intros size Hs. eexists. split; [by apply (argptr_ok kend)|]. cbv zeta. destruct (Z.leb_spec (arg_slot q n + 4) (p_sz q)); [|lia].
    set (a := u32 _) in *. pose proof (accepts_size kend s q U a size ltac:(lia) ltac:(lia)) as Hacc.
    destruct (accepts q a size).
    + destruct (proj1 Hacc eq_refl). split_and!; [lia|lia|lia|done|]. apply (uread_ok kend); [done|lia|lia].
    + apply not_iff_compat in Hacc. assert (¬ (a < p_sz q ∧ 0 ≤ a + size ≤ p_sz q)) by (by apply Hacc). lia.
  - eexists. split; [by apply (argstr_ok kend)|]. cbv zeta. set (a := u32 _) in *.
    destruct (Z.leb_spec (arg_slot q n + 4) (p_sz q)); [|lia].
    pose proof (ustring_spec s q (Z.to_nat (p_sz q - a)) a) as H1. destruct (ustring s q a _) as [l|]; [|by right].
    destruct H1 as (H1 & H2 & H3 & H4). split_and!; [lia|done|done|done].
Qed.

Lemma sys1_space : user_space OnePage.kend sys1 caller1.
Proof.
  split.
  - exists 0%nat. split; reflexivity.
  - reflexivity.
  - unfold KERNBASE. cbn. lia.
  - exists OnePage.F. exact OnePage.st_us.
  - intros va Hva. apply OnePage.st_mapped. cbn in Hva. lia.
Qed.

Lemma sys1_arg : arg_slot caller1 0 = 44 ∧ uword sys1 caller1 44 = 60.
Proof.
  split; [reflexivity|]. unfold uword. cbn [ubytes]. unfold ubyte. change (memory (kof sys1)) with OnePage.space.
  change (p_pgdir caller1) with OnePage.pgdir. rewrite !OnePage.space_upage. vm_compute. reflexivity.
Qed.

Lemma arguments_in_process_witness :
  argint 0 sys1 = Ok (Some 60) sys1 ∧ (∃ r, argptr 0 41 sys1 = Ok r sys1 ∧ r ≠ Some 60) ∧
  (∃ l, argstr 0 sys1 = Ok (Some l) sys1 ∧ (length l < 40)%nat ∧ Forall (.≠ 0) l).
Proof.
  destruct (arguments_in_process OnePage.kend sys1 caller1 0 sys1_space) as (Hi & _ & Hp & (r & Hr & Hs)).
  destruct sys1_arg as [Ha Hw]. rewrite Ha, Hw in *. change (p_sz caller1) with 100 in *. split; [exact Hi|]. split.
  - destruct (Hp 41) as (r' & Hr' & Hs'); [lia|]. exists r'. split; [exact Hr'|]. intros ->.
    destruct Hs' as (_ & Hs' & _). lia.
  - destruct r as [l|].
    + exists l. split; [exact Hr|]. destruct Hs as (Hs & _ & Hf & _). split; [|exact Hf]. change (u32 60) with 60 in Hs. lia.
    + exfalso. destruct Hs as [Hs|Hs]; [lia|]. change (u32 60) with 60 in Hs. assert (¬ Exists (.= 0) (ubytes sys1 caller1 60 40)) as He.
      { rewrite Exists_exists. intros (x & Hx & ->). rewrite Forall_forall in Hs. by apply (Hs 0 Hx). }
      apply He. clear. cbn [ubytes]. do 2 apply Exists_cons_tl. apply Exists_cons_hd.
      unfold ubyte. change (memory (kof sys1)) with OnePage.space.
      change (p_pgdir caller1) with OnePage.pgdir. rewrite OnePage.space_upage. vm_compute. reflexivity.
Defined.

(** C40: [read] does not refuse a negative count: when the end of the block, which
    lies before its start, is in the process, the call goes to [fileread] with the
    count as it is, and all the bytes that returns, for a file as many as it has
    since the count is taken as unsigned there, are stored from the pointer on,
    whatever the size of the process. *)
Theorem argptr_negative_size {B} {O : KOps B} {PL : Lens B pst} {LO : LensOk B pst} kend retries dev_read (s : vst B) q fd f :
  user_space kend s q → (∀ n, 0 ≤ n < 3 → arg_slot q n + 4 ≤ p_sz q) →
  uword s q (arg_slot q 0) = Z.of_nat fd → p_ofile q !! fd = Some (Some f) → (fd < NOFILE)%nat →
  let a := u32 (uword s q (arg_slot q 1)) in
  let n := uword s q (arg_slot q 2) in
  n < 0 → a < p_sz q → 0 ≤ a + n →
  sys_read retries dev_read s = (r ← fileread retries dev_read f n; uwrite a (snd r);; mret (fst r)) s.
Proof.
  intros U Hsl Hfd Hf Hlt a n Hn Ha H0. unfold sys_read. rewrite (bind_ok _ _ s (Some (f, n, a)) s); [done|].
  unfold rw_args. rewrite (bind_ok _ _ s (Some (fd, f)) s).
  - rewrite (bind_ok _ _ _ _ _ (argint_ok kend s q U 2)). destruct (Z.leb_spec (arg_slot q 2 + 4) (p_sz q)); [|pose proof (Hsl 2); lia].
    rewrite (bind_ok _ _ _ _ _ (argptr_ok kend s q U 1 n)). destruct (Z.leb_spec (arg_slot q 1 + 4) (p_sz q)); [|pose proof (Hsl 1); lia].
    cbv zeta. fold a. pose proof (u32_range (uword s q (arg_slot q 1))). pose proof (i32_range (le (ubytes s q (arg_slot q 2) 4))) as Hr.
    pose proof (sp_size _ _ _ U). by rewrite (proj2 (accepts_size kend s q U a n ltac:(lia) ltac:(unfold KERNBASE in *; fold n in Hr; lia))) by lia.
  - unfold argfd. rewrite (bind_ok _ _ _ _ _ (argint_ok kend s q U 0)).
    destruct (Z.leb_spec (arg_slot q 0 + 4) (p_sz q)); [|pose proof (Hsl 0); lia]. rewrite Hfd, Z.geb_leb.
    destruct (Z.ltb_spec (Z.of_nat fd) 0), (Z.leb_spec (Z.of_nat NOFILE) (Z.of_nat fd)); try lia. cbn [orb].
    rewrite (bind_ok _ _ _ _ _ (me_ok kend s q U)), Nat2Z.id, Hf. done.
Qed.

Definition caller2 : proc := set_p_sz 4096 (set_p_frame (set_tf_esp 70 (p_frame caller1)) caller1).

Lemma sys2_memory : memory (kof sys2) = OnePage.space.
Proof. unfold sys2. rewrite kof_pput. reflexivity. Qed.

Lemma sys2_space : user_space OnePage.kend sys2 caller2.
Proof.
  split.
  - exists 0%nat. split; reflexivity.
  - reflexivity.
  - unfold KERNBASE. cbn. lia.
  - exists OnePage.F. rewrite sys2_memory. exact OnePage.st_us.
  - intros va Hva. rewrite sys2_memory. apply OnePage.st_mapped. exact Hva.
Qed.

Lemma sys2_args :
  uword sys2 caller2 (arg_slot caller2 0) = 0 ∧ uword sys2 caller2 (arg_slot caller2 1) = 4000 ∧
  uword sys2 caller2 (arg_slot caller2 2) = -1.
Proof.
  unfold uword. cbn [ubytes]. unfold ubyte. rewrite sys2_memory.
  change (p_pgdir caller2) with OnePage.pgdir. rewrite !OnePage.space_upage. vm_compute. split_and!; reflexivity.
Qed.

(** The process has 4096 bytes; the file has 700, of which those from the 97th on
    would be stored behind it, where nothing is mapped. *)
Lemma argptr_negative_size_witness :
  sys_read 0 (λ _, None) sys2 = (r ← fileread 0 (λ _, None) 0%nat (-1); uwrite 4000 (snd r);; mret (fst r)) sys2 ∧
  sys_read 0 (λ _, None) sys2 = Fault.
Proof.
  split; [|vm_compute; reflexivity]. destruct sys2_args as (H0 & H1 & H2).
  pose proof (argptr_negative_size OnePage.kend 0 (λ _, None) sys2 caller2 0%nat 0%nat sys2_space) as H. rewrite H1, H2 in H.
  change (u32 4000) with 4000 in H. apply H.
  - intros n Hn. assert (n = 0 ∨ n = 1 ∨ n = 2) as [->|[->| ->]] by lia; vm_compute; discriminate.
  - exact H0.
  - reflexivity.
  - unfold NOFILE. lia.
  - lia.
  - reflexivity.
  - lia.
Defined.
