(* ===== verification/Console.v ===== *)
(** * Console, keyboard and serial line (console.c, kbd.c, kbd.h, uart.c)

    [cst] is the process table's state together with the console: the input
    buffer, the switches [cons.locking], [panicked] and [uart], the text memory
    [crt] and the cursor of the screen, what has been sent over and what is
    waiting at the serial line, the bytes waiting at the keyboard controller and
    the keyboard's [shift] state.  The bounded wait of [uartputc] for the line
    changes nothing that is represented. *)
From S2P Require Import Prelude Spinlock Str Digits Ptable PtableLists Sched Services Kalloc BioRing Bio DiskFmt Log Fs File Vm.

Record cst := Cst {
  cbase : pst;
  in_buf : list Z;
  in_r : Z;
  in_w : Z;
  in_e : Z;
  locking : bool;
  panicked : bool;
  uart : bool;
  uart_tx : list Z;
  uart_rx : list Z;
  crt : list Z;
  cursor : Z;
  kbd : list Z;
  kbd_shift : Z
}.

Definition set_cbase (x : pst) (s : cst) : cst :=
  Cst x (in_buf s) (in_r s) (in_w s) (in_e s) (locking s) (panicked s) (uart s) (uart_tx s) (uart_rx s) (crt s) (cursor s) (kbd s) (kbd_shift s).
Definition set_in_buf (x : list Z) (s : cst) : cst :=
  Cst (cbase s) x (in_r s) (in_w s) (in_e s) (locking s) (panicked s) (uart s) (uart_tx s) (uart_rx s) (crt s) (cursor s) (kbd s) (kbd_shift s).
Definition set_in_r (x : Z) (s : cst) : cst :=
  Cst (cbase s) (in_buf s) x (in_w s) (in_e s) (locking s) (panicked s) (uart s) (uart_tx s) (uart_rx s) (crt s) (cursor s) (kbd s) (kbd_shift s).
Definition set_in_w (x : Z) (s : cst) : cst :=
  Cst (cbase s) (in_buf s) (in_r s) x (in_e s) (locking s) (panicked s) (uart s) (uart_tx s) (uart_rx s) (crt s) (cursor s) (kbd s) (kbd_shift s).
Definition set_in_e (x : Z) (s : cst) : cst :=
  Cst (cbase s) (in_buf s) (in_r s) (in_w s) x (locking s) (panicked s) (uart s) (uart_tx s) (uart_rx s) (crt s) (cursor s) (kbd s) (kbd_shift s).
Definition set_locking (x : bool) (s : cst) : cst :=
  Cst (cbase s) (in_buf s) (in_r s) (in_w s) (in_e s) x (panicked s) (uart s) (uart_tx s) (uart_rx s) (crt s) (cursor s) (kbd s) (kbd_shift s).
Definition set_panicked (x : bool) (s : cst) : cst :=
  Cst (cbase s) (in_buf s) (in_r s) (in_w s) (in_e s) (locking s) x (uart s) (uart_tx s) (uart_rx s) (crt s) (cursor s) (kbd s) (kbd_shift s).
Definition set_uart (x : bool) (s : cst) : cst :=
  Cst (cbase s) (in_buf s) (in_r s) (in_w s) (in_e s) (locking s) (panicked s) x (uart_tx s) (uart_rx s) (crt s) (cursor s) (kbd s) (kbd_shift s).
Definition set_uart_tx (x : list Z) (s : cst) : cst :=
  Cst (cbase s) (in_buf s) (in_r s) (in_w s) (in_e s) (locking s) (panicked s) (uart s) x (uart_rx s) (crt s) (cursor s) (kbd s) (kbd_shift s).
Definition set_uart_rx (x : list Z) (s : cst) : cst :=
  Cst (cbase s) (in_buf s) (in_r s) (in_w s) (in_e s) (locking s) (panicked s) (uart s) (uart_tx s) x (crt s) (cursor s) (kbd s) (kbd_shift s).
Definition set_crt (x : list Z) (s : cst) : cst :=
  Cst (cbase s) (in_buf s) (in_r s) (in_w s) (in_e s) (locking s) (panicked s) (uart s) (uart_tx s) (uart_rx s) x (cursor s) (kbd s) (kbd_shift s).
Definition set_cursor (x : Z) (s : cst) : cst :=
  Cst (cbase s) (in_buf s) (in_r s) (in_w s) (in_e s) (locking s) (panicked s) (uart s) (uart_tx s) (uart_rx s) (crt s) x (kbd s) (kbd_shift s).
Definition set_kbd (x : list Z) (s : cst) : cst :=
  Cst (cbase s) (in_buf s) (in_r s) (in_w s) (in_e s) (locking s) (panicked s) (uart s) (uart_tx s) (uart_rx s) (crt s) (cursor s) x (kbd_shift s).
Definition set_kbd_shift (x : Z) (s : cst) : cst :=
  Cst (cbase s) (in_buf s) (in_r s) (in_w s) (in_e s) (locking s) (panicked s) (uart s) (uart_tx s) (uart_rx s) (crt s) (cursor s) (kbd s) x.
#[global] Instance cst_base : Lens cst pst := {| view := cbase; put := set_cbase |}.
#[global] Instance cst_base_ok : LensOk cst pst.
Proof. by split; intros; try destruct s. Qed.
#[global] Instance cst_ops : KOps cst := wrap_ops.
#[global] Instance cst_laws : KLaws cst := wrap_laws.

(** ** Output *)

Definition BACKSPACE : Z := 0x100.

Definition uartputc (c : Z) : K cst unit :=
  u ← gets uart;
  if (u : bool) then modify (λ s, set_uart_tx (uart_tx s ++ [u8 c]) s) else mret tt.

(** [crt[i] = v]; a cell beyond the screen's text page is a [Fault]. *)
Definition setcrt (i v : Z) : K cst unit := λ s,
  if (0 <=? i) && (i <? Z.of_nat (length (crt s))) then Ok tt (set_crt (<[Z.to_nat i := v]> (crt s)) s) else Fault.

(** The lines move up by one: [memmove] of 23 lines, then [memset] from [pos] to
    the end of line 24. *)
Definition scroll (t : list Z) (pos : Z) : list Z :=
  let t' := slice t 80 (23 * 80) ++ drop (23 * 80) t in
  splice t' (Z.to_nat pos) (replicate (Z.to_nat (24 * 80 - pos)) 0).

Definition cgaputc (c : Z) : K cst unit :=
  pos ← gets cursor;
  pos ← (if c =? 10 then mret (pos + (80 - Z.rem pos 80))
         else if c =? BACKSPACE then mret (if pos >? 0 then pos - 1 else pos)
         else setcrt pos (Z.lor (Z.land c 0xff) 0x0700);; mret (pos + 1));
  panic_if ((pos <? 0) || (pos >? 25 * 80)) "pos under/overflow";;
  pos ← (if Z.quot pos 80 >=? 24 then
           modify (λ s, set_crt (scroll (crt s) (pos - 80)) s);;
           mret (pos - 80)
         else mret pos);
  modify (set_cursor (Z.lor (Z.shiftl (u8 (Z.shiftr pos 8)) 8) (u8 pos)));;
  setcrt pos (Z.lor 32 0x0700).

Definition consputc (c : Z) : K cst unit :=
  p ← gets panicked;
  (if (p : bool) then diverge else mret tt);;
  (if c =? BACKSPACE then uartputc 8;; uartputc 32;; uartputc 8 else uartputc c);;
  cgaputc c.

(** *** Formatted output *)

Definition digits : list Z := chars "0123456789abcdef".

(** The [do] loop of [printint]. *)
Definition digit_loop : nat → Z → Z → list Z := digit_rounds digits.

(** The characters in [buf], in the order they are printed. *)
Definition printint_chars (xx base : Z) (sign : bool) : list Z :=
  let neg := sign && (i32 xx <? 0) in
  let x := if neg then u32 (- xx) else u32 xx in
  (if neg then [45] else []) ++ rev (digit_loop 32 x base).

Definition printint (xx base : Z) (sign : bool) : K cst unit :=
  for_each (printint_chars xx base sign) consputc.

(** The arguments after the format. *)
Inductive fmt_arg := Aint (z : Z) | Astr (s : option (list Z)).

Definition null_str : list Z := chars "(null)".

(** The loop over the format; a missing argument is a [Fault]. *)
Fixpoint cprintf_loop (fmt : list Z) (args : list fmt_arg) : K cst unit :=
  match fmt with
  | [] => mret tt
  | c :: fmt' =>
      if negb (c =? 37) then consputc c;; cprintf_loop fmt' args
      else
        match fmt' with
        | [] => mret tt
        | c :: fmt'' =>
            if c =? 100 then
              match args with
              | Aint z :: args' => printint z 10 true;; cprintf_loop fmt'' args'
              | _ => fault
              end
            else if (c =? 120) || (c =? 112) then
              match args with
              | Aint z :: args' => printint z 16 false;; cprintf_loop fmt'' args'
              | _ => fault
              end
            else if c =? 115 then
              match args with
              | Astr s :: args' => for_each (default null_str s) consputc;; cprintf_loop fmt'' args'
              | _ => fault
              end
            else if c =? 37 then consputc 37;; cprintf_loop fmt'' args
            else consputc 37;; consputc c;; cprintf_loop fmt'' args
        end
  end.

Definition cprintf (fmt : list Z) (args : list fmt_arg) : K cst unit :=
  l ← gets locking;
  (if (l : bool) then k_acquire Lcons else mret tt);;
  cprintf_loop fmt args;;
  if (l : bool) then k_release Lcons else mret tt.

(** ** Process listing (procdump of proc.c) *)

(** [getcallerpcs] of spinlock.c: at most ten return addresses along the chain of
    frame pointers, then zeros. *)
Fixpoint caller_pcs (m : mem) (ebp : Z) (n : nat) : list Z :=
  match n with
  | 0%nat => []
  | S n' =>
      if (ebp =? 0) || (ebp <? KERNBASE) || (ebp =? 0xffffffff) then replicate n 0
      else mread32 m (ebp + 4) :: caller_pcs m (mread32 m ebp) n'
  end.
Definition getcallerpcs (m : mem) (v : Z) : list Z := caller_pcs m (u32 (v - 8)) 10.

(** The names of [procdump]. *)
Definition dump_state (st : procstate) : list Z :=
  chars (match st with
         | UNUSED => "unused" | EMBRYO => "embryo" | SLEEPING => "sleep "
         | RUNNABLE => "runble" | RUNNING => "run   " | ZOMBIE => "zombie"
         end).

(** [for(i=0; i<10 && pc[i] != 0; i++)]. *)
Fixpoint pcs_shown (l : list Z) : list Z :=
  match l with [] => [] | x :: l' => if x =? 0 then [] else x :: pcs_shown l' end.

Definition dump_one (p : nat) : K (kst cst) unit :=
  q ← lift (lift (getp p));
  if decide (p_state q = UNUSED) then mret tt
  else
    lift (cprintf (chars "%d %d %d %d %s %s")
      [Aint (p_pid q); Aint (p_uid q); Aint (p_gid q); Aint (p_priority q); Astr (Some (dump_state (p_state q)));
       Astr (Some (str_of (p_name q)))]);;
    (if decide (p_state q = SLEEPING) then
       m ← gets memory;
       for_each (pcs_shown (getcallerpcs m (u32 (c_ebp (p_ctx q) + 8)))) (λ pc, lift (cprintf (chars " %p") [Aint pc]))
     else mret tt);;
    lift (cprintf [10] []).

Definition procdump : K (kst cst) unit := for_each (seq 0 NPROC) dump_one.

(** ** Input *)

Definition INPUT_BUF : Z := 128.
Definition CTRL (c : Z) : Z := c - 64.

(** [input.buf[i % INPUT_BUF]]. *)
Definition in_at (i : Z) (s : cst) : Z := default 0 (in_buf s !! Z.to_nat (u32 i `mod` INPUT_BUF)).

(** The loop of [^U]. *)
Definition kill_line (_ : unit) : K cst (unit + unit) :=
  s ← get;
  if negb (in_e s =? in_w s) && negb (in_at (in_e s - 1) s =? 10) then
    modify (λ s, set_in_e (u32 (in_e s - 1)) s);;
    consputc BACKSPACE;;
    mret (inl tt)
  else mret (inr tt).

(** A character that is stored. *)
Definition input_char (c : Z) : K cst unit :=
  let c := if c =? 13 then 10 else c in
  modify (λ s, set_in_e (u32 (in_e s + 1)) (set_in_buf (<[Z.to_nat (in_e s `mod` INPUT_BUF) := u8 c]> (in_buf s)) s));;
  consputc c;;
  s ← get;
  if (c =? 10) || (c =? CTRL 68) || (in_e s =? u32 (in_r s + INPUT_BUF)) then
    modify (λ s, set_in_w (in_e s) s);;
    k_wakeup ChInput
  else mret tt.

(** The body of the loop of [consoleintr]; [true] sets [doprocdump]. *)
Definition intr_char (c : Z) : K cst bool :=
  if c =? CTRL 80 then mret true
  else if c =? CTRL 85 then
    _ ← while (S (Z.to_nat INPUT_BUF)) kill_line tt;
    mret false
  else if (c =? CTRL 72) || (c =? 127) then
    s ← get;
    (if negb (in_e s =? in_w s) then
       modify (λ s, set_in_e (u32 (in_e s - 1)) s);;
       consputc BACKSPACE
     else mret tt);;
    mret false
  else
    s ← get;
    (if negb (c =? 0) && (u32 (in_e s - in_r s) <? INPUT_BUF) then input_char c else mret tt);;
    mret false.

(** [fuel]: one more than the characters that wait. *)
Definition consoleintr (fuel : nat) (getc : K cst Z) : K (kst cst) unit :=
  lift (k_acquire Lcons);;
  d ← lift (while fuel (λ d : bool,
    c ← getc;
    if c >=? 0 then x ← intr_char c; mret (inl (d || x)) else mret (inr d)) false);
  lift (k_release Lcons);;
  if (d : bool) then procdump else mret tt.

(** *** Reading and writing the console device *)

Section device.
Context (retries : nat).

Definition onc {A} (m : K cst A) : K (ist (kst cst)) A := onkst (lift m).

(** The inner loop of [consoleread]; [inr true] when the process was killed. *)
Definition input_wait (_ : bool) : K cst (bool + bool) :=
  s ← get;
  if in_r s =? in_w s then
    q ← k_getproc;
    if p_killed q then mret (inr true)
    else
      k_sleep ChInput Lcons;;
      mret (inl false)
  else mret (inr false).

(** The outer loop, [n] characters still wanted, [got] characters stored: the
    characters, and whether the process was killed. *)
Fixpoint read_chars (n : nat) (got : bool) : K cst (list Z * bool) :=
  match n with
  | 0%nat => mret ([], false)
  | S n' =>
      k ← while (S retries) input_wait false;
      if (k : bool) then mret ([], true)
      else
        s ← get;
        let c := in_at (in_r s) s in
        modify (λ s, set_in_r (u32 (in_r s + 1)) s);;
        if c =? CTRL 68 then
          (if got then modify (λ s, set_in_r (u32 (in_r s - 1)) s) else mret tt);;
          mret ([], false)
        else if c =? 10 then mret ([c], false)
        else r ← read_chars n' true; mret (c :: fst r, snd r)
  end.

Definition consoleread (ip : nat) (n : Z) : K (ist (kst cst)) (Z * list Z) :=
  iunlock (Some ip);;
  onc (k_acquire Lcons);;
  r ← onc (read_chars (Z.to_nat n) false);
  onc (k_release Lcons);;
  ilock retries (Some ip);;
  mret (if (snd r : bool) then (-1, fst r) else (Z.of_nat (length (fst r)), fst r)).

Definition consolewrite (ip : nat) (buf : list Z) (n : Z) : K (ist (kst cst)) Z :=
  iunlock (Some ip);;
  onc (k_acquire Lcons);;
  for_each (seq 0 (Z.to_nat n)) (λ i, c ← deref (buf !! i); onc (consputc (Z.land c 0xff)));;
  onc (k_release Lcons);;
  ilock retries (Some ip);;
  mret n.

(** The device switch that [consoleinit] fills. *)
Definition CONSOLE : Z := 1.
Definition devsw_read (major : Z) : option (nat → Z → K (ist (kst cst)) (Z * list Z)) :=
  if major =? CONSOLE then Some consoleread else None.
Definition devsw_write (major : Z) : option (nat → list Z → Z → K (ist (kst cst)) Z) :=
  if major =? CONSOLE then Some consolewrite else None.
End device.

(** [consoleinit], without the interrupt controllers. *)
Definition consoleinit : K cst unit :=
  k_initlock Lcons "console";;
  modify (set_locking true).

(** ** The serial line *)

Definition uartgetc : K cst Z :=
  s ← get;
  if negb (uart s) then mret (-1)
  else
    match uart_rx s with
    | [] => mret (-1)
    | c :: l => modify (set_uart_rx l);; mret c
    end.

Definition uartintr : K (kst cst) unit :=
  s ← lift get;
  consoleintr (S (length (uart_rx s))) uartgetc.
