(* ===== verification/ConsoleFacts.v ===== *)
(** * Facts about the console

    The screen: where [cgaputc] puts the cursor and what the text memory holds
    afterwards.  The line discipline: the input buffer of [consoleintr] and
    [consoleread] as a queue of finished characters and a line being edited. *)
From S2P Require Import Prelude Spinlock Str Ptable PtableLists Sched Services Kalloc BioRing Bio DiskFmt Log Fs File Vm Console.

(** ** The screen *)

(** The cursor is on one of the 24 lines. *)
Record screen_ok (s : cst) : Prop := Screen_ok {
  sc_cursor : 0 ≤ cursor s < 24 * 80;
  sc_crt : (24 * 80 ≤ length (crt s))%nat
}.

Definition blank : Z := Z.lor 32 0x0700.
Definition glyph (c : Z) : Z := Z.lor (Z.land c 0xff) 0x0700.

(** The place after [c] at [pos], and the text with [c] in it. *)
Definition cga_next (c pos : Z) : Z :=
  if c =? 10 then pos + (80 - pos `mod` 80) else if c =? BACKSPACE then Z.max 0 (pos - 1) else pos + 1.
Definition cga_text (c pos : Z) (t : list Z) : list Z :=
  if (c =? 10) || (c =? BACKSPACE) then t else <[Z.to_nat pos := glyph c]> t.

Lemma cga_text_length c pos t : length (cga_text c pos t) = length t.
Proof. unfold cga_text. destruct (_ || _); [done|apply length_insert]. Qed.

Lemma cga_next_range c pos : 0 ≤ pos < 24 * 80 → 0 ≤ cga_next c pos ≤ 24 * 80.
Proof.
  intros H. unfold cga_next. destruct (c =? 10); [|destruct (c =? BACKSPACE); lia].
  Z.to_euclidean_division_equations; lia.
Qed.

(** The text after scrolling. *)
Lemma scroll_lookup t i : (24 * 80 ≤ length t)%nat →
  scroll t (23 * 80) !! i =
    if decide (i < 23 * 80)%nat then t !! (i + 80)%nat else if decide (i < 24 * 80)%nat then Some 0 else t !! i.
Proof.
  intros Hl. unfold scroll. change (Z.to_nat (23 * 80)) with (23 * 80)%nat. change (Z.to_nat (24 * 80 - 23 * 80)) with 80%nat.
  assert (length (slice t 80 (23 * 80)) = 23 * 80)%nat as Hs by (apply length_slice; lia).
  rewrite lookup_splice by (rewrite length_app, Hs, length_drop, length_replicate; lia). rewrite length_replicate.
  destruct (decide (i < 23 * 80)%nat); [|destruct (decide (i < 24 * 80)%nat)].
  - rewrite decide_False by lia. rewrite lookup_app_l by lia. rewrite lookup_slice, decide_True by done. f_equal. lia.
  - rewrite decide_True by lia. apply lookup_replicate_2. lia.
  - rewrite decide_False by lia. rewrite lookup_app_r, lookup_drop by lia. f_equal. lia.
Qed.

Lemma scroll_length t : (24 * 80 ≤ length t)%nat → length (scroll t (23 * 80)) = length t.
Proof.
  intros Hl. unfold scroll. change (Z.to_nat (23 * 80)) with (23 * 80)%nat. change (Z.to_nat (24 * 80 - 23 * 80)) with 80%nat.
  assert (length (slice t 80 (23 * 80)) = 23 * 80)%nat as Hs by (apply length_slice; lia).
  rewrite length_splice; rewrite !length_app, Hs, length_drop, ?length_replicate; lia.
Qed.

(** The cursor goes through two 8-bit registers. *)
Lemma cursor_bytes pos : 0 ≤ pos < 2 ^ 16 → Z.lor (Z.shiftl (u8 (Z.shiftr pos 8)) 8) (u8 pos) = pos.
Proof.
  intros H. unfold u8. rewrite Z.shiftr_div_pow2, (Z.mod_small (pos / 2 ^ 8)) by (try lia; Z.to_euclidean_division_equations; lia).
  rewrite <- (Z.land_ones pos 8) by lia. rewrite <- Z.shiftr_div_pow2 by lia.
  rewrite <- Z.ldiff_ones_r by lia. apply Z.bits_inj'. intros n Hn. rewrite Z.lor_spec, Z.ldiff_spec, Z.land_spec.
  by destruct (Z.testbit pos n), (Z.testbit (Z.ones 8) n).
Qed.

Lemma setcrt_ok i v s : 0 ≤ i < Z.of_nat (length (crt s)) → setcrt i v s = Ok tt (set_crt (<[Z.to_nat i := v]> (crt s)) s).
Proof. intros H. unfold setcrt. by destruct (Z.leb_spec 0 i), (Z.ltb_spec i (Z.of_nat (length (crt s)))); try lia. Qed.

(** Where the cursor and the text are after [cgaputc]. *)
Definition cga_cursor (c pos : Z) : Z := if cga_next c pos =? 24 * 80 then 23 * 80 else cga_next c pos.
Definition cga_crt (c pos : Z) (t : list Z) : list Z :=
  <[Z.to_nat (cga_cursor c pos) := blank]> (if cga_next c pos =? 24 * 80 then scroll (cga_text c pos t) (23 * 80) else cga_text c pos t).

Lemma cgaputc_ok c s :
  screen_ok s → cgaputc c s = Ok tt (set_crt (cga_crt c (cursor s) (crt s)) (set_cursor (cga_cursor c (cursor s)) s)).
Proof.
  intros [Hc Hl]. unfold cgaputc. rewrite (bind_ok _ _ _ _ _ (gets_ok cursor s)). set (pos := cursor s) in *.
  pose proof (cga_next_range c pos Hc) as Hn.
  rewrite (bind_ok _ _ s (cga_next c pos) (set_crt (cga_text c pos (crt s)) s)).
  2: { unfold cga_next, cga_text. destruct (c =? 10); cbn [orb].
    - rewrite Z.rem_mod_nonneg by lia. by destruct s.
    - destruct (c =? BACKSPACE).
      + replace (if pos >? 0 then pos - 1 else pos) with (Z.max 0 (pos - 1)); [by destruct s|].
        rewrite Z.gtb_ltb. destruct (Z.ltb_spec 0 pos); lia.
      + by rewrite (bind_ok _ _ _ _ _ (setcrt_ok pos (glyph c) s ltac:(lia))). }
  set (s1 := set_crt _ s). set (p := cga_next c pos) in *.
  rewrite (bind_ok _ _ s1 tt s1).
  2: { by destruct (Z.ltb_spec p 0), (Z.gtb_spec p (25 * 80)); try lia. }
  assert ((Z.quot p 80 >=? 24) = (p =? 24 * 80)) as ->.
  { rewrite Z.quot_div_nonneg by lia. rewrite Z.geb_leb. destruct (Z.eqb_spec p (24 * 80)) as [->|]; [done|].
    apply Z.leb_gt. Z.to_euclidean_division_equations; lia. }
  unfold cga_crt, cga_cursor. fold p. destruct (Z.eqb_spec p (24 * 80)) as [Hp|Hp].
  - rewrite Hp. set (s2 := set_crt (scroll (cga_text c pos (crt s)) (23 * 80)) s).
    rewrite (bind_ok _ _ s1 (23 * 80) s2) by done. rewrite (bind_ok _ _ _ _ _ (modify_ok _ _)), cursor_bytes by lia. cbv beta.
    rewrite setcrt_ok; [done|]. cbn [crt set_crt set_cursor s2]. rewrite scroll_length, cga_text_length; [lia|by rewrite cga_text_length].
  - rewrite (bind_ok _ _ s1 p s1) by done. rewrite (bind_ok _ _ _ _ _ (modify_ok _ _)), cursor_bytes by lia. cbv beta.
    rewrite setcrt_ok; [done|]. cbn [crt set_crt set_cursor s1]. rewrite cga_text_length. lia.
Qed.

Lemma cga_screen c s :
  screen_ok s → screen_ok (set_crt (cga_crt c (cursor s) (crt s)) (set_cursor (cga_cursor c (cursor s)) s)).
Proof.
  intros [Hc Hl]. pose proof (cga_next_range c (cursor s) Hc) as Hn. unfold cga_crt, cga_cursor.
  split; cbn [cursor crt set_crt set_cursor]; destruct (Z.eqb_spec (cga_next c (cursor s)) (24 * 80)); try lia;
    rewrite length_insert, ?scroll_length, cga_text_length; rewrite ?cga_text_length; lia.
Qed.

(** Output changes the screen and the serial line only. *)
Definition out_only (s s' : cst) : Prop :=
  s' = set_crt (crt s') (set_cursor (cursor s') (set_uart_tx (uart_tx s') s)).

#[global] Instance out_only_preorder : PreOrder out_only.
Proof.
  split; [by intros []|]. unfold out_only. intros s1 s2 s3 H1 H2. rewrite H1 in H2. exact H2.
Qed.

Lemma uartputc_ok c s : ∃ s', uartputc c s = Ok tt s' ∧ out_only s s' ∧ crt s' = crt s ∧ cursor s' = cursor s.
Proof.
  unfold uartputc. rewrite (bind_ok _ _ _ _ _ (gets_ok uart s)). destruct (uart s) eqn:E.
  - eexists. split; [done|]. done.
  - exists s. split; [done|]. by split.
Qed.

Lemma consputc_ok c s : screen_ok s → panicked s = false →
  ∃ s', consputc c s = Ok tt s' ∧ out_only s s' ∧ screen_ok s'.
Proof.
  intros Hs Hp. unfold consputc. rewrite (bind_ok _ _ _ _ _ (gets_ok panicked s)), Hp. rewrite (bind_ok _ _ s tt s) by done.
  assert (∃ s1, (if c =? BACKSPACE then uartputc 8;; uartputc 32;; uartputc 8 else uartputc c) s = Ok tt s1 ∧
    out_only s s1 ∧ crt s1 = crt s ∧ cursor s1 = cursor s) as (s1 & Hr & Ho & Hc & Hcu).
  { destruct (c =? BACKSPACE); [|apply uartputc_ok].
    destruct (uartputc_ok 8 s) as (s1 & H1 & O1 & C1 & P1). destruct (uartputc_ok 32 s1) as (s2 & H2 & O2 & C2 & P2).
    destruct (uartputc_ok 8 s2) as (s3 & H3 & O3 & C3 & P3). exists s3.
    rewrite (bind_ok _ _ _ _ _ H1), (bind_ok _ _ _ _ _ H2). split_and!; [done|by do 2 (etrans; [done|])|congruence|congruence]. }
  rewrite (bind_ok _ _ _ _ _ Hr). assert (screen_ok s1) as Hs1 by (destruct Hs; split; congruence).
  eexists. split; [by apply cgaputc_ok|]. split; [|by apply cga_screen]. etrans; [exact Ho|]. done.
Qed.

(** ** The line discipline *)

(** What the line discipline does not touch. *)
Definition devs (s : cst) := (locking s, panicked s, uart s, uart_rx s, kbd s, kbd_shift s).

Section discipline.
Context (L : gset lockid) (HL : Lptable ∉ L) (D : bool * bool * bool * list Z * list Z * Z).

(** Characters that can be read, and the line that is being edited. *)
Record ring (s : cst) (com ed : list Z) : Prop := Ring {
  ty_locks : k_ok L s;
  ty_devs : devs s = D;
  ty_screen : screen_ok s;
  ty_live : panicked s = false;
  ty_buf : length (in_buf s) = 128%nat;
  ty_r : 0 ≤ in_r s < 2 ^ 32;
  ty_w : in_w s = u32 (in_r s + Z.of_nat (length com));
  ty_e : in_e s = u32 (in_r s + Z.of_nat (length (com ++ ed)));
  ty_len : (length (com ++ ed) ≤ 128)%nat;
  ty_bytes : ∀ k c, (com ++ ed) !! k = Some c → in_at (in_r s + Z.of_nat k) s = c
}.
Definition tty (s : cst) (com ed : list Z) : Prop := ring s com ed ∧ Forall (.≠ 10) ed.

(** One character from the keyboard. *)
Definition tty_char (c : Z) (com ed : list Z) : list Z * list Z :=
  if c =? CTRL 80 then (com, ed)
  else if c =? CTRL 85 then (com, [])
  else if (c =? CTRL 72) || (c =? 127) then (com, take (length ed - 1) ed)
  else if negb (c =? 0) && (length (com ++ ed) <? 128)%nat then
    let c := if c =? 13 then 10 else c in
    if (c =? 10) || (c =? CTRL 68) || (S (length (com ++ ed)) =? 128)%nat then (com ++ ed ++ [c], []) else (com, ed ++ [c])
  else (com, ed).

(** Reading up to [n] characters: a line at most; [None] if the reader sleeps. *)
Fixpoint tty_read (n : nat) (got : bool) (com : list Z) : option (list Z * list Z) :=
  match n, com with
  | 0%nat, _ => Some ([], com)
  | S _, [] => None
  | S n', c :: com' =>
      if c =? CTRL 68 then Some ([], if got then com else com')
      else if c =? 10 then Some ([c], com')
      else '(l, rest) ← tty_read n' true com'; Some (c :: l, rest)
  end.

Lemma ring_out s s' com ed : ring s com ed → out_only s s' → screen_ok s' → ring s' com ed.
Proof. intros [H1 HD H2 H3 H4 H5 H6 H7 H8 H9] Ho Hs. rewrite Ho in Hs |- *. by split. Qed.

(** *** The ring *)

Lemma u32_mod128 x : u32 x `mod` 128 = x `mod` 128.
Proof. unfold u32. apply Z.mod_mod_divide. by exists (2 ^ 25). Qed.

Lemma u32_shift x y : u32 (u32 x + y) = u32 (x + y).
Proof. unfold u32. by rewrite Zplus_mod_idemp_l. Qed.

Lemma u32_near r a b : 0 ≤ a ≤ 128 → 0 ≤ b ≤ 128 → (u32 (r + a) =? u32 (r + b)) = (a =? b).
Proof.
  intros Ha Hb. destruct (Z.eqb_spec a b) as [->|Hne]; [apply Z.eqb_refl|]. apply Z.eqb_neq. unfold u32. intros Hm.
  apply (f_equal (λ x, (x - (r + b)) `mod` 2 ^ 32)) in Hm. rewrite !Zminus_mod_idemp_l, Z.sub_diag, Z.mod_0_l in Hm by lia.
  Z.to_euclidean_division_equations; lia.
Qed.

Lemma in_at_eq i s : in_at i s = default 0 (in_buf s !! Z.to_nat (i `mod` 128)).
Proof. unfold in_at. by rewrite u32_mod128. Qed.

Lemma in_at_u32 i s : in_at (u32 i) s = in_at i s.
Proof. by rewrite !in_at_eq, u32_mod128. Qed.

Section ring.
Context (s : cst) (com ed : list Z) (R : ring s com ed).

(** The counters differ by the lengths. *)
Lemma ring_edit_empty : (in_e s =? in_w s) = bool_decide (ed = []).
Proof.
  rewrite (ty_e _ _ _ R), (ty_w _ _ _ R). pose proof (ty_len _ _ _ R) as Hl. rewrite length_app in *.
  rewrite u32_near by lia. case_bool_decide as He; [subst ed; cbn; rewrite Nat.add_0_r; apply Z.eqb_refl|].
  apply Z.eqb_neq. assert (0 < length ed)%nat by (destruct ed; [done|cbn; lia]). lia.
Qed.

Lemma ring_used : u32 (in_e s - in_r s) = Z.of_nat (length (com ++ ed)).
Proof.
  rewrite (ty_e _ _ _ R). pose proof (ty_len _ _ _ R) as Hl. unfold u32. rewrite Zminus_mod_idemp_l.
  rewrite Z.mod_small; lia.
Qed.

Lemma ring_last c : last ed = Some c → in_at (in_e s - 1) s = c.
Proof.
  intros Hc. rewrite <- (ty_bytes _ _ _ R (length (com ++ ed) - 1) c).
  - rewrite (ty_e _ _ _ R). assert (0 < length ed)%nat by (destruct ed; [done|cbn; lia]).
    rewrite !in_at_eq. do 3 f_equal. rewrite Zminus_mod, u32_mod128, <- Zminus_mod. f_equal. rewrite length_app in *. lia.
  - rewrite last_lookup in Hc. destruct ed as [|x l] eqn:E; [done|]. rewrite <- E in *.
    assert (0 < length ed)%nat by (rewrite E; cbn; lia).
    rewrite lookup_app_r by (rewrite length_app; lia). rewrite <- Hc. f_equal. rewrite length_app. lia.
Qed.
End ring.

(** The fields an update does not touch. *)
Ltac ring_split :=
  split; try done; try match goal with H : screen_ok _ |- screen_ok _ => destruct H; by split end.

(** Taking back the last character. *)
Lemma ring_back s com ed x : ring s com (ed ++ [x]) → ring (set_in_e (u32 (in_e s - 1)) s) com ed.
Proof.
  intros [H1 HD H2 H3 H4 H5 H6 H7 H8 H9]. ring_split.
  - cbn. rewrite H7, !length_app in *. cbn [length] in *. unfold u32. rewrite Zminus_mod_idemp_l. f_equal. lia.
  - rewrite !length_app in *. cbn in *. lia.
  - intros k c Hk. apply (H9 k c). rewrite app_assoc. by apply lookup_app_l_Some.
Qed.

(** Storing a character. *)
Definition pushed (c : Z) (s : cst) : cst :=
  set_in_e (u32 (in_e s + 1)) (set_in_buf (<[Z.to_nat (in_e s `mod` INPUT_BUF) := u8 c]> (in_buf s)) s).

Lemma ring_push s com ed c :
  ring s com ed → (length (com ++ ed) < 128)%nat → 0 ≤ c < 256 → ring (pushed c s) com (ed ++ [c]).
Proof.
  intros [H1 HD H2 H3 H4 H5 H6 H7 H8 H9] Hl Hc. ring_split.
  - cbn. by rewrite length_insert.
  - cbn. rewrite H7, u32_shift. f_equal. rewrite !length_app in *. cbn [length]. lia.
  - rewrite !length_app in *. cbn. lia.
  - intros k x Hk. cbn [in_r pushed set_in_e set_in_buf]. rewrite in_at_eq. cbn [in_buf pushed set_in_e set_in_buf].
    rewrite app_assoc in Hk. assert (in_e s `mod` 128 = (in_r s + Z.of_nat (length (com ++ ed))) `mod` 128) as He by (by rewrite H7, u32_mod128).
    change INPUT_BUF with 128. rewrite He. apply lookup_app_Some in Hk as [Hk|[Hk Hx]].
    + pose proof (lookup_lt_Some _ _ _ Hk). rewrite <- (H9 k x Hk), in_at_eq. rewrite list_lookup_insert_ne; [done|].
      intros Hm. apply Z2Nat.inj in Hm; [|apply Z.mod_pos_bound; lia..]. Z.to_euclidean_division_equations; lia.
    + assert (k = length (com ++ ed)) as -> by (destruct (k - length (com ++ ed))%nat eqn:E; [lia|by destruct n]).
      rewrite Nat.sub_diag in Hx. injection Hx as <-. rewrite list_lookup_insert_eq; [unfold u8; cbn; apply Z.mod_small; lia|].
      rewrite H4. pose proof (Z.mod_pos_bound (in_r s + Z.of_nat (length (com ++ ed))) 128). lia.
Qed.

(** Finishing the line. *)
Lemma ring_commit s com ed : ring s com ed → ring (set_in_w (in_e s) s) (com ++ ed) [].
Proof. intros [H1 HD H2 H3 H4 H5 H6 H7 H8 H9]. ring_split; rewrite app_nil_r; done. Qed.

(** Reading a character. *)
Lemma ring_take s c com ed : ring s (c :: com) ed → in_at (in_r s) s = c ∧ ring (set_in_r (u32 (in_r s + 1)) s) com ed.
Proof.
  intros [H1 HD H2 H3 H4 H5 H6 H7 H8 H9]. split.
  { rewrite <- (H9 0%nat c eq_refl). f_equal. lia. }
  ring_split; cbn [in_r in_w in_e in_buf set_in_r].
  - apply u32_range.
  - rewrite H6, u32_shift. f_equal. cbn. lia.
  - rewrite H7, u32_shift. f_equal. cbn. lia.
  - cbn in *. lia.
  - intros k x Hk. rewrite <- (H9 (S k) x Hk). rewrite !in_at_eq. cbn [in_buf set_in_r]. do 3 f_equal.
    rewrite Zplus_mod, u32_mod128, <- Zplus_mod. f_equal. lia.
Qed.

Lemma ring_untake s c com ed :
  ring s (c :: com) ed → set_in_r (u32 (in_r (set_in_r (u32 (in_r s + 1)) s) - 1)) (set_in_r (u32 (in_r s + 1)) s) = s.
Proof.
  intros R. pose proof (ty_r _ _ _ R) as Hr. cbn [in_r set_in_r].
  assert (u32 (u32 (in_r s + 1) - 1) = in_r s) as ->; [|by destruct s].
  unfold u32. rewrite Zminus_mod_idemp_l. replace (in_r s + 1 - 1) with (in_r s) by lia. by apply Z.mod_small.
Qed.

(** Waking the readers. *)
Lemma ring_wakeup s com ed : ring s com ed → ∃ s', k_wakeup ChInput s = Ok tt s' ∧ ring s' com ed.
Proof.
  intros [H1 HD H2 H3 H4 H5 H6 H7 H8 H9].
  destruct (k_wakeup_ok L ChInput s H1 HL) as (s' & Hr & Hok & (b & -> & _) & _).
  eexists. split; [exact Hr|]. by ring_split.
Qed.

(** *** One character from the keyboard *)

(** The echo of a character. *)
Lemma ring_echo s com ed c : ring s com ed → ∃ s', consputc c s = Ok tt s' ∧ out_only s s' ∧ ring s' com ed.
Proof.
  intros R. destruct (consputc_ok c s (ty_screen _ _ _ R) (ty_live _ _ _ R)) as (s' & Hr & Ho & Hs).
  exists s'. split_and!; [done|done|by eapply ring_out].
Qed.

Lemma erase_ok s com ed x : ring s com (ed ++ [x]) →
  ∃ s', (modify (λ s, set_in_e (u32 (in_e s - 1)) s);; consputc BACKSPACE) s = Ok tt s' ∧ ring s' com ed.
Proof.
  intros R%ring_back. rewrite (bind_ok _ _ _ _ _ (modify_ok _ _)). cbv beta.
  destruct (ring_echo _ _ _ BACKSPACE R) as (s' & Hr & _ & R'). by exists s'.
Qed.

Lemma kill_loop n : ∀ s com ed, (length ed < n)%nat → tty s com ed →
  ∃ s', while n kill_line tt s = Ok tt s' ∧ ring s' com [].
Proof.
  induction n as [|n IH]; intros s com ed Hn [R Hl]; [lia|].
  assert (kill_line tt s = (if negb (bool_decide (ed = [])) && negb (in_at (in_e s - 1) s =? 10) then
    (modify (λ s, set_in_e (u32 (in_e s - 1)) s);; consputc BACKSPACE;; mret (inl tt)) s else Ok (inr tt) s)) as Hk.
  { unfold kill_line. rewrite (bind_ok _ _ s s s) by done. rewrite (ring_edit_empty _ _ _ R). by destruct (_ && _). }
  destruct ed as [|x l _] using rev_ind.
  { exists s. rewrite (while_ok n kill_line tt s (inr tt) s) by done. done. }
  rewrite bool_decide_false in Hk by (by destruct l). rewrite (ring_last _ _ _ R x) in Hk by apply last_snoc.
  apply Forall_app in Hl as [Hl Hx]. rewrite Forall_singleton in Hx. destruct (Z.eqb_spec x 10); [done|].
  destruct (erase_ok _ _ _ _ R) as (s1 & Hr & R1). rewrite length_app in Hn. cbn in Hn.
  destruct (IH s1 com l) as (s' & Hr' & R'); [lia|done|]. exists s'. split; [|done].
  rewrite (while_ok n kill_line tt s (inl tt) s1); [done|]. rewrite Hk. cbn [negb andb].
  rewrite (bind_ok _ _ _ _ _ (modify_ok _ _)) in Hr. rewrite (bind_ok _ _ _ _ _ (modify_ok _ _)). cbv beta in *. by rewrite (bind_ok _ _ _ _ _ Hr).
Qed.

Lemma input_char_ok s com ed c :
  tty s com ed → 0 < c < 256 → (length (com ++ ed) < 128)%nat →
  let c' := if c =? 13 then 10 else c in
  ∃ s', input_char c s = Ok tt s' ∧
    if (c' =? 10) || (c' =? CTRL 68) || (S (length (com ++ ed)) =? 128)%nat then tty s' (com ++ ed ++ [c']) [] else tty s' com (ed ++ [c']).
Proof.
  intros [R Hl] Hc Hlen c'. unfold input_char. fold c'. assert (0 ≤ c' < 256) as Hc' by (unfold c'; destruct (c =? 13); lia).
  rewrite (bind_ok _ _ _ _ _ (modify_ok _ _)). cbv beta. fold (pushed c' s).
  pose proof (ring_push s com ed c' R Hlen Hc') as R1. destruct (ring_echo _ _ _ c' R1) as (s2 & Hr2 & _ & R2).
  rewrite (bind_ok _ _ _ _ _ Hr2), (bind_ok _ _ s2 s2 s2) by done.
  assert ((in_e s2 =? u32 (in_r s2 + INPUT_BUF)) = (S (length (com ++ ed)) =? 128)%nat) as ->.
  { rewrite (ty_e _ _ _ R2), u32_near by (unfold INPUT_BUF; pose proof (ty_len _ _ _ R2); lia). unfold INPUT_BUF.
    rewrite !length_app in *. cbn [length]. apply Bool.eq_iff_eq_true. rewrite Z.eqb_eq, Nat.eqb_eq. lia. }
  destruct ((c' =? 10) || (c' =? CTRL 68) || _) eqn:E.
  - rewrite (bind_ok _ _ _ _ _ (modify_ok _ _)). cbv beta. destruct (ring_wakeup _ _ _ (ring_commit _ _ _ R2)) as (s' & Hr & R').
    exists s'. split; [done|]. split; [done|constructor].
  - exists s2. split; [done|]. split; [done|]. apply Forall_app; split; [done|]. rewrite Forall_singleton.
    rewrite !orb_false_iff in E. destruct E as [[E _] _]. by apply Z.eqb_neq.
Qed.

Lemma intr_char_ok s com ed c :
  tty s com ed → 0 ≤ c < 256 →
  ∃ s', intr_char c s = Ok (c =? CTRL 80) s' ∧ tty s' (fst (tty_char c com ed)) (snd (tty_char c com ed)).
Proof.
  intros T Hc. destruct T as [R Hl]. unfold intr_char, tty_char. destruct (Z.eqb_spec c (CTRL 80)); [by exists s|].
  destruct (c =? CTRL 85).
  { destruct (kill_loop (S (Z.to_nat INPUT_BUF)) s com ed) as (s' & Hr & R'); [|by split|].
    - pose proof (ty_len _ _ _ R) as H. rewrite length_app in H. change (S (Z.to_nat INPUT_BUF)) with 129%nat. lia.
    - exists s'. by rewrite (bind_ok _ _ _ _ _ Hr). }
  destruct ((c =? CTRL 72) || (c =? 127)).
  { rewrite (bind_ok _ _ s s s) by done. rewrite (ring_edit_empty _ _ _ R). destruct ed as [|x l _] using rev_ind.
    - exists s. by rewrite (bind_ok _ _ s tt s).
    - rewrite bool_decide_false by (by destruct l). destruct (erase_ok _ _ _ _ R) as (s' & Hr & R'). cbn [negb].
      exists s'. rewrite (bind_ok _ _ _ _ _ Hr). split; [done|]. cbn [fst snd].
      rewrite length_app, Nat.add_sub, take_app_length. split; [done|]. by apply Forall_app in Hl as [? _]. }
  rewrite (bind_ok _ _ s s s) by done. rewrite (ring_used _ _ _ R). change INPUT_BUF with (Z.of_nat 128).
  assert ((Z.of_nat (length (com ++ ed)) <? Z.of_nat 128) = (length (com ++ ed) <? 128)%nat) as ->.
  { apply Bool.eq_iff_eq_true. rewrite Z.ltb_lt, Nat.ltb_lt. lia. }
  destruct (Z.eqb_spec c 0); cbn [negb andb]; [exists s; by rewrite (bind_ok _ _ s tt s)|].
  destruct (Nat.ltb_spec (length (com ++ ed)) 128); [|exists s; by rewrite (bind_ok _ _ s tt s)].
  destruct (input_char_ok s com ed c) as (s' & Hr & T'); [by split|lia|done|]. exists s'.
  rewrite (bind_ok _ _ _ _ _ Hr). split; [done|]. cbv zeta in *. by destruct (_ || _).
Qed.

(** *** Reading *)

Lemma read_chars_ok retries n : ∀ s com ed got l com',
  tty s com ed → tty_read n got com = Some (l, com') →
  ∃ s', read_chars retries n got s = Ok (l, false) s' ∧ tty s' com' ed.
Proof.
  induction n as [|n IH]; intros s com ed got l com' [R Hl] Hr; cbn [read_chars tty_read] in *.
  { injection Hr as <- <-. by exists s. }
  destruct com as [|c com]; [done|]. destruct (ring_take _ _ _ _ R) as [Hc R1].
  assert (while (S retries) input_wait false s = Ok false s) as Hw.
  { apply (while_ok retries input_wait false s (inr false) s). unfold input_wait. rewrite (bind_ok _ _ s s s) by done.
    rewrite (ty_w _ _ _ R). replace (in_r s =? _) with false; [done|]. symmetry.
    replace (in_r s) with (u32 (in_r s + 0)) at 1 by (rewrite Z.add_0_r; apply u32_small, R).
    pose proof (ty_len _ _ _ R) as H. rewrite length_app in H. rewrite u32_near by (cbn in *; lia). apply Z.eqb_neq. cbn. lia. }
  rewrite (bind_ok _ _ _ _ _ Hw), (bind_ok _ _ s s s) by done. rewrite Hc. cbv zeta.
  rewrite (bind_ok _ _ _ _ _ (modify_ok _ _)). cbv beta. set (s1 := set_in_r _ s) in *.
  destruct (c =? CTRL 68).
  - injection Hr as <- <-. destruct got.
    + exists s. rewrite (bind_ok _ _ s1 tt s); [done|]. unfold s1. rewrite (modify_ok _ _). f_equal. by eapply ring_untake.
    + exists s1. by rewrite (bind_ok _ _ s1 tt s1).
  - destruct (c =? 10); [injection Hr as <- <-; by exists s1|].
    destruct (tty_read n true com) as [[l' com1]|] eqn:E; [|done]. injection Hr as <- <-.
    destruct (IH s1 com ed true l' com1) as (s' & Hr' & T'); [by split|done|]. exists s'. by rewrite (bind_ok _ _ _ _ _ Hr').
Qed.
End discipline.

(** *** Interrupts and calls *)

Lemma ring_rebase L L' D s com ed b : ring L D s com ed → k_ok L' (set_cbase b s) → ring L' D (set_cbase b s) com ed.
Proof. intros [H1 HD H2 H3 H4 H5 H6 H7 H8 H9] Hk. split; try done. destruct H2; by split. Qed.

Lemma tty_acquire D s com ed : tty ∅ D s com ed → ∃ s', k_acquire Lcons s = Ok tt s' ∧ tty {[Lcons]} D s' com ed.
Proof.
  intros [R Hl]. destruct (k_acquire_ok ∅ Lcons s (ty_locks _ _ _ _ _ R)) as (s' & Hr & Hok & (b & -> & _) & _); [apply not_elem_of_empty|].
  rewrite (right_id_L ∅ (∪)) in Hok. eexists. split; [exact Hr|]. split; [|done]. by eapply ring_rebase.
Qed.

Lemma tty_release D s com ed : tty {[Lcons]} D s com ed → ∃ s', k_release Lcons s = Ok tt s' ∧ tty ∅ D s' com ed.
Proof.
  intros [R Hl]. destruct (k_release_ok {[Lcons]} Lcons s (ty_locks _ _ _ _ _ R)) as (s' & Hr & Hok & (b & -> & _) & _); [set_solver|].
  rewrite difference_diag_L in Hok. eexists. split; [exact Hr|]. split; [|done]. by eapply ring_rebase.
Qed.

(** A line of characters. *)
Definition tty_chars (cs : list Z) (p : list Z * list Z) : list Z * list Z :=
  foldl (λ p c, tty_char c (fst p) (snd p)) p cs.

(** The serial line is open, [cs] waits there. *)
Definition line_devs (lk : bool) (kb : list Z) (sh : Z) (cs : list Z) := (lk, false, true, cs, kb, sh).

(** A character that edits or is stored. *)
Definition typed (c : Z) : Prop := 0 ≤ c < 256 ∧ c ≠ CTRL 80.

Section intr.
Context (L : gset lockid) (HL : Lptable ∉ L) (lk : bool) (kb : list Z) (sh : Z).

Lemma getc_ok c cs s com ed :
  tty L (line_devs lk kb sh (c :: cs)) s com ed →
  ∃ s', uartgetc s = Ok c s' ∧ tty L (line_devs lk kb sh cs) s' com ed.
Proof.
  intros [R Hl]. pose proof (ty_devs _ _ _ _ _ R) as Hd. injection Hd as Hlk Hp Hu Hrx Hkb Hsh.
  exists (set_uart_rx cs s). split.
  - unfold uartgetc. rewrite (bind_ok _ _ s s s) by done. rewrite Hu, Hrx. done.
  - split; [|done]. destruct R as [H1 HD H2 H3 H4 H5 H6 H7 H8 H9]. split; try done; [|destruct H2; by split].
    unfold devs, line_devs. cbn. congruence.
Qed.

Lemma intr_loop cs : ∀ s com ed n, (length cs < n)%nat → Forall typed cs →
  tty L (line_devs lk kb sh cs) s com ed →
  ∃ s', while n (λ d : bool, c ← uartgetc; if c >=? 0 then x ← intr_char c; mret (inl (d || x)) else mret (inr d)) false s = Ok false s' ∧
    tty L (line_devs lk kb sh []) s' (fst (tty_chars cs (com, ed))) (snd (tty_chars cs (com, ed))).
Proof.
  induction cs as [|c cs IH]; intros s com ed n Hn Hf T; (destruct n as [|n]; [cbn in Hn; lia|]).
  - exists s. split; [|done]. rewrite (while_ok n _ false s (inr false) s); [done|].
    destruct T as [R _]. pose proof (ty_devs _ _ _ _ _ R) as Hd. injection Hd as Hlk Hp Hu Hrx Hkb Hsh.
    rewrite (bind_ok _ _ s (-1) s); [done|]. unfold uartgetc. rewrite (bind_ok _ _ s s s) by done. by rewrite Hu, Hrx.
  - rewrite Forall_cons in Hf. destruct Hf as [[Hc Hp] Hf]. destruct (getc_ok c cs s com ed T) as (s1 & Hr1 & T1).
    destruct (intr_char_ok L HL _ s1 com ed c T1 Hc) as (s2 & Hr2 & T2).
    destruct (IH s2 _ _ n ltac:(cbn in Hn; lia) Hf T2) as (s3 & Hr3 & T3). exists s3. split.
    + rewrite (while_ok n _ false s (inl false) s2); [done|]. rewrite (bind_ok _ _ _ _ _ Hr1). rewrite Z.geb_leb.
      destruct (Z.leb_spec 0 c); [|lia]. rewrite (bind_ok _ _ _ _ _ Hr2). by destruct (Z.eqb_spec c (CTRL 80)).
    + cbn [tty_chars foldl fst snd]. by destruct (tty_char c com ed).
Qed.
End intr.

(** [uartintr] takes all that waits. *)
Lemma uartintr_ok lk kb sh cs (k : kst cst) com ed :
  Forall typed cs → tty ∅ (line_devs lk kb sh cs) (kbase k) com ed →
  ∃ s', uartintr k = Ok tt (set_kbase s' k) ∧
    tty ∅ (line_devs lk kb sh []) s' (fst (tty_chars cs (com, ed))) (snd (tty_chars cs (com, ed))).
Proof.
  intros Hf T. set (s := kbase k) in *. assert (uart_rx s = cs) as Hrx.
  { destruct T as [R _]. pose proof (ty_devs _ _ _ _ _ R) as Hd. by injection Hd. }
  destruct (tty_acquire _ _ _ _ T) as (s1 & Hr1 & T1).
  destruct (intr_loop {[Lcons]} ltac:(set_solver) lk kb sh cs s1 com ed (S (length cs)) ltac:(lia) Hf T1) as (s2 & Hr2 & T2).
  destruct (tty_release _ _ _ _ T2) as (s3 & Hr3 & T3). exists s3. split; [|done].
  unfold uartintr, consoleintr. rewrite (bind_ok _ _ k s k) by (unfold lift; cbn; by destruct k). rewrite Hrx.
  rewrite (bind_ok _ _ k tt (set_kbase s1 k)) by exact (lift_run _ k tt s1 Hr1).
  rewrite (bind_ok _ _ (set_kbase s1 k) false (set_kbase s2 k)) by exact (lift_run _ (set_kbase s1 k) false s2 Hr2).
  by rewrite (bind_ok _ _ (set_kbase s2 k) tt (set_kbase s3 k)) by exact (lift_run _ (set_kbase s2 k) tt s3 Hr3).
Qed.
