(* ===== verification/ConsoleProps.v ===== *)
(** * Properties of the console *)
From S2P Require Import Prelude Spinlock Str Digits Ptable PtableLists Sched Choice Scheduling Services Kalloc BioRing Bio DiskFmt Log Fs File Vm Console ConsoleFacts.

(** ** Numbers *)

(** The value of a digit, and of digits with the first one first. *)
Definition digit_val (c : Z) : Z := if c <? 58 then c - 48 else c - 87.
Definition number : Z → list Z → Z := reads digit_val.

Lemma digit_val_ok d : 0 ≤ d < 16 → digit_val (default 0 (digits !! Z.to_nat d)) = d.
Proof.
  intros Hd. assert (∃ k, d = Z.of_nat k ∧ (k < 16)%nat) as (k & -> & Hk) by (exists (Z.to_nat d); lia).
  rewrite Nat2Z.id. do 16 (destruct k as [|k]; [reflexivity|]). lia.
Qed.

Lemma digit_loop_ok base n fuel x :
  2 ≤ base ≤ 16 → (n < fuel)%nat → 0 ≤ x < base ^ Z.of_nat (S n) →
  number base (rev (digit_loop fuel x base)) = x ∧ (length (digit_loop fuel x base) ≤ S n)%nat.
Proof.
  intros Hb Hf Hx. destruct (digit_rounds_ok digits digit_val base (λ _, True) ltac:(lia)) with n fuel x as (H1 & H2 & _);
    [|done..]. intros d Hd. split; [apply digit_val_ok; lia|done].
Qed.

(** [printint] prints numbers that read back: the characters of a signed 32-bit
    number in base 10 are a minus sign if it is negative and the decimal digits
    of its absolute value, those of an unsigned one in base 16 its hexadecimal
    digits; they fit in the 16 bytes of [buf]. *)
Theorem printint_reads_back xx :
  (- 2 ^ 31 ≤ xx < 2 ^ 31 →
   ∃ l, printint_chars xx 10 true = (if xx <? 0 then 45 :: l else l) ∧ number 10 l = Z.abs xx ∧ l ≠ [] ∧
     (length (printint_chars xx 10 true) ≤ 11)%nat) ∧
  (number 16 (printint_chars xx 16 false) = u32 xx ∧ (length (printint_chars xx 16 false) ≤ 8)%nat).
Proof.
  assert (∀ x base, digit_loop 32 x base ≠ []) as Hne by (intros x base; unfold digit_loop; cbn [digit_rounds]; by destruct (_ =? 0)).
  split.
  - intros Hx. unfold printint_chars. assert (i32 xx = xx) as -> by (apply i32_small; lia). cbn [andb].
    set (x := if xx <? 0 then u32 (- xx) else u32 xx).
    assert (x = Z.abs xx) as Hxa by (unfold x; destruct (Z.ltb_spec xx 0); rewrite u32_small by lia; lia).
    destruct (digit_loop_ok 10 9 32 x ltac:(lia) ltac:(lia)) as [Hv Hl]; [rewrite Hxa; change (10 ^ Z.of_nat 10) with 10000000000; lia|].
    exists (rev (digit_loop 32 x 10)). split_and!.
    + by destruct (xx <? 0).
    + by rewrite Hv.
    + intros Hr. apply (Hne x 10). by rewrite <- (rev_involutive (digit_loop 32 x 10)), Hr.
    + destruct (xx <? 0); cbn [app length]; rewrite length_rev; lia.
  - unfold printint_chars. cbn [andb app]. pose proof (u32_range xx).
    destruct (digit_loop_ok 16 7 32 (u32 xx) ltac:(lia) ltac:(lia)) as [Hv Hl]; [change (16 ^ Z.of_nat 8) with (2 ^ 32); lia|].
    rewrite length_rev. done.
Qed.

Lemma printint_reads_back_witness : printint_chars (- 2 ^ 31) 10 true = chars "-2147483648" ∧ ∃ l, number 10 l = 2147483648.
Proof.
  split; [vm_compute; reflexivity|]. destruct (printint_reads_back (- 2 ^ 31)) as [H _].
  destruct H as (l & _ & Hl & _); [lia|]. exists l. exact Hl.
Defined.

(** ** The screen *)

(** while the cursor is on the 24 lines of the screen, [cgaputc] writes only
    cells of the screen, does not panic, and leaves the cursor on the screen: a
    character goes to the cell of the cursor, a backspace moves the cursor back,
    a newline moves it to the start of the next line, and where that is beyond
    the last line all lines move up by one.  Only the screen changes. *)
Theorem cgaputc_screen c s :
  screen_ok s →
  ∃ s', cgaputc c s = Ok tt s' ∧ screen_ok s' ∧ s' = set_crt (crt s') (set_cursor (cursor s') s) ∧ length (crt s') = length (crt s) ∧
    crt s' !! Z.to_nat (cursor s') = Some blank ∧
    let p := cga_next c (cursor s) in
    if p <? 24 * 80 then
      cursor s' = p ∧ ∀ i, i ≠ Z.to_nat p → crt s' !! i = cga_text c (cursor s) (crt s) !! i
    else
      cursor s' = 23 * 80 ∧ (∀ i, (i < 23 * 80)%nat → crt s' !! i = cga_text c (cursor s) (crt s) !! (i + 80)%nat) ∧
      (∀ i, (24 * 80 ≤ i)%nat → crt s' !! i = crt s !! i).
Proof.
  intros Hs. eexists. split; [by apply cgaputc_ok|]. pose proof (cga_screen c s Hs) as Hs'. destruct Hs as [Hc Hl].
  pose proof (cga_next_range c (cursor s) Hc) as Hn. pose proof (cga_text_length c (cursor s) (crt s)) as Ht.
  cbn [cursor crt set_crt set_cursor]. unfold cga_crt, cga_cursor in *.
  split_and!; [done|done| | |].
  - rewrite length_insert. destruct (_ =? _); [rewrite scroll_length|]; lia.
  - apply list_lookup_insert_eq. destruct (Z.eqb_spec (cga_next c (cursor s)) (24 * 80)); [rewrite scroll_length|]; lia.
  - cbv zeta. destruct (Z.eqb_spec (cga_next c (cursor s)) (24 * 80)) as [E|E].
    + rewrite E. cbn [Z.ltb Z.compare]. destruct (Z.ltb_spec (24 * 80) (24 * 80)); [lia|]. split_and!; [done| |].
      * intros i Hi. rewrite list_lookup_insert_ne by lia. by rewrite scroll_lookup, decide_True by lia.
      * intros i Hi. rewrite list_lookup_insert_ne by lia. rewrite scroll_lookup, !decide_False by lia.
        unfold cga_text. destruct (_ || _); [done|]. by rewrite list_lookup_insert_ne by lia.
    + destruct (Z.ltb_spec (cga_next c (cursor s)) (24 * 80)); [|lia]. split; [done|].
      intros i Hi. by rewrite list_lookup_insert_ne.
Qed.

(** The console of a machine with an empty screen. *)
Definition con1 : cst :=
  Cst (Table.table mach0 100) (replicate 128 0) (2 ^ 32 - 3) (2 ^ 32 - 3) (2 ^ 32 - 3) true false true [] [] (replicate (25 * 80) 0) 1919 [] 0.

Lemma con1_screen : screen_ok con1.
Proof. split; [cbn; lia|]. apply Nat.leb_le. vm_compute. reflexivity. Qed.

Lemma cgaputc_screen_witness : ∃ s', cgaputc 65 con1 = Ok tt s' ∧ cursor s' = 1840 ∧ crt s' !! 1839%nat = Some 0x741.
Proof.
  destruct (cgaputc_screen 65 con1 con1_screen) as (s' & Hr & _ & _ & _ & _ & H). exists s'. split; [exact Hr|].
  destruct H as (H1 & H2 & _). split; [exact H1|]. rewrite H2; [|apply Nat.ltb_lt; vm_compute; reflexivity]. vm_compute. reflexivity.
Defined.

(** ** The line discipline *)

(** What happens at the console: characters arrive at the serial line, a process
    reads. *)
Inductive tty_op := TType (cs : list Z) | TRead (n : nat).

Definition tty_step (o : tty_op) (p : list Z * list Z) : option (list Z * (list Z * list Z)) :=
  match o with
  | TType cs => Some ([], tty_chars cs p)
  | TRead n => '(l, com) ← tty_read n false (fst p); Some (l, (com, snd p))
  end.

Fixpoint tty_run (os : list tty_op) (p : list Z * list Z) : option (list (list Z) * (list Z * list Z)) :=
  match os with
  | [] => Some ([], p)
  | o :: os' => '(l, p1) ← tty_step o p; '(ls, p2) ← tty_run os' p1; Some (l :: ls, p2)
  end.

(** The same at the console: the interrupt handler, and the part of [consoleread]
    under the lock. *)
Definition con_step (retries : nat) (o : tty_op) : K (kst cst) (list Z) :=
  match o with
  | TType cs => lift (modify (set_uart_rx cs));; uartintr;; mret []
  | TRead n =>
      lift (k_acquire Lcons);;
      r ← lift (read_chars retries n false);
      lift (k_release Lcons);;
      mret (fst r)
  end.

Fixpoint con_run (retries : nat) (os : list tty_op) : K (kst cst) (list (list Z)) :=
  match os with
  | [] => mret []
  | o :: os' => l ← con_step retries o; ls ← con_run retries os'; mret (l :: ls)
  end.

Definition op_ok (o : tty_op) : Prop := match o with TType cs => Forall typed cs | TRead _ => True end.

(** The console [k] shows the lines [p] and nothing waits. *)
Definition shows_lines lk kb sh (k : kst cst) (p : list Z * list Z) : Prop :=
  tty ∅ (line_devs lk kb sh []) (kbase k) (fst p) (snd p).

Lemma con_step_ok retries lk kb sh o k p l p' :
  shows_lines lk kb sh k p → op_ok o → tty_step o p = Some (l, p') →
  ∃ s', con_step retries o k = Ok l (set_kbase s' k) ∧ shows_lines lk kb sh (set_kbase s' k) p'.
Proof.
  intros T Ho Hs. destruct o as [cs|n]; cbn [con_step tty_step op_ok] in *.
  - injection Hs as <- <-. set (k1 := set_kbase (set_uart_rx cs (kbase k)) k).
    assert (tty ∅ (line_devs lk kb sh cs) (kbase k1) (fst p) (snd p)) as T1.
    { destruct T as [[H1 HD H2 H3 H4 H5 H6 H7 H8 H9] Hl]. split; [|done]. split; try done; [|destruct H2; by split].
      injection HD as Hlk Hp Hu Hrx Hkb Hsh. unfold devs, line_devs. cbn. congruence. }
    destruct (uartintr_ok lk kb sh cs k1 (fst p) (snd p) Ho T1) as (s' & Hr & T'). exists s'.
    rewrite (bind_ok _ _ k tt k1) by done. rewrite (bind_ok _ _ _ _ _ Hr). split; [done|]. by destruct p.
  - destruct (tty_read n false (fst p)) as [[l1 com]|] eqn:E; [|done]. injection Hs as <- <-.
    destruct (tty_acquire _ _ _ _ T) as (s1 & Hr1 & T1).
    destruct (read_chars_ok {[Lcons]} _ retries n s1 (fst p) (snd p) false l1 com T1 E) as (s2 & Hr2 & T2).
    destruct (tty_release _ _ _ _ T2) as (s3 & Hr3 & T3). exists s3. split; [|done].
    rewrite (bind_ok _ _ k tt (set_kbase s1 k)) by exact (lift_run _ k tt s1 Hr1).
    rewrite (bind_ok _ _ (set_kbase s1 k) (l1, false) (set_kbase s2 k)) by exact (lift_run _ (set_kbase s1 k) (l1, false) s2 Hr2).
    by rewrite (bind_ok _ _ (set_kbase s2 k) tt (set_kbase s3 k)) by exact (lift_run _ (set_kbase s2 k) tt s3 Hr3).
Qed.

(** C24: the console's input buffer, a ring of 128 bytes with three counters that
    wrap around at 2^32, implements a line discipline: characters go to a line
    that backspace and kill edit, and only newline, end of file or a full buffer
    pass the line on to the readers; a read returns at most the rest of one line,
    in order, and stops at an end of file.  Whatever sequence of interrupts and
    reads that find input, the results and the lines left are those of the
    specification, and nothing faults, panics or waits. *)
Theorem console_refines_lines retries lk kb sh os : ∀ k p ls p',
  shows_lines lk kb sh k p → Forall op_ok os → tty_run os p = Some (ls, p') →
  ∃ s', con_run retries os k = Ok ls (set_kbase s' k) ∧ shows_lines lk kb sh (set_kbase s' k) p'.
Proof.
  induction os as [|o os IH]; intros k p ls p' T Ho Hr; cbn [con_run tty_run] in *.
  { injection Hr as <- <-. exists (kbase k). assert (set_kbase (kbase k) k = k) as -> by (by destruct k). done. }
  rewrite Forall_cons in Ho. destruct Ho as [Ho Hos].
  destruct (tty_step o p) as [[l p1]|] eqn:E; [|done]. cbn in Hr. destruct (tty_run os p1) as [[ls1 p2]|] eqn:E2; [|done].
  injection Hr as <- <-. destruct (con_step_ok retries lk kb sh o k p l p1 T Ho E) as (s1 & Hr1 & T1).
  destruct (IH (set_kbase s1 k) p1 ls1 p2 T1 Hos E2) as (s2 & Hr2 & T2). exists s2. rewrite (bind_ok _ _ _ _ _ Hr1).
  by rewrite (bind_ok _ _ _ _ _ Hr2).
Qed.

(** Typed: hx, backspace, i, newline, then to; reads of 2 and 10 characters. *)
Lemma console_refines_lines_witness :
  ∃ s', con_run 0 [TType [104; 120; 8; 105; 13; 116]; TRead 2; TType [111]; TRead 10] (Kst con1 (λ _, 0) 0 true) =
    Ok [[]; [104; 105]; []; [10]] (set_kbase s' (Kst con1 (λ _, 0) 0 true)).
Proof.
  destruct (console_refines_lines 0 true [] 0 [TType [104; 120; 8; 105; 13; 116]; TRead 2; TType [111]; TRead 10]
    (Kst con1 (λ _, 0) 0 true) ([], []) [[]; [104; 105]; []; [10]] ([], [116; 111])) as (s' & Hr & _).
  - split; [|constructor]. split; try done.
    + exact table_ok.
    + exact con1_screen.
    + cbn. lia.
  - repeat constructor; cbv; discriminate.
  - vm_compute. reflexivity.
  - exists s'. exact Hr.
Defined.
