(* ===== verification/Kbd.v ===== *)
(** * The keyboard (kbd.c, kbd.h)

    Scan codes to characters.  The maps are the tables of kbd.h: the entries
    listed in order, then those with an explicit index, zero elsewhere. *)
From S2P Require Import Prelude Spinlock Str Ptable PtableLists Sched Services Kalloc BioRing Bio DiskFmt Log Fs File Vm Console.

Definition SHIFT : Z := 1.
Definition CTL : Z := 2.
Definition ALT : Z := 4.
Definition CAPSLOCK : Z := 8.
Definition NUMLOCK : Z := 16.
Definition SCROLLLOCK : Z := 32.
Definition E0ESC : Z := 64.

(** A table of 256 characters: the first ones in order, then those with an index. *)
Definition keymap (l : list Z) (d : list (Z * Z)) : list Z :=
  foldr (λ e t, <[Z.to_nat (fst e) := snd e]> t) (l ++ replicate (256 - length l) 0) d.

Definition shiftcode : list Z :=
  keymap [] [(0x1D, CTL); (0x2A, SHIFT); (0x36, SHIFT); (0x38, ALT); (0x9D, CTL); (0xB8, ALT)].

Definition togglecode : list Z := keymap [] [(0x3A, CAPSLOCK); (0x45, NUMLOCK); (0x46, SCROLLLOCK)].

Definition normalmap : list Z := keymap [
  0; 27; 49; 50; 51; 52; 53; 54; 55; 56; 57; 48; 45; 61; 8; 9;
  113; 119; 101; 114; 116; 121; 117; 105; 111; 112; 91; 93; 10; 0; 97; 115;
  100; 102; 103; 104; 106; 107; 108; 59; 39; 96; 0; 92; 122; 120; 99; 118;
  98; 110; 109; 44; 46; 47; 0; 42; 0; 32; 0; 0; 0; 0; 0; 0;
  0; 0; 0; 0; 0; 0; 0; 55; 56; 57; 45; 52; 53; 54; 43; 49;
  50; 51; 48; 46; 0; 0; 0; 0 ]
  [(0x9c, 0xa); (0xb5, 0x2f); (0xc8, 0xe2); (0xd0, 0xe3); (0xc9, 0xe6); (0xd1, 0xe7); (0xcb, 0xe4); (0xcd, 0xe5); (0x97, 0xe0); (0xcf, 0xe1); (0xd2, 0xe8); (0xd3, 0xe9)].

Definition shiftmap : list Z := keymap [
  0; 27; 33; 64; 35; 36; 37; 94; 38; 42; 40; 41; 95; 43; 8; 9;
  81; 87; 69; 82; 84; 89; 85; 73; 79; 80; 123; 125; 10; 0; 65; 83;
  68; 70; 71; 72; 74; 75; 76; 58; 34; 126; 0; 124; 90; 88; 67; 86;
  66; 78; 77; 60; 62; 63; 0; 42; 0; 32; 0; 0; 0; 0; 0; 0;
  0; 0; 0; 0; 0; 0; 0; 55; 56; 57; 45; 52; 53; 54; 43; 49;
  50; 51; 48; 46; 0; 0; 0; 0 ]
  [(0x9c, 0xa); (0xb5, 0x2f); (0xc8, 0xe2); (0xd0, 0xe3); (0xc9, 0xe6); (0xd1, 0xe7); (0xcb, 0xe4); (0xcd, 0xe5); (0x97, 0xe0); (0xcf, 0xe1); (0xd2, 0xe8); (0xd3, 0xe9)].

Definition ctlmap : list Z := keymap [
  0; 0; 0; 0; 0; 0; 0; 0; 0; 0; 0; 0; 0; 0; 0; 0;
  17; 23; 5; 18; 20; 25; 21; 9; 15; 16; 0; 0; 13; 0; 1; 19;
  4; 6; 7; 8; 10; 11; 12; 0; 0; 0; 0; 28; 26; 24; 3; 22;
  2; 14; 13; 0; 0; 239; 0; 0 ]
  [(0x9c, 0xd); (0xb5, 239); (0xc8, 0xe2); (0xd0, 0xe3); (0xc9, 0xe6); (0xd1, 0xe7); (0xcb, 0xe4); (0xcd, 0xe5); (0x97, 0xe0); (0xcf, 0xe1); (0xd2, 0xe8); (0xd3, 0xe9)].

(** [charcode[shift & (CTL | SHIFT)]]. *)
Definition charcode (shift : Z) : list Z :=
  let i := Z.land shift (Z.lor CTL SHIFT) in
  if i =? 0 then normalmap else if i =? 1 then shiftmap else ctlmap.

Definition at256 (t : list Z) (i : Z) : Z := default 0 (t !! Z.to_nat i).

(** [kbdgetc] on one byte of the controller: the new [shift] and the result. *)
Definition kbd_byte (shift data : Z) : Z * Z :=
  if data =? 0xE0 then (Z.lor shift E0ESC, 0)
  else if hasbit data 0x80 then
    let data := if hasbit shift E0ESC then data else Z.land data 0x7F in
    (Z.ldiff shift (Z.lor (at256 shiftcode data) E0ESC), 0)
  else
    let esc := hasbit shift E0ESC in
    let data := if esc then Z.lor data 0x80 else data in
    let shift := if esc then Z.ldiff shift E0ESC else shift in
    let shift := Z.lor shift (at256 shiftcode data) in
    let shift := Z.lxor shift (at256 togglecode data) in
    let c := at256 (charcode shift) data in
    let c := if hasbit shift CAPSLOCK then
               if (97 <=? c) && (c <=? 122) then c - 32
               else if (65 <=? c) && (c <=? 90) then c + 32 else c
             else c in
    (shift, c).

Definition kbdgetc : K cst Z :=
  s ← get;
  match kbd s with
  | [] => mret (-1)
  | data :: l =>
      let r := kbd_byte (kbd_shift s) data in
      modify (λ s, set_kbd_shift (fst r) (set_kbd l s));;
      mret (snd r)
  end.

Definition kbdintr : K (kst cst) unit :=
  s ← lift get;
  consoleintr (S (length (kbd s))) kbdgetc.
