(* ===== verification/Rtc.v ===== *)
(** * The real-time clock (cmos_read, fill_rtcdate and cmostime of lapic.c, date.h,
      sys_date of sysproc.c)

    The clock chip is hardware: [cmos k reg] is what the [k]-th read returns for
    register [reg].  [cmostime] reads until two readings in a row agree. *)
From S2P Require Import Prelude Spinlock Str Ptable PtableLists Sched Services Kalloc BioRing Bio DiskFmt Log Fs File Vm ProcLife Syscall.

Record rtcdate := Rtcdate { second : Z; minute : Z; hour : Z; day : Z; month : Z; year : Z }.
#[global] Instance rtcdate_eq_dec : EqDecision rtcdate.
Proof. solve_decision. Defined.

Definition CMOS_STATA : Z := 0x0a.
Definition CMOS_STATB : Z := 0x0b.
Definition CMOS_UIP : Z := 0x80.
Definition SECS : Z := 0x00.
Definition MINS : Z := 0x02.
Definition HOURS : Z := 0x04.
Definition DAY : Z := 0x07.
Definition MONTH : Z := 0x08.
Definition YEAR : Z := 0x09.

(** [CONV]: two decimal digits in a byte. *)
Definition bcd (x : Z) : Z := Z.shiftr x 4 * 10 + Z.land x 0xf.
Definition conv (t : rtcdate) : rtcdate :=
  Rtcdate (bcd (second t)) (bcd (minute t)) (bcd (hour t)) (bcd (day t)) (bcd (month t)) (bcd (year t)).

Section cmos.
Context (cmos : nat → Z → Z).

(** Six reads, from the [k]-th on. *)
Definition fill_rtcdate (k : nat) : rtcdate :=
  Rtcdate (cmos k SECS) (cmos (k + 1) MINS) (cmos (k + 2) HOURS) (cmos (k + 3) DAY) (cmos (k + 4) MONTH) (cmos (k + 5) YEAR).

(** The [for] loop, from the [k]-th read on; [None] when [fuel] rounds were not
    enough. *)
Fixpoint cmos_loop (fuel k : nat) : option rtcdate :=
  match fuel with
  | 0%nat => None
  | S n =>
      let t1 := fill_rtcdate k in
      if hasbit (cmos (k + 6) CMOS_STATA) CMOS_UIP then cmos_loop n (k + 7)
      else if decide (t1 = fill_rtcdate (k + 7)) then Some t1
      else cmos_loop n (k + 13)
  end.

Definition cmostime (fuel : nat) : option rtcdate :=
  let b := negb (hasbit (cmos 0 CMOS_STATB) (Z.shiftl 1 2)) in
  t ← cmos_loop fuel 1;
  let t := if b then conv t else t in
  Some (Rtcdate (second t) (minute t) (hour t) (day t) (month t) (u32 (year t + 2000))).
End cmos.

(** [struct rtcdate] in memory. *)
Definition RTCSIZE : Z := 24.
Definition rtcdate_bytes (t : rtcdate) : list Z :=
  concat (le_bytes 4 <$> [second t; minute t; hour t; day t; month t; year t]).

Definition sys_date {B} {O : KOps B} {PL : Lens B pst} (cmos : nat → Z → Z) (fuel : nat) : K (vst B) Z :=
  p ← argptr 0 RTCSIZE;
  match p with
  | None => mret (-1)
  | Some date =>
      match cmostime cmos fuel with
      | None => diverge
      | Some t => uwrite date (rtcdate_bytes t);; mret 0
      end
  end.

(** ** A clock that has been read is right *)

(** A number below 100 in binary-coded decimal, as the chip stores it. *)
Definition to_bcd (x : Z) : Z := 16 * (x / 10) + x `mod` 10.

Lemma bcd_to_bcd x : 0 ≤ x < 100 → bcd (to_bcd x) = x.
Proof.
  intros Hx. unfold bcd, to_bcd. rewrite Z.shiftr_div_pow2 by lia. change 0xf with (Z.ones 4). rewrite Z.land_ones by lia.
  change (2 ^ 4) with 16. Z.to_euclidean_division_equations; lia.
Qed.

(** The registers of a chip that shows the time [t] in the given mode. *)
Definition shows (dec : bool) (t : rtcdate) (r : Z → Z) : Prop :=
  let e := λ x, if dec then to_bcd x else x in
  r SECS = e (second t) ∧ r MINS = e (minute t) ∧ r HOURS = e (hour t) ∧
  r DAY = e (day t) ∧ r MONTH = e (month t) ∧ r YEAR = e (year t).

Definition two_digits (t : rtcdate) : Prop :=
  Forall (λ x, 0 ≤ x < 100) [second t; minute t; hour t; day t; month t; year t].

Lemma fill_shows dec t cmos k :
  (∀ j, (k ≤ j)%nat → shows dec t (cmos j)) →
  fill_rtcdate cmos k = (if dec then Rtcdate (to_bcd (second t)) (to_bcd (minute t)) (to_bcd (hour t))
    (to_bcd (day t)) (to_bcd (month t)) (to_bcd (year t)) else t).
Proof.
  intros H. unfold fill_rtcdate.
  destruct (H k) as (-> & _); [lia|]. destruct (H (k + 1)%nat) as (_ & -> & _); [lia|].
  destruct (H (k + 2)%nat) as (_ & _ & -> & _); [lia|]. destruct (H (k + 3)%nat) as (_ & _ & _ & -> & _); [lia|].
  destruct (H (k + 4)%nat) as (_ & _ & _ & _ & -> & _); [lia|]. destruct (H (k + 5)%nat) as (_ & _ & _ & _ & _ & ->); [lia|].
  destruct dec; [done|by destruct t].
Qed.

(** A reading taken twice in a row, with no update in between. *)
Definition settled (cmos : nat → Z → Z) (k : nat) : Prop :=
  hasbit (cmos (k + 6)%nat CMOS_STATA) CMOS_UIP = false ∧ fill_rtcdate cmos k = fill_rtcdate cmos (k + 7).

(** The loop ends at a settled reading, at the latest when the chip is steady. *)
Lemma cmos_loop_settles dec t cmos K :
  (∀ j, (K ≤ j)%nat → shows dec t (cmos j) ∧ hasbit (cmos j CMOS_STATA) CMOS_UIP = false) →
  ∀ n k, (K ≤ k + n)%nat → ∃ k', cmos_loop cmos (S n) k = Some (fill_rtcdate cmos k') ∧ settled cmos k'.
Proof.
  intros Hs. induction n as [|n IH]; intros k Hk; cbn [cmos_loop].
  - assert (settled cmos k) as [Hu He].
    { split; [apply Hs; lia|]. rewrite !(fill_shows dec t); [done|intros j Hj; apply Hs; lia..]. }
    rewrite Hu, decide_True by done. exists k. by split.
  - destruct (hasbit _ CMOS_UIP) eqn:Hu.
    + apply IH. lia.
    + destruct (decide (fill_rtcdate cmos k = fill_rtcdate cmos (k + 7))); [|apply IH; lia]. exists k. by split.
Qed.

(** The date [cmostime] makes of a reading. *)
Definition date_of (dec : bool) (t : rtcdate) : rtcdate :=
  let t := if dec then conv t else t in Rtcdate (second t) (minute t) (hour t) (day t) (month t) (u32 (year t + 2000)).

Lemma date_shows dec t cmos k :
  two_digits t → (∀ j, (k ≤ j)%nat → shows dec t (cmos j)) →
  date_of dec (fill_rtcdate cmos k) = Rtcdate (second t) (minute t) (hour t) (day t) (month t) (year t + 2000).
Proof.
  intros Ht Hs. rewrite (fill_shows dec t) by done. unfold two_digits in Ht. rewrite !Forall_cons in Ht.
  destruct Ht as (H1 & H2 & H3 & H4 & H5 & H6 & _). unfold date_of, conv.
  destruct dec; cbn [second minute hour day month year]; rewrite ?bcd_to_bcd by done; by rewrite u32_small by lia.
Qed.

(** ** Property *)

(** C37: [cmostime] returns as soon as the clock chip stands still, however its
    registers changed before: if from the [K]-th read on the chip shows a time
    and has no update in progress, [K + 1] rounds of the loop are enough.  What
    it returns is the date of a reading that was taken twice in a row with no
    update in between; if the chip showed the time all along, it is that time,
    in either of the chip's number formats, in the years from 2000. *)
Theorem cmostime_returns cmos dec t K :
  two_digits t → hasbit (cmos 0%nat CMOS_STATB) (Z.shiftl 1 2) = negb dec →
  (∀ j, (K ≤ j)%nat → shows dec t (cmos j) ∧ hasbit (cmos j CMOS_STATA) CMOS_UIP = false) →
  ∃ k, settled cmos k ∧ cmostime cmos (S K) = Some (date_of dec (fill_rtcdate cmos k)) ∧
    ((∀ j, shows dec t (cmos j)) →
      cmostime cmos (S K) = Some (Rtcdate (second t) (minute t) (hour t) (day t) (month t) (year t + 2000))).
Proof.
  intros Ht Hb Hs. destruct (cmos_loop_settles dec t cmos K Hs K 1 ltac:(lia)) as (k & Hr & Hk). exists k.
  assert (cmostime cmos (S K) = Some (date_of dec (fill_rtcdate cmos k))) as Hc.
  { unfold cmostime. rewrite Hr, Hb, negb_involutive. done. }
  split_and!; [done|done|]. intros Ha. rewrite Hc. f_equal. by apply date_shows.
Qed.

(** A chip that updates its time during the first reads, then shows 23:59:58 on
    the 31st of December 2026 in binary-coded decimal. *)
Definition chip (j : nat) (reg : Z) : Z :=
  if reg =? CMOS_STATA then (if (j <? 10)%nat then 0x80 else 0)
  else if reg =? CMOS_STATB then 0
  else if reg =? SECS then (if (j <? 10)%nat then 0x57 else 0x58)
  else if reg =? MINS then 0x59
  else if reg =? HOURS then 0x23
  else if reg =? DAY then 0x31
  else if reg =? MONTH then 0x12
  else 0x26.

Lemma cmostime_returns_witness : ∃ k, settled chip k ∧ cmostime chip 11 = Some (date_of true (fill_rtcdate chip k)).
Proof.
  destruct (cmostime_returns chip true (Rtcdate 58 59 23 31 12 26) 10) as (k & Hk & Hr & _).
  - repeat constructor; discriminate.
  - reflexivity.
  - intros j Hj. unfold chip. destruct (Nat.ltb_spec j 10); [lia|]. split; [|reflexivity]. split_and!; reflexivity.
  - exists k. split; [exact Hk|exact Hr].
Defined.
