(* ===== verification/Trap.v ===== *)
(** * Traps and the system call table (trap.c, traps.h, and syscall of syscall.c)

    The whole kernel put together: the state is [sst cst], all components with
    the console at the bottom, and the devices are the console (CONSOLE) and the
    in-memory disk, whose interrupt handler does nothing.  [cmos] and [cr2] are
    the clock chip and the faulting address, [ticks_cpu0] whether this is CPU 0.
    Acknowledging an interrupt at the local APIC has no effect on the state. *)
From S2P Require Import Prelude Spinlock Str Ptable PtableLists Sched Services Kalloc BioRing Bio DiskFmt Log Fs File Vm ProcLife Syscall Exec Sysfile Console Kbd Rtc Irq.

Definition T_SYSCALL : Z := 64.
Definition IRQ_SPURIOUS : Z := 31.

(** [ideintr] of memide.c. *)
Definition ideintr {S} : K S unit := mret tt.

Section trap.
Context (kend kdata trapret forkret_addr : Z) (retries : nat) (cmos : nat → Z → Z).

(** The table [syscalls], by the numbers of syscall.h. *)
Definition syscalls : list (option (K (sst cst) Z)) :=
  let v m := Some (onv m) in
  [ None;
    v (sys_fork kend kdata trapret forkret_addr);
    v (sys_exit kend retries);
    v (sys_wait kend retries);
    v (sys_pipe kend retries);
    v (sys_read retries (devsw_read retries));
    v sys_kill;
    v (sys_exec kend kdata retries (devsw_read retries));
    v (sys_fstat retries);
    v (sys_chdir retries (devsw_read retries));
    v sys_dup;
    v sys_getpid;
    v (sys_sbrk kend);
    Some (sys_sleep retries);
    Some sys_uptime;
    v (sys_open kend retries (devsw_read retries) (devsw_write retries));
    v (sys_write retries (devsw_write retries));
    v (sys_mknod retries (devsw_read retries) (devsw_write retries));
    v (sys_unlink retries (devsw_read retries) (devsw_write retries));
    v (sys_link retries (devsw_read retries) (devsw_write retries));
    v (sys_mkdir retries (devsw_read retries) (devsw_write retries));
    v (sys_close kend retries);
    v (sys_date cmos retries);
    v sys_getuid;
    v sys_getgid;
    v sys_getppid;
    v sys_setuid;
    v sys_setgid;
    v sys_getprocs;
    v sys_setpriority ].

(** The lower levels of the state. *)
Definition at_c {A} (m : K cst A) : K (sst cst) A := onv (onk (lift m)).
Definition at_p {A} (m : K pst A) : K (sst cst) A := onv (onp m).

Definition unknown_fmt : list Z := chars "%d %s: unknown sys call %d" ++ [10].

Definition syscall : K (sst cst) unit :=
  p ← at_p myproc;
  q ← at_p (getp p);
  let num := i32 (tf_eax (p_frame q)) in
  match (if (num >? 0) && (num <? Z.of_nat (length syscalls)) then syscalls !! Z.to_nat num else None) with
  | Some (Some f) =>
      r ← f;
      p ← at_p myproc;
      at_p (setp p (λ q, set_p_frame (set_tf_eax (u32 r) (p_frame q)) q))
  | _ =>
      at_c (cprintf unknown_fmt [Aint (p_pid q); Astr (Some (str_of (p_name q))); Aint num]);;
      at_p (setp p (λ q, set_p_frame (set_tf_eax (u32 (-1)) (p_frame q)) q))
  end.

(** [if(proc->killed) exit();] *)
Definition exit_killed : K (sst cst) unit :=
  p ← at_p myproc;
  q ← at_p (getp p);
  if p_killed q then onv (exit kend retries) else mret tt.

(** [if(proc && proc->killed && (tf->cs&3) == DPL_USER) exit();] *)
Definition exit_killed_user (tf : trapframe) : K (sst cst) unit :=
  o ← at_p (gets curproc);
  match o with
  | None => mret tt
  | Some p =>
      q ← at_p (getp p);
      if p_killed q && (Z.land (tf_cs tf) 3 =? DPL_USER) then onv (exit kend retries) else mret tt
  end.

Definition spurious_fmt : list Z := chars "cpu%d: spurious interrupt at %x:%x" ++ [10].
Definition unexpected_fmt : list Z := chars "unexpected trap %d from cpu %d eip %x (cr2=0x%x)" ++ [10].
Definition kill_fmt : list Z := chars "pid %d %s: trap %d err %d on cpu %d eip 0x%x addr 0x%x--kill proc" ++ [10].

(** The [switch] of [trap]. *)
Definition interrupt (cr2 : Z) (tf : trapframe) : K (sst cst) unit :=
  m ← at_p (gets mch);
  let id := Z.of_nat (self m) in
  let no := tf_trapno tf in
  if no =? T_IRQ0 + IRQ_TIMER then
    if id =? 0 then clock_tick else mret tt
  else if no =? T_IRQ0 + IRQ_IDE then ideintr
  else if no =? T_IRQ0 + IRQ_IDE + 1 then mret tt
  else if no =? T_IRQ0 + IRQ_KBD then onv (onk kbdintr)
  else if no =? T_IRQ0 + IRQ_COM1 then onv (onk uartintr)
  else if (no =? T_IRQ0 + 7) || (no =? T_IRQ0 + IRQ_SPURIOUS) then
    at_c (cprintf spurious_fmt [Aint id; Aint (tf_cs tf); Aint (tf_eip tf)])
  else
    o ← at_p (gets curproc);
    match o with
    | Some p =>
        if Z.land (tf_cs tf) 3 =? 0 then
          at_c (cprintf unexpected_fmt [Aint no; Aint id; Aint (tf_eip tf); Aint cr2]);;
          panic "trap"
        else
          q ← at_p (getp p);
          at_c (cprintf kill_fmt [Aint (p_pid q); Astr (Some (str_of (p_name q))); Aint no; Aint (tf_err tf); Aint id;
            Aint (tf_eip tf); Aint cr2]);;
          at_p (setp p (set_p_killed true))
    | None =>
        at_c (cprintf unexpected_fmt [Aint no; Aint id; Aint (tf_eip tf); Aint cr2]);;
        panic "trap"
    end.

(** [proc->tf = tf] makes the frame the process's own; its address on the kernel
    stack is always the one [allocproc] stored. *)
Definition trap (cr2 : Z) (tf : trapframe) : K (sst cst) unit :=
  if tf_trapno tf =? T_SYSCALL then
    exit_killed;;
    p ← at_p myproc;
    at_p (setp p (set_p_frame tf));;
    syscall;;
    exit_killed
  else
    interrupt cr2 tf;;
    exit_killed_user tf;;
    o ← at_p (gets curproc);
    (match o with
     | None => mret tt
     | Some p =>
         q ← at_p (getp p);
         if bool_decide (p_state q = RUNNING) && (tf_trapno tf =? T_IRQ0 + IRQ_TIMER) then at_p yield else mret tt
     end);;
    exit_killed_user tf.
End trap.
