(* ===== verification/Umalloc.v ===== *)
(** * The user-level memory allocator (umalloc.c)

    The state is what the allocator sees of its process: the header cells of its
    memory by address, the static [freep], and the process size that [sbrk]
    moves.  A header is eight bytes, so [p + n] on headers is [p + 8 * n].  The
    static [base] lies at an address the linker chooses; whether the kernel has
    the memory to grow the process is outside this program: both are arguments. *)
From S2P Require Import Prelude Spinlock Str Ptable PtableLists Sched Services Kalloc.

Definition HDR : Z := 8.

Record header := Header { h_ptr : Z; h_size : Z }.
Definition set_h_ptr (x : Z) (h : header) : header := Header x (h_size h).
Definition set_h_size (x : Z) (h : header) : header := Header (h_ptr h) x.

Record ust := Ust { cells : gmap Z header; freep : Z; brk : Z }.
Definition set_cells (x : gmap Z header) (s : ust) : ust := Ust x (freep s) (brk s).
Definition set_freep (x : Z) (s : ust) : ust := Ust (cells s) x (brk s).
Definition set_brk (x : Z) (s : ust) : ust := Ust (cells s) (freep s) x.

(** Pages are mapped up to the one that holds the last byte of the process;
    anything else faults, which kills the process. *)
Definition mapped_cell (a : Z) (s : ust) : bool := (0 <=? a) && (a + HDR <=? PGROUNDUP (brk s)).

Definition cell (s : ust) (a : Z) : header := default (Header 0 0) (cells s !! a).

Definition geth (a : Z) : K ust header := λ s, if mapped_cell a s then Ok (cell s a) s else Fault.
Definition seth (a : Z) (f : header → header) : K ust unit := λ s,
  if mapped_cell a s then Ok tt (set_cells (<[a := f (cell s a)]> (cells s)) s) else Fault.

Section umalloc.
Context (base : Z) (avail : Z → bool).

(** The pages above the new size are lost. *)
Definition shrink (sz : Z) (s : ust) : ust :=
  set_brk sz (set_cells (filter (λ c, c.1 + HDR ≤ PGROUNDUP sz) (cells s)) s).

(** [sbrk(n)], as sys_sbrk and growproc carry it out on the size of the process:
    [avail sz] says whether the kernel finds the pages. *)
Definition sbrk (n : Z) : K ust Z :=
  sz ← gets brk;
  let newsz := u32 (sz + n) in
  if n >? 0 then
    if newsz >=? KERNBASE then mret (u32 (-1))
    else if newsz <? sz then mret sz
    else if avail newsz then modify (set_brk newsz);; mret sz
    else mret (u32 (-1))
  else if n <? 0 then
    let sz' := if newsz >=? sz then sz else newsz in
    if sz' =? 0 then mret (u32 (-1)) else modify (shrink sz');; mret sz
  else mret sz.

(** The search loop of [free]: the place for [bp] is behind the result. *)
Definition free_step (bp p : Z) : K ust (Z + Z) :=
  h ← geth p;
  if (bp >? p) && (bp <? h_ptr h) then mret (inr p)
  else if (p >=? h_ptr h) && ((bp >? p) || (bp <? h_ptr h)) then mret (inr p)
  else mret (inl (h_ptr h)).

(** The block takes its neighbour above along, if that is free. *)
Definition join_above (bp p : Z) : K ust unit :=
  hb ← geth bp;
  hp ← geth p;
  if u32 (bp + HDR * h_size hb) =? h_ptr hp then
    hn ← geth (h_ptr hp);
    seth bp (set_h_size (u32 (h_size hb + h_size hn)));;
    hn ← geth (h_ptr hp);
    seth bp (set_h_ptr (h_ptr hn))
  else seth bp (set_h_ptr (h_ptr hp)).

(** It joins its neighbour below, or is linked behind it. *)
Definition join_below (bp p : Z) : K ust unit :=
  hp ← geth p;
  if u32 (p + HDR * h_size hp) =? bp then
    hb ← geth bp;
    seth p (set_h_size (u32 (h_size hp + h_size hb)));;
    hb ← geth bp;
    seth p (set_h_ptr (h_ptr hb))
  else seth p (set_h_ptr bp).

Definition free (fuel : nat) (ap : Z) : K ust unit :=
  let bp := u32 (ap - HDR) in
  f ← gets freep;
  p ← while fuel (free_step bp) f;
  join_above bp p;;
  join_below bp p;;
  modify (set_freep p).

Definition morecore (fuel : nat) (nu : Z) : K ust Z :=
  let nu := if nu <? 4096 then 4096 else nu in
  p ← sbrk (i32 (u32 (nu * HDR)));
  if p =? u32 (-1) then mret 0
  else
    seth p (set_h_size nu);;
    free fuel (u32 (p + HDR));;
    gets freep.

(** Cutting [nunits] out of the block [p] behind [prevp]; the pointer for the
    caller. *)
Definition take_block (nunits prevp p : Z) : K ust Z :=
  h ← geth p;
  r ← (if h_size h =? nunits then
         seth prevp (set_h_ptr (h_ptr h));;
         mret p
       else
         seth p (set_h_size (u32 (h_size h - nunits)));;
         h ← geth p;
         let q := u32 (p + HDR * h_size h) in
         seth q (set_h_size nunits);;
         mret q);
  modify (set_freep prevp);;
  mret (u32 (r + HDR)).

(** One round of the loop of [malloc] at [(prevp, p)]; [inr] is its [return],
    with the value in the first component. *)
Definition malloc_step (fuel : nat) (nunits : Z) (x : Z * Z) : K ust (Z * Z + Z * Z) :=
  let '(prevp, p) := x in
  h ← geth p;
  if h_size h >=? nunits then
    r ← take_block nunits prevp p;
    mret (inr (r, 0))
  else
    f ← gets freep;
    if p =? f then
      p' ← morecore fuel nunits;
      if p' =? 0 then mret (inr (0, 0))
      else h ← geth p'; mret (inl (p', h_ptr h))
    else mret (inl (p, h_ptr h)).

Definition units (nbytes : Z) : Z := u32 (u32 (nbytes + HDR - 1) / HDR + 1).

Definition malloc (fuel : nat) (nbytes : Z) : K ust Z :=
  let nunits := units nbytes in
  f ← gets freep;
  prevp ← (if f =? 0 then
             seth base (set_h_ptr base);;
             modify (set_freep base);;
             seth base (set_h_size 0);;
             mret base
           else mret f);
  h ← geth prevp;
  r ← while fuel (malloc_step fuel nunits) (prevp, h_ptr h);
  mret (fst r).
End umalloc.
