(* ===== verification/UmallocFacts.v ===== *)
(** * The user-level allocator: its ring of free blocks

    A block is the address of its header and its length in header units.
    [heap_ok R A]: the ring links the blocks [R] in ascending order, starting
    with the empty block of the static [base], no two of them adjacent; [A] are
    the blocks in use; all are disjoint and inside the process. *)
From S2P Require Import Prelude Spinlock Str Ptable PtableLists Sched Services Kalloc Umalloc.

Notation blk := (Z * Z)%type.
Definition blk_end (x : blk) : Z := x.1 + HDR * x.2.

(** ** Ascending blocks *)

Fixpoint asc (l : list blk) : Prop :=
  match l with
  | [] => True
  | x :: l' => Forall (λ y, blk_end x < y.1) l' ∧ asc l'
  end.

Lemma asc_app l1 l2 :
  asc (l1 ++ l2) ↔ asc l1 ∧ asc l2 ∧ ∀ x y, x ∈ l1 → y ∈ l2 → blk_end x < y.1.
Proof.
  induction l1 as [|x l1 IH]; simpl; [set_solver|]. rewrite Forall_app, IH, !Forall_forall. set_solver.
Qed.

(** Where a block goes: behind the last one that starts below it. *)
Lemma asc_split l a x0 :
  asc (x0 :: l) → Forall (λ x, 0 ≤ x.2) (x0 :: l) → x0.1 < a →
  ∃ X p Y, x0 :: l = X ++ p :: Y ∧ Forall (λ x, x.1 < a) (X ++ [p]) ∧ Forall (λ y, a ≤ y.1) Y.
Proof.
  revert x0. induction l as [|x1 l IH]; intros x0 Ha Hs Hlt.
  - exists [], x0, []. split_and!; [done|by repeat constructor|constructor].
  - destruct (Z.lt_ge_cases x1.1 a) as [H1|H1].
    + destruct Ha as [_ Ha]. apply Forall_cons in Hs as [_ Hs].
      destruct (IH x1 Ha Hs H1) as (X & p & Y & -> & HX & HY).
      exists (x0 :: X), p, Y. split_and!; [done|by constructor|done].
    + exists [], x0, (x1 :: l). split_and!; [done|by repeat constructor|].
      destruct Ha as [_ [Ha _]]. apply Forall_cons in Hs as [_ [Hs _]%Forall_cons].
      constructor; [done|]. eapply Forall_impl; [exact Ha|]. intros y Hy. unfold blk_end, HDR in Hy.
      cbv beta in Hy, Hs. lia.
Qed.

(** ** Disjoint blocks *)

Definition apart (x y : blk) : Prop := blk_end x ≤ y.1 ∨ blk_end y ≤ x.1.

Fixpoint disjoint_blocks (l : list blk) : Prop :=
  match l with
  | [] => True
  | x :: l' => Forall (apart x) l' ∧ disjoint_blocks l'
  end.

Lemma apart_sym x y : apart x y → apart y x.
Proof. unfold apart. tauto. Qed.

#[global] Instance disjoint_blocks_proper : Proper ((≡ₚ) ==> iff) disjoint_blocks.
Proof.
  assert (∀ l l', l ≡ₚ l' → disjoint_blocks l → disjoint_blocks l') as Himp.
  { induction 1 as [|x l l' Hp IH|x y l|l l' l'' _ IH1 _ IH2]; simpl; [done|..].
    - intros [H1 H2]. split; [by rewrite <- Hp|auto].
    - rewrite !Forall_cons. intros [[H1 H2] [H3 H4]]. split_and!; try done; by apply apart_sym.
    - auto. }
  intros l l' Hp. split; apply Himp; [done|by symmetry].
Qed.

Lemma disjoint_app_1 l1 l2 x y :
  disjoint_blocks (l1 ++ l2) → x ∈ l1 → y ∈ l2 → apart x y.
Proof.
  induction l1 as [|z l1 IH]; simpl; [set_solver|]. rewrite Forall_app, !Forall_forall.
  intros [[_ H1] H2] [->|Hx]%elem_of_cons Hy; auto.
Qed.

(** ** The ring *)

Definition hd_addr (l : list blk) (z : Z) : Z := match l with [] => z | x :: _ => x.1 end.

Fixpoint linked (s : ust) (l : list blk) (z : Z) : Prop :=
  match l with
  | [] => True
  | x :: l' => cell s x.1 = Header (hd_addr l' z) x.2 ∧ linked s l' z
  end.

Lemma linked_app s l1 l2 z : linked s (l1 ++ l2) z ↔ linked s l1 (hd_addr l2 z) ∧ linked s l2 z.
Proof.
  induction l1 as [|x l1 IH]; simpl; [tauto|]. rewrite IH. destruct l1; simpl; tauto.
Qed.

Lemma linked_frame s s' l z : (∀ x, x ∈ l → cell s' x.1 = cell s x.1) → linked s l z → linked s' l z.
Proof.
  induction l as [|x l IH]; simpl; [done|]. intros Hf [H1 H2]. split.
  - rewrite Hf by set_solver. done.
  - apply IH; [|done]. intros y Hy. apply Hf. set_solver.
Qed.

Lemma linked_lookup s l z i x :
  linked s l z → l !! i = Some x → cell s x.1 = Header (hd_addr (drop (S i) l) z) x.2.
Proof.
  revert i. induction l as [|y l IH]; intros [|i] Hl Hi; simplify_eq/=; [by destruct Hl|].
  apply IH; [by destruct Hl|done].
Qed.

(** The node after node [i] of a ring. *)
Definition nxt (R : list blk) (i : nat) : nat := if decide (S i < length R)%nat then S i else 0%nat.

Lemma ring_lookup s x0 l i x :
  linked s (x0 :: l) x0.1 → (x0 :: l) !! i = Some x →
  ∃ y, (x0 :: l) !! nxt (x0 :: l) i = Some y ∧ cell s x.1 = Header y.1 x.2.
Proof.
  intros Hl Hi. rewrite (linked_lookup _ _ _ _ _ Hl Hi). unfold nxt. case_decide as Hd.
  - destruct (lookup_lt_is_Some_2 (x0 :: l) (S i) Hd) as [y Hy]. exists y. split; [done|].
    by rewrite (drop_S _ _ _ Hy).
  - exists x0. split; [done|]. by rewrite drop_ge by lia.
Qed.

(** ** The invariant *)

Section heap.
Context (base : Z).

Definition block_in (e : Z) (x : blk) : Prop :=
  x.1 `mod` HDR = 0 ∧ blk_end x ≤ e ∧ (x = (base, 0) ∨ base + HDR ≤ x.1 ∧ 1 ≤ x.2).

Record heap_ok (R A : list blk) (s : ust) : Prop := Heap_ok {
  hk_base : head R = Some (base, 0);
  hk_linked : linked s R base;
  hk_asc : asc R;
  hk_freep : ∃ n, (freep s, n) ∈ R;
  hk_used : Forall (λ x, x ≠ (base, 0) ∧ h_size (cell s x.1) = x.2) A;
  hk_disjoint : disjoint_blocks (R ++ A);
  hk_in : Forall (block_in (brk s)) (R ++ A);
  hk_brk : 0 < base ∧ base `mod` HDR = 0 ∧ base + HDR ≤ brk s ∧ brk s `mod` HDR = 0 ∧ brk s ≤ KERNBASE
}.

#[global] Instance heap_ok_proper R : Proper ((≡ₚ) ==> (=) ==> impl) (heap_ok R).
Proof. intros A A' HA s ? <- [H1 H2 H3 H4 H5 H6 H7 H8]. rewrite HA in H5, H6, H7. by split. Qed.

(** Memory of the blocks in use is not written. *)
Definition untouched (A : list blk) (s s' : ust) : Prop :=
  ∀ x c, x ∈ A → x.1 ≤ c < blk_end x → cells s' !! c = cells s !! c.

(** ** Cells *)

Definition store (a : Z) (h : header) (s : ust) : ust := set_cells (<[a := h]> (cells s)) s.

Lemma cell_store a h s b : cell (store a h s) b = if decide (a = b) then h else cell s b.
Proof.
  unfold cell, store. cbn [cells set_cells]. destruct (decide (a = b)) as [->|].
  - by rewrite lookup_insert_eq.
  - by rewrite lookup_insert_ne.
Qed.

Lemma cell_store_eq a h s : cell (store a h s) a = h.
Proof. by rewrite cell_store, decide_True. Qed.
Lemma cell_store_ne a h s b : a ≠ b → cell (store a h s) b = cell s b.
Proof. intros. by rewrite cell_store, decide_False. Qed.

Lemma store_store a h h' s : store a h' (store a h s) = store a h' s.
Proof. unfold store. cbn. by rewrite insert_insert_eq. Qed.

Lemma PGROUNDUP_ge z : 0 ≤ z ≤ KERNBASE → z ≤ PGROUNDUP z.
Proof.
  intros H. unfold KERNBASE in H. rewrite PGROUNDUP_eq by (unfold PGSIZE; lia). unfold PGSIZE.
  pose proof (Z.div_mod (z + 4096 - 1) 4096 ltac:(lia)). pose proof (Z.mod_pos_bound (z + 4096 - 1) 4096). lia.
Qed.

(** The header at [a] lies inside the process. *)
Definition inside (a : Z) (s : ust) : Prop := 0 ≤ a ∧ a + HDR ≤ brk s ≤ KERNBASE.

Lemma inside_mapped a s : inside a s → mapped_cell a s = true.
Proof.
  intros [H1 H2]. unfold mapped_cell, HDR in *. pose proof (PGROUNDUP_ge (brk s)).
  rewrite (proj2 (Z.leb_le _ _)) by lia. simpl. apply Z.leb_le. lia.
Qed.

Lemma geth_ok a s : inside a s → geth a s = Ok (cell s a) s.
Proof. intros H. unfold geth. by rewrite inside_mapped. Qed.

Lemma seth_ok a f s : inside a s → seth a f s = Ok tt (store a (f (cell s a)) s).
Proof. intros H. unfold seth. by rewrite inside_mapped. Qed.

Lemma heap_inside R A s x : heap_ok R A s → x ∈ R ++ A → inside x.1 s.
Proof.
  intros [_ _ _ _ _ _ Hin (H1 & _ & H2 & _ & H3)] Hx. rewrite Forall_forall in Hin.
  destruct (Hin x Hx) as (_ & He & [->|[Hb Hn]]); unfold inside, blk_end, HDR in *; simpl in *; lia.
Qed.

(** ** Merging two adjacent blocks *)

Lemma disjoint_merge u v l :
  disjoint_blocks (u :: v :: l) → blk_end u = v.1 → 0 ≤ u.2 → 0 ≤ v.2 →
  Forall (λ z, 1 ≤ z.2 ∨ z = (base, 0) ∧ base < u.1) l → disjoint_blocks ((u.1, u.2 + v.2) :: l).
Proof.
  intros [[_ Hu]%Forall_cons [Hv Hl]] He H1 H2 Hz. split; [|done].
  rewrite Forall_forall in Hu, Hv, Hz |- *. intros z Hin. specialize (Hu z Hin). specialize (Hv z Hin).
  destruct (Hz z Hin) as [Hz1|[-> Hz1]]; unfold apart, blk_end, HDR in *; simpl in *; lia.
Qed.

Lemma block_in_merge e u v :
  block_in e u → block_in e v → blk_end u = v.1 → u ≠ (base, 0) → v ≠ (base, 0) → block_in e (u.1, u.2 + v.2).
Proof.
  intros (H1 & H2 & H3) (H4 & H5 & H6) He Hu Hv. unfold block_in, blk_end, HDR in *. simpl.
  destruct H3 as [|[]]; [done|]. destruct H6 as [|[]]; [done|]. split_and!; [done|lia|right; lia].
Qed.

(** ** The search of [free] *)

Section search.
Context (s : ust) (X Y : list blk) (p : blk) (a : Z).
Context (HR : head (X ++ p :: Y) = Some (base, 0)) (Hl : linked s (X ++ p :: Y) base)
  (Ha : asc (X ++ p :: Y)) (Hin : ∀ x, x ∈ X ++ p :: Y → inside x.1 s ∧ 0 ≤ x.2)
  (Hlo : Forall (λ x, x.1 < a) (X ++ [p])) (Hhi : Forall (λ y, a < y.1) Y).

#[local] Notation R := (X ++ p :: Y).

Lemma ring_next i x : R !! i = Some x → ∃ y, R !! nxt R i = Some y ∧ cell s x.1 = Header y.1 x.2.
Proof.
  intros Hi. destruct R as [|x0 l] eqn:E; [done|]. simpl in HR. injection HR as ->.
  by apply (ring_lookup s (base, 0) l).
Qed.

Lemma below i x : R !! i = Some x → (i ≤ length X)%nat → x.1 < a.
Proof.
  intros Hi Hle. rewrite Forall_forall in Hlo. apply Hlo. apply list_elem_of_lookup. exists i.
  destruct (decide (i = length X)) as [->|].
  - rewrite list_lookup_middle in Hi by done. rewrite lookup_app_r, Nat.sub_diag by done. done.
  - rewrite lookup_app_l in Hi by lia. by rewrite lookup_app_l by lia.
Qed.

Lemma above i x : R !! i = Some x → (length X < i)%nat → a < x.1.
Proof.
  intros Hi Hle. rewrite Forall_forall in Hhi. apply Hhi. apply list_elem_of_lookup.
  exists (i - length X - 1)%nat. rewrite lookup_app_r in Hi by lia.
  destruct (i - length X)%nat as [|j] eqn:E; [lia|]. simpl in Hi. by replace (S j - 1)%nat with j by lia.
Qed.

(** Links ascend, except the last, which leads back to [base]. *)
Lemma next_order i x y :
  R !! i = Some x → R !! nxt R i = Some y →
  if decide (S i < length R)%nat then x.1 < y.1 else y = (base, 0) ∧ base ≤ x.1.
Proof.
  intros Hi Hy. destruct (Hin x) as [_ Hx2]; [by eapply list_elem_of_lookup_2|].
  unfold nxt in Hy. case_decide as Hd.
  - rewrite <- (take_drop_middle R i x Hi) in Ha. apply asc_app in Ha as (_ & [Hall _] & _).
    rewrite (drop_S _ _ _ Hy), Forall_cons in Hall. destruct Hall as [Hall _].
    unfold blk_end, HDR in Hall. lia.
  - destruct R as [|x0 l] eqn:E; [done|]. simpl in HR, Hy. simplify_eq. split; [done|].
    destruct Ha as [Hall _]. destruct i as [|i]; simpl in Hi; [by simplify_eq|].
    rewrite Forall_forall in Hall. specialize (Hall x ltac:(by eapply list_elem_of_lookup_2)).
    unfold blk_end, HDR in Hall. simpl in Hall. lia.
Qed.

Lemma base_below : base < a.
Proof. apply (below 0 (base, 0)); [|lia]. by destruct R; simplify_eq/=. Qed.

Lemma step_at i x : R !! i = Some x →
  ∃ y, R !! nxt R i = Some y ∧
    free_step a x.1 s = Ok (if decide (i = length X) then inr x.1 else inl y.1) s.
Proof.
  intros Hi. destruct (ring_next i x Hi) as (y & Hy & Hc). exists y. split; [done|].
  destruct (Hin x) as [Hx _]; [by eapply list_elem_of_lookup_2|].
  unfold free_step. rewrite (bind_ok _ _ _ _ _ (geth_ok _ _ Hx)), Hc. cbn [h_ptr].
  pose proof (next_order i x y Hi Hy) as Hord. pose proof base_below as Hb.
  assert (if decide (i ≤ length X)%nat then x.1 < a else a < x.1) as Hx1.
  { destruct (decide (i ≤ length X)%nat); [by apply (below i)|apply (above i); [done|lia]]. }
  assert (if decide (S i < length R)%nat then if decide (S i ≤ length X)%nat then y.1 < a else a < y.1 else True) as Hy1.
  { unfold nxt in Hy. destruct (decide (S i < length R)%nat); [|done].
    destruct (decide (S i ≤ length X)%nat); [by apply (below (S i))|apply (above (S i)); [done|lia]]. }
  pose proof (lookup_lt_Some _ _ _ Hi) as Hlen. rewrite Z.gtb_ltb, Z.geb_leb.
  assert (length R = length X + S (length Y))%nat as HlenR by (by rewrite length_app).
  destruct (decide (S i < length R)%nat) as [Hd|Hd]; [|destruct Hord as [-> Hord]; cbn [fst]];
    destruct (decide (i = length X)) as [E|E]; repeat case_decide; try lia; zcases; try lia; done.
Qed.

(** From any node, the search ends at the place of [a]. *)
Lemma search_ok fuel i x : R !! i = Some x → (length R ≤ fuel)%nat → while fuel (free_step a) x.1 s = Ok p.1 s.
Proof.
  intros Hi Hf.
  assert (∀ d i x fuel, R !! i = Some x → (d < fuel)%nat →
    (i ≤ length X ∧ d = length X - i ∨ length X < i ∧ d = length R - i + length X)%nat →
    while fuel (free_step a) x.1 s = Ok p.1 s) as Hwalk.
  { clear dependent i x fuel. induction d as [|d IH]; intros i x fuel Hi Hf Hd;
      pose proof (lookup_lt_Some _ _ _ Hi) as Hlen; destruct fuel as [|fuel]; try lia;
      destruct (step_at i x Hi) as (y & Hy & Hs).
    - assert (i = length X) as -> by lia. rewrite decide_True in Hs by done.
      rewrite (while_ok _ _ _ _ _ _ Hs). rewrite list_lookup_middle in Hi by done. by simplify_eq.
    - rewrite decide_False in Hs by lia.
      rewrite (while_ok _ _ _ _ _ _ Hs). apply (IH (nxt R i)); [done|lia|].
      unfold nxt. rewrite length_app in Hlen, Hd |- *. simpl in *. case_decide; lia. }
  pose proof (lookup_lt_Some _ _ _ Hi) as Hlen. rewrite length_app in *. simpl in *.
  destruct (decide (i ≤ length X)%nat).
  - apply (Hwalk (length X - i)%nat i x fuel Hi); lia.
  - apply (Hwalk (length X + S (length Y) - i + length X)%nat i x fuel Hi); lia.
Qed.
End search.

(** ** Putting a block back *)

Definition heap_bounds (e : Z) : Prop :=
  0 < base ∧ base `mod` HDR = 0 ∧ base + HDR ≤ e ∧ e `mod` HDR = 0 ∧ e ≤ KERNBASE.

(** The block [(a, m)] is no longer in use and belongs between [p] and [Y]; the
    links of [p] are still the old ones. *)
Record parted (X : list blk) (p : blk) (Y : list blk) (a m : Z) (A : list blk) (s : ust) : Prop := Parted {
  pt_head : head (X ++ [p]) = Some (base, 0);
  pt_lower : linked s X p.1;
  pt_size : h_size (cell s p.1) = p.2;
  pt_cell : cell s a = Header (hd_addr Y base) m;
  pt_upper : linked s Y base;
  pt_asc : asc (X ++ p :: Y);
  pt_lo : blk_end p ≤ a;
  pt_hi : Forall (λ y, a + HDR * m < y.1) Y;
  pt_used : Forall (λ x, x ≠ (base, 0) ∧ h_size (cell s x.1) = x.2) A;
  pt_disjoint : disjoint_blocks ((a, m) :: (X ++ p :: Y) ++ A);
  pt_in : Forall (block_in (brk s)) ((a, m) :: (X ++ p :: Y) ++ A);
  pt_block : base + HDR ≤ a ∧ 1 ≤ m;
  pt_brk : heap_bounds (brk s)
}.

Lemma block_in_size e x : block_in e x → 0 ≤ x.2 ∧ base ≤ x.1 ∧ blk_end x ≤ e.
Proof. intros (_ & He & [->|[H1 H2]]); unfold blk_end, HDR in *; simpl in *; lia. Qed.

(** Two disjoint blocks that are not both empty have different headers. *)
Lemma block_in_ne e x y :
  block_in e x → block_in e y → apart x y → y ≠ (base, 0) → x.1 ≠ y.1.
Proof.
  intros (_ & He & Hx) (_ & He' & [Hy|Hy]) Hap Hne; [done|].
  destruct Hx as [->|Hx]; unfold apart, blk_end, HDR in *; simpl in *; lia.
Qed.

Lemma place_ok R A a n s :
  heap_ok R ((a, n) :: A) s →
  ∃ X p Y, R = X ++ p :: Y ∧ Forall (λ x, x.1 < a) (X ++ [p]) ∧ Forall (λ y, a + HDR * n ≤ y.1) Y ∧
    blk_end p ≤ a ∧ base + HDR ≤ a ∧ 1 ≤ n.
Proof.
  intros [Hb Hl Ha Hf Hu Hd Hi Hk]. apply Forall_cons in Hu as [[Hne _] _].
  assert (base + HDR ≤ a ∧ 1 ≤ n) as [H1 H2].
  { rewrite Forall_app, Forall_cons in Hi. destruct Hi as (_ & (_ & _ & [E|E]) & _); [done|exact E]. }
  assert (∀ x, x ∈ R → apart x (a, n)) as Hap.
  { intros x Hx. eapply disjoint_app_1; [exact Hd|done|set_solver]. }
  assert (∀ x, x ∈ R → block_in (brk s) x) as Hin.
  { rewrite Forall_app, Forall_forall in Hi. apply Hi. }
  destruct R as [|x0 l]; [done|]. simpl in Hb. injection Hb as ->.
  destruct (asc_split l a (base, 0) Ha) as (X & p & Y & E & HX & HY).
  { rewrite Forall_forall. intros x Hx. apply (block_in_size (brk s)), Hin, Hx. }
  { unfold HDR in H1. simpl. lia. }
  rewrite E in *. exists X, p, Y. split; [done|]. split; [done|]. rewrite Forall_forall in HX, HY |- *.
  split_and!; [|..|done|done].
  - intros y Hy. destruct (Hap y ltac:(set_solver)) as [Hay|Hay]; [|exact Hay].
    specialize (HY y Hy). destruct (Hin y ltac:(set_solver)) as (_ & _ & [->|[_ Hy2]]);
      unfold blk_end, HDR in *; simpl in *; lia.
  - destruct (Hap p ltac:(set_solver)) as [Hay|Hay]; [exact Hay|].
    specialize (HX p ltac:(set_solver)). unfold blk_end, HDR in *. simpl in *. lia.
Qed.

(** The headers of the other blocks are elsewhere. *)
Lemma header_ne e a m l x :
  disjoint_blocks ((a, m) :: l) → Forall (block_in e) ((a, m) :: l) → base + HDR ≤ a → x ∈ l → a ≠ x.1.
Proof.
  intros [Hd _] [Hi Hl]%Forall_cons Ha Hx. rewrite Forall_forall in Hd, Hl.
  apply not_eq_sym. apply (block_in_ne e x (a, m)); [by apply Hl|done|by apply apart_sym, Hd|].
  intros [= -> ->]. unfold HDR in Ha. lia.
Qed.

(** The other headers after storing one. *)
Lemma store_others e a m l h s x :
  disjoint_blocks ((a, m) :: l) → Forall (block_in e) ((a, m) :: l) → base + HDR ≤ a → x ∈ l →
  cell (store a h s) x.1 = cell s x.1.
Proof. intros Hd Hi Ha Hx. apply cell_store_ne. by eapply header_ne. Qed.

Lemma used_frame (A : list blk) s s' :
  (∀ x, x ∈ A → cell s' x.1 = cell s x.1) →
  Forall (λ x, x ≠ (base, 0) ∧ h_size (cell s x.1) = x.2) A →
  Forall (λ x, x ≠ (base, 0) ∧ h_size (cell s' x.1) = x.2) A.
Proof.
  intros Hf. rewrite !Forall_forall. intros Hu x Hx. rewrite Hf by done. by apply Hu.
Qed.

Lemma disjoint_perm_mid (R A : list blk) x : R ++ x :: A ≡ₚ x :: R ++ A.
Proof. by rewrite Permutation_middle. Qed.

(** Storing the header of the block, with a part [Y'] of [Y] above it. *)
Lemma parted_intro X p Y Y' A a n m s :
  heap_ok (X ++ p :: Y) ((a, n) :: A) s → blk_end p ≤ a → base + HDR ≤ a → 1 ≤ m →
  linked s Y' base → asc (X ++ p :: Y') → Forall (λ y, a + HDR * m < y.1) Y' →
  disjoint_blocks ((a, m) :: (X ++ p :: Y') ++ A) → Forall (block_in (brk s)) ((a, m) :: (X ++ p :: Y') ++ A) →
  parted X p Y' a m A (store a (Header (hd_addr Y' base) m) s).
Proof.
  intros [Hb Hl _ _ [_ Hu]%Forall_cons _ _ Hk] Hp Ha Hm Hl' Has Hhi Hd Hi.
  apply linked_app in Hl as [Hl1 [Hcp _]]. simpl in Hl1.
  assert (∀ x, x ∈ (X ++ p :: Y') ++ A → cell (store a (Header (hd_addr Y' base) m) s) x.1 = cell s x.1) as Hfr.
  { intros x Hx. by eapply store_others. }
  split; try done.
  - destruct X; simpl in *; done.
  - eapply linked_frame; [|exact Hl1]. intros x Hx. apply Hfr. set_solver.
  - rewrite Hfr by set_solver. by rewrite Hcp.
  - apply cell_store_eq.
  - eapply linked_frame; [|exact Hl']. intros x Hx. apply Hfr. set_solver.
  - eapply used_frame; [|exact Hu]. intros x Hx. apply Hfr. set_solver.
Qed.

Lemma asc_drop X p y Y : asc (X ++ p :: y :: Y) → asc (X ++ p :: Y).
Proof.
  rewrite !(asc_app X). simpl. rewrite !Forall_cons. intros (H1 & ([H2 H3] & H4 & H5) & H6).
  split_and!; [done..|]. intros x z Hx Hz. apply H6; [done|]. set_solver.
Qed.

Lemma perm_pick (X Y A : list blk) p y : (X ++ p :: y :: Y) ++ A ≡ₚ y :: (X ++ p :: Y) ++ A.
Proof.
  induction X as [|x X IH]; simpl; [apply Permutation_swap|]. rewrite IH. apply Permutation_swap.
Qed.

Lemma sizes_in e u l : base < u → Forall (block_in e) l → Forall (λ z, 1 ≤ z.2 ∨ z = (base, 0) ∧ base < u) l.
Proof. intros Hu Hl. eapply Forall_impl; [exact Hl|]. intros z (_ & _ & [->|[_ ?]]); auto. Qed.

Lemma join_above_ok X p Y A a n s :
  heap_ok (X ++ p :: Y) ((a, n) :: A) s → Forall (λ y, a + HDR * n ≤ y.1) Y → blk_end p ≤ a →
  base + HDR ≤ a → 1 ≤ n →
  ∃ m Y', join_above a p.1 s = Ok tt (store a (Header (hd_addr Y' base) m) s) ∧
    parted X p Y' a m A (store a (Header (hd_addr Y' base) m) s) ∧ n ≤ m ∧ (length Y' ≤ length Y)%nat.
Proof.
  intros Hok HY Hp Ha Hn. pose proof Hok as [Hb Hl Has Hf [[_ Hsz] Hu]%Forall_cons Hd Hi Hk].
  pose proof (heap_inside _ _ _ p Hok ltac:(set_solver)) as Ip.
  pose proof (heap_inside _ _ _ (a, n) Hok ltac:(set_solver)) as Ia.
  rewrite disjoint_perm_mid in Hd, Hi.
  apply linked_app in Hl as [Hl1 [Hcp Hl2]]. simpl in Hl1, Hsz.
  assert (a + HDR * n ≤ brk s ≤ KERNBASE) as Hrange.
  { apply Forall_cons in Hi as [(_ & He & _) _]. split; [exact He|apply Ia]. }
  unfold join_above. rewrite (bind_ok _ _ _ _ _ (geth_ok _ _ Ia)), (bind_ok _ _ _ _ _ (geth_ok _ _ Ip)).
  cbn [fst] in *. rewrite Hcp, Hsz. cbn [h_ptr].
  rewrite u32_small by (unfold HDR, KERNBASE, inside in *; lia).
  destruct (Z.eqb_spec (a + HDR * n) (hd_addr Y base)) as [E|E].
  - destruct Y as [|y Y]; [unfold HDR in *; simpl in E; lia|]. simpl in E. destruct Hl2 as [Hcy Hl2].
    pose proof (heap_inside _ _ _ y Hok ltac:(set_solver)) as Iy.
    assert (block_in (brk s) y) as Hyb by (rewrite Forall_forall in Hi; apply Hi; set_solver).
    assert (1 ≤ y.2 ∧ blk_end y ≤ brk s) as [Hy1 Hy2].
    { destruct Hyb as (_ & He & [->|[_ ?]]); [unfold HDR in *; simpl in E; lia|done]. }
    assert (u32 (n + y.2) = n + y.2) as Hsum.
    { apply u32_small. unfold blk_end, HDR, KERNBASE in *. lia. }
    exists (n + y.2), Y. split; [|split; [|split; [lia|simpl; lia]]].
    + cbn [hd_addr]. rewrite (bind_ok _ _ _ _ _ (geth_ok _ _ Iy)), Hcy. cbn [h_size]. rewrite Hsum.
      rewrite (bind_ok _ _ _ _ _ (seth_ok _ _ _ Ia)).
      rewrite (bind_ok _ _ _ _ _ (geth_ok y.1 (store a _ s) Iy)).
      rewrite cell_store_ne, Hcy by (unfold HDR in *; lia).
      by rewrite (seth_ok a _ (store a _ s) Ia), store_store, cell_store_eq.
    + apply (parted_intro _ _ (y :: Y) _ _ _ n); try done; [lia|by eapply asc_drop|..].
      * apply asc_app in Has as (_ & (_ & Hall & _) & _). eapply Forall_impl; [exact Hall|].
        intros z Hz. unfold blk_end, HDR in *. cbv beta in Hz. lia.
      * apply (disjoint_merge (a, n) y); [|simpl; exact E|simpl; lia|lia|].
        -- simpl in Hd |- *. by rewrite perm_pick in Hd.
        -- rewrite perm_pick, !Forall_cons in Hi. eapply sizes_in; [simpl; unfold HDR in Ha; lia|apply Hi].
      * rewrite perm_pick, !Forall_cons in Hi. constructor; [|apply Hi].
        apply (block_in_merge (brk s) (a, n) y); [apply Hi|done|done|..].
        -- intros [= ->]. unfold HDR in Ha. lia.
        -- intros ->. simpl in Hy1. lia.
  - exists n, Y. split; [|split; [|lia]].
    + rewrite (seth_ok _ _ _ Ia). unfold set_h_ptr. by rewrite Hsz.
    + apply (parted_intro _ _ Y _ _ _ n); try done.
      destruct Y as [|y Y]; [constructor|]. apply asc_app in Has as (_ & (_ & Hall & _) & _). simpl in E.
      destruct (block_in_size (brk s) y) as [Hy0 _]; [rewrite Forall_forall in Hi; apply Hi; set_solver|].
      apply Forall_cons in HY as [Hy _]. constructor; [lia|]. eapply Forall_impl; [exact Hall|].
      intros z Hz. cbv beta in Hz. unfold blk_end, HDR in *. lia.
Qed.

Lemma parted_inside X p Y a m A s x :
  parted X p Y a m A s → x ∈ (a, m) :: (X ++ p :: Y) ++ A → inside x.1 s.
Proof.
  intros [_ _ _ _ _ _ _ _ _ _ Hi _ (K1 & _ & K2 & _ & K3)] Hx. rewrite Forall_forall in Hi.
  destruct (Hi x Hx) as (_ & He & [->|[? ?]]); unfold inside, blk_end, HDR in *; simpl in *; lia.
Qed.

(** In an ascending ring, no other block shares the header of [x]. *)
Lemma others_ne e X x Z A z :
  asc (X ++ x :: Z) → disjoint_blocks ((X ++ x :: Z) ++ A) → Forall (block_in e) ((X ++ x :: Z) ++ A) →
  Forall (λ y, y ≠ (base, 0)) A → z ∈ X ++ Z ++ A → x.1 ≠ z.1.
Proof.
  intros Has Hd Hi Hu Hz. rewrite Forall_forall in Hi, Hu.
  assert (∀ y, y ∈ (X ++ x :: Z) ++ A → 0 ≤ y.2) as Hsz.
  { intros y Hy. apply (block_in_size e), Hi. set_solver. }
  apply asc_app in Has as (_ & [Hp _] & HX). rewrite Forall_forall in Hp.
  rewrite !elem_of_app in Hz. destruct Hz as [Hz|[Hz|Hz]].
  - specialize (HX z x Hz ltac:(set_solver)). specialize (Hsz z ltac:(set_solver)).
    unfold blk_end, HDR in HX. lia.
  - specialize (Hp z Hz). specialize (Hsz x ltac:(set_solver)). unfold blk_end, HDR in Hp. lia.
  - apply (block_in_ne e x z); [apply Hi; set_solver|apply Hi; set_solver| |by apply Hu].
    apply (disjoint_app_1 (X ++ x :: Z) A); [exact Hd|set_solver|done].
Qed.

Lemma parted_others X p Y a m A s h x :
  parted X p Y a m A s → x ∈ X ++ Y ++ A → cell (store p.1 h s) x.1 = cell s x.1.
Proof.
  intros [_ _ _ _ _ Has _ _ Hu [_ Hd] [_ Hi]%Forall_cons _ _] Hx. apply cell_store_ne.
  eapply others_ne; [done..| |done]. eapply Forall_impl; [exact Hu|]. by intros ? [? _].
Qed.

Lemma perm_lift (X Y A : list blk) p q : q :: (X ++ p :: Y) ++ A ≡ₚ p :: q :: X ++ Y ++ A.
Proof. rewrite <- (Permutation_middle X Y p). simpl. rewrite <- app_assoc. apply Permutation_swap. Qed.

(** The ring is whole again: the block grew its neighbour below ... *)
Lemma grown_ok X p Y A a m s h :
  parted X p Y a m A s → blk_end p = a → h = Header (hd_addr Y base) (p.2 + m) →
  heap_ok (X ++ (p.1, p.2 + m) :: Y) A (set_freep p.1 (store p.1 h s)).
Proof.
  intros Hpt He ->. pose proof (λ x, parted_others _ _ _ _ _ _ _ (Header (hd_addr Y base) (p.2 + m)) x Hpt) as Hfr.
  destruct Hpt as [Hb Hl1 Hsz Hca Hl2 Has Hlo Hhi Hu Hd Hi [Ha Hm] Hk].
  assert (p ≠ (base, 0)) as Hpne by (intros ->; unfold blk_end, HDR in *; simpl in He; lia).
  rewrite perm_lift in Hd, Hi. pose proof Hi as [Hpi [Hai Hrest]%Forall_cons]%Forall_cons.
  split; try done.
  - destruct X; simpl in *; congruence.
  - apply linked_app. split; [|split].
    + eapply linked_frame; [|exact Hl1]. intros x Hx. apply Hfr. set_solver.
    + apply cell_store_eq.
    + eapply linked_frame; [|exact Hl2]. intros x Hx. apply Hfr. set_solver.
  - apply asc_app in Has as (H1 & [H2 H3] & H4). apply asc_app. split_and!; [done| |].
    + split; [|done]. eapply Forall_impl; [exact Hhi|]. intros y Hy. unfold blk_end, HDR in *. simpl. lia.
    + intros x y Hx [->|Hy]%elem_of_cons; [apply (H4 x p); set_solver|apply H4; set_solver].
  - exists (p.2 + m). set_solver.
  - eapply used_frame; [|exact Hu]. intros x Hx. apply Hfr. set_solver.
  - rewrite <- app_assoc. simpl. rewrite <- Permutation_middle.
    apply (disjoint_merge p (a, m)); [done|done|by apply (block_in_size (brk s))|simpl; lia|].
    eapply sizes_in; [|exact Hrest]. destruct Hpi as (_ & _ & [?|[? _]]); [done|unfold HDR in *; lia].
  - rewrite <- app_assoc. simpl. rewrite <- Permutation_middle. constructor; [|exact Hrest].
    apply (block_in_merge (brk s) p (a, m)); try done. intros [= -> ->]. unfold HDR in Ha. lia.
Qed.

(** ... or stands behind it. *)
Lemma behind_ok X p Y A a m s h :
  parted X p Y a m A s → blk_end p ≠ a → h = Header a p.2 →
  heap_ok (X ++ p :: (a, m) :: Y) A (set_freep p.1 (store p.1 h s)).
Proof.
  intros Hpt He ->. pose proof (λ x, parted_others _ _ _ _ _ _ _ (Header a p.2) x Hpt) as Hfr.
  destruct Hpt as [Hb Hl1 Hsz Hca Hl2 Has Hlo Hhi Hu Hd Hi [Ha Hm] Hk].
  assert (block_in (brk s) p) as Hpi by (rewrite Forall_forall in Hi; apply Hi; set_solver).
  assert (0 ≤ p.2) as Hp2 by (by apply (block_in_size (brk s))).
  split; try done.
  - destruct X; simpl in *; congruence.
  - apply linked_app. split; [|split; [|split]].
    + eapply linked_frame; [|exact Hl1]. intros x Hx. apply Hfr. set_solver.
    + apply cell_store_eq.
    + cbn [fst snd]. etransitivity; [|exact Hca]. apply cell_store_ne. unfold blk_end, HDR in *. lia.
    + eapply linked_frame; [|exact Hl2]. intros x Hx. apply Hfr. set_solver.
  - apply asc_app in Has as (H1 & [H2 H3] & H4). apply asc_app. split_and!; [done| |].
    + split; [constructor; [simpl; lia|done]|]. split; [exact Hhi|done].
    + intros x y Hx Hy. apply elem_of_cons in Hy as [->|[->|Hy]%elem_of_cons].
      * apply (H4 x p); set_solver.
      * specialize (H4 x p Hx ltac:(set_solver)). unfold blk_end, HDR in *. simpl. lia.
      * apply H4; set_solver.
  - exists p.2. destruct p. set_solver.
  - eapply used_frame; [|exact Hu]. intros x Hx. apply Hfr. set_solver.
  - by rewrite perm_pick.
  - by rewrite perm_pick.
Qed.

Lemma join_below_ok X p Y A a m s :
  parted X p Y a m A s →
  ∃ R h, join_below a p.1 s = Ok tt (store p.1 h s) ∧ heap_ok R A (set_freep p.1 (store p.1 h s)) ∧
    (∃ x, x ∈ R ∧ m ≤ x.2) ∧ (length R ≤ S (length (X ++ p :: Y)))%nat.
Proof.
  intros Hpt. pose proof (parted_inside _ _ _ _ _ _ _ p Hpt ltac:(set_solver)) as Ip.
  pose proof (parted_inside _ _ _ _ _ _ _ (a, m) Hpt ltac:(set_solver)) as Ia.
  pose proof Hpt as [_ _ Hsz Hca _ _ Hlo _ _ _ Hi [Ha Hm] _]. cbn [fst] in Ia.
  assert (0 ≤ p.2 ∧ blk_end p ≤ brk s) as [Hp2 Hpe].
  { rewrite Forall_forall in Hi. pose proof (block_in_size (brk s) p (Hi p ltac:(set_solver))). tauto. }
  assert (a + HDR * m ≤ brk s) as Hae by (by apply Forall_cons in Hi as [(_ & ? & _) _]).
  destruct Ia as [Ia0 Ia1]. destruct Ip as [Ip0 Ip1].
  unfold join_below. rewrite (bind_ok _ _ _ _ _ (geth_ok p.1 s ltac:(done))), Hsz.
  rewrite u32_small by (unfold blk_end, HDR, KERNBASE in *; lia).
  destruct (Z.eqb_spec (p.1 + HDR * p.2) a) as [E|E].
  - exists (X ++ (p.1, p.2 + m) :: Y), (Header (hd_addr Y base) (p.2 + m)). split_and!.
    + rewrite (bind_ok _ _ _ _ _ (geth_ok a s ltac:(done))), Hca. cbn [h_size].
      rewrite u32_small by (unfold blk_end, HDR, KERNBASE in *; lia).
      rewrite (bind_ok _ _ _ _ _ (seth_ok p.1 _ s ltac:(done))).
      rewrite (bind_ok _ _ _ _ _ (geth_ok a (store p.1 _ s) ltac:(done))).
      destruct (Z.eq_dec p.1 a) as [Epa|Hne].
      * exfalso. rewrite Epa, Hca in Hsz. simpl in Hsz. unfold HDR in *. lia.
      * rewrite cell_store_ne, Hca by done.
        by rewrite (seth_ok p.1 _ (store p.1 _ s)), store_store, cell_store_eq by done.
    + by eapply grown_ok.
    + exists (p.1, p.2 + m). split; [set_solver|simpl; lia].
    + rewrite !length_app. simpl. lia.
  - exists (X ++ p :: (a, m) :: Y), (Header a p.2). split_and!.
    + rewrite (seth_ok p.1 _ s) by done. unfold set_h_ptr. by rewrite Hsz.
    + by eapply behind_ok.
    + exists (a, m). split; [set_solver|done].
    + rewrite !length_app. simpl. lia.
Qed.

(** A header is never inside another block. *)
Lemma header_outside e x y c :
  block_in e x → block_in e y → apart x y → y ≠ (base, 0) → y.1 ≤ c < blk_end y → x.1 ≠ c.
Proof.
  intros (_ & He & Hx) (_ & He' & [Hy|Hy]) Hap Hne Hc; [done|].
  destruct Hx as [->|Hx]; unfold apart, blk_end, HDR in *; simpl in *; lia.
Qed.

Lemma store_untouched R A s s' x h :
  heap_ok R A s → x ∈ R → untouched A s s' → untouched A s (store x.1 h s').
Proof.
  intros [_ _ _ _ Hu Hd Hi _] Hx Hs y c Hy Hc. rewrite <- (Hs y c Hy Hc). unfold store. cbn.
  rewrite Forall_forall in Hi, Hu. apply lookup_insert_ne.
  apply (header_outside (brk s) x y c); [apply Hi; set_solver|apply Hi; set_solver| |by apply Hu|done].
  by eapply disjoint_app_1.
Qed.

Lemma free_block_ok fuel R A a n s :
  heap_ok R ((a, n) :: A) s → (length R ≤ fuel)%nat →
  ∃ R' s', free fuel (a + HDR) s = Ok tt s' ∧ heap_ok R' A s' ∧ brk s' = brk s ∧ untouched A s s' ∧
    (∃ x, x ∈ R' ∧ n ≤ x.2) ∧ (length R' ≤ S (length R))%nat.
Proof.
  intros Hok Hfuel. destruct (place_ok R A a n s Hok) as (X & p & Y & -> & HX & HY & Hp & Ha & Hn).
  pose proof (heap_inside _ _ _ (a, n) Hok ltac:(set_solver)) as Ia.
  pose proof Hok as [Hb Hl Has [nf Hf] Hu Hd Hi Hk].
  assert (while fuel (free_step a) (freep s) s = Ok p.1 s) as Hw.
  { apply list_elem_of_lookup in Hf as [i Hf]. apply (search_ok s X Y p a Hb Hl Has) with (i := i) (x := (freep s, nf)); try done.
    - intros x Hx. split; [apply (heap_inside _ _ _ _ Hok); set_solver|].
      rewrite Forall_forall in Hi. apply (block_in_size (brk s)), Hi. set_solver.
    - eapply Forall_impl; [exact HY|]. intros y Hy. cbv beta in Hy. unfold HDR in Hy. lia. }
  destruct (join_above_ok X p Y A a n s Hok HY Hp Ha Hn) as (m & Y' & R1 & Hpt & Hm & Hlen).
  destruct (join_below_ok X p Y' A a m _ Hpt) as (R' & h & R2 & Hok' & (x & Hx & Hxm) & Hlen').
  exists R', (set_freep p.1 (store p.1 h (store a (Header (hd_addr Y' base) m) s))). split_and!; try done.
  - unfold free. rewrite (bind_ok _ _ _ _ _ (gets_ok _ _)).
    replace (a + HDR - HDR) with a by lia. rewrite u32_small by (unfold inside, HDR, KERNBASE in Ia; simpl in Ia; lia).
    by rewrite (bind_ok _ _ _ _ _ Hw), (bind_ok _ _ _ _ _ R1), (bind_ok _ _ _ _ _ R2).
  - assert (heap_ok (X ++ p :: Y) A s) as HokA.
    { split; try done; [by exists nf|by apply Forall_cons in Hu as [_ ?]|..].
      - rewrite disjoint_perm_mid in Hd. apply Hd.
      - rewrite disjoint_perm_mid in Hi. by apply Forall_cons in Hi as [_ ?]. }
    change (untouched A s (store p.1 h (store a (Header (hd_addr Y' base) m) s))).
    apply (store_untouched (X ++ p :: Y)); [done|set_solver|].
    intros y c Hy Hc. unfold store. cbn. apply lookup_insert_ne. rewrite Forall_forall in Hi, Hu.
    apply (header_outside (brk s) (a, n) y c); [apply Hi; set_solver|apply Hi; set_solver| |apply Hu; set_solver|done].
    rewrite disjoint_perm_mid in Hd. destruct Hd as [Hd _]. rewrite Forall_forall in Hd. apply Hd. set_solver.
  - exists x. split; [done|lia].
  - rewrite !length_app in *. simpl in *. lia.
Qed.

(** ** Taking a block *)

Lemma ring_others X x Z A s h z :
  heap_ok (X ++ x :: Z) A s → z ∈ X ++ Z ++ A → cell (store x.1 h s) z.1 = cell s z.1.
Proof.
  intros [_ _ Has _ Hu Hd Hi _] Hz. apply cell_store_ne. eapply others_ne; [done..| |done].
  eapply Forall_impl; [exact Hu|]. by intros ? [? _].
Qed.
End heap.
