(* ===== verification/UmallocProps.v ===== *)
(** * Properties of the user-level allocator

    [malloc] cuts its block out of the first free block that is large enough,
    asking for more memory when there is none; [free] gives a block back.  Both
    keep the invariant of UmallocFacts.v, so that blocks in use never overlap
    and are never written by the allocator.  A request near the top of the
    32-bit range is a different matter. *)
From S2P Require Import Prelude Spinlock Str Ptable PtableLists Sched Services Kalloc Umalloc UmallocFacts.

(** ** Taking a block *)

Section ring.
Context {base : Z}.
#[local] Notation heap_ok := (heap_ok base).
#[local] Notation block_in := (block_in base).

Lemma asc_shrink X y n Y : asc (X ++ y :: Y) → 0 ≤ n ≤ y.2 → asc (X ++ (y.1, n) :: Y).
Proof.
  rewrite !asc_app. intros (H1 & [H2 H3] & H4) Hn. split_and!; [done| |].
  - split; [|done]. eapply Forall_impl; [exact H2|]. intros z Hz. unfold blk_end, HDR in *. simpl. lia.
  - intros x z Hx [->|Hz]%elem_of_cons; [apply (H4 x y); set_solver|apply H4; set_solver].
Qed.

(** The whole of the block [y]. *)
Lemma take_exact X x y Y A s h :
  heap_ok (X ++ x :: y :: Y) A s → 1 ≤ y.2 → h = Header (hd_addr Y base) x.2 →
  heap_ok (X ++ x :: Y) (y :: A) (set_freep x.1 (store x.1 h s)).
Proof.
  intros Hok Hy ->. pose proof (λ z, ring_others base _ _ _ _ _ (Header (hd_addr Y base) x.2) z Hok) as Hfr.
  destruct Hok as [Hb Hl Has Hf Hu Hd Hi Hk].
  apply linked_app in Hl as (Hl1 & Hcx & Hcy & Hl2).
  split; try done.
  - destruct X; simpl in *; congruence.
  - apply linked_app. split; [|split].
    + eapply linked_frame; [|exact Hl1]. intros z Hz. apply Hfr. set_solver.
    + apply cell_store_eq.
    + eapply linked_frame; [|exact Hl2]. intros z Hz. apply Hfr. set_solver.
  - by eapply asc_drop.
  - exists x.2. destruct x. set_solver.
  - constructor.
    + split; [by intros ->|]. etransitivity; [apply f_equal, Hfr; set_solver|]. by rewrite Hcy.
    + eapply used_frame; [|exact Hu]. intros z Hz. apply Hfr. set_solver.
  - rewrite disjoint_perm_mid. by rewrite perm_pick in Hd.
  - rewrite disjoint_perm_mid. by rewrite perm_pick in Hi.
Qed.

(** The two ends of a block are as disjoint from the others as the block. *)
Lemma disjoint_split u n l :
  disjoint_blocks (u :: l) → 0 ≤ n ≤ u.2 →
  disjoint_blocks ((u.1 + HDR * (u.2 - n), n) :: (u.1, u.2 - n) :: l).
Proof.
  intros [Hu Hl] Hn. rewrite Forall_forall in Hu.
  split; [constructor|split; [|done]]; rewrite ?Forall_forall.
  - unfold apart, blk_end, HDR. simpl. lia.
  - intros z Hz. specialize (Hu z Hz). unfold apart, blk_end, HDR in *. simpl in *. lia.
  - intros z Hz. specialize (Hu z Hz). unfold apart, blk_end, HDR in *. simpl in *. lia.
Qed.

(** The upper end of the block [y]. *)
Lemma take_tail X x y Y A s n hy hq :
  heap_ok (X ++ x :: y :: Y) A s → 1 ≤ n < y.2 → hy = Header (hd_addr Y base) (y.2 - n) → h_size hq = n →
  let q := y.1 + HDR * (y.2 - n) in
  heap_ok (X ++ x :: (y.1, y.2 - n) :: Y) ((q, n) :: A) (set_freep x.1 (store q hq (store y.1 hy s))).
Proof.
  intros Hok Hn -> Hhq q.
  assert (∀ z, z ∈ X ++ x :: Y ++ A → cell (store q hq (store y.1 (Header (hd_addr Y base) (y.2 - n)) s)) z.1 = cell s z.1) as Hfr.
  { intros z Hz. pose proof Hok as [_ _ _ _ _ Hd Hi _].
    replace (X ++ x :: y :: Y) with ((X ++ [x]) ++ y :: Y) in Hok by (by rewrite <- app_assoc).
    rewrite cell_store_ne; [apply (ring_others base _ _ _ _ _ _ z Hok); set_solver|].
    rewrite perm_pick in Hd, Hi. apply Forall_cons in Hi as [Hiy Hi]. rewrite Forall_forall in Hi.
    destruct Hd as [Hd _]. rewrite Forall_forall in Hd. apply not_eq_sym.
    apply (header_outside base (brk s) z y q); [apply Hi; set_solver|done|apply apart_sym, Hd; set_solver|..].
    - intros ->. simpl in Hn. lia.
    - unfold q, blk_end, HDR. lia. }
  assert (cell (store q hq (store y.1 (Header (hd_addr Y base) (y.2 - n)) s)) y.1 = Header (hd_addr Y base) (y.2 - n)) as Hcy'.
  { rewrite cell_store_ne, cell_store_eq by (unfold q, HDR; lia). done. }
  destruct Hok as [Hb Hl Has Hf Hu Hd Hi Hk]. apply linked_app in Hl as (Hl1 & Hcx & Hcy & Hl2).
  rewrite perm_pick in Hd, Hi. split; try done.
  - destruct X; simpl in *; congruence.
  - apply linked_app. split; [|split; [|split]].
    + eapply linked_frame; [|exact Hl1]. intros z Hz. apply Hfr. set_solver.
    + etransitivity; [apply Hfr; set_solver|exact Hcx].
    + exact Hcy'.
    + eapply linked_frame; [|exact Hl2]. intros z Hz. apply Hfr. set_solver.
  - replace (X ++ x :: (y.1, y.2 - n) :: Y) with ((X ++ [x]) ++ (y.1, y.2 - n) :: Y) by (by rewrite <- app_assoc).
    apply asc_shrink; [by rewrite <- app_assoc|lia].
  - exists x.2. destruct x. set_solver.
  - constructor.
    + split; [intros [= _ ->]; lia|]. cbn [fst snd]. by rewrite <- Hhq; apply f_equal, cell_store_eq.
    + eapply used_frame; [|exact Hu]. intros z Hz. apply Hfr. set_solver.
  - rewrite disjoint_perm_mid, perm_pick. apply disjoint_split; [done|lia].
  - rewrite disjoint_perm_mid, perm_pick. apply Forall_cons in Hi as [(Hm & He & Hin) Hi].
    constructor; [|constructor; [|done]]; unfold UmallocFacts.block_in, blk_end, HDR, q in *; simpl in *.
    + destruct Hin as [->|[? ?]]; [simpl in Hn; lia|]. unfold HDR in *. split_and!; [|lia|right; lia].
      by rewrite (Z.mul_comm 8), Z_mod_plus_full.
    + destruct Hin as [->|[? ?]]; [simpl in Hn; lia|]. split_and!; [done|lia|right; lia].
Qed.

Lemma take_block_ok X x y Y A s n :
  heap_ok (X ++ x :: y :: Y) A s → 1 ≤ n ≤ y.2 →
  ∃ a R s', take_block n x.1 y.1 s = Ok (a + HDR) s' ∧ heap_ok R ((a, n) :: A) s' ∧ brk s' = brk s ∧
    untouched A s s'.
Proof.
  intros Hok Hn. pose proof (heap_inside base _ _ _ x Hok ltac:(set_solver)) as Ix.
  pose proof (heap_inside base _ _ _ y Hok ltac:(set_solver)) as Iy.
  assert (blk_end y ≤ brk s) as Hye.
  { pose proof Hok as [_ _ _ _ _ _ Hi _]. rewrite Forall_forall in Hi.
    apply (block_in_size base (brk s) y), Hi. set_solver. }
  pose proof Hok as [_ Hl _ _ Hu Hd Hi _]. apply linked_app in Hl as (_ & Hcx & Hcy & _). cbn [hd_addr] in Hcx.
  assert (untouched A s s) as Hself by done.
  unfold take_block. rewrite (bind_ok _ _ _ _ _ (geth_ok _ _ Iy)), Hcy. cbn [h_size h_ptr].
  destruct (Z.eqb_spec y.2 n) as [E|E].
  - exists y.1, (X ++ x :: Y), (set_freep x.1 (store x.1 (Header (hd_addr Y base) x.2) s)). split_and!.
    + rewrite (bind_ok _ _ _ y.1 (store x.1 (Header (hd_addr Y base) x.2) s)).
      * rewrite (bind_ok _ _ _ _ _ (modify_ok _ _)). unfold mret, K_ret. f_equal.
        apply u32_small. unfold inside, HDR, KERNBASE in *. lia.
      * rewrite (bind_ok _ _ _ _ _ (seth_ok _ _ _ Ix)). unfold set_h_ptr. by rewrite Hcx.
    + replace (y.1, n) with y by (destruct y; simpl in *; congruence). by apply (take_exact _ _ y); [|lia|].
    + done.
    + apply (store_untouched base (X ++ x :: y :: Y) A s s x); [done|set_solver|done].
  - set (q := y.1 + HDR * (y.2 - n)). set (s1 := store y.1 (Header (hd_addr Y base) (y.2 - n)) s).
    assert (u32 (y.2 - n) = y.2 - n) as Eyn by (apply u32_small; unfold blk_end, inside, HDR, KERNBASE in *; lia).
    assert (inside q s1) as Iq by (unfold inside, q, blk_end, HDR in *; cbn; lia).
    exists q, (X ++ x :: (y.1, y.2 - n) :: Y), (set_freep x.1 (store q (set_h_size n (cell s1 q)) s1)). split_and!.
    + rewrite (bind_ok _ _ _ q (store q (set_h_size n (cell s1 q)) s1)).
      * rewrite (bind_ok _ _ _ _ _ (modify_ok _ _)). unfold mret, K_ret. f_equal.
        apply u32_small. unfold q, blk_end, inside, HDR, KERNBASE in *. lia.
      * rewrite (bind_ok _ _ _ _ _ (seth_ok _ _ _ Iy)), Hcy, Eyn. cbn [set_h_size h_ptr].
        fold s1. rewrite (bind_ok _ _ _ _ _ (geth_ok y.1 s1 Iy)).
        replace (cell s1 y.1) with (Header (hd_addr Y base) (y.2 - n)) by (symmetry; apply cell_store_eq).
        cbn [h_size]. cbv zeta.
        replace (u32 (y.1 + HDR * (y.2 - n))) with q
          by (symmetry; apply u32_small; unfold q, blk_end, inside, HDR, KERNBASE in *; lia).
        by rewrite (bind_ok _ _ _ _ _ (seth_ok _ _ _ Iq)).
    + apply take_tail; [done|lia|done|done].
    + done.
    + change (untouched A s (store q (set_h_size n (cell s1 q)) s1)).
      intros z c Hz Hc. rewrite <- (store_untouched base (X ++ x :: y :: Y) A s s y
        (Header (hd_addr Y base) (y.2 - n)) Hok ltac:(set_solver) Hself z c Hz Hc).
      unfold store at 1. cbn. apply lookup_insert_ne. rewrite Forall_forall in Hi.
      pose proof (disjoint_app_1 _ _ y z Hd ltac:(set_solver) Hz) as Hap.
      unfold apart, q, blk_end, HDR in *. lia.
Qed.

(** ** The loop of [malloc] *)

(** The node [i] of the ring is [prevp], the next one [p]. *)
Definition at_node (R : list blk) (i : nat) (x : Z * Z) : Prop :=
  ∃ u v, R !! i = Some u ∧ R !! nxt R i = Some v ∧ x = (u.1, v.1).

Lemma heap_next R A s i u :
  heap_ok R A s → R !! i = Some u → ∃ v, R !! nxt R i = Some v ∧ cell s u.1 = Header v.1 u.2.
Proof.
  intros [Hb Hl _ _ _ _ _ _] Hi. destruct R as [|x0 l]; [done|]. simpl in Hb. injection Hb as ->.
  by apply (ring_lookup s (base, 0) l).
Qed.

Lemma heap_addr_inj R A s i j u v :
  heap_ok R A s → R !! i = Some u → R !! j = Some v → u.1 = v.1 → i = j.
Proof.
  intros [_ _ Has _ _ _ Hi _] Hu Hv E.
  assert (∀ i j u v, R !! i = Some u → R !! j = Some v → (i < j)%nat → u.1 < v.1) as Hlt.
  { clear i j u v Hu Hv E. intros i j u v Hu Hv Hij.
    rewrite <- (take_drop_middle R i u Hu) in Has. apply asc_app in Has as (_ & [Hall _] & _).
    rewrite Forall_forall in Hall, Hi. specialize (Hall v).
    destruct (block_in_size base (brk s) u) as [H0 _]; [apply Hi; apply list_elem_of_lookup_2 in Hu; set_solver|].
    unfold blk_end, HDR in Hall. enough (v ∈ drop (S i) R) by (specialize (Hall ltac:(done)); lia).
    apply list_elem_of_lookup. exists (j - S i)%nat. rewrite lookup_drop. by replace (S i + (j - S i))%nat with j by lia. }
  destruct (lt_eq_lt_dec i j) as [[H| ->]|H]; [|done|].
  - specialize (Hlt i j u v Hu Hv H). lia.
  - specialize (Hlt j i v u Hv Hu H). lia.
Qed.

(** Two neighbours of the ring, the second one not [base]. *)
Lemma neighbours R A s i u v :
  heap_ok R A s → R !! i = Some u → R !! nxt R i = Some v → 1 ≤ v.2 → ∃ X Y, R = X ++ u :: v :: Y.
Proof.
  intros [Hb _ _ _ _ _ _ _] Hu Hv Hv2. exists (take i R), (drop (S (S i)) R).
  unfold nxt in Hv. case_decide.
  - by rewrite <- (drop_S _ _ _ Hv), take_drop_middle.
  - destruct R; simplify_eq/=. lia.
Qed.

(** The first call sets up the ring: from then on it is as if it had been there. *)
Definition ring0 (s : ust) : ust := store base (Header base 0) (set_freep base s).

Lemma ring0_ok s : heap_bounds base (brk s) → heap_ok [(base, 0)] [] (ring0 s).
Proof.
  intros (K1 & K2 & K3 & K4 & K5). split.
  - done.
  - split; [apply cell_store_eq|done].
  - split; [constructor|done].
  - exists 0. set_solver.
  - constructor.
  - split; [constructor|done].
  - constructor; [|constructor]. split_and!; [done|unfold blk_end, HDR in *; cbn; lia|by left].
  - done.
Qed.

Lemma block_in_mono e e' x : e ≤ e' → block_in e x → block_in e' x.
Proof. intros He (H1 & H2 & H3). split_and!; [done|lia|done]. Qed.
End ring.
Arguments ring0 : clear implicits.

Section alloc.
Context (base : Z) (avail : Z → bool).
#[local] Notation heap_ok := (heap_ok base).
#[local] Notation block_in := (block_in base).
#[local] Notation malloc := (malloc base avail).
#[local] Notation morecore := (morecore avail).
#[local] Notation malloc_step := (malloc_step avail).
#[local] Notation ring0 := (ring0 base).

Lemma step_fit fuel n prevp p q m s r s' :
  inside p s → cell s p = Header q m → n ≤ m → take_block n prevp p s = Ok r s' →
  malloc_step fuel n (prevp, p) s = Ok (inr (r, 0)) s'.
Proof.
  intros Ip Hc Hm Ht. unfold Umalloc.malloc_step. rewrite (bind_ok _ _ _ _ _ (geth_ok _ _ Ip)), Hc. cbn [h_size].
  rewrite Z.geb_leb, (proj2 (Z.leb_le _ _)) by lia. by rewrite (bind_ok _ _ _ _ _ Ht).
Qed.

Lemma step_small fuel n prevp p q m s :
  inside p s → cell s p = Header q m → m < n →
  malloc_step fuel n (prevp, p) s =
    if p =? freep s then
      (p' ← morecore fuel n;
       if p' =? 0 then mret (inr (0, 0)) else h ← geth p'; mret (inl (p', h_ptr h))) s
    else Ok (inl (p, q)) s.
Proof.
  intros Ip Hc Hm. unfold Umalloc.malloc_step. rewrite (bind_ok _ _ _ _ _ (geth_ok _ _ Ip)), Hc. cbn [h_size h_ptr].
  rewrite Z.geb_leb, (proj2 (Z.leb_gt _ _)) by lia. rewrite (bind_ok _ _ _ _ _ (gets_ok _ _)).
  by destruct (p =? freep s).
Qed.

(** From node [i], [d] steps before the search is back at [freep]: it takes the
    first large enough block it meets; when there is none on the way, it asks
    for more. *)
Lemma pass_ok R A s n fuel d k i f x :
  heap_ok R A s → 1 ≤ n → R !! f = Some x → x.1 = freep s →
  (i < f ∧ d = f - i ∨ f ≤ i < length R ∧ d = length R - i + f)%nat →
  ∀ st, at_node R i st →
  (∃ X u v Y, R = X ++ u :: v :: Y ∧ n ≤ v.2 ∧
     ∀ r s', take_block n u.1 v.1 s = Ok r s' → while (d + k) (malloc_step fuel n) st s = Ok (r, 0) s') ∨
  (∀ j y, R !! j = Some y → (i < j ≤ f ∨ f ≤ i ∧ (i < j ∨ j ≤ f))%nat → y.2 < n) ∧
  ∀ p' s', morecore fuel n s = Ok p' s' →
    (p' = 0 → while (d + k) (malloc_step fuel n) st s = Ok (0, 0) s') ∧
    (p' ≠ 0 → inside p' s' →
     while (d + k) (malloc_step fuel n) st s = while k (malloc_step fuel n) (p', h_ptr (cell s' p')) s').
Proof.
  intros Hok Hn Hf Hfp. revert i. induction d as [|d IH]; intros i Hd st (u & v & Hu & Hv & ->); [lia|].
  pose proof (lookup_lt_Some _ _ _ Hf) as Hfl.
  destruct (heap_next _ _ _ _ _ Hok Hv) as (w & Hw & Hc).
  pose proof (heap_inside base _ _ _ v Hok ltac:(apply list_elem_of_lookup_2 in Hv; set_solver)) as Iv.
  destruct (Z.le_gt_cases n v.2) as [Hfit|Hsmall].
  { left. destruct (neighbours _ _ _ _ _ _ Hok Hu Hv ltac:(lia)) as (X & Y & E). exists X, u, v, Y.
    split_and!; [done|done|]. intros r s' Ht. cbn [Nat.add]. rewrite (while_ok _ _ _ _ (inr (r, 0)) s'); [done|].
    by eapply step_fit. }
  pose proof (step_small fuel n u.1 v.1 _ _ s Iv Hc Hsmall) as Hstep.
  destruct (Z.eqb_spec v.1 (freep s)) as [Efp|Efp].
  - assert (nxt R i = f) as Enf by (eapply heap_addr_inj; [exact Hok|done|done|congruence]).
    right. assert (d = 0)%nat as -> by (unfold nxt in Enf; case_decide; lia). split.
    { intros j y Hj Hvis. assert (j = f) as ->.
      { apply lookup_lt_Some in Hj. unfold nxt in Enf; case_decide; lia. }
      rewrite <- Enf in Hj. by simplify_eq. }
    intros p' s' Hm. rewrite (bind_ok _ _ _ _ _ Hm) in Hstep. cbn [Nat.add]. split.
    + intros ->. by rewrite (while_ok _ _ _ _ (inr (0, 0)) s').
    + intros Hp Ip. rewrite (proj2 (Z.eqb_neq _ _) Hp), (bind_ok _ _ _ _ _ (geth_ok _ _ Ip)) in Hstep.
      by rewrite (while_ok _ _ _ _ (inl (p', h_ptr (cell s' p'))) s').
  - assert (nxt R i ≠ f) as Enf by (intros E; rewrite E in Hv; congruence).
    destruct (IH (nxt R i)) with (st := (v.1, w.1)) as [(X & a & b & Y & E & Hb & Hwh)|[Hall Hwh]].
    { unfold nxt in *. case_decide; lia. }
    { by exists v, w. }
    + left. exists X, a, b, Y. split_and!; [done|done|]. intros r s' Ht. cbn [Nat.add].
      rewrite (while_ok _ _ _ _ _ _ Hstep). by apply Hwh.
    + right. split.
      * intros j y Hj Hvis. destruct (decide (j = nxt R i)) as [->|Hji]; [by simplify_eq|].
        apply (Hall j y Hj). apply lookup_lt_Some in Hj. unfold nxt in *. case_decide; lia.
      * intros p' s' Hm. cbn [Nat.add]. rewrite (while_ok _ _ _ _ _ _ Hstep). by apply Hwh.
Qed.

(** ** More memory *)

(** The new memory as one more block in use. *)
Lemma grow_ok R A s n h :
  heap_ok R A s → 1 ≤ n → brk s + HDR * n ≤ KERNBASE → h_size h = n →
  let s' := store (brk s) h (set_brk (brk s + HDR * n) s) in
  heap_ok R ((brk s, n) :: A) s' ∧ untouched A s s'.
Proof.
  intros Hok Hn Hle Hh s'. pose proof Hok as [Hb Hl Has Hf Hu Hd Hi (K1 & K2 & K3 & K4 & K5)].
  assert (∀ x, x ∈ R ++ A → x.1 < brk s ∧ blk_end x ≤ brk s) as Hlt.
  { intros x Hx. rewrite Forall_forall in Hi. destruct (Hi x Hx) as (_ & He & [->|[? ?]]);
      unfold blk_end, HDR in *; simpl in *; lia. }
  assert (∀ x, x ∈ R ++ A → cell s' x.1 = cell s x.1) as Hfr.
  { intros x Hx. unfold s'. rewrite cell_store_ne; [done|]. destruct (Hlt x Hx). lia. }
  split.
  - split; try done.
    + eapply linked_frame; [|exact Hl]. intros x Hx. apply Hfr. set_solver.
    + constructor; [|eapply used_frame; [|exact Hu]; intros x Hx; apply Hfr; set_solver].
      split; [intros [= _ ->]; lia|]. cbn [fst snd]. rewrite <- Hh. apply f_equal, cell_store_eq.
    + rewrite disjoint_perm_mid. split; [|done]. rewrite Forall_forall. intros x Hx. right. simpl.
      apply (Hlt x Hx).
    + rewrite disjoint_perm_mid. constructor.
      * split_and!; [done|apply Z.le_refl|]. right. cbn. unfold HDR in *. lia.
      * eapply Forall_impl; [exact Hi|]. intros x. apply block_in_mono. cbn. unfold HDR. lia.
    + cbn. unfold HDR in *. split_and!; try lia. by rewrite (Z.mul_comm 8), Z_mod_plus_full.
  - intros x c Hx Hc. unfold s', store. cbn. apply lookup_insert_ne. destruct (Hlt x ltac:(set_solver)). lia.
Qed.

Lemma heap_freep R A s : heap_ok R A s → freep s ≠ 0 ∧ inside (freep s) s.
Proof.
  intros Hok. pose proof Hok as [_ _ _ [n Hf] _ _ Hi (K1 & _)].
  split; [|apply (heap_inside base R A s (freep s, n) Hok); set_solver].
  rewrite Forall_forall in Hi. pose proof (block_in_size base (brk s) _ (Hi (freep s, n) ltac:(set_solver))) as Hb.
  cbn [fst] in Hb. lia.
Qed.

Lemma sbrk_grow n s :
  0 < n < 2 ^ 31 → 0 ≤ brk s ≤ KERNBASE →
  sbrk avail n s =
    if (brk s + n <? KERNBASE) && avail (brk s + n) then Ok (brk s) (set_brk (brk s + n) s) else Ok (u32 (-1)) s.
Proof.
  intros Hn Hb. unfold sbrk. rewrite (bind_ok _ _ _ _ _ (gets_ok _ _)).
  rewrite u32_small by (unfold KERNBASE in *; lia). rewrite Z.gtb_ltb, Z.geb_leb. zcases; try done.
  by destruct (avail (brk s + n)).
Qed.

(** The process cannot grow by what [morecore] asks for, at least 4096 units: it
    would reach the kernel, or the kernel has not the pages. *)
Definition no_growth (n : Z) (s : ust) : Prop :=
  let e := brk s + HDR * Z.max 4096 n in KERNBASE ≤ e ∨ avail e = false.

Lemma morecore_ok R A s n fuel :
  heap_ok R A s → 1 ≤ n → HDR * n < 2 ^ 31 → (length R ≤ fuel)%nat →
  (morecore fuel n s = Ok 0 s ∧ no_growth n s) ∨
  ∃ R' s', morecore fuel n s = Ok (freep s') s' ∧ heap_ok R' A s' ∧ untouched A s s' ∧
    (∃ x, x ∈ R' ∧ n ≤ x.2) ∧ (length R' ≤ S (length R))%nat.
Proof.
  intros Hok Hn Hlt Hfuel. unfold Umalloc.morecore, no_growth. set (nu := if n <? 4096 then 4096 else n).
  replace (Z.max 4096 n) with nu by (unfold nu; destruct (Z.ltb_spec n 4096); lia).
  assert (n ≤ nu ∧ HDR * nu < 2 ^ 31) as [Hnu Hnu2] by (unfold nu, HDR in *; destruct (Z.ltb_spec n 4096); lia).
  pose proof Hok as [_ _ _ _ _ _ _ (K1 & _ & K3 & _ & K5)].
  rewrite (Z.mul_comm nu), (u32_small (HDR * nu)), (i32_small (HDR * nu)) by (unfold HDR in *; lia).
  pose proof (sbrk_grow (HDR * nu) s ltac:(unfold HDR in *; lia) ltac:(unfold HDR in *; lia)) as Hsb.
  destruct (Z.ltb_spec (brk s + HDR * nu) KERNBASE) as [Hk|Hk]; cbn [andb] in Hsb.
  2:{ left. split; [by rewrite (bind_ok _ _ _ _ _ Hsb)|by left]. }
  destruct (avail (brk s + HDR * nu)).
  2:{ left. split; [by rewrite (bind_ok _ _ _ _ _ Hsb)|by right]. }
  right. set (s0 := set_brk (brk s + HDR * nu) s) in *.
  destruct (grow_ok R A s nu (set_h_size nu (cell s0 (brk s))) Hok) as [Hok1 Hu1]; [lia|lia|done|].
  fold s0 in Hok1, Hu1. set (s1 := store (brk s) _ s0) in *.
  destruct (free_block_ok base fuel R A (brk s) nu s1 Hok1 Hfuel) as (R' & s' & Hfr & Hok' & _ & Hu' & (x & Hx & Hxn) & Hlen).
  exists R', s'. split_and!; [|done| |exists x; split; [done|lia]|done].
  - rewrite (bind_ok _ _ _ _ _ Hsb). rewrite (proj2 (Z.eqb_neq _ _)).
    2:{ change (u32 (-1)) with (2 ^ 32 - 1). unfold KERNBASE in K5. lia. }
    assert (inside (brk s) s0) as Is0 by (unfold inside, s0, HDR in *; cbn; lia).
    rewrite (bind_ok _ _ _ _ _ (seth_ok _ _ _ Is0)). fold s1.
    rewrite u32_small by (unfold HDR, KERNBASE in *; lia).
    by rewrite (bind_ok _ _ _ _ _ Hfr).
  - intros y c Hy Hc. rewrite (Hu' y c Hy Hc). by apply (Hu1 y).
Qed.

(** ** [malloc] *)

Lemma units_ok n : 0 ≤ n < 2 ^ 31 - 16 → 1 ≤ units n ∧ n ≤ HDR * (units n - 1) < n + HDR ∧ HDR * units n < 2 ^ 31.
Proof.
  intros Hn. unfold units, HDR. rewrite (u32_small (n + 8 - 1)) by lia.
  pose proof (Z.div_mod (n + 8 - 1) 8 ltac:(lia)). pose proof (Z.mod_pos_bound (n + 8 - 1) 8 ltac:(lia)).
  rewrite u32_small by lia. lia.
Qed.

(** A ring with a large enough block: the search finds it. *)
Lemma search_finds R A s n fuel k :
  heap_ok R A s → 1 ≤ n → (∃ x, x ∈ R ∧ n ≤ x.2) → (length R ≤ k)%nat →
  ∃ a R' s', while k (malloc_step fuel n) (freep s, h_ptr (cell s (freep s))) s = Ok (a + HDR, 0) s' ∧
    heap_ok R' ((a, n) :: A) s' ∧ untouched A s s'.
Proof.
  intros Hok Hn (x & Hx & Hxn) Hk. pose proof Hok as [_ _ _ [m Hf] _ _ _ _].
  apply list_elem_of_lookup in Hf as [f Hf]. apply list_elem_of_lookup in Hx as [j Hj].
  pose proof (lookup_lt_Some _ _ _ Hf). pose proof (lookup_lt_Some _ _ _ Hj).
  destruct (heap_next _ _ _ _ _ Hok Hf) as (v & Hv & Hc). cbn [fst snd] in Hc. rewrite Hc.
  replace k with (length R + (k - length R))%nat by lia.
  destruct (pass_ok R A s n fuel (length R) (k - length R) f f (freep s, m) Hok Hn Hf eq_refl ltac:(lia)
    (freep s, v.1)) as [(X & u & w & Y & -> & Hw & Hrun)|[Hall _]].
  - by exists (freep s, m), v.
  - destruct (take_block_ok X u w Y A s n Hok ltac:(lia)) as (a & R' & s' & Ht & Hok' & _ & Hu).
    exists a, R', s'. split; [by apply Hrun|done].
  - exfalso. specialize (Hall j x Hj). lia.
Qed.

Lemma malloc_ok R A s nbytes fuel :
  heap_ok R A s → 0 ≤ nbytes < 2 ^ 31 - 16 → (2 * length R + 1 ≤ fuel)%nat →
  (malloc fuel nbytes s = Ok 0 s ∧ Forall (λ x, x.2 < units nbytes) R ∧ no_growth (units nbytes) s) ∨
  ∃ a R' s', malloc fuel nbytes s = Ok (a + HDR) s' ∧ heap_ok R' ((a, units nbytes) :: A) s' ∧ untouched A s s'.
Proof.
  intros Hok Hn Hfuel. destruct (units_ok nbytes Hn) as (U1 & _ & U2).
  destruct (heap_freep R A s Hok) as [Hfp Ifp]. unfold Umalloc.malloc. set (n := units nbytes) in *.
  rewrite (bind_ok _ _ _ _ _ (gets_ok _ _)), (proj2 (Z.eqb_neq _ _) Hfp), (bind_ok _ _ _ (freep s) s) by done.
  rewrite (bind_ok _ _ _ _ _ (geth_ok _ _ Ifp)).
  assert (∀ r s', while fuel (malloc_step fuel n) (freep s, h_ptr (cell s (freep s))) s = Ok (r, 0) s' →
    (r ← while fuel (malloc_step fuel n) (freep s, h_ptr (cell s (freep s))); mret r.1) s = Ok r s') as Hend.
  { intros r s' Hw. by rewrite (bind_ok _ _ _ _ _ Hw). }
  destruct (decide (Exists (λ x, n ≤ x.2) R)) as [Hex|Hno].
  { right. apply Exists_exists in Hex. destruct (search_finds R A s n fuel fuel Hok U1 Hex ltac:(lia))
      as (a & R' & s' & Hw & Hok' & Hu). exists a, R', s'. split; [by apply Hend|done]. }
  assert (Forall (λ x, x.2 < n) R) as Hsmall.
  { apply Forall_forall. intros x Hx. apply Z.nle_gt. contradict Hno. apply Exists_exists. by exists x. }
  pose proof Hok as [_ _ _ [m Hf] _ _ _ _]. apply list_elem_of_lookup in Hf as [f Hf].
  destruct (heap_next _ _ _ _ _ Hok Hf) as (v & Hv & Hc). cbn [fst snd] in Hc.
  pose proof (lookup_lt_Some _ _ _ Hf).
  destruct (pass_ok R A s n fuel (length R) (fuel - length R) f f (freep s, m) Hok U1 Hf eq_refl ltac:(lia)
    (freep s, v.1)) as [(X & u & w & Y & -> & Hw & _)|[_ Hmore]].
  { by exists (freep s, m), v. }
  { exfalso. rewrite Forall_forall in Hsmall. specialize (Hsmall w ltac:(set_solver)). lia. }
  replace (length R + (fuel - length R))%nat with fuel in Hmore by lia. rewrite Hc in Hend |- *. cbn [h_ptr] in *.
  destruct (morecore_ok R A s n fuel Hok U1 U2 ltac:(lia)) as [[Hm Hno']|(R' & s' & Hm & Hok' & Hu & Hx & Hlen)].
  - left. split; [|done]. apply Hend. by apply (Hmore 0 s Hm).
  - right. destruct (heap_freep R' A s' Hok') as [Hfp' Ifp'].
    destruct (search_finds R' A s' n fuel (fuel - length R) Hok' U1 Hx ltac:(lia)) as (a & R2 & s2 & Hw & Hok2 & Hu2).
    exists a, R2, s2. split_and!; [|done|].
    + apply Hend. destruct (Hmore _ _ Hm) as [_ Hrun]. rewrite (Hrun Hfp' Ifp'). exact Hw.
    + intros y c Hy Hcy. rewrite (Hu2 y c Hy Hcy). by apply (Hu y).
Qed.

Lemma malloc_first fuel nbytes s :
  freep s = 0 → heap_bounds base (brk s) → malloc fuel nbytes s = malloc fuel nbytes (ring0 s).
Proof.
  intros Hf (K1 & K2 & K3 & K4 & K5).
  assert (inside base s) as Ib by (unfold inside, HDR in *; lia).
  unfold Umalloc.malloc. rewrite !(bind_ok _ _ _ _ _ (gets_ok _ _)), Hf. cbn [Z.eqb].
  rewrite (proj2 (Z.eqb_neq (freep (ring0 s)) 0)) by (cbn; lia).
  rewrite (bind_ok _ _ (ring0 s) (freep (ring0 s)) (ring0 s)) by done.
  rewrite (bind_ok _ _ s base (ring0 s)); [done|].
  rewrite (bind_ok _ _ _ _ _ (seth_ok _ _ _ Ib)), (bind_ok _ _ _ _ _ (modify_ok _ _)).
  rewrite (bind_ok _ _ _ _ _ (seth_ok base _ (set_freep base (store base _ s)) Ib)).
  assert (∀ h, cell (set_freep base (store base h s)) base = h) as E by (intros; apply cell_store_eq).
  rewrite E. unfold mret, K_ret, ring0, store, set_freep, set_cells. cbn. by rewrite insert_insert_eq.
Qed.

(** ** Properties *)


(** giving back a block in use ends, keeps the allocator's invariant with
    the block free again (joined with its free neighbours, so that no two free
    blocks are adjacent), and writes into no other block in use; the memory is
    there for the next request of that size. *)
Theorem free_gives_back R A a n s fuel :
  heap_ok R ((a, n) :: A) s → (length R ≤ fuel)%nat →
  ∃ R' s', free fuel (a + HDR) s = Ok tt s' ∧ heap_ok R' A s' ∧ brk s' = brk s ∧ untouched A s s' ∧
    (∃ x, x ∈ R' ∧ n ≤ x.2) ∧ (length R' ≤ S (length R))%nat.
Proof. apply free_block_ok. Qed.
End alloc.

(** ** Examples *)

Module Heap1.
Definition base : Z := 0x2ff0.
Definition start : ust := Ust ∅ 0 0x6000.
Definition yes : Z → bool := λ _, true.

Lemma start_bounds : heap_bounds base (brk start).
Proof. by vm_compute. Qed.


(** After one request, the process has one block in use. *)
Definition used1 : ust :=
  Ust {[base := Header 24576 0; 24576 := Header base 4082; 57232 := Header 0 14]} base 57344.

Lemma used1_ok : heap_ok base [(base, 0); (24576, 4082)] [(57232, 14)] used1.
Proof.
  split.
  - done.
  - by vm_compute.
  - split; [|split; [constructor|done]]. constructor; [by vm_compute|constructor].
  - exists 0. set_solver.
  - constructor; [by split|constructor].
  - split; [|split; [|split; [constructor|done]]].
    + constructor; [by left; vm_compute|]. constructor; [by left; vm_compute|constructor].
    + constructor; [by left; vm_compute|constructor].
  - constructor; [|constructor; [|constructor; [|constructor]]]; (split; [by vm_compute|split; [by vm_compute|]]).
    + by left.
    + right. by vm_compute.
    + right. by vm_compute.
  - by vm_compute.
Qed.

Lemma free_gives_back_witness :
  ∃ R' s', free 2 57240 used1 = Ok tt s' ∧ heap_ok base R' [] s'.
Proof.
  destruct (free_gives_back base [(base, 0); (24576, 4082)] [] 57232 14 used1 2) as (R' & s' & Hf & Hok & _).
  - exact used1_ok.
  - done.
  - exists R', s'. split; [exact Hf|exact Hok].
Defined.

(** Outside that range the arithmetic on 32 bits gives way.  A request for all
    but one byte of the address space gets a block with no room at all ... *)
Theorem malloc_wraps : units (2 ^ 32 - 1) = 1 ∧
  ∃ r s', malloc base yes 5 (2 ^ 32 - 1) start = Ok r s' ∧ r ≠ 0 ∧ cell s' (r - HDR) = Header 0 1.
Proof.
  split; [by vm_compute|]. eexists _, _. split; [vm_compute; reflexivity|]. split; [done|by vm_compute].
Qed.

(** ... and one for two gigabytes asks [sbrk] for a negative amount, which
    succeeds without any new memory: the process is killed by a page fault
    instead of getting a null pointer. *)
Theorem malloc_huge_faults : i32 (u32 (units (2 ^ 31) * HDR)) < 0 ∧ malloc base yes 5 (2 ^ 31) start = Fault.
Proof. split; [by vm_compute|by vm_compute]. Qed.
End Heap1.
