(* ===== verification/Ulib.v ===== *)
(** * The user library (ulib.c, printf.c)

    Strings and memory as in Str.v: a buffer is the list of its bytes, [None]
    means running past its end.  [printf] is the list of the bytes it writes. *)
From S2P Require Import Prelude Str Digits.

(** ** ulib.c *)

(** Copies up to and with the NUL. *)
Fixpoint strcpy (s t : list Z) : option (list Z) :=
  match s, t with
  | _ :: s', c :: t' => cons c <$> (if c =? 0 then Some s' else strcpy s' t')
  | _, _ => None
  end.

Fixpoint strcmp (p q : list Z) : option Z :=
  match p, q with
  | c :: p', d :: q' => if negb (c =? 0) && (c =? d) then strcmp p' q' else Some (c - d)
  | _, _ => None
  end.

(** [strlen]: the counter is an [int], the result a [uint]. *)
Fixpoint ulen (s : list Z) : option Z :=
  match s with
  | [] => None
  | c :: s' => if c =? 0 then Some 0 else (λ n, u32 (i32 (1 + n))) <$> ulen s'
  end.

(** [strchr]: the rest of the string from the character on. *)
Fixpoint uchr (s : list Z) (c : Z) : option (option (list Z)) :=
  match s with
  | [] => None
  | x :: s' => if x =? 0 then Some None else if x =? c then Some (Some s) else uchr s' c
  end.

Definition umemset (m : mem) (dst c n : Z) : mem := stosb m dst c (Z.to_nat n).

Fixpoint atoi_loop (n : Z) (s : list Z) : option Z :=
  match s with
  | [] => None
  | c :: s' => if (48 <=? c) && (c <=? 57) then atoi_loop (i32 (n * 10 + c - 48)) s' else Some n
  end.
Definition atoi (s : list Z) : option Z := atoi_loop 0 s.

(** The user library's [memmove] always copies upwards. *)
Definition umemmove (m : mem) (dst src n : Z) : mem := copy_up m dst src (Z.to_nat n).

(** [gets]: the characters [read] delivers one by one from [input] go into the
    buffer, up to [max-1] of them, a newline or carriage return ending the line;
    the bytes stored, with their NUL, and what is left of the input. *)
Fixpoint gets_loop (room : nat) (input : list Z) : list Z * list Z :=
  match room, input with
  | S room', c :: input' =>
      if (c =? 10) || (c =? 13) then ([c], input')
      else let '(l, rest) := gets_loop room' input' in (c :: l, rest)
  | _, _ => ([], input)
  end.
Definition ugets (max : Z) (input : list Z) : list Z * list Z :=
  let '(l, rest) := gets_loop (Z.to_nat (max - 1)) input in (l ++ [0], rest).

(** ** printf.c *)

Definition udigits : list Z := chars "0123456789ABCDEF".

(** The [do] loop of [printint]. *)
Definition udigit_loop : nat → Z → Z → list Z := digit_rounds udigits.

Definition uprintint (xx base : Z) (sgn : bool) : list Z :=
  let neg := sgn && (i32 xx <? 0) in
  let x := if neg then u32 (- i32 xx) else u32 xx in
  rev (udigit_loop 32 x base ++ (if neg then [45] else [])).

(** The words of the stack above the format are the arguments; [str a] is the
    string at address [a]. *)
Section printf.
Context (str : Z → list Z).

Definition null_string : list Z := chars "(null)".

(** The loop over the format, in the state [state] ([true] for ['%']). *)
Fixpoint printf_loop (state : bool) (fmt : list Z) (ap : list Z) : option (list Z) :=
  match fmt with
  | [] => Some []
  | c0 :: fmt' =>
      let c := Z.land c0 0xff in
      if negb state then
        if c =? 37 then printf_loop true fmt' ap
        else cons (u8 c) <$> printf_loop false fmt' ap
      else if c =? 100 then
        match ap with a :: ap' => app (uprintint a 10 true) <$> printf_loop false fmt' ap' | [] => None end
      else if (c =? 120) || (c =? 112) then
        match ap with a :: ap' => app (uprintint a 16 false) <$> printf_loop false fmt' ap' | [] => None end
      else if c =? 115 then
        match ap with
        | a :: ap' => app (if a =? 0 then null_string else str a) <$> printf_loop false fmt' ap'
        | [] => None
        end
      else if c =? 99 then
        match ap with a :: ap' => cons (u8 a) <$> printf_loop false fmt' ap' | [] => None end
      else if c =? 37 then cons (u8 c) <$> printf_loop false fmt' ap
      else (λ l, 37 :: u8 c :: l) <$> printf_loop false fmt' ap
  end.

Definition printf (fmt : list Z) (ap : list Z) : option (list Z) := printf_loop false fmt ap.
End printf.

(** ** Facts *)

(** The number a string of digits stands for. *)
Definition digit_of (c : Z) : Z := if c <? 58 then c - 48 else c - 55.
Lemma udigit_ok d :
  0 ≤ d < 16 → digit_of (default 0 (udigits !! Z.to_nat d)) = d ∧
  (d < 10 → 48 ≤ default 0 (udigits !! Z.to_nat d) ≤ 57).
Proof.
  intros Hd. assert (∃ k, d = Z.of_nat k ∧ (k < 16)%nat) as (k & -> & Hk) by (exists (Z.to_nat d); lia).
  rewrite Nat2Z.id. do 16 (destruct k as [|k]; [by vm_compute|]). lia.
Qed.

Lemma udecimal_ok fuel n x :
  (n < fuel)%nat → 0 ≤ x < 10 ^ Z.of_nat (S n) →
  reads digit_of 10 (rev (udigit_loop fuel x 10)) = x ∧ (length (udigit_loop fuel x 10) ≤ S n)%nat ∧
  Forall (λ c, 48 ≤ c ≤ 57) (udigit_loop fuel x 10).
Proof.
  apply digit_rounds_ok; [lia|]. intros d Hd. destruct (udigit_ok d) as [H1 H2]; [lia|]. split; [done|]. apply H2. lia.
Qed.

Lemma atoi_loop_digits l n c rest :
  Forall (λ c, 48 ≤ c ≤ 57) l → ¬ (48 ≤ c ≤ 57) → 0 ≤ n →
  foldl (λ a c, a * 10 + digit_of c) n l < 2 ^ 31 →
  atoi_loop n (l ++ c :: rest) = Some (foldl (λ a c, a * 10 + digit_of c) n l).
Proof.
  intros Hl Hc. revert n. induction Hl as [|d l Hd Hl IH]; intros n Hn Hb; cbn [app atoi_loop foldl] in *.
  - by zcases.
  - assert (digit_of d = d - 48) as Ed by (unfold digit_of; by rewrite (proj2 (Z.ltb_lt _ _)) by lia).
    assert (∀ l n, Forall (λ c, 48 ≤ c ≤ 57) l → 0 ≤ n → n ≤ foldl (λ a c, a * 10 + digit_of c) n l) as Hmono.
    { clear. intros l n Hl. revert n. induction Hl as [|e l He Hl IH]; intros n Hn; cbn [foldl]; [lia|].
      assert (0 ≤ digit_of e) by (unfold digit_of; rewrite (proj2 (Z.ltb_lt _ _)) by lia; lia).
      etransitivity; [|apply IH; lia]. lia. }
    specialize (Hmono l (n * 10 + digit_of d) Hl ltac:(lia)).
    rewrite (proj2 (Z.leb_le _ _)), (proj2 (Z.leb_le _ _)) by lia. cbn [andb].
    rewrite i32_small by lia. rewrite <- Z.add_sub_assoc, <- Ed. apply IH; [lia|done].
Qed.

Lemma atoi_uprintint n rest : 0 ≤ n < 2 ^ 31 → atoi (uprintint n 10 true ++ 0 :: rest) = Some n.
Proof.
  intros Hn. unfold uprintint. rewrite i32_small by lia. rewrite (proj2 (Z.ltb_ge _ _)) by lia. cbn [andb].
  rewrite app_nil_r, u32_small by lia.
  destruct (udecimal_ok 32 9 n ltac:(lia)) as (Hv & _ & Hd).
  { change (10 ^ Z.of_nat 10) with 10000000000. lia. }
  unfold atoi. rewrite atoi_loop_digits; [by f_equal| |lia|lia|].
  - by apply Forall_rev.
  - unfold reads in Hv. rewrite Hv. lia.
Qed.

(** ** Properties *)

(** [atoi] reads back what [printf] prints for a number that is not negative. *)
Theorem atoi_printf n rest :
  0 ≤ n < 2 ^ 31 → ∃ l, printf (λ _, []) (chars "%d") [n] = Some l ∧ atoi (l ++ 0 :: rest) = Some n.
Proof.
  intros Hn. exists (uprintint n 10 true). split; [cbn; by rewrite app_nil_r|]. by apply atoi_uprintint.
Qed.

(** Copying to lower addresses, or without overlap, [memmove] of the user library
    does what its namesake of the kernel does ... *)
Theorem umemmove_copies m dst src n x :
  0 ≤ n → dst ≤ src ∨ src + n ≤ dst →
  umemmove m dst src n x = if inrange dst n x then m (src + (x - dst)) else m x.
Proof. intros Hn Ho. unfold umemmove. rewrite copy_up_spec by lia. by rewrite Z2Nat.id by lia. Qed.

(** ... but not for an overlapping copy to higher addresses, where it repeats the
    first bytes. *)
Theorem umemmove_overlap :
  umemmove mem_ex 101 100 4 104 = 1 ∧ memmove mem_ex 101 100 4 104 = 4.
Proof. split; by vm_compute. Qed.

(** [strcmp] is 0 exactly on equal strings. *)
Theorem strcmp_zero p q s t :
  Forall (λ c, c ≠ 0) p → Forall (λ c, c ≠ 0) q → strcmp (p ++ 0 :: s) (q ++ 0 :: t) = Some 0 ↔ p = q.
Proof.
  intros Hp. revert q. induction Hp as [|c p Hc Hp IH]; intros q Hq.
  - destruct Hq as [|d q Hd Hq]; [done|]. cbn. split; [intros [= E]; lia|done].
  - destruct Hq as [|d q Hd Hq]; cbn [app strcmp]; rewrite (proj2 (Z.eqb_neq _ _) Hc); cbn [negb andb].
    + split; [intros [= E]; lia|done].
    + destruct (Z.eqb_spec c d) as [->|Hne].
      * rewrite IH by done. naive_solver.
      * split; [intros [= E]; lia|naive_solver].
Qed.

(** [gets] stores at most [max] bytes, NUL included, and loses no input. *)
Theorem ugets_bounded max input l rest :
  1 ≤ max → ugets max input = (l, rest) →
  (Z.of_nat (length l) ≤ max) ∧ ∃ l', l = l' ++ [0] ∧ input = l' ++ rest.
Proof.
  intros Hm. unfold ugets. destruct (gets_loop (Z.to_nat (max - 1)) input) as [l' r] eqn:E. intros [= <- <-].
  assert (∀ room inp l r, gets_loop room inp = (l, r) → (length l ≤ room)%nat ∧ inp = l ++ r) as Hg.
  { clear. induction room as [|room IH]; intros [|c inp] l r; cbn [gets_loop]; try (by intros [= <- <-]; split; [cbn; lia|]).
    destruct ((c =? 10) || (c =? 13)); [intros [= <- <-]; split; [cbn; lia|done]|].
    destruct (gets_loop room inp) as [l1 r1] eqn:E1. intros [= <- <-]. apply IH in E1 as [? ->].
    split; [cbn; lia|done]. }
  apply Hg in E as [Hl ->]. rewrite length_app. cbn. split; [lia|]. by exists l'.
Qed.
