(* ===== verification/Grep.v ===== *)
(** * The pattern matcher of grep (grep.c)

    A C string is the list of its characters without the NUL; [at0] reads its
    first byte.  [match_re], [matchhere] and [matchstar] are the three functions
    of the source.  The reference is the language of a pattern: [parse] splits
    it into items, [lang] says which strings a sequence of items stands for, and
    a line matches when one of its substrings is in the language, at the ends of
    the line where the pattern asks for it. *)
From S2P Require Import Prelude Str.

Definition CARET : Z := 94.
Definition DOLLAR : Z := 36.
Definition STAR : Z := 42.
Definition DOT : Z := 46.

(** [s[0]] *)
Definition at0 (s : list Z) : Z := match s with [] => 0 | c :: _ => c end.

(** ** The source *)

(** The [do] loop tries [matchhere] on the text and on what is left of it after
    each character that fits; [here] is [matchhere] of the rest of the pattern. *)
Fixpoint matchstar (here : list Z → bool) (c : Z) (text : list Z) : bool :=
  here text ||
  match text with
  | [] => false
  | t :: text' => ((t =? c) || (c =? DOT)) && matchstar here c text'
  end.

Fixpoint matchhere (re : list Z) (text : list Z) : bool :=
  match re with
  | [] => true
  | c :: re1 =>
      if at0 re1 =? STAR then
        match re1 with [] => false | _ :: re2 => matchstar (matchhere re2) c text end
      else if (c =? DOLLAR) && (at0 re1 =? 0) then
        match text with [] => true | _ => false end
      else
        match text with
        | [] => false
        | t :: text1 => ((c =? DOT) || (c =? t)) && matchhere re1 text1
        end
  end.

(** The loop of [match]: it also looks at the empty string at the end. *)
Fixpoint match_from (re text : list Z) : bool :=
  matchhere re text || match text with [] => false | _ :: text' => match_from re text' end.

Definition match_re (re text : list Z) : bool :=
  match re with
  | c :: re' => if c =? CARET then matchhere re' text else match_from re text
  | [] => match_from re text
  end.

(** ** The reference *)

Inductive item := One (c : Z) | Many (c : Z) | End.

Definition fits (c t : Z) : Prop := c = DOT ∨ c = t.

(** The items of a pattern without its [^]. *)
Fixpoint parse (re : list Z) : list item :=
  match re with
  | [] => []
  | c :: re1 =>
      match re1 with
      | [] => if c =? DOLLAR then [End] else [One c]
      | d :: re2 => if d =? STAR then Many c :: parse re2 else One c :: parse re1
      end
  end.

(** [lang is w at_end]: the items stand for the string [w]; [at_end] tells
    whether the string has to be at the end of the line. *)
Inductive lang : list item → list Z → bool → Prop :=
| lang_nil : lang [] [] false
| lang_end is' b : lang is' [] b → lang (End :: is') [] true
| lang_one c t is' w b : fits c t → lang is' w b → lang (One c :: is') (t :: w) b
| lang_many c ws is' w b : Forall (fits c) ws → lang is' w b → lang (Many c :: is') (ws ++ w) b.

(** The pattern [re] occurs in the line. *)
Definition occurs (re line : list Z) : Prop :=
  let anchored := at0 re =? CARET in
  ∃ before w after at_end, line = before ++ w ++ after ∧
    lang (parse (if anchored then tail re else re)) w at_end ∧
    (anchored = true → before = []) ∧ (at_end = true → after = []).

(** ** Facts *)

Lemma matchstar_spec here c text :
  matchstar here c text = true ↔ ∃ ws rest, text = ws ++ rest ∧ Forall (fits c) ws ∧ here rest = true.
Proof.
  induction text as [|t text IH]; cbn [matchstar].
  - rewrite orb_false_r. split.
    + intros H. by exists [], [].
    + intros (ws & rest & E & _ & H). symmetry in E. by apply app_nil in E as [-> ->].
  - rewrite orb_true_iff, andb_true_iff, orb_true_iff, !Z.eqb_eq, IH. split.
    + intros [H|[Hf (ws & rest & -> & Hws & H)]]; [by exists [], (t :: text)|].
      exists (t :: ws), rest. split_and!; [done| |done]. constructor; [|done]. unfold fits. naive_solver.
    + intros ([|w ws] & rest & E & Hws & H); simplify_eq/=; [by left|].
      right. apply Forall_cons in Hws as [Hw Hws]. split; [unfold fits in Hw; naive_solver|]. by exists ws, rest.
Qed.

(** Patterns have no NUL inside. *)
Lemma at0_zero (re : list Z) : Forall (λ c, c ≠ 0) re → (at0 re =? 0) = bool_decide (re = []).
Proof.
  destruct re as [|c re]; [done|]. intros [Hc _]%Forall_cons. cbn. by rewrite (proj2 (Z.eqb_neq _ _) Hc).
Qed.

Lemma matchhere_spec n re : (length re ≤ n)%nat → ∀ text,
  Forall (λ c, c ≠ 0) re →
  matchhere re text = true ↔
  ∃ w after at_end, text = w ++ after ∧ lang (parse re) w at_end ∧ (at_end = true → after = []).
Proof.
  revert re. induction n as [|n IH]; intros [|c re1] Hn text Hnz; cbn [length] in Hn; try lia.
  1,2: cbn [matchhere parse]; split; [intros _; exists [], text, false; split_and!; [done|constructor|done]|done].
  apply Forall_cons in Hnz as [Hc Hnz]. cbn [matchhere]. rewrite (at0_zero re1 Hnz).
  destruct re1 as [|d re2].
  - cbn [at0 parse]. rewrite bool_decide_true, andb_true_r by done. change (0 =? STAR) with false. cbv iota.
    destruct (Z.eqb_spec c DOLLAR) as [->|Hd].
    + split.
      * destruct text; [|done]. intros _. exists [], [], true. split_and!; [done| |done].
        eapply lang_end. constructor.
      * intros (w & after & b & -> & Hl & Hb). inversion Hl; subst. by rewrite Hb.
    + split.
      * destruct text as [|t text]; [done|]. rewrite andb_true_iff, orb_true_iff, !Z.eqb_eq. intros [Hf _].
        exists [t], text, false. split_and!; [done| |done]. constructor; [done|constructor].
      * intros (w & after & b & -> & Hl & _). inversion Hl as [|? ? Hl'|? t ? w' ? Hf Hl'|]; subst.
        cbn. inversion Hl'; subst. cbn. rewrite andb_true_r. unfold fits in Hf.
        apply orb_true_iff. rewrite !Z.eqb_eq. naive_solver.
  - cbn [at0]. rewrite bool_decide_false, andb_false_r by done. cbn [parse length] in *.
    apply Forall_cons in Hnz as [Hdz Hnz2]. destruct (Z.eqb_spec d STAR) as [->|Hd].
    + rewrite matchstar_spec. split.
      * intros (ws & rest & -> & Hws & Hm). apply (IH re2 ltac:(lia) rest Hnz2) in Hm as (w & after & b & -> & Hl & Hb).
        exists (ws ++ w), after, b. split_and!; [by rewrite app_assoc|by constructor|done].
      * intros (w & after & b & -> & Hl & Hb). inversion Hl as [|? ? ?|? t ? w' ? Hf Hl'|? ws ? w' ? Hf Hl']; subst.
        exists ws, (w' ++ after). split_and!; [by rewrite app_assoc|done|].
        apply (IH re2 ltac:(lia) _ Hnz2). by exists w', after, b.
    + split.
      * destruct text as [|t text]; [done|]. rewrite andb_true_iff, orb_true_iff, !Z.eqb_eq. intros [Hf Hm].
        apply (IH (d :: re2) ltac:(simpl; lia) text) in Hm as (w & after & b & -> & Hl & Hb); [|by constructor].
        exists (t :: w), after, b. split_and!; [done| |done]. by constructor.
      * intros (w & after & b & -> & Hl & Hb). inversion Hl as [|? ? ?|? t ? w' ? Hf Hl'|]; subst. cbn [app].
        rewrite andb_true_iff, orb_true_iff, !Z.eqb_eq. split; [done|].
        apply (IH (d :: re2) ltac:(simpl; lia) _); [by constructor|]. by exists w', after, b.
Qed.

Lemma match_from_spec re text :
  match_from re text = true ↔ ∃ before rest, text = before ++ rest ∧ matchhere re rest = true.
Proof.
  induction text as [|t text IH]; cbn [match_from].
  - rewrite orb_false_r. split; [intros H; by exists [], []|].
    intros (before & rest & E & H). symmetry in E. by apply app_nil in E as [-> ->].
  - rewrite orb_true_iff, IH. split.
    + intros [H|(before & rest & -> & H)]; [by exists [], (t :: text)|by exists (t :: before), rest].
    + intros ([|b before] & rest & E & H); simplify_eq/=; [by left|right; by exists before, rest].
Qed.

(** C34: the matcher of grep decides the language of its patterns: [match] returns
    1 exactly when a substring of the line is in the language of the pattern, at
    the start of the line after a leading [^] and at its end before a closing
    [$]. *)
Theorem match_decides_language re line :
  Forall (λ c, c ≠ 0) re → match_re re line = true ↔ occurs re line.
Proof.
  intros Hnz. unfold match_re, occurs. destruct re as [|c re].
  - cbn [at0]. change (0 =? CARET) with false. cbv iota zeta. rewrite match_from_spec. split.
    + intros (before & rest & -> & _). exists before, [], rest, false. split_and!; [done|constructor|done|done].
    + intros _. by exists [], line.
  - cbn [at0 tail]. destruct (c =? CARET).
    + apply Forall_cons in Hnz as [_ Hnz]. rewrite (matchhere_spec (length re)) by done. split.
      * intros (w & after & b & -> & Hl & Hb). by exists [], w, after, b.
      * intros (before & w & after & b & -> & Hl & He & Hb). rewrite He by done. by exists w, after, b.
    + rewrite match_from_spec. split.
      * intros (before & rest & -> & Hm). apply (matchhere_spec _ _ (le_n _)) in Hm as (w & after & b & -> & Hl & Hb); [|done].
        by exists before, w, after, b.
      * intros (before & w & after & b & -> & Hl & _ & Hb). exists before, (w ++ after). split; [done|].
        apply (matchhere_spec _ _ (le_n _)); [done|]. by exists w, after, b.
Qed.

Lemma match_decides_language_witness :
  match_re (chars "^ab*c$") (chars "abbbc") = true ∧ occurs (chars "^ab*c$") (chars "abbbc").
Proof.
  assert (match_re (chars "^ab*c$") (chars "abbbc") = true) as E by (vm_compute; reflexivity).
  split; [exact E|]. apply (match_decides_language (chars "^ab*c$") (chars "abbbc")); [|exact E].
  repeat (constructor; [done|]). constructor.
Defined.

(** ** The program *)

Definition NL : Z := 10.
Definition BUFSZ : nat := 1024.

(** [strchr(p, c)] on the rest of a buffer: [None] when it runs off the buffer,
    [Some None] when there is no such character before the NUL. *)
Fixpoint strchr (s : list Z) (c : Z) : option (option nat) :=
  match s with
  | [] => None
  | x :: s' => if x =? 0 then Some None else if x =? c then Some (Some 0%nat) else option_map (option_map S) (strchr s' c)
  end.

(** The inner loop from position [p]: the output, the buffer, and the new [p]. *)
Fixpoint grep_lines (fuel : nat) (pattern buf : list Z) (p : nat) : option (list Z * list Z * nat) :=
  match fuel with
  | O => None
  | S n =>
      q ← strchr (drop p buf) NL;
      match q with
      | None => Some ([], buf, p)
      | Some i =>
          let q := (p + i)%nat in
          let buf := <[q := 0]> buf in
          let hit := match_re pattern (str_of (drop p buf)) in
          let buf := if hit then <[q := NL]> buf else buf in
          let out := if hit then take (q + 1 - p) (drop p buf) else [] in
          r ← grep_lines n pattern buf (q + 1)%nat;
          let '(out', buf', p') := r in Some (out ++ out', buf', p')
      end
  end.

(** One round of the outer loop, for a [read] that delivered [chunk]. *)
Definition grep_round (pattern : list Z) (s : list Z * nat) (chunk : list Z) : option (list Z * (list Z * nat)) :=
  let '(buf, m) := s in
  let n := length chunk in
  if bool_decide (m + n < BUFSZ)%nat then
    let buf := take m buf ++ chunk ++ drop (m + n) buf in
    let m := (m + n)%nat in
    let buf := <[m := 0]> buf in
    r ← grep_lines (S m) pattern buf 0;
    let '(out, buf, p) := r in
    let m := if (p =? 0)%nat then 0%nat else m in
    let '(buf, m) :=
      if (0 <? m)%nat then
        let m := (m - p)%nat in (take m (drop p buf) ++ drop m buf, m)
      else (buf, m) in
    Some (out, (buf, m))
  else None.

(** [grep] on a file whose [read] calls deliver the given chunks; an empty one is
    the end of the file.  A chunk is at most as long as [read] was asked for,
    [None] otherwise. *)
Fixpoint grep (pattern : list Z) (s : list Z * nat) (chunks : list (list Z)) : option (list Z) :=
  match chunks with
  | [] => Some []
  | [] :: _ => Some []
  | chunk :: chunks' =>
      r ← grep_round pattern s chunk;
      let '(out, s') := r in
      out' ← grep pattern s' chunks';
      Some (out ++ out')
  end.

(** ** Lines *)

(** The complete lines of a text, and what follows the last newline. *)
Fixpoint split (t : list Z) : list (list Z) * list Z :=
  match t with
  | [] => ([], [])
  | c :: t' =>
      let '(ls, r) := split t' in
      if c =? NL then ([] :: ls, r)
      else match ls with [] => ([], c :: r) | l :: ls' => ((c :: l) :: ls', r) end
  end.

Definition carry (t : list Z) : list Z := (split t).2.

(** The matching lines of a text. *)
Definition matching (pattern t : list Z) : list Z :=
  mjoin ((λ l, if match_re pattern l then l ++ [NL] else []) <$> (split t).1).

Lemma split_none t : NL ∉ t → split t = ([], t).
Proof.
  induction t as [|c t IH]; [done|]. intros H. cbn [split]. rewrite IH by set_solver.
  by rewrite (proj2 (Z.eqb_neq _ _)) by set_solver.
Qed.

Lemma split_line l t : NL ∉ l → split (l ++ NL :: t) = (l :: (split t).1, (split t).2).
Proof.
  induction l as [|c l IH]; intros H; cbn [split app]; [by destruct (split t)|].
  rewrite IH by set_solver. by rewrite (proj2 (Z.eqb_neq _ _)) by set_solver.
Qed.

Lemma split_app t1 t2 :
  split (t1 ++ t2) = ((split t1).1 ++ (split (carry t1 ++ t2)).1, (split (carry t1 ++ t2)).2).
Proof.
  unfold carry. induction t1 as [|c t1 IH]; cbn [split app fst snd]; [by destruct (split t2)|].
  rewrite IH. destruct (split t1) as [ls r]; cbn [fst snd app]. destruct (c =? NL) eqn:E; [done|].
  destruct ls as [|l ls]; cbn [fst snd app]; [|done].
  cbn [split]. destruct (split (r ++ t2)) as [[|l ls] r']; cbn [fst snd app]; by rewrite E.
Qed.

Lemma matching_app pattern t1 t2 :
  matching pattern (t1 ++ t2) = matching pattern t1 ++ matching pattern (carry t1 ++ t2).
Proof. unfold matching. rewrite split_app. cbn [fst]. by rewrite fmap_app, join_app. Qed.

(** A text is its first line and the rest, or a partial line. *)
Lemma first_line t : NL ∈ t → ∃ l t', t = l ++ NL :: t' ∧ NL ∉ l.
Proof.
  induction t as [|c t IH]; [set_solver|]. intros H. destruct (decide (c = NL)) as [->|Hc].
  - exists [], t. set_solver.
  - destruct IH as (l & t' & -> & Hl); [set_solver|]. exists (c :: l), t'. set_solver.
Qed.

Lemma split_length t : length t = length (mjoin ((λ l, l ++ [NL]) <$> (split t).1) ++ carry t).
Proof.
  unfold carry. induction t as [|c t IH]; [done|]. cbn [split length]. rewrite IH.
  destruct (split t) as [ls r]; cbn [fst snd]. destruct (c =? NL); [done|]. by destruct ls.
Qed.

(** ** The loops *)

Lemma strchr_found l t : NL ∉ l → 0 ∉ l → strchr (l ++ NL :: t) NL = Some (Some (length l)).
Proof.
  induction l as [|c l IH]; intros H1 H2; [done|]. cbn [app strchr].
  rewrite !(proj2 (Z.eqb_neq c _)) by set_solver. by rewrite IH by set_solver.
Qed.

Lemma strchr_none l t : NL ∉ l → 0 ∉ l → strchr (l ++ 0 :: t) NL = Some None.
Proof.
  induction l as [|c l IH]; intros H1 H2; [done|]. cbn [app strchr].
  rewrite !(proj2 (Z.eqb_neq c _)) by set_solver. by rewrite IH by set_solver.
Qed.

(** From the start of a text: its matching lines are printed, and [p] ends up at
    its last, partial line. *)
Lemma grep_lines_ok pattern fuel before t junk :
  (length t < fuel)%nat → 0 ∉ t →
  ∃ before', grep_lines fuel pattern (before ++ t ++ 0 :: junk) (length before) =
      Some (matching pattern t, before' ++ carry t ++ 0 :: junk, length before') ∧
    length (before' ++ carry t) = length (before ++ t) ∧ (NL ∈ t → (length before < length before')%nat).
Proof.
  revert before t. induction fuel as [|fuel IH]; intros before t Hf H0; [lia|]. cbn [grep_lines].
  rewrite drop_app_length. destruct (decide (NL ∈ t)) as [Hn|Hn].
  - destruct (first_line t Hn) as (l & t' & -> & Hl). rewrite <- app_assoc. cbn [app].
    rewrite strchr_found by set_solver. cbn [mbind option_bind].
    set (r := if match_re pattern l then NL else 0).
    assert (str_of (drop (length before) (<[(length before + length l)%nat := 0]>
      (before ++ l ++ NL :: t' ++ 0 :: junk))) = l) as ->.
    { rewrite insert_app_r, drop_app_length, <- (Nat.add_0_r (length l)), insert_app_r. cbn.
      apply str_of_app_zero. rewrite Forall_forall. set_solver. }
    assert ((if match_re pattern l
             then <[(length before + length l)%nat := NL]> (<[(length before + length l)%nat := 0]> (before ++ l ++ NL :: t' ++ 0 :: junk))
             else <[(length before + length l)%nat := 0]> (before ++ l ++ NL :: t' ++ 0 :: junk)) =
      (before ++ l ++ [r]) ++ t' ++ 0 :: junk) as ->.
    { unfold r. rewrite <- !app_assoc. destruct (match_re pattern l);
        rewrite !insert_app_r, <- (Nat.add_0_r (length l)), !insert_app_r; done. }
    replace (length before + length l + 1)%nat with (length (before ++ l ++ [r])) by (rewrite !length_app; simpl; lia).
    destruct (IH (before ++ l ++ [r]) t') as (b' & E & Hlen & _); [rewrite length_app in Hf; simpl in Hf; lia|set_solver|].
    rewrite E. cbn [mbind option_bind]. exists b'. unfold carry, matching in *. rewrite split_line by done.
    cbn [fst snd fmap list_fmap mjoin list_join]. split_and!.
    + do 3 f_equal. unfold r. destruct (match_re pattern l); [|done]. rewrite <- !app_assoc, drop_app_length.
      replace (length (before ++ l ++ [NL]) - length before)%nat with (length (l ++ [NL])) by (rewrite !length_app; lia).
      rewrite (app_assoc l), take_app_length. by rewrite <- app_assoc.
    + rewrite Hlen, !length_app. simpl. lia.
    + intros _. rewrite !length_app in Hlen. simpl in Hlen. pose proof (split_length t') as Hs. unfold carry in Hs.
      rewrite length_app in Hs. lia.
  - rewrite strchr_none by done. cbn [mbind option_bind]. exists before. unfold carry, matching.
    rewrite split_none by done. done.
Qed.

Lemma carry_partial t : NL ∉ carry t.
Proof.
  unfold carry. induction t as [|c t IH]; cbn [split]; [set_solver|]. destruct (split t) as [ls r]. cbn [snd] in *.
  destruct (Z.eqb_spec c NL); [done|]. destruct ls; set_solver.
Qed.

(** The buffer holds the partial line [c]. *)
Definition holds_line (s : list Z * nat) (c : list Z) : Prop :=
  length s.1 = BUFSZ ∧ s.2 = length c ∧ take (length c) s.1 = c ∧ NL ∉ c.

Lemma grep_round_ok pattern s c chunk :
  holds_line s c → (length (c ++ chunk) < BUFSZ)%nat → 0 ∉ c ++ chunk → NL ∈ c ++ chunk →
  ∃ s', grep_round pattern s chunk = Some (matching pattern (c ++ chunk), s') ∧ holds_line s' (carry (c ++ chunk)).
Proof.
  destruct s as [buf m]. intros (Hlen & Hm & Hc & _) Hroom H0 Hn. cbn [fst snd] in *. subst m.
  rewrite length_app in Hroom. unfold grep_round. rewrite bool_decide_true by done.
  rewrite Hc, app_assoc. set (t := c ++ chunk) in *.
  assert (length t = length c + length chunk)%nat as Ht by apply length_app. rewrite <- Ht in *.
  destruct (lookup_lt_is_Some_2 buf (length t)) as [x Hx]; [lia|].
  rewrite (drop_S _ _ _ Hx). set (junk := drop (S (length t)) buf).
  assert (<[length t := 0]> (t ++ x :: junk) = t ++ 0 :: junk) as ->.
  { rewrite <- (Nat.add_0_r (length t)). by rewrite insert_app_r. }
  destruct (grep_lines_ok pattern (S (length t)) [] t junk) as (b' & E & Hbl & Hpos); [lia|done|].
  cbn [app length] in E, Hpos. rewrite E. cbn [mbind option_bind]. specialize (Hpos Hn). rewrite length_app in Hbl. cbn [app] in Hbl.
  rewrite (proj2 (Nat.eqb_neq (length b') 0)), (proj2 (Nat.ltb_lt 0 (length t))) by lia.
  replace (length t - length b')%nat with (length (carry t)) by lia.
  rewrite drop_app_length, take_app_length. eexists. split; [reflexivity|].
  split_and!; cbn [fst snd]; [|done|apply take_app_length|apply carry_partial].
  rewrite length_app, length_drop, !length_app in *. unfold junk. cbn [length] in *. rewrite length_drop. lia.
Qed.

(** [read] delivers no NULs, no more than there is room for, and never a piece
    that leaves the buffer without a newline. *)
Fixpoint fed (c : list Z) (chunks : list (list Z)) : Prop :=
  match chunks with
  | [] => True
  | chunk :: chunks' =>
      chunk ≠ [] ∧ (length (c ++ chunk) < BUFSZ)%nat ∧ 0 ∉ c ++ chunk ∧ NL ∈ c ++ chunk ∧
      fed (carry (c ++ chunk)) chunks'
  end.

Lemma grep_ok pattern chunks s c :
  holds_line s c → fed c chunks → grep pattern s chunks = Some (matching pattern (c ++ mjoin chunks)).
Proof.
  revert s c. induction chunks as [|chunk chunks IH]; intros s c Hs Hf.
  - cbn [grep]. destruct Hs as (_ & _ & _ & Hn). cbn [mjoin list_join]. rewrite app_nil_r. unfold matching.
    by rewrite split_none.
  - destruct Hf as (Hne & Hlen & H0 & Hn & Hf). destruct (grep_round_ok pattern s c chunk Hs Hlen H0 Hn) as (s' & E & Hs').
    cbn [grep]. destruct chunk as [|x chunk]; [done|]. rewrite E. cbn [mbind option_bind].
    rewrite (IH s' _ Hs' Hf). cbn [mbind option_bind mjoin list_join].
    f_equal. rewrite (app_assoc c). symmetry. apply matching_app.
Qed.

(** as long as no piece that [read] delivers leaves the buffer without a
    newline, grep prints exactly the matching lines of the file, whole and in
    order, wherever the pieces begin and end. *)
Theorem grep_prints_matching pattern buf chunks :
  length buf = BUFSZ → fed [] chunks → grep pattern (buf, 0%nat) chunks = Some (matching pattern (mjoin chunks)).
Proof. intros Hb Hf. apply (grep_ok pattern chunks _ []); [|done]. split_and!; [done..|set_solver]. Qed.

Lemma grep_prints_matching_witness :
  grep (chars "b") (replicate BUFSZ 0, 0%nat) [chars "abc" ++ [NL] ++ chars "x"; chars "bz" ++ [NL]] =
    Some (chars "abc" ++ [NL] ++ chars "xbz" ++ [NL]).
Proof.
  rewrite (grep_prints_matching (chars "b") (replicate BUFSZ 0)).
  - vm_compute. reflexivity.
  - by rewrite length_replicate.
  - split_and!; try done; try (apply (bool_decide_unpack _); vm_compute; exact I).
Defined.

(** Otherwise the start of a line is lost: it stands in the buffer without a
    newline, and the buffer is emptied. *)
Theorem grep_loses_partial :
  grep (chars "b") (replicate BUFSZ 0, 0%nat) [chars "ab"; chars "c" ++ [NL]] = Some [] ∧
  matching (chars "b") (mjoin [chars "ab"; chars "c" ++ [NL]]) = chars "abc" ++ [NL].
Proof. split; by vm_compute. Qed.
