(* ===== verification/Sh.v ===== *)
(** * The shell: parsing a command line (sh.c)

    The line is the list of its characters, without the NUL that ends it; a
    [char *] into it is a position.  The parser's state is the position [*ps];
    [panic] ends the process with a message.  A command is a tree over words,
    and a word is a pair of positions until [nulterminate] has cut the line into
    strings. *)
From S2P Require Import Prelude Str.

(** ** Commands *)

Inductive cmd (W : Type) :=
| EXEC (argv : list W)
| REDIR (c : cmd W) (file : W) (mode fd : Z)
| PIPE (left right : cmd W)
| LIST (left right : cmd W)
| BACK (c : cmd W).
Arguments EXEC {W}.
Arguments REDIR {W}.
Arguments PIPE {W}.
Arguments LIST {W}.
Arguments BACK {W}.

Definition MAXARGS : nat := 10.

Definition word : Type := nat * nat.

Definition whitespace : list Z := [32; 9; 13; 10; 11].
Definition symbols : list Z := chars "<|>&;()".

(** [strchr(l, c) != 0]; a NUL is never found. *)
Definition among (l : list Z) (c : Z) : bool := negb (c =? 0) && bool_decide (c ∈ l).

(** The length of the longest prefix of characters with [p]. *)
Fixpoint span (p : Z → bool) (s : list Z) : nat :=
  match s with
  | c :: s' => if p c then S (span p s') else 0
  | [] => 0
  end.

Definition word_char (c : Z) : bool := negb (among whitespace c) && negb (among symbols c).

Section parser.
Context (line : list Z).

Definition es : nat := length line.

(** [*s]: at the end of the line stands the NUL. *)
Definition deref_at (s : nat) : Z := default 0 (line !! s).

Definition skip (p : Z → bool) (s : nat) : nat := (s + span p (drop s line))%nat.

(** The token, where it starts and where it ends. *)
Definition gettoken : K nat (Z * nat * nat) := λ ps,
  let q := skip (among whitespace) ps in
  let c := deref_at q in
  let '(ret, eq) :=
    if c =? 0 then (c, q)
    else if bool_decide (c ∈ chars "|();&<") then (c, S q)
    else if c =? 62 then (if deref_at (S q) =? 62 then (43, S (S q)) else (c, S q))
    else (97, skip word_char q) in
  Ok (ret, q, eq) (skip (among whitespace) eq).

Definition peek (toks : list Z) : K nat bool := λ ps,
  let s := skip (among whitespace) ps in
  Ok (negb (deref_at s =? 0) && among toks (deref_at s)) s.

(** ** The grammar *)

(** A redirection: the file's name, the mode it is opened with, and the
    descriptor it replaces. *)
Definition redir (W : Type) : Type := W * Z * Z.
Definition redirect {W} (c : cmd W) (rs : list (redir W)) : cmd W :=
  foldl (λ c r, REDIR c r.1.1 r.1.2 r.2) c rs.

(** A round of the loop of [parseredirs]. *)
Definition redir_step (rs : list (redir word)) : K nat (list (redir word) + list (redir word)) :=
  b ← peek (chars "<>");
  if (b : bool) then
    t ← gettoken;
    let tok := t.1.1 in
    t ← gettoken;
    let '(a, q, eq) := t in
    if negb (a =? 97) then panic "missing file for redirection"
    else if tok =? 60 then mret (inl (rs ++ [((q, eq), O_RDONLY, 0)]))
    else if tok =? 62 then mret (inl (rs ++ [((q, eq), Z.lor O_WRONLY O_CREATE, 1)]))
    else if tok =? 43 then mret (inl (rs ++ [((q, eq), Z.lor O_WRONLY O_CREATE, 1)]))
    else mret (inl rs)
  else mret (inr rs).

(** The redirections [parseredirs] wraps around its command, the first one
    innermost. *)
Definition parseredirs : K nat (list (redir word)) := while (S es) redir_step [].

(** A round of the loop of [parseexec]: an argument and the redirections behind
    it. *)
Definition args_step (x : list word * list (redir word)) :
    K nat (list word * list (redir word) + list word * list (redir word)) :=
  b ← peek (chars "|)&;");
  if (b : bool) then mret (inr x)
  else
    t ← gettoken;
    let '(tok, q, eq) := t in
    if tok =? 0 then mret (inr x)
    else if negb (tok =? 97) then panic "syntax"
    else
      let argv := x.1 ++ [(q, eq)] in
      if bool_decide (MAXARGS ≤ length argv)%nat then panic "too many args"
      else
        rs ← parseredirs;
        mret (inl (argv, x.2 ++ rs)).
Definition parseargs (rs : list (redir word)) : K nat (list word * list (redir word)) :=
  while (S es) args_step ([], rs).

(** A round of the loop of [parseline]. *)
Definition back_step (c : cmd word) : K nat (cmd word + cmd word) :=
  b ← peek (chars "&");
  if (b : bool) then _ ← gettoken; mret (inl (BACK c)) else mret (inr c).

(** [fuel] bounds the depth of the calls: every level consumes a character, or
    goes one step down the grammar. *)
Fixpoint parseline (fuel : nat) : K nat (cmd word) :=
  match fuel with
  | O => diverge
  | S n =>
      c ← parsepipe n;
      c ← while (S es) back_step c;
      b ← peek (chars ";");
      if (b : bool) then
        _ ← gettoken;
        r ← parseline n;
        mret (LIST c r)
      else mret c
  end
with parsepipe (fuel : nat) : K nat (cmd word) :=
  match fuel with
  | O => diverge
  | S n =>
      c ← parseexec n;
      b ← peek (chars "|");
      if (b : bool) then
        _ ← gettoken;
        r ← parsepipe n;
        mret (PIPE c r)
      else mret c
  end
with parseblock (fuel : nat) : K nat (cmd word) :=
  match fuel with
  | O => diverge
  | S n =>
      b ← peek (chars "(");
      if negb b then panic "parseblock"
      else
        _ ← gettoken;
        c ← parseline n;
        b ← peek (chars ")");
        if negb b then panic "syntax - missing )"
        else
          _ ← gettoken;
          rs ← parseredirs;
          mret (redirect c rs)
  end
with parseexec (fuel : nat) : K nat (cmd word) :=
  match fuel with
  | O => diverge
  | S n =>
      b ← peek (chars "(");
      if (b : bool) then parseblock n
      else
        rs ← parseredirs;
        x ← parseargs rs;
        mret (redirect (EXEC x.1) x.2)
  end.

(** [nulterminate] on the buffer that holds the line. *)
Fixpoint nulterminate (c : cmd word) (buf : list Z) : list Z :=
  match c with
  | EXEC argv => foldl (λ b w, <[w.2 := 0]> b) buf argv
  | REDIR c file _ _ => <[file.2 := 0]> (nulterminate c buf)
  | PIPE l r => nulterminate r (nulterminate l buf)
  | LIST l r => nulterminate r (nulterminate l buf)
  | BACK c => nulterminate c buf
  end.

Definition parse_fuel : nat := 4 * es + 4.

(** The command and the line cut into strings. *)
Definition parsecmd : K nat (cmd word * list Z) :=
  c ← parseline parse_fuel;
  _ ← peek [];
  s ← get;
  if negb (s =? es)%nat then panic "syntax"
  else mret (c, nulterminate c (line ++ [0])).
End parser.
