(* ===== verification/ShFacts.v ===== *)
(** * The shell's parser: it ends, and what it returns

    Every parsing function moves forward in the line, and the words it returns
    are words of the line.  [ends] is the program logic of code that returns or
    reports one of the errors [P]. *)
From S2P Require Import Prelude Str Sh.

(** ** Code that returns or panics *)

Definition ends {S A} (P : string → Prop) (m : K S A) (Q : A → S → Prop) (s : S) : Prop :=
  match m s with
  | Ok a s' => Q a s'
  | Panic msg => P msg
  | _ => False
  end.

Section ends.
Context {S : Type} (P : string → Prop).

Lemma ends_mono {A} (m : K S A) (Q Q' : A → S → Prop) s :
  (∀ a s', Q a s' → Q' a s') → ends P m Q s → ends P m Q' s.
Proof. unfold ends. destruct (m s); auto. Qed.

Lemma ends_bind {A B} (m : K S A) (f : A → K S B) Q s :
  ends P m (λ a s', ends P (f a) Q s') s → ends P (m ≫= f) Q s.
Proof. unfold ends, mbind, K_bind. destruct (m s); done. Qed.

Lemma ends_while {X} (I : nat → X → S → Prop) (step : X → K S (X + X)) Q fuel x s n :
  (n < fuel)%nat → I n x s →
  (∀ n x s, I n x s →
     ends P (step x)
       (λ r s', match r with
                | inl x' => ∃ n', (n' < n)%nat ∧ I n' x' s'
                | inr y => Q y s'
                end) s) →
  ends P (while fuel step x) Q s.
Proof.
  intros Hn HI Hstep. revert n x s Hn HI.
  induction fuel as [|fuel IH]; intros n x s Hn HI; [lia|]. cbn [while].
  apply ends_bind. eapply ends_mono; [|apply (Hstep n x s HI)].
  intros [x'|y] s' Hr; [|done]. destruct Hr as (n' & Hlt & HI'). apply (IH n'); [lia|done].
Qed.
End ends.

(** ** Words of the line *)

Fixpoint cmd_words {W} (c : cmd W) : list W :=
  match c with
  | EXEC argv => argv
  | REDIR c file _ _ => cmd_words c ++ [file]
  | PIPE l r | LIST l r => cmd_words l ++ cmd_words r
  | BACK c => cmd_words c
  end.

(** The shape of every parsed command: a NULL fits behind the arguments, and a
    redirection opens standard input for reading or standard output for
    writing. *)
Fixpoint shaped {W} (c : cmd W) : Prop :=
  match c with
  | EXEC argv => (length argv < MAXARGS)%nat
  | REDIR c _ mode fd =>
      shaped c ∧ ((mode = O_RDONLY ∧ fd = 0) ∨ (mode = Z.lor O_WRONLY O_CREATE ∧ fd = 1))
  | PIPE l r | LIST l r => shaped l ∧ shaped r
  | BACK c => shaped c
  end.

(** The errors the parser reports; the panic of [parseblock] is not among
    them. *)
Definition syntax_error (msg : string) : Prop :=
  msg ∈ ["missing file for redirection"; "syntax"; "too many args"; "syntax - missing )"]%string.

Lemma span_le p l : (span p l ≤ length l)%nat.
Proof. induction l as [|c l IH]; cbn; [lia|]. destruct (p c); lia. Qed.

Lemma span_all p l i : (i < span p l)%nat → ∃ c, l !! i = Some c ∧ p c = true.
Proof.
  revert i. induction l as [|c l IH]; intros i; cbn; [lia|].
  destruct (p c) eqn:E; [|lia]. destruct i as [|i]; [by exists c|]. cbn. intros H. apply IH. lia.
Qed.

Lemma span_stop p l c : l !! span p l = Some c → p c = false.
Proof. induction l as [|d l IH]; cbn; [done|]. destruct (p d) eqn:E; [done|]. cbn. by intros [= ->]. Qed.

Section facts.
Context {line : list Z}.
Notation es := (es line).
Notation word_at w := (w.1 < w.2 ≤ es ∧
  (∀ i, w.1 ≤ i < w.2 → ∃ c, line !! i = Some c ∧ word_char c = true) ∧
  (∀ c, line !! w.2 = Some c → word_char c = false))%nat.

Lemma skip_bounds p s : (s ≤ es → s ≤ skip line p s ≤ es)%nat.
Proof. intros. unfold skip, Sh.es in *. pose proof (span_le p (drop s line)) as H1. rewrite length_drop in H1. lia. Qed.

Lemma skip_stop p s c : line !! skip line p s = Some c → p c = false.
Proof. unfold skip. rewrite <- lookup_drop. apply span_stop. Qed.

Lemma skip_all p s i : (s ≤ i < skip line p s)%nat → ∃ c, line !! i = Some c ∧ p c = true.
Proof.
  unfold skip. intros Hi. destruct (span_all p (drop s line) (i - s)) as (c & Hc & ?); [lia|].
  rewrite lookup_drop in Hc. replace (s + (i - s))%nat with i in Hc by lia. eauto.
Qed.

Lemma deref_at_some s : deref_at line s ≠ 0 → line !! s = Some (deref_at line s) ∧ (s < es)%nat.
Proof.
  unfold deref_at. destruct (line !! s) as [c|] eqn:E; cbn; [|done]. intros _.
  split; [done|]. by eapply lookup_lt_Some.
Qed.

(** Where a token starts and ends. *)
Definition token_at (s : nat) (t : Z * nat * nat) (s' : nat) : Prop :=
  let '(tok, q, eq) := t in
  (s ≤ q ≤ eq ∧ eq ≤ s' ≤ es)%nat ∧ (tok ≠ 0 → (q < eq)%nat) ∧ (tok = 97 → word_at (q, eq)) ∧
  q = skip line (among whitespace) s ∧ (tok = 0 → deref_at line q = 0).

Lemma token_word q c :
  line !! q = Some c → word_char c = true → word_at (q, skip line word_char q).
Proof.
  intros Hc Hw. pose proof (lookup_lt_Some _ _ _ Hc). cbn. split_and!.
  - unfold skip. rewrite (drop_S _ _ _ Hc). cbn. rewrite Hw. lia.
  - apply skip_bounds. unfold Sh.es. lia.
  - apply skip_all.
  - apply skip_stop.
Qed.

Lemma symbol_cases c : c ∈ symbols → c = 62 ∨ c ∈ chars "|();&<".
Proof. unfold symbols. vm_compute chars. set_solver. Qed.

Lemma a_not_symbol : 97 ∉ chars "|();&<".
Proof. apply (bool_decide_eq_true_1 _). vm_compute. done. Qed.

Lemma gettoken_spec P s : (s ≤ es)%nat → ends P (gettoken line) (token_at s) s.
Proof.
  intros Hs. unfold ends, gettoken. set (q := skip line (among whitespace) s).
  destruct (skip_bounds (among whitespace) s Hs) as [Hq1 Hq2]. fold q in Hq1, Hq2.
  set (c := deref_at line q).
  assert (∀ t eq, (q ≤ eq ≤ es)%nat → (t ≠ 0 → (q < eq)%nat) → (t = 97 → word_at (q, eq)) →
    (t = 0 → deref_at line q = 0) → token_at s (t, q, eq) (skip line (among whitespace) eq)) as Htok.
  { intros t eq Heq Ht Hw Hz. destruct (skip_bounds (among whitespace) eq) as [? ?]; [lia|].
    unfold token_at. split_and!; try lia; done. }
  case (Z.eqb_spec c 0) as [H0|H0]; [rewrite H0; apply Htok; [lia|done|done|done]|].
  destruct (deref_at_some q H0) as [Hc Hlt]. fold c in Hc.
  case_bool_decide as Hsym.
  { apply Htok; [lia|lia| |done]. intros E. rewrite E in Hsym. by apply a_not_symbol in Hsym. }
  case (Z.eqb_spec c 62) as [H62|H62].
  { case (Z.eqb_spec (deref_at line (S q)) 62) as [H2|H2].
    - destruct (deref_at_some (S q)) as [_ ?]; [by rewrite H2|]. apply Htok; [lia|lia|done|done].
    - rewrite H62. apply Htok; [lia|lia|done|done]. }
  assert (word_char c = true) as Hw.
  { unfold word_char. apply andb_true_iff. split; apply negb_true_iff.
    - apply (skip_stop (among whitespace) s c Hc).
    - unfold among. apply andb_false_iff. right. apply bool_decide_eq_false. intros Hin.
      destruct (symbol_cases _ Hin); contradiction. }
  pose proof (token_word q c Hc Hw) as Hword. pose proof (proj1 Hword) as Hb. cbn [fst snd] in Hb.
  apply Htok; [lia|lia|done|done].
Qed.

Lemma peek_spec P toks s : (s ≤ es)%nat →
  ends P (peek line toks) (λ b s', (s ≤ s' ≤ es)%nat ∧
    s' = skip line (among whitespace) s'  ∧
    (b = true → deref_at line s' ≠ 0 ∧ among toks (deref_at line s') = true)) s.
Proof.
  intros Hs. unfold ends, peek. set (q := skip line (among whitespace) s). split; [by apply skip_bounds|]. split.
  - unfold skip at 1. pose proof (skip_stop (among whitespace) s) as Hst. fold q in Hst.
    destruct (drop q line) as [|c l] eqn:E; cbn; [lia|].
    assert (line !! q = Some c) as Hc by (rewrite <- (Nat.add_0_r q), <- lookup_drop, E; done).
    rewrite (Hst c Hc). lia.
  - rewrite andb_true_iff, negb_true_iff, Z.eqb_neq. done.
Qed.

(** ** The parsing functions *)

Definition parsed (s : nat) (c : cmd word) (s' : nat) : Prop :=
  (s ≤ s' ≤ es)%nat ∧ shaped c ∧ Forall (λ w, word_at w) (cmd_words c).

Definition redir_ok (r : redir word) : Prop :=
  word_at r.1.1 ∧
  ((r.1.2 = O_RDONLY ∧ r.2 = 0) ∨ (r.1.2 = Z.lor O_WRONLY O_CREATE ∧ r.2 = 1)).

Lemma redirect_ok s s' c rs : parsed s c s' → Forall redir_ok rs → parsed s (redirect c rs) s'.
Proof.
  intros Hc Hrs. revert c Hc. induction Hrs as [|r rs [Hw Hr] Hrs IH]; intros c (H1 & H2 & H3); [done|].
  apply IH. split; [done|]. split; [by split|]. cbn [cmd_words]. by apply Forall_app_2, Forall_singleton.
Qed.

Ltac error := unfold ends, syntax_error; cbn; set_solver.

Ltac parse_step :=
  match goal with
  | |- ends _ (peek _ _ ≫= _) _ _ => apply ends_bind; eapply ends_mono; [|apply peek_spec; lia]
  | |- ends _ (gettoken _ ≫= _) _ _ => apply ends_bind; eapply ends_mono; [|apply gettoken_spec; lia]
  end.

(** The token [peek] has seen is consumed. *)
Lemma gettoken_moves P s :
  (s ≤ es)%nat → s = skip line (among whitespace) s → deref_at line s ≠ 0 →
  ends P (gettoken line) (λ t s', s < s' ≤ es)%nat s.
Proof.
  intros Hs Hq Hd. eapply ends_mono; [|apply gettoken_spec, Hs].
  intros [[tok q] eq] s' (Hb & Ht & _ & Eq & Hz). rewrite <- Hq in Eq. subst q.
  assert (tok ≠ 0) as H0 by (intros H0; auto). specialize (Ht H0). lia.
Qed.

Tactic Notation "moves" ident(s) ident(H) :=
  apply ends_bind; eapply ends_mono; [|apply gettoken_moves; [lia|done|done]];
  intros ? s H; cbv beta in H.

Lemma parseredirs_spec s : (s ≤ es)%nat →
  ends syntax_error (parseredirs line) (λ rs s', (s ≤ s' ≤ es)%nat ∧ Forall redir_ok rs) s.
Proof.
  intros Hs. eapply (ends_while _ (λ n rs s1, (s ≤ s1 ≤ es ∧ es - s1 ≤ n)%nat ∧ Forall redir_ok rs)
    _ _ _ _ _ (es - s)); [lia|by split; [lia|]|].
  intros n rs s1 [[Hs1 Hn] Hrs]. unfold redir_step. parse_step. intros [] s2 (H2 & _ & Hd); [|by split; [lia|]].
  destruct (Hd eq_refl) as [Hne _]. destruct (deref_at_some s2 Hne) as [_ Hlt].
  parse_step. intros [[tok q0] eq0] s3 (H3 & _). cbn [fst snd].
  parse_step. intros [[a q] eq] s4 (H4 & Ha & Hw & _).
  case (Z.eqb_spec a 97) as [->|]; cbn [negb]; [|error].
  specialize (Hw eq_refl). specialize (Ha ltac:(done)).
  repeat case_match; (exists (es - s4)%nat; (split; [lia|]); (split; [lia|])); try done;
    (apply Forall_app_2; [done|]; apply Forall_singleton; (split; [done|]); solve [by left | by right]).
Qed.

Lemma parseargs_spec s rs0 : (s ≤ es)%nat → Forall redir_ok rs0 →
  ends syntax_error (parseargs line rs0) (λ x s', (s ≤ s' ≤ es)%nat ∧
    (length x.1 < MAXARGS)%nat ∧ Forall (λ w, word_at w) x.1 ∧ Forall redir_ok x.2) s.
Proof.
  intros Hs Hrs0. eapply (ends_while _ (λ n (x : list word * list (redir word)) s1,
    (s ≤ s1 ≤ es ∧ es - s1 ≤ n)%nat ∧
    (length x.1 < MAXARGS)%nat ∧ Forall (λ w, word_at w) x.1 ∧ Forall redir_ok x.2)
    _ _ _ _ _ (es - s)); [lia|split_and!; try done; cbn; unfold MAXARGS; lia|].
  intros n x s1 [[Hs1 Hn] Hx]. unfold args_step. parse_step. intros [] s2 (H2 & _); [by split; [lia|]|].
  parse_step. intros [[tok q] eq] s3 (H3 & Ht & Hw & _).
  case (Z.eqb_spec tok 0) as [->|H0]; [by split; [lia|]|]. specialize (Ht H0).
  case (Z.eqb_spec tok 97) as [->|]; cbn [negb]; [|error]. specialize (Hw eq_refl).
  case_bool_decide as Hlen; [error|].
  apply ends_bind. eapply ends_mono; [|apply parseredirs_spec; lia]. intros rs s4 [H4 Hrs].
  destruct Hx as (Hl & Hwx & Hrx). exists (es - s4)%nat. split; [lia|]. split; [lia|]. cbn [fst snd].
  split_and!; [lia|by apply Forall_app_2, Forall_singleton|by apply Forall_app_2].
Qed.

(** Every level moves forward; [need] is the fuel it takes at a position. *)
Definition need (k s : nat) : nat := 4 * (es - s) + k.
Definition level_ok (k : nat) (f : nat → K nat (cmd word)) (n : nat) : Prop :=
  ∀ s, (s ≤ es)%nat → (need k s ≤ n)%nat → ends syntax_error (f n) (parsed s) s.

Lemma background_spec s c s1 : (s1 ≤ es)%nat → parsed s c s1 →
  ends syntax_error (while (S es) (back_step line) c) (parsed s) s1.
Proof.
  intros Hs Hc. eapply (ends_while _ (λ n c s2, parsed s c s2 ∧ es - s2 ≤ n)%nat
    _ _ _ _ _ (es - s1)); [lia|by split; [|lia]|].
  intros n c1 s2 [(H2 & Hc1) Hn]. unfold back_step. parse_step. intros [] s3 (H3 & Hq & Hd); [|by split; [lia|]].
  destruct (Hd eq_refl) as [Hne _]. moves s4 H4.
  exists (es - s4)%nat. split; [lia|]. split; [by split; [lia|]|lia].
Qed.

Lemma both_parsed (f : cmd word → cmd word → cmd word) s s1 s2 s' l r :
  (s ≤ s1 ≤ s2)%nat → parsed s l s1 → parsed s2 r s' → f = PIPE ∨ f = LIST → parsed s (f l r) s'.
Proof.
  intros Hs (H1 & Hl & Hwl) (H2 & Hr & Hwr) [-> | ->]; (split; [lia|]); (split; [by split|]);
    by apply Forall_app_2.
Qed.

Lemma among_one a c : among [a] c = true → c = a.
Proof. unfold among. rewrite andb_true_iff, bool_decide_eq_true. intros [_ H]. by apply list_elem_of_singleton in H. Qed.

Lemma levels_ok n :
  level_ok 4 (parseline line) n ∧ level_ok 3 (parsepipe line) n ∧ level_ok 2 (parseexec line) n ∧
  (∀ s, (s < es)%nat → (need 1 s ≤ n)%nat → s = skip line (among whitespace) s →
    deref_at line s = 40 → ends syntax_error (parseblock line n) (parsed s) s).
Proof.
  induction n as [|n (IHl & IHp & IHe & IHb)]; [unfold level_ok, need; split_and!; intros; lia|].
  unfold level_ok, need in *. split_and!.
  - intros s Hs Hn. cbn [parseline]. apply ends_bind. eapply ends_mono; [|apply IHp; lia].
    intros c s1 Hc. apply ends_bind.
    eapply ends_mono; [|eapply background_spec, Hc; destruct Hc; lia]. intros c1 s2 [H2 Hc1].
    parse_step. intros [] s3 (H3 & Hq & Hd); [|by split; [lia|]].
    destruct (Hd eq_refl) as [Hne _]. moves s4 H4. apply ends_bind.
    eapply ends_mono; [|apply IHl; lia]. intros r s5 Hr. apply (both_parsed LIST _ s2 s4); [lia|by split|done|by right].
  - intros s Hs Hn. cbn [parsepipe]. apply ends_bind. eapply ends_mono; [|apply IHe; lia].
    intros c s1 [H1 Hc]. parse_step. intros [] s3 (H3 & Hq & Hd); [|by split; [lia|]].
    destruct (Hd eq_refl) as [Hne _]. moves s4 H4. apply ends_bind.
    eapply ends_mono; [|apply IHp; lia]. intros r s5 Hr. apply (both_parsed PIPE _ s1 s4); [lia|by split|done|by left].
  - intros s Hs Hn. cbn [parseexec]. parse_step. intros [] s1 (H1 & Hq & Hd).
    + destruct (Hd eq_refl) as [Hne Ht]. destruct (deref_at_some s1 Hne) as [_ Hlt].
      eapply ends_mono; [|apply IHb; [lia|lia|done|]].
      * intros c s2 (? & ?). by split; [lia|].
      * apply among_one in Ht. by rewrite Ht.
    + apply ends_bind. eapply ends_mono; [|apply parseredirs_spec; lia]. intros rs s2 [H2 Hrs].
      apply ends_bind. eapply ends_mono; [|apply parseargs_spec; [lia|done]].
      intros x s3 (H3 & Hl & Hw & Hr). by apply redirect_ok; [split; [lia|]|].
  - intros s Hs Hn Hq Hd. cbn [parseblock].
    assert (peek line (chars "(") s = Ok true s) as Hpk by (unfold peek; by rewrite <- Hq, Hd).
    apply ends_bind. unfold ends at 1. rewrite Hpk. cbn [negb].
    assert (deref_at line s ≠ 0) by (by rewrite Hd). moves s1 H1. apply ends_bind. eapply ends_mono; [|apply IHl; lia].
    intros c s2 [H2 Hc]. parse_step. intros [] s3 (H3 & Hq3 & Hd3); cbn [negb]; [|error].
    destruct (Hd3 eq_refl) as [Hne _]. moves s4 H4.
    apply ends_bind. eapply ends_mono; [|apply parseredirs_spec; lia]. intros rs s5 [H5 Hrs].
    by apply redirect_ok; [split; [lia|]|].
Qed.
End facts.

(** ** The strings of the line *)

(** The characters of a word, and the string a pointer into a buffer means. *)
Definition slice (line : list Z) (w : word) : list Z := take (w.2 - w.1) (drop w.1 line).
Definition str_at (buf : list Z) (q : nat) : list Z := str_of (drop q buf).

Lemma span_app p l r : Forall (λ c, p c = true) l → span p (l ++ r) = (length l + span p r)%nat.
Proof. induction 1 as [|c l Hc Hl IH]; cbn; [done|]. by rewrite Hc, IH. Qed.

Lemma str_at_app buf q l r :
  drop q buf = l ++ 0 :: r → Forall (λ c, c ≠ 0) l → str_at buf q = l.
Proof. intros E Hl. unfold str_at. rewrite E. by apply str_of_app_zero. Qed.

Definition cut (ws : list word) (buf : list Z) : list Z := foldl (λ b w, <[w.2 := 0]> b) buf ws.

Lemma nulterminate_cut c buf : nulterminate c buf = cut (cmd_words c) buf.
Proof.
  revert buf. unfold cut. induction c as [argv|c IH w m fd|l IHl r IHr|l IHl r IHr|c IH]; intros buf;
    cbn [nulterminate cmd_words]; rewrite ?foldl_app, ?IH, ?IHl, ?IHr; done.
Qed.

Lemma cut_length ws buf : length (cut ws buf) = length buf.
Proof. unfold cut. revert buf. induction ws as [|w ws IH]; intros buf; cbn; [done|]. by rewrite IH, length_insert. Qed.

Lemma cut_other ws buf i : (∀ w, w ∈ ws → w.2 ≠ i) → cut ws buf !! i = buf !! i.
Proof.
  unfold cut. revert buf. induction ws as [|w ws IH]; intros buf Hi; cbn; [done|].
  rewrite IH by set_solver. apply list_lookup_insert_ne. set_solver.
Qed.

Lemma cut_end ws buf i : i ∈ ws.*2 → (i < length buf)%nat → cut ws buf !! i = Some 0.
Proof.
  revert buf. induction ws as [|v ws IH]; intros buf Hi Hlt; [by apply elem_of_nil in Hi|].
  change (cut ws (<[v.2 := 0]> buf) !! i = Some 0).
  destruct (decide (i ∈ ws.*2)) as [|Hn]; [apply IH; [done|by rewrite length_insert]|].
  apply elem_of_cons in Hi as [-> |]; [|done].
  rewrite cut_other; [by apply list_lookup_insert_eq|]. intros u Hu E. apply Hn. rewrite <- E. by apply list_elem_of_fmap_2.
Qed.

(** Once the words are cut, the pointer to a word is the string of its
    characters: the NULs fall only on the ends of words. *)
Lemma cut_reads (line : list Z) ws w :
  0 ∉ line → Forall (λ w : word, w.1 < w.2 ≤ length line ∧
    (∀ i, w.1 ≤ i < w.2 → ∃ c, line !! i = Some c ∧ word_char c = true) ∧
    (∀ c, line !! w.2 = Some c → word_char c = false))%nat ws →
  w ∈ ws → str_at (cut ws (line ++ [0])) w.1 = slice line w.
Proof.
  intros H0 Hws Hw. pose proof (proj1 (Forall_forall _ _) Hws w Hw) as (Hb & Hin & _).
  set (buf := cut ws (line ++ [0])).
  assert (∀ i, (w.1 ≤ i < w.2)%nat → buf !! i = line !! i) as Hsame.
  { intros i Hi. destruct (Hin i Hi) as (c & Hc & Hcw). unfold buf. rewrite cut_other.
    - by apply lookup_app_l, (lookup_lt_Some _ _ c).
    - intros v Hv <-. pose proof (proj1 (Forall_forall _ _) Hws v Hv) as (_ & _ & Hend). by rewrite (Hend c Hc) in Hcw. }
  assert (buf !! w.2 = Some 0) as Hend by (apply cut_end; [by apply list_elem_of_fmap_2|rewrite length_app; cbn; lia]).
  assert (slice line w = take (w.2 - w.1) (drop w.1 buf)) as Htake.
  { unfold slice. apply list_eq. intros i. destruct (decide (i < w.2 - w.1)%nat) as [Hi|Hi].
    - rewrite !lookup_take, !lookup_drop by done. symmetry. rewrite !decide_True by done. apply Hsame. lia.
    - by rewrite !lookup_take_ge by lia. }
  rewrite Htake. eapply (str_at_app _ _ _ (drop (S (w.2 - w.1)) (drop w.1 buf))).
  - symmetry. apply take_drop_middle. rewrite lookup_drop. by replace (w.1 + (w.2 - w.1))%nat with w.2 by lia.
  - rewrite <- Htake. apply Forall_forall. intros c Hc ->. apply H0.
    apply list_elem_of_lookup in Hc as (i & Hi). apply lookup_take_Some in Hi as [Hi _].
    rewrite lookup_drop in Hi. by eapply list_elem_of_lookup_2.
Qed.
