(* ===== verification/ShShow.v ===== *)
(** * The shell's parser: commands written out

    [show] writes a command in the grammar of the shell; every level of the
    parser reads its text back. *)
From S2P Require Import Prelude Str Sh ShFacts.

(** ** Writing a command out *)

Definition paren (b : bool) (s : list Z) : list Z := if b then 40 :: s ++ [41] else s.

Definition words (ws : list (list Z)) : list Z :=
  match ws with [] => [] | w :: ws => w ++ mjoin (cons 32 <$> ws) end.

Definition arrow (fd : Z) : Z := if fd =? 0 then 60 else 62.

(** The command as the grammar of the shell writes it, in parentheses where it
    stands below an operator that binds tighter: level 0 is a line, 1 what may
    go to the background, 2 a pipe, 3 a single command. *)
Fixpoint show (k : nat) (c : cmd (list Z)) : list Z :=
  match c with
  | EXEC argv => words argv
  | REDIR c file _ fd => show 3 c ++ arrow fd :: file
  | PIPE l r => paren (2 <? k)%nat (show 3 l ++ 124 :: show 2 r)
  | BACK c => paren (1 <? k)%nat (show 1 c ++ [38])
  | LIST l r => paren (0 <? k)%nat (show 1 l ++ 59 :: show 0 r)
  end.

Fixpoint cmd_map {V W} (f : V → W) (c : cmd V) : cmd W :=
  match c with
  | EXEC argv => EXEC (f <$> argv)
  | REDIR c file mode fd => REDIR (cmd_map f c) (f file) mode fd
  | PIPE l r => PIPE (cmd_map f l) (cmd_map f r)
  | LIST l r => LIST (cmd_map f l) (cmd_map f r)
  | BACK c => BACK (cmd_map f c)
  end.

(** A word that can be written: not empty, of ordinary characters. *)
Definition plain (w : list Z) : Prop := w ≠ [] ∧ Forall (λ c, c ≠ 0 ∧ word_char c = true) w.

Definition plain_cmd (c : cmd (list Z)) : Prop := shaped c ∧ Forall plain (cmd_words c).
Definition plain_redir (r : redir (list Z)) : Prop :=
  plain r.1.1 ∧ ((r.1.2 = O_RDONLY ∧ r.2 = 0) ∨ (r.1.2 = Z.lor O_WRONLY O_CREATE ∧ r.2 = 1)).
Definition redirs (rs : list (redir (list Z))) : list Z := mjoin ((λ r, arrow r.2 :: r.1.1) <$> rs).

Definition redir_map {V W} (f : V → W) (r : redir V) : redir W := ((f r.1.1, r.1.2), r.2).

(** What stands behind a command: the end of the line or one of [toks]. *)
Definition follows (toks : list Z) (rest : list Z) : Prop :=
  match rest with [] => True | c :: _ => c ∈ toks end.
(** The text does not start with white space. *)
Definition tight (t : list Z) : Prop :=
  match t with [] => True | c :: _ => among whitespace c = false end.

Ltac mem := apply (bool_decide_eq_true_1 _); by vm_compute.
Ltac subset := intros ?; unfold symbols; set_unfold; tauto.

Section roundtrip.
Context {line : list Z}.

Lemma span_tight t : tight t → span (among whitespace) t = 0%nat.
Proof. destruct t as [|c t]; cbn; [done|]. by intros ->. Qed.

Lemma skip_tight s t : drop s line = t → tight t → skip line (among whitespace) s = s.
Proof. intros E Ht. unfold skip. by rewrite E, span_tight, Nat.add_0_r. Qed.

Lemma deref_drop s t : drop s line = t → deref_at line s = default 0 (t !! 0%nat).
Proof. intros <-. unfold deref_at. by rewrite lookup_drop, Nat.add_0_r. Qed.

Lemma drop_more s a t : drop s line = a ++ t → drop (s + length a) line = t.
Proof. intros E. by rewrite <- drop_drop, E, drop_app_length. Qed.

Lemma slice_here s w t : drop s line = w ++ t → slice line (s, (s + length w)%nat) = w.
Proof. intros E. unfold slice. cbn. rewrite E. replace (s + length w - s)%nat with (length w) by lia. by apply take_app_length. Qed.

Lemma peek_here s t toks : drop s line = t → tight t →
  peek line toks s = Ok (match t with [] => false | c :: _ => among toks c end) s.
Proof.
  intros E Ht. unfold peek. rewrite (skip_tight s t E Ht), (deref_drop s t E). f_equal.
  destruct t as [|c t]; cbn; [done|]. unfold among. by destruct (c =? 0).
Qed.

Lemma token_end s : drop s line = [] → gettoken line s = Ok (0, s, s) s.
Proof. intros E. unfold gettoken. rewrite (skip_tight s [] E I), (deref_drop s [] E). cbn. by rewrite (skip_tight s [] E I). Qed.

Lemma token_symbol s c t :
  drop s line = c :: t → c ∈ chars "|();&<" → tight t → gettoken line s = Ok (c, s, S s) (S s).
Proof.
  intros E Hc Ht. assert (tight (c :: t) ∧ c ≠ 0) as [Hct H0].
  { unfold tight. clear - Hc. set_unfold in Hc. cbn. repeat destruct Hc as [-> |Hc]; try done. }
  unfold gettoken. rewrite (skip_tight s _ E Hct), (deref_drop s _ E). change (default 0 ((c :: t) !! 0%nat)) with c.
  rewrite (proj2 (Z.eqb_neq _ _) H0), bool_decide_eq_true_2 by done.
  rewrite (skip_tight (S s) t); [done| |done]. rewrite <- (Nat.add_1_r s). by apply (drop_more s [c] t).
Qed.

Lemma plain_head w t : plain w → ∃ c w', w = c :: w' ∧ c ≠ 0 ∧ word_char c = true ∧ tight (w ++ t).
Proof.
  intros [Hne Hw]. destruct w as [|c w]; [done|]. apply Forall_cons_1 in Hw as [[H0 Hc] _].
  exists c, w. split_and!; try done. cbn. unfold word_char in Hc. by apply andb_true_iff in Hc as [Hc%negb_true_iff _].
Qed.

Lemma word_not c toks : word_char c = true → toks ⊆ symbols → among toks c = false.
Proof.
  intros Hc Hsub. unfold word_char in Hc. apply andb_true_iff in Hc as [_ Hc%negb_true_iff].
  unfold among in *. apply andb_false_iff in Hc as [Hc|Hc]; [by rewrite Hc|].
  apply andb_false_iff. right. apply bool_decide_eq_false in Hc. apply bool_decide_eq_false. set_solver.
Qed.

Lemma word_end t : follows symbols t → span word_char t = 0%nat.
Proof.
  destruct t as [|c t]; [done|]. cbn. intros Hc. replace (word_char c) with false; [done|].
  clear - Hc. set_unfold in Hc. repeat destruct Hc as [-> |Hc]; done.
Qed.

(** A word, with the blank behind it if there is one. *)
Lemma token_word_here s w b t :
  drop s line = w ++ b ++ t → plain w → tight t → b = [] ∧ follows symbols t ∨ b = [32] →
  gettoken line s = Ok (97, s, (s + length w)%nat) (s + length w + length b)%nat.
Proof.
  intros E Hw Ht Hb. destruct (plain_head w (b ++ t) Hw) as (c & w' & -> & H0 & Hc & Htw).
  assert (skip line word_char s = s + length (c :: w'))%nat as Hskip.
  { unfold skip. rewrite E, span_app.
    - destruct Hb as [[-> Hf]| ->]; [cbn [app]; by rewrite word_end, Nat.add_0_r|by rewrite (eq_refl : span word_char ([32] ++ t) = 0%nat), Nat.add_0_r].
    - eapply Forall_impl; [apply Hw|]. by intros x [_ ?]. }
  unfold gettoken. rewrite (skip_tight s _ E Htw), (deref_drop s _ E).
  change (default 0 (((c :: w') ++ b ++ t) !! 0%nat)) with c.
  rewrite (proj2 (Z.eqb_neq _ _) H0), bool_decide_eq_false_2.
  2:{ intros Hin. assert (among symbols c = true) as Hs.
      { unfold among. rewrite (proj2 (Z.eqb_neq _ _) H0). apply bool_decide_eq_true. clear - Hin.
        unfold symbols. set_unfold in Hin. set_unfold. tauto. }
      by rewrite (word_not c symbols Hc) in Hs. }
  assert (c ≠ 62) as H62 by (intros ->; done). rewrite (proj2 (Z.eqb_neq _ _) H62), Hskip. f_equal.
  apply drop_more in E. unfold skip. rewrite E. f_equal.
  destruct Hb as [[-> Hf]| ->]; cbn [app length].
  - by apply span_tight.
  - rewrite (eq_refl : span (among whitespace) (32 :: t) = S (span (among whitespace) t)). by rewrite span_tight.
Qed.

Lemma token_arrow s fd w t :
  drop s line = arrow fd :: w ++ t → plain w → gettoken line s = Ok (arrow fd, s, S s) (S s).
Proof.
  intros E Hw. destruct (plain_head w t Hw) as (c & w' & -> & H0 & Hc & Ht).
  unfold arrow in *. destruct (fd =? 0).
  { apply (token_symbol s _ _ E); [mem|done]. }
  unfold gettoken. rewrite (skip_tight s _ E); [|done]. rewrite (deref_drop s _ E).
  assert (drop (S s) line = (c :: w') ++ t) as E1.
  { rewrite <- (Nat.add_1_r s). by apply (drop_more s [62]). }
  rewrite (deref_drop (S s) _ E1). assert (c ≠ 62) as H62 by (intros ->; done).
  change (default 0 ((62 :: (c :: w') ++ t) !! 0%nat)) with 62.
  change (default 0 (((c :: w') ++ t) !! 0%nat)) with c.
  rewrite bool_decide_eq_false_2 by (apply (bool_decide_eq_true_1 _); by vm_compute). cbn [Z.eqb Pos.eqb].
  rewrite (proj2 (Z.eqb_neq _ _) H62). by rewrite (skip_tight _ _ E1 Ht).
Qed.

(** ** Redirections and arguments *)

Lemma follows_tight toks t : toks ⊆ symbols → follows toks t → tight t.
Proof.
  destruct t as [|c t]; [done|]. cbn. intros Hs Hc. apply Hs in Hc. clear - Hc.
  set_unfold in Hc. repeat destruct Hc as [-> |Hc]; done.
Qed.

Lemma redirs_cons r rs : redirs (r :: rs) = (arrow r.2 :: r.1.1) ++ redirs rs.
Proof. done. Qed.

Lemma redirs_follow rs t : follows symbols t → follows symbols (redirs rs ++ t).
Proof.
  destruct rs as [|r rs]; [done|]. intros _. cbn. unfold arrow. apply (bool_decide_eq_true_1 _).
  destruct (r.2 =? 0); by vm_compute.
Qed.

(** The text behind redirections: no further one, and no word glued to the last
    file name. *)
Definition after_redirs (rs : list (redir (list Z))) (t : list Z) : Prop :=
  tight t ∧ (match t with [] => True | c :: _ => among (chars "<>") c = false end) ∧
  (rs ≠ [] → follows symbols t).

Lemma redir_step_none s t acc :
  drop s line = t → after_redirs [] t → redir_step line acc s = Ok (inr acc) s.
Proof.
  intros E (Ht & Hn & _). unfold redir_step. rewrite (bind_ok _ _ _ _ _ (peek_here s t _ E Ht)).
  destruct t as [|c t]; [done|]. by rewrite Hn.
Qed.

Lemma redir_step_one s r t acc :
  drop s line = (arrow r.2 :: r.1.1) ++ t → plain_redir r → follows symbols t →
  ∃ r', redir_step line acc s = Ok (inl (acc ++ [r'])) (s + length (arrow r.2 :: r.1.1))%nat ∧
    redir_map (slice line) r' = r.
Proof.
  intros E [Hw Hr] Hf. destruct r as [[w mode] fd]. cbn [fst snd] in *.
  assert (tight t) as Ht by (by eapply (follows_tight symbols)).
  assert (drop (S s) line = w ++ [] ++ t) as E1 by (rewrite <- (Nat.add_1_r s); by apply (drop_more s [arrow fd])).
  exists ((S s, (S s + length w)%nat), mode, fd). split; [|unfold redir_map; cbn [fst snd]; by rewrite (slice_here _ _ _ E1)].
  unfold redir_step. rewrite (bind_ok _ _ _ true s).
  2:{ rewrite (peek_here s _ _ E); unfold arrow; by destruct (fd =? 0). }
  rewrite (bind_ok _ _ _ _ _ (token_arrow s fd w t E Hw)).
  rewrite (bind_ok _ _ _ _ _ (token_word_here (S s) w [] t E1 Hw Ht (or_introl (conj eq_refl Hf)))).
  cbn [fst snd length Nat.add]. rewrite Nat.add_0_r, <- plus_n_Sm. by destruct Hr as [[-> ->]|[-> ->]].
Qed.

Lemma redir_while rs : ∀ fuel acc s t,
  drop s line = redirs rs ++ t → Forall plain_redir rs → after_redirs rs t → (length rs < fuel)%nat →
  ∃ rs', while fuel (redir_step line) acc s = Ok (acc ++ rs') (s + length (redirs rs))%nat ∧
    redir_map (slice line) <$> rs' = rs.
Proof.
  induction rs as [|r rs IH]; intros [|fuel] acc s t E Hrs Ht Hf; cbn [length] in Hf; try lia.
  - exists []. rewrite (while_ok _ _ _ _ (inr acc) s) by (by apply (redir_step_none s t)).
    by rewrite app_nil_r, Nat.add_0_r.
  - apply Forall_cons_1 in Hrs as [Hr Hrs]. destruct Ht as (Ht & Hn & Hs). specialize (Hs ltac:(done)).
    assert (drop s line = (arrow r.2 :: r.1.1) ++ redirs rs ++ t) as E1.
    { by rewrite E, redirs_cons, <- app_assoc. }
    destruct (redir_step_one s r _ acc E1 Hr (redirs_follow _ _ Hs)) as (r' & H1 & Hr').
    rewrite (while_ok _ _ _ _ _ _ H1).
    destruct (IH fuel (acc ++ [r']) _ t (drop_more _ _ _ E1) Hrs) as (rs' & -> & Hrs'); [done|lia|].
    exists (r' :: rs'). rewrite <- app_assoc. split; [|cbn; by rewrite Hr', Hrs'].
    by rewrite redirs_cons, length_app, Nat.add_assoc.
Qed.

Lemma redirs_length rs : (length rs ≤ length (redirs rs))%nat.
Proof. induction rs as [|r rs IH]; [cbn; lia|]. rewrite redirs_cons, length_app. cbn [length]. lia. Qed.

Lemma drop_length s t : drop s line = t → t ≠ [] → (s + length t = es line)%nat.
Proof.
  intros <- Hne. rewrite length_drop. unfold es. destruct (decide (s < length line)%nat); [lia|].
  by rewrite drop_ge in Hne by lia.
Qed.

Lemma parseredirs_here rs s t :
  drop s line = redirs rs ++ t → Forall plain_redir rs → after_redirs rs t →
  ∃ rs', parseredirs line s = Ok rs' (s + length (redirs rs))%nat ∧ redir_map (slice line) <$> rs' = rs.
Proof.
  intros E Hrs Ht. apply (redir_while rs (S (es line)) [] s t); try done.
  pose proof (redirs_length rs). pose proof (f_equal length E) as Hl. rewrite length_drop, length_app in Hl. unfold es. lia.
Qed.

(** The tokens that end the arguments of a command. *)
Definition stops : list Z := chars "|)&;".
Lemma stops_symbols : stops ⊆ symbols.
Proof. intros c Hc. unfold stops, symbols in *. set_unfold in Hc. set_unfold. tauto. Qed.

Lemma follows_sub X Y t : X ⊆ Y → follows X t → follows Y t.
Proof. intros Hs. destruct t as [|c t]; [done|]. cbn. apply Hs. Qed.

Lemma stops_after rs t : follows stops t → after_redirs rs t.
Proof.
  intros Hf. pose proof (follows_sub _ _ _ stops_symbols Hf) as Hs. split; [by eapply (follows_tight symbols)|].
  split; [|done]. destruct t as [|c t]; [done|]. cbn in Hf. clear - Hf.
  unfold stops in Hf. set_unfold in Hf. repeat destruct Hf as [-> |Hf]; done.
Qed.

Definition gap (ws : list (list Z)) : list Z := match ws with [] => [] | _ => [32] end.
Lemma words_cons w ws : words (w :: ws) = w ++ gap ws ++ words ws.
Proof. by destruct ws as [|v ws]. Qed.

Lemma words_after w ws t : plain w → after_redirs [] (words (w :: ws) ++ t).
Proof.
  intros Hw. destruct (plain_head w (mjoin (cons 32 <$> ws) ++ t) Hw) as (c & w' & -> & H0 & Hc & Ht).
  split; [by rewrite app_assoc in Ht|]. split; [|done]. cbn.
  apply word_not; [done|]. intros x Hx. unfold symbols. set_unfold in Hx. set_unfold. tauto.
Qed.

Lemma args_end argv rs s t :
  drop s line = t → follows stops t → args_step line (argv, rs) s = Ok (inr (argv, rs)) s.
Proof.
  intros E Hf. assert (tight t) as Ht by (apply (follows_tight stops); [apply stops_symbols|done]).
  unfold args_step. rewrite (bind_ok _ _ _ _ _ (peek_here s t _ E Ht)).
  destruct t as [|c t]; [by rewrite (bind_ok _ _ _ _ _ (token_end s E))|].
  replace (among (chars "|)&;") c) with true; [done|]. cbn in Hf. clear - Hf.
  unfold stops in Hf. set_unfold in Hf. repeat destruct Hf as [-> |Hf]; done.
Qed.

Lemma args_one argv rs0 w ws rs s t :
  drop s line = words (w :: ws) ++ redirs rs ++ t → Forall plain (w :: ws) → Forall plain_redir rs →
  follows stops t → (length argv + 1 < MAXARGS)%nat →
  ∃ v rs1 s1, args_step line (argv, rs0) s = Ok (inl (argv ++ [v], rs0 ++ rs1)) s1 ∧ slice line v = w ∧
    redir_map (slice line) <$> rs1 = (match ws with [] => rs | _ => [] end) ∧
    drop s1 line = words ws ++ redirs (match ws with [] => [] | _ => rs end) ++ t ∧
    (s1 + length (words ws ++ redirs (match ws with [] => [] | _ => rs end)) =
     s + length (words (w :: ws) ++ redirs rs))%nat.
Proof.
  intros E Hws Hrs Hf Hlen. apply Forall_cons_1 in Hws as [Hw Hws].
  destruct (words_after w ws (redirs rs ++ t) Hw) as (Hti & _).
  assert (drop s line = w ++ gap ws ++ words ws ++ redirs rs ++ t) as E1.
  { by rewrite E, words_cons, <- !app_assoc. }
  pose proof (redirs_follow rs t (follows_sub _ _ _ stops_symbols Hf)) as Hfr.
  assert (tight (words ws ++ redirs rs ++ t) ∧ (gap ws = [] ∧ follows symbols (words ws ++ redirs rs ++ t) ∨ gap ws = [32]))
    as [Ht Hg].
  { destruct ws as [|v ws]; [split; [by apply (follows_tight symbols)|by left]|].
    split; [|by right]. apply Forall_cons_1 in Hws as [Hv _]. apply (words_after v ws _ Hv). }
  pose proof (token_word_here s w (gap ws) _ E1 Hw Ht Hg) as Htok.
  pose proof (drop_more _ _ _ (drop_more _ _ _ E1)) as E2.
  set (s2 := (s + length w + length (gap ws))%nat) in *.
  assert (∃ rs1, parseredirs line s2 = Ok rs1 (s2 + length (redirs (match ws with [] => rs | _ => [] end)))%nat ∧
    redir_map (slice line) <$> rs1 = (match ws with [] => rs | _ => [] end)) as (rs1 & Hp & Hr1).
  { destruct ws as [|v ws]; [apply (parseredirs_here rs s2 t); [done|done|by apply stops_after]|].
    apply Forall_cons_1 in Hws as [Hv _]. eapply (parseredirs_here []); [exact E2|done|by apply words_after]. }
  exists (s, (s + length w)%nat), rs1, (s2 + length (redirs (match ws with [] => rs | _ => [] end)))%nat.
  split; [|split; [by apply (slice_here _ _ (gap ws ++ words ws ++ redirs rs ++ t))|split; [done|]]].
  - unfold args_step. rewrite (bind_ok _ _ _ _ _ (peek_here s _ _ E Hti)).
    destruct (plain_head w [] Hw) as (c & w' & Ew & _ & Hc & _).
    replace (match words (w :: ws) ++ redirs rs ++ t with [] => false | c :: _ => among (chars "|)&;") c end) with false.
    2:{ rewrite Ew. cbn. symmetry. apply word_not; [done|apply stops_symbols]. }
    rewrite (bind_ok _ _ _ _ _ Htok). cbn [Z.eqb Pos.eqb negb fst snd].
    rewrite bool_decide_eq_false_2 by (rewrite length_app; cbn; lia). by rewrite (bind_ok _ _ _ _ _ Hp).
  - rewrite words_cons. destruct ws as [|v ws]; cbn [gap words app length] in *.
    + split; [by apply drop_more|]. unfold s2. rewrite !length_app. cbn. lia.
    + cbn [redirs mjoin fmap list_fmap length] in *. rewrite Nat.add_0_r. split; [done|]. unfold s2. rewrite !length_app. cbn. rewrite !length_app. lia.
Qed.

Lemma args_while ws : ∀ fuel argv rs0 rs s t,
  drop s line = words ws ++ redirs rs ++ t → Forall plain ws → Forall plain_redir rs →
  (ws = [] → rs = []) → follows stops t → (length argv + length ws < MAXARGS)%nat → (length ws < fuel)%nat →
  ∃ argv' rs', while fuel (args_step line) (argv, rs0) s =
      Ok (argv ++ argv', rs0 ++ rs') (s + length (words ws ++ redirs rs))%nat ∧
    slice line <$> argv' = ws ∧ redir_map (slice line) <$> rs' = rs.
Proof.
  induction ws as [|w ws IH]; intros [|fuel] argv rs0 rs s t E Hws Hrs Hnil Hf Hlen Hfuel; cbn [length] in *; try lia.
  - rewrite (Hnil eq_refl) in *. exists [], [].
    rewrite (while_ok _ _ _ _ _ _ (args_end argv rs0 s t E Hf)). by rewrite !app_nil_r, Nat.add_0_r.
  - destruct (args_one argv rs0 w ws rs s t E Hws Hrs Hf) as (v & rs1 & s1 & H1 & Hv & Hr1 & E1 & Hs1); [lia|].
    rewrite (while_ok _ _ _ _ _ _ H1). apply Forall_cons_1 in Hws as [_ Hws].
    destruct (IH fuel (argv ++ [v]) (rs0 ++ rs1) (match ws with [] => [] | _ => rs end) s1 t)
      as (argv' & rs' & -> & Ha & Hr); try done; [by destruct ws|by destruct ws|rewrite length_app; cbn; lia|lia|].
    exists (v :: argv'), (rs1 ++ rs'). rewrite <- !app_assoc, Hs1. split; [done|].
    split; [cbn; by rewrite Hv, Ha|]. rewrite fmap_app, Hr1, Hr. destruct ws; [by rewrite app_nil_r|done].
Qed.

Lemma words_length ws : Forall plain ws → (length ws ≤ length (words ws))%nat.
Proof.
  induction 1 as [|w ws Hw Hws IH]; [cbn; lia|]. rewrite words_cons, !length_app. cbn [length].
  destruct Hw as [Hw _]. destruct w; [done|]. cbn [length]. lia.
Qed.

(** ** The levels of the grammar *)

Lemma cmd_map_redirect {V W} (f : V → W) c rs :
  cmd_map f (redirect c rs) = redirect (cmd_map f c) (redir_map f <$> rs).
Proof. unfold redirect. revert c. induction rs as [|r rs IH]; intros c; cbn; [done|]. by rewrite IH. Qed.

Definition back_toks : list Z := chars ")&;".
Definition line_toks : list Z := chars ")".

Definition reads_back (f : nat → K nat (cmd word)) (k : nat) (toks : list Z) (lvl : nat) (c : cmd (list Z)) : Prop :=
  ∀ n s t, drop s line = show lvl c ++ t → follows toks t → (@need line k s ≤ n)%nat → (s ≤ es line)%nat →
  ∃ c', f n s = Ok c' (s + length (show lvl c))%nat ∧ cmd_map (slice line) c' = c.

Definition exec_ok (c : cmd (list Z)) : Prop :=
  ∀ rs, Forall plain_redir rs → reads_back (parseexec line) 2 stops 3 (redirect c rs).
Definition pipe_ok (c : cmd (list Z)) : Prop := reads_back (parsepipe line) 3 back_toks 2 c.
(** A pipe followed by the [&]s that put it into the background. *)
Definition back_ok (c : cmd (list Z)) : Prop :=
  ∀ n s t, drop s line = show 1 c ++ t → follows back_toks t → (@need line 3 s ≤ n)%nat → (s ≤ es line)%nat →
  ∃ c0 s0 k c', parsepipe line n s = Ok c0 s0 ∧ (k ≤ length (show 1 c))%nat ∧
    (∀ fuel, while (k + fuel) (back_step line) c0 s0 = while fuel (back_step line) c' (s + length (show 1 c))%nat) ∧
    cmd_map (slice line) c' = c.
Definition line_ok (c : cmd (list Z)) : Prop := reads_back (parseline line) 4 line_toks 0 c.

Lemma show_redirect c rs : show 3 (redirect c rs) = show 3 c ++ redirs rs.
Proof.
  unfold redirect. revert c. induction rs as [|r rs IH]; intros c; cbn [foldl]; [by rewrite app_nil_r|].
  rewrite IH, redirs_cons. cbn [show]. by rewrite <- app_assoc.
Qed.

Lemma exec_head ws rs t s :
  drop s line = words ws ++ redirs rs ++ t → Forall plain ws → follows stops t →
  peek line (chars "(") s = Ok false s.
Proof.
  intros E Hws Hf. destruct ws as [|w ws].
  - cbn [words app] in E. assert (tight (redirs rs ++ t)) as Ht.
    { apply (follows_tight symbols); [done|]. apply redirs_follow, (follows_sub stops), Hf. apply stops_symbols. }
    rewrite (peek_here s _ _ E Ht). f_equal. destruct rs as [|r rs].
    + cbn [redirs app]. destruct t as [|c t]; [done|]. cbn in Hf. clear - Hf.
      unfold stops in Hf. set_unfold in Hf. repeat destruct Hf as [-> |Hf]; done.
    + cbn. unfold arrow. by destruct (r.2 =? 0).
  - apply Forall_cons_1 in Hws as [Hw _]. destruct (words_after w ws (redirs rs ++ t) Hw) as [Ht _].
    rewrite (peek_here s _ _ E Ht). destruct (plain_head w [] Hw) as (c & w' & -> & _ & Hc & _). cbn. f_equal.
    apply word_not; [done|]. intros x Hx. unfold symbols. set_unfold in Hx. set_unfold. tauto.
Qed.

Lemma exec_exec ws : Forall plain ws → (length ws < MAXARGS)%nat → exec_ok (EXEC ws).
Proof.
  intros Hws Hlen rs Hrs n s t E Hf Hn Hs. rewrite show_redirect in *. cbn [show] in *. rewrite <- app_assoc in E.
  destruct n as [|n]; [unfold need in Hn; lia|]. cbn [parseexec].
  rewrite (bind_ok _ _ _ _ _ (exec_head ws rs t s E Hws Hf)).
  set (rs1 := match ws with [] => rs | _ => [] end). set (rs2 := match ws with [] => [] | _ => rs end).
  assert (drop s line = redirs rs1 ++ words ws ++ redirs rs2 ++ t ∧ after_redirs rs1 (words ws ++ redirs rs2 ++ t) ∧
    rs1 ++ rs2 = rs ∧ redirs rs1 ++ words ws ++ redirs rs2 = words ws ++ redirs rs) as (E1 & Ha & Hr12 & Hl).
  { unfold rs1, rs2. destruct ws as [|w ws].
    - split; [done|]. split; [by apply stops_after|]. by rewrite !app_nil_r.
    - apply Forall_cons_1 in Hws as [Hw _]. split; [done|]. by split; [apply words_after|]. }
  rewrite <- Hr12 in Hrs. apply Forall_app in Hrs as [Hrs1 Hrs2].
  destruct (parseredirs_here rs1 s _ E1 Hrs1 Ha) as (x & Hx & Rx). rewrite (bind_ok _ _ _ _ _ Hx).
  pose proof (words_length ws Hws) as Hwl. pose proof (f_equal length E) as El. rewrite length_drop, length_app in El.
  destruct (args_while ws (S (es line)) [] x rs2 _ t (drop_more _ _ _ E1) Hws Hrs2) as (argv & y & Hy & Ry & Rr).
  - unfold rs2. by intros ->.
  - done.
  - done.
  - unfold es. lia.
  - unfold parseargs. rewrite (bind_ok _ _ _ _ _ Hy). cbn [fst snd app].
    exists (redirect (EXEC argv) (x ++ y)). split.
    + unfold mret, K_ret. f_equal. rewrite <- Nat.add_assoc, <- length_app. by rewrite Hl.
    + rewrite cmd_map_redirect, fmap_app, Rx, Rr, Hr12. cbn [cmd_map]. by rewrite Ry.
Qed.

(** From one level to the next one up, where the text is the same. *)
Lemma pipe_exec c : exec_ok c → show 2 c = show 3 c → pipe_ok c.
Proof.
  intros Hc Es n s t E Hf Hn Hs. rewrite Es in *. destruct n as [|n]; [unfold need in Hn; lia|].
  assert (follows stops t) as Hft.
  { eapply follows_sub, Hf. intros x Hx. unfold back_toks, stops in *. set_unfold in Hx. set_unfold. tauto. }
  destruct (Hc [] (Forall_nil_2 _) n s t E Hft) as (c' & H1 & H2); [unfold need in *; lia|done|].
  exists c'. split; [|done]. cbn [parsepipe]. rewrite (bind_ok _ _ _ _ _ H1).
  pose proof (drop_more _ _ _ E) as E1.
  rewrite (bind_ok _ _ _ _ _ (peek_here _ t _ E1 (follows_tight _ _ stops_symbols Hft))).
  destruct t as [|x t]; [done|]. replace (among (chars "|") x) with false; [done|]. cbn in Hf. clear - Hf.
  unfold back_toks in Hf. set_unfold in Hf. repeat destruct Hf as [-> |Hf]; done.
Qed.

Lemma back_pipe c : pipe_ok c → show 1 c = show 2 c → back_ok c.
Proof.
  intros Hc Es n s t E Hf Hn Hs. rewrite Es in *. destruct (Hc n s t E Hf Hn Hs) as (c' & H1 & H2).
  exists c', (s + length (show 2 c))%nat, 0%nat, c'. split_and!; [done|lia|done|done].
Qed.

Lemma peek_follow s t toks X b :
  drop s line = t → follows X t → X ⊆ symbols → Forall (λ x, among toks x = b) X →
  peek line toks s = Ok (match t with [] => false | _ => b end) s.
Proof.
  intros E Hf Hs Hb. rewrite (peek_here s t _ E) by (by apply (follows_tight X)). f_equal.
  destruct t as [|x t]; [done|]. by apply (proj1 (Forall_forall _ _) Hb).
Qed.

Lemma peek_yes s c t toks :
  drop s line = c :: t → among whitespace c = false → among toks c = true → peek line toks s = Ok true s.
Proof. intros E Ht Hc. by rewrite (peek_here s _ _ E Ht), Hc. Qed.

Lemma follows_cons X c t : c ∈ X → follows X (c :: t).
Proof. done. Qed.

Lemma show_tight k c t : Forall plain (cmd_words c) → tight t → tight (show k c ++ t).
Proof.
  revert k t. induction c as [ws|c IH w m fd|l IHl r IHr|l IHl r IHr|c IH]; intros k t Hw Ht; cbn [show cmd_words] in *.
  - destruct ws as [|w ws]; [done|]. apply Forall_cons_1 in Hw as [Hw _]. apply (words_after w ws t Hw).
  - apply Forall_app in Hw as [Hw _]. rewrite <- app_assoc. apply IH; [done|]. cbn. unfold arrow. by destruct (fd =? 0).
  - apply Forall_app in Hw as [Hw _]. destruct (2 <? k)%nat; [done|]. cbn [paren]. rewrite <- app_assoc. by apply IHl.
  - apply Forall_app in Hw as [Hw _]. destruct (0 <? k)%nat; [done|]. cbn [paren]. rewrite <- app_assoc. by apply IHl.
  - destruct (1 <? k)%nat; [done|]. cbn [paren]. rewrite <- app_assoc. by apply IH.
Qed.

(** A pipe and its [&]s, at the end of a line or before a semicolon. *)
Lemma run_back c n s t :
  back_ok c → drop s line = show 1 c ++ t → follows (chars ");") t → (@need line 3 s ≤ n)%nat → (s ≤ es line)%nat →
  ∃ c0 s0 c', parsepipe line n s = Ok c0 s0 ∧
    while (S (es line)) (back_step line) c0 s0 = Ok c' (s + length (show 1 c))%nat ∧ cmd_map (slice line) c' = c.
Proof.
  intros Hc E Hf Hn Hs. destruct (Hc n s t E) as (c0 & s0 & k & c' & H1 & Hk & H2 & H3); try done.
  { eapply follows_sub, Hf. subset. }
  exists c0, s0, c'. split; [done|]. split; [|done]. pose proof (f_equal length E) as El. rewrite length_drop, length_app in El.
  replace (S (es line)) with (k + S (es line - k))%nat by (unfold es; lia). rewrite H2.
  apply (while_ok _ _ _ _ (inr c') _). unfold back_step.
  rewrite (bind_ok _ _ _ _ _ (peek_follow _ t (chars "&") _ false (drop_more _ _ _ E) Hf ltac:(subset) ltac:(by repeat constructor))).
  by destruct t.
Qed.

Lemma line_back c : back_ok c → show 0 c = show 1 c → line_ok c.
Proof.
  intros Hc Es n s t E Hf Hn Hs. rewrite Es in *. destruct n as [|n]; [unfold need in Hn; lia|].
  destruct (run_back c n s t Hc E) as (c0 & s0 & c' & H1 & H2 & H3); [|unfold need in *; lia|done|].
  { eapply follows_sub, Hf. unfold line_toks. subset. }
  exists c'. split; [|done]. cbn [parseline]. rewrite (bind_ok _ _ _ _ _ H1), (bind_ok _ _ _ _ _ H2).
  rewrite (bind_ok _ _ _ _ _ (peek_follow _ t (chars ";") _ false (drop_more _ _ _ E) Hf ltac:(unfold line_toks; subset) ltac:(by repeat constructor))).
  by destruct t.
Qed.

(** ** Operators *)

Lemma pipe_pipe l r :
  Forall plain (cmd_words r) → exec_ok l → pipe_ok r → pipe_ok (PIPE l r).
Proof.
  intros Hw Hl Hr n s t E Hf Hn Hs. destruct n as [|n]; [unfold need in Hn; lia|]. cbn [show paren Nat.ltb Nat.leb] in *.
  rewrite <- app_assoc in E. assert (tight t) as Ht by (eapply follows_tight, Hf; unfold back_toks; subset).
  destruct (Hl [] (Forall_nil_2 _) n s _ E) as (l' & H1 & R1); [apply follows_cons; mem|unfold need in *; lia|done|].
  cbn [redirect foldl] in *. pose proof (drop_more _ _ _ E) as E1. set (s1 := (s + length (show 3 l))%nat) in *.
  pose proof (drop_more s1 [124] _ E1) as E2. pose proof (drop_length _ _ E1 ltac:(done)) as El. cbn [length app] in El.
  destruct (Hr n (S s1) t) as (r' & H2 & R2); [by rewrite Nat.add_1_r in E2|done|unfold need in *; lia|lia|].
  exists (PIPE l' r'). split; [|cbn; by rewrite R1, R2]. cbn [parsepipe].
  rewrite (bind_ok _ _ _ _ _ H1).
  rewrite (bind_ok _ _ _ true s1) by (by eapply peek_yes).
  rewrite (bind_ok _ _ _ _ _ (token_symbol s1 _ _ E1 ltac:(mem) (show_tight _ _ _ Hw Ht))).
  rewrite (bind_ok _ _ _ _ _ H2). unfold mret, K_ret. f_equal. unfold s1. rewrite length_app. cbn. lia.
Qed.

Lemma back_back c : back_ok c → back_ok (BACK c).
Proof.
  intros Hc n s t E Hf Hn Hs. cbn [show paren Nat.ltb Nat.leb] in *. rewrite <- app_assoc in E.
  assert (tight t) as Ht by (eapply follows_tight, Hf; unfold back_toks; subset).
  destruct (Hc n s _ E) as (c0 & s0 & k & c' & H1 & Hk & H2 & H3); [apply follows_cons; mem|done|done|].
  exists c0, s0, (k + 1)%nat, (BACK c'). split; [done|]. split; [rewrite length_app; cbn; lia|]. split; [|cbn; by rewrite H3].
  intros fuel. rewrite <- Nat.add_assoc, H2. pose proof (drop_more _ _ _ E) as E1.
  rewrite (while_ok _ _ _ _ (inl (BACK c')) (S (s + length (show 1 c)))).
  - rewrite length_app. cbn [length]. f_equal. lia.
  - unfold back_step. rewrite (bind_ok _ _ _ true (s + length (show 1 c))%nat) by (by eapply peek_yes).
    rewrite (bind_ok _ _ _ _ _ (token_symbol _ _ _ E1 ltac:(mem) Ht)). done.
Qed.

Lemma line_list l r :
  Forall plain (cmd_words r) → back_ok l → line_ok r → line_ok (LIST l r).
Proof.
  intros Hw Hl Hr n s t E Hf Hn Hs. destruct n as [|n]; [unfold need in Hn; lia|]. cbn [show paren Nat.ltb Nat.leb] in *.
  rewrite <- app_assoc in E. assert (tight t) as Ht by (eapply follows_tight, Hf; unfold line_toks; subset).
  destruct (run_back l n s _ Hl E) as (l0 & s0 & l' & H0 & H1 & R1); [apply follows_cons; mem|unfold need in *; lia|done|].
  pose proof (drop_more _ _ _ E) as E1. set (s1 := (s + length (show 1 l))%nat) in *.
  pose proof (drop_more s1 [59] _ E1) as E2. pose proof (drop_length _ _ E1 ltac:(done)) as El. cbn [length app] in El.
  destruct (Hr n (S s1) t) as (r' & H2 & R2); [by rewrite Nat.add_1_r in E2|done|unfold need in *; lia|lia|].
  exists (LIST l' r'). split; [|cbn; by rewrite R1, R2]. cbn [parseline].
  rewrite (bind_ok _ _ _ _ _ H0), (bind_ok _ _ _ _ _ H1).
  rewrite (bind_ok _ _ _ true s1) by (by eapply peek_yes).
  rewrite (bind_ok _ _ _ _ _ (token_symbol s1 _ _ E1 ltac:(mem) (show_tight _ _ _ Hw Ht))).
  rewrite (bind_ok _ _ _ _ _ H2). unfold mret, K_ret. f_equal. unfold s1. rewrite length_app. cbn. lia.
Qed.

Lemma exec_block c :
  Forall plain (cmd_words c) → line_ok c → show 3 c = 40 :: show 0 c ++ [41] → exec_ok c.
Proof.
  intros Hw Hc Es rs Hrs n s t E Hf Hn Hs. rewrite show_redirect, Es in *.
  assert (drop s line = 40 :: show 0 c ++ 41 :: redirs rs ++ t) as E0 by (rewrite E; cbn; by rewrite <- !app_assoc).
  destruct n as [|[|n]]; [unfold need in Hn; lia..|].
  pose proof (drop_length _ _ E0 ltac:(done)) as El. cbn [length] in El.
  pose proof (drop_more s [40] _ E0) as E1. rewrite Nat.add_1_r in E1.
  destruct (Hc n (S s) _ E1) as (c' & H1 & R1); [apply follows_cons; mem|unfold need in *; lia|lia|].
  pose proof (drop_more _ _ _ E1) as E2. set (s2 := (S s + length (show 0 c))%nat) in *.
  pose proof (drop_more s2 [41] _ E2) as E3. rewrite Nat.add_1_r in E3.
  destruct (parseredirs_here rs (S s2) t E3 Hrs (stops_after _ _ Hf)) as (rs' & H3 & R3).
  exists (redirect c' rs'). split; [|by rewrite cmd_map_redirect, R1, R3]. cbn [parseexec parseblock].
  rewrite (bind_ok _ _ _ true s) by (by eapply peek_yes).
  rewrite (bind_ok _ _ _ true s) by (by eapply peek_yes). cbn [negb].
  rewrite (bind_ok _ _ _ _ _ (token_symbol s _ _ E0 ltac:(mem) (show_tight 0 c (41 :: _) Hw ltac:(done)))).
  rewrite (bind_ok _ _ _ _ _ H1).
  rewrite (bind_ok _ _ _ true s2) by (by eapply peek_yes). cbn [negb].
  rewrite (bind_ok _ _ _ (41, s2, S s2) (S s2)).
  - rewrite (bind_ok _ _ _ _ _ H3). unfold mret, K_ret. f_equal. unfold s2. cbn. rewrite !length_app. cbn. lia.
  - apply (token_symbol s2 _ _ E2); [mem|]. apply (follows_tight symbols); [done|].
    apply redirs_follow, (follows_sub stops), Hf. apply stops_symbols.
Qed.

Lemma levels_here c : plain_cmd c → exec_ok c ∧ pipe_ok c ∧ back_ok c ∧ line_ok c.
Proof.
  induction c as [ws|c IH w m fd|l IHl r IHr|l IHl r IHr|c IH]; intros [Hsh Hw]; cbn [shaped cmd_words] in *.
  - assert (exec_ok (EXEC ws)) as H1 by (by apply exec_exec). pose proof (pipe_exec _ H1 eq_refl) as H2.
    pose proof (back_pipe _ H2 eq_refl) as H3. split_and!; [done..|by apply line_back].
  - apply Forall_app in Hw as [Hw [Hf _]%Forall_cons_1]. destruct Hsh as [Hsh Hm].
    assert (exec_ok (REDIR c w m fd)) as H1.
    { intros rs Hrs. destruct (IH (conj Hsh Hw)) as [IHe _]. by apply (IHe ((w, m, fd) :: rs)), Forall_cons_2. }
    pose proof (pipe_exec _ H1 eq_refl) as H2. pose proof (back_pipe _ H2 eq_refl) as H3. split_and!; [done..|by apply line_back].
  - pose proof Hw as Hw'. apply Forall_app in Hw' as [Hwl Hwr].
    destruct (IHl (conj (proj1 Hsh) Hwl)) as (Hl & _), (IHr (conj (proj2 Hsh) Hwr)) as (_ & Hr & _).
    pose proof (pipe_pipe l r Hwr Hl Hr) as H2. pose proof (back_pipe _ H2 eq_refl) as H3.
    pose proof (line_back _ H3 eq_refl) as H4. split_and!; [by apply exec_block|done..].
  - pose proof Hw as Hw'. apply Forall_app in Hw' as [Hwl Hwr].
    destruct (IHl (conj (proj1 Hsh) Hwl)) as (_ & _ & Hl & _), (IHr (conj (proj2 Hsh) Hwr)) as (_ & _ & _ & Hr).
    pose proof (line_list l r Hwr Hl Hr) as H4.
    assert (exec_ok (LIST l r)) as H1 by (by apply exec_block).
    pose proof (pipe_exec _ H1 eq_refl) as H2. split_and!; [done|done|by apply back_pipe|done].
  - destruct (IH (conj Hsh Hw)) as (_ & _ & Hc & _). pose proof (back_back c Hc) as H3.
    pose proof (line_back _ H3 eq_refl) as H4.
    assert (exec_ok (BACK c)) as H1 by (by apply exec_block).
    split_and!; [done|by apply pipe_exec|done|done].
Qed.
End roundtrip.

(** ** The words of the text *)

Lemma cmd_map_ext {V W} (f g : V → W) c : (∀ w, w ∈ cmd_words c → f w = g w) → cmd_map f c = cmd_map g c.
Proof.
  induction c as [ws|c IH w m fd|l IHl r IHr|l IHl r IHr|c IH]; intros H; cbn [cmd_words cmd_map] in *; f_equal;
    [by apply list_fmap_ext; intros i x Hx%list_elem_of_lookup_2; auto|..]; set_solver.
Qed.

(** The only characters of a text are those of its words, blanks and
    symbols. *)
Lemma show_without x k c :
  x = 0 ∨ word_char x = false → x ∉ 32 :: symbols → Forall plain (cmd_words c) → x ∉ show k c.
Proof.
  intros Hx Hs. assert (∀ w, plain w → x ∉ w) as Hp.
  { intros w [_ Hw] Hin. destruct (proj1 (Forall_forall _ _) Hw x Hin) as [? ?]. destruct Hx; congruence. }
  assert (x ≠ 32 ∧ x ≠ 60 ∧ x ≠ 62 ∧ x ≠ 124 ∧ x ≠ 38 ∧ x ≠ 59 ∧ x ≠ 40 ∧ x ≠ 41) as Hne.
  { clear - Hs. unfold symbols in Hs. set_unfold in Hs. tauto. }
  assert (∀ b s, x ∉ s → x ∉ paren b s) as Hb by (intros [] s Hn; cbn; set_solver).
  revert k. induction c as [ws|c IH w m fd|l IHl r IHr|l IHl r IHr|c IH]; intros k Hw; cbn [show cmd_words] in *.
  - induction Hw as [|w ws Hw Hws IH]; [cbn; set_solver|]. rewrite words_cons. specialize (Hp w Hw).
    assert (x ∉ gap ws) by (destruct ws; cbn; set_solver). set_solver.
  - apply Forall_app in Hw as [Hw [Hf _]%Forall_cons_1]. specialize (IH 3%nat Hw). specialize (Hp w Hf).
    assert (x ≠ arrow fd) by (unfold arrow; destruct (fd =? 0); tauto). set_solver.
  - apply Forall_app in Hw as [Hl Hr]. apply Hb. specialize (IHl 3%nat Hl). specialize (IHr 2%nat Hr). set_solver.
  - apply Forall_app in Hw as [Hl Hr]. apply Hb. specialize (IHl 1%nat Hl). specialize (IHr 0%nat Hr). set_solver.
  - apply Hb. specialize (IH 1%nat Hw). set_solver.
Qed.

Lemma show_nonzero k c : Forall plain (cmd_words c) → 0 ∉ show k c.
Proof. apply show_without; [by left|mem]. Qed.
