(* ===== verification/ShLine.v ===== *)
(** * The shell's parser: the newline at the end of a typed line

    The line the shell parses ends with the newline that [gets] stores.  The
    parser makes the same of a line with and without it: [follows_run] relates the
    two runs, whose positions differ only at the end. *)
From S2P Require Import Prelude Str Sh ShFacts ShShow.

(** A run of [m] that returns is matched by one of [m'] with the same result. *)
Definition matched {A} (R : nat → nat → Prop) (m m' : K nat A) : Prop :=
  ∀ p p' a q, R p p' → m p = Ok a q → ∃ q', m' p' = Ok a q' ∧ R q q'.

Section matched.
Context (R : nat → nat → Prop).

Lemma matched_ret {A} (a : A) : matched R (mret a) (mret a).
Proof. intros p p' b q HR [= <- <-]. eauto. Qed.

Lemma matched_panic {A} msg : matched R (A:=A) (panic msg) (panic msg).
Proof. intros p p' b q HR [=]. Qed.

Lemma matched_bind {A B} (m m' : K nat A) (f f' : A → K nat B) :
  matched R m m' → (∀ a, matched R (f a) (f' a)) → matched R (m ≫= f) (m' ≫= f').
Proof.
  intros Hm Hf p p' b q HR. unfold mbind, K_bind. destruct (m p) as [a q1| | | |] eqn:E; cbn; try done. intros Hb.
  destruct (Hm p p' a q1 HR E) as (q1' & -> & HR1). cbn. by apply (Hf a q1).
Qed.

Lemma matched_while {X} (step step' : X → K nat (X + X)) n n' x :
  (n ≤ n')%nat → (∀ x, matched R (step x) (step' x)) → matched R (while n step x) (while n' step' x).
Proof.
  intros Hn Hs. revert n' x Hn. induction n as [|n IH]; intros n' x Hn; [intros p p' a q _ [=]|].
  destruct n' as [|n']; [lia|]. cbn [while]. apply matched_bind; [done|].
  intros [y|y]; [apply IH; lia|apply matched_ret].
Qed.
End matched.

Section line.
Context {line : list Z}.
Notation es := (es line).
Notation line' := (line ++ [10]).

(** The same position, or both at the end. *)
Definition same_pos (p p' : nat) : Prop := (p = p' ∧ p ≤ es)%nat ∨ (p = es ∧ p' = S es)%nat.

Lemma es_line' : Sh.es line' = S es.
Proof. unfold Sh.es. rewrite length_app. cbn. lia. Qed.

Lemma span_snoc p l c : span p (l ++ [c]) = if bool_decide (span p l < length l)%nat then span p l else (length l + span p [c])%nat.
Proof.
  remember (span p [c]) as k eqn:Hk. induction l as [|d l IH]; [done|]. cbn [span app length]. destruct (p d); [|done]. rewrite IH.
  case_bool_decide; case_bool_decide; lia.
Qed.

Lemma deref_line' q : (q < es)%nat → deref_at line' q = deref_at line q.
Proof. intros Hq. unfold deref_at. by rewrite lookup_app_l. Qed.

(** Skipping white space either stops at the same place or runs to the end. *)
Lemma skip_blank p p' : same_pos p p' →
  let q := skip line (among whitespace) p in let q' := skip line' (among whitespace) p' in
  (q = q' ∧ q < es ∨ q = es ∧ q' = S es)%nat.
Proof.
  intros HR. cbv zeta. unfold skip, Sh.es in *. destruct HR as [[<- Hp]|[-> ->]].
  - unfold Sh.es in Hp. rewrite drop_app_le by done. rewrite span_snoc, length_drop.
    pose proof (span_le (among whitespace) (drop p line)) as Hs. rewrite length_drop in Hs.
    change (span (among whitespace) [10]) with 1%nat. case_bool_decide; lia.
  - unfold Sh.es. rewrite drop_ge by lia. rewrite (drop_ge line') by (rewrite length_app; cbn; lia). cbn. lia.
Qed.

Lemma skip_word q : (q < es)%nat → skip line' word_char q = skip line word_char q.
Proof.
  intros Hq. unfold skip, Sh.es in *. rewrite drop_app_le by lia. rewrite span_snoc.
  change (span word_char [10]) with 0%nat. pose proof (span_le word_char (drop q line)). case_bool_decide; lia.
Qed.

Lemma blank_same p p' : same_pos p p' →
  same_pos (skip line (among whitespace) p) (skip line' (among whitespace) p').
Proof. intros HR. destruct (skip_blank p p' HR) as [[H1 H2]|[H1 H2]]; [left; lia|by right]. Qed.

Lemma peek_same toks : matched same_pos (peek line toks) (peek line' toks).
Proof.
  intros p p' a q HR. unfold peek. intros [= <- <-]. eexists. split; [|by apply blank_same].
  f_equal. destruct (skip_blank p p' HR) as [[H1 H2]|[H1 H2]].
  - rewrite <- H1. by rewrite deref_line'.
  - rewrite H1, H2. assert (deref_at line es = 0) as -> by (unfold deref_at, Sh.es; by rewrite lookup_ge_None_2).
    assert (deref_at line' (S es) = 0) as -> by (unfold deref_at; rewrite lookup_ge_None_2; [done|rewrite length_app; cbn; unfold Sh.es; lia]). done.
Qed.

(** The tokens are the same, at the same place, up to the end. *)
Lemma gettoken_same p p' t q :
  same_pos p p' → gettoken line p = Ok t q →
  ∃ t' q', gettoken line' p' = Ok t' q' ∧ same_pos q q' ∧ t'.1.1 = t.1.1 ∧ (t.1.1 ≠ 0 → t' = t).
Proof.
  intros HR. unfold gettoken. destruct (skip_blank p p' HR) as [[H1 H2]|[H1 H2]].
  - rewrite <- H1. set (q0 := skip line (among whitespace) p) in *.
    rewrite deref_line', skip_word by done. set (c := deref_at line q0).
    assert (∀ e, (e ≤ es)%nat → same_pos (skip line (among whitespace) e) (skip line' (among whitespace) e)) as Hb.
    { intros e He. apply blank_same. by left. }
    assert (same_pos q0 q0) by (left; lia).
    case (c =? 0); [intros [= <- <-]; eexists _, _; split_and!; try done; by apply blank_same|].
    case_bool_decide; [intros [= <- <-]; eexists _, _; split_and!; try done; apply Hb; lia|].
    case (c =? 62).
    + assert ((deref_at line' (S q0) =? 62) = (deref_at line (S q0) =? 62)) as ->.
      { destruct (decide (S q0 < es)%nat); [by rewrite deref_line'|]. assert (S q0 = es) as -> by lia.
        unfold deref_at, Sh.es. rewrite (lookup_ge_None_2 line) by lia. by rewrite lookup_app_r, Nat.sub_diag by lia. }
      destruct (deref_at line (S q0) =? 62) eqn:E2; intros [= <- <-]; eexists _, _; split_and!; try done; apply Hb; [|lia].
      apply Z.eqb_eq in E2. destruct (@deref_at_some line (S q0)) as [_ ?]; [by rewrite E2|lia].
    + intros [= <- <-]; eexists _, _; split_and!; try done. apply Hb. apply skip_bounds. lia.
  - rewrite H1, H2. assert (deref_at line es = 0) as -> by (unfold deref_at, Sh.es; by rewrite lookup_ge_None_2).
    assert (deref_at line' (S es) = 0) as -> by (unfold deref_at; rewrite lookup_ge_None_2; [done|rewrite length_app; cbn; unfold Sh.es; lia]).
    change (0 =? 0) with true. cbv iota. intros [= <- <-]. eexists _, _. split_and!; [done|apply blank_same; by right|done|done].
Qed.

Lemma gettoken_bind {B} (f f' : Z * nat * nat → K nat B) :
  (∀ t, t.1.1 ≠ 0 → matched same_pos (f t) (f' t)) →
  (∀ t t', t.1.1 = 0 → t'.1.1 = 0 → matched same_pos (f t) (f' t')) →
  matched same_pos (gettoken line ≫= f) (gettoken line' ≫= f').
Proof.
  intros Hn Hz p p' b q HR. unfold mbind, K_bind.
  destruct (gettoken line p) as [t q1| | | |] eqn:E; cbn; try done. intros Hb.
  destruct (gettoken_same p p' t q1 HR E) as (t' & q' & -> & HR' & Et & He). cbn.
  destruct (decide (t.1.1 = 0)) as [H0|H0]; [|rewrite (He H0); by apply (Hn t H0 q1)].
  apply (Hz t t' H0 ltac:(congruence) q1 q' b q HR' Hb).
Qed.

Lemma token_skipped {B} (m m' : K nat B) :
  matched same_pos m m' → matched same_pos (_ ← gettoken line; m) (_ ← gettoken line'; m').
Proof. intros Hm. by apply gettoken_bind. Qed.

(** ** The parsing functions *)

Lemma redir_step_same rs : matched same_pos (redir_step line rs) (redir_step line' rs).
Proof.
  unfold redir_step. apply matched_bind; [apply peek_same|]. intros []; [|apply matched_ret].
  apply gettoken_bind.
  - intros t _. apply gettoken_bind.
    + intros [[a q] eq] _. repeat case_match; first [apply matched_ret|apply matched_panic].
    + intros [[a q] eq] [[a' q'] eq'] H1 H2. cbn in H1, H2. subst. apply matched_panic.
  - intros t t' Ht Ht'. rewrite Ht, Ht'. apply gettoken_bind.
    + intros [[a q] eq] _. repeat case_match; first [apply matched_ret|apply matched_panic].
    + intros [[a q] eq] [[a' q'] eq'] H1 H2. cbn in H1, H2. subst. apply matched_panic.
Qed.

Lemma parseredirs_same : matched same_pos (parseredirs line) (parseredirs line').
Proof. apply matched_while; [rewrite es_line'; lia|apply redir_step_same]. Qed.

Lemma args_step_same x : matched same_pos (args_step line x) (args_step line' x).
Proof.
  unfold args_step. apply matched_bind; [apply peek_same|]. intros []; [apply matched_ret|]. apply gettoken_bind.
  - intros [[tok q] eq] _. repeat case_match; try apply matched_ret; try apply matched_panic.
    apply matched_bind; [apply parseredirs_same|]. intros rs. apply matched_ret.
  - intros [[tok q] eq] [[tok' q'] eq'] H1 H2. cbn in H1, H2. subst. apply matched_ret.
Qed.

Lemma back_step_same c : matched same_pos (back_step line c) (back_step line' c).
Proof.
  unfold back_step. apply matched_bind; [apply peek_same|]. intros []; [|apply matched_ret].
  apply token_skipped, matched_ret.
Qed.

Lemma levels_same n : ∀ n', (n ≤ n')%nat →
  matched same_pos (parseline line n) (parseline line' n') ∧
  matched same_pos (parsepipe line n) (parsepipe line' n') ∧
  matched same_pos (parseblock line n) (parseblock line' n') ∧
  matched same_pos (parseexec line n) (parseexec line' n').
Proof.
  induction n as [|n IH]; intros n' Hn; [split_and!; intros p p' a q _ [=]|].
  destruct n' as [|n']; [lia|]. destruct (IH n' ltac:(lia)) as (Hl & Hp & Hb & He).
  cbn [parseline parsepipe parseblock parseexec]. split_and!.
  - apply matched_bind; [done|]. intros c. apply matched_bind.
    { apply matched_while; [rewrite es_line'; lia|apply back_step_same]. }
    intros c1. apply matched_bind; [apply peek_same|]. intros []; [|apply matched_ret].
    apply token_skipped, matched_bind; [done|]. intros r. apply matched_ret.
  - apply matched_bind; [done|]. intros c. apply matched_bind; [apply peek_same|]. intros []; [|apply matched_ret].
    apply token_skipped, matched_bind; [done|]. intros r. apply matched_ret.
  - apply matched_bind; [apply peek_same|]. intros []; [|apply matched_panic].
    apply token_skipped, matched_bind; [done|]. intros c.
    apply matched_bind; [apply peek_same|]. intros []; [|apply matched_panic].
    apply token_skipped, matched_bind; [apply parseredirs_same|]. intros rs. apply matched_ret.
  - apply matched_bind; [apply peek_same|]. intros []; [done|].
    apply matched_bind; [apply parseredirs_same|]. intros rs.
    apply matched_bind; [|intros x; apply matched_ret].
    apply matched_while; [rewrite es_line'; lia|apply args_step_same].
Qed.
End line.

(** ** Texts of commands *)

Lemma parsecmd_from line c p :
  0 ∉ line → parseline line (parse_fuel line) 0%nat = Ok c p → skip line (among whitespace) p = es line →
  ∃ buf, parsecmd line 0%nat = Ok (c, buf) (length line) ∧
    ∀ w, w ∈ cmd_words c → (w.2 ≤ length line)%nat ∧ str_at buf w.1 = slice line w.
Proof.
  intros H0 Hp Hend. exists (nulterminate c (line ++ [0])). split.
  - unfold parsecmd. rewrite (bind_ok _ _ _ _ _ Hp). rewrite (bind_ok (peek line []) _ p _ _ eq_refl).
    rewrite (bind_ok get _ _ _ _ eq_refl). rewrite Hend, Nat.eqb_refl. done.
  - destruct (@levels_ok line (parse_fuel line)) as [Hl _].
    specialize (Hl 0%nat ltac:(lia) ltac:(unfold need, parse_fuel; lia)). unfold ends in Hl. rewrite Hp in Hl.
    destruct Hl as (_ & _ & Hw). intros w Hin. split; [apply (proj1 (Forall_forall _ _) Hw w Hin)|].
    rewrite nulterminate_cut. by apply cut_reads.
Qed.

Lemma parseline_show c :
  plain_cmd c → let line := show 0 c in
  ∃ c', parseline line (parse_fuel line) 0%nat = Ok c' (length line) ∧ cmd_map (slice line) c' = c.
Proof.
  intros Hc. cbv zeta. set (line := show 0 c). destruct (@levels_here line c Hc) as (_ & _ & _ & Hl).
  destruct (Hl (parse_fuel line) 0%nat []) as (c' & H1 & R1);
    [by rewrite app_nil_r|done|unfold need, parse_fuel; lia|lia|]. by exists c'.
Qed.

(** The text of a command, with or without a newline behind it, parses to the
    command. *)
Lemma parse_text c nl :
  plain_cmd c → nl = [] ∨ nl = [10] →
  ∃ c' buf, parsecmd (show 0 c ++ nl) 0%nat = Ok (c', buf) (length (show 0 c ++ nl)) ∧
    cmd_map (λ w, str_at buf w.1) c' = c.
Proof.
  intros Hc Hnl. pose proof (parseline_show c Hc) as (c' & Hp & Hr). pose proof (show_nonzero 0 c (proj2 Hc)) as H0.
  set (line := show 0 c) in *.
  destruct (parsecmd_from line c' (length line)) as (buf & Hok & Hw); [done|done| |].
  { unfold skip. rewrite drop_ge by lia. cbn. unfold es. lia. }
  destruct Hnl as [-> | ->].
  - rewrite app_nil_r. exists c', buf. split; [done|]. transitivity (cmd_map (slice line) c'); [|done].
    apply cmd_map_ext. intros w Hin. by apply Hw.
  - destruct (@levels_same line (parse_fuel line) (parse_fuel (line ++ [10]))) as (Hs & _).
    { unfold parse_fuel. rewrite es_line'. lia. }
    destruct (Hs 0%nat 0%nat c' (length line) (or_introl (conj eq_refl (Nat.le_0_l _))) Hp) as (p & Hp' & Hpos).
    destruct (parsecmd_from (line ++ [10]) c' p) as (buf' & Hok' & Hw'); [set_solver|done| |].
    { destruct (skip_blank (length line) p Hpos) as [[H1 H2]|[_ ->]]; [|by rewrite es_line'].
      exfalso. unfold skip in H2. unfold es in *. lia. }
    exists c', buf'. split; [done|]. transitivity (cmd_map (slice line) c'); [|done].
    apply cmd_map_ext. intros w Hin. destruct (Hw' w Hin) as [_ ->]. destruct (Hw w Hin) as [Hb _].
    unfold slice. destruct (decide (w.1 ≤ length line)%nat).
    + rewrite drop_app_le, take_app_le by (rewrite ?length_drop; lia). done.
    + by replace (w.2 - w.1)%nat with 0%nat by lia.
Qed.
