(* ===== verification/ShProps.v ===== *)
(** * The shell's parser: the theorems

    The parser ends on every line, with a command whose words are words of the
    line or with a syntax error; and a command written out parses back to
    itself. *)
From S2P Require Import Prelude Str Sh ShFacts ShShow ShLine.

(** C27: Parsing ends on every line.  It reports a syntax error, or it returns a
    command that fits the shell's fixed-size argument vectors, whose argument
    and file name pointers are, in the buffer cut by [nulterminate], strings of
    ordinary characters that stand at that place of the line. *)
Theorem parsecmd_total line :
  0 ∉ line →
  (∃ msg, parsecmd line 0%nat = Panic msg ∧ syntax_error msg) ∨
  ∃ c buf, parsecmd line 0%nat = Ok (c, buf) (length line) ∧ shaped c ∧
    ∀ w, w ∈ cmd_words c → str_at buf w.1 = slice line w ∧ slice line w ≠ [] ∧
      Forall (λ x, word_char x = true) (slice line w).
Proof.
  intros H0. destruct (@levels_ok line (parse_fuel line)) as [Hl _].
  assert (ends syntax_error (parsecmd line) (λ r s', s' = length line ∧ shaped r.1 ∧
    r.2 = nulterminate r.1 (line ++ [0]) ∧ ∃ s1, @parsed line 0 r.1 s1) 0%nat) as Hends.
  { unfold parsecmd. apply ends_bind. eapply ends_mono; [|apply Hl; unfold need, parse_fuel; lia].
    intros c s1 Hc. apply ends_bind. eapply ends_mono; [|apply peek_spec; apply Hc].
    intros b s2 (H2 & _). apply ends_bind. unfold get, ends at 1. cbn.
    case (Nat.eqb_spec s2 (es line)) as [-> |]; cbn [negb]; [|unfold ends, syntax_error; cbn; set_solver].
    split; [done|]. split; [apply Hc|]. split; [done|by exists s1]. }
  unfold ends in Hends. destruct (parsecmd line 0%nat) as [[c buf] s'|msg| | |]; try done; [|left; eauto].
  right. cbn [fst snd] in Hends. destruct Hends as (-> & Hsh & -> & s1 & _ & _ & Hw). exists c, (nulterminate c (line ++ [0])). split; [done|].
  split; [done|]. intros w Hin. rewrite nulterminate_cut. split; [by apply cut_reads|].
  pose proof (proj1 (Forall_forall _ _) Hw w Hin) as (Hb & Hc & _). unfold es in Hb.
  assert (length (slice line w) = (w.2 - w.1)%nat) as Hlen by (unfold slice; rewrite length_take, length_drop; lia).
  split; [intros E; rewrite E in Hlen; cbn in Hlen; lia|].
  apply Forall_forall. intros x Hx. apply list_elem_of_lookup in Hx as (i & Hi).
  apply lookup_take_Some in Hi as [Hi Hlt]. rewrite lookup_drop in Hi.
  destruct (Hc (w.1 + i)%nat) as (y & Hy & ?); [lia|]. congruence.
Qed.
Lemma parsecmd_total_witness :
  (∃ msg, parsecmd (chars "(ls") 0%nat = Panic msg ∧ syntax_error msg) ∨
  ∃ c buf, parsecmd (chars "(ls") 0%nat = Ok (c, buf) 3%nat ∧ shaped c ∧
    ∀ w, w ∈ cmd_words c → str_at buf w.1 = slice (chars "(ls") w ∧ slice (chars "(ls") w ≠ [] ∧
      Forall (λ x, word_char x = true) (slice (chars "(ls") w).
Proof. apply (parsecmd_total (chars "(ls")). apply (bool_decide_eq_true_1 _). vm_compute. done. Defined.

(** C29: Every command the shell can represent has a text that parses back to it:
    writing the command out in the grammar of the shell, with parentheses where
    an operator stands below one that binds tighter, and parsing the text, with
    or without a newline behind it, gives the same tree with the same arguments
    and file names. *)
Theorem parse_show c nl :
  plain_cmd c → nl = [] ∨ nl = [10] →
  ∃ c' buf, parsecmd (show 0 c ++ nl) 0%nat = Ok (c', buf) (length (show 0 c ++ nl)) ∧
    cmd_map (λ w, str_at buf w.1) c' = c.
Proof. apply parse_text. Qed.
Lemma parse_show_witness :
  let c := LIST (BACK (PIPE (EXEC [chars "ls"; chars "-l"]) (REDIR (EXEC [chars "wc"]) (chars "out") 0x201 1)))
                (EXEC [chars "echo"]) in
  ∃ c' buf, parsecmd (show 0 c ++ [10]) 0%nat = Ok (c', buf) (length (show 0 c ++ [10])) ∧
    cmd_map (λ w, str_at buf w.1) c' = c.
Proof.
  cbv zeta. apply parse_show; [|by right]. split.
  - cbn. unfold MAXARGS. split_and!; try lia; by right.
  - repeat constructor; done.
Defined.
