(* ===== verification/ShRun.v ===== *)
(** * The shell: running a command (sh.c)

    A process is its table of descriptors; [fork] copies it, [open], [dup] and
    [pipe] take the lowest free descriptors.  [runcmd] never returns: its model is
    what the process that calls it does from then on, its calls of [fork], [wait]
    and [exec] in their order, with what each child does inside the [fork].  Whether
    [open], [pipe] and [fork] succeed is up to the kernel. *)
From S2P Require Import Prelude Str Digits Ulib Sh ShFacts.

(** ** Descriptors *)

(** What a descriptor refers to: something inherited, an end of a pipe, or a
    file opened by name. *)
Inductive obj := Inherited (n : nat) | ReadEnd (p : nat) | WriteEnd (p : nat) | Opened (path : list Z) (mode : Z).
Definition fds : Type := list (option obj).

Fixpoint lowest (t : fds) : option nat :=
  match t with
  | [] => None
  | None :: _ => Some 0%nat
  | Some _ :: t' => S <$> lowest t'
  end.

Definition alloc (o : obj) (t : fds) : option (nat * fds) :=
  (λ fd, (fd, <[fd := Some o]> t)) <$> lowest t.
Definition close (fd : nat) (t : fds) : fds := <[fd := None]> t.
(** A [dup] that fails changes nothing, and the shell does not look at its
    result. *)
Definition dup (fd : nat) (t : fds) : fds :=
  match t !! fd ≫= id with
  | None => t
  | Some o => match alloc o t with None => t | Some (_, t') => t' end
  end.

(** ** Running a command *)

(** What a process does: [exec] with these arguments and descriptors; giving up with a
    message; [fork], with what the child does; [wait], with the descriptors it holds
    meanwhile; [exit]. *)
Inductive event :=
| Launch (argv : list (list Z)) (t : fds)
| Died (msg : list Z)
| Fork (child : list event)
| Wait (t : fds)
| Exit.

(** How many pipes and processes the kernel has been asked for. *)
Record counts := Counts { npipes : nat; nforks : nat }.
Definition forked (w : counts) : counts := Counts (npipes w) (S (nforks w)).

Section run.
Context (opens : list Z → Z → bool) (pipes forks : nat → bool).

(** The child's code, then the parent's. *)
Definition fork1 (child parent : counts → list event * counts) (w : counts) : list event * counts :=
  if forks (nforks w) then
    let '(a, w) := child (forked w) in
    let '(b, w) := parent w in
    (Fork a :: b, w)
  else ([Died (chars "fork")], forked w).

Definition pipe (t : fds) (w : counts) : option (nat * nat * fds * counts) :=
  if pipes (npipes w) then
    '(p0, t) ← alloc (ReadEnd (npipes w)) t;
    '(p1, t) ← alloc (WriteEnd (npipes w)) t;
    Some (p0, p1, t, Counts (S (npipes w)) (nforks w))
  else None.

Definition open (path : list Z) (mode : Z) (t : fds) : option (nat * fds) :=
  if opens path mode then alloc (Opened path mode) t else None.

Fixpoint runcmd (c : cmd (list Z)) (t : fds) (w : counts) : list event * counts :=
  match c with
  | EXEC argv => (match argv with [] => [Exit] | _ => [Launch argv t] end, w)
  | REDIR c file mode fd =>
      let t := close (Z.to_nat fd) t in
      match open file mode t with
      | None => ([Died (chars "open " ++ file ++ chars " failed")], w)
      | Some (_, t) => runcmd c t w
      end
  | LIST l r =>
      fork1 (runcmd l t) (λ w,
        let '(a, w) := runcmd r t w in (Wait t :: a, w)) w
  | PIPE l r =>
      match pipe t w with
      | None => ([Died (chars "pipe")], w)
      | Some (p0, p1, t, w) =>
          fork1 (runcmd l (close p1 (close p0 (dup p1 (close 1 t)))))
            (fork1 (runcmd r (close p1 (close p0 (dup p0 (close 0 t))))) (λ w,
               let t := close p1 (close p0 t) in ([Wait t; Wait t; Exit], w))) w
      end
  | BACK c => fork1 (runcmd c t) (λ w, ([Exit], w)) w
  end.

(** ** What a command means *)

(** The table of a process with standard input, output and error and nothing
    else. *)
Definition std (i o e : obj) : fds := Some i :: Some o :: Some e :: replicate 13 None.

(** What a process with these three has to do for a command, without descriptors:
    the first of a list is waited for, both ends of a pipe are, a command in the
    background is not; whoever waits holds no end of a pipe.  [n] is the number of the
    next pipe. *)
Fixpoint plan (e : obj) (c : cmd (list Z)) (i o : obj) (n : nat) : list event * nat :=
  match c with
  | EXEC argv => (match argv with [] => [Exit] | _ => [Launch argv (std i o e)] end, n)
  | REDIR c file mode fd =>
      if negb (opens file mode) then ([Died (chars "open " ++ file ++ chars " failed")], n)
      else if fd =? 0 then plan e c (Opened file mode) o n else plan e c i (Opened file mode) n
  | LIST l r =>
      let '(a, n) := plan e l i o n in
      let '(b, n) := plan e r i o n in (Fork a :: Wait (std i o e) :: b, n)
  | PIPE l r =>
      let '(a, m) := plan e l i (WriteEnd n) (S n) in
      let '(b, m) := plan e r (ReadEnd n) o m in
      ([Fork a; Fork b; Wait (std i o e); Wait (std i o e); Exit], m)
  | BACK c => let '(a, n) := plan e c i o n in ([Fork a; Exit], n)
  end.

(** The programs a command starts, each with its standard input and output. *)
Fixpoint meaning (c : cmd (list Z)) (i o : obj) (n : nat) : list (list (list Z) * obj * obj) * nat :=
  match c with
  | EXEC argv => (match argv with [] => [] | _ => [(argv, i, o)] end, n)
  | REDIR c file mode fd =>
      if negb (opens file mode) then ([], n)
      else if fd =? 0 then meaning c (Opened file mode) o n else meaning c i (Opened file mode) n
  | LIST l r =>
      let '(a, n) := meaning l i o n in
      let '(b, n) := meaning r i o n in (a ++ b, n)
  | PIPE l r =>
      let '(a, m) := meaning l i (WriteEnd n) (S n) in
      let '(b, m) := meaning r (ReadEnd n) o m in (a ++ b, m)
  | BACK c => meaning c i o n
  end.

Definition with_std (e : obj) (x : list (list Z) * obj * obj) : list (list Z) * fds :=
  (x.1.1, std x.1.2 x.2 e).

Lemma redirect_in i o e file mode :
  opens file mode = true → open file mode (close 0 (std i o e)) = Some (0%nat, std (Opened file mode) o e).
Proof. unfold open. by intros ->. Qed.
Lemma redirect_out i o e file mode :
  opens file mode = true → open file mode (close 1 (std i o e)) = Some (1%nat, std i (Opened file mode) e).
Proof. unfold open. by intros ->. Qed.
Lemma open_fails file mode t : opens file mode = false → open file mode t = None.
Proof. unfold open. by intros ->. Qed.
End run.

(** The programs started by what a process does, its children's among them. *)
Fixpoint started (a : event) : list (list (list Z) * fds) :=
  match a with
  | Launch argv t => [(argv, t)]
  | Fork l => flat_map started l
  | _ => []
  end.

Section runs.
Context (opens : list Z → Z → bool) (pipes forks : nat → bool).

Lemma plan_meaning e c : ∀ i o n,
  flat_map started (plan opens e c i o n).1 = with_std e <$> (meaning opens c i o n).1 ∧
  (plan opens e c i o n).2 = (meaning opens c i o n).2.
Proof.
  induction c as [argv|c IH file mode fd|l IHl r IHr|l IHl r IHr|c IH]; intros i o n; cbn [plan meaning].
  - by destruct argv.
  - destruct (opens file mode); cbn [negb]; [|done]. destruct (fd =? 0); apply IH.
  - destruct (IHl i (WriteEnd n) (S n)) as [L1 N1].
    destruct (plan opens e l i (WriteEnd n) (S n)) as [a m], (meaning opens l i (WriteEnd n) (S n)) as [a' m'].
    cbn [fst snd] in L1, N1. subst m'. destruct (IHr (ReadEnd n) o m) as [L2 N2].
    destruct (plan opens e r (ReadEnd n) o m) as [b k], (meaning opens r (ReadEnd n) o m) as [b' k'].
    cbn [fst snd] in *. split; [|done]. cbn [flat_map started]. by rewrite L1, L2, app_nil_r, fmap_app.
  - destruct (IHl i o n) as [L1 N1]. destruct (plan opens e l i o n) as [a m], (meaning opens l i o n) as [a' m'].
    cbn [fst snd] in L1, N1. subst m'. destruct (IHr i o m) as [L2 N2].
    destruct (plan opens e r i o m) as [b k], (meaning opens r i o m) as [b' k'].
    cbn [fst snd] in *. split; [|done]. cbn [flat_map started app]. by rewrite L1, L2, fmap_app.
  - destruct (IH i o n) as [L1 N1]. destruct (plan opens e c i o n) as [a m]. cbn [fst snd flat_map started] in *.
    by rewrite app_nil_r.
Qed.

Hypothesis pipes_ok : ∀ n, pipes n = true.
Hypothesis forks_ok : ∀ n, forks n = true.

Lemma fork1_ok child parent w :
  fork1 forks child parent w =
    let '(a, w) := child (forked w) in let '(b, w) := parent w in (Fork a :: b, w).
Proof. unfold fork1. by rewrite forks_ok. Qed.

Lemma pipe_std i o e w :
  ∃ t, pipe pipes (std i o e) w = Some (3%nat, 4%nat, t, Counts (S (npipes w)) (nforks w)) ∧
    close 4 (close 3 (dup 4 (close 1 t))) = std i (WriteEnd (npipes w)) e ∧
    close 4 (close 3 (dup 3 (close 0 t))) = std (ReadEnd (npipes w)) o e ∧
    close 4 (close 3 t) = std i o e.
Proof. unfold pipe. rewrite pipes_ok. eexists. split; [reflexivity|done]. Qed.

(** A command does what is planned: with the usual three descriptors and nothing
    failing but files that cannot be opened, [runcmd] forks, waits and starts
    programs exactly as the command says.  Each program has its standard input and
    output where the redirections and pipes around it say, the shell's standard
    error, and no other descriptor open, so that no process, a waiting one included,
    keeps an end of a pipe that is not its own. *)
Theorem runcmd_wires c i o e w :
  shaped c →
  (runcmd opens pipes forks c (std i o e) w).1 = (plan opens e c i o (npipes w)).1 ∧
  npipes (runcmd opens pipes forks c (std i o e) w).2 = (plan opens e c i o (npipes w)).2.
Proof.
  revert i o w. induction c as [argv|c IH file mode fd|l IHl r IHr|l IHl r IHr|c IH]; intros i o w Hsh;
    cbn [runcmd plan shaped] in *.
  - done.
  - destruct Hsh as [Hsh Hfd], (opens file mode) eqn:Eo; cbn [negb].
    + destruct Hfd as [[_ ->]|[_ ->]]; cbn [Z.eqb].
      * rewrite (redirect_in opens) by done. by apply IH.
      * rewrite (redirect_out opens) by done. by apply IH.
    + by rewrite (open_fails opens) by done.
  - destruct (pipe_std i o e w) as (t & -> & -> & -> & ->). rewrite fork1_ok.
    set (w1 := forked _). destruct (IHl i (WriteEnd (npipes w)) w1 (proj1 Hsh)) as [L1 N1].
    change (npipes w1) with (S (npipes w)) in *.
    destruct (runcmd opens pipes forks l _ w1) as [a w2], (plan opens e l i _ _) as [a' m]. cbn [fst snd] in L1, N1. subst a' m.
    rewrite fork1_ok. destruct (IHr (ReadEnd (npipes w)) o (forked w2) (proj2 Hsh)) as [L2 N2].
    change (npipes (forked w2)) with (npipes w2) in *.
    destruct (runcmd opens pipes forks r _ (forked w2)) as [b w3], (plan opens e r _ o _) as [b' m]. cbn [fst snd] in *. by subst.
  - rewrite fork1_ok. destruct (IHl i o (forked w) (proj1 Hsh)) as [L1 N1]. change (npipes (forked w)) with (npipes w) in *.
    destruct (runcmd opens pipes forks l _ _) as [a w2], (plan opens e l i o _) as [a' m]. cbn [fst snd] in L1, N1. subst a' m.
    destruct (IHr i o w2 (proj2 Hsh)) as [L2 N2].
    destruct (runcmd opens pipes forks r _ w2) as [b w3], (plan opens e r i o _) as [b' m]. cbn [fst snd] in *. by subst.
  - rewrite fork1_ok. destruct (IH i o (forked w) Hsh) as [L1 N1]. change (npipes (forked w)) with (npipes w) in *.
    destruct (runcmd opens pipes forks c _ _) as [a w2], (plan opens e c i o _) as [a' m]. cbn [fst snd] in *. by subst.
Qed.
End runs.

Lemma runcmd_wires_witness :
  let c := PIPE (REDIR (EXEC [chars "cat"]) (chars "in") 0 0) (EXEC [chars "wc"]) in
  let con := Inherited 0 in
  (runcmd (λ _ _, true) (λ _, true) (λ _, true) c (std con con con) (Counts 0 0)).1 =
    [Fork [Launch [chars "cat"] (std (Opened (chars "in") 0) (WriteEnd 0) con)];
     Fork [Launch [chars "wc"] (std (ReadEnd 0) con con)]; Wait (std con con con); Wait (std con con con); Exit].
Proof.
  cbv zeta. refine (proj1 (runcmd_wires _ _ _ _ _ _ (Inherited 0) (Inherited 0) (Inherited 0) (Counts 0 0) _)); try done.
  cbn. unfold MAXARGS. split; [split; [lia|by left]|lia].
Defined.
