(* ===== verification/ShMain.v ===== *)
(** * The shell: reading lines, and the commands it runs itself (sh.c)

    A buffer is the list of its bytes, as in Ulib.v; [None] means reading past
    its end. *)
From S2P Require Import Prelude Str Digits Ulib Sh ShFacts ShShow ShLine ShRun.

(** ** Built-in commands *)

(** The ids of the shell's process, and what was written to standard error. *)
Record ids := Ids { id_uid : Z; id_gid : Z; id_err : list Z }.
Definition put_err (l : list Z) (x : ids) : ids := Ids (id_uid x) (id_gid x) (id_err x ++ l).

(** The shell has its own copy of the kernel's function. *)
Definition sh_strncmp : list Z → list Z → nat → option Z := strncmp.

(** [while (strncmp(p, " ", 1) == 0) p++] *)
Fixpoint chomp (p : list Z) : option (list Z) :=
  a ← sh_strncmp p (cstring " ") 1;
  if a =? 0 then match p with [] => None | _ :: p' => chomp p' end else Some p.

Fixpoint makeint_loop (val : Z) (p : list Z) : option Z :=
  match p with
  | [] => None
  | c :: p' => if (48 <=? c) && (c <=? 57) then makeint_loop (i32 (10 * val + (c - 48))) p' else Some val
  end.
Definition makeint (p : list Z) : option Z := makeint_loop 0 p.

Definition setbuiltin (p : list Z) (x : ids) : option (Z * ids) :=
  p ← chomp (drop 4 p);
  a ← sh_strncmp (cstring "uid") p 3;
  if a =? 0 then
    p ← chomp (drop 3 p);
    i ← makeint p;
    Some (0, Ids (u32 i) (id_gid x) (id_err x))
  else
    a ← sh_strncmp (cstring "gid") p 3;
    if a =? 0 then
      p ← chomp (drop 3 p);
      i ← makeint p;
      Some (0, Ids (id_uid x) (u32 i) (id_err x))
    else Some (-1, put_err (chars "Invalid _set parameter" ++ [10]) x).

Definition getbuiltin (p : list Z) (x : ids) : option (Z * ids) :=
  p ← chomp (drop 4 p);
  a ← sh_strncmp (cstring "uid") p 3;
  if a =? 0 then Some (0, put_err (uprintint (id_uid x) 10 true ++ [10]) x)
  else
    a ← sh_strncmp (cstring "gid") p 3;
    if a =? 0 then Some (0, put_err (uprintint (id_gid x) 10 true ++ [10]) x)
    else Some (-1, put_err (chars "Invalid _get parameter" ++ [10]) x).

Definition fdt : list (list Z * (list Z → ids → option (Z * ids))) :=
  [(cstring "_set", setbuiltin); (cstring "_get", getbuiltin)].

(** Every entry whose name the command starts with is called. *)
Fixpoint dobuiltin_loop (table : list (list Z * (list Z → ids → option (Z * ids)))) (cmd : list Z) (x : ids) : option ids :=
  match table with
  | [] => Some x
  | (name, f) :: table' =>
      a ← sh_strncmp cmd name (length name - 1);
      x ← (if a =? 0 then snd <$> f cmd x else Some x);
      dobuiltin_loop table' cmd x
  end.
Definition dobuiltin : list Z → ids → option ids := dobuiltin_loop fdt.

(** ** The shell *)

(** The loop that makes sure of three open descriptors; four rounds are enough. *)
Fixpoint open_console (opens : list Z → Z → bool) (fuel : nat) (t : fds) : option fds :=
  match fuel with
  | O => None
  | S n =>
      match open opens (chars "console") O_RDWR t with
      | None => Some t
      | Some (fd, t) => if (3 <=? fd)%nat then Some (close fd t) else open_console opens n t
      end
  end.

Definition BUF : nat := 100.

Definition at_ (buf : list Z) (i : nat) : Z := default 0 (buf !! i).

(** The line, and what is left of the input. *)
Definition getcmd (input : list Z) : Z * list Z * list Z :=
  let '(l, rest) := ugets (Z.of_nat BUF) input in
  let buf := l ++ replicate (BUF - length l) 0 in
  (if at_ buf 0 =? 0 then -1 else 0, buf, rest).

(** What a line is: [cd], one of the shell's own commands, or a command to run. *)
Inductive line :=
| Cd (path : list Z)
| Own (buf : list Z)
| Cmd (buf : list Z).

Definition do_line (buf : list Z) : line :=
  if (at_ buf 0 =? 99) && (at_ buf 1 =? 100) && (at_ buf 2 =? 32) then
    Cd (str_of (drop 3 (<[(length (str_of buf) - 1)%nat := 0]> buf)))
  else if at_ buf 0 =? 95 then Own buf
  else Cmd buf.

(** What the shell itself does: it prompts, changes its directory, obeys one of its
    own commands, forks a child for the line and waits with its descriptors, or gives
    up. *)
Inductive action :=
| Prompt
| Chdir (path : list Z)
| Builtin (buf : list Z)
| Spawn (buf : list Z) (child : list event)
| Await (t : fds)
| Gave_up (msg : list Z).

Section session.
Context (opens : list Z → Z → bool) (pipes forks : nat → bool).

(** The child's part: [runcmd(parsecmd(buf))]; the parser returns or panics. *)
Definition spawn (t : fds) (buf : list Z) (w : counts) : list event * counts :=
  match parsecmd (str_of buf) 0%nat with
  | Ok (c, b) _ => runcmd opens pipes forks (cmd_map (λ p, str_at b p.1) c) t w
  | Panic msg => ([Died (chars msg)], w)
  | _ => ([], w)
  end.

(** The loop over the lines; a [fork] that fails ends the shell. *)
Fixpoint sh_loop (fuel : nat) (t : fds) (input : list Z) (x : ids) (w : counts) : option (list action * ids * counts) :=
  match fuel with
  | O => None
  | S n =>
      let '(r, buf, rest) := getcmd input in
      if r <? 0 then Some ([Prompt], x, w)
      else
        match do_line buf with
        | Cd path =>
            '(l, x, w) ← sh_loop n t rest x w;
            Some (Prompt :: Chdir path :: l, x, w)
        | Own buf =>
            x ← dobuiltin buf x;
            '(l, x, w) ← sh_loop n t rest x w;
            Some (Prompt :: Builtin buf :: l, x, w)
        | Cmd buf =>
            if forks (nforks w) then
              let '(child, w) := spawn t buf (forked w) in
              '(l, x, w) ← sh_loop n t rest x w;
              Some (Prompt :: Spawn buf child :: Await t :: l, x, w)
            else Some ([Prompt; Gave_up (chars "fork")], x, forked w)
        end
  end.

Definition sh_main (fuel : nat) (t : fds) (input : list Z) (x : ids) (w : counts) : option (list action * ids * counts) :=
  t ← open_console opens 4 t;
  sh_loop fuel t input x w.
End session.

(** ** The shell returns *)

Lemma strncmp_some p q n : 0 ∈ p → 0 ∈ q → is_Some (strncmp p q n).
Proof.
  revert p q. induction n as [|n IH]; intros p q Hp Hq; [by eexists|].
  destruct p as [|c p]; [by apply elem_of_nil in Hp|]. destruct q as [|d q]; [by apply elem_of_nil in Hq|]. cbn.
  destruct (Z.eqb_spec c 0) as [|Hc]; [by eexists|]. destruct (Z.eqb_spec c d) as [<-|]; [|by eexists].
  apply IH; set_solver.
Qed.

Lemma chomp_cons c p : chomp (c :: p) = if c =? 32 then chomp p else Some (c :: p).
Proof.
  change (chomp (c :: p)) with (a ← strncmp (c :: p) [32; 0] 1; if a =? 0 then chomp p else Some (c :: p)). cbn.
  destruct (Z.eqb_spec c 0) as [->|]; [done|]. destruct (Z.eqb_spec c 32); [done|]. cbn. by replace (c - 32 =? 0) with false by lia.
Qed.

Lemma chomp_some p : 0 ∈ p → ∃ p', chomp p = Some p' ∧ 0 ∈ p'.
Proof.
  induction p as [|c p IH]; intros Hp; [by apply elem_of_nil in Hp|]. rewrite chomp_cons.
  destruct (Z.eqb_spec c 32) as [->|]; [apply IH; set_solver|by eexists].
Qed.

Lemma makeint_some val p : 0 ∈ p → is_Some (makeint_loop val p).
Proof.
  revert val. induction p as [|c p IH]; intros val Hp; [by apply elem_of_nil in Hp|]. cbn.
  destruct ((48 <=? c) && (c <=? 57)) eqn:E; [|by eexists]. apply IH.
  apply elem_of_cons in Hp as [<-|]; [done|done].
Qed.

(** A match against a short constant leaves the NUL behind it. *)
Lemma strncmp_drop q p n : 0 ∈ p → Forall (λ c, c ≠ 0) (take n q) → (n ≤ length q)%nat →
  strncmp q p n = Some 0 → 0 ∈ drop n p.
Proof.
  revert p q. induction n as [|n IH]; intros p q Hp Hq Hl; [done|].
  destruct q as [|d q]; cbn in Hl; [lia|]. destruct p as [|c p]; [by apply elem_of_nil in Hp|]. cbn in *.
  apply Forall_cons_1 in Hq as [Hd Hq].
  destruct (Z.eqb_spec d 0) as [|_]; [done|]. destruct (Z.eqb_spec d c) as [<-|]; cbn; [|intros [=]; lia].
  apply IH; [set_solver|done|lia].
Qed.

Lemma strncmp_drop_l p q n : 0 ∈ p → Forall (λ c, c ≠ 0) (take n q) → (n ≤ length q)%nat →
  strncmp p q n = Some 0 → 0 ∈ drop n p.
Proof.
  revert p q. induction n as [|n IH]; intros p q Hp Hq Hl; [done|].
  destruct q as [|d q]; cbn in Hl; [lia|]. destruct p as [|c p]; [by apply elem_of_nil in Hp|]. cbn in *.
  apply Forall_cons_1 in Hq as [Hd Hq].
  destruct (Z.eqb_spec c 0) as [->|Hc]; cbn; [intros [=]; lia|].
  destruct (Z.eqb_spec c d) as [<-|]; [|intros [=]; lia]. apply IH; [set_solver|done|lia].
Qed.

Lemma setbuiltin_some p x : 0 ∈ drop 4 p → is_Some (setbuiltin p x).
Proof.
  intros Hp. unfold setbuiltin, sh_strncmp. destruct (chomp_some _ Hp) as (p1 & -> & H1). cbn -[strncmp cstring].
  assert (∀ s, 0 ∈ cstring s) as Hc by (intros s; unfold cstring; set_solver).
  destruct (strncmp_some (cstring "uid") p1 3 (Hc _) H1) as [a Ha]. rewrite Ha. cbn -[strncmp cstring].
  destruct (Z.eqb_spec a 0) as [-> |_].
  { destruct (chomp_some (drop 3 p1)) as (p2 & -> & H2).
    - eapply strncmp_drop, Ha; [done|by repeat constructor|cbn; lia].
    - cbn. destruct (makeint_some 0 p2 H2) as [i Hi]. unfold makeint. rewrite Hi. by eexists. }
  destruct (strncmp_some (cstring "gid") p1 3 (Hc _) H1) as [b Hb]. rewrite Hb. cbn -[strncmp cstring].
  destruct (Z.eqb_spec b 0) as [-> |_]; [|by eexists].
  destruct (chomp_some (drop 3 p1)) as (p2 & -> & H2).
  - eapply strncmp_drop, Hb; [done|by repeat constructor|cbn; lia].
  - cbn. destruct (makeint_some 0 p2 H2) as [i Hi]. unfold makeint. rewrite Hi. by eexists.
Qed.

Lemma getbuiltin_some p x : 0 ∈ drop 4 p → is_Some (getbuiltin p x).
Proof.
  intros Hp. unfold getbuiltin, sh_strncmp. destruct (chomp_some _ Hp) as (p1 & -> & H1). cbn -[strncmp cstring].
  assert (∀ s, 0 ∈ cstring s) as Hc by (intros s; unfold cstring; set_solver).
  destruct (strncmp_some (cstring "uid") p1 3 (Hc _) H1) as [a ->]. cbn -[strncmp cstring].
  destruct (a =? 0); [by eexists|].
  destruct (strncmp_some (cstring "gid") p1 3 (Hc _) H1) as [b ->]. cbn. by destruct (b =? 0); eexists.
Qed.

Lemma dobuiltin_some p x : 0 ∈ p → is_Some (dobuiltin p x).
Proof.
  intros Hp. change (is_Some (a ← strncmp p (cstring "_set") 4;
    x ← (if a =? 0 then snd <$> setbuiltin p x else Some x);
    b ← strncmp p (cstring "_get") 4;
    x ← (if b =? 0 then snd <$> getbuiltin p x else Some x); Some x)).
  assert (∀ s, 0 ∈ cstring s) as Hc by (intros s; unfold cstring; set_solver).
  destruct (strncmp_some p (cstring "_set") 4 Hp (Hc _)) as [a Ha]. rewrite Ha. cbn [mbind option_bind].
  assert (∃ x1, (if a =? 0 then snd <$> setbuiltin p x else Some x) = Some x1) as [x1 ->].
  { destruct (Z.eqb_spec a 0) as [-> |_]; [|eauto]. destruct (setbuiltin_some p x) as [[r y] ->]; [|by eexists].
    eapply strncmp_drop_l, Ha; [done|by repeat constructor|cbn; lia]. }
  cbn [mbind option_bind].
  destruct (strncmp_some p (cstring "_get") 4 Hp (Hc _)) as [b Hb]. rewrite Hb. cbn [mbind option_bind].
  destruct (Z.eqb_spec b 0) as [-> |_]; [|by eexists]. destruct (getbuiltin_some p x1) as [[r y] ->]; [|by eexists].
  eapply strncmp_drop_l, Hb; [done|by repeat constructor|cbn; lia].
Qed.

(** ** Reading the input *)

Definition pad (l : list Z) : list Z := l ++ [0] ++ replicate (BUF - length l - 1) 0.

Lemma gets_loop_split room input l rest :
  gets_loop room input = (l, rest) → (length l ≤ room)%nat ∧ input = l ++ rest.
Proof.
  revert input l rest. induction room as [|room IH]; intros [|c inp] l r; cbn [gets_loop];
    try (by intros [= <- <-]; split; [cbn; lia|]).
  destruct ((c =? 10) || (c =? 13)); [intros [= <- <-]; split; [cbn; lia|done]|].
  destruct (gets_loop room inp) as [l1 r1] eqn:E1. intros [= <- <-]. apply IH in E1 as [? ->].
  split; [cbn; lia|done].
Qed.

Lemma getcmd_spec input : ∃ l rest, input = l ++ rest ∧ (length l < BUF)%nat ∧
  gets_loop (BUF - 1) input = (l, rest) ∧
  getcmd input = (if at_ (pad l) 0 =? 0 then -1 else 0, pad l, rest).
Proof.
  unfold getcmd, ugets. change (Z.to_nat (Z.of_nat BUF - 1)) with (BUF - 1)%nat.
  destruct (gets_loop (BUF - 1) input) as [l rest] eqn:E. pose proof (gets_loop_split _ _ _ _ E) as [Hl Hi].
  exists l, rest. split; [done|]. split; [unfold BUF in *; lia|]. split; [done|].
  assert ((l ++ [0]) ++ replicate (BUF - length (l ++ [0])) 0 = pad l) as ->; [|done].
  unfold pad. rewrite <- app_assoc, length_app. cbn [length]. do 3 f_equal. lia.
Qed.

Lemma pad_zero l : 0 ∈ pad l.
Proof. unfold pad. set_solver. Qed.

Lemma gets_line room l rest :
  Forall (λ c, c ≠ 10 ∧ c ≠ 13) l → (length l < room)%nat → gets_loop room (l ++ 10 :: rest) = (l ++ [10], rest).
Proof.
  intros Hl. revert room. induction Hl as [|c l [H1 H2] Hl IH]; intros [|room] Hr; cbn [length] in Hr; try lia; [done|].
  cbn [app gets_loop]. replace ((c =? 10) || (c =? 13)) with false by lia. rewrite IH by lia. done.
Qed.

(** ** Setting the ids *)

Lemma makeint_atoi val p : makeint_loop val p = atoi_loop val p.
Proof.
  revert val. induction p as [|c p IH]; intros val; [done|]. cbn. rewrite IH.
  by replace (10 * val + (c - 48)) with (val * 10 + c - 48) by lia.
Qed.

(** [_set uid n] gives the shell the user id [n] and changes nothing else. *)
Theorem set_uid n x :
  0 ≤ n < 2 ^ 31 →
  dobuiltin (chars "_set uid " ++ uprintint n 10 true ++ cstring "") x = Some (Ids n (id_gid x) (id_err x)).
Proof.
  intros Hn. pose proof (atoi_uprintint n [] Hn) as Ha.
  set (p := uprintint n 10 true ++ [0]) in *.
  assert (chomp (32 :: p) = Some p) as Hc.
  { rewrite chomp_cons. cbn [Z.eqb Pos.eqb]. unfold p in *. destruct (uprintint n 10 true) as [|c r] eqn:E; [done|].
    cbn [app] in *. rewrite chomp_cons. destruct (Z.eqb_spec c 32) as [->|]; [|done].
    cbn in Ha. injection Ha as <-. by vm_compute in E. }
  change (chars "_set uid " ++ uprintint n 10 true ++ cstring "") with (chars "_set uid" ++ 32 :: p).
  unfold dobuiltin, fdt. cbn [dobuiltin_loop].
  assert (setbuiltin (chars "_set uid" ++ 32 :: p) x = Some (0, Ids n (id_gid x) (id_err x))) as Hs.
  { unfold setbuiltin. change (chomp (drop 4 (chars "_set uid" ++ 32 :: p))) with (Some (chars "uid" ++ 32 :: p)).
    cbn [mbind option_bind]. change (sh_strncmp (cstring "uid") (chars "uid" ++ 32 :: p) 3) with (Some 0).
    cbn [mbind option_bind Z.eqb]. change (drop 3 (chars "uid" ++ 32 :: p)) with (32 :: p). rewrite Hc.
    cbn [mbind option_bind]. unfold makeint. rewrite makeint_atoi. unfold atoi in Ha. rewrite Ha. cbn [mbind option_bind].
    by rewrite u32_small by lia. }
  change (sh_strncmp (chars "_set uid" ++ 32 :: p) (cstring "_set") (length (cstring "_set") - 1)) with (Some 0).
  cbn [mbind option_bind Z.eqb]. rewrite Hs. done.
Qed.

(** ** Descriptors *)

(** With room for a descriptor beyond the first three and a console to open, the
    shell starts with the first three open. *)
Theorem open_console_three opens a b c t :
  opens (chars "console") O_RDWR = true →
  None ∈ t → ∃ a' b' c', open_console opens 4 (a :: b :: c :: t) = Some (Some a' :: Some b' :: Some c' :: t).
Proof.
  intros Hopen Hfree. assert (∃ k, lowest t = Some k ∧ <[k := None]> t = t) as (k & Hk & Ht).
  { induction t as [|o t IH]; [by apply elem_of_nil in Hfree|]. destruct o as [o|]; [|by exists 0%nat].
    destruct IH as (k & Hk & Ht); [set_solver|]. exists (S k). cbn. rewrite Hk. split; [done|]. change (Some o :: <[k := None]> t = Some o :: t). by rewrite Ht. }
  assert (∀ n a b c, open_console opens (S n) (Some a :: Some b :: Some c :: t) = Some (Some a :: Some b :: Some c :: t)) as Hend.
  { intros n x y z. cbn [open_console]. unfold open, alloc. rewrite Hopen.
    assert (lowest (Some x :: Some y :: Some z :: t) = Some (S (S (S k)))) as -> by (cbn; by rewrite Hk).
    cbn [fmap option_fmap option_map]. change (3 <=? S (S (S k)))%nat with true. cbv iota. unfold close.
    etransitivity; [apply f_equal, (list_insert_insert_eq (Some x :: Some y :: Some z :: t))|]. change (Some (Some x :: Some y :: Some z :: <[k := None]> t) = Some (Some x :: Some y :: Some z :: t)).
    by rewrite Ht. }
  assert (∀ n t, open_console opens (S n) t = match alloc (Opened (chars "console") O_RDWR) t with None => Some t
    | Some (fd, t) => if (3 <=? fd)%nat then Some (close fd t) else open_console opens n t end) as Hround.
  { intros n u. cbn [open_console]. unfold open. by rewrite Hopen. }
  destruct a as [a|]; destruct b as [b|]; destruct c as [c|]; eexists _, _, _;
    first [ apply Hend
          | rewrite Hround; etransitivity; [|apply (Hend 2%nat)]; reflexivity
          | rewrite Hround; etransitivity; [apply Hround|]; etransitivity; [|apply (Hend 1%nat)]; reflexivity
          | rewrite Hround; etransitivity; [apply Hround|]; etransitivity; [apply Hround|]; apply (Hend 0%nat) ].
Qed.
