(* ===== verification/ShSession.v ===== *)
(** * The shell: sessions

    The loop of the shell composed from its parts: reading a line, parsing it and
    running the command. *)
From S2P Require Import Prelude Str Digits Ulib Sh ShFacts ShShow ShLine ShRun ShMain.

Section total.
Context (opens : list Z → Z → bool) (pipes forks : nat → bool).

Lemma alloc_full o t : lowest t = None → alloc o t = None.
Proof. unfold alloc. by intros ->. Qed.
Lemma alloc_at o t k : lowest t = Some k → alloc o t = Some (k, <[k := Some o]> t).
Proof. unfold alloc. by intros ->. Qed.

(** Every round but the last one fills one of the first three descriptors. *)
Fixpoint missing (k : nat) (t : fds) : nat :=
  match k, t with
  | S k', None :: t' => S (missing k' t')
  | S k', Some _ :: t' => missing k' t'
  | _, _ => 0
  end.

Lemma missing_less o k t j : lowest t = Some j → (j < k)%nat → (missing k (<[j := Some o]> t) < missing k t)%nat.
Proof.
  revert k j. induction t as [|[x|] t IH]; intros [|k] j Hj Hk; try done; try lia; cbn in Hj.
  - destruct (lowest t) as [j'|]; [|done]. injection Hj as <-. cbn. apply IH; [done|lia].
  - injection Hj as <-. cbn. lia.
Qed.

Lemma open_console_some n t : (missing 3 t < n)%nat → is_Some (open_console opens n t).
Proof.
  revert t. induction n as [|n IH]; intros t Hn; [lia|]. cbn [open_console]. unfold open.
  destruct (opens _ _); [|by eexists]. destruct (lowest t) as [k|] eqn:E; [rewrite (alloc_at _ _ k E)|rewrite alloc_full by done; by eexists].
  destruct (3 <=? k)%nat eqn:Ek; [by eexists|]. apply Nat.leb_gt in Ek. apply IH.
  pose proof (missing_less (Opened (chars "console") O_RDWR) 3 t k E Ek). lia.
Qed.

Lemma missing_le k t : (missing k t ≤ k)%nat.
Proof. revert t. induction k as [|k IH]; intros [|[x|] t]; cbn; try lia; specialize (IH t); lia. Qed.

(** C39: The shell deals with every input, whatever the kernel answers: the
    loop that opens the console and the loop over the lines end, and no built-in
    command reads past the end of the line buffer. *)
Theorem sh_main_total t input x w :
  is_Some (sh_main opens pipes forks (S (length input)) t input x w).
Proof.
  assert (∀ n t input x w, (length input < n)%nat → is_Some (sh_loop opens pipes forks n t input x w)) as H.
  { clear. induction n as [|n IH]; intros t input x w Hn; [lia|]. cbn [sh_loop].
    destruct (getcmd_spec input) as (l & rest & -> & Hl & _ & ->). rewrite length_app in Hn.
    destruct (Z.eqb_spec (at_ (pad l) 0) 0) as [|H0]; [eexists; reflexivity|]. cbn [Z.ltb Z.compare].
    assert (length l ≠ 0)%nat as Hne by (intros ?; by destruct l).
    assert (∀ x w, is_Some (sh_loop opens pipes forks n t rest x w)) as IH' by (intros; apply IH; lia).
    destruct (do_line (pad l)) as [path|buf|buf] eqn:Ed.
    - destruct (IH' x w) as [[[a y] z] ->]. eexists; reflexivity.
    - assert (0 ∈ buf) as Hbuf by (unfold do_line in Ed; repeat case_match; simplify_eq; apply pad_zero).
      destruct (dobuiltin_some buf x Hbuf) as [y ->]. cbn [mbind option_bind].
      destruct (IH' y w) as [[[a z] v] ->]. eexists; reflexivity.
    - destruct (forks (nforks w)); [|eexists; reflexivity].
      destruct (spawn opens pipes forks t buf (forked w)) as [child w1].
      destruct (IH' x w1) as [[[a z] v] ->]. eexists; reflexivity. }
  unfold sh_main. destruct (open_console_some 4 t) as [t' ->]; [pose proof (missing_le 3 t); lia|]. apply H. lia.
Qed.
End total.

(** ** A session of typed commands *)

(** What the user types for the lines. *)
Definition typed (ls : list (list Z)) : list Z := mjoin ((λ l, l ++ [10]) <$> ls).

(** A text that is not one of the shell's own commands and fits its buffer. *)
Definition external (l : list Z) : Prop :=
  (length l ≤ 98)%nat ∧ at_ l 0 ≠ 95 ∧ take 3 l ≠ chars "cd ".

(** What the shell does for a sequence of commands: for each it prompts, forks a
    child that does what is planned for the command, and waits. *)
Fixpoint handled (opens : list Z → Z → bool) (i o e : obj) (cs : list (cmd (list Z))) (n : nat) : list action :=
  match cs with
  | [] => [Prompt]
  | c :: cs =>
      let '(a, m) := plan opens e c i o n in
      Prompt :: Spawn (pad (show 0 c ++ [10])) a :: Await (std i o e) :: handled opens i o e cs m
  end.

(** The programs the shell's children start. *)
Definition children (a : action) : list (list (list Z) * fds) :=
  match a with Spawn _ child => flat_map started child | _ => [] end.

(** The programs of a sequence of commands. *)
Fixpoint meanings (opens : list Z → Z → bool) (cs : list (cmd (list Z))) (i o : obj) (n : nat) :
    list (list (list Z) * obj * obj) :=
  match cs with
  | [] => []
  | c :: cs => let '(a, m) := meaning opens c i o n in a ++ meanings opens cs i o m
  end.

Section session.
Context (opens : list Z → Z → bool) (pipes forks : nat → bool).
Hypothesis pipes_ok : ∀ n, pipes n = true.
Hypothesis forks_ok : ∀ n, forks n = true.

Lemma str_of_pad l : 0 ∉ l → str_of (pad l) = l.
Proof. intros H0. apply str_of_app_zero. apply Forall_forall. by intros c Hc ->. Qed.

Lemma at_pad l i : (i < length l)%nat → at_ (pad l) i = at_ l i.
Proof. intros Hi. unfold at_, pad. by rewrite lookup_app_l. Qed.

Lemma do_line_external l : external l → do_line (pad (l ++ [10])) = Cmd (pad (l ++ [10])).
Proof.
  intros (_ & H95 & Hcd). unfold do_line. destruct l as [|a [|b [|c l]]].
  - done.
  - unfold at_ in *. cbn in *. rewrite (proj2 (Z.eqb_neq _ _) H95). by destruct (a =? 99).
  - unfold at_ in *. cbn in *. rewrite (proj2 (Z.eqb_neq _ _) H95). by destruct (a =? 99), (b =? 100).
  - rewrite !at_pad by (cbn; lia). unfold at_ in *. cbn in *. rewrite (proj2 (Z.eqb_neq _ _) H95).
    destruct (Z.eqb_spec a 99) as [->|], (Z.eqb_spec b 100) as [->|], (Z.eqb_spec c 32) as [->|]; try done.
Qed.

Lemma spawn_show c i o e w :
  plain_cmd c →
  let r := spawn opens pipes forks (std i o e) (pad (show 0 c ++ [10])) w in
  r.1 = (plan opens e c i o (npipes w)).1 ∧ npipes r.2 = (plan opens e c i o (npipes w)).2.
Proof.
  intros Hc. unfold spawn. rewrite str_of_pad.
  - destruct (parse_text c [10] Hc (or_intror eq_refl)) as (c' & buf & -> & ->). apply runcmd_wires; [done|done|apply Hc].
  - pose proof (show_nonzero 0 c (proj2 Hc)). set_solver.
Qed.

Lemma handled_programs i o e cs : ∀ n,
  flat_map children (handled opens i o e cs n) = with_std e <$> meanings opens cs i o n.
Proof.
  induction cs as [|c cs IH]; intros n; [done|]. cbn [handled meanings].
  destruct (plan_meaning opens e c i o n) as [Hl Hn].
  destruct (plan opens e c i o n) as [a m], (meaning opens c i o n) as [a' m']. cbn [fst snd] in Hl, Hn. subst m'.
  cbn [flat_map children app]. by rewrite Hl, IH, fmap_app.
Qed.

Lemma open_console_std i o e : open_console opens 4 (std i o e) = Some (std i o e).
Proof. cbn [open_console]. unfold open. by destruct (opens _ _). Qed.

(** The line of a command is read whole and is a command to run. *)
Lemma getcmd_show c rest :
  plain_cmd c → external (show 0 c) →
  getcmd (show 0 c ++ 10 :: rest) = (0, pad (show 0 c ++ [10]), rest).
Proof.
  intros Hc He. set (l := show 0 c) in *.
  destruct (getcmd_spec (l ++ 10 :: rest)) as (l1 & r1 & _ & _ & Hg & ->).
  rewrite gets_line in Hg; [|apply Forall_forall; intros y Hy; split; intros ->|unfold BUF; destruct He; lia].
  2:{ revert Hy. apply show_without; [by right|mem|apply Hc]. }
  2:{ revert Hy. apply show_without; [by right|mem|apply Hc]. }
  injection Hg as <- <-.
  assert (at_ (pad (l ++ [10])) 0 ≠ 0) as H0; [|by rewrite (proj2 (Z.eqb_neq _ _) H0)].
  destruct l as [|y l0] eqn:El; [done|]. pose proof (show_nonzero 0 c (proj2 Hc)) as Hz. fold l in Hz. rewrite El in Hz.
  rewrite at_pad by (cbn; lia). unfold at_. cbn. set_solver.
Qed.

End session.

