(* ===== verification/Mkfs.v ===== *)
(** * Building the first file system (mkfs.c)

    The image is the list of its blocks.  A disk inode is the part of the
    kernel's [inode] that lives on disk, and is stored and read with the functions
    of Fs.v; [xint] and [xshort] put the bytes of a number in the order the disk
    has, which [le_bytes] does here.  [Panic] is a failed assertion, or an error
    of the host's files that ends the program.  A file given to the program is its
    name and the pieces in which [read] delivers it. *)
From S2P Require Import Prelude Spinlock Str Ptable PtableLists Sched Services BioRing Bio DiskFmt Log Fs.

Definition NINODES : Z := 200.
Definition nbitmap : Z := FSSIZE / (Z.of_nat BSIZE * 8) + 1.
Definition ninodeblocks : Z := NINODES / IPB + 1.
Definition nlog : Z := LOGSIZE.
Definition nmeta : Z := 2 + nlog + ninodeblocks + nbitmap.
Definition nblocks : Z := FSSIZE - nmeta.

Definition sb : superblock :=
  Superblock FSSIZE nblocks NINODES nlog 2 (2 + nlog) (2 + nlog + ninodeblocks).
Definition sb_bytes : list Z :=
  concat (le_bytes 4 <$> [sb_size sb; sb_nblocks sb; sb_ninodes sb; sb_nlog sb; sb_logstart sb; sb_inodestart sb; sb_bmapstart sb]).

Record mkst := Mk { img : list (list Z); freeinode : Z; freeblock : Z }.
Definition zeroes : list Z := replicate BSIZE 0.

(** The byte offset [sec * BSIZE] is computed in 32 bits. *)
Definition sector (sec : Z) : nat := Z.to_nat (u32 (sec * Z.of_nat BSIZE) / Z.of_nat BSIZE).

(** Writing past the end extends the image; the gap reads as zeroes. *)
Definition wsect (sec : Z) (buf : list Z) : K mkst unit :=
  modify (λ s, let n := sector sec in
    Mk (<[n := buf]> (img s ++ replicate (S n - length (img s)) zeroes)) (freeinode s) (freeblock s)).

Definition rsect (sec : Z) : K mkst (list Z) :=
  s ← get;
  match img s !! sector sec with Some d => mret d | None => panic "read" end.

Definition winode (inum : Z) (ip : inode) : K mkst unit :=
  let bn := IBLOCK inum sb in
  buf ← rsect bn;
  wsect bn (splice buf (dinode_off inum) (dinode_bytes ip)).

(** The part of [struct inode] that is not on disk plays no role. *)
Definition blank : inode := Inode 0 0 0 0 0 0 0 0 0 (replicate 13 0).

Definition rinode (inum : Z) : K mkst inode :=
  buf ← rsect (IBLOCK inum sb);
  deref (dinode_fill buf (dinode_off inum) blank).

Definition ialloc (type : Z) : K mkst Z :=
  inum ← gets freeinode;
  modify (λ s, Mk (img s) (u32 (freeinode s + 1)) (freeblock s));;
  winode inum (set_i_nlink 1 (set_i_type type blank));;
  mret inum.

Definition set_bit (buf : list Z) (i : Z) : list Z :=
  alter (λ c, Z.lor c (Z.shiftl 1 (i `mod` 8))) (Z.to_nat (i / 8)) buf.
Definition balloc (used : Z) : K mkst unit :=
  if negb (used <? Z.of_nat BSIZE * 8) then panic "used < BSIZE*8"
  else wsect (sb_bmapstart sb) (foldl (λ b i, set_bit b (Z.of_nat i)) zeroes (seq 0 (Z.to_nat used))).

(** [freeblock++] *)
Definition next_block : K mkst Z :=
  b ← gets freeblock;
  modify (λ s, Mk (img s) (freeinode s) (u32 (freeblock s + 1)));;
  mret b.

(** The block that holds block [fbn] of the file, taken from the free ones when
    there is none yet. *)
Definition file_block (din : inode) (fbn : Z) : K mkst (inode * Z) :=
  if fbn <? NDIRECT then
    a ← deref (i_addrs din !! Z.to_nat fbn);
    if a =? 0 then
      b ← next_block;
      mret (set_i_addrs (<[Z.to_nat fbn := b]> (i_addrs din)) din, b)
    else mret (din, a)
  else
    a ← deref (i_addrs din !! Z.to_nat NDIRECT);
    r ← (if a =? 0 then
           b ← next_block;
           mret (set_i_addrs (<[Z.to_nat NDIRECT := b]> (i_addrs din)) din, b)
         else mret (din, a));
    let '(din, ind) := r in
    indirect ← rsect ind;
    let k := (4 * Z.to_nat (fbn - NDIRECT))%nat in
    x ← deref (get32 indirect k);
    if x =? 0 then
      b ← next_block;
      indirect ← deref (put32 indirect k b);
      wsect ind indirect;;
      mret (din, b)
    else mret (din, x).

(** A round of the loop of [iappend]: the inode, the offset and what is left of
    the data. *)
Definition append_step (st : inode * Z * list Z) : K mkst (inode * Z * list Z + inode * Z * list Z) :=
  let '(din, off, p) := st in
  match p with
  | [] => mret (inr st)
  | _ =>
      let fbn := off / Z.of_nat BSIZE in
      if negb (fbn <? MAXFILE) then panic "fbn < MAXFILE"
      else
        r ← file_block din fbn;
        let '(din, x) := r in
        let n1 := Z.min (Z.of_nat (length p)) ((fbn + 1) * Z.of_nat BSIZE - off) in
        buf ← rsect x;
        wsect x (splice buf (Z.to_nat (off - fbn * Z.of_nat BSIZE)) (take (Z.to_nat n1) p));;
        mret (inl (din, off + n1, drop (Z.to_nat n1) p))
  end.

Definition iappend (inum : Z) (xp : list Z) : K mkst unit :=
  din ← rinode inum;
  r ← while (S (length xp)) append_step (din, i_size din, xp);
  let '(din, off, _) := r in
  winode inum (set_i_size off din).

Definition dirent_bytes (inum : Z) (name : list Z) : list Z :=
  le_bytes 2 inum ++ take DIRSIZ (name ++ replicate DIRSIZ 0).

(** One file of the command line. *)
Definition add_file (rootino : Z) (file : list Z * list (list Z)) : K mkst unit :=
  let '(arg, pieces) := file in
  if bool_decide (47 ∈ arg) then panic "index(argv[i], '/') == 0"
  else
    let name := match arg with 95 :: name => name | _ => arg end in
    inum ← ialloc T_FILE;
    iappend rootino (dirent_bytes inum name);;
    for_each pieces (λ buf, iappend inum buf).

Definition mkfs_main (files : list (list Z * list (list Z))) : K mkst unit :=
  for_each (seq 0 (Z.to_nat FSSIZE)) (λ i, wsect (Z.of_nat i) zeroes);;
  wsect 1 (splice zeroes 0 sb_bytes);;
  rootino ← ialloc T_DIR;
  panic_if (negb (rootino =? ROOTINO)) "rootino == ROOTINO";;
  iappend rootino (dirent_bytes rootino (chars "."));;
  iappend rootino (dirent_bytes rootino (chars ".."));;
  for_each files (add_file rootino);;
  din ← rinode rootino;
  let off := i_size din in
  let off := u32 ((off / Z.of_nat BSIZE + 1) * Z.of_nat BSIZE) in
  winode rootino (set_i_size off din);;
  used ← gets freeblock;
  balloc used.

(** The program starts with an empty image. *)
Definition mkfs (files : list (list Z * list (list Z))) : outcome mkst unit := mkfs_main files (Mk [] 1 nmeta).
