(* ===== verification/MkfsFacts.v ===== *)
(** * Building the first file system: the invariant of the image

    A file of the image is described by the blocks it owns and its content.
    [store] says that the blocks of the image hold the contents of the files and
    that no two files share a block; appending to a file keeps it. *)
From S2P Require Import Prelude Spinlock Str Ptable PtableLists Sched Services BioRing Bio DiskFmt Log Fs FsProps Mkfs.

#[local] Notation BS := (Z.of_nat BSIZE).

(** ** Blocks of words *)

Definition wblock (ws : list Z) : list Z := concat (le_bytes 4 <$> ws).

Lemma wblock_length ws : length (wblock ws) = (4 * length ws)%nat.
Proof. apply length_concat_bytes. Qed.

Lemma wblock_get ws k w : ws !! k = Some w → 0 ≤ w < 2 ^ 32 → get32 (wblock ws) (4 * k) = Some w.
Proof.
  intros Hk Hw. pose proof (lookup_lt_Some _ _ _ Hk).
  pose proof (getn_array 4 (wblock ws) [] ws k w) as Hg. cbn [length app Nat.add] in Hg.
  rewrite wblock_length in Hg. specialize (Hg ltac:(lia) Hk). fold (wblock ws) in Hg.
  assert (splice (wblock ws) 0 (wblock ws) = wblock ws) as Hs.
  { unfold splice. rewrite take_0, drop_ge, app_nil_r by lia. done. }
  rewrite Hs in Hg. unfold get32. rewrite Hg. f_equal. change (256 ^ Z.of_nat 4) with (2 ^ 32). by apply Z.mod_small.
Qed.

Lemma wblock_app a b : wblock (a ++ b) = wblock a ++ wblock b.
Proof. unfold wblock. by rewrite fmap_app, concat_app. Qed.

Lemma wblock_put ws k w : (k < length ws)%nat → put32 (wblock ws) (4 * k) w = Some (wblock (<[k := w]> ws)).
Proof.
  intros Hk. unfold put32, putn. rewrite wblock_length, (proj2 (Nat.leb_le _ _)) by lia. f_equal.
  destruct (lookup_lt_is_Some_2 ws k Hk) as [x Hx]. apply list_elem_of_split_length in Hx as (l1 & l2 & -> & ->).
  rewrite insert_app_r_alt, Nat.sub_diag by lia. change (<[0%nat := w]> (x :: l2)) with ([w] ++ l2).
  change (x :: l2) with ([x] ++ l2). rewrite !wblock_app. unfold splice.
  replace (4 * length l1)%nat with (length (wblock l1)) by apply wblock_length.
  rewrite take_app_length, length_le_bytes. f_equal. change (wblock [w]) with (le_bytes 4 w ++ []). rewrite app_nil_r. f_equal.
  rewrite app_assoc. apply drop_app_length'. by rewrite length_app, !wblock_length.
Qed.

(** ** Files of the image *)

Definition blk (D : list (list Z)) (b : Z) : list Z := default [] (D !! Z.to_nat b).

Lemma blk_insert D x d b :
  0 ≤ x < Z.of_nat (length D) → 0 ≤ b → blk (<[Z.to_nat x := d]> D) b = if decide (b = x) then d else blk D b.
Proof.
  intros Hx Hb. unfold blk. case_decide as E.
  - subst. by rewrite list_lookup_insert_eq by lia.
  - rewrite list_lookup_insert_ne by lia. done.
Qed.

(** The type, the data blocks in order, the indirect block or 0, and the
    content. *)
Record finfo := Finfo { g_type : Z; g_blocks : list Z; g_ind : Z; g_data : list Z }.

Definition addrs (g : finfo) : list Z :=
  take 12 (g_blocks g) ++ replicate (12 - length (g_blocks g)) 0 ++ [g_ind g].
Definition owned (g : finfo) : list Z := (if g_ind g =? 0 then [] else [g_ind g]) ++ g_blocks g.
(** The words of the indirect block. *)
Definition ind_words (bs : list Z) : list Z := drop 12 bs ++ replicate (140 - length bs) 0.

Record placed (D : list (list Z)) (g : finfo) : Prop := Placed {
  pl_max : (length (g_blocks g) ≤ 140)%nat;
  pl_dir : (length (g_blocks g) ≤ 12)%nat → g_ind g = 0;
  pl_ind : (12 < length (g_blocks g))%nat → g_ind g ≠ 0 ∧ blk D (g_ind g) = wblock (ind_words (g_blocks g));
  pl_data : take (length (g_data g)) (concat (blk D <$> g_blocks g)) = g_data g;
  pl_nodup : NoDup (owned g)
}.

Record store (D : list (list Z)) (fb : Z) (G : list finfo) : Prop := Store {
  so_len : length D = Z.to_nat FSSIZE;
  so_blk : ∀ n d, D !! n = Some d → length d = BSIZE;
  so_fb : nmeta ≤ fb ≤ FSSIZE;
  so_placed : ∀ k g, G !! k = Some g → placed D g;
  so_own : ∀ k g b, G !! k = Some g → b ∈ owned g → nmeta ≤ b < fb;
  so_dis : ∀ j k g h b, G !! j = Some g → G !! k = Some h → b ∈ owned g → b ∈ owned h → j = k;
  so_free : ∀ b, fb ≤ b < FSSIZE → blk D b = zeroes
}.

(** The file has just the blocks its content needs. *)
Definition filled (g : finfo) : Prop := length (g_blocks g) = ((length (g_data g) + 511) / 512)%nat.

Lemma nmeta_59 : nmeta = 59.
Proof. done. Qed.

Lemma placed_frame D D' g : placed D g → (∀ b, b ∈ owned g → blk D' b = blk D b) → placed D' g.
Proof.
  intros [H1 H2 H3 H4 H5] Hf. split; [done|done| | |done].
  - intros Hl. destruct (H3 Hl) as [Hi Hb]. split; [done|]. rewrite Hf; [done|]. unfold owned.
    rewrite (proj2 (Z.eqb_neq _ _) Hi). set_solver.
  - rewrite <- H4 at 2. f_equal. f_equal. apply list_fmap_ext. intros i b Hb%list_elem_of_lookup_2. apply Hf.
    unfold owned. set_solver.
Qed.

(** One file changes, together with its own blocks and fresh ones. *)
Lemma store_update D fb G k g D1 fb1 g1 :
  store D fb G → G !! k = Some g → placed D1 g1 → fb ≤ fb1 ≤ FSSIZE →
  (∀ b, b ∈ owned g1 → b ∈ owned g ∨ fb ≤ b < fb1) →
  (∀ b, 0 ≤ b → b ∉ owned g1 → blk D1 b = blk D b) →
  length D1 = length D → (∀ n d, D1 !! n = Some d → length d = BSIZE) →
  store D1 fb1 (<[k := g1]> G).
Proof.
  intros S Hk Hp Hfb Hown Hsame Hlen Hblk. pose proof (so_fb _ _ _ S) as Hf. rewrite nmeta_59 in *.
  assert (∀ b, b ∈ owned g1 → 59 ≤ b < fb1) as Hr.
  { intros b [Hb|Hb]%Hown; [|lia]. pose proof (so_own _ _ _ S k g b Hk Hb) as Ho. rewrite nmeta_59 in Ho. lia. }
  assert (∀ j h b, j ≠ k → G !! j = Some h → b ∈ owned h → b ∉ owned g1) as Hdis.
  { intros j h b Hj Hh Hb [Hg|Hg]%Hown; [by apply Hj, (so_dis _ _ _ S j k h g b)|].
    pose proof (so_own _ _ _ S j h b Hh Hb). lia. }
  split.
  - by rewrite Hlen, (so_len _ _ _ S).
  - done.
  - rewrite nmeta_59. lia.
  - intros j h [(<- & <- & _)|[Hj Hh]]%list_lookup_insert_Some; [done|].
    eapply placed_frame; [by eapply (so_placed _ _ _ S)|]. intros b Hb. apply Hsame; [|by eapply Hdis].
    pose proof (so_own _ _ _ S j h b Hh Hb) as Ho. rewrite nmeta_59 in Ho. lia.
  - rewrite nmeta_59. intros j h b [(<- & <- & _)|[Hj Hh]]%list_lookup_insert_Some Hb; [by apply Hr|].
    pose proof (so_own _ _ _ S j h b Hh Hb) as Ho. rewrite nmeta_59 in Ho. lia.
  - intros i j h h' b [(<- & <- & _)|[Hi Hh]]%list_lookup_insert_Some [(<- & <- & _)|[Hj Hh']]%list_lookup_insert_Some Hb Hb';
      [done|by destruct (Hdis j h' b)|by destruct (Hdis i h b)|by eapply (so_dis _ _ _ S)].
  - intros b Hb. rewrite Hsame; [apply (so_free _ _ _ S); lia|lia|]. intros Hin%Hr. lia.
Qed.

(** ** Sectors *)

Lemma sector_small x : 0 ≤ x < FSSIZE → sector x = Z.to_nat x.
Proof.
  intros Hx. unfold sector, FSSIZE, BSIZE in *. rewrite u32_small by lia. by rewrite Z.div_mul by lia.
Qed.

Lemma wsect_ok D fi fb x d :
  length D = Z.to_nat FSSIZE → 0 ≤ x < FSSIZE →
  wsect x d (Mk D fi fb) = Ok tt (Mk (<[Z.to_nat x := d]> D) fi fb).
Proof.
  intros Hl Hx. unfold wsect. rewrite modify_ok. cbn [img freeinode freeblock]. rewrite sector_small by done.
  replace (S (Z.to_nat x) - length D)%nat with 0%nat by lia. by rewrite app_nil_r.
Qed.

Lemma rsect_ok D fi fb x :
  length D = Z.to_nat FSSIZE → 0 ≤ x < FSSIZE → rsect x (Mk D fi fb) = Ok (blk D x) (Mk D fi fb).
Proof.
  intros Hl Hx. unfold rsect. rewrite (bind_ok get _ _ _ _ eq_refl). cbn [img]. rewrite sector_small by done.
  unfold blk. destruct (lookup_lt_is_Some_2 D (Z.to_nat x)) as [d ->]; [lia|done].
Qed.

Lemma next_block_ok D fi fb : 0 ≤ fb < FSSIZE → next_block (Mk D fi fb) = Ok fb (Mk D fi (fb + 1)).
Proof.
  intros Hf. unfold next_block. rewrite (bind_ok _ _ _ _ _ (gets_ok _ _)), (bind_ok _ _ _ _ _ (modify_ok _ _)).
  cbn. unfold FSSIZE in Hf. by rewrite u32_small by lia.
Qed.

Lemma blk_length D b : (∀ n d, D !! n = Some d → length d = BSIZE) → 0 ≤ b < Z.of_nat (length D) → length (blk D b) = BSIZE.
Proof.
  intros HD Hb. unfold blk. destruct (lookup_lt_is_Some_2 D (Z.to_nat b)) as [d Hd]; [lia|]. rewrite Hd. by eapply HD.
Qed.

Lemma insert_blocks (D : list (list Z)) (n : nat) (d : list Z) : (∀ n d, D !! n = Some d → length d = BSIZE) → length d = BSIZE →
  ∀ m e, <[n := d]> D !! m = Some e → length e = BSIZE.
Proof. intros HD Hd m e [(_ & <- & _)|[_ He]]%list_lookup_insert_Some; [done|by eapply HD]. Qed.

Lemma concat_blocks D bs :
  (∀ b, b ∈ bs → length (blk D b) = BSIZE) → length (concat (blk D <$> bs)) = (512 * length bs)%nat.
Proof.
  induction bs as [|b bs IH]; intros Hb; [done|]. cbn [fmap list_fmap concat length]. rewrite length_app, Hb by set_solver.
  rewrite IH by set_solver. unfold BSIZE. lia.
Qed.

(** ** A new block for a file *)

(** The file with one more block, and with an indirect block where it needs
    one. *)
Definition grow (g : finfo) (fb : Z) : finfo :=
  if decide (length (g_blocks g) = 12)%nat then Finfo (g_type g) (g_blocks g ++ [fb + 1]) fb (g_data g)
  else Finfo (g_type g) (g_blocks g ++ [fb]) (g_ind g) (g_data g).
Definition grow_blocks (g : finfo) : Z := if decide (length (g_blocks g) = 12)%nat then 2 else 1.

Lemma grow_owned g fb b : b ∈ owned (grow g fb) → b ∈ owned g ∨ fb ≤ b < fb + grow_blocks g.
Proof.
  unfold grow, grow_blocks, owned. case_decide; cbn [g_ind g_blocks].
  - destruct (fb =? 0); rewrite ?elem_of_app, ?list_elem_of_singleton; intros; destruct_or?; auto; right; lia || (set_solver by lia).
  - rewrite !elem_of_app, list_elem_of_singleton. intros; destruct_or?; auto. right. lia.
Qed.

Lemma addrs_direct g k b : (k < 12)%nat → g_blocks g !! k = Some b → addrs g !! k = Some b.
Proof.
  intros Hk Hb. unfold addrs. rewrite lookup_app_l; [by rewrite lookup_take_lt|].
  rewrite length_take. apply lookup_lt_Some in Hb. lia.
Qed.

Lemma addrs_unused g k : (length (g_blocks g) ≤ k < 12)%nat → addrs g !! k = Some 0.
Proof.
  intros Hk. unfold addrs. rewrite lookup_app_r; rewrite length_take; [|lia].
  rewrite lookup_app_l by (rewrite length_replicate; lia). apply lookup_replicate_2. lia.
Qed.

Lemma addrs_ind g : (length (g_blocks g) ≤ 140)%nat → addrs g !! 12%nat = Some (g_ind g) ∧ length (addrs g) = 13%nat.
Proof.
  intros Hm. unfold addrs. split.
  - rewrite !lookup_app_r; rewrite ?length_take, ?length_replicate; try lia.
    replace (12 - _ - _)%nat with 0%nat by lia. done.
  - rewrite !length_app, length_take, length_replicate. cbn [length]. lia.
Qed.

Lemma addrs_snoc t bs i c b : (length bs < 12)%nat →
  <[length bs := b]> (addrs (Finfo t bs i c)) = addrs (Finfo t (bs ++ [b]) i c).
Proof.
  intros Hl. unfold addrs. cbn [g_blocks g_ind]. rewrite !take_ge by (rewrite ?length_app; cbn; lia).
  rewrite insert_app_r_alt, Nat.sub_diag by lia. rewrite length_app. cbn [length].
  replace (12 - length bs)%nat with (S (12 - (length bs + 1))) by lia. cbn [replicate app].
  change (<[0%nat := b]> (0 :: ?x)) with (b :: x). by rewrite <- app_assoc.
Qed.

Lemma addrs_set_ind t bs i c b : (12 ≤ length bs)%nat →
  <[12%nat := b]> (addrs (Finfo t bs i c)) = addrs (Finfo t bs b c).
Proof.
  intros Hl. unfold addrs. cbn [g_blocks g_ind]. replace (12 - length bs)%nat with 0%nat by lia. cbn [replicate app].
  rewrite insert_app_r_alt by (rewrite length_take; lia). rewrite length_take, Nat.min_l by lia. done.
Qed.

Lemma addrs_more t bs i c b : (12 ≤ length bs)%nat → addrs (Finfo t (bs ++ [b]) i c) = addrs (Finfo t bs i c).
Proof.
  intros Hl. unfold addrs. cbn [g_blocks g_ind]. rewrite take_app_le by lia. rewrite length_app. cbn [length].
  by replace (12 - (length bs + 1))%nat with (12 - length bs)%nat by lia.
Qed.

Lemma ind_words_get bs k b : (12 ≤ k)%nat → bs !! k = Some b → ind_words bs !! (k - 12)%nat = Some b.
Proof.
  intros Hk Hb. unfold ind_words. rewrite lookup_app_l.
  - rewrite lookup_drop. by replace (12 + (k - 12))%nat with k by lia.
  - rewrite length_drop. apply lookup_lt_Some in Hb. lia.
Qed.

Lemma ind_words_unused bs : (12 ≤ length bs < 140)%nat → ind_words bs !! (length bs - 12)%nat = Some 0.
Proof.
  intros Hl. unfold ind_words. rewrite lookup_app_r; rewrite length_drop; [|lia].
  rewrite Nat.sub_diag. apply lookup_replicate_2. lia.
Qed.

Lemma ind_words_length bs : (12 ≤ length bs ≤ 140)%nat → length (ind_words bs) = 128%nat.
Proof. intros Hl. unfold ind_words. rewrite length_app, length_drop, length_replicate. lia. Qed.

Lemma ind_words_snoc bs b : (12 ≤ length bs < 140)%nat →
  <[(length bs - 12)%nat := b]> (ind_words bs) = ind_words (bs ++ [b]).
Proof.
  intros Hl. unfold ind_words. rewrite drop_app_le, length_app by lia. cbn [length].
  rewrite insert_app_r_alt by (rewrite length_drop; lia). rewrite length_drop, Nat.sub_diag, <- app_assoc. f_equal.
  replace (140 - length bs)%nat with (S (140 - (length bs + 1))) by lia. done.
Qed.

Lemma zeroes_words : zeroes = wblock (replicate 128 0).
Proof. by vm_compute. Qed.

Lemma set_addrs_same din l : i_addrs din = l → set_i_addrs l din = din.
Proof. destruct din. cbn. by intros ->. Qed.

Lemma owned_blocks g b : b ∈ g_blocks g → b ∈ owned g.
Proof. unfold owned. set_solver. Qed.
Lemma owned_ind g : g_ind g ≠ 0 → g_ind g ∈ owned g.
Proof. intros H. unfold owned. rewrite (proj2 (Z.eqb_neq _ _) H). set_solver. Qed.

Lemma placed_grow D fb G k g D1 :
  store D fb G → G !! k = Some g → length (g_data g) = (512 * length (g_blocks g))%nat →
  (length (g_blocks g) < 140)%nat → (∀ b, b ∈ g_blocks g → blk D1 b = blk D b) →
  ((12 ≤ length (g_blocks g))%nat → blk D1 (g_ind (grow g fb)) = wblock (ind_words (g_blocks (grow g fb)))) →
  placed D1 (grow g fb).
Proof.
  intros St Hk Hlen Hl Hsame Hind. pose proof (so_placed _ _ _ St k g Hk) as P. pose proof (so_fb _ _ _ St) as Hfb.
  rewrite nmeta_59 in Hfb. assert (∀ b, b ∈ owned g → b ≠ fb ∧ b ≠ fb + 1) as Hown.
  { intros b Hb. pose proof (so_own _ _ _ St k g b Hk Hb). lia. }
  assert (length (g_blocks (grow g fb)) = S (length (g_blocks g))) as Hlg.
  { unfold grow. case_decide; cbn [g_blocks]; rewrite length_app; cbn [length]; lia. }
  assert (g_data (grow g fb) = g_data g) as Hdg by (unfold grow; by case_decide).
  split.
  - lia.
  - unfold grow. case_decide; cbn [g_blocks g_ind]; rewrite length_app; cbn [length]; intros; [lia|]. apply P. lia.
  - rewrite Hlg. intros H. split; [|apply Hind; lia]. unfold grow. case_decide; cbn [g_ind]; [lia|]. apply P. lia.
  - rewrite Hdg. assert (∃ x, g_blocks (grow g fb) = g_blocks g ++ [x]) as [x ->] by (unfold grow; case_decide; by eexists).
    rewrite fmap_app, concat_app, take_app_le.
    + rewrite <- (pl_data _ _ P) at 2. f_equal. f_equal. apply list_fmap_ext. intros i b Hb%list_elem_of_lookup_2. by apply Hsame.
    + rewrite concat_blocks; [lia|]. intros b Hb. rewrite Hsame by done. apply blk_length; [apply St|].
      pose proof (so_own _ _ _ St k g b Hk (owned_blocks _ _ Hb)) as Ho. rewrite nmeta_59 in Ho. rewrite (so_len _ _ _ St). lia.
  - pose proof (pl_nodup _ _ P) as Hnd. unfold grow, owned in *. case_decide as E; cbn [g_ind g_blocks].
    + rewrite (pl_dir _ _ P) in Hnd, Hown by lia. rewrite (proj2 (Z.eqb_neq fb 0)) by lia. cbn [app Z.eqb] in *.
      apply NoDup_cons. split; [intros [Hin|Hin%list_elem_of_singleton]%elem_of_app; [by destruct (Hown _ Hin)|lia]|].
      apply NoDup_app. split; [done|]. split; [|apply NoDup_singleton]. intros b Hb ->%list_elem_of_singleton. by destruct (Hown _ Hb).
    + rewrite app_assoc. apply NoDup_app. split; [done|]. split; [|apply NoDup_singleton].
      intros b Hb ->%list_elem_of_singleton. by destruct (Hown _ Hb).
Qed.

Lemma store_grow D fb G k g D1 :
  store D fb G → G !! k = Some g → length (g_data g) = (512 * length (g_blocks g))%nat →
  (length (g_blocks g) < 140)%nat → fb + grow_blocks g ≤ FSSIZE →
  (D1 = D ∧ (length (g_blocks g) < 12)%nat ∨
   D1 = <[Z.to_nat (g_ind (grow g fb)) := wblock (ind_words (g_blocks (grow g fb)))]> D ∧ (12 ≤ length (g_blocks g))%nat) →
  store D1 (fb + grow_blocks g) (<[k := grow g fb]> G) ∧ ∀ b, 0 ≤ b < nmeta → blk D1 b = blk D b.
Proof.
  intros St Hk Hlen Hl Hfb HD. pose proof (so_fb _ _ _ St) as Hb. pose proof (so_placed _ _ _ St k g Hk) as P.
  pose proof (so_len _ _ _ St) as HL. rewrite nmeta_59 in *. set (i := g_ind (grow g fb)) in *.
  assert (1 ≤ grow_blocks g) by (unfold grow_blocks; by case_decide).
  assert ((12 ≤ length (g_blocks g))%nat → 59 ≤ i < FSSIZE ∧ i ∈ owned (grow g fb) ∧ ∀ b, b ∈ g_blocks g → b ≠ i) as Hi.
  { intros H12. unfold i, grow, grow_blocks in *. case_decide as E; cbn [g_ind g_blocks] in *.
    - split; [lia|]. split; [apply (owned_ind (Finfo _ _ fb _)); cbn; lia|]. intros b Hin ->. pose proof (so_own _ _ _ St k g fb Hk (owned_blocks _ _ Hin)). lia.
    - destruct (pl_ind _ _ P) as [Hz _]; [lia|]. pose proof (so_own _ _ _ St k g _ Hk (owned_ind _ Hz)) as Ho. rewrite nmeta_59 in Ho.
      split; [lia|]. split; [by apply (owned_ind (Finfo _ _ (g_ind g) _))|]. pose proof (pl_nodup _ _ P) as Hnd. unfold owned in Hnd.
      rewrite (proj2 (Z.eqb_neq _ _) Hz) in Hnd. intros b Hin ->. by apply NoDup_cons in Hnd as [? _]. }
  assert (∀ b, 0 ≤ b → b ∉ owned (grow g fb) → blk D1 b = blk D b) as Hsame.
  { intros b Hb0 Hn. destruct HD as [[-> _]|[-> H12]]; [done|]. destruct (Hi H12) as (? & Hin & _).
    rewrite blk_insert by lia. by rewrite decide_False by (intros ->; done). }
  split.
  - eapply store_update; [done|done| |lia|apply grow_owned|done| |].
    + apply (placed_grow D fb G k g D1); try done.
      * intros b Hin. destruct HD as [[-> _]|[-> H12]]; [done|]. destruct (Hi H12) as (? & _ & Hne).
        pose proof (so_own _ _ _ St k g b Hk (owned_blocks _ _ Hin)) as Ho. rewrite nmeta_59 in Ho.
        rewrite blk_insert by lia. by rewrite decide_False by (by apply Hne).
      * intros H12. destruct HD as [[_ ?]|[-> _]]; [lia|]. destruct (Hi H12) as (? & _). fold i. rewrite blk_insert by lia. by rewrite decide_True.
    + destruct HD as [[-> _]|[-> _]]; [done|by rewrite length_insert].
    + destruct HD as [[-> _]|[-> H12]]; [apply St|]. apply insert_blocks; [apply St|]. rewrite wblock_length, ind_words_length; [done|].
      unfold grow. case_decide; cbn [g_blocks]; rewrite length_app; cbn [length]; lia.
  - intros b Hb0. apply Hsame; [lia|]. intros [Hin|?]%grow_owned; [|lia].
    pose proof (so_own _ _ _ St k g b Hk Hin) as Ho. rewrite nmeta_59 in Ho. lia.
Qed.

(** ** The code *)

Lemma file_block_new D fi fb G k g din :
  store D fb G → G !! k = Some g → length (g_data g) = (512 * length (g_blocks g))%nat →
  (length (g_blocks g) < 140)%nat → fb + grow_blocks g ≤ FSSIZE → i_addrs din = addrs g →
  ∃ D1, file_block din (Z.of_nat (length (g_blocks g))) (Mk D fi fb) =
      Ok (set_i_addrs (addrs (grow g fb)) din, fb + grow_blocks g - 1) (Mk D1 fi (fb + grow_blocks g)) ∧
    store D1 (fb + grow_blocks g) (<[k := grow g fb]> G) ∧ ∀ b, 0 ≤ b < nmeta → blk D1 b = blk D b.
Proof.
  intros St Hk Hlen Hl Hfb Hdin. pose proof (so_placed _ _ _ St k g Hk) as P. pose proof (so_fb _ _ _ St) as Hb.
  pose proof (so_len _ _ _ St) as HL. rewrite nmeta_59 in Hb.
  pose proof (λ D1, store_grow D fb G k g D1 St Hk Hlen Hl Hfb) as Hgrow.
  unfold file_block, NDIRECT. rewrite Hdin. destruct (Z.ltb_spec (Z.of_nat (length (g_blocks g))) 12) as [H12|H12].
  - exists D. unfold grow, grow_blocks in *.
    destruct (decide (length (g_blocks g) = 12%nat)); [lia|]. split; [|apply Hgrow; left; split; [done|lia]].
    rewrite Nat2Z.id, addrs_unused by lia. rewrite (bind_ok _ _ _ _ _ (deref_some _ _)). change (0 =? 0) with true. cbv iota.
    rewrite (bind_ok _ _ _ _ _ (next_block_ok D fi fb ltac:(lia))). unfold mret, K_ret. f_equal. f_equal; [|lia].
    f_equal. by rewrite <- addrs_snoc by lia; destruct g.
  - destruct (addrs_ind g ltac:(lia)) as [Ha _]. change (Z.to_nat 12) with 12%nat. rewrite Ha.
    rewrite (bind_ok _ _ _ _ _ (deref_some _ _)).
    set (k4 := (4 * Z.to_nat (Z.of_nat (length (g_blocks g)) - 12))%nat).
    assert (k4 = (4 * (length (g_blocks g) - 12))%nat) as Hk4 by (unfold k4; lia).
    unfold grow, grow_blocks in *. destruct (decide (length (g_blocks g) = 12%nat)) as [E|E]; cbn [g_ind g_blocks] in *.
    + rewrite (pl_dir _ _ P) by lia. change (0 =? 0) with true. cbv iota.
      exists (<[Z.to_nat fb := wblock (ind_words (g_blocks g ++ [fb + 1]))]> D). split; [|apply Hgrow; right; split; [done|lia]].
      rewrite (bind_ok _ _ _ (set_i_addrs (<[12%nat := fb]> (addrs g)) din, fb) (Mk D fi (fb + 1))).
      2:{ by rewrite (bind_ok _ _ _ _ _ (next_block_ok D fi fb ltac:(lia))). }
      rewrite (bind_ok _ _ _ _ _ (rsect_ok D fi (fb + 1) fb HL ltac:(lia))). rewrite (so_free _ _ _ St) by lia.
      rewrite zeroes_words, Hk4, E. change (replicate 128 0) with (ind_words (replicate 12 0)).
      rewrite (wblock_get _ 0 0) by done. rewrite (bind_ok _ _ _ _ _ (deref_some _ _)). change (0 =? 0) with true. cbv iota.
      rewrite (bind_ok _ _ _ _ _ (next_block_ok D fi (fb + 1) ltac:(lia))).
      rewrite (wblock_put _ 0) by (vm_compute; lia). rewrite (bind_ok _ _ _ _ _ (deref_some _ _)).
      rewrite (bind_ok _ _ _ _ _ (wsect_ok D fi _ fb _ HL ltac:(lia))). unfold mret, K_ret. f_equal.
      * f_equal; [|lia]. f_equal. rewrite addrs_more by lia. destruct g. by apply addrs_set_ind; cbn in *; lia.
      * f_equal; [|lia]. f_equal. f_equal. rewrite <- ind_words_snoc by lia. rewrite E. unfold ind_words.
        rewrite (drop_ge (g_blocks g)) by lia. rewrite E. done.
    + destruct (pl_ind _ _ P ltac:(lia)) as [Hz Hi]. rewrite (proj2 (Z.eqb_neq _ _) Hz).
      pose proof (so_own _ _ _ St k g _ Hk (owned_ind _ Hz)) as Ho. rewrite nmeta_59 in Ho.
      exists (<[Z.to_nat (g_ind g) := wblock (ind_words (g_blocks g ++ [fb]))]> D). split; [|apply Hgrow; right; split; [done|lia]].
      rewrite (bind_ok (mret _) _ _ _ _ eq_refl). rewrite (bind_ok _ _ _ _ _ (rsect_ok D fi fb (g_ind g) HL ltac:(lia))).
      rewrite Hi, Hk4. rewrite (wblock_get _ _ 0) by (try lia; apply ind_words_unused; lia).
      rewrite (bind_ok _ _ _ _ _ (deref_some _ _)). change (0 =? 0) with true. cbv iota.
      rewrite (bind_ok _ _ _ _ _ (next_block_ok D fi fb ltac:(lia))).
      rewrite wblock_put by (rewrite ind_words_length; lia). rewrite (bind_ok _ _ _ _ _ (deref_some _ _)).
      rewrite (bind_ok _ _ _ _ _ (wsect_ok D fi _ (g_ind g) _ HL ltac:(lia))). unfold mret, K_ret.
      rewrite ind_words_snoc, addrs_more by lia. rewrite (set_addrs_same din) by (by destruct g). f_equal. f_equal. lia.
Qed.

Lemma file_block_old D fi fb G k g din bs x :
  store D fb G → G !! k = Some g → g_blocks g = bs ++ [x] → i_addrs din = addrs g →
  file_block din (Z.of_nat (length bs)) (Mk D fi fb) = Ok (din, x) (Mk D fi fb).
Proof.
  intros St Hk Hbs Hdin. pose proof (so_placed _ _ _ St k g Hk) as P. pose proof (so_fb _ _ _ St) as Hb.
  pose proof (so_len _ _ _ St) as HL. rewrite nmeta_59 in Hb. pose proof (pl_max _ _ P) as Hm.
  assert (g_blocks g !! length bs = Some x) as Hx by (rewrite Hbs, lookup_app_r, Nat.sub_diag by lia; done).
  assert (59 ≤ x < FSSIZE) as Hxr.
  { pose proof (so_own _ _ _ St k g x Hk) as Ho. rewrite nmeta_59 in Ho. assert (x ∈ owned g) as Hin by (apply owned_blocks; rewrite Hbs; set_solver). specialize (Ho Hin). lia. }
  unfold file_block, NDIRECT. rewrite Hdin. destruct (Z.ltb_spec (Z.of_nat (length bs)) 12) as [H12|H12].
  - rewrite Nat2Z.id, (addrs_direct g _ x) by (done || lia). rewrite (bind_ok _ _ _ _ _ (deref_some _ _)).
    by rewrite (proj2 (Z.eqb_neq x 0)) by lia.
  - rewrite Hbs, length_app in Hm. cbn [length] in Hm. destruct (addrs_ind g) as [Ha _]; [rewrite Hbs, length_app; cbn; lia|].
    change (Z.to_nat 12) with 12%nat. rewrite Ha. rewrite (bind_ok _ _ _ _ _ (deref_some _ _)).
    destruct (pl_ind _ _ P) as [Hz Hi]; [rewrite Hbs, length_app; cbn; lia|]. rewrite (proj2 (Z.eqb_neq _ _) Hz).
    pose proof (so_own _ _ _ St k g _ Hk (owned_ind _ Hz)) as Ho. rewrite nmeta_59 in Ho.
    rewrite (bind_ok (mret _) _ _ _ _ eq_refl). rewrite (bind_ok _ _ _ _ _ (rsect_ok D fi fb (g_ind g) HL ltac:(lia))).
    rewrite Hi. replace (4 * Z.to_nat (Z.of_nat (length bs) - 12))%nat with (4 * (length bs - 12))%nat by lia.
    rewrite (wblock_get _ _ x) by (first [unfold FSSIZE in *; lia|apply ind_words_get; [lia|done]]).
    rewrite (bind_ok _ _ _ _ _ (deref_some _ _)). by rewrite (proj2 (Z.eqb_neq x 0)) by lia.
Qed.

(** Writing behind the content, inside the last block. *)
Lemma write_last D fb G k t bs x i c r q :
  store D fb G → G !! k = Some (Finfo t (bs ++ [x]) i c) → length c = (512 * length bs + r)%nat → (r + length q ≤ 512)%nat →
  store (<[Z.to_nat x := splice (blk D x) r q]> D) fb (<[k := Finfo t (bs ++ [x]) i (c ++ q)]> G) ∧
  ∀ b, 0 ≤ b < nmeta → blk (<[Z.to_nat x := splice (blk D x) r q]> D) b = blk D b.
Proof.
  intros St Hk Hc Hr. set (g := Finfo t (bs ++ [x]) i c) in *. pose proof (so_placed _ _ _ St k g Hk) as P.
  pose proof (so_len _ _ _ St) as HL. pose proof (so_fb _ _ _ St) as Hb. rewrite nmeta_59 in *.
  assert (x ∈ owned g) as Hx by (apply owned_blocks; cbn; set_solver).
  pose proof (so_own _ _ _ St k g x Hk Hx) as Hxr. rewrite nmeta_59 in Hxr.
  assert (length (blk D x) = 512%nat) as Hbx by (apply blk_length; [apply St|lia]).
  pose proof (pl_nodup _ _ P) as Hnd. unfold owned in Hnd. cbn [g_ind g_blocks g] in Hnd.
  assert (x ∉ bs ∧ (i ≠ 0 → i ≠ x)) as [Hxbs Hxi].
  { rewrite app_assoc in Hnd. apply NoDup_app in Hnd as (_ & Hn & _). split; [set_solver|].
    intros Hi ->. apply (Hn x); [|set_solver]. rewrite (proj2 (Z.eqb_neq _ _) Hi). set_solver. }
  assert (∀ b, 0 ≤ b → b ≠ x → blk (<[Z.to_nat x := splice (blk D x) r q]> D) b = blk D b) as Hsame.
  { intros b Hb0 Hne. rewrite blk_insert by lia. by rewrite decide_False. }
  split; [|intros b Hb0; apply Hsame; lia].
  eapply store_update; [done|done| |lia|by left| |by rewrite length_insert|].
  - split; cbn [g_blocks g_ind g_data]; [apply P|apply P| | |apply P].
    + intros Hl. destruct (pl_ind _ _ P Hl) as [Hz Hi]. split; [done|]. cbn in Hz. rewrite Hsame; [done| |by apply Hxi].
      pose proof (so_own _ _ _ St k g i Hk (owned_ind g Hz)). rewrite nmeta_59 in *. lia.
    + assert (blk (<[Z.to_nat x := splice (blk D x) r q]> D) <$> bs = blk D <$> bs) as Hbs.
      { apply list_fmap_ext. intros j b Hin%list_elem_of_lookup_2. apply Hsame; [|intros ->; done].
        pose proof (so_own _ _ _ St k g b Hk (owned_blocks g b ltac:(cbn; set_solver))). rewrite nmeta_59 in *. lia. }
      pose proof (pl_data _ _ P) as Hd. cbn [g_data g_blocks g] in Hd. rewrite !fmap_app, !concat_app in *. rewrite Hbs.
      cbn [fmap list_fmap concat] in *. rewrite !app_nil_r in *. rewrite blk_insert, decide_True by (done || lia).
      assert (length (concat (blk D <$> bs)) = (512 * length bs)%nat) as Hcl.
      { apply concat_blocks. intros b Hin. apply blk_length; [apply St|].
        pose proof (so_own _ _ _ St k g b Hk (owned_blocks g b ltac:(cbn; set_solver))). rewrite nmeta_59 in *. lia. }
      rewrite take_app_ge in Hd |- * by (rewrite ?length_app; lia). rewrite Hcl in *. rewrite Hc in Hd.
      replace (512 * length bs + r - 512 * length bs)%nat with r in Hd by lia.
      transitivity (concat (blk D <$> bs) ++ take r (blk D x) ++ q); [|by rewrite app_assoc, Hd]. f_equal. rewrite length_app, Hc.
      replace (512 * length bs + r + length q - 512 * length bs)%nat with (r + length q)%nat by lia.
      unfold splice. rewrite app_assoc. apply take_app_length'. rewrite length_app, length_take. lia.
  - intros b Hb0 Hn. apply Hsame; [done|]. intros ->. apply Hn. apply owned_blocks. cbn. set_solver.
  - apply insert_blocks; [apply St|]. rewrite length_splice; [done|]. rewrite Hbx. lia.
Qed.

(** ** Appending *)

(** The blocks a file of [n] bytes takes, the indirect one included. *)
Definition blocks_of (n : nat) : Z :=
  Z.of_nat ((n + 511) / 512) + if decide (12 * 512 < n)%nat then 1 else 0.
(** The largest file, [MAXFILE * BSIZE] bytes. *)
Definition max_bytes : nat := 140 * 512.

Lemma blocks_mono n m : (n ≤ m)%nat → blocks_of n ≤ blocks_of m.
Proof.
  intros H. unfold blocks_of. pose proof (Nat.Div0.div_le_mono (n + 511) (m + 511) 512 ltac:(lia)). repeat case_decide; lia.
Qed.

Lemma div_split n : ∃ q r, n = (512 * q + r)%nat ∧ (r < 512)%nat ∧ (n / 512)%nat = q ∧
  ((n + 511) / 512)%nat = if decide (r = 0)%nat then q else S q.
Proof.
  exists (n / 512)%nat, (n mod 512)%nat. pose proof (Nat.div_mod n 512 ltac:(lia)) as E.
  pose proof (Nat.mod_upper_bound n 512 ltac:(lia)) as Hr. split_and!; [done|done|done|].
  set (q := (n / 512)%nat) in *. set (r := (n mod 512)%nat) in *. clearbody q r. subst n. case_decide as Hz.
  - symmetry. apply (Nat.div_unique _ _ _ 511); lia.
  - symmetry. apply (Nat.div_unique _ _ _ (r - 1)); lia.
Qed.

(** [file_block] finds the block the next byte goes into. *)
Lemma file_block_ok D fi fb G k g din :
  store D fb G → G !! k = Some g → filled g → i_addrs din = addrs g → (length (g_data g) < max_bytes)%nat →
  fb + blocks_of (S (length (g_data g))) ≤ FSSIZE + blocks_of (length (g_data g)) →
  ∃ D1 fb1 bs x i, let g1 := Finfo (g_type g) (bs ++ [x]) i (g_data g) in
    file_block din (Z.of_nat (length (g_data g)) / BS) (Mk D fi fb) = Ok (set_i_addrs (addrs g1) din, x) (Mk D1 fi fb1) ∧
    store D1 fb1 (<[k := g1]> G) ∧ length bs = (length (g_data g) / 512)%nat ∧
    fb1 + blocks_of (length (g_data g)) = fb + blocks_of (S (length (g_data g))) ∧
    0 ≤ x < FSSIZE ∧ ∀ b, 0 ≤ b < nmeta → blk D1 b = blk D b.
Proof.
  intros St Hk Hf Hdin Hmax Hfb. unfold filled in Hf. destruct (div_split (length (g_data g))) as (q & r & El & Hr & Eq & Eq').
  assert (Z.of_nat (length (g_data g)) / BS = Z.of_nat q) as ->.
  { rewrite El. unfold BSIZE. symmetry. apply (Z.div_unique _ _ _ (Z.of_nat r)); lia. }
  rewrite Eq' in Hf. rewrite Eq. pose proof (so_fb _ _ _ St) as Hb. rewrite nmeta_59 in Hb. unfold max_bytes in Hmax.
  revert Hf Eq'. destruct (decide (r = 0)%nat) as [-> |Hr0]; intros Hf Eq'.
  - assert (blocks_of (S (length (g_data g))) = blocks_of (length (g_data g)) + grow_blocks g) as Hbo.
    { unfold blocks_of, grow_blocks. rewrite Eq', Hf, El.
      replace ((S (512 * q + 0) + 511) / 512)%nat with (S q) by (apply (Nat.div_unique _ _ _ 0); lia). repeat case_decide; lia. }
    destruct (file_block_new D fi fb G k g din) as (D1 & R & St1 & Hlow); try done; try lia. rewrite Hf in R.
    assert (grow g fb = Finfo (g_type g) (g_blocks g ++ [fb + grow_blocks g - 1]) (g_ind (grow g fb)) (g_data g)) as Hg.
    { unfold grow, grow_blocks. case_decide; cbn [g_ind]; do 3 f_equal; lia. }
    eexists D1, _, (g_blocks g), (fb + grow_blocks g - 1), _. cbv zeta. rewrite <- Hg.
    assert (1 ≤ grow_blocks g) by (unfold grow_blocks; by case_decide). split_and!; try done; lia.
  - assert (∃ bs x, g_blocks g = bs ++ [x]) as (bs & x & Hbs).
    { destruct (g_blocks g) as [|b l _] using rev_ind; [done|by exists l, b]. }
    assert (length bs = q) as Hl by (rewrite Hbs, length_app in Hf; cbn in Hf; lia).
    exists D, fb, bs, x, (g_ind g). cbv zeta. rewrite <- Hbs. replace (Finfo (g_type g) (g_blocks g) (g_ind g) (g_data g)) with g by (by destruct g).
    rewrite list_insert_id by done. rewrite (set_addrs_same din) by done. rewrite <- Hl.
    assert (x ∈ owned g) as Hx by (apply owned_blocks; rewrite Hbs; clear; set_solver).
    pose proof (so_own _ _ _ St k g x Hk Hx) as Ho. rewrite nmeta_59 in Ho.
    split_and!; try done; [by apply (file_block_old D fi fb G k g)| |lia|lia].
    f_equal. unfold blocks_of. rewrite Eq'. f_equal.
    + f_equal. rewrite El. apply (Nat.div_unique _ _ _ r); lia.
    + rewrite El. repeat case_decide; lia.
Qed.

Lemma blocks_step n m : (0 < m)%nat → (n / 512 * 512 + 512 ≥ n + m)%nat → blocks_of (n + m) = blocks_of (S n).
Proof.
  intros Hm Hb. destruct (div_split n) as (q & r & El & Hr & Eq & _). rewrite Eq in Hb. unfold blocks_of.
  replace ((n + m + 511) / 512)%nat with (S q) by (apply (Nat.div_unique _ _ _ (r + m - 1)); lia).
  replace ((S n + 511) / 512)%nat with (S q) by (apply (Nat.div_unique _ _ _ r); lia). repeat case_decide; lia.
Qed.

Lemma append_step_ok D fi fb G k g din p :
  store D fb G → G !! k = Some g → filled g → i_addrs din = addrs g → p ≠ [] →
  (length (g_data g) + length p ≤ max_bytes)%nat →
  fb + blocks_of (length (g_data g) + length p) ≤ FSSIZE + blocks_of (length (g_data g)) →
  ∃ D1 fb1 g1 q, append_step (din, Z.of_nat (length (g_data g)), p) (Mk D fi fb) =
      Ok (inl (set_i_addrs (addrs g1) din, Z.of_nat (length (g_data g1)), q)) (Mk D1 fi fb1) ∧
    store D1 fb1 (<[k := g1]> G) ∧ filled g1 ∧ g_type g1 = g_type g ∧
    g_data g1 ++ q = g_data g ++ p ∧ (length q < length p)%nat ∧
    fb1 + blocks_of (length (g_data g)) = fb + blocks_of (length (g_data g1)) ∧
    ∀ b, 0 ≤ b < nmeta → blk D1 b = blk D b.
Proof.
  intros St Hk Hf Hdin Hp Hmax Hfb. destruct p as [|a p]; [done|]. set (c := g_data g) in *. cbn [length] in *.
  pose proof (blocks_mono (S (length c)) (length c + S (length p)) ltac:(lia)) as Hm.
  destruct (file_block_ok D fi fb G k g din) as (D1 & fb1 & bs & x & i & R & St1 & Hbs & Hfb1 & Hx & Hlow);
    [done|done|done|done|fold c; lia|fold c; lia|]. fold c in R, St1, Hbs, Hfb1.
  destruct (div_split (length c)) as (q & r & El & Hr & Eq & _). rewrite Eq in Hbs.
  set (n1 := Nat.min (S (length p)) (512 - r)).
  assert (Z.of_nat (length c) / BS = Z.of_nat q) as Hdiv.
  { rewrite El. unfold BSIZE. symmetry. apply (Z.div_unique _ _ _ (Z.of_nat r)); lia. }
  assert (Z.min (Z.of_nat (S (length p))) ((Z.of_nat q + 1) * BS - Z.of_nat (length c)) = Z.of_nat n1) as Hn1.
  { unfold n1, BSIZE. rewrite El. lia. }
  assert (length (take n1 (a :: p)) = n1) as Ht by (rewrite length_take; cbn [length]; lia).
  destruct (write_last D1 fb1 (<[k := Finfo (g_type g) (bs ++ [x]) i c]> G) k (g_type g) bs x i c r (take n1 (a :: p)))
    as [St2 Hlow2]; [done|apply list_lookup_insert_eq; by eapply lookup_lt_Some|lia|rewrite Ht; lia|].
  rewrite list_insert_insert_eq in St2.
  eexists _, fb1, (Finfo (g_type g) (bs ++ [x]) i (c ++ take n1 (a :: p))), (drop n1 (a :: p)).
  split; [|split; [exact St2|]].
  - unfold append_step. rewrite Hdiv. unfold MAXFILE, NDIRECT, NINDIRECT.
    rewrite (proj2 (Z.ltb_lt (Z.of_nat q) (12 + 128))) by (unfold max_bytes in Hmax; lia). cbn [negb].
    rewrite Hdiv in R. rewrite (bind_ok _ _ _ _ _ R). cbn [length]. rewrite Hn1.
    rewrite (bind_ok _ _ _ _ _ (rsect_ok D1 fi fb1 x (so_len _ _ _ St1) Hx)).
    rewrite Nat2Z.id. replace (Z.to_nat (Z.of_nat (length c) - Z.of_nat q * BS)) with r by (unfold BSIZE; lia).
    rewrite (bind_ok _ _ _ _ _ (wsect_ok D1 fi fb1 x _ (so_len _ _ _ St1) Hx)). unfold mret, K_ret. cbn [g_data].
    do 2 f_equal. f_equal. rewrite length_app, Ht. by rewrite Nat2Z.inj_add.
  - cbn [g_type g_data]. split_and!.
    + unfold filled. cbn [g_blocks g_data]. rewrite !length_app, Ht. cbn [length]. rewrite Hbs, El.
      apply (Nat.div_unique _ _ _ (r + n1 - 1)); lia.
    + done.
    + by rewrite <- app_assoc, take_drop.
    + rewrite length_drop. cbn [length]. lia.
    + rewrite length_app, Ht, blocks_step; [lia|lia|]. rewrite Eq. lia.
    + intros b Hb. by rewrite Hlow2, Hlow.
Qed.

Lemma append_while n : ∀ D fi fb G k g din p,
  (length p < n)%nat → store D fb G → G !! k = Some g → filled g → i_addrs din = addrs g →
  (length (g_data g) + length p ≤ max_bytes)%nat →
  fb + blocks_of (length (g_data g) + length p) ≤ FSSIZE + blocks_of (length (g_data g)) →
  ∃ D1 fb1 g1, while n append_step (din, Z.of_nat (length (g_data g)), p) (Mk D fi fb) =
      Ok (set_i_addrs (addrs g1) din, Z.of_nat (length (g_data g1)), []) (Mk D1 fi fb1) ∧
    store D1 fb1 (<[k := g1]> G) ∧ filled g1 ∧ g_type g1 = g_type g ∧ g_data g1 = g_data g ++ p ∧
    fb1 + blocks_of (length (g_data g)) = fb + blocks_of (length (g_data g1)) ∧
    ∀ b, 0 ≤ b < nmeta → blk D1 b = blk D b.
Proof.
  induction n as [|n IH]; intros D fi fb G k g din p Hn St Hk Hf Hdin Hmax Hfb; [lia|].
  destruct (decide (p = [])) as [-> |Hp].
  { exists D, fb, g. rewrite (while_ok _ _ _ _ (inr (din, Z.of_nat (length (g_data g)), [])) (Mk D fi fb)) by done.
    rewrite (set_addrs_same din), list_insert_id, app_nil_r by done. done. }
  destruct (append_step_ok D fi fb G k g din p) as (D1 & fb1 & g1 & q & R & St1 & Hf1 & Ht1 & Hd1 & Hq & Hfb1 & Hlow1); try done.
  rewrite (while_ok _ _ _ _ _ _ R). assert (length (g_data g1) + length q = length (g_data g) + length p)%nat as Hl.
  { rewrite <- !length_app. by rewrite Hd1. }
  destruct (IH D1 fi fb1 (<[k := g1]> G) k g1 (set_i_addrs (addrs g1) din) q) as (D2 & fb2 & g2 & -> & St2 & Hf2 & Ht2 & Hd2 & Hfb2 & Hlow2);
    [lia|done|apply list_lookup_insert_eq; by eapply lookup_lt_Some|done|by destruct din|lia|rewrite Hl; lia|].
  rewrite list_insert_insert_eq in St2. exists D2, fb2, g2. split_and!; try done.
  - by rewrite Ht2.
  - by rewrite Hd2.
  - lia.
  - intros b Hb. by rewrite Hlow2, Hlow1.
Qed.

(** ** The inode table *)

Definition ino (g : finfo) : inode := Inode 0 0 0 0 (g_type g) 0 0 1 (Z.of_nat (length (g_data g))) (addrs g).

Lemma iblock_inum inum : 0 ≤ inum < 200 → IBLOCK inum sb = inum / 8 + 32 ∧ 32 ≤ IBLOCK inum sb < 58.
Proof.
  intros H. assert (0 ≤ inum / 8 < 26) as Hd by (split; [apply Z.div_pos; lia|apply Z.div_lt_upper_bound; lia]).
  assert (IBLOCK inum sb = inum / 8 + 32) as ->; [|lia]. unfold IBLOCK. change IPB with 8. change (sb_inodestart sb) with 32.
  rewrite u32_small by lia. done.
Qed.

Lemma iblock_off i j : 0 ≤ i → 0 ≤ j → i ≠ j → i / 8 = j / 8 → dinode_off i ≠ dinode_off j.
Proof.
  intros Hi Hj Hne E. unfold dinode_off. change IPB with 8. unfold DINODE.
  pose proof (Z.div_mod i 8 ltac:(lia)). pose proof (Z.div_mod j 8 ltac:(lia)).
  pose proof (Z.mod_pos_bound i 8 ltac:(lia)). pose proof (Z.mod_pos_bound j 8 ltac:(lia)). lia.
Qed.
