(* ===== verification/MkfsBuild.v ===== *)
(** * Building the first file system: the operations on inodes, and the program

    [image] is the invariant between the operations of mkfs.c: the inode table
    describes the files of [G], whose blocks are placed as [store] says. *)
From S2P Require Import Prelude Spinlock Str Ptable PtableLists Sched Services BioRing Bio DiskFmt Log Fs FsProps Mkfs MkfsFacts.

(** The blocks the files take together. *)
Fixpoint total (G : list finfo) : Z :=
  match G with [] => 0 | g :: G => blocks_of (length (g_data g)) + total G end.

Lemma total_insert G k g g1 :
  G !! k = Some g → total (<[k := g1]> G) + blocks_of (length (g_data g)) = total G + blocks_of (length (g_data g1)).
Proof.
  revert k. induction G as [|h G IH]; intros [|k] Hk; try done; cbn in Hk.
  - injection Hk as ->. change (<[0%nat := g1]> (g :: G)) with (g1 :: G). cbn [total]. lia.
  - change (<[S k := g1]> (h :: G)) with (h :: <[k := g1]> G). cbn [total]. specialize (IH k Hk). lia.
Qed.

Lemma total_snoc G g : total (G ++ [g]) = total G + blocks_of (length (g_data g)).
Proof. induction G as [|h G IH]; cbn [total app] in *; lia. Qed.

Lemma ino_wf D fb G k g :
  store D fb G → G !! k = Some g → 0 ≤ g_type g < 2 ^ 15 → (length (g_data g) ≤ max_bytes)%nat → inode_wf (ino g).
Proof.
  intros St Hk Ht Hm. pose proof (so_placed _ _ _ St k g Hk) as P. pose proof (so_fb _ _ _ St) as Hb.
  assert (∀ b, b ∈ owned g → 0 ≤ b < 2 ^ 32) as Ho.
  { intros b Hin. pose proof (so_own _ _ _ St k g b Hk Hin) as Ho. rewrite nmeta_59 in Ho. unfold FSSIZE in Hb. lia. }
  destruct (addrs_ind g (pl_max _ _ P)) as [_ Hlen].
  split; cbn [i_type i_major i_minor i_nlink i_size i_addrs ino]; try lia.
  - unfold max_bytes in Hm. lia.
  - done.
  - unfold addrs. apply Forall_app_2; [|apply Forall_app_2].
    + apply Forall_forall. intros b Hin. apply Ho, owned_blocks. by eapply subseteq_take.
    + apply Forall_replicate. lia.
    + apply Forall_singleton. destruct (decide (g_ind g = 0)) as [->|Hz]; [lia|]. by apply Ho, owned_ind.
Qed.

(** ** The table *)

Definition disk_inode (D : list (list Z)) (inum : Z) : option inode :=
  dinode_fill (blk D (IBLOCK inum sb)) (dinode_off inum) blank.

Definition put_inode (D : list (list Z)) (inum : Z) (ip : inode) : list (list Z) :=
  <[Z.to_nat (IBLOCK inum sb) := splice (blk D (IBLOCK inum sb)) (dinode_off inum) (dinode_bytes ip)]> D.

Section table.
Context (D : list (list Z)) (HL : length D = Z.to_nat FSSIZE) (HB : ∀ n d, D !! n = Some d → length d = BSIZE).

Lemma winode_ok fi fb inum ip :
  0 ≤ inum < 200 → winode inum ip (Mk D fi fb) = Ok tt (Mk (put_inode D inum ip) fi fb).
Proof.
  intros Hi. destruct (iblock_inum inum Hi) as [_ Hr]. unfold winode.
  rewrite (bind_ok _ _ _ _ _ (rsect_ok D fi fb (IBLOCK inum sb) HL ltac:(unfold FSSIZE; lia))).
  by apply wsect_ok; [|unfold FSSIZE; lia].
Qed.

Lemma rinode_ok fi fb inum ip :
  0 ≤ inum < 200 → disk_inode D inum = Some ip → rinode inum (Mk D fi fb) = Ok ip (Mk D fi fb).
Proof.
  intros Hi Hd. destruct (iblock_inum inum Hi) as [_ Hr]. unfold rinode.
  rewrite (bind_ok _ _ _ _ _ (rsect_ok D fi fb (IBLOCK inum sb) HL ltac:(unfold FSSIZE; lia))).
  unfold disk_inode in Hd. by rewrite Hd.
Qed.

Lemma put_inode_blk inum ip b :
  0 ≤ inum < 200 → 0 ≤ b → b < 32 ∨ 58 ≤ b → blk (put_inode D inum ip) b = blk D b.
Proof.
  intros Hi Hb Hr. destruct (iblock_inum inum Hi) as [_ Hi']. unfold put_inode.
  rewrite blk_insert by (rewrite ?HL; unfold FSSIZE; lia). by rewrite decide_False by lia.
Qed.

Lemma put_inode_same inum ip :
  0 ≤ inum < 200 → inode_wf ip → disk_inode (put_inode D inum ip) inum = Some (with_disk_fields ip blank).
Proof.
  intros Hi Hw. destruct (iblock_inum inum Hi) as [_ Hr]. unfold disk_inode, put_inode.
  rewrite blk_insert, decide_True by (done || rewrite ?HL; unfold FSSIZE; lia).
  apply dinode_read_back; [done|]. rewrite blk_length by (done || rewrite ?HL; unfold FSSIZE; lia). apply dinode_off_le. lia.
Qed.

Lemma put_inode_other inum ip j :
  0 ≤ inum < 200 → inode_wf ip → 0 ≤ j < 200 → j ≠ inum → disk_inode (put_inode D inum ip) j = disk_inode D j.
Proof.
  intros Hi Hw Hj Hne. destruct (iblock_inum inum Hi) as [Ei Hr], (iblock_inum j Hj) as [Ej Hr']. unfold disk_inode, put_inode.
  rewrite blk_insert by (rewrite ?HL; unfold FSSIZE; lia). case_decide as E; [|done]. rewrite E.
  apply dinode_others; [|lia|done|lia|apply iblock_off; lia].
  apply blk_length; [done|]. rewrite HL. unfold FSSIZE. lia.
Qed.

Lemma put_inode_len inum ip : length (put_inode D inum ip) = length D.
Proof. apply length_insert. Qed.

Lemma put_inode_blocks inum ip :
  0 ≤ inum < 200 → inode_wf ip → ∀ n d, put_inode D inum ip !! n = Some d → length d = BSIZE.
Proof.
  intros Hi Hw. destruct (iblock_inum inum Hi) as [_ Hr]. apply insert_blocks; [done|].
  rewrite length_splice; rewrite ?(length_dinode_bytes _ Hw), blk_length; try (done || rewrite ?HL; unfold FSSIZE; lia).
  apply dinode_off_le. lia.
Qed.
End table.

Lemma store_low D fb G D1 :
  store D fb G → length D1 = length D → (∀ n d, D1 !! n = Some d → length d = BSIZE) →
  (∀ b, 59 ≤ b → blk D1 b = blk D b) → store D1 fb G.
Proof.
  intros St Hl HB Hs. pose proof (so_fb _ _ _ St) as Hf. rewrite nmeta_59 in Hf. split; try apply St; [|done| |].
  - by rewrite Hl, (so_len _ _ _ St).
  - intros k g Hk. eapply placed_frame; [by eapply (so_placed _ _ _ St)|]. intros b Hb. apply Hs.
    pose proof (so_own _ _ _ St k g b Hk Hb) as Ho. rewrite nmeta_59 in Ho. lia.
  - intros b Hb. rewrite Hs by lia. apply (so_free _ _ _ St). lia.
Qed.

(** ** The invariant between operations *)

Record image (D : list (list Z)) (fi fb : Z) (G : list finfo) : Prop := Image {
  im_store : store D fb G;
  im_filled : Forall filled G;
  im_type : Forall (λ g, 0 ≤ g_type g < 2 ^ 15 ∧ (length (g_data g) ≤ max_bytes)%nat) G;
  im_fi : fi = 1 + Z.of_nat (length G);
  im_count : (length G < 200)%nat;
  im_fb : fb = nmeta + total G;
  im_table : ∀ k g, G !! k = Some g → disk_inode D (1 + Z.of_nat k) = Some (ino g);
  im_low : ∀ b, 0 ≤ b < 32 → blk D b = if decide (b = 1) then splice zeroes 0 sb_bytes else zeroes
}.

Lemma ino_disk g : with_disk_fields (ino g) blank = ino g.
Proof. done. Qed.

(** Writing inode [k + 1] as [g1] says. *)
Lemma image_winode D fi fb G k g1 :
  store D fb G → G !! k = Some g1 → 0 ≤ g_type g1 < 2 ^ 15 → (length (g_data g1) ≤ max_bytes)%nat → (k < 199)%nat →
  let D1 := put_inode D (1 + Z.of_nat k) (ino g1) in
  winode (1 + Z.of_nat k) (ino g1) (Mk D fi fb) = Ok tt (Mk D1 fi fb) ∧ store D1 fb G ∧
  disk_inode D1 (1 + Z.of_nat k) = Some (ino g1) ∧
  (∀ j, 0 ≤ j < 200 → j ≠ 1 + Z.of_nat k → disk_inode D1 j = disk_inode D j) ∧
  ∀ b, 0 ≤ b < 32 → blk D1 b = blk D b.
Proof.
  intros St Hk Ht Hm Hn. cbv zeta. pose proof (so_len _ _ _ St) as HL. pose proof (so_blk _ _ _ St) as HB.
  pose proof (ino_wf D fb G k g1 St Hk Ht Hm) as Hw. split_and!.
  - apply winode_ok; [done|lia].
  - eapply store_low; [done|apply put_inode_len|apply put_inode_blocks; [done|done|lia|done]|].
    intros b Hb. apply put_inode_blk; [done|lia|lia|lia].
  - rewrite put_inode_same by (done || lia). by rewrite ino_disk.
  - intros j Hj Hne. by apply put_inode_other; [done|done|lia| | |].
  - intros b Hb. apply put_inode_blk; [done|lia|lia|lia].
Qed.

Lemma iappend_ok D fi fb G k g p :
  image D fi fb G → G !! k = Some g → (length (g_data g) + length p ≤ max_bytes)%nat →
  fb + blocks_of (length (g_data g) + length p) ≤ FSSIZE + blocks_of (length (g_data g)) →
  ∃ D1 fb1 g1, iappend (1 + Z.of_nat k) p (Mk D fi fb) = Ok tt (Mk D1 fi fb1) ∧
    image D1 fi fb1 (<[k := g1]> G) ∧ g_type g1 = g_type g ∧ g_data g1 = g_data g ++ p.
Proof.
  intros I Hk Hmax Hfb. pose proof (im_store _ _ _ _ I) as St. pose proof (lookup_lt_Some _ _ _ Hk) as Hlt.
  pose proof (im_count _ _ _ _ I) as Hc. pose proof (im_table _ _ _ _ I k g Hk) as Htab.
  destruct (proj1 (Forall_lookup _ _) (im_type _ _ _ _ I) k g Hk) as [Hty _].
  unfold iappend. rewrite (bind_ok _ _ _ _ _ (rinode_ok D (so_len _ _ _ St) fi fb (1 + Z.of_nat k) _ ltac:(lia) Htab)).
  destruct (append_while (S (length p)) D fi fb G k g (ino g) p) as (D1 & fb1 & g1 & R & St1 & Hf1 & Ht1 & Hd1 & Hfb1 & Hlow1); try done;
    [lia|by apply (proj1 (Forall_lookup _ _) (im_filled _ _ _ _ I) k)|].
  cbn [ino i_size]. rewrite (bind_ok _ _ _ _ _ R).
  replace (set_i_size (Z.of_nat (length (g_data g1))) (set_i_addrs (addrs g1) (ino g))) with (ino g1) by (unfold ino; cbn; by rewrite Ht1).
  assert (length (g_data g1) ≤ max_bytes)%nat as Hm1 by (rewrite Hd1, length_app; lia).
  destruct (image_winode D1 fi fb1 (<[k := g1]> G) k g1) as (R2 & St2 & Hino & Hoth & Hlow2);
    [done|by apply list_lookup_insert_eq|by rewrite Ht1|done|lia|].
  eexists _, fb1, g1. split; [exact R2|]. split; [|done]. split.
  - done.
  - apply Forall_insert; [apply I|done].
  - apply Forall_insert; [apply I|]. by rewrite Ht1.
  - rewrite length_insert. apply I.
  - by rewrite length_insert.
  - pose proof (total_insert G k g g1 Hk). pose proof (im_fb _ _ _ _ I). lia.
  - intros j h [(<- & <- & _)|[Hj Hh]]%list_lookup_insert_Some; [done|].
    pose proof (lookup_lt_Some _ _ _ Hh). rewrite Hoth by lia. rewrite <- (im_table _ _ _ _ I j h Hh). unfold disk_inode.
    destruct (iblock_inum (1 + Z.of_nat j) ltac:(lia)) as [_ ?]. rewrite Hlow1; [done|]. rewrite nmeta_59. lia.
  - intros b Hb. rewrite Hlow2, Hlow1 by (rewrite ?nmeta_59; lia). by apply I.
Qed.

Lemma snoc_lookup {A} (l : list A) x k y : (l ++ [x]) !! k = Some y → l !! k = Some y ∨ k = length l ∧ y = x.
Proof.
  intros [H|[Hk Hy]]%lookup_app_Some; [by left|]. right. destruct (k - length l)%nat as [|n] eqn:E; [|done].
  injection Hy as ->. split; [lia|done].
Qed.

Lemma ialloc_ok D fi fb G ty :
  image D fi fb G → (length G < 199)%nat → 0 ≤ ty < 2 ^ 15 →
  ∃ D1, ialloc ty (Mk D fi fb) = Ok fi (Mk D1 (fi + 1) fb) ∧ image D1 (fi + 1) fb (G ++ [Finfo ty [] 0 []]).
Proof.
  intros I Hc Hty. pose proof (im_store _ _ _ _ I) as St. pose proof (im_fi _ _ _ _ I) as Hfi. set (g1 := Finfo ty [] 0 []).
  assert (placed D g1) as P by (by split; cbn; try lia; try constructor).
  assert (store D fb (G ++ [g1])) as St1.
  { split; try apply St.
    - intros k g [Hk|[_ ->]]%snoc_lookup; [by eapply (so_placed _ _ _ St)|done].
    - intros k g b [Hk|[_ ->]]%snoc_lookup Hb; [by eapply (so_own _ _ _ St)|by apply elem_of_nil in Hb].
    - intros i j g h b [Hi|[_ ->]]%snoc_lookup [Hj|[_ ->]]%snoc_lookup Hb Hb';
        try (by apply elem_of_nil in Hb); try (by apply elem_of_nil in Hb'). by eapply (so_dis _ _ _ St). }
  unfold ialloc. rewrite (bind_ok _ _ _ _ _ (gets_ok _ _)), (bind_ok _ _ _ _ _ (modify_ok _ _)). cbn [img freeinode freeblock].
  rewrite (u32_small (fi + 1)) by lia.
  destruct (image_winode D (fi + 1) fb (G ++ [g1]) (length G) g1) as (R & St2 & Hino & Hoth & Hlow);
    [done|by rewrite lookup_app_r, Nat.sub_diag by lia|done|apply Nat.le_0_l|lia|].
  change (set_i_nlink 1 (set_i_type ty blank)) with (ino g1). rewrite <- Hfi in R, St2, Hino, Hoth, Hlow. rewrite (bind_ok _ _ _ _ _ R).
  eexists. split; [reflexivity|]. split; [exact St2| | | | | | |].
  - apply Forall_app_2; [apply I|by apply Forall_singleton].
  - apply Forall_app_2; [apply I|]. apply Forall_singleton. split; [done|apply Nat.le_0_l].
  - rewrite length_app. cbn. lia.
  - rewrite length_app. cbn. lia.
  - rewrite total_snoc. cbn. rewrite (im_fb _ _ _ _ I). change (blocks_of 0) with 0. lia.
  - intros k g [Hk|[-> ->]]%snoc_lookup; [|by rewrite <- Hfi]. pose proof (lookup_lt_Some _ _ _ Hk). rewrite Hoth by lia. by apply I.
  - intros b Hb. rewrite Hlow by done. by apply I.
Qed.

(** ** Contents *)

Definition shape (G : list finfo) : list (Z * list Z) := (λ g, (g_type g, g_data g)) <$> G.
Fixpoint need_blocks (l : list (Z * list Z)) : Z :=
  match l with [] => 0 | x :: l => blocks_of (length x.2) + need_blocks l end.

Lemma total_shape G : total G = need_blocks (shape G).
Proof. induction G as [|g G IH]; cbn [total shape fmap list_fmap need_blocks] in *; [done|]. by rewrite IH. Qed.

Lemma need_app l l' : need_blocks (l ++ l') = need_blocks l + need_blocks l'.
Proof. induction l as [|x l IH]; cbn [app need_blocks]; [done|]. rewrite IH. lia. Qed.

Lemma blocks_nonneg n : 0 ≤ blocks_of n.
Proof. unfold blocks_of. case_decide; lia. Qed.

Lemma shape_insert G k g1 : shape (<[k := g1]> G) = <[k := (g_type g1, g_data g1)]> (shape G).
Proof. apply (list_fmap_insert (λ g, (g_type g, g_data g))). Qed.

Lemma iappend_shape D fi fb G k t c p :
  image D fi fb G → shape G !! k = Some (t, c) → (length (c ++ p) ≤ max_bytes)%nat →
  nmeta + need_blocks (<[k := (t, c ++ p)]> (shape G)) ≤ FSSIZE →
  ∃ D1 fb1 G1, iappend (1 + Z.of_nat k) p (Mk D fi fb) = Ok tt (Mk D1 fi fb1) ∧
    image D1 fi fb1 G1 ∧ shape G1 = <[k := (t, c ++ p)]> (shape G).
Proof.
  intros I Hk Hm Hfb. apply list_lookup_fmap_Some in Hk as (g & [= -> ->] & Hk). rewrite length_app in Hm.
  assert (fb + blocks_of (length (g_data g) + length p) ≤ FSSIZE + blocks_of (length (g_data g))) as Hcap.
  { pose proof (total_insert G k g (Finfo (g_type g) [] 0 (g_data g ++ p)) Hk) as Ht.
    rewrite (total_shape (<[k := _]> G)), shape_insert in Ht. cbn [g_type g_data] in Ht. rewrite length_app in Ht.
    pose proof (im_fb _ _ _ _ I). lia. }
  destruct (iappend_ok D fi fb G k g p I Hk Hm Hcap) as (D1 & fb1 & g1 & R & I1 & Ht & Hd).
  exists D1, fb1, (<[k := g1]> G). split; [done|]. split; [done|]. by rewrite shape_insert, Ht, Hd.
Qed.

(** The name in the directory, and the directory's entries. *)
Definition file_name (arg : list Z) : list Z := match arg with 95 :: name => name | _ => arg end.
Definition entries (files : list (list Z * list (list Z))) : list Z :=
  concat (imap (λ i f, dirent_bytes (2 + Z.of_nat i) (file_name f.1)) files).
Definition root_data (files : list (list Z * list (list Z))) : list Z :=
  dirent_bytes 1 (chars ".") ++ dirent_bytes 1 (chars "..") ++ entries files.
(** What the image should contain. *)
Definition contents (files : list (list Z * list (list Z))) : list (Z * list Z) :=
  (T_DIR, root_data files) :: ((λ f, (T_FILE, concat f.2)) <$> files).

Lemma entries_snoc files f :
  entries (files ++ [f]) = entries files ++ dirent_bytes (2 + Z.of_nat (length files)) (file_name f.1).
Proof. unfold entries. rewrite imap_app. cbn. rewrite concat_app. cbn. by rewrite app_nil_r, Nat.add_0_r. Qed.

Lemma dirent_length inum name : length (dirent_bytes inum name) = 16%nat.
Proof. unfold dirent_bytes. rewrite length_app, length_le_bytes, length_take, length_app, length_replicate. unfold DIRSIZ. lia. Qed.

Lemma entries_length files : length (entries files) = (16 * length files)%nat.
Proof.
  induction files as [|f l IH] using rev_ind; [done|]. rewrite entries_snoc, length_app, IH, dirent_length, length_app. cbn. lia.
Qed.

Lemma pieces_ok inum base pieces : ∀ D fi fb G c,
  inum = 1 + Z.of_nat (length base) → image D fi fb G → shape G = base ++ [(T_FILE, c)] →
  (length (c ++ concat pieces) ≤ max_bytes)%nat →
  nmeta + need_blocks (base ++ [(T_FILE, c ++ concat pieces)]) ≤ FSSIZE →
  ∃ D1 fb1 G1, for_each pieces (λ buf, iappend inum buf) (Mk D fi fb) = Ok tt (Mk D1 fi fb1) ∧
    image D1 fi fb1 G1 ∧ shape G1 = base ++ [(T_FILE, c ++ concat pieces)].
Proof.
  induction pieces as [|p ps IH]; intros D fi fb G c -> I Hs Hm Hfb.
  { exists D, fb, G. cbn. by rewrite app_nil_r. }
  cbn [concat for_each] in *. rewrite app_assoc in *.
  assert (blocks_of (length (c ++ p)) ≤ blocks_of (length ((c ++ p) ++ concat ps))) as Hle.
  { apply blocks_mono. rewrite (length_app (c ++ p)). lia. }
  rewrite need_app in Hfb. cbn [need_blocks snd] in Hfb.
  destruct (iappend_shape D fi fb G (length base) T_FILE c p) as (D1 & fb1 & G1 & R & I1 & Hs1).
  - done.
  - by rewrite Hs, lookup_app_r, Nat.sub_diag by lia.
  - rewrite (length_app (c ++ p)) in Hm. lia.
  - rewrite Hs, insert_app_r_alt, Nat.sub_diag by lia. change (<[0%nat := ?x]> [?y]) with [x]. rewrite need_app. cbn [need_blocks snd]. lia.
  - rewrite (bind_ok _ _ _ _ _ R). destruct (IH D1 fi fb1 G1 (c ++ p)) as (D2 & fb2 & G2 & R2 & I2 & Hs2); [done|done| |done| |by exists D2, fb2, G2].
    + by rewrite Hs1, Hs, insert_app_r_alt, Nat.sub_diag by lia.
    + rewrite need_app. cbn [need_blocks snd]. lia.
Qed.

(** A file that can be added. *)
Definition valid_file (f : list Z * list (list Z)) : Prop := 47 ∉ f.1 ∧ (length (concat f.2) ≤ max_bytes)%nat.

Lemma root_data_snoc fs f :
  root_data (fs ++ [f]) = root_data fs ++ dirent_bytes (2 + Z.of_nat (length fs)) (file_name f.1).
Proof. unfold root_data. by rewrite entries_snoc, <- !app_assoc. Qed.

Lemma root_data_length fs : length (root_data fs) = (32 + 16 * length fs)%nat.
Proof. unfold root_data. rewrite !length_app, !dirent_length, entries_length. lia. Qed.

Lemma contents_snoc fs f :
  contents (fs ++ [f]) = ((T_DIR, root_data (fs ++ [f])) :: ((λ f, (T_FILE, concat f.2)) <$> fs)) ++ [(T_FILE, concat f.2)].
Proof. unfold contents. by rewrite fmap_app. Qed.

Lemma add_file_ok D fi fb G fs f :
  image D fi fb G → shape G = contents fs → (length fs < 198)%nat → valid_file f →
  nmeta + need_blocks (contents (fs ++ [f])) ≤ FSSIZE →
  ∃ D1 fb1 G1, add_file 1 f (Mk D fi fb) = Ok tt (Mk D1 (fi + 1) fb1) ∧ image D1 (fi + 1) fb1 G1 ∧ shape G1 = contents (fs ++ [f]).
Proof.
  intros I Hs Hn [Hname Hlen] Hfb. destruct f as [arg pieces]. cbn [fst snd] in *.
  assert (length G = S (length fs)) as HG by (rewrite <- (length_fmap (λ g, (g_type g, g_data g))); fold (shape G); rewrite Hs; cbn; by rewrite length_fmap).
  pose proof (im_fi _ _ _ _ I) as Hfi. rewrite contents_snoc in *. set (rd := root_data (fs ++ [(arg, pieces)])) in *.
  set (old := (λ f, (T_FILE, concat f.2)) <$> fs) in *. rewrite need_app in Hfb. cbn [need_blocks snd fst] in Hfb.
  pose proof (blocks_nonneg (length (concat pieces))).
  unfold add_file. rewrite bool_decide_eq_false_2 by done. fold (file_name arg).
  destruct (ialloc_ok D fi fb G T_FILE) as (D1 & R1 & I1); [done|lia|unfold T_FILE; lia|].
  rewrite (bind_ok _ _ _ _ _ R1).
  assert (shape (G ++ [Finfo T_FILE [] 0 []]) = (T_DIR, root_data fs) :: old ++ [(T_FILE, [])]) as Hs1.
  { unfold shape. rewrite fmap_app. fold (shape G). by rewrite Hs. }
  assert (rd = root_data fs ++ dirent_bytes fi (file_name arg)) as Hrd.
  { unfold rd. rewrite root_data_snoc. cbn [fst]. do 2 f_equal. lia. }
  destruct (iappend_shape D1 (fi + 1) fb _ 0 T_DIR (root_data fs) (dirent_bytes fi (file_name arg)) I1) as (D2 & fb2 & G2 & R2 & I2 & Hs2).
  - by rewrite Hs1.
  - rewrite <- Hrd. unfold rd. rewrite root_data_length, length_app. cbn [length]. unfold max_bytes. lia.
  - rewrite Hs1, <- Hrd. change (<[0%nat := ?x]> (?y :: ?l)) with (x :: l). cbn [need_blocks snd]. rewrite need_app. cbn [need_blocks snd].
    change (blocks_of (length [])) with 0. lia.
  - change (1 + Z.of_nat 0) with 1 in R2. rewrite (bind_ok _ _ _ _ _ R2).
    destruct (pieces_ok fi ((T_DIR, rd) :: old) pieces D2 (fi + 1) fb2 G2 []) as (D3 & fb3 & G3 & R3 & I3 & Hs3).
    + cbn [length]. unfold old. rewrite length_fmap. lia.
    + done.
    + by rewrite Hs2, Hs1, <- Hrd.
    + done.
    + rewrite need_app. cbn [need_blocks snd app]. lia.
    + by exists D3, fb3, G3.
Qed.

Lemma files_ok : ∀ todo D fi fb G fs,
  image D fi fb G → shape G = contents fs → (length (fs ++ todo) ≤ 198)%nat → Forall valid_file todo →
  nmeta + need_blocks (contents (fs ++ todo)) ≤ FSSIZE →
  ∃ D1 fi1 fb1 G1, for_each todo (add_file 1) (Mk D fi fb) = Ok tt (Mk D1 fi1 fb1) ∧ image D1 fi1 fb1 G1 ∧
    shape G1 = contents (fs ++ todo).
Proof.
  induction todo as [|f todo IH]; intros D fi fb G fs I Hs Hn Hv Hfb.
  { exists D, fi, fb, G. by rewrite app_nil_r. }
  apply Forall_cons_1 in Hv as [Hf Hv]. rewrite cons_middle, app_assoc in *. cbn [for_each].
  assert (need_blocks (contents (fs ++ [f])) ≤ need_blocks (contents ((fs ++ [f]) ++ todo))) as Hle.
  { unfold contents. rewrite (fmap_app _ (fs ++ [f])). cbn [need_blocks snd]. rewrite need_app.
    assert (∀ l : list (list Z * list (list Z)), 0 ≤ need_blocks ((λ f, (T_FILE, concat f.2)) <$> l)) as Hpos.
    { induction l as [|x l IHl]; [done|]. cbn [fmap list_fmap need_blocks]. pose proof (blocks_nonneg (length (T_FILE, concat x.2).2)). lia. }
    pose proof (Hpos todo). pose proof (blocks_mono (length (root_data (fs ++ [f]))) (length (root_data ((fs ++ [f]) ++ todo)))) as Hb.
    rewrite !root_data_length, (length_app (fs ++ [f])) in Hb. specialize (Hb ltac:(lia)). rewrite !root_data_length, (length_app (fs ++ [f])). lia. }
  rewrite !length_app in Hn. cbn [length] in Hn.
  destruct (add_file_ok D fi fb G fs f) as (D1 & fb1 & G1 & R & I1 & Hs1); try done; try lia.
  rewrite (bind_ok _ _ _ _ _ R).
  destruct (IH D1 (fi + 1) fb1 G1 (fs ++ [f])) as (D2 & fi2 & fb2 & G2 & R2 & I2 & Hs2); try done; [rewrite !length_app; cbn; lia|].
  by exists D2, fi2, fb2, G2.
Qed.

(** ** The bitmap *)

Definition bit_of (d : list Z) (b : Z) : bool := Z.testbit (default 0 (d !! Z.to_nat (b / 8))) (b `mod` 8).

Lemma bits_set n b :
  (n ≤ 4096)%nat → 0 ≤ b < 4096 →
  let d := foldl (λ b i, set_bit b (Z.of_nat i)) zeroes (seq 0 n) in
  bit_of d b = bool_decide (b < Z.of_nat n) ∧ length d = BSIZE.
Proof.
  intros Hn Hb. cbv zeta. induction n as [|n IH].
  { cbn [seq foldl]. split; [|done]. rewrite bool_decide_eq_false_2 by lia. unfold bit_of, zeroes.
    assert (0 ≤ b / 8 < 512) by (split; [apply Z.div_pos; lia|apply Z.div_lt_upper_bound; lia]).
    rewrite lookup_replicate_2 by (unfold BSIZE; lia). apply Z.bits_0. }
  destruct IH as [IH Hl]; [lia|]. rewrite seq_S, foldl_app. cbn [foldl Nat.add].
  set (d := foldl (λ b i, set_bit b (Z.of_nat i)) zeroes (seq 0 n)) in *. set (m := Z.of_nat n) in *.
  split; [|unfold set_bit; by rewrite length_alter].
  assert (0 ≤ m / 8 < 512) as Hm by (split; [apply Z.div_pos; lia|apply Z.div_lt_upper_bound; lia]).
  assert (0 ≤ b / 8 < 512) as Hb8 by (split; [apply Z.div_pos; lia|apply Z.div_lt_upper_bound; lia]).
  pose proof (Z.div_mod m 8 ltac:(lia)) as Em. pose proof (Z.div_mod b 8 ltac:(lia)) as Eb.
  pose proof (Z.mod_pos_bound m 8 ltac:(lia)). pose proof (Z.mod_pos_bound b 8 ltac:(lia)).
  unfold bit_of, set_bit in *. destruct (decide (m / 8 = b / 8)) as [E|E].
  - rewrite <- E in IH |- *. rewrite list_lookup_alter_eq. destruct (lookup_lt_is_Some_2 d (Z.to_nat (m / 8))) as [x Hx]; [unfold BSIZE in Hl; lia|].
    rewrite Hx in *. change (Z.testbit x (b `mod` 8) = bool_decide (b < m)) in IH.
    change (Z.testbit (Z.lor x (Z.shiftl 1 (m `mod` 8))) (b `mod` 8) = bool_decide (b < Z.of_nat (S n))).
    rewrite Z.lor_spec, IH, Z.shiftl_spec by lia.
    destruct (decide (b `mod` 8 = m `mod` 8)) as [E'|E'].
    + rewrite E', Z.sub_diag. change (Z.testbit 1 0) with true. rewrite orb_true_r. symmetry. apply bool_decide_eq_true_2. lia.
    + assert (Z.testbit 1 (b `mod` 8 - m `mod` 8) = false) as ->.
      { destruct (decide (b `mod` 8 < m `mod` 8)); [apply Z.testbit_neg_r; lia|]. apply Z.bits_above_log2; [lia|]. cbn. lia. }
      rewrite orb_false_r. apply bool_decide_ext. lia.
  - rewrite list_lookup_alter_ne by lia. rewrite IH. apply bool_decide_ext. lia.
Qed.

Lemma zero_image n : (n ≤ 1000)%nat → for_each (seq 0 n) (λ i, wsect (Z.of_nat i) zeroes) (Mk [] 1 nmeta) =
  Ok tt (Mk (replicate n zeroes) 1 nmeta).
Proof.
  assert (∀ m k, (k + m ≤ 1000)%nat → for_each (seq k m) (λ i, wsect (Z.of_nat i) zeroes) (Mk (replicate k zeroes) 1 nmeta) =
    Ok tt (Mk (replicate (k + m) zeroes) 1 nmeta)) as H; [|intros Hn; by apply (H n 0%nat)].
  induction m as [|m IH]; intros k Hk; [by rewrite Nat.add_0_r|]. cbn [seq for_each].
  rewrite (bind_ok _ _ _ tt (Mk (replicate (S k) zeroes) 1 nmeta)).
  - rewrite IH by lia. do 3 f_equal. lia.
  - unfold wsect. rewrite modify_ok. cbn [img freeinode freeblock]. rewrite sector_small by (unfold FSSIZE; lia).
    rewrite Nat2Z.id, length_replicate. replace (S k - k)%nat with 1%nat by lia. cbn [replicate].
    do 2 f_equal. rewrite insert_app_r_alt by (rewrite length_replicate; lia). rewrite length_replicate, Nat.sub_diag.
    cbn. by rewrite <- replicate_S_end.
Qed.
