(* ===== verification/MkfsProps.v ===== *)
(** * Building the first file system: what the kernel finds

    mkfs.c builds an image with the files it was given, and the kernel's [readi]
    reads them back from a machine booted with that image. *)
From S2P Require Import Prelude Spinlock Str Ptable PtableLists Sched Choice Scheduling Services Kalloc BioRing Bio BioFacts BioProps BufSpec DiskFmt Log LogFacts Crash Txn LogProps Fs FsProps FsRead Mkfs MkfsFacts MkfsBuild.

(** The finished image: [G] describes its inodes, the root directory first. *)
Record finished (D : list (list Z)) (used : Z) (G : list finfo) : Prop := Finished {
  fin_store : store D used G;
  fin_filled : Forall filled G;
  fin_sb : superblock_of (blk D 1) = Some sb;
  fin_log : ∀ b, 2 ≤ b < 32 → blk D b = zeroes;
  fin_root : ∀ g, G !! 0%nat = Some g →
    disk_inode D 1 = Some (set_i_size ((Z.of_nat (length (g_data g)) / 512 + 1) * 512) (ino g));
  fin_inodes : ∀ k g, G !! k = Some g → (0 < k)%nat → disk_inode D (1 + Z.of_nat k) = Some (ino g);
  fin_bitmap : ∀ b, 0 ≤ b < 4096 → bit_of (blk D 58) b = bool_decide (b < used)
}.

Lemma image_start :
  image (<[1%nat := splice zeroes 0 sb_bytes]> (replicate 1000 zeroes)) 1 nmeta [].
Proof.
  assert (∀ n d, (replicate 1000 zeroes : list (list Z)) !! n = Some d → length d = BSIZE) as HB.
  { intros n d [-> _]%lookup_replicate. apply length_replicate. }
  assert (∀ b, 0 ≤ b < FSSIZE → blk (replicate 1000 zeroes) b = zeroes) as Hz.
  { intros b Hb. unfold blk. rewrite lookup_replicate_2; [done|]. unfold FSSIZE in Hb. lia. }
  assert (length (splice zeroes 0 sb_bytes) = BSIZE) as Hsb by done.
  change 1%nat with (Z.to_nat 1) at 1.
  split; [split|constructor|constructor|done|cbn; lia|done|done|].
  - by rewrite length_insert, length_replicate.
  - by apply insert_blocks.
  - rewrite nmeta_59. unfold FSSIZE. lia.
  - done.
  - done.
  - done.
  - intros b Hb. rewrite nmeta_59 in Hb. rewrite blk_insert by (rewrite ?length_replicate; lia).
    rewrite decide_False by lia. apply Hz. lia.
  - intros b Hb. rewrite blk_insert by (rewrite ?length_replicate; lia). case_decide; [done|]. apply Hz. unfold FSSIZE. lia.
Qed.

(** The end of [main]: the size of the root directory and the bitmap. *)
Lemma main_end_ok D fi fb G :
  image D fi fb G → G ≠ [] →
  ∃ D1, (din ← rinode 1;
         let off := i_size din in
         let off := u32 ((off / Z.of_nat BSIZE + 1) * Z.of_nat BSIZE) in
         winode 1 (set_i_size off din);;
         used ← gets freeblock;
         balloc used) (Mk D fi fb) = Ok tt (Mk D1 fi fb) ∧ finished D1 fb G.
Proof.
  intros I Hne. pose proof (im_store _ _ _ _ I) as St. pose proof (so_fb _ _ _ St) as Hfb. rewrite nmeta_59 in Hfb.
  pose proof (so_len _ _ _ St) as HL. pose proof (so_blk _ _ _ St) as HB.
  destruct G as [|g G]; [done|]. pose proof (im_table _ _ _ _ I 0%nat g eq_refl) as Hroot. change (1 + Z.of_nat 0) with 1 in Hroot.
  destruct (Forall_cons_1 _ _ _ (im_type _ _ _ _ I)) as [[Hty Hlen] _].
  assert (0 ≤ Z.of_nat (length (g_data g)) / 512 ≤ 140) as Hdiv.
  { split; [apply Z.div_pos; lia|]. apply Z.div_le_upper_bound; [lia|]. unfold max_bytes in Hlen. lia. }
  set (ip := set_i_size ((Z.of_nat (length (g_data g)) / 512 + 1) * 512) (ino g)).
  assert (inode_wf ip) as Hwf.
  { destruct (ino_wf D fb (g :: G) 0 g St eq_refl Hty Hlen) as [H1 H2 H3 H4 _ H5 H6]. split; try done. cbn. lia. }
  rewrite (bind_ok _ _ _ _ _ (rinode_ok D HL fi fb 1 _ ltac:(lia) Hroot)). cbn [ino i_size]. change (Z.of_nat BSIZE) with 512.
  cbv zeta. rewrite u32_small by lia. fold (ino g). fold ip.
  rewrite (bind_ok _ _ _ _ _ (winode_ok D HL fi fb 1 ip ltac:(lia))), (bind_ok _ _ _ _ _ (gets_ok _ _)). cbn [freeblock].
  unfold balloc. rewrite (proj2 (Z.ltb_lt fb _)) by (unfold FSSIZE, BSIZE in *; lia). cbn [negb].
  set (map := foldl _ zeroes (seq 0 (Z.to_nat fb))). change (sb_bmapstart sb) with 58.
  assert (length (put_inode D 1 ip) = Z.to_nat FSSIZE) as HL1 by (by rewrite put_inode_len).
  rewrite wsect_ok by (done || unfold FSSIZE; lia). eexists. split; [done|].
  assert (∀ b, 0 ≤ b < 4096 → bit_of map b = bool_decide (b < fb) ∧ length map = BSIZE) as Hmap.
  { intros b Hb. destruct (bits_set (Z.to_nat fb) b) as [H1 H2]; [unfold FSSIZE in Hfb; lia|done|]. split; [|done].
    fold map in H1. rewrite H1. apply bool_decide_ext. lia. }
  assert (∀ b, 0 ≤ b → b ≠ 58 → blk (<[Z.to_nat 58 := map]> (put_inode D 1 ip)) b = blk (put_inode D 1 ip) b) as Hb58.
  { intros b Hb Hn. rewrite blk_insert by (rewrite ?HL1; unfold FSSIZE; lia). by rewrite decide_False. }
  assert (∀ j, 0 ≤ j < 200 → disk_inode (<[Z.to_nat 58 := map]> (put_inode D 1 ip)) j = disk_inode (put_inode D 1 ip) j) as Hdi.
  { intros j Hj. unfold disk_inode. destruct (iblock_inum j Hj) as [_ ?]. by rewrite Hb58 by lia. }
  split.
  - eapply (store_low D); [done|by rewrite length_insert, HL1|apply insert_blocks|].
    + by apply put_inode_blocks; [done|done|lia|].
    + apply (Hmap 0). lia.
    + intros b Hb. rewrite Hb58 by lia. by apply put_inode_blk; [done|lia|lia|lia].
  - apply I.
  - rewrite Hb58, put_inode_blk, (im_low _ _ _ _ I) by (done || lia). done.
  - intros b Hb. rewrite Hb58, put_inode_blk, (im_low _ _ _ _ I) by (done || lia). by rewrite decide_False by lia.
  - intros g' [= <-]. rewrite Hdi by lia. rewrite put_inode_same by (done || lia). done.
  - intros k g' Hk Hk0. pose proof (lookup_lt_Some _ _ _ Hk). pose proof (im_count _ _ _ _ I). rewrite Hdi by lia.
    rewrite put_inode_other by (done || lia). by apply I.
  - intros b Hb. rewrite blk_insert, decide_True by (done || rewrite ?HL1; unfold FSSIZE; lia). by apply Hmap.
Qed.

Lemma mkfs_ok files :
  (length files ≤ 198)%nat → Forall valid_file files → nmeta + need_blocks (contents files) ≤ FSSIZE →
  ∃ D fi fb G, mkfs files = Ok tt (Mk D fi fb) ∧ finished D fb G ∧ shape G = contents files.
Proof.
  intros Hn Hv Hfb. unfold mkfs, mkfs_main.
  rewrite (bind_ok _ _ _ _ _ (zero_image (Z.to_nat FSSIZE) ltac:(unfold FSSIZE; lia))).
  change (replicate (Z.to_nat FSSIZE) zeroes) with (replicate 1000 zeroes : list (list Z)).
  rewrite (bind_ok _ _ _ _ _ (wsect_ok (replicate 1000 zeroes) 1 nmeta 1 (splice zeroes 0 sb_bytes) ltac:(by rewrite length_replicate) ltac:(unfold FSSIZE; lia))).
  destruct (ialloc_ok _ _ _ [] T_DIR image_start) as (D1 & R1 & I1); [cbn; lia|unfold T_DIR; lia|].
  change (Z.to_nat 1) with 1%nat. rewrite (bind_ok _ _ _ _ _ R1). rewrite (bind_ok _ _ _ tt (Mk D1 (1 + 1) nmeta)) by done.
  assert (∀ d, (length d ≤ 32)%nat → nmeta + need_blocks [(T_DIR, d)] ≤ FSSIZE) as Hcap.
  { intros d Hd. cbn [need_blocks snd]. pose proof (blocks_mono (length d) 32 Hd). change (blocks_of 32) with 1 in *.
    rewrite nmeta_59. unfold FSSIZE. lia. }
  destruct (iappend_shape D1 (1 + 1) nmeta _ 0 T_DIR [] (dirent_bytes 1 (chars ".")) I1) as (D2 & fb2 & G2 & R2 & I2 & Hs2);
    [done|cbn [app]; rewrite dirent_length; unfold max_bytes; lia|apply Hcap; cbn [app]; rewrite dirent_length; lia|].
  change (1 + Z.of_nat 0) with 1 in R2. rewrite (bind_ok _ _ _ _ _ R2).
  destruct (iappend_shape D2 (1 + 1) fb2 G2 0 T_DIR (dirent_bytes 1 (chars ".")) (dirent_bytes 1 (chars "..")) I2) as (D3 & fb3 & G3 & R3 & I3 & Hs3);
    [by rewrite Hs2|rewrite length_app, !dirent_length; unfold max_bytes; lia|rewrite Hs2; apply Hcap; rewrite length_app, !dirent_length; lia|].
  change (1 + Z.of_nat 0) with 1 in R3. rewrite (bind_ok _ _ _ _ _ R3).
  destruct (files_ok files D3 (1 + 1) fb3 G3 []) as (D4 & fi4 & fb4 & G4 & R4 & I4 & Hs4); try done; [by rewrite Hs3, Hs2|].
  rewrite (bind_ok _ _ _ _ _ R4). destruct (main_end_ok D4 fi4 fb4 G4 I4) as (D5 & R5 & F5); [by intros ->|].
  exists D5, fi4, fb4, G4. done.
Qed.

(** ** Reading with the kernel *)

Lemma dinode_fill_entry d off e : dinode_fill d off e = (λ ip, with_disk_fields ip e) <$> dinode_fill d off blank.
Proof.
  unfold dinode_fill. destruct (get16 d off), (get16 d (off + 2)), (get16 d (off + 4)), (get16 d (off + 6)), (get32 d (off + 8)),
    (addrs_of d (off + 12) _); done.
Qed.

Section kernel.
Context {B : Type} {O : KOps B} {W : KLaws B} (retries : nat).
Context (dev_read : Z → option (nat → Z → K (ist B) (Z * list Z))).

Lemma file_addr D used G k g (b : bst B) e bn a :
  store D used G → G !! k = Some g → (∀ n, 0 ≤ n → lblk b n = D !! Z.to_nat n) →
  g_blocks g !! Z.to_nat bn = Some a → 0 ≤ bn → faddr b (with_disk_fields (ino g) e) bn = Some a.
Proof.
  intros St Hk HD Ha Hbn. pose proof (so_placed _ _ _ St k g Hk) as P. pose proof (lookup_lt_Some _ _ _ Ha) as Hl.
  pose proof (pl_max _ _ P) as Hm. pose proof (so_fb _ _ _ St) as Hfb. pose proof (so_own _ _ _ St k g a Hk) as Hoa.
  specialize (Hoa (owned_blocks _ _ (list_elem_of_lookup_2 _ _ _ Ha))).
  unfold faddr, with_disk_fields, NDIRECT, NINDIRECT. cbn [i_addrs ino].
  destruct (Z.ltb_spec bn 12) as [H12|H12]; [by apply addrs_direct; [lia|]|].
  rewrite (proj2 (Z.ltb_lt _ _)) by lia. destruct (addrs_ind g Hm) as [Hi _]. change (Z.to_nat 12) with 12%nat. rewrite Hi.
  destruct (pl_ind _ _ P ltac:(lia)) as [Hz Hw]. pose proof (so_own _ _ _ St k g _ Hk (owned_ind _ Hz)) as Ho. rewrite nmeta_59 in *.
  assert (lblk b (g_ind g) = Some (wblock (ind_words (g_blocks g)))) as Hlb.
  { etransitivity; [apply HD; lia|]. rewrite <- Hw. unfold blk.
    destruct (lookup_lt_is_Some_2 D (Z.to_nat (g_ind g))) as [d Hd]; [rewrite (so_len _ _ _ St); lia|]. etransitivity; [exact Hd|]. by rewrite Hd. }
  cbn [mbind option_bind]. rewrite Hlb. cbn [mbind option_bind]. replace (4 * Z.to_nat (bn - 12))%nat with (4 * (Z.to_nat bn - 12))%nat by lia.
  apply wblock_get; [apply ind_words_get; [lia|done]|unfold FSSIZE in *; lia].
Qed.

Lemma blocks_lookup D bs p :
  (∀ b, b ∈ bs → length (blk D b) = BSIZE) →
  concat (blk D <$> bs) !! p = (b ← bs !! (p / 512)%nat; blk D b !! (p mod 512)%nat).
Proof.
  revert p. induction bs as [|b bs IH]; intros p Hb; [done|]. cbn [fmap list_fmap concat].
  assert (length (blk D b) = 512%nat) as Hl by (apply Hb; set_solver). destruct (decide (p < 512)%nat) as [H|H].
  - rewrite lookup_app_l by lia. rewrite Nat.div_small, Nat.mod_small by lia. done.
  - rewrite lookup_app_r by lia. rewrite IH by set_solver. rewrite Hl.
    replace (p / 512)%nat with (S ((p - 512) / 512)).
    2:{ pose proof (Nat.div_add (p - 512) 1 512 ltac:(lia)) as E. replace (p - 512 + 1 * 512)%nat with p in E by lia. lia. }
    replace (p mod 512)%nat with ((p - 512) mod 512)%nat; [done|].
    pose proof (Nat.Div0.mod_add (p - 512) 1 512) as E. by replace (p - 512 + 1 * 512)%nat with p in E by lia.
Qed.

Lemma image_file D used G k g (b : bst B) e :
  store D used G → G !! k = Some g → filled g → disk b = D → (∀ n, 0 ≤ n → lblk b n = D !! Z.to_nat n) → i_dev e = 1 →
  (length (g_data g) ≤ max_bytes)%nat →
  file_ok b (with_disk_fields (ino g) e) ∧
  ∀ p, (p < length (g_data g))%nat → fbyte b (with_disk_fields (ino g) e) (Z.of_nat p) = g_data g !! p.
Proof.
  intros St Hk Hf Hdisk HD He Hmax. pose proof (so_placed _ _ _ St k g Hk) as P. pose proof (so_fb _ _ _ St) as Hfb.
  pose proof (so_len _ _ _ St) as HL. rewrite nmeta_59 in Hfb.
  assert (∀ a, a ∈ owned g → 0 < a < Z.of_nat (length (disk b))) as Hown.
  { intros a Ha. pose proof (so_own _ _ _ St k g a Hk Ha) as Ho. rewrite nmeta_59 in Ho.
    replace (length (disk b)) with (Z.to_nat FSSIZE) by (by rewrite Hdisk). unfold FSSIZE in *. lia. }
  assert (∀ bn, 0 ≤ bn → bn * 512 < Z.of_nat (length (g_data g)) → ∃ a, g_blocks g !! Z.to_nat bn = Some a) as Hbn.
  { intros bn H0 Hlt. apply lookup_lt_is_Some_2. unfold filled in Hf. rewrite Hf.
    apply (Nat.lt_le_trans _ (S (Z.to_nat bn))); [lia|].
    apply Nat.div_le_lower_bound; lia. }
  split.
  - split; cbn [with_disk_fields i_dev i_size i_addrs ino].
    + done.
    + unfold MAXFILE, NDIRECT, NINDIRECT, max_bytes, BSIZE in *. lia.
    + apply (addrs_ind g (pl_max _ _ P)).
    + intros bn H0 Hlt. unfold BSIZE in Hlt. destruct (Hbn bn H0 ltac:(lia)) as [a Ha]. exists a.
      split; [by eapply (file_addr D used G k g)|]. apply Hown, owned_blocks. by eapply list_elem_of_lookup_2.
    + unfold NDIRECT, BSIZE. intros Hlt. exists (g_ind g). split; [apply (addrs_ind g (pl_max _ _ P))|].
      apply Hown, owned_ind. apply (pl_ind _ _ P). destruct (Hbn 12 ltac:(lia) ltac:(lia)) as [a Ha].
      apply lookup_lt_Some in Ha. lia.
  - intros p Hp. unfold fbyte. change (Z.of_nat BSIZE) with 512. destruct (Hbn (Z.of_nat p / 512)) as [a Ha]; [apply Z.div_pos; lia|pose proof (Z.mul_div_le (Z.of_nat p) 512); lia|].
    rewrite (file_addr D used G k g b e _ a St Hk HD Ha) by (apply Z.div_pos; lia). cbn [mbind option_bind].
    assert (a ∈ owned g) as Hain by (apply owned_blocks; by eapply list_elem_of_lookup_2).
    pose proof (so_own _ _ _ St k g a Hk Hain) as Ho. rewrite nmeta_59 in Ho.
    destruct (lookup_lt_is_Some_2 D (Z.to_nat a)) as [d Hd]; [rewrite HL; lia|].
    assert (lblk b a = Some d) as -> by (etransitivity; [apply HD; lia|exact Hd]). cbn [mbind option_bind].
    transitivity (take (length (g_data g)) (concat (blk D <$> g_blocks g)) !! p); [|by rewrite (pl_data _ _ P)].
    rewrite lookup_take_lt by done. rewrite blocks_lookup.
    + change 512 with (Z.of_nat 512) in *. rewrite <- Nat2Z.inj_div, Nat2Z.id in Ha. rewrite Ha. cbn [mbind option_bind].
      rewrite <- Nat2Z.inj_mod, Nat2Z.id. unfold blk. by rewrite Hd.
    + intros x Hx. apply blk_length; [apply St|]. pose proof (so_own _ _ _ St k g x Hk (owned_blocks _ _ Hx)) as Hox.
      rewrite nmeta_59 in Hox. rewrite HL. lia.
Qed.

(** C11: The kernel reads what mkfs was given.  When the files fit (at most 198
    of them, none too large, their blocks and those of the root directory together
    no more than the image has), mkfs succeeds; and on a machine whose disk is the
    image, with no changed block in the cache, [readi] on the inode of the [i]th
    file returns exactly the bytes of that file.  The superblock is the one the
    sizes of the parts require, and the bitmap marks exactly the blocks in use. *)
Theorem mkfs_readi files :
  (length files ≤ 198)%nat → Forall valid_file files → nmeta + need_blocks (contents files) ≤ FSSIZE →
  ∃ D fi fb, mkfs files = Ok tt (Mk D fi fb) ∧ length D = Z.to_nat FSSIZE ∧ (∀ n d, D !! n = Some d → length d = BSIZE) ∧
    superblock_of (blk D 1) = Some sb ∧ (∀ b, 0 ≤ b < 4096 → bit_of (blk D 58) b = bool_decide (b < fb)) ∧
    ∀ i f e, files !! i = Some f → i_dev e = 1 →
      ∃ ip, dinode_fill (blk D (IBLOCK (2 + Z.of_nat i) sb)) (dinode_off (2 + Z.of_nat i)) e = Some ip ∧
        i_type ip = T_FILE ∧ i_nlink ip = 1 ∧ i_size ip = Z.of_nat (length (concat f.2)) ∧
        ∀ L (s : ist B) j off n, quiet L [] (cache s) → dirty_idx (cache s) = [] → disk (cache s) = D →
          inodes s !! j = Some ip → (off + n ≤ length (concat f.2))%nat →
          ∃ b', readi retries dev_read j (Z.of_nat off) (Z.of_nat n) s =
            Ok (Z.of_nat n, take n (drop off (concat f.2))) (set_cache b' s).
Proof.
  intros Hn Hv Hfb. destruct (mkfs_ok files Hn Hv Hfb) as (D & fi & fb & G & R & F & Hs).
  pose proof (fin_store _ _ _ F) as St. exists D, fi, fb. split; [exact R|]. split; [apply St|]. split; [apply St|].
  split; [apply F|]. split; [apply F|]. intros i f e Hi He.
  assert (∃ g, G !! S i = Some g ∧ g_type g = T_FILE ∧ g_data g = concat f.2) as (g & Hg & Hty & Hdata).
  { assert (shape G !! S i = Some (T_FILE, concat f.2)) as Hsi.
    { rewrite Hs. change (((λ f, (T_FILE, concat f.2)) <$> files) !! i = Some (T_FILE, concat f.2)). by rewrite list_lookup_fmap, Hi. }
    apply list_lookup_fmap_Some in Hsi as (g & E & Hg). injection E as E1 E2. exists g. split; [exact Hg|]. split; symmetry; [exact E1|exact E2]. }
  pose proof (fin_inodes _ _ _ F (S i) g Hg ltac:(lia)) as Hino. unfold disk_inode in Hino.
  replace (1 + Z.of_nat (S i)) with (2 + Z.of_nat i) in Hino by lia. rewrite dinode_fill_entry, Hino.
  exists (with_disk_fields (ino g) e). rewrite <- Hdata. split; [reflexivity|]. split; [exact Hty|]. split; [reflexivity|]. split; [reflexivity|].
  intros L s j off n Q Hd Hdisk Hj Hoff. pose proof (proj1 (Forall_lookup _ _) Hv i f Hi) as [_ Hmax]. rewrite <- Hdata in Hmax.
  destruct (image_file D fb G (S i) g (cache s) e St Hg) as [Hok Hbytes];
    [exact (proj1 (Forall_lookup _ _) (fin_filled _ _ _ F) (S i) g Hg)|exact Hdisk| |exact He|exact Hmax|].
  { intros m Hm. rewrite (clean_lblk L) by assumption. by rewrite Hdisk. }
  assert (Z.of_nat max_bytes < 2 ^ 31) as Hmb by (unfold max_bytes; lia).
  pose proof (readi_spec retries dev_read L s j (with_disk_fields (ino g) e) (Z.of_nat off) (Z.of_nat n) Q) as Hr. cbv zeta in Hr.
  specialize (Hr ltac:(unfold roomy; rewrite Hd; cbn; unfold NBUF; lia) Hj Hok).
  cbn [with_disk_fields i_type i_size ino] in Hr. rewrite Hty in Hr. specialize (Hr ltac:(done) ltac:(lia) ltac:(lia)).
  replace ((Z.of_nat off >? Z.of_nat (length (g_data g))) || (Z.of_nat off + Z.of_nat n >=? 2 ^ 32)) with false in Hr by lia.
  destruct Hr as (b' & bs & Hr & _ & Hlen & Hb). rewrite Z.min_l in Hr, Hlen, Hb by lia. rewrite Nat2Z.id in *.
  exists b'. rewrite Hr. do 2 f_equal. apply list_eq. intros k. destruct (decide (k < n)%nat) as [Hk|Hk].
  - rewrite Hb by done. rewrite lookup_take_lt, lookup_drop by done. rewrite <- Nat2Z.inj_add. apply Hbytes. lia.
  - rewrite lookup_ge_None_2 by lia. by rewrite lookup_take_ge by lia.
Qed.
End kernel.

Lemma boot_quiet D l :
  (∀ n d, D !! n = Some d → length d = BSIZE) →
  quiet ∅ [] (cache (Ist (booted (Table.table mach0 100) D) sb l)) ∧ dirty_idx (cache (Ist (booted (Table.table mach0 100) D) sb l)) = [].
Proof. intros HB. apply (booted_quiet ∅ (Table.table mach0 100) D); [exact table_ok|set_solver|set_solver|exact HB]. Qed.

Lemma mkfs_readi_witness :
  let files := [(chars "_cat", [replicate 512 7; replicate 100 8]); (chars "README", [chars "xv6"])] in
  ∃ D fi fb ip b', mkfs files = Ok tt (Mk D fi fb) ∧
    readi 0 (λ _, None) 0 500 20 (Ist (booted (Table.table mach0 100) D) sb [ip]) =
      Ok (20, replicate 12 7 ++ replicate 8 8) (set_cache b' (Ist (booted (Table.table mach0 100) D) sb [ip])).
Proof.
  cbv zeta. destruct (mkfs_readi (B := pst) 0 (λ _, None) [(chars "_cat", [replicate 512 7; replicate 100 8]); (chars "README", [chars "xv6"])])
    as (D & fi & fb & R & HL & HB & _ & _ & H).
  - cbn. lia.
  - repeat apply Forall_cons_2; [| |apply Forall_nil_2]; (split; [apply (bool_decide_eq_true_1 _); by vm_compute|apply Nat.leb_le; by vm_compute]).
  - apply Z.leb_le. by vm_compute.
  - destruct (H 0%nat _ ip1 eq_refl eq_refl) as (ip & _ & _ & _ & _ & Hr).
    destruct (boot_quiet D [ip] HB) as [Q Hd].
    destruct (Hr ∅ (Ist (booted (Table.table mach0 100) D) sb [ip]) 0%nat 500%nat 20%nat Q Hd eq_refl eq_refl) as (b' & Hb');
      [apply Nat.leb_le; by vm_compute|].
    exists D, fi, fb, ip, b'. split; [exact R|]. exact Hb'.
Defined.
