(* ===== verification/Programs.v ===== *)
(** * User programs (cat.c, echo.c, rm.c, mkdir.c, ln.c, kill.c, ps.c, date.c, ls.c,
      init.c, zombie.c, wc.c, time.c)

    A program runs against the system calls, the operations of [Sys] on the state
    [W] of the rest of the world: [read] may deliver a file in pieces of any size,
    and what is printed is a sequence of [write] calls.  A program goes on, has
    exited, or has done something C does not define ([Stuck]).  Strings are without
    their NUL; an argument vector is the list of the arguments behind the program's
    name.  A loop that depends on what the system answers has fuel. *)
From S2P Require Import Prelude Str Ptable DiskFmt Fs Digits Ulib Rtc.

(** ** The counters of wc.c *)

(** The characters of [" \r\t\n\v"]; [strchr] does not find a NUL. *)
Definition blank_char (c : Z) : bool := negb (c =? 0) && bool_decide (c ∈ [32; 13; 9; 10; 11]).

(** [l], [w], [c] and [inword]. *)
Record counts := Counts { cl : Z; cw : Z; cc : Z; inword : bool }.

Definition wc_char (s : counts) (x : Z) : counts :=
  let c := i32 (cc s + 1) in
  let l := if x =? 10 then i32 (cl s + 1) else cl s in
  if blank_char x then Counts l (cw s) c false
  else if negb (inword s) then Counts l (i32 (cw s + 1)) c true
  else Counts l (cw s) c (inword s).

Definition wc_buf (s : counts) (buf : list Z) : counts := foldl wc_char s buf.

(** ** The system as a program sees it *)

Class Sys (W : Type) := {
  sys_open : list Z → Z → W → Z * W;
  sys_close : Z → W → Z * W;
  sys_read : Z → Z → W → (Z * list Z) * W;
  sys_write : Z → list Z → W → Z * W;
  sys_mknod : list Z → Z → Z → W → Z * W;
  sys_dup : Z → W → Z * W;
  sys_link : list Z → list Z → W → Z * W;
  sys_unlink : list Z → W → Z * W;
  sys_mkdir : list Z → W → Z * W;
  sys_fstat : Z → W → (Z * stat) * W;
  sys_kill : Z → W → Z * W;
  sys_fork : W → Z * W;
  sys_exec : list Z → list (list Z) → W → option Z * W;
  sys_wait : W → Z * W;
  sys_sleep : Z → W → Z * W;
  sys_date : W → (Z * rtcdate) * W;
  sys_getprocs : Z → W → (Z * list uproc) * W
}.

Inductive ures (A : Type) := Go (a : A) | Exited | Stuck.
Arguments Go {A}.
Arguments Exited {A}.
Arguments Stuck {A}.

Definition U (W A : Type) : Type := W → ures A * W.
#[global] Instance U_ret W : MRet (U W) := λ A a w, (Go a, w).
#[global] Instance U_bind W : MBind (U W) := λ A C f m w,
  match m w with (Go a, w') => f a w' | (Exited, w') => (Exited, w') | (Stuck, w') => (Stuck, w') end.

Lemma ubind_go {W A C} (m : U W A) (f : A → U W C) w a w' : m w = (Go a, w') → (m ≫= f) w = f a w'.
Proof. intros H. unfold mbind, U_bind. by rewrite H. Qed.
Lemma ubind_exit {W A C} (m : U W A) (f : A → U W C) w w' : m w = (Exited, w') → (m ≫= f) w = (Exited, w').
Proof. intros H. unfold mbind, U_bind. by rewrite H. Qed.

Section programs.
Context {W : Type} {Y : Sys W}.

Definition call {A} (f : W → A * W) : U W A := λ w, let '(a, w') := f w in (Go a, w').
Definition uexit {A} : U W A := λ w, (Exited, w).
Definition ustuck {A} : U W A := λ w, (Stuck, w).
Definition uderef {A} (o : option A) : U W A := match o with Some a => mret a | None => ustuck end.

Fixpoint ueach {A} (l : list A) (f : A → U W unit) : U W unit :=
  match l with [] => mret tt | a :: l' => f a;; ueach l' f end.

(** An argument of [printf]; the strings are at the addresses 1, 2, ... *)
Inductive uarg := Num (z : Z) | Text (s : list Z).
Definition texts (args : list uarg) : list (list Z) := (λ a, match a with Num _ => [] | Text s => s end) <$> args.
Definition words (args : list uarg) : list Z := imap (λ i a, match a with Num z => z | Text _ => Z.of_nat (S i) end) args.

(** [printf] of printf.c: every character is one [write]. *)
Definition uprintf (fd : Z) (fmt : list Z) (args : list uarg) : U W unit :=
  l ← uderef (printf (λ a, default [] (texts args !! pred (Z.to_nat a))) fmt (words args));
  ueach l (λ c, _ ← call (sys_write fd [c]); mret tt).

Definition nl : list Z := [10].

(** [while((n = read(fd, buf, sizeof(buf))) > 0) body;] with a buffer of 512 bytes:
    the last [n], and the variables [body] changes. *)
Fixpoint read_all {V} (fuel : nat) (fd : Z) (body : V → list Z → U W V) (v : V) : U W (Z * V) :=
  match fuel with
  | O => ustuck
  | S fuel' =>
      r ← call (sys_read fd 512);
      if fst r >? 0 then v' ← body v (snd r); read_all fuel' fd body v'
      else mret (fst r, v)
  end.

(** The [main] of cat.c and wc.c: the program's work on the standard input, or on
    each of the files. *)
Definition on_file (cannot : list Z) (work : Z → list Z → U W unit) (a : list Z) : U W unit :=
  fd ← call (sys_open a 0);
  (if fd <? 0 then uprintf 1 cannot [Text a];; uexit else mret tt);;
  work fd a;;
  _ ← call (sys_close fd);
  mret tt.
Definition on_files (cannot : list Z) (work : Z → list Z → U W unit) (argv : list (list Z)) : U W unit :=
  match argv with
  | [] => work 0 [];; uexit
  | _ => ueach argv (on_file cannot work);; uexit
  end.

(** ** cat.c *)

Definition cat (fuel : nat) (fd : Z) : U W unit :=
  r ← read_all fuel fd (λ _ buf, _ ← call (sys_write 1 buf); mret tt) tt;
  if fst r <? 0 then
    uprintf 1 (chars "cat: read error" ++ nl) [];;
    uexit
  else mret tt.

Definition cat_main (fuel : nat) : list (list Z) → U W unit :=
  on_files (chars "cat: cannot open %s" ++ nl) (λ fd _, cat fuel fd).

(** ** wc.c *)

Definition wc (fuel : nat) (fd : Z) (name : list Z) : U W unit :=
  r ← read_all fuel fd (λ s buf, mret (wc_buf s buf)) (Counts 0 0 0 false);
  if fst r <? 0 then
    uprintf 1 (chars "wc: read error" ++ nl) [];;
    uexit
  else
    let s := snd r in
    uprintf 1 (chars "%d %d %d %s" ++ nl) [Num (cl s); Num (cw s); Num (cc s); Text name].

Definition wc_main (fuel : nat) : list (list Z) → U W unit :=
  on_files (chars "wc: cannot open %s" ++ nl) (wc fuel).

(** ** echo.c *)

Fixpoint echo_args (argv : list (list Z)) : U W unit :=
  match argv with
  | [] => mret tt
  | a :: rest =>
      uprintf 1 (chars "%s%s") [Text a; Text (match rest with [] => nl | _ => chars " " end)];;
      echo_args rest
  end.
Definition echo_main (argv : list (list Z)) : U W unit := echo_args argv;; uexit.

(** ** kill.c, ln.c, rm.c and mkdir.c *)

Definition kill_main (argv : list (list Z)) : U W unit :=
  match argv with
  | [] => uprintf 2 (chars "usage: kill pid..." ++ nl) [];; uexit
  | _ =>
      ueach argv (λ a, n ← uderef (atoi (a ++ [0])); _ ← call (sys_kill n); mret tt);;
      uexit
  end.

Definition ln_main (argv : list (list Z)) : U W unit :=
  match argv with
  | [old; new] =>
      r ← call (sys_link old new);
      (if r <? 0 then uprintf 2 (chars "link %s %s: failed" ++ nl) [Text old; Text new] else mret tt);;
      uexit
  | _ => uprintf 2 (chars "Usage: ln old new" ++ nl) [];; uexit
  end.

(** The loop of rm.c and mkdir.c, which ends at the first call that fails. *)
Fixpoint until_fails (f : list Z → W → Z * W) (fmt : list Z) (argv : list (list Z)) : U W unit :=
  match argv with
  | [] => mret tt
  | a :: rest =>
      r ← call (f a);
      if r <? 0 then uprintf 2 fmt [Text a] else until_fails f fmt rest
  end.

Definition rm_main (argv : list (list Z)) : U W unit :=
  match argv with
  | [] => uprintf 2 (chars "Usage: rm files..." ++ nl) [];; uexit
  | _ => until_fails sys_unlink (chars "rm: %s failed to delete" ++ nl) argv;; uexit
  end.

Definition mkdir_main (argv : list (list Z)) : U W unit :=
  match argv with
  | [] => uprintf 2 (chars "Usage: mkdir files..." ++ nl) [];; uexit
  | _ => until_fails sys_mkdir (chars "mkdir: %s failed to create" ++ nl) argv;; uexit
  end.

(** ** zombie.c and init.c *)

Definition zombie_main : U W unit :=
  pid ← call sys_fork;
  (if pid >? 0 then _ ← call (sys_sleep 5); mret tt else mret tt);;
  uexit.

Definition uexec (path : list Z) (argv : list (list Z)) : U W Z :=
  r ← call (sys_exec path argv);
  match r with Some v => mret v | None => uexit end.

Definition init_console : U W unit :=
  r ← call (sys_open (chars "console") O_RDWR);
  (if r <? 0 then
     _ ← call (sys_mknod (chars "console") 1 1);
     _ ← call (sys_open (chars "console") O_RDWR);
     mret tt
   else mret tt);;
  _ ← call (sys_dup 0);
  _ ← call (sys_dup 0);
  mret tt.

(** The inner loop: waiting for the shell. *)
Fixpoint init_wait (fuel : nat) (pid : Z) : U W unit :=
  match fuel with
  | O => ustuck
  | S fuel' =>
      wpid ← call sys_wait;
      if (wpid >=? 0) && negb (wpid =? pid) then
        uprintf 1 (chars "zombie!" ++ nl) [];;
        init_wait fuel' pid
      else mret tt
  end.

(** One round of the endless loop. *)
Definition init_round (fuel : nat) : U W unit :=
  uprintf 1 (chars "init: starting sh" ++ nl) [];;
  pid ← call sys_fork;
  (if pid <? 0 then
     uprintf 1 (chars "init: fork failed" ++ nl) [];;
     uexit
   else mret tt);;
  (if pid =? 0 then
     _ ← uexec (chars "sh") [chars "sh"];
     uprintf 1 (chars "init: exec sh failed" ++ nl) [];;
     uexit
   else mret tt);;
  init_wait fuel pid.

(** The first [rounds] rounds. *)
Definition init_main (fuel rounds : nat) : U W unit :=
  init_console;;
  ueach (seq 0 rounds) (λ _, init_round fuel);;
  ustuck.

(** ** date.c and ps.c *)

Definition months : list (list Z) :=
  chars <$> ["Jan"; "Feb"; "Mar"; "Apr"; "May"; "Jun"; "Jul"; "Aug"; "Sep"; "Oct"; "Nov"; "Dec"]%string.

Definition date_main : U W unit :=
  r ← call sys_date;
  (if negb (fst r =? 0) then
     uprintf 2 (chars "Error: date failed") [];;
     uexit
   else mret tt);;
  let d := snd r in
  m ← uderef (if month d <? 1 then None else months !! Z.to_nat (month d - 1));
  uprintf 1 (chars "%s %d, %d %d:%d:%d UTC" ++ nl)
    [Text m; Num (day d); Num (year d); Num (hour d); Num (minute d); Num (second d)];;
  uexit.

(** The start of a list, up to [stop]; a character array is the string before its
    NUL. *)
Fixpoint before (stop : Z) (l : list Z) : list Z :=
  match l with [] => [] | c :: l' => if c =? stop then [] else c :: before stop l' end.

Definition ps_line (p : uproc) : list uarg :=
  [Num (up_pid p); Num (up_gid p); Num (up_uid p); Num (up_ppid p); Text (before 0 (up_state p)); Num (up_priority p);
   Num (up_size p); Text (before 0 (up_name p))].

Definition ps_main : U W unit :=
  r ← call (sys_getprocs 10);
  (if fst r <=? 0 then
     uprintf 2 (chars "Error: ps failed") [];;
     uexit
   else mret tt);;
  uprintf 1 (chars "pid  uid  gid  ppid  state prio sz  nm" ++ nl) [];;
  ueach (take (Z.to_nat (fst r)) (snd r)) (λ p, uprintf 1 (chars "%d  %d  %d  %d  %s %d  %d  %s" ++ nl) (ps_line p));;
  uexit.

(** ** ls.c *)

(** The characters behind the last slash, with blanks up to [DIRSIZ]. *)
Definition fmtname (path : list Z) : list Z :=
  let p := reverse (before slash (reverse path)) in
  if bool_decide (DIRSIZ ≤ length p)%nat then p else p ++ replicate (DIRSIZ - length p) 32.

(** [stat] of ulib.c *)
Definition stat_path (n : list Z) : U W (Z * stat) :=
  fd ← call (sys_open n O_RDONLY);
  if fd <? 0 then mret (-1, Stat 0 0 0 0 0)
  else
    r ← call (sys_fstat fd);
    _ ← call (sys_close fd);
    mret r.

Definition ls_line (name : list Z) (st : stat) : U W unit :=
  uprintf 1 (chars "%s %d %d %d" ++ nl) [Text (fmtname name); Num (st_type st); Num (st_ino st); Num (st_size st)].

(** The entries of the directory; [buf] is its path with a slash. *)
Fixpoint ls_entries (fuel : nat) (fd : Z) (buf : list Z) : U W unit :=
  match fuel with
  | O => ustuck
  | S fuel' =>
      r ← call (sys_read fd 16);
      if fst r =? 16 then
        let de := snd r in
        (if le (take 2 de) =? 0 then mret tt
         else
           let name := buf ++ before 0 (slice de 2 DIRSIZ) in
           st ← stat_path name;
           if fst st <? 0 then uprintf 1 (chars "ls: cannot stat %s" ++ nl) [Text name]
           else ls_line name (snd st));;
        ls_entries fuel' fd buf
      else mret tt
  end.

Definition ls (fuel : nat) (path : list Z) : U W unit :=
  fd ← call (sys_open path 0);
  if fd <? 0 then uprintf 2 (chars "ls: cannot open %s" ++ nl) [Text path]
  else
    r ← call (sys_fstat fd);
    if fst r <? 0 then
      uprintf 2 (chars "ls: cannot stat %s" ++ nl) [Text path];;
      _ ← call (sys_close fd);
      mret tt
    else
      let st := snd r in
      (if st_type st =? T_FILE then ls_line path st
       else if st_type st =? T_DIR then
         if bool_decide (512 < length path + 1 + DIRSIZ + 1)%nat then uprintf 1 (chars "ls: path too long" ++ nl) []
         else ls_entries fuel fd (path ++ [slash])
       else mret tt);;
      _ ← call (sys_close fd);
      mret tt.

Definition ls_main (fuel : nat) (argv : list (list Z)) : U W unit :=
  match argv with
  | [] => ls fuel (chars ".");; uexit
  | _ => ueach argv (ls fuel);; uexit
  end.
End programs.

(** The stretches of a text between blank characters. *)
Fixpoint stretches (t : list Z) : list (list Z) :=
  match t with
  | [] => [[]]
  | x :: t' =>
      if blank_char x then [] :: stretches t'
      else match stretches t' with [] => [[x]] | w :: ws => (x :: w) :: ws end
  end.
Definition words_of (t : list Z) : list (list Z) := filter (λ w, w ≠ []) (stretches t).
Definition lines_of (t : list Z) : nat := length (filter (λ x, x = 10) t).

Lemma stretches_cons t : ∃ w ws, stretches t = w :: ws.
Proof. induction t as [|x t (w & ws & IH)]; cbn; [eauto|]. destruct (blank_char x); [eauto|]. rewrite IH. eauto. Qed.

(** The words that begin in [t], when the text before it ends inside a word or
    not. *)
Definition starts (inw : bool) (t : list Z) : nat :=
  if inw then length (filter (λ w, w ≠ []) (tail (stretches t))) else length (words_of t).

Lemma starts_cons inw x t :
  starts inw (x :: t) =
    if blank_char x then starts false t else ((if inw then 0 else 1) + starts true t)%nat.
Proof.
  unfold starts, words_of. destruct (stretches_cons t) as (w & ws & E). cbn [stretches].
  destruct (blank_char x), inw; rewrite ?E; cbn [tail]; rewrite ?filter_cons; cbn; try done.
Qed.

Lemma lines_cons x t : Z.of_nat (lines_of (x :: t)) = (if x =? 10 then 1 else 0) + Z.of_nat (lines_of t).
Proof. unfold lines_of. rewrite filter_cons. case_decide; destruct (Z.eqb_spec x 10); try done; cbn [length]; lia. Qed.

Lemma wc_buf_counts t : ∀ s,
  0 ≤ cl s ≤ cc s → 0 ≤ cw s ≤ cc s → cc s + Z.of_nat (length t) < 2 ^ 31 →
  ∃ b, wc_buf s t = Counts (cl s + Z.of_nat (lines_of t)) (cw s + Z.of_nat (starts (inword s) t)) (cc s + Z.of_nat (length t)) b.
Proof.
  unfold wc_buf. induction t as [|x t IH]; intros [l w c i] Hl Hw Hc; cbn [cl cw cc inword length] in *.
  { exists i. assert (starts i [] = 0%nat) as -> by (by destruct i; vm_compute). change (lines_of []) with 0%nat. cbn [foldl]. f_equal; cbn; lia. }
  cbn [foldl]. rewrite lines_cons, starts_cons. unfold wc_char at 2. cbn [cl cw cc inword].
  rewrite (i32_small (c + 1)) by lia. set (d := if x =? 10 then 1 else 0).
  assert ((if x =? 10 then i32 (l + 1) else l) = l + d ∧ 0 ≤ d ≤ 1) as [-> Hd].
  { unfold d. destruct (x =? 10); [rewrite i32_small by lia|]; lia. }
  destruct (blank_char x).
  - destruct (IH (Counts (l + d) w (c + 1) false)) as [b ->]; cbn [cl cw cc inword]; try lia. exists b. f_equal; lia.
  - destruct i; cbn [negb].
    + destruct (IH (Counts (l + d) w (c + 1) true)) as [b ->]; cbn [cl cw cc inword]; try lia. exists b. f_equal; lia.
    + rewrite i32_small by lia.
      destruct (IH (Counts (l + d) (w + 1) (c + 1) true)) as [b ->]; cbn [cl cw cc inword]; try lia. exists b. f_equal; lia.
Qed.

(** ** Files *)

(** What [cat] and [wc] rely on: [unread w fd] is what is left to read from a
    descriptor, [shown w] what the standard output has got, and [file] what the
    files hold.  [read] delivers a piece of what is left, and nothing only at the
    end; a file that is opened is read from its start. *)
Class Files (W : Type) {Y : Sys W} := {
  readable : W → Z → Prop;
  unread : W → Z → list Z;
  shown : W → list Z;
  file : list Z → option (list Z);
  read_law : ∀ w fd n, readable w fd → 0 < n → ∃ k w', sys_read fd n w = ((Z.of_nat k, take k (unread w fd)), w') ∧
    (k ≤ length (unread w fd))%nat ∧ (k = 0%nat → unread w fd = []) ∧ readable w' fd ∧ unread w' fd = drop k (unread w fd) ∧ shown w' = shown w;
  write_law : ∀ w l fd, readable w fd → ∃ w', sys_write 1 l w = (Z.of_nat (length l), w') ∧
    readable w' fd ∧ unread w' fd = unread w fd ∧ shown w' = shown w ++ l;
  open_law : ∀ w path c, file path = Some c → ∃ fd w', sys_open path 0 w = (fd, w') ∧ 0 ≤ fd ∧
    readable w' fd ∧ unread w' fd = c ∧ shown w' = shown w;
  close_law : ∀ w fd, readable w fd → ∃ w', sys_close fd w = (0, w') ∧ shown w' = shown w
}.

Section files.
Context {W : Type} {Y : Sys W} {L : Files W}.

(** A loop that reads to the end; [inv t v w] holds when the text [t] has been
    read. *)
Lemma read_all_ok {V} (body : V → list Z → U W V) (inv : list Z → V → W → Prop) fd :
  (∀ t v buf w, inv t v w → readable w fd → ∃ v' w', body v buf w = (Go v', w') ∧
     inv (t ++ buf) v' w' ∧ readable w' fd ∧ unread w' fd = unread w fd) →
  (∀ t v w w', inv t v w → shown w' = shown w → inv t v w') →
  ∀ fuel t v w, inv t v w → readable w fd → (length (unread w fd) < fuel)%nat →
  ∃ v' w', read_all fuel fd body v w = (Go (0, v'), w') ∧ inv (t ++ unread w fd) v' w' ∧ readable w' fd.
Proof.
  intros Hbody Hsh. induction fuel as [|fuel IH]; intros t v w Hi Hr Hf; [lia|].
  destruct (read_law w fd 512 Hr) as (k & w1 & Hrd & Hk & Hk0 & Hr1 & Hu1 & Hs1); [lia|].
  cbn [read_all]. rewrite (ubind_go (call (sys_read fd 512)) _ w (Z.of_nat k, take k (unread w fd)) w1) by (unfold call; by rewrite Hrd).
  cbn [fst snd]. destruct (Z.gtb_spec (Z.of_nat k) 0).
  - destruct (Hbody t v (take k (unread w fd)) w1) as (v2 & w2 & Hb & Hi2 & Hr2 & Hu2); [by eapply Hsh|done|].
    rewrite (ubind_go _ _ _ _ _ Hb). destruct (IH (t ++ take k (unread w fd)) v2 w2) as (v3 & w3 & Hr3 & Hi3 & Hrd3); [done|done| |].
    { rewrite Hu2, Hu1, length_drop. lia. }
    exists v3, w3. split_and!; [done| |done]. by rewrite Hu2, Hu1, <- app_assoc, take_drop in Hi3.
  - assert (k = 0%nat) as -> by lia. exists v, w1. rewrite (Hk0 eq_refl), app_nil_r. split_and!; [done|by eapply Hsh|done].
Qed.

Lemma uprintf_ok fmt args l fd w :
  printf (λ a, default [] (texts args !! pred (Z.to_nat a))) fmt (words args) = Some l → readable w fd →
  ∃ w', uprintf 1 fmt args w = (Go tt, w') ∧ readable w' fd ∧ shown w' = shown w ++ l.
Proof.
  intros Hl Hr. unfold uprintf. rewrite Hl, (ubind_go (uderef (Some l)) _ w l w) by done. clear Hl.
  revert w Hr. induction l as [|c l IH]; intros w Hr; cbn [ueach]; [exists w; by rewrite app_nil_r|].
  destruct (write_law w [c] fd Hr) as (w1 & Hw & Hr1 & _ & Hs1). rewrite (ubind_go _ _ w tt w1).
  2: { by rewrite (ubind_go _ _ w 1 w1) by (unfold call; by rewrite Hw). }
  destruct (IH w1 Hr1) as (w2 & H2 & Hr2 & Hs2). exists w2. split_and!; [done|done|]. by rewrite Hs2, Hs1, <- app_assoc.
Qed.

Lemma cat_ok fuel fd w : readable w fd → (length (unread w fd) < fuel)%nat →
  ∃ w', cat fuel fd w = (Go tt, w') ∧ readable w' fd ∧ shown w' = shown w ++ unread w fd.
Proof.
  intros Hr Hf. destruct (read_all_ok (λ _ buf, _ ← call (sys_write 1 buf); mret tt) (λ t _ w', shown w' = shown w ++ t) fd)
    with (fuel := fuel) (t := [] : list Z) (v := tt) (w := w) as (v & w' & Hrun & Hs & Hr'); try done.
  - intros t v buf w1 Hs Hr1. destruct (write_law w1 buf fd Hr1) as (w2 & Hw & Hr2 & Hu2 & Hs2).
    exists tt, w2. rewrite (ubind_go _ _ w1 (Z.of_nat (length buf)) w2) by (unfold call; by rewrite Hw).
    split_and!; [done| |done|done]. by rewrite Hs2, Hs, <- app_assoc.
  - intros t v w1 w2 Hs1 Hs2. by rewrite Hs2.
  - by rewrite app_nil_r.
  - exists w'. unfold cat. by rewrite (ubind_go _ _ _ _ _ Hrun).
Qed.

(** What [wc] prints for a file. *)
Definition wc_report (text name : list Z) : list Z :=
  let d n := uprintint (Z.of_nat n) 10 true in
  d (lines_of text) ++ [32] ++ d (length (words_of text)) ++ [32] ++ d (length text) ++ [32] ++ name ++ nl.

Lemma wc_format a b c name : let args := [Num a; Num b; Num c; Text name] in
  printf (λ a, default [] (texts args !! pred (Z.to_nat a))) (chars "%d %d %d %s" ++ nl) (words args) =
    Some (uprintint a 10 true ++ [32] ++ uprintint b 10 true ++ [32] ++ uprintint c 10 true ++ [32] ++ name ++ nl).
Proof. reflexivity. Qed.

Lemma wc_ok fuel fd name w : readable w fd → (length (unread w fd) < fuel)%nat → Z.of_nat (length (unread w fd)) < 2 ^ 31 →
  ∃ w', wc fuel fd name w = (Go tt, w') ∧ readable w' fd ∧ shown w' = shown w ++ wc_report (unread w fd) name.
Proof.
  intros Hr Hf Hlen. set (s0 := Counts 0 0 0 false).
  destruct (read_all_ok (λ s buf, mret (wc_buf s buf)) (λ t s w', s = wc_buf s0 t ∧ shown w' = shown w) fd)
    with (fuel := fuel) (t := [] : list Z) (v := s0) (w := w) as (v & w1 & Hrun & [-> Hs] & Hr1); try done.
  - intros t s buf w1 [-> Hs] Hr1. exists (wc_buf (wc_buf s0 t) buf), w1. split_and!; [done| |done|done|done].
    unfold wc_buf. by rewrite foldl_app.
  - intros t v w1 w2 [-> Hs1] Hs2. by rewrite Hs2.
  - cbn [app] in Hrun. destruct (wc_buf_counts (unread w fd) s0) as [b Hb]; [done|done|done|]. rewrite Hb in Hrun. cbn [s0 cl cw cc inword] in Hrun.
    unfold wc. rewrite (ubind_go _ _ _ _ _ Hrun). cbn [fst snd cl cw cc Z.ltb Z.compare]. rewrite !Z.add_0_l.
    destruct (uprintf_ok _ _ _ fd w1 (wc_format (Z.of_nat (lines_of (unread w fd))) (Z.of_nat (length (words_of (unread w fd))))
      (Z.of_nat (length (unread w fd))) name) Hr1) as (w2 & H2 & Hr2 & Hs2).
    exists w2. split_and!; [exact H2|done|by rewrite Hs2, Hs].
Qed.

(** A program that shows [out c a] for a file [a] that holds [c]. *)
Lemma on_files_ok cannot (work : Z → list Z → U W unit) (ok : list Z → Prop) (out : list Z → list Z → list Z) argv texts w :
  (∀ fd a w, readable w fd → ok (unread w fd) →
     ∃ w', work fd a w = (Go tt, w') ∧ readable w' fd ∧ shown w' = shown w ++ out (unread w fd) a) →
  argv ≠ [] → Forall2 (λ a c, file a = Some c ∧ ok c) argv texts →
  ∃ w', on_files cannot work argv w = (Exited, w') ∧ shown w' = shown w ++ concat (zip_with out texts argv).
Proof.
  intros Hwork Hne Hall. unfold on_files. destruct argv as [|a0 argv0] eqn:E; [done|]. rewrite <- E in *. clear E Hne.
  assert (∃ w', ueach argv (on_file cannot work) w = (Go tt, w') ∧ shown w' = shown w ++ concat (zip_with out texts argv)) as (w' & Hr & Hs).
  2: { exists w'. split; [by rewrite (ubind_go _ _ _ _ _ Hr)|done]. }
  revert w. induction Hall as [|a c argv texts [Hfile Hok] Hall IH]; intros w; [exists w; cbn; by rewrite app_nil_r|].
  destruct (open_law w a c Hfile) as (fd & w1 & Ho & Hfd & Hr1 & Hu1 & Hs1).
  destruct (Hwork fd a w1 Hr1) as (w2 & Hw & Hr2 & Hs2); [by rewrite Hu1|].
  destruct (close_law w2 fd Hr2) as (w3 & Hc & Hs3). destruct (IH w3) as (w4 & H4 & Hs4). exists w4.
  assert (on_file cannot work a w = (Go tt, w3)) as Hb.
  { unfold on_file. rewrite (ubind_go _ _ w fd w1) by (unfold call; by rewrite Ho). destruct (Z.ltb_spec fd 0); [lia|].
    rewrite (ubind_go _ _ w1 tt w1) by done. rewrite (ubind_go _ _ _ _ _ Hw). by rewrite (ubind_go _ _ w2 0 w3) by (unfold call; by rewrite Hc). }
  cbn [ueach]. rewrite (ubind_go _ _ _ _ _ Hb). split; [done|]. cbn [zip_with concat]. by rewrite Hs4, Hs3, Hs2, Hs1, Hu1, <- app_assoc.
Qed.

(** [cat] writes what the files hold to the standard output, one after the other,
    however [read] cuts them into pieces. *)
Theorem cat_copies fuel argv texts w :
  argv ≠ [] → Forall2 (λ a c, file a = Some c ∧ (length c < fuel)%nat) argv texts →
  ∃ w', cat_main fuel argv w = (Exited, w') ∧ shown w' = shown w ++ concat texts.
Proof.
  intros Hne Hall. destruct (on_files_ok (chars "cat: cannot open %s" ++ nl) (λ fd _, cat fuel fd) (λ c, (length c < fuel)%nat) (λ c _, c) argv texts w)
    as (w' & Hr & Hs); [intros fd a w1; apply cat_ok|done|done|].
  exists w'. split; [done|]. rewrite Hs. do 2 f_equal. clear -Hall. induction Hall; cbn; congruence.
Qed.

(** [wc] prints the number of lines, words and characters of each file. *)
Theorem wc_reports fuel argv texts w :
  argv ≠ [] → Forall2 (λ a c, file a = Some c ∧ (length c < fuel)%nat ∧ Z.of_nat (length c) < 2 ^ 31) argv texts →
  ∃ w', wc_main fuel argv w = (Exited, w') ∧ shown w' = shown w ++ concat (zip_with wc_report texts argv).
Proof.
  intros Hne Hall. apply (on_files_ok _ (wc fuel) (λ c, (length c < fuel)%nat ∧ Z.of_nat (length c) < 2 ^ 31) wc_report); [|done|done].
  intros fd a w1 Hr [H1 H2]. by apply wc_ok.
Qed.

(** What [echo] prints. *)
Fixpoint echoed (argv : list (list Z)) : list Z :=
  match argv with [] => [] | [a] => a ++ nl | a :: rest => a ++ 32 :: echoed rest end.

Lemma echo_format a b : let args := [Text a; Text b] in
  printf (λ a, default [] (texts args !! pred (Z.to_nat a))) (chars "%s%s") (words args) = Some (a ++ b).
Proof. intros args. transitivity (Some (a ++ b ++ [])); [reflexivity|by rewrite app_nil_r]. Qed.

(** [echo] prints its arguments with blanks between them, and a newline. *)
Theorem echo_prints argv w fd : readable w fd →
  ∃ w', echo_main argv w = (Exited, w') ∧ shown w' = shown w ++ echoed argv.
Proof.
  intros Hr. unfold echo_main. assert (∃ w', echo_args argv w = (Go tt, w') ∧ shown w' = shown w ++ echoed argv) as (w' & H & Hs).
  2: { exists w'. by rewrite (ubind_go _ _ _ _ _ H). }
  revert w Hr. induction argv as [|a rest IH]; intros w Hr; cbn [echo_args]; [exists w; cbn; by rewrite app_nil_r|].
  set (b := match rest with [] => nl | _ => chars " " end).
  destruct (uprintf_ok _ _ _ fd w (echo_format a b) Hr) as (w1 & H1 & Hr1 & Hs1).
  rewrite (ubind_go _ _ _ _ _ H1). destruct (IH w1 Hr1) as (w2 & H2 & Hs2). exists w2. split; [done|].
  rewrite Hs2, Hs1, <- app_assoc. f_equal. subst b. destruct rest; cbn; by rewrite ?app_nil_r, <- ?app_assoc.
Qed.
End files.

(** ** Calls that fail *)

Section calls.
Context {W : Type} {Y : Sys W}.

(** The state after calling [f] on each argument in turn, when none fails. *)
Fixpoint calls_ok (f : list Z → W → Z * W) (argv : list (list Z)) (w w' : W) : Prop :=
  match argv with [] => w' = w | a :: rest => 0 ≤ (f a w).1 ∧ calls_ok f rest (f a w).2 w' end.

Lemma until_fails_all f fmt argv w w' : calls_ok f argv w w' → until_fails f fmt argv w = (Go tt, w').
Proof.
  revert w. induction argv as [|a rest IH]; intros w; cbn [calls_ok until_fails]; [by intros ->|]. intros [Hf Hc].
  rewrite (ubind_go _ _ w (f a w).1 (f a w).2) by (unfold call; by destruct (f a w)).
  destruct (Z.ltb_spec (f a w).1 0); [lia|]. by apply IH.
Qed.

Lemma until_fails_first f fmt argv a rest w w1 : calls_ok f argv w w1 → (f a w1).1 < 0 →
  until_fails f fmt (argv ++ a :: rest) w = uprintf 2 fmt [Text a] (f a w1).2.
Proof.
  revert w. induction argv as [|b argv IH]; intros w; cbn [calls_ok until_fails app].
  - intros -> Hf. rewrite (ubind_go _ _ w (f a w).1 (f a w).2) by (unfold call; by destruct (f a w)).
    by destruct (Z.ltb_spec (f a w).1 0); [|lia].
  - intros [Hb Hc] Hf. rewrite (ubind_go _ _ w (f b w).1 (f b w).2) by (unfold call; by destruct (f b w)).
    destruct (Z.ltb_spec (f b w).1 0); [lia|]. by apply IH.
Qed.

(** [rm] unlinks the files in turn and stops at the first that cannot be, which it
    reports: the files behind that one are left. *)
Theorem rm_stops argv a rest w w1 : calls_ok sys_unlink argv w w1 → (sys_unlink a w1).1 < 0 →
  rm_main (argv ++ a :: rest) w =
    (uprintf 2 (chars "rm: %s failed to delete" ++ nl) [Text a];; uexit) (sys_unlink a w1).2.
Proof.
  intros Hc Hf. unfold rm_main. destruct (argv ++ a :: rest) as [|x l] eqn:E; [by apply app_nil in E as [_ ?]|]. rewrite <- E.
  unfold mbind, U_bind. by rewrite (until_fails_first _ _ argv a rest w w1).
Qed.

(** A round of [init]: when the shell has been started and [wait] reports the
    children [others] and then the shell, the round is over and a new shell is
    started in the next; every other child is reported. *)
Fixpoint waits (pid : Z) (others : list Z) (report : U W unit) (w w' : W) : Prop :=
  match others with
  | [] => (sys_wait w).1 = pid ∧ w' = (sys_wait w).2
  | o :: os => 0 ≤ o ∧ o ≠ pid ∧ (sys_wait w).1 = o ∧ ∃ w1, report (sys_wait w).2 = (Go tt, w1) ∧ waits pid os report w1 w'
  end.

Lemma init_wait_ok pid others : ∀ fuel w w', waits pid others (uprintf 1 (chars "zombie!" ++ nl) []) w w' →
  (length others < fuel)%nat → init_wait fuel pid w = (Go tt, w').
Proof.
  induction others as [|o os IH]; intros [|fuel] w w' Hw Hf; cbn [length] in Hf; try lia; cbn [init_wait].
  - destruct Hw as [Hp ->]. rewrite (ubind_go _ _ w (sys_wait w).1 (sys_wait w).2) by (unfold call; by destruct (sys_wait w)).
    by rewrite Hp, Z.eqb_refl, andb_false_r.
  - destruct Hw as (Ho & Hne & Hp & w1 & Hr & Hw). rewrite (ubind_go _ _ w (sys_wait w).1 (sys_wait w).2) by (unfold call; by destruct (sys_wait w)).
    rewrite Hp. replace (o >=? 0) with true by lia. rewrite (proj2 (Z.eqb_neq _ _) Hne). cbn [negb andb].
    rewrite (ubind_go _ _ _ _ _ Hr). apply IH; [done|lia].
Qed.
End calls.

(** ** Names in a listing *)

Lemma before_stop stop l l' : stop ∉ l → before stop (l ++ stop :: l') = l.
Proof.
  induction l as [|c l IH]; intros H; cbn; [by rewrite Z.eqb_refl|]. rewrite (proj2 (Z.eqb_neq c stop)) by set_solver. f_equal. apply IH. set_solver.
Qed.

(** [ls] shows a file under the last component of its path, in a column of at least
    [DIRSIZ] characters. *)
Theorem fmtname_last dir name : slash ∉ name → fmtname (dir ++ slash :: name) = name ++ replicate (DIRSIZ - length name) 32.
Proof.
  intros Hn. unfold fmtname. rewrite reverse_app, reverse_cons, <- app_assoc. cbn [app].
  rewrite before_stop, reverse_involutive by (by rewrite elem_of_reverse). case_bool_decide; [|done].
  replace (DIRSIZ - length name)%nat with 0%nat by lia. by rewrite app_nil_r.
Qed.

(** ** A world with two files *)

Module TwoFiles.
(** What descriptor 3 has left to read, and the output; [read] delivers at most
    three bytes. *)
Record world := World { left_in : list Z; out : list Z }.
Definition contents (path : list Z) : option (list Z) :=
  if decide (path = chars "a") then Some (chars "one two" ++ [10]) else if decide (path = chars "b") then Some (chars "three") else None.

#[global] Instance sys : Sys world := {
  sys_open := λ p _ w, match contents p with Some c => (3, World c (out w)) | None => (-1, w) end;
  sys_close := λ _ w, (0, w);
  sys_read := λ _ n w, let k := Nat.min 3 (Nat.min (Z.to_nat n) (length (left_in w))) in
    ((Z.of_nat k, take k (left_in w)), World (drop k (left_in w)) (out w));
  sys_write := λ _ l w, (Z.of_nat (length l), World (left_in w) (out w ++ l));
  sys_mknod := λ _ _ _ w, (-1, w); sys_dup := λ _ w, (-1, w); sys_link := λ _ _ w, (-1, w); sys_unlink := λ _ w, (-1, w);
  sys_mkdir := λ _ w, (-1, w); sys_fstat := λ _ w, ((-1, Stat 0 0 0 0 0), w); sys_kill := λ _ w, (-1, w); sys_fork := λ w, (-1, w);
  sys_exec := λ _ _ w, (Some (-1), w); sys_wait := λ w, (-1, w); sys_sleep := λ _ w, (0, w);
  sys_date := λ w, ((-1, Rtcdate 0 0 0 0 0 0), w); sys_getprocs := λ _ w, ((-1, []), w)
}.

#[global] Instance sys_files : Files world.
Proof.
  refine {| readable := λ _ _, True; unread := λ w _, left_in w; shown := out; file := contents |}; cbn -[Nat.min].
  - intros w fd n _ Hn. eexists _, _. split; [reflexivity|]. cbn -[Nat.min]. split_and!; [lia| |done|done|done].
    intros H. destruct (left_in w); [done|]. cbn -[Nat.min] in H. lia.
  - intros w l fd _. eexists. split; [reflexivity|]. done.
  - intros w path c Hc. rewrite Hc. eexists _, _. split; [reflexivity|]. split_and!; try done; lia.
  - intros w fd _. eexists. split; [reflexivity|]. done.
Qed.
End TwoFiles.

Example cat_two_files : cat_main 10 [chars "a"; chars "b"] (TwoFiles.World [] []) =
  (Exited, TwoFiles.World [] (chars "one two" ++ [10] ++ chars "three")).
Proof. vm_compute. reflexivity. Qed.

Example cat_no_file : cat_main 10 [chars "c"; chars "b"] (TwoFiles.World [] []) =
  (Exited, TwoFiles.World [] (chars "cat: cannot open c" ++ [10])).
Proof. vm_compute. reflexivity. Qed.

(** ** time *)

(** The elapsed minutes and seconds [time] prints. *)
Definition elapsed (t1 t2 : rtcdate) : Z * Z :=
  if second t1 >? second t2 then (u32 (minute t2 - minute t1), u32 (second t1 - second t2))
  else (u32 (minute t2 - minute t1), u32 (second t2 - second t1)).

Definition clock (t : rtcdate) : Z := minute t * 60 + second t.

(** Within an hour, and when the seconds have not wrapped around, the time is
    right. *)
Theorem elapsed_right t1 t2 :
  0 ≤ minute t1 ≤ minute t2 → minute t2 < 60 → 0 ≤ second t1 ≤ second t2 → second t2 < 60 →
  let '(m, s) := elapsed t1 t2 in m * 60 + s = clock t2 - clock t1.
Proof. intros. unfold elapsed, clock. replace (second t1 >? second t2) with false by lia. rewrite !u32_small by lia. lia. Qed.

(** From 12:00:59 to 12:01:01 two seconds pass; [time] prints one minute and 58
    seconds. *)
Theorem elapsed_wraps :
  let t1 := Rtcdate 59 0 12 1 1 2016 in let t2 := Rtcdate 1 1 12 1 1 2016 in
  clock t2 - clock t1 = 2 ∧ elapsed t1 t2 = (1, 58).
Proof. done. Qed.

