(* ===== verification/Boot.v ===== *)
(** * The boot loader (bootmain.c, elf.h)

    The drive is a parameter: [drive w i] is the [i]th byte it sends once it is ready
    after the port writes [w], and [status w k] what its status register reads when
    it is polled for the [k]th time after them.  Memory is the byte-addressed memory of
    Str.v: paging is not on yet. *)
From S2P Require Import Prelude Str Exec.

Definition SECTSIZE : Z := 512.
Definition ELFSCRATCH : Z := 0x10000.

(** [insl]: [cnt] words, [data i] the [i]th byte from the port. *)
Fixpoint port_insl (m : mem) (dst : Z) (data : Z → Z) (i : Z) (cnt : nat) : mem :=
  match cnt with
  | O => m
  | S n =>
      port_insl (mwrite (mwrite (mwrite (mwrite m dst (data i)) (dst + 1) (data (i + 1)))
        (dst + 2) (data (i + 2))) (dst + 3) (data (i + 3))) (dst + 4) data (i + 4) n
  end.

Definition mread16 (m : mem) (a : Z) : Z := m a + 2 ^ 8 * m (a + 1).

(** The fields of the program header at [ph], and the header's fields. *)
Definition ph_off (m : mem) (ph : Z) : Z := mread32 m (ph + 4).
Definition ph_paddr (m : mem) (ph : Z) : Z := mread32 m (ph + 12).
Definition ph_filesz (m : mem) (ph : Z) : Z := mread32 m (ph + 16).
Definition ph_memsz (m : mem) (ph : Z) : Z := mread32 m (ph + 20).
Definition eh_magic (m : mem) (e : Z) : Z := mread32 m e.
Definition eh_entry (m : mem) (e : Z) : Z := mread32 m (e + 24).
Definition eh_phoff (m : mem) (e : Z) : Z := mread32 m (e + 28).
Definition eh_phnum (m : mem) (e : Z) : Z := mread16 m (e + 44).

(** Where the loader goes: back to bootasm.S, or to the kernel. *)
Inductive booted := Returns (m : mem) | Enters (entry : Z) (m : mem).

Section loader.
Context (drive : list (Z * Z) → Z → Z) (status : list (Z * Z) → nat → Z) (polls : nat).

(** [n] looks at the status after the writes [w], the next one being the [k]th. *)
Fixpoint wait_loop (n : nat) (w : list (Z * Z)) (k : nat) : option unit :=
  match n with
  | O => None
  | S n => if negb (Z.land (status w k) 0xC0 =? 0x40) then wait_loop n w (S k) else Some tt
  end.
Definition waitdisk (w : list (Z * Z)) : option unit := wait_loop polls w 0.

(** The [outb]s of [readsect]: port and byte. *)
Definition read_command (offset : Z) : list (Z * Z) :=
  [(0x1F2, 1); (0x1F3, u8 offset); (0x1F4, u8 (Z.shiftr offset 8)); (0x1F5, u8 (Z.shiftr offset 16));
   (0x1F6, u8 (Z.lor (Z.shiftr offset 24) 0xE0)); (0x1F7, 0x20)].

Definition readsect (m : mem) (dst offset : Z) : option mem :=
  _ ← waitdisk [];
  _ ← waitdisk (read_command offset);
  Some (port_insl m dst (drive (read_command offset)) 0 (Z.to_nat (SECTSIZE / 4))).

Fixpoint readseg_loop (fuel : nat) (m : mem) (pa epa offset : Z) : option mem :=
  match fuel with
  | O => None
  | S n =>
      if pa <? epa
      then m ← readsect m pa offset; readseg_loop n m (u32 (pa + SECTSIZE)) epa (u32 (offset + 1))
      else Some m
  end.

(** The loop runs at most once for each sector of the segment, and once more for
    the part of a sector in front and behind. *)
Definition readseg (m : mem) (pa count offset : Z) : option mem :=
  let epa := u32 (pa + count) in
  let pa := u32 (pa - offset `mod` SECTSIZE) in
  let offset := u32 (offset / SECTSIZE + 1) in
  readseg_loop (Z.to_nat (count / SECTSIZE) + 3) m pa epa offset.

(** The loop's body; the header is read again behind the load. *)
Definition load_header (m : mem) (ph : Z) : option mem :=
  let pa := ph_paddr m ph in
  m' ← readseg m pa (ph_filesz m ph) (ph_off m ph);
  Some (if ph_memsz m' ph >? ph_filesz m' ph
        then stosb m' (u32 (pa + ph_filesz m' ph)) 0 (Z.to_nat (ph_memsz m' ph - ph_filesz m' ph))
        else m').

Fixpoint load_headers (fuel : nat) (m : mem) (ph eph : Z) : option mem :=
  match fuel with
  | O => None
  | S n =>
      if ph <? eph then m ← load_header m ph; load_headers n m (u32 (ph + 32)) eph
      else Some m
  end.

Definition bootmain (m : mem) : option booted :=
  m ← readseg m ELFSCRATCH 4096 0;
  if negb (eh_magic m ELFSCRATCH =? ELF_MAGIC) then Some (Returns m)
  else
    let ph := u32 (ELFSCRATCH + eh_phoff m ELFSCRATCH) in
    let phnum := eh_phnum m ELFSCRATCH in
    m ← load_headers (S (Z.to_nat phnum)) m ph (u32 (ph + 32 * phnum));
    Some (Enters (eh_entry m ELFSCRATCH) m).

(** ** Sectors *)

(** What an ATA drive does with the command to read one sector in LBA mode: [disk p]
    is byte [p] of the disk, and the sector number has 28 bits.  It gets ready, idle
    or after the command, within [polls] looks. *)
Context (disk : Z → Z).
Definition lba (r3 r4 r5 r6 : Z) : Z := r3 + 2 ^ 8 * r4 + 2 ^ 16 * r5 + 2 ^ 24 * Z.land r6 0xf.
Hypothesis drive_lba : ∀ r3 r4 r5 r6 i, Z.land r6 0xE0 = 0xE0 → 0 ≤ i < 512 →
  drive [(0x1F2, 1); (0x1F3, r3); (0x1F4, r4); (0x1F5, r5); (0x1F6, r6); (0x1F7, 0x20)] i =
    disk (512 * lba r3 r4 r5 r6 + i).
Hypothesis drive_ready : ∀ w, w = [] ∨ (∃ offset, w = read_command offset) →
  ∃ k, (k < polls)%nat ∧ Z.land (status w k) 0xC0 = 0x40.

Lemma waitdisk_ok w : w = [] ∨ (∃ offset, w = read_command offset) → waitdisk w = Some tt.
Proof.
  intros Hw. destruct (drive_ready w Hw) as (k & Hk & Hr). unfold waitdisk.
  enough (∀ n j, (j ≤ k)%nat → (k < j + n)%nat → wait_loop n w j = Some tt) as H by (apply H; lia).
  induction n as [|n IH]; intros j Hj Hn; [lia|]. cbn [wait_loop].
  destruct (Z.eqb_spec (Z.land (status w j) 0xC0) 0x40); [done|]. cbn [negb].
  assert (j ≠ k) by congruence. apply IH; lia.
Qed.

Lemma port_insl_spec n : ∀ m dst data i x,
  port_insl m dst data i n x = if inrange dst (4 * Z.of_nat n) x then data (i + (x - dst)) else m x.
Proof.
  unfold inrange. induction n as [|n IH]; intros m dst data i x; cbn [port_insl].
  { by zcases. }
  rewrite IH. unfold mwrite. zcases; try done; f_equal; lia.
Qed.

(** The registers get the 28 bits of the sector number. *)
Lemma top_bits k : 0 ≤ k < 16 →
  Z.land (u8 (Z.lor k 0xE0)) 0xf = k ∧ Z.land (u8 (Z.lor k 0xE0)) 0xE0 = 0xE0.
Proof.
  intros H. assert (k = 0 ∨ k = 1 ∨ k = 2 ∨ k = 3 ∨ k = 4 ∨ k = 5 ∨ k = 6 ∨ k = 7 ∨ k = 8 ∨ k = 9 ∨
    k = 10 ∨ k = 11 ∨ k = 12 ∨ k = 13 ∨ k = 14 ∨ k = 15) as Hk by lia.
  by destruct_or! Hk; subst.
Qed.

Lemma readsect_spec m dst o : 0 ≤ o < 2 ^ 28 →
  ∃ m', readsect m dst o = Some m' ∧
    ∀ x, m' x = if inrange dst 512 x then disk (512 * o + (x - dst)) else m x.
Proof.
  intros Ho. unfold readsect. rewrite !waitdisk_ok by eauto. cbn [mbind option_bind]. eexists. split; [done|].
  intros x. rewrite port_insl_spec. change (4 * Z.of_nat (Z.to_nat (SECTSIZE / 4))) with 512.
  destruct (inrange dst 512 x) eqn:E; [|done].
  assert (0 ≤ x - dst < 512) by (unfold inrange in E; lia).
  destruct (top_bits (o / 2 ^ 24)) as [H1 H2].
  { split; [apply Z.div_pos; lia|apply Z.div_lt_upper_bound; lia]. }
  unfold read_command. rewrite !Z.shiftr_div_pow2 by lia. rewrite drive_lba by (done || lia). f_equal. unfold lba. rewrite H1. unfold u8.
  Z.to_euclidean_division_equations. lia.
Qed.

(** ** Segments *)

Lemma readseg_loop_spec k : ∀ fuel m pa epa o, (k < fuel)%nat →
  epa ≤ pa + 512 * Z.of_nat k → (k = O ∨ pa + 512 * (Z.of_nat k - 1) < epa) →
  0 ≤ pa → pa + 512 * Z.of_nat k < 2 ^ 32 → 0 ≤ o → o + Z.of_nat k < 2 ^ 28 →
  ∃ m', readseg_loop fuel m pa epa o = Some m' ∧
    ∀ x, m' x = if inrange pa (512 * Z.of_nat k) x then disk (512 * o + (x - pa)) else m x.
Proof.
  unfold inrange. induction k as [|k IH]; intros fuel m pa epa o Hf He Hk Hp Hw Ho Hb;
    (destruct fuel as [|fuel]; [lia|]); cbn [readseg_loop].
  - replace (pa <? epa) with false by lia. eexists; split; [done|]. intros x. by zcases.
  - replace (pa <? epa) with true by lia. unfold SECTSIZE. rewrite !u32_small by lia.
    destruct (readsect_spec m pa o) as (m1 & -> & H1); [lia|]. cbn [mbind option_bind].
    destruct (IH fuel m1 (pa + 512) epa (o + 1)) as (m' & E & H); [lia..|].
    exists m'. split; [done|]. intros x. rewrite H, H1. unfold inrange.
    zcases; try done; f_equal; lia.
Qed.

(** [readseg] puts the file's bytes where they belong, and writes less than a
    sector in front and less than a sector behind. *)
Lemma readseg_spec m pa count off :
  0 ≤ count → 0 ≤ off < 2 ^ 32 → off `mod` 512 ≤ pa → pa + count + 512 < 2 ^ 32 →
  ∃ m', readseg m pa count off = Some m' ∧
    (∀ x, pa ≤ x < pa + count → m' x = disk (512 + off + (x - pa))) ∧
    (∀ x, x < pa - off `mod` 512 ∨ pa + count + 512 ≤ x → m' x = m x) ∧
    (count = 0 → off `mod` 512 = 0 → ∀ x, m' x = m x).
Proof.
  intros Hc Ho Hp Hw. set (r := off `mod` 512). assert (0 ≤ r < 512) by (apply Z.mod_pos_bound; lia).
  assert (off = 512 * (off / 512) + r) as Hoff by (apply Z.div_mod; lia).
  set (k := (count + r + 511) / 512).
  assert (count + r ≤ 512 * k < count + r + 512) as Hk by (unfold k; Z.to_euclidean_division_equations; lia).
  assert (count < 512 * (count / 512) + 512) by (Z.to_euclidean_division_equations; lia).
  unfold readseg, SECTSIZE. fold r. rewrite !u32_small by lia.
  destruct (readseg_loop_spec (Z.to_nat k) (Z.to_nat (count / 512) + 3) m (pa - r) (pa + count) (off / 512 + 1))
    as (m' & E & H'); [lia..|].
  rewrite Z2Nat.id in H' by lia. unfold inrange in H'.
  exists m'. split; [done|]. split_and!.
  - intros x Hx. rewrite H'. zcases; [|lia..]. f_equal. lia.
  - intros x Hx. rewrite H'. zcases; [lia|done..].
  - intros -> Hr x. rewrite H'. zcases; [lia|done..].
Qed.

(** ** The kernel's image *)

(** The kernel's file starts at sector 1. *)
Definition kfile : mem := λ x, disk (512 + x).

(** A program header that asks for nothing, as the linker's stack header does. *)
Definition empty_header (ph : Z) : Prop :=
  ph_filesz kfile ph = 0 ∧ ph_memsz kfile ph = 0 ∧ ph_off kfile ph `mod` 512 = 0 ∧
  ph_paddr kfile ph + 512 < 2 ^ 32.

(** A segment lies above the page the headers are read to, with the part of a
    sector that comes with it, and does not come near the end of memory. *)
Definition placed_header (ph : Z) : Prop :=
  ELFSCRATCH + 4096 ≤ ph_paddr kfile ph - ph_off kfile ph `mod` 512 ∧
  ph_paddr kfile ph + ph_filesz kfile ph + 512 < 2 ^ 32 ∧
  ph_paddr kfile ph + ph_memsz kfile ph < 2 ^ 32.

(** What the file says of the segment is in memory. *)
Definition seg_loaded (m : mem) (ph : Z) : Prop :=
  ∀ x, ph_paddr kfile ph ≤ x < ph_paddr kfile ph + Z.max (ph_filesz kfile ph) (ph_memsz kfile ph) →
    m x = if x <? ph_paddr kfile ph + ph_filesz kfile ph
          then kfile (ph_off kfile ph + (x - ph_paddr kfile ph)) else 0.

Definition nth_header (i : Z) : Z := eh_phoff kfile 0 + 32 * i.

(** An image the loader can load: its headers are in the first page, and its
    segments come in increasing order. *)
Record bootable : Prop := {
  bt_bytes : ∀ x, 0 ≤ disk x < 256;
  bt_magic : eh_magic kfile 0 = ELF_MAGIC;
  bt_page : eh_phoff kfile 0 + 32 * eh_phnum kfile 0 ≤ 4096;
  bt_headers : ∀ i, 0 ≤ i < eh_phnum kfile 0 → empty_header (nth_header i) ∨ placed_header (nth_header i);
  bt_order : ∀ i j, 0 ≤ i < j → j < eh_phnum kfile 0 →
    placed_header (nth_header i) → placed_header (nth_header j) →
    ph_paddr kfile (nth_header i) + Z.max (ph_filesz kfile (nth_header i)) (ph_memsz kfile (nth_header i)) ≤
    ph_paddr kfile (nth_header j) - ph_off kfile (nth_header j) `mod` 512
}.

(** The page with the headers has been read. *)
Definition page_read (m : mem) : Prop := ∀ x, 0 ≤ x < 4096 → m (ELFSCRATCH + x) = kfile x.

Lemma page_word m a : page_read m → 0 ≤ a → a + 4 ≤ 4096 → mread32 m (ELFSCRATCH + a) = mread32 kfile a.
Proof. intros H Ha Hb. unfold mread32. rewrite <- !Z.add_assoc, !H by lia. done. Qed.

Lemma page_field m q k : page_read m → 0 ≤ q → q + 32 ≤ 4096 → 0 ≤ k ≤ 28 →
  mread32 m (ELFSCRATCH + q + k) = mread32 kfile (q + k).
Proof. intros H Hq Hb Hk. rewrite <- Z.add_assoc. apply page_word; auto with lia. Qed.

Section image.
Hypothesis Hboot : bootable.

Lemma kfile_word a : 0 ≤ mread32 kfile a < 2 ^ 32.
Proof.
  unfold mread32, kfile. pose proof (bt_bytes Hboot). 
  pose proof (H (512 + a)). pose proof (H (512 + (a + 1))). pose proof (H (512 + (a + 2))).
  pose proof (H (512 + (a + 3))). lia.
Qed.

(** One round of the loop: the segment is loaded, and memory below it is kept. *)
Lemma load_header_spec m q : page_read m → 0 ≤ q → q + 32 ≤ 4096 → empty_header q ∨ placed_header q →
  ∃ m', load_header m (ELFSCRATCH + q) = Some m' ∧ page_read m' ∧ seg_loaded m' q ∧
    ∀ x, (placed_header q → x < ph_paddr kfile q - ph_off kfile q `mod` 512) → m' x = m x.
Proof.
  intros Hm Hq Hb Hh. unfold load_header, ph_paddr, ph_filesz, ph_memsz, ph_off.
  rewrite !page_field by (done || lia).
  fold (ph_paddr kfile q) (ph_filesz kfile q) (ph_memsz kfile q) (ph_off kfile q).
  pose proof (kfile_word (q + 4) : 0 ≤ ph_off kfile q < _).
  pose proof (kfile_word (q + 12) : 0 ≤ ph_paddr kfile q < _).
  pose proof (kfile_word (q + 16) : 0 ≤ ph_filesz kfile q < _).
  pose proof (kfile_word (q + 20) : 0 ≤ ph_memsz kfile q < _).
  pose proof (Z.mod_pos_bound (ph_off kfile q) 512 ltac:(done)).
  destruct (readseg_spec m (ph_paddr kfile q) (ph_filesz kfile q) (ph_off kfile q)) as (m' & -> & Hin & Hout & Hno);
    [lia|lia|destruct Hh as [(?&?&?&?)|(?&?&?)]; unfold ELFSCRATCH in *; lia..|].
  assert (∀ x, (placed_header q → x < ph_paddr kfile q - ph_off kfile q `mod` 512) → m' x = m x) as Hkeep.
  { intros x Hx. destruct Hh as [(?&?&?&?)|Hp]; [by apply Hno|apply Hout; auto]. }
  assert (page_read m') as Hm'.
  { intros x Hx. rewrite Hkeep; [by apply Hm|]. intros (Hp & _). unfold ELFSCRATCH in Hp |- *. lia. }
  cbn [mbind option_bind]. 
  rewrite !page_field by (done || lia). fold (ph_filesz kfile q) (ph_memsz kfile q).
  eexists; split; [done|].
  destruct (Z.gtb_spec (ph_memsz kfile q) (ph_filesz kfile q)) as [Hgt|Hle].
  - destruct Hh as [(?&?&?&?)|Hp]; [lia|]. pose proof Hp as (Hp1 & Hp2 & Hp3). unfold ELFSCRATCH in Hp1.
    rewrite u32_small by lia. split_and!.
    + intros x Hx. rewrite stosb_spec. unfold inrange. zcases; [unfold ELFSCRATCH in *; lia|by apply Hm'..].
    + intros x Hx. rewrite stosb_spec. unfold inrange. zcases; try lia; try done; rewrite Hin by lia; unfold kfile; f_equal; lia.
    + intros x Hx. specialize (Hx Hp). rewrite stosb_spec. unfold inrange. zcases; try lia; apply Hkeep; auto.
  - split_and!; [done| |done]. intros x Hx. zcases; try lia; rewrite Hin by lia; unfold kfile; f_equal; lia.
Qed.

Lemma phnum_bound : 0 ≤ eh_phnum kfile 0 < 2 ^ 16.
Proof.
  unfold eh_phnum, mread16, kfile. pose proof (bt_bytes Hboot (512 + (0 + 44))).
  pose proof (bt_bytes Hboot (512 + (0 + 44 + 1))). lia.
Qed.

(** Memory that a placed segment's load keeps holds the segments before it. *)
Lemma seg_loaded_keep m m' i j : 0 ≤ j < i → i < eh_phnum kfile 0 →
  (∀ x, (placed_header (nth_header i) →
     x < ph_paddr kfile (nth_header i) - ph_off kfile (nth_header i) `mod` 512) → m' x = m x) →
  seg_loaded m (nth_header j) → seg_loaded m' (nth_header j).
Proof.
  intros Hj Hi Hkeep Hl x Hx. rewrite Hkeep; [by apply Hl|]. intros Hp.
  destruct (bt_headers Hboot j) as [(?&?&?)|Hq]; [lia|lia|].
  pose proof (bt_order Hboot j i Hj Hi Hq Hp). lia.
Qed.

Lemma load_headers_spec n : ∀ m i, 0 ≤ i → i + Z.of_nat n = eh_phnum kfile 0 →
  page_read m → (∀ j, 0 ≤ j < i → seg_loaded m (nth_header j)) →
  ∃ m', load_headers (S n) m (ELFSCRATCH + nth_header i) (ELFSCRATCH + nth_header (eh_phnum kfile 0)) = Some m' ∧
    page_read m' ∧ ∀ j, 0 ≤ j < eh_phnum kfile 0 → seg_loaded m' (nth_header j).
Proof.
  pose proof (bt_page Hboot). pose proof (kfile_word (0 + 28) : 0 ≤ eh_phoff kfile 0 < _).
  induction n as [|n IH]; intros m i Hi Hn Hm Hl; cbn [load_headers].
  - replace (_ <? _) with false by (unfold nth_header; lia).
    eexists; split; [done|]. split; [done|]. intros j Hj. apply Hl. lia.
  - replace (_ <? _) with true by (unfold nth_header; lia).
    destruct (load_header_spec m (nth_header i)) as (m1 & -> & Hm1 & Hs & Hkeep);
      [done|unfold nth_header; lia..|apply (bt_headers Hboot); lia|].
    cbn [mbind option_bind].
    replace (u32 (ELFSCRATCH + nth_header i + 32)) with (ELFSCRATCH + nth_header (i + 1))
      by (unfold nth_header, ELFSCRATCH; rewrite u32_small; lia).
    apply IH; [lia..|done|]. intros j Hj. destruct (decide (j = i)) as [->|]; [done|].
    eapply (seg_loaded_keep m m1 i); [lia..|done|]. apply Hl. lia.
Qed.
End image.

Lemma first_page m : ∃ m', readseg m ELFSCRATCH 4096 0 = Some m' ∧ page_read m'.
Proof.
  destruct (readseg_spec m ELFSCRATCH 4096 0) as (m' & E & Hin & _); [done..|].
  exists m'. split; [done|]. intros x Hx. rewrite Hin by (unfold ELFSCRATCH; lia). unfold kfile. f_equal. lia.
Qed.


(** A disk that does not hold an ELF file: back to bootasm.S. *)
Theorem bootmain_returns m : eh_magic kfile 0 ≠ ELF_MAGIC → ∃ m', bootmain m = Some (Returns m').
Proof.
  intros Hn. destruct (first_page m) as (m1 & E & Hm1). unfold bootmain. rewrite E. cbn [mbind option_bind].
  replace (eh_magic m1 ELFSCRATCH) with (eh_magic kfile 0) by (symmetry; apply (page_word _ 0); done).
  apply Z.eqb_neq in Hn. rewrite Hn. by exists m1.
Qed.
End loader.

(** ** A kernel *)

Lemma mwrite32_bytes m a w : (∀ x, 0 ≤ m x < 256) → ∀ x, 0 ≤ mwrite32 m a w x < 256.
Proof.
  intros H x. unfold mwrite32, mwrite.
  repeat (destruct (_ =? _); [apply Z.mod_pos_bound; done|]). done.
Qed.

(** Three bytes of text, 697 bytes of zeros, and a stack header. *)
Definition sample_disk : mem :=
  foldr (λ '(a, w) m, mwrite32 m (512 + a) w) (λ _, 0)
    [(0, ELF_MAGIC); (24, 0x10000C); (28, 52); (44, 2);
     (52, 1); (56, 4096); (60, 0x80100000); (64, 0x100000); (68, 3); (72, 700); (84, 0x6474E551);
     (4096, 0x030201)].

Definition sample_drive (w : list (Z * Z)) (i : Z) : Z :=
  match w with
  | [_; (_, r3); (_, r4); (_, r5); (_, r6); _] => sample_disk (512 * lba r3 r4 r5 r6 + i)
  | _ => 0
  end.

(** It is busy twice after a command. *)
Definition sample_status (w : list (Z * Z)) (k : nat) : Z :=
  match w with [] => 0x40 | _ => if (k <? 2)%nat then 0x80 else 0x40 end.

Lemma sample_ready w : w = [] ∨ (∃ offset, w = read_command offset) →
  ∃ k, (k < 3)%nat ∧ Z.land (sample_status w k) 0xC0 = 0x40.
Proof. intros [->|[o ->]]; [by exists 0%nat; split; [lia|]|by exists 2%nat; split; [lia|]]. Qed.

Lemma sample_bootable : bootable sample_disk.
Proof.
  assert (eh_phnum (kfile sample_disk) 0 = 2) as Hn by (vm_compute; reflexivity).
  split.
  - unfold sample_disk. cbn [foldr]. by repeat apply mwrite32_bytes.
  - vm_compute. reflexivity.
  - vm_compute. discriminate.
  - rewrite Hn. intros i Hi. assert (i = 0 ∨ i = 1) as [-> | ->] by lia.
    + right. repeat split; apply Z.leb_le || apply Z.ltb_lt; vm_compute; reflexivity.
    + left. repeat split; vm_compute; reflexivity.
  - rewrite Hn. intros i j Hi Hj _ (Hp & _). assert (j = 1) as -> by lia.
    exfalso. revert Hp. apply Z.lt_nge. apply Z.ltb_lt. vm_compute. reflexivity.
Qed.

