(* ===== verification/Mp.v ===== *)
(** * The multiprocessor tables (mp.c, mp.h)

    The BIOS's tables are in memory, that of Str.v by kernel virtual address.
    [mpinit]'s loop has no bound of its own: [Stuck] stands for a run that has not
    come to an end within the fuel, and [Overrun] for a store behind [cpus]. *)
From Stdlib Require Import ZifyBool.
From S2P Require Import Prelude Str Kalloc.

(** ** The structures *)

Definition sizeof_mp : Z := 16.
Definition mp_physaddr (m : mem) (p : Z) : Z := mread32 m (p + 4).
Definition mp_imcrp (m : mem) (p : Z) : Z := m (p + 12).

Definition sizeof_mpconf : Z := 44.
Definition conf_length (m : mem) (p : Z) : Z := m (p + 4) + 2 ^ 8 * m (p + 5).
Definition conf_version (m : mem) (p : Z) : Z := m (p + 6).
Definition conf_lapicaddr (m : mem) (p : Z) : Z := mread32 m (p + 36).

Definition sizeof_mpproc : Z := 20.
Definition proc_apicid (m : mem) (p : Z) : Z := m (p + 1).
Definition proc_flags (m : mem) (p : Z) : Z := m (p + 3).
Definition MPBOOT : Z := 0x02.

Definition sizeof_mpioapic : Z := 8.
Definition ioapic_apicno (m : mem) (p : Z) : Z := m (p + 1).

Definition MPPROC : Z := 0.
Definition MPBUS : Z := 1.
Definition MPIOAPIC : Z := 2.
Definition MPIOINTR : Z := 3.
Definition MPLINTR : Z := 4.

(** ** The search *)

(** [memcmp] of memory with the bytes of a literal. *)
Fixpoint same (m : mem) (p : Z) (s : list Z) : bool :=
  match s with
  | [] => true
  | c :: s => (m p =? c) && same m (p + 1) s
  end.

Definition MP_sig : list Z := [0x5F; 0x4D; 0x50; 0x5F].
Definition PCMP_sig : list Z := [0x50; 0x43; 0x4D; 0x50].

Fixpoint total (m : mem) (addr : Z) (len : nat) : Z :=
  match len with
  | O => 0
  | S n => m addr + total m (addr + 1) n
  end.

Definition sum (m : mem) (addr len : Z) : Z := u8 (total m addr (Z.to_nat len)).

(** The test of [mpsearch1]'s loop. *)
Definition is_mp (m : mem) (p : Z) : bool := same m p MP_sig && (sum m p sizeof_mp =? 0).

Fixpoint mpsearch1_loop (fuel : nat) (m : mem) (p e : Z) : Z :=
  match fuel with
  | O => 0
  | S n =>
      if p <? e then if is_mp m p then p else mpsearch1_loop n m (u32 (p + sizeof_mp)) e
      else 0
  end.

(** [len] is a multiple of the structure's size at every call. *)
Definition mpsearch1 (m : mem) (a len : Z) : Z :=
  let addr := p2v a in
  mpsearch1_loop (S (Z.to_nat (len / sizeof_mp))) m addr (u32 (addr + len)).

Definition mpsearch (m : mem) : Z :=
  let bda := p2v 0x400 in
  let p := Z.shiftl (Z.lor (Z.shiftl (m (bda + 0x0F)) 8) (m (bda + 0x0E))) 4 in
  let q := Z.lor (Z.shiftl (m (bda + 0x14)) 8) (m (bda + 0x13)) * 1024 in
  let mp := if negb (p =? 0) then mpsearch1 m p 1024 else mpsearch1 m (q - 1024) 1024 in
  if negb (mp =? 0) then mp else mpsearch1 m 0xF0000 0x10000.

(** The floating pointer and the table, when there is one to use. *)
Definition mpconfig (m : mem) : option (Z * Z) :=
  let mp := mpsearch m in
  if (mp =? 0) || (mp_physaddr m mp =? 0) then None
  else
    let conf := p2v (mp_physaddr m mp) in
    if negb (same m conf PCMP_sig) then None
    else if negb (conf_version m conf =? 1) && negb (conf_version m conf =? 4) then None
    else if negb (sum m conf (conf_length m conf) =? 0) then None
    else Some (mp, conf).

(** ** The processors *)

Record mpst := Mpst {
  cpu_ids : list Z;       (* cpus[i].id *)
  bcpu : Z;               (* an index into cpus *)
  ismp : Z;
  ncpu : Z;
  ioapicid : Z;
  lapic : Z;
  mp_out : list (Z * Z)   (* what goes to the ports, the oldest first *)
}.

Definition mpbcpu (s : mpst) : Z := bcpu s.

Inductive mp_run := Finished (s : mpst) | Overrun | Stuck.

(** One round of [mpinit]'s loop: the switch on the entry at [p]. *)
Definition mp_entry (m : mem) (p : Z) (s : mpst) : option (Z * mpst) :=
  let t := m p in
  if t =? MPPROC then
    if decide (Z.to_nat (ncpu s) < NCPU)%nat then
      Some (u32 (p + sizeof_mpproc),
        Mpst (<[Z.to_nat (ncpu s) := u8 (ncpu s)]> (cpu_ids s))
          (if negb (Z.land (proc_flags m p) MPBOOT =? 0) then ncpu s else bcpu s)
          (if negb (ncpu s =? proc_apicid m p) then 0 else ismp s)
          (ncpu s + 1) (ioapicid s) (lapic s) (mp_out s))
    else None
  else if t =? MPIOAPIC then
    Some (u32 (p + sizeof_mpioapic),
      Mpst (cpu_ids s) (bcpu s) (ismp s) (ncpu s) (ioapic_apicno m p) (lapic s) (mp_out s))
  else if (t =? MPBUS) || (t =? MPIOINTR) || (t =? MPLINTR) then Some (u32 (p + 8), s)
  else Some (p, Mpst (cpu_ids s) (bcpu s) 0 (ncpu s) (ioapicid s) (lapic s) (mp_out s)).

Fixpoint mp_entries (fuel : nat) (m : mem) (p e : Z) (s : mpst) : mp_run :=
  match fuel with
  | O => Stuck
  | S n =>
      if p <? e then
        match mp_entry m p s with
        | Some (p', s') => mp_entries n m p' e s'
        | None => Overrun
        end
      else Finished s
  end.

(** Behind the loop: fall back to one processor, or mask the external interrupts;
    [imcr] is what port 0x23 reads. *)
Definition mp_finish (m : mem) (mp imcr : Z) (s : mpst) : mpst :=
  if ismp s =? 0 then Mpst (cpu_ids s) (bcpu s) 0 1 0 0 (mp_out s)
  else if negb (mp_imcrp m mp =? 0)
  then Mpst (cpu_ids s) (bcpu s) (ismp s) (ncpu s) (ioapicid s) (lapic s)
         (mp_out s ++ [(0x22, 0x70); (0x23, u8 (Z.lor imcr 1))])
  else s.

Definition mpinit (fuel : nat) (m : mem) (imcr : Z) (s : mpst) : mp_run :=
  let s := Mpst (cpu_ids s) 0 (ismp s) (ncpu s) (ioapicid s) (lapic s) (mp_out s) in
  match mpconfig m with
  | None => Finished s
  | Some (mp, conf) =>
      let s := Mpst (cpu_ids s) 0 1 (ncpu s) (ioapicid s) (conf_lapicaddr m conf) (mp_out s) in
      match mp_entries fuel m (u32 (conf + sizeof_mpconf)) (u32 (conf + conf_length m conf)) s with
      | Finished s => Finished (mp_finish m mp imcr s)
      | r => r
      end
  end.

(** The kernel's variables before the call: all zero. *)
Definition mp0 : mpst := Mpst (replicate NCPU 0) 0 0 0 0 0 [].

(** ** The search finds the first structure there is *)

Lemma mpsearch1_loop_spec k : ∀ fuel m p, (k < fuel)%nat → 0 < p → p + 16 * Z.of_nat k < 2 ^ 32 →
  let r := mpsearch1_loop fuel m p (p + 16 * Z.of_nat k) in
  (∃ i, 0 ≤ i < Z.of_nat k ∧ r = p + 16 * i ∧ is_mp m r = true ∧
     ∀ j, 0 ≤ j < i → is_mp m (p + 16 * j) = false) ∨
  r = 0 ∧ ∀ i, 0 ≤ i < Z.of_nat k → is_mp m (p + 16 * i) = false.
Proof.
  induction k as [|k IH]; intros [|fuel] m p Hf Hp Hw; try lia; cbn [mpsearch1_loop].
  { replace (p <? p + 16 * Z.of_nat 0) with false by lia. right. split; [done|lia]. }
  replace (p <? p + 16 * Z.of_nat (S k)) with true by lia. destruct (is_mp m p) eqn:E.
  { left. exists 0. rewrite Z.add_0_r. split_and!; [lia..|done|lia]. }
  unfold sizeof_mp. rewrite u32_small by lia.
  replace (p + 16 * Z.of_nat (S k)) with (p + 16 + 16 * Z.of_nat k) by lia.
  assert (∀ j, is_mp m (p + 16 + 16 * (j - 1)) = false → is_mp m (p + 16 * j) = false) as Hs.
  { intros j. by replace (p + 16 + 16 * (j - 1)) with (p + 16 * j) by lia. }
  destruct (IH fuel m (p + 16)) as [(i & Hi & Hr & Hmp & Hno)|[Hr Hno]]; [lia..| |].
  - left. exists (i + 1). split_and!; [lia|lia|lia|done|]. intros j Hj.
    destruct (decide (j = 0)) as [->|]; [by rewrite Z.add_0_r|]. apply Hs, Hno. lia.
  - right. split; [done|]. intros i Hi.
    destruct (decide (i = 0)) as [->|]; [by rewrite Z.add_0_r|]. apply Hs, Hno. lia.
Qed.

(** [mpsearch1] returns the first structure at a multiple of 16 bytes from [a] on,
    and the null pointer only when there is none. *)
Theorem mpsearch1_first m a k : 0 ≤ a → 0 ≤ k → p2v a + 16 * k < 2 ^ 32 → a + 16 * k < KERNBASE →
  let r := mpsearch1 m a (16 * k) in
  (∃ i, 0 ≤ i < k ∧ r = p2v a + 16 * i ∧ is_mp m r = true ∧
     ∀ j, 0 ≤ j < i → is_mp m (p2v a + 16 * j) = false) ∨
  r = 0 ∧ ∀ i, 0 ≤ i < k → is_mp m (p2v a + 16 * i) = false.
Proof.
  intros Ha Hk Hw Hb. unfold mpsearch1, sizeof_mp. rewrite Z.mul_comm, Z.div_mul, Z.mul_comm by done.
  assert (0 < p2v a) by (unfold p2v, KERNBASE in *; rewrite u32_small; lia).
  rewrite u32_small by lia. pose proof (mpsearch1_loop_spec (Z.to_nat k) (S (Z.to_nat k)) m (p2v a)) as H'.
  rewrite Z2Nat.id in H' by done. apply H'; [lia..|done].
Qed.

(** ** The table's entries *)

Inductive entry := EProc (apicid flags : Z) | EIoapic (apicno : Z) | EOther (t : Z).

Definition entry_size (e : entry) : Z := match e with EProc _ _ => 20 | _ => 8 end.

Definition entry_at (m : mem) (p : Z) (e : entry) : Prop :=
  match e with
  | EProc a f => m p = MPPROC ∧ proc_apicid m p = a ∧ proc_flags m p = f
  | EIoapic a => m p = MPIOAPIC ∧ ioapic_apicno m p = a
  | EOther t => m p = t ∧ (t = MPBUS ∨ t = MPIOINTR ∨ t = MPLINTR)
  end.

Fixpoint table_at (m : mem) (p e : Z) (es : list entry) : Prop :=
  match es with
  | [] => p = e
  | x :: es => entry_at m p x ∧ table_at m (p + entry_size x) e es
  end.

Definition procs (es : list entry) : list (Z * Z) :=
  omap (λ x, match x with EProc a f => Some (a, f) | _ => None end) es.

(** What an entry does to the variables. *)
Definition enter (s : mpst) (x : entry) : mpst :=
  match x with
  | EProc a f =>
      Mpst (<[Z.to_nat (ncpu s) := u8 (ncpu s)]> (cpu_ids s))
        (if negb (Z.land f MPBOOT =? 0) then ncpu s else bcpu s)
        (if negb (ncpu s =? a) then 0 else ismp s) (ncpu s + 1) (ioapicid s) (lapic s) (mp_out s)
  | EIoapic a => Mpst (cpu_ids s) (bcpu s) (ismp s) (ncpu s) a (lapic s) (mp_out s)
  | EOther _ => s
  end.

Lemma entry_size_pos x : 8 ≤ entry_size x ≤ 20.
Proof. destruct x; cbn; lia. Qed.

Lemma table_span m e es : ∀ p, table_at m p e es → p + 8 * Z.of_nat (length es) ≤ e.
Proof.
  induction es as [|x es IH]; intros p; cbn; [lia|]. intros [_ H%IH]. pose proof (entry_size_pos x). lia.
Qed.

Lemma mp_entry_enter m p x s : entry_at m p x → 0 ≤ p → p + entry_size x < 2 ^ 32 →
  0 ≤ ncpu s → ncpu s + Z.of_nat (length (procs [x])) ≤ Z.of_nat NCPU → mp_entry m p s = Some (p + entry_size x, enter s x).
Proof.
  unfold mp_entry, sizeof_mpproc, sizeof_mpioapic. intros Hx Hp Hw H0 Hn. destruct x as [a f|a|t]; cbn in *.
  - destruct Hx as (-> & -> & ->). rewrite decide_True by lia. by rewrite u32_small by lia.
  - destruct Hx as (-> & ->). cbn. by rewrite u32_small by lia.
  - destruct Hx as (-> & [-> | [-> | ->]]); cbn; by rewrite u32_small by lia.
Qed.

Lemma enter_ncpu s x : ncpu (enter s x) = ncpu s + Z.of_nat (length (procs [x])).
Proof. destruct x; cbn; lia. Qed.

Lemma procs_cons x es : length (procs (x :: es)) = (length (procs [x]) + length (procs es))%nat.
Proof. by destruct x. Qed.

Lemma mp_entries_enter es : ∀ fuel m p e s, table_at m p e es → (length es < fuel)%nat → 0 ≤ p → e < 2 ^ 32 →
  0 ≤ ncpu s → ncpu s + Z.of_nat (length (procs es)) ≤ Z.of_nat NCPU →
  mp_entries fuel m p e s = Finished (foldl enter s es).
Proof.
  induction es as [|x es IH]; intros [|fuel] m p e s Ht Hf Hp He H0 Hn; cbn in Hf; try lia; cbn [mp_entries].
  { cbn in Ht. subst. by rewrite Z.ltb_irrefl. }
  pose proof (table_span _ _ _ _ Ht) as Hs. destruct Ht as [Hx Ht]. pose proof (table_span _ _ _ _ Ht).
  pose proof (entry_size_pos x). rewrite procs_cons in Hn. cbn [length] in Hs.
  replace (p <? e) with true by lia. rewrite (mp_entry_enter _ _ x) by (done || lia).
  apply IH; [done|lia|lia|done|rewrite enter_ncpu; lia..].
Qed.

(** ** The processors that are registered *)

Lemma enter_ncpu_all es : ∀ s, ncpu (foldl enter s es) = ncpu s + Z.of_nat (length (procs es)).
Proof.
  induction es as [|x es IH]; intros s; cbn [foldl]; [cbn; lia|]. rewrite IH, procs_cons, enter_ncpu. lia.
Qed.

Lemma enter_ismp es : ∀ s, ismp (foldl enter s es) =
  if decide ((procs es).*1 = seqZ (ncpu s) (Z.of_nat (length (procs es)))) then ismp s else 0.
Proof.
  induction es as [|x es IH]; intros s; cbn [foldl]; [done|]. rewrite IH. clear IH. destruct x as [a f| |]; [|done..].
  change (procs (EProc a f :: es)) with ((a, f) :: procs es). cbn [fmap list_fmap length fst enter ncpu ismp].
  rewrite (seqZ_cons (ncpu s)) by lia. replace (Z.pred (Z.of_nat (S _))) with (Z.of_nat (length (procs es))) by lia.
  unfold Z.succ. destruct (Z.eqb_spec (ncpu s) a) as [->|Hne]; cbn [negb].
  - destruct (decide (_ = seqZ (a + 1) _)) as [->|Hn]; [by rewrite decide_True|].
    rewrite decide_False; [done|]. by intros [= ?].
  - rewrite (decide_False (P := a :: _ = _)); [by case_decide|]. by intros [= ?].
Qed.

Lemma enter_lapic es : ∀ s, lapic (foldl enter s es) = lapic s.
Proof. induction es as [|x es IH]; intros s; [done|]. cbn. rewrite IH. by destruct x. Qed.

Lemma enter_ids es : ∀ s, 0 ≤ ncpu s → ncpu s + Z.of_nat (length (procs es)) ≤ Z.of_nat (length (cpu_ids s)) →
  length (cpu_ids s) = NCPU →
  (∀ i, (i < Z.to_nat (ncpu s))%nat → cpu_ids s !! i = Some (Z.of_nat i)) →
  ∀ i, (i < Z.to_nat (ncpu s) + length (procs es))%nat → cpu_ids (foldl enter s es) !! i = Some (Z.of_nat i).
Proof.
  induction es as [|x es IH]; intros s H0 Hn Hl Hi i Hlt; cbn [foldl]; [apply Hi; cbn in Hlt; lia|].
  rewrite procs_cons in Hn, Hlt.
  apply IH; rewrite ?enter_ncpu; [lia| | | |lia].
  - destruct x; cbn [enter cpu_ids]; rewrite ?length_insert; lia.
  - destruct x; cbn [enter cpu_ids]; by rewrite ?length_insert.
  - destruct x as [a f| |]; cbn [enter cpu_ids procs omap list_omap length] in *; [|rewrite Z.add_0_r; apply Hi..].
    intros j Hj. destruct (decide (j = Z.to_nat (ncpu s))) as [->|].
    + rewrite list_lookup_insert_eq by lia. f_equal. unfold u8, NCPU in *. rewrite Z.mod_small; lia.
    + rewrite list_lookup_insert_ne by done. apply Hi. lia.
Qed.

Definition boots (f : Z) : Prop := Z.land f MPBOOT ≠ 0.

Lemma enter_bcpu_none es : ∀ s, Forall (λ x, ¬ boots x.2) (procs es) → bcpu (foldl enter s es) = bcpu s.
Proof.
  induction es as [|x es IH]; intros s; [done|]. destruct x as [a f|n|n]; [|apply (IH (enter s (EIoapic n)))|apply IH].
  change (procs (EProc a f :: es)) with ((a, f) :: procs es). intros [Hf Hes]%Forall_cons. cbn [foldl].
  rewrite IH by done. cbn. cbn in Hf. destruct (Z.eqb_spec (Z.land f MPBOOT) 0); [done|]. by destruct Hf.
Qed.

Lemma enter_bcpu es : ∀ s l1 a f l2, procs es = l1 ++ (a, f) :: l2 → boots f → Forall (λ x, ¬ boots x.2) l2 →
  bcpu (foldl enter s es) = ncpu s + Z.of_nat (length l1).
Proof.
  induction es as [|x es IH]; intros s l1 a f l2; [by destruct l1|].
  destruct x as [b g|n|n]; [|apply (IH (enter s (EIoapic n)))|apply IH].
  change (procs (EProc b g :: es)) with ((b, g) :: procs es). intros E Hf Hl2. cbn [foldl].
  destruct l1 as [|y l1]; injection E as E1 E2.
  - subst b g l2. rewrite enter_bcpu_none by done. cbn. apply Z.eqb_neq in Hf. rewrite Hf. cbn. lia.
  - rewrite (IH _ _ _ _ _ E2 Hf Hl2), enter_ncpu. cbn. lia.
Qed.

(** A machine's tables as [mpinit] takes them: there is a table, it is [es], and it
    has room for its processors. *)
Record has_table (m : mem) (mp conf : Z) (es : list entry) : Prop := {
  ht_conf : mpconfig m = Some (mp, conf);
  ht_low : 0 ≤ conf;
  ht_high : conf + conf_length m conf < 2 ^ 32;
  ht_room : sizeof_mpconf ≤ conf_length m conf;
  ht_table : table_at m (conf + sizeof_mpconf) (conf + conf_length m conf) es;
  ht_procs : (length (procs es) ≤ NCPU)%nat
}.

Lemma mpinit_table m mp conf es imcr fuel : has_table m mp conf es → (length es < fuel)%nat →
  mpinit fuel m imcr mp0 =
    Finished (mp_finish m mp imcr (foldl enter (Mpst (replicate NCPU 0) 0 1 0 0 (conf_lapicaddr m conf) []) es)).
Proof.
  intros [Hc Hl Hh Hr Ht Hp] Hf. unfold mpinit. rewrite Hc. unfold sizeof_mpconf in *.
  rewrite !u32_small by lia.
  rewrite (mp_entries_enter es) by (exact Ht || done || (cbn [ncpu mp0]; lia)). done.
Qed.

(** C33: [mpinit] on a well-formed table: when the local APICs are numbered in
    the table's order, every processor is registered under its number, the boot
    processor is the last one marked so, and the local APIC's address is the
    table's; when they are not, the kernel falls back to a single processor. *)
Theorem mpinit_registers m mp conf es imcr fuel : has_table m mp conf es → (length es < fuel)%nat →
  ∃ s, mpinit fuel m imcr mp0 = Finished s ∧
    if decide ((procs es).*1 = seqZ 0 (Z.of_nat (length (procs es))))
    then ismp s = 1 ∧ ncpu s = Z.of_nat (length (procs es)) ∧ lapic s = conf_lapicaddr m conf ∧
      (∀ i, (i < length (procs es))%nat → cpu_ids s !! i = Some (Z.of_nat i)) ∧
      ∀ l1 a f l2, procs es = l1 ++ (a, f) :: l2 → boots f → Forall (λ x, ¬ boots x.2) l2 →
        mpbcpu s = Z.of_nat (length l1)
    else ismp s = 0 ∧ ncpu s = 1 ∧ lapic s = 0.
Proof.
  intros Ht Hf. rewrite (mpinit_table m mp conf es) by done. eexists; split; [done|]. unfold mp_finish.
  set (s0 := Mpst (replicate NCPU 0) 0 1 0 0 (conf_lapicaddr m conf) []).
  pose proof (enter_ismp es s0) as Hi. change (ncpu s0) with 0 in Hi. rewrite Hi.
  destruct (decide _) as [Hd|Hd]; [|done]. change (ismp s0 =? 0) with false. cbn match.
  pose proof (enter_ncpu_all es s0) as Hn. pose proof (enter_lapic es s0) as Hl.
  pose proof (enter_ids es s0) as Hid. pose proof (enter_bcpu es s0) as Hb.
  pose proof (ht_procs _ _ _ _ Ht).
  assert (∀ i, (i < length (procs es))%nat → cpu_ids (foldl enter s0 es) !! i = Some (Z.of_nat i)) as Hids.
  { intros i Hlt. apply Hid; [done|change (0 + Z.of_nat (length (procs es)) ≤ Z.of_nat NCPU); lia|done|cbn; lia|done]. }
  destruct (negb (mp_imcrp m mp =? 0)); (split_and!; [exact Hi || done|exact Hn|exact Hl|exact Hids|exact Hb]).
Qed.

(** An entry of a type that is not one of the five never lets [mpinit]
    go on: the default case of its switch leaves the pointer where it is. *)
Theorem mpinit_unknown_type m mp conf imcr :
  mpconfig m = Some (mp, conf) → 0 ≤ conf → conf + conf_length m conf < 2 ^ 32 →
  sizeof_mpconf < conf_length m conf → MPLINTR < m (conf + sizeof_mpconf) →
  ∀ fuel, mpinit fuel m imcr mp0 = Stuck.
Proof.
  intros Hc Hl Hh Hr Ht fuel. unfold mpinit. rewrite Hc. unfold sizeof_mpconf, MPLINTR in *. rewrite !u32_small by lia.
  set (s := Mpst _ _ _ _ _ _ _). clearbody s.
  enough (mp_entries fuel m (conf + 44) (conf + conf_length m conf) s = Stuck) as -> by done.
  revert s. induction fuel as [|fuel IH]; intros s; [done|]. cbn [mp_entries].
  replace (conf + 44 <? _) with true by lia. unfold mp_entry, MPPROC, MPIOAPIC, MPBUS, MPIOINTR, MPLINTR.
  replace (m (conf + 44) =? 0) with false by lia. replace (m (conf + 44) =? 2) with false by lia.
  replace (m (conf + 44) =? 1) with false by lia. replace (m (conf + 44) =? 3) with false by lia.
  replace (m (conf + 44) =? 4) with false by lia. apply IH.
Qed.

(** ** Two machines *)

Fixpoint put_bytes (m : mem) (a : Z) (l : list Z) : mem :=
  match l with
  | [] => m
  | b :: l => put_bytes (mwrite m a b) (a + 1) l
  end.

(** The floating pointer in the BIOS's ROM, and a table at 0x9000. *)
Definition machine (length checksum : Z) (entries : list Z) : mem :=
  put_bytes
    (put_bytes (λ _, 0) (p2v 0xF0000) (MP_sig ++ [0; 0x90; 0; 0; 1; 4; 16; 0; 0; 0; 0; 0]))
    (p2v 0x9000)
    (PCMP_sig ++ [length; 0; 4; checksum] ++ replicate 26 0 ++ [4; 0; 0; 0; 0xE0; 0xFE; 0; 0; 0; 0] ++ entries).

(** Two processors, an I/O APIC and a bus. *)
Definition machine2 : mem :=
  machine 100 132 ([0; 0; 20; 3] ++ replicate 16 0 ++ [0; 1; 20; 1] ++ replicate 16 0 ++
    [2; 2; 17; 1; 0; 0; 0xC0; 0xFE] ++ [1; 0; 0; 0; 0; 0; 0; 0]).

Lemma machine2_table : has_table machine2 (p2v 0xF0000) (p2v 0x9000)
  [EProc 0 3; EProc 1 1; EIoapic 2; EOther MPBUS].
Proof.
  split; try (vm_compute; congruence). 
  - vm_compute. repeat split; try reflexivity. by left.
  - cbn. unfold NCPU. lia.
Qed.

Lemma mpinit_registers_witness : ∃ s, mpinit 5 machine2 0 mp0 = Finished s ∧ ncpu s = 2 ∧ mpbcpu s = 0.
Proof.
  destruct (mpinit_registers machine2 (p2v 0xF0000) (p2v 0x9000) [EProc 0 3; EProc 1 1; EIoapic 2; EOther MPBUS] 0 5
    machine2_table ltac:(cbn; lia)) as (s & E & H).
  exists s. split; [exact E|]. rewrite decide_True in H by reflexivity.
  destruct H as (_ & Hn & _ & _ & Hb). split; [exact Hn|].
  apply (Hb [] 0 3 [(1, 1)]); [reflexivity|vm_compute; discriminate|].
  apply Forall_singleton. intros Hx. by apply Hx.
Defined.

(** A table with an entry of type 9. *)
Definition machine9 : mem := machine 52 173 [9; 0; 0; 0; 0; 0; 0; 0].

Lemma mpinit_unknown_type_witness : mpinit 100 machine9 0 mp0 = Stuck.
Proof.
  apply (mpinit_unknown_type machine9 (p2v 0xF0000) (p2v 0x9000) 0); vm_compute; congruence.
Defined.
