(* ===== verification/Seg.v ===== *)
(** * Descriptors (struct segdesc and gatedesc, SEG and SETGATE of mmu.h), tvinit and
    idtinit of trap.c, seginit of vm.c, lgdt and lidt of x86.h

    A descriptor is the record of bit fields the C structure has, and [pack] the
    64-bit word the compiler makes of it, the first field in the low bits.  What the
    processor reads out of the word is given by the bit positions of the processor's
    manual, so the theorems are about the words in the tables. *)
From S2P Require Import Prelude Spinlock Ptable ProcLife Trap.

(** ** Bit fields *)

Fixpoint pack (fs : list (Z * Z)) : Z :=
  match fs with
  | [] => 0
  | (w, v) :: fs => v `mod` 2 ^ w + 2 ^ w * pack fs
  end.

(** [w] bits of [d] from bit [lo] on. *)
Definition bits (d lo w : Z) : Z := Z.land (Z.shiftr d lo) (Z.ones w).

Definition widths (fs : list (Z * Z)) : Z := foldr (λ f n, f.1 + n) 0 fs.

Lemma bits_div d lo w : 0 ≤ lo → 0 ≤ w → bits d lo w = (d / 2 ^ lo) `mod` 2 ^ w.
Proof. intros. unfold bits. by rewrite Z.land_ones, Z.shiftr_div_pow2. Qed.

Lemma widths_nonneg fs : Forall (λ f, 0 ≤ f.1) fs → 0 ≤ widths fs.
Proof. unfold widths. induction 1; cbn [foldr]; lia. Qed.

(** A field is where the widths of the fields before it put it. *)
Lemma bits_pack fs w v rest : Forall (λ f, 0 ≤ f.1) fs → 0 ≤ w →
  bits (pack (fs ++ (w, v) :: rest)) (widths fs) w = v `mod` 2 ^ w.
Proof.
  intros Hfs Hw. rewrite bits_div by (done || by apply widths_nonneg).
  induction Hfs as [|[u x] fs Hu Hfs IH]; cbn [app pack widths foldr fst].
  - rewrite Z.pow_0_r, Z.div_1_r, (Z.mul_comm (2 ^ w)), Z.mod_add by (apply Z.pow_nonzero; lia).
    by rewrite Z.mod_mod by (apply Z.pow_nonzero; lia).
  - fold (widths fs). pose proof (widths_nonneg _ Hfs). cbn in Hu.
    assert (0 < 2 ^ u) by (apply Z.pow_pos_nonneg; lia).
    rewrite Z.pow_add_r, <- Z.div_div, (Z.mul_comm (2 ^ u)), Z.div_add by (apply Z.pow_nonzero || apply Z.pow_pos_nonneg || idtac; lia).
    by rewrite (Z.div_small (x `mod` 2 ^ u)) by (apply Z.mod_pos_bound; lia).
Qed.

(** ** mmu.h *)

Record segdesc := Segdesc {
  lim_15_0 : Z; base_15_0 : Z; base_23_16 : Z; sd_type : Z; sd_s : Z; sd_dpl : Z; sd_p : Z;
  lim_19_16 : Z; sd_avl : Z; sd_rsv1 : Z; sd_db : Z; sd_g : Z; base_31_24 : Z
}.

Definition segdesc_fields (d : segdesc) : list (Z * Z) :=
  [(16, lim_15_0 d); (16, base_15_0 d); (8, base_23_16 d); (4, sd_type d); (1, sd_s d);
   (2, sd_dpl d); (1, sd_p d); (4, lim_19_16 d); (1, sd_avl d); (1, sd_rsv1 d); (1, sd_db d);
   (1, sd_g d); (8, base_31_24 d)].

Definition SEG (type base lim dpl : Z) : segdesc :=
  Segdesc (Z.land (Z.shiftr lim 12) 0xffff) (Z.land base 0xffff) (Z.land (Z.shiftr base 16) 0xff) type 1 dpl 1
    (Z.shiftr lim 28) 0 0 1 1 (Z.shiftr base 24).

Record gatedesc := Gatedesc {
  off_15_0 : Z; gd_cs : Z; gd_args : Z; gd_rsv1 : Z; gd_type : Z; gd_s : Z; gd_dpl : Z; gd_p : Z; off_31_16 : Z
}.

Definition gatedesc_fields (g : gatedesc) : list (Z * Z) :=
  [(16, off_15_0 g); (16, gd_cs g); (5, gd_args g); (3, gd_rsv1 g); (4, gd_type g); (1, gd_s g);
   (2, gd_dpl g); (1, gd_p g); (16, off_31_16 g)].

Definition STS_IG32 : Z := 0xE.
Definition STS_TG32 : Z := 0xF.

Definition SETGATE (istrap sel off d : Z) : gatedesc :=
  Gatedesc (Z.land off 0xffff) sel 0 0 (if negb (istrap =? 0) then STS_TG32 else STS_IG32) 0 d 1 (Z.shiftr off 16).

Definition SEG_KCODE : Z := 1.
Definition SEG_KCPU : Z := 3.
Definition STA_X : Z := 0x8.
Definition STA_W : Z := 0x2.
Definition STA_R : Z := 0x2.

(** [<< 3]: the selector of a segment. *)
Definition selector (i : Z) : Z := Z.shiftl i 3.

(** ** trap.c and vm.c *)

Section tables.
(** The entry points of the generated vectors.S. *)
Context (vectors : nat → Z).

Fixpoint tvinit_loop (n i : nat) (idt : list gatedesc) : list gatedesc :=
  match n with
  | O => idt
  | S n => tvinit_loop n (S i) (<[i := SETGATE 0 (selector SEG_KCODE) (vectors i) 0]> idt)
  end.

(** The table and the CPU; the last line is [initlock(&tickslock, "time")]. *)
Definition tvinit (s : list gatedesc * mach) : list gatedesc * mach :=
  let idt := tvinit_loop 256 0 s.1 in
  let idt := <[Z.to_nat T_SYSCALL := SETGATE 1 (selector SEG_KCODE) (vectors (Z.to_nat T_SYSCALL)) DPL_USER]> idt in
  (idt, set_lock Lticks (Spinlock 0 "time" None) s.2).
End tables.

(** [lgdt] and [lidt]: the three halfwords the instruction reads. *)
Definition pseudo_descriptor (p size : Z) : list Z := [u16 (size - 1); u16 p; u16 (Z.shiftr p 16)].

(** [sizeof idt]: 256 descriptors of 8 bytes. *)
Definition idtinit (idt_addr : Z) : list Z := pseudo_descriptor idt_addr (256 * 8).

(** The descriptors of one CPU, its table register, and its [gs]. *)
Record segst := Segst {
  gdt : list segdesc;
  gdtr : list Z;
  gs : Z;
  gs_stores : list (Z * Z)   (* what is stored through %gs: offset and value *)
}.

(** [c] is the address of the CPU's structure, [gdt_addr] and [cpu_addr] those of its
    [gdt] and [cpu].  The variables [cpu] and [proc] are at %gs:0 and %gs:4. *)
Definition seginit (c gdt_addr cpu_addr : Z) (s : segst) : segst :=
  let g := gdt s in
  let g := <[Z.to_nat SEG_KCODE := SEG (Z.lor STA_X STA_R) 0 0xffffffff 0]> g in
  let g := <[Z.to_nat SEG_KDATA := SEG STA_W 0 0xffffffff 0]> g in
  let g := <[Z.to_nat SEG_UCODE := SEG (Z.lor STA_X STA_R) 0 0xffffffff DPL_USER]> g in
  let g := <[Z.to_nat SEG_UDATA := SEG STA_W 0 0xffffffff DPL_USER]> g in
  let g := <[Z.to_nat SEG_KCPU := SEG STA_W cpu_addr 8 0]> g in
  Segst g (pseudo_descriptor gdt_addr (7 * 8)) (selector SEG_KCPU) (gs_stores s ++ [(0, c); (4, 0)]).

(** ** What the processor reads in a descriptor *)

Definition gate_word (g : gatedesc) : Z := pack (gatedesc_fields g).
Definition hw_gate_offset (d : Z) : Z := bits d 0 16 + 2 ^ 16 * bits d 48 16.
Definition hw_gate_selector (d : Z) : Z := bits d 16 16.
Definition hw_gate_type (d : Z) : Z := bits d 40 4.
Definition hw_gate_system (d : Z) : Z := bits d 44 1.
Definition hw_dpl (d : Z) : Z := bits d 45 2.
Definition hw_present (d : Z) : Z := bits d 47 1.

Definition seg_word (d : segdesc) : Z := pack (segdesc_fields d).
Definition hw_base (d : Z) : Z := bits d 16 16 + 2 ^ 16 * bits d 32 8 + 2 ^ 24 * bits d 56 8.
Definition hw_limit (d : Z) : Z :=
  let l := bits d 0 16 + 2 ^ 16 * bits d 48 4 in
  if bits d 55 1 =? 1 then 4096 * l + 4095 else l.
Definition hw_seg_type (d : Z) : Z := bits d 40 4.

(** The instruction [int n] at privilege level [cpl]: where it goes and whether
    interrupts stay on, or nothing for a protection fault. *)
Definition int_insn (idt : list gatedesc) (cpl : Z) (n : nat) : option (Z * Z * bool) :=
  g ← idt !! n;
  let d := gate_word g in
  if negb (hw_present d =? 1) || negb (hw_gate_system d =? 0) then None
  else if hw_dpl d <? cpl then None
  else if hw_gate_type d =? STS_IG32 then Some (hw_gate_selector d, hw_gate_offset d, false)
  else if hw_gate_type d =? STS_TG32 then Some (hw_gate_selector d, hw_gate_offset d, true)
  else None.

(** The linear address of an offset in a segment, within its limit. *)
Definition linear (g : list segdesc) (sel off : Z) : option Z :=
  d ← g !! Z.to_nat (sel / 8);
  let w := seg_word d in
  if negb (hw_present w =? 1) || (hw_limit w <? off) then None else Some (u32 (hw_base w + off)).

(** Reads field [k] of a packed descriptor. *)
Ltac field k :=
  match goal with
  | |- bits (pack ?l) ?lo ?w = _ =>
      let p := eval cbn in (take k l) in
      let r := eval cbn in (drop (S k) l) in
      refine (bits_pack p w _ r _ _); [repeat constructor; cbn; lia|lia]
  end.

Lemma gate_read g :
  hw_gate_offset (gate_word g) = off_15_0 g `mod` 2 ^ 16 + 2 ^ 16 * (off_31_16 g `mod` 2 ^ 16) ∧
  hw_gate_selector (gate_word g) = gd_cs g `mod` 2 ^ 16 ∧ hw_gate_type (gate_word g) = gd_type g `mod` 2 ^ 4 ∧
  hw_gate_system (gate_word g) = gd_s g `mod` 2 ^ 1 ∧ hw_dpl (gate_word g) = gd_dpl g `mod` 2 ^ 2 ∧
  hw_present (gate_word g) = gd_p g `mod` 2 ^ 1.
Proof.
  unfold hw_gate_offset, hw_gate_selector, hw_gate_type, hw_gate_system, hw_dpl, hw_present, gate_word, gatedesc_fields.
  split_and!; [f_equal; [|f_equal]| | | | |]; [field 0%nat|field 8%nat|field 1%nat|field 4%nat|field 5%nat|field 6%nat|field 7%nat].
Qed.

Lemma seg_read d :
  hw_base (seg_word d) =
    base_15_0 d `mod` 2 ^ 16 + 2 ^ 16 * (base_23_16 d `mod` 2 ^ 8) + 2 ^ 24 * (base_31_24 d `mod` 2 ^ 8) ∧
  bits (seg_word d) 0 16 = lim_15_0 d `mod` 2 ^ 16 ∧ bits (seg_word d) 48 4 = lim_19_16 d `mod` 2 ^ 4 ∧
  bits (seg_word d) 55 1 = sd_g d `mod` 2 ^ 1 ∧
  hw_seg_type (seg_word d) = sd_type d `mod` 2 ^ 4 ∧ hw_dpl (seg_word d) = sd_dpl d `mod` 2 ^ 2 ∧
  hw_present (seg_word d) = sd_p d `mod` 2 ^ 1.
Proof.
  unfold hw_base, hw_seg_type, hw_dpl, hw_present, seg_word, segdesc_fields.
  split_and!; [f_equal; [f_equal; [|f_equal]|f_equal]| | | | | |];
    [field 1%nat|field 2%nat|field 12%nat|field 0%nat|field 7%nat|field 11%nat|field 3%nat|field 5%nat|field 6%nat].
Qed.

(** ** Gates *)

Lemma setgate_offset istrap sel off d : 0 ≤ off < 2 ^ 32 →
  hw_gate_offset (gate_word (SETGATE istrap sel off d)) = off.
Proof.
  intros Ho. destruct (gate_read (SETGATE istrap sel off d)) as (-> & _). cbn [SETGATE off_15_0 off_31_16].
  change 0xffff with (Z.ones 16). rewrite Z.land_ones, Z.shiftr_div_pow2 by lia.
  Z.to_euclidean_division_equations. lia.
Qed.

Section gates.
Context (vectors : nat → Z).
Hypothesis vectors_word : ∀ i, 0 ≤ vectors i < 2 ^ 32.

Lemma tvinit_loop_lookup n : ∀ i idt j, length idt = 256%nat → (i + n = 256)%nat → (j < 256)%nat →
  tvinit_loop vectors n i idt !! j =
    if decide (i ≤ j)%nat then Some (SETGATE 0 (selector SEG_KCODE) (vectors j) 0) else idt !! j.
Proof.
  induction n as [|n IH]; intros i idt j Hl Hi Hj; cbn [tvinit_loop]; [by rewrite decide_False by lia|].
  rewrite IH by (rewrite ?length_insert; lia). destruct (decide (i = j)) as [->|Hne].
  - rewrite decide_False, decide_True by lia. by rewrite list_lookup_insert_eq by lia.
  - rewrite list_lookup_insert_ne by done. repeat case_decide; done || lia.
Qed.

Lemma tvinit_loop_length n : ∀ i idt, length (tvinit_loop vectors n i idt) = length idt.
Proof. induction n as [|n IH]; intros i idt; cbn; [done|]. by rewrite IH, length_insert. Qed.

(** C17: After [tvinit] an [int] instruction of the kernel reaches its own entry
    in vectors.S in the kernel's code segment, with interrupts off but for a system
    call; a user program can reach the system call's entry and no other. *)
Theorem tvinit_gates s n : length s.1 = 256%nat → (n < 256)%nat →
  int_insn (tvinit vectors s).1 0 n =
    Some (selector SEG_KCODE, vectors n, if decide (n = Z.to_nat T_SYSCALL) then true else false) ∧
  int_insn (tvinit vectors s).1 3 n =
    if decide (n = Z.to_nat T_SYSCALL) then Some (selector SEG_KCODE, vectors n, true) else None.
Proof.
  intros Hl Hn. unfold int_insn, tvinit. cbn [fst]. destruct (decide (n = Z.to_nat T_SYSCALL)) as [->|Hne].
  - rewrite list_lookup_insert_eq by (rewrite tvinit_loop_length; unfold T_SYSCALL in *; lia). cbn [mbind option_bind].
    rewrite setgate_offset by done. by destruct (gate_read (SETGATE 1 (selector SEG_KCODE) (vectors (Z.to_nat T_SYSCALL)) DPL_USER))
      as (_ & -> & -> & -> & -> & ->).
  - rewrite list_lookup_insert_ne, tvinit_loop_lookup, decide_True by (done || lia). cbn [mbind option_bind].
    rewrite setgate_offset by done. by destruct (gate_read (SETGATE 0 (selector SEG_KCODE) (vectors n) 0))
      as (_ & -> & -> & -> & -> & ->).
Qed.
End gates.

(** ** Segments *)

Lemma seg_hw type base lim dpl : 0 ≤ base < 2 ^ 32 → 0 ≤ lim < 2 ^ 32 → 0 ≤ type < 16 → 0 ≤ dpl < 4 →
  let w := seg_word (SEG type base lim dpl) in
  hw_base w = base ∧ hw_limit w = 4096 * (lim / 4096) + 4095 ∧ hw_seg_type w = type ∧ hw_dpl w = dpl ∧ hw_present w = 1.
Proof.
  intros Hb Hl Ht Hd w. unfold hw_limit, w.
  destruct (seg_read (SEG type base lim dpl)) as (-> & -> & -> & -> & -> & -> & ->).
  cbn [SEG base_15_0 base_23_16 base_31_24 lim_15_0 lim_19_16 sd_g sd_type sd_dpl sd_p].
  change 0xffff with (Z.ones 16). change 0xff with (Z.ones 8).
  rewrite !Z.land_ones, !Z.shiftr_div_pow2 by lia. change (1 `mod` 2 ^ 1 =? 1) with true. cbn match.
  split_and!; Z.to_euclidean_division_equations; lia.
Qed.

Lemma linear_seg g sel off type base lim dpl : g !! Z.to_nat (sel / 8) = Some (SEG type base lim dpl) →
  0 ≤ base < 2 ^ 32 → 0 ≤ lim < 2 ^ 32 → 0 ≤ type < 16 → 0 ≤ dpl < 4 →
  linear g sel off = if 4096 * (lim / 4096) + 4095 <? off then None else Some (u32 (base + off)).
Proof.
  intros E Hb Hl Ht Hd. unfold linear. rewrite E. cbn [mbind option_bind].
  by destruct (seg_hw type base lim dpl) as (-> & -> & _ & _ & ->).
Qed.

Lemma linear_flat g sel off type dpl : g !! Z.to_nat (sel / 8) = Some (SEG type 0 0xffffffff dpl) →
  0 ≤ type < 16 → 0 ≤ dpl < 4 → 0 ≤ off < 2 ^ 32 → linear g sel off = Some off.
Proof.
  intros E Ht Hd Ho. rewrite (linear_seg _ _ _ _ _ _ _ E) by done.
  change (4096 * (0xffffffff / 4096) + 4095) with 0xffffffff.
  destruct (Z.ltb_spec 0xffffffff off); [lia|]. by rewrite u32_small.
Qed.

(** The kernel's and the user's segments are flat, and %gs reaches the CPU's own
    variables. *)
Theorem seginit_linear c gdt_addr cpu_addr s off : length (gdt s) = 7%nat → 0 ≤ cpu_addr → cpu_addr + 4096 < 2 ^ 32 →
  0 ≤ off < 2 ^ 32 →
  let g := gdt (seginit c gdt_addr cpu_addr s) in
  (∀ i, i ∈ [SEG_KCODE; SEG_KDATA; SEG_UCODE; SEG_UDATA] → linear g (selector i) off = Some off) ∧
  linear g (gs (seginit c gdt_addr cpu_addr s)) off = if off <? 4096 then Some (cpu_addr + off) else None.
Proof.
  intros Hl Hc Hw Ho g. destruct s as [l r q st]. cbn in Hl. do 7 (destruct l as [|? l]; [done|]). destruct l; [|done].
  split.
  - intros i Hi. set_unfold in Hi.
    destruct_or! Hi; try done; subst i; (eapply linear_flat; [reflexivity|done..]).
  - erewrite (linear_seg _ _ _ STA_W cpu_addr 8 0); [|reflexivity|done || lia..].
    change (4096 * (8 / 4096) + 4095) with 4095.
    destruct (Z.ltb_spec 4095 off), (Z.ltb_spec off 4096); try lia; [done|]. by rewrite u32_small by lia.
Qed.

(** Entry points eight bytes apart. *)
Definition sample_vectors (i : nat) : Z := u32 (0x80100000 + 8 * Z.of_nat i).

Lemma tvinit_gates_witness :
  let idt := (tvinit sample_vectors (replicate 256 (SETGATE 0 0 0 0), Mach ∅ 0 0 0 0)).1 in
  int_insn idt 3 13 = None ∧ int_insn idt 3 64 = Some (8, 0x80100200, true).
Proof.
  assert (∀ i, 0 ≤ sample_vectors i < 2 ^ 32) as H by (intros i; apply Z.mod_pos_bound; done).
  split.
  - apply (tvinit_gates sample_vectors H (replicate 256 (SETGATE 0 0 0 0), Mach ∅ 0 0 0 0) 13); [reflexivity|lia].
  - apply (tvinit_gates sample_vectors H (replicate 256 (SETGATE 0 0 0 0), Mach ∅ 0 0 0 0) 64); [reflexivity|lia].
Defined.
