(* ===== verification/Asm.v ===== *)
(** * The assembly of the kernel and of the system calls (swtch.S, trapasm.S, the
    entries vectors.pl generates, usys.S, initcode.S)

    [cpu] is what the routines work on: the registers and memory, kernel and user
    addresses alike.  [istep] executes one instruction of the subset the routines use;
    a routine is the list of its instructions, and the addresses of the instructions
    inside a routine do not matter.  [trap_in] is what the processor does on an
    interrupt, an exception or [int], from its manual: change stacks when it comes from
    user mode, and push the old stack, flags and program counter.

    The frame on the stack is [struct trapframe], the record of Ptable.v that the
    C code works on; a saved context is [struct context]. *)
From S2P Require Import Prelude Spinlock Str Ptable ProcLife Trap Seg.

(** ** The machine *)

Inductive reg := EAX | ECX | EDX | EBX | ESP | EBP | ESI | EDI.
Inductive sreg := DS | ES | FS | GS.

Record cpu := Cpu {
  r_eax : Z; r_ecx : Z; r_edx : Z; r_ebx : Z; r_esp : Z; r_ebp : Z; r_esi : Z; r_edi : Z;
  r_ds : Z; r_es : Z; r_fs : Z; r_gs : Z;
  r_cs : Z; r_ss : Z; r_eflags : Z; r_eip : Z;
  ram : mem
}.

Definition get_reg (r : reg) (s : cpu) : Z :=
  match r with
  | EAX => r_eax s | ECX => r_ecx s | EDX => r_edx s | EBX => r_ebx s
  | ESP => r_esp s | EBP => r_ebp s | ESI => r_esi s | EDI => r_edi s
  end.

Definition set_reg (r : reg) (v : Z) (s : cpu) : cpu :=
  match r with
  | EAX => Cpu v (r_ecx s) (r_edx s) (r_ebx s) (r_esp s) (r_ebp s) (r_esi s) (r_edi s)
             (r_ds s) (r_es s) (r_fs s) (r_gs s) (r_cs s) (r_ss s) (r_eflags s) (r_eip s) (ram s)
  | ECX => Cpu (r_eax s) v (r_edx s) (r_ebx s) (r_esp s) (r_ebp s) (r_esi s) (r_edi s)
             (r_ds s) (r_es s) (r_fs s) (r_gs s) (r_cs s) (r_ss s) (r_eflags s) (r_eip s) (ram s)
  | EDX => Cpu (r_eax s) (r_ecx s) v (r_ebx s) (r_esp s) (r_ebp s) (r_esi s) (r_edi s)
             (r_ds s) (r_es s) (r_fs s) (r_gs s) (r_cs s) (r_ss s) (r_eflags s) (r_eip s) (ram s)
  | EBX => Cpu (r_eax s) (r_ecx s) (r_edx s) v (r_esp s) (r_ebp s) (r_esi s) (r_edi s)
             (r_ds s) (r_es s) (r_fs s) (r_gs s) (r_cs s) (r_ss s) (r_eflags s) (r_eip s) (ram s)
  | ESP => Cpu (r_eax s) (r_ecx s) (r_edx s) (r_ebx s) v (r_ebp s) (r_esi s) (r_edi s)
             (r_ds s) (r_es s) (r_fs s) (r_gs s) (r_cs s) (r_ss s) (r_eflags s) (r_eip s) (ram s)
  | EBP => Cpu (r_eax s) (r_ecx s) (r_edx s) (r_ebx s) (r_esp s) v (r_esi s) (r_edi s)
             (r_ds s) (r_es s) (r_fs s) (r_gs s) (r_cs s) (r_ss s) (r_eflags s) (r_eip s) (ram s)
  | ESI => Cpu (r_eax s) (r_ecx s) (r_edx s) (r_ebx s) (r_esp s) (r_ebp s) v (r_edi s)
             (r_ds s) (r_es s) (r_fs s) (r_gs s) (r_cs s) (r_ss s) (r_eflags s) (r_eip s) (ram s)
  | EDI => Cpu (r_eax s) (r_ecx s) (r_edx s) (r_ebx s) (r_esp s) (r_ebp s) (r_esi s) v
             (r_ds s) (r_es s) (r_fs s) (r_gs s) (r_cs s) (r_ss s) (r_eflags s) (r_eip s) (ram s)
  end.

Definition get_sreg (r : sreg) (s : cpu) : Z :=
  match r with DS => r_ds s | ES => r_es s | FS => r_fs s | GS => r_gs s end.

Definition set_sregs (ds es fs gs : Z) (s : cpu) : cpu :=
  Cpu (r_eax s) (r_ecx s) (r_edx s) (r_ebx s) (r_esp s) (r_ebp s) (r_esi s) (r_edi s)
    ds es fs gs (r_cs s) (r_ss s) (r_eflags s) (r_eip s) (ram s).

Definition set_sreg (r : sreg) (v : Z) (s : cpu) : cpu :=
  match r with
  | DS => set_sregs v (r_es s) (r_fs s) (r_gs s) s
  | ES => set_sregs (r_ds s) v (r_fs s) (r_gs s) s
  | FS => set_sregs (r_ds s) (r_es s) v (r_gs s) s
  | GS => set_sregs (r_ds s) (r_es s) (r_fs s) v s
  end.

(** Program counter, code and stack segment, flags. *)
Definition set_flow (cs ss eflags eip : Z) (s : cpu) : cpu :=
  Cpu (r_eax s) (r_ecx s) (r_edx s) (r_ebx s) (r_esp s) (r_ebp s) (r_esi s) (r_edi s)
    (r_ds s) (r_es s) (r_fs s) (r_gs s) cs ss eflags eip (ram s).
Definition set_eip (eip : Z) (s : cpu) : cpu := set_flow (r_cs s) (r_ss s) (r_eflags s) eip s.

Definition set_ram (m : mem) (s : cpu) : cpu :=
  Cpu (r_eax s) (r_ecx s) (r_edx s) (r_ebx s) (r_esp s) (r_ebp s) (r_esi s) (r_edi s)
    (r_ds s) (r_es s) (r_fs s) (r_gs s) (r_cs s) (r_ss s) (r_eflags s) (r_eip s) m.

Definition pushl (v : Z) (s : cpu) : cpu :=
  let sp := u32 (r_esp s - 4) in set_reg ESP sp (set_ram (mwrite32 (ram s) sp v) s).

(** The word on top of the stack, and the stack without it. *)
Definition top (s : cpu) : Z := mread32 (ram s) (r_esp s).
Definition drop4 (s : cpu) : cpu := set_reg ESP (u32 (r_esp s + 4)) s.

(** ** Instructions *)

Inductive instr :=
| Load (off : Z) (base dst : reg)      (* movl off(base), dst *)
| Store (src base : reg)               (* movl src, (base) *)
| Mov (src dst : reg)                  (* movl src, dst *)
| Movi (v : Z) (dst : reg)             (* movl $v, dst *)
| Movw_ax (v : Z)                      (* movw $v, %ax *)
| Movw_seg (r : sreg)                  (* movw %ax, r *)
| Push (r : reg) | Pushi (v : Z) | Pushs (r : sreg)
| Pop (r : reg) | Pops (r : sreg)
| Pushal | Popal
| Addi (v : Z) (r : reg)               (* addl $v, r *)
| Ret
| Iret.

Definition CPL (s : cpu) : Z := Z.land (r_cs s) 3.

(** [iret] in the kernel: the stack is popped too when it goes back to user mode. *)
Definition iret (s : cpu) : cpu :=
  let eip := top s in let s := drop4 s in
  let cs := u16 (top s) in let s := drop4 s in
  let eflags := top s in let s := drop4 s in
  if Z.land cs 3 =? 0 then set_flow cs (r_ss s) eflags eip s
  else
    let esp := top s in let s := drop4 s in
    set_reg ESP esp (set_flow cs (u16 (top s)) eflags eip s).

Definition istep (i : instr) (s : cpu) : cpu :=
  match i with
  | Load off b d => set_reg d (mread32 (ram s) (u32 (get_reg b s + off))) s
  | Store r b => set_ram (mwrite32 (ram s) (get_reg b s) (get_reg r s)) s
  | Mov r d => set_reg d (get_reg r s) s
  | Movi v d => set_reg d (u32 v) s
  | Movw_ax v => set_reg EAX (2 ^ 16 * (r_eax s / 2 ^ 16) + u16 v) s
  | Movw_seg r => set_sreg r (u16 (r_eax s)) s
  | Push r => pushl (get_reg r s) s
  | Pushi v => pushl v s
  | Pushs r => pushl (get_sreg r s) s
  | Pop r => let v := top s in set_reg r v (drop4 s)
  | Pops r => let v := top s in set_sreg r (u16 v) (drop4 s)
  | Pushal =>
      let sp := r_esp s in
      pushl (r_edi s) (pushl (r_esi s) (pushl (r_ebp s) (pushl sp (pushl (r_ebx s) (pushl (r_edx s)
        (pushl (r_ecx s) (pushl (r_eax s) s)))))))
  | Popal =>
      let pop r s := let v := top s in set_reg r v (drop4 s) in
      pop EAX (pop ECX (pop EDX (pop EBX (drop4 (pop EBP (pop ESI (pop EDI s)))))))
  | Addi v r => set_reg r (u32 (get_reg r s + v)) s
  | Ret => let v := top s in set_eip v (drop4 s)
  | Iret => iret s
  end.

Definition exec_code (code : list instr) (s : cpu) : cpu := foldl (λ s i, istep i s) s code.

(** ** swtch.S *)

Definition swtch_code : list instr :=
  [Load 4 ESP EAX; Load 8 ESP EDX;
   Push EBP; Push EBX; Push ESI; Push EDI;
   Store ESP EAX; Mov EDX ESP;
   Pop EDI; Pop ESI; Pop EBX; Pop EBP; Ret].

(** ** vectors.pl and trapasm.S *)

(** The exceptions for which the processor pushes an error code. *)
Definition has_err (n : Z) : bool := (n =? 8) || ((10 <=? n) && (n <=? 14)) || (n =? 17).

Definition vector (n : Z) : list instr := (if negb (has_err n) then [Pushi 0] else []) ++ [Pushi n].

(** To the call of [trap]. *)
Definition alltraps : list instr :=
  [Pushs DS; Pushs ES; Pushs FS; Pushs GS; Pushal;
   Movw_ax (Z.shiftl SEG_KDATA 3); Movw_seg DS; Movw_seg ES;
   Movw_ax (Z.shiftl SEG_KCPU 3); Movw_seg FS; Movw_seg GS;
   Push ESP].

(** Behind the call. *)
Definition trapret : list instr := [Popal; Pops GS; Pops FS; Pops ES; Pops DS; Addi 8 ESP; Iret].
Definition alltraps_end : list instr := Addi 4 ESP :: trapret.

(** What the processor does: [g] is the gate's selector, offset and whether
    interrupts stay on; [ss0] and [esp0] are those of the task segment. *)
Definition trap_in (g : Z * Z * bool) (ss0 esp0 : Z) (err : option Z) (s : cpu) : cpu :=
  let '(sel, off, ints) := g in
  let fl := r_eflags s in
  let fl' := if (ints : bool) then fl else Z.ldiff fl FL_IF in
  let s1 :=
    if CPL s =? 0 then s
    else pushl (r_esp s) (pushl (r_ss s) (set_reg ESP esp0 (set_flow (r_cs s) ss0 fl (r_eip s) s))) in
  let s2 := pushl (r_eip s) (pushl (r_cs s) (pushl fl s1)) in
  let s3 := match err with Some e => pushl e s2 | None => s2 end in
  set_flow sel (r_ss s3) fl' off s3.

(** ** usys.S and initcode.S *)

(** Up to the [int]; [ret] follows it. *)
Definition SYSCALL (num : Z) : list instr := [Movi num EAX].

Definition initcode_start (argv init sys_exec : Z) : list instr :=
  [Pushi argv; Pushi init; Pushi 0; Movi sys_exec EAX].

(** ** The stack *)

Fixpoint stack_mem (m : mem) (sp : Z) (ws : list Z) : mem :=
  match ws with
  | [] => m
  | w :: ws => stack_mem (mwrite32 m (sp - 4) w) (sp - 4) ws
  end.

Definition pushes (ws : list Z) (s : cpu) : cpu := foldl (λ s w, pushl w s) s ws.

Lemma pushes_eq ws : ∀ s, 4 * Z.of_nat (length ws) ≤ r_esp s < 2 ^ 32 →
  pushes ws s = set_reg ESP (r_esp s - 4 * Z.of_nat (length ws)) (set_ram (stack_mem (ram s) (r_esp s) ws) s).
Proof.
  induction ws as [|w ws IH]; intros s Hs; cbn [length] in Hs |- *.
  - rewrite Z.mul_0_r, Z.sub_0_r. by destruct s.
  - unfold pushes in *. cbn [foldl]. unfold pushl at 2. rewrite (u32_small (r_esp s - 4)) by lia.
    rewrite IH by (cbn; lia). cbn. f_equal; lia.
Qed.

Lemma stack_other ws : ∀ m sp x, sp ≤ x ∨ x < sp - 4 * Z.of_nat (length ws) → stack_mem m sp ws x = m x.
Proof.
  induction ws as [|w ws IH]; intros m sp x Hx; cbn [stack_mem length] in *; [done|].
  rewrite IH by lia. apply mwrite32_other. unfold inrange.
  destruct (Z.leb_spec (sp - 4) x), (Z.ltb_spec x (sp - 4 + 4)); try done. lia.
Qed.

Lemma stack_read ws : ∀ m sp i w, ws !! i = Some w →
  mread32 (stack_mem m sp ws) (sp - 4 * Z.of_nat (S i)) = u32 w.
Proof.
  induction ws as [|v ws IH]; intros m sp i w Hi; [done|]. cbn [stack_mem]. destruct i as [|i].
  - injection Hi as ->. replace (sp - 4 * Z.of_nat 1) with (sp - 4) by lia.
    rewrite <- (mread32_mwrite32 m (sp - 4) w). apply mread32_ext. intros x Hx. apply stack_other.
    unfold inrange in Hx. apply andb_true_iff in Hx as [?%Z.leb_le ?%Z.ltb_lt]. lia.
  - replace (sp - 4 * Z.of_nat (S (S i))) with (sp - 4 - 4 * Z.of_nat (S i)) by lia. by apply IH.
Qed.

(** ** Frames and contexts in memory *)

Definition read_tf (m : mem) (a : Z) : trapframe :=
  let w k := mread32 m (a + 4 * k) in
  Trapframe (w 0) (w 1) (w 2) (w 3) (w 4) (w 5) (w 6) (w 7)
    (u16 (w 8)) (u16 (w 9)) (u16 (w 10)) (u16 (w 11)) (w 12) (w 13) (w 14) (u16 (w 15)) (w 16) (w 17) (u16 (w 18)).

Definition read_ctx (m : mem) (a : Z) : context :=
  let w k := mread32 m (a + 4 * k) in Context (w 0) (w 1) (w 2) (w 3) (w 4).

(** Registers hold words. *)
Definition word (z : Z) : Prop := 0 ≤ z < 2 ^ 32.
Definition half (z : Z) : Prop := 0 ≤ z < 2 ^ 16.
Record wf (s : cpu) : Prop := {
  wf_regs : ∀ r, word (get_reg r s);
  wf_sregs : ∀ r, half (get_sreg r s);
  wf_cs : half (r_cs s); wf_ss : half (r_ss s);
  wf_eflags : word (r_eflags s); wf_eip : word (r_eip s)
}.

(** The frame of a process interrupted in the state [s]. *)
Definition frame_of (s : cpu) (esp0 n err : Z) : trapframe :=
  Trapframe (r_edi s) (r_esi s) (r_ebp s) (esp0 - 44) (r_ebx s) (r_edx s) (r_ecx s) (r_eax s)
    (r_gs s) (r_fs s) (r_es s) (r_ds s) n err (r_eip s) (r_cs s) (r_eflags s) (r_esp s) (r_ss s).

Definition frame_words (s : cpu) (esp0 n err : Z) : list Z :=
  [r_ss s; r_esp s; r_eflags s; r_cs s; r_eip s; err; n; r_ds s; r_es s; r_fs s; r_gs s;
   r_eax s; r_ecx s; r_edx s; r_ebx s; u32 (esp0 - 44); r_ebp s; r_esi s; r_edi s].

Lemma u16_half z : half z → u16 (u32 z) = z.
Proof. unfold half, u16. intros H. rewrite u32_small by lia. apply Z.mod_small. lia. Qed.

Lemma frame_read s m esp0 n err : wf s → word n → word err → 76 ≤ esp0 < 2 ^ 32 →
  read_tf (stack_mem m esp0 (frame_words s esp0 n err)) (esp0 - 76) = frame_of s esp0 n err.
Proof.
  intros [Hr Hs Hcs Hss Hf Hi] Hn He Ht. unfold read_tf.
  assert (∀ k i w, frame_words s esp0 n err !! i = Some w → k = 18 - Z.of_nat i →
    mread32 (stack_mem m esp0 (frame_words s esp0 n err)) (esp0 - 76 + 4 * k) = u32 w) as H.
  { intros k i w Hw ->. replace (esp0 - 76 + 4 * (18 - Z.of_nat i)) with (esp0 - 4 * Z.of_nat (S i)) by lia.
    by apply stack_read. }
  rewrite (H 0 18%nat _ eq_refl), (H 1 17%nat _ eq_refl), (H 2 16%nat _ eq_refl), (H 3 15%nat _ eq_refl),
    (H 4 14%nat _ eq_refl), (H 5 13%nat _ eq_refl), (H 6 12%nat _ eq_refl), (H 7 11%nat _ eq_refl),
    (H 8 10%nat _ eq_refl), (H 9 9%nat _ eq_refl), (H 10 8%nat _ eq_refl), (H 11 7%nat _ eq_refl),
    (H 12 6%nat _ eq_refl), (H 13 5%nat _ eq_refl), (H 14 4%nat _ eq_refl), (H 15 3%nat _ eq_refl),
    (H 16 2%nat _ eq_refl), (H 17 1%nat _ eq_refl), (H 18 0%nat _ eq_refl) by done.
  unfold frame_of. pose proof (Hs DS); pose proof (Hs ES); pose proof (Hs FS); pose proof (Hs GS).
  rewrite !u16_half by done.
  pose proof (Hr EAX); pose proof (Hr ECX); pose proof (Hr EDX); pose proof (Hr EBX);
    pose proof (Hr ESP); pose proof (Hr EBP); pose proof (Hr ESI); pose proof (Hr EDI).
  unfold word in *. cbn in *. rewrite !u32_small; try done; rewrite ?u32_small; lia.
Qed.

(** ** Into the kernel *)

Lemma pushes_esp ws s : 4 * Z.of_nat (length ws) ≤ r_esp s < 2 ^ 32 → r_esp (pushes ws s) = r_esp s - 4 * Z.of_nat (length ws).
Proof. intros H. by rewrite pushes_eq. Qed.

Lemma pushes_ram ws s : 4 * Z.of_nat (length ws) ≤ r_esp s < 2 ^ 32 → ram (pushes ws s) = stack_mem (ram s) (r_esp s) ws.
Proof. intros H. by rewrite pushes_eq. Qed.

Lemma pushes_snoc w ws s : pushl w (pushes ws s) = pushes (ws ++ [w]) s.
Proof. unfold pushes. by rewrite foldl_app. Qed.

Lemma pushes_flow a b c d ws : ∀ s, set_flow a b c d (pushes ws s) = pushes ws (set_flow a b c d s).
Proof. unfold pushes. induction ws as [|w ws IH]; intros s; [done|]. cbn [foldl]. by rewrite IH. Qed.

(** Nothing but the stack changes. *)
Lemma pushes_keep ws : ∀ s, set_reg ESP 0 (set_ram (ram s) (pushes ws s)) = set_reg ESP 0 s.
Proof.
  unfold pushes. induction ws as [|w ws IH]; intros s; cbn [foldl]; [by destruct s|].
  specialize (IH (pushl w s)). apply (f_equal (set_ram (ram s))) in IH. exact IH.
Qed.

Lemma pushes_reg r ws s : r ≠ ESP → get_reg r (pushes ws s) = get_reg r s.
Proof.
  intros Hr. pose proof (f_equal (get_reg r) (pushes_keep ws s)) as H. by destruct r.
Qed.

Lemma pushes_sreg r ws s : get_sreg r (pushes ws s) = get_sreg r s.
Proof. pose proof (f_equal (get_sreg r) (pushes_keep ws s)) as H. by destruct r. Qed.

Lemma pushes_ss ws s : r_ss (pushes ws s) = r_ss s.
Proof. exact (f_equal r_ss (pushes_keep ws s)). Qed.

(** Executing pushes on a stack of pushes. *)
Lemma exec_push r c ws s : r ≠ ESP → exec_code (Push r :: c) (pushes ws s) = exec_code c (pushes (ws ++ [get_reg r s]) s).
Proof. intros Hr. change (exec_code c (pushl (get_reg r (pushes ws s)) (pushes ws s)) = exec_code c (pushes (ws ++ [get_reg r s]) s)). by rewrite pushes_reg, pushes_snoc. Qed.
Lemma exec_pushi v c ws s : exec_code (Pushi v :: c) (pushes ws s) = exec_code c (pushes (ws ++ [v]) s).
Proof. change (exec_code c (pushl v (pushes ws s)) = exec_code c (pushes (ws ++ [v]) s)). by rewrite pushes_snoc. Qed.
Lemma exec_pushs r c ws s : exec_code (Pushs r :: c) (pushes ws s) = exec_code c (pushes (ws ++ [get_sreg r s]) s).
Proof. change (exec_code c (pushl (get_sreg r (pushes ws s)) (pushes ws s)) = exec_code c (pushes (ws ++ [get_sreg r s]) s)). by rewrite pushes_sreg, pushes_snoc. Qed.

Lemma exec_pushal c ws s : exec_code (Pushal :: c) (pushes ws s) =
  exec_code c (pushes (ws ++ [r_eax s; r_ecx s; r_edx s; r_ebx s; r_esp (pushes ws s); r_ebp s; r_esi s; r_edi s]) s).
Proof.
  transitivity (exec_code c (pushes ([get_reg EAX (pushes ws s); get_reg ECX (pushes ws s); get_reg EDX (pushes ws s);
    get_reg EBX (pushes ws s); r_esp (pushes ws s); get_reg EBP (pushes ws s); get_reg ESI (pushes ws s);
    get_reg EDI (pushes ws s)]) (pushes ws s))); [done|].
  rewrite !pushes_reg by done. unfold pushes. by rewrite foldl_app.
Qed.

(** At the call of [trap]. *)
Definition at_trap (s : cpu) (esp0 n err sel fl ss0 : Z) (s1 : cpu) : Prop :=
  ram s1 = stack_mem (ram s) esp0 (frame_words s esp0 n err ++ [esp0 - 76]) ∧ r_esp s1 = esp0 - 80 ∧
  (r_ds s1, r_es s1, r_fs s1, r_gs s1) = (selector SEG_KDATA, selector SEG_KDATA, selector SEG_KCPU, selector SEG_KCPU) ∧
  (r_cs s1, r_ss s1, r_eflags s1) = (sel, ss0, fl).

Lemma movw_ax v x : u16 (2 ^ 16 * (x / 2 ^ 16) + u16 v) = u16 v.
Proof.
  unfold u16. rewrite Z.add_comm, Z.mul_comm, Z.mod_add by done. by rewrite Z.mod_mod.
Qed.

(** Behind the pushes the segments are loaded and the frame's address is pushed. *)
Lemma alltraps_segments ws s : let s1 := exec_code (drop 5 alltraps) (pushes ws s) in
  ram s1 = ram (pushes (ws ++ [r_esp (pushes ws s)]) s) ∧ r_esp s1 = r_esp (pushes (ws ++ [r_esp (pushes ws s)]) s) ∧
  (r_ds s1, r_es s1, r_fs s1, r_gs s1) = (selector SEG_KDATA, selector SEG_KDATA, selector SEG_KCPU, selector SEG_KCPU) ∧
  (r_cs s1, r_ss s1, r_eflags s1) = (r_cs s, r_ss s, r_eflags s).
Proof.
  rewrite <- pushes_snoc. 
  assert (r_cs (pushes ws s) = r_cs s) by exact (f_equal r_cs (pushes_keep ws s)).
  assert (r_ss (pushes ws s) = r_ss s) by exact (f_equal r_ss (pushes_keep ws s)).
  assert (r_eflags (pushes ws s) = r_eflags s) by exact (f_equal r_eflags (pushes_keep ws s)).
  generalize dependent (pushes ws s). intros t Hc Hs Hf s1. split_and!; [reflexivity..| |by rewrite <- Hc, <- Hs, <- Hf].
  transitivity (u16 (2 ^ 16 * (r_eax t / 2 ^ 16) + u16 (Z.shiftl SEG_KDATA 3)), u16 (2 ^ 16 * (r_eax t / 2 ^ 16) + u16 (Z.shiftl SEG_KDATA 3)),
    u16 (2 ^ 16 * (r_eax (istep (Movw_ax (Z.shiftl SEG_KDATA 3)) t) / 2 ^ 16) + u16 (Z.shiftl SEG_KCPU 3)),
    u16 (2 ^ 16 * (r_eax (istep (Movw_ax (Z.shiftl SEG_KDATA 3)) t) / 2 ^ 16) + u16 (Z.shiftl SEG_KCPU 3))); [reflexivity|].
  by rewrite !movw_ax.
Qed.

Lemma exec_app c1 c2 s : exec_code (c1 ++ c2) s = exec_code c2 (exec_code c1 s).
Proof. apply foldl_app. Qed.

(** What the processor has pushed. *)
Definition hw_words (err : option Z) (s : cpu) : list Z :=
  [r_eflags s; r_cs s; r_eip s] ++ match err with Some e => [e] | None => [] end.

Lemma trap_in_user s sel off ints ss0 esp0 err : CPL s ≠ 0 →
  trap_in (sel, off, ints) ss0 esp0 err s =
  pushes ([r_ss s; r_esp s] ++ hw_words err s)
    (set_flow sel ss0 (if (ints : bool) then r_eflags s else Z.ldiff (r_eflags s) FL_IF) off (set_reg ESP esp0 s)).
Proof.
  intros Hc. unfold trap_in. apply Z.eqb_neq in Hc. rewrite Hc.
  set (fl := if ints then _ else _). set (b := set_reg ESP esp0 (set_flow (r_cs s) ss0 (r_eflags s) (r_eip s) s)).
  assert (∀ x, pushes x (set_flow sel ss0 fl off (set_reg ESP esp0 s)) = set_flow sel (r_ss (pushes x b)) fl off (pushes x b)) as ->.
  { intros x. by rewrite pushes_ss, pushes_flow. }
  unfold hw_words. destruct err; reflexivity.
Qed.

(** In the kernel: the stack is the one in use. *)
Lemma trap_in_kernel s sel off ints ss0 esp0 err : CPL s = 0 →
  trap_in (sel, off, ints) ss0 esp0 err s =
  pushes (hw_words err s)
    (set_flow sel (r_ss s) (if (ints : bool) then r_eflags s else Z.ldiff (r_eflags s) FL_IF) off s).
Proof.
  intros Hc. unfold trap_in. rewrite Hc, Z.eqb_refl. set (fl := if ints then _ else _).
  assert (∀ x, pushes x (set_flow sel (r_ss s) fl off s) = set_flow sel (r_ss (pushes x s)) fl off (pushes x s)) as ->.
  { intros x. by rewrite pushes_ss, pushes_flow. }
  unfold hw_words. destruct err; reflexivity.
Qed.

(** The entry of the vector makes the error code uniform. *)
Lemma vector_words n err ws s u : has_err n = bool_decide (is_Some err) →
  exec_code (vector n) (pushes (ws ++ hw_words err u) s) =
  pushes (ws ++ [r_eflags u; r_cs u; r_eip u; default 0 err; n]) s.
Proof.
  intros He. unfold vector, hw_words. rewrite He. destruct err as [e|].
  - rewrite bool_decide_true by eauto. cbn [negb app]. rewrite exec_pushi, <- app_assoc. reflexivity.
  - rewrite bool_decide_false by (intros [? ?]; done). cbn [negb app]. rewrite !exec_pushi, <- !app_assoc. reflexivity.
Qed.

(** All of alltraps, from any stack. *)
Lemma alltraps_words ws s : let ws' := ws ++ [r_ds s; r_es s; r_fs s; r_gs s] in
  exec_code alltraps (pushes ws s) = exec_code (drop 5 alltraps)
    (pushes (ws' ++ [r_eax s; r_ecx s; r_edx s; r_ebx s; r_esp (pushes ws' s); r_ebp s; r_esi s; r_edi s]) s).
Proof.
  cbv zeta. change alltraps with (Pushs DS :: Pushs ES :: Pushs FS :: Pushs GS :: Pushal :: drop 5 alltraps) at 1.
  rewrite !exec_pushs, exec_pushal, <- !app_assoc. reflexivity.
Qed.

(** From user mode: the stack of the task segment is used. *)
Lemma trap_entry s n err sel off ints ss0 esp0 : CPL s ≠ 0 → 80 ≤ esp0 < 2 ^ 32 → has_err n = bool_decide (is_Some err) →
  at_trap s esp0 n (default 0 err) sel (if (ints : bool) then r_eflags s else Z.ldiff (r_eflags s) FL_IF) ss0
    (exec_code (vector n ++ alltraps) (trap_in (sel, off, ints) ss0 esp0 err s)).
Proof.
  intros Hc Ht He. rewrite exec_app, trap_in_user, vector_words, alltraps_words by done.
  set (s0 := set_flow _ _ _ _ _). cbn [app].
  rewrite pushes_esp by (cbn; lia). cbn [length].
  destruct (alltraps_segments [r_ss s; r_esp s; r_eflags s; r_cs s; r_eip s; default 0 err; n; r_ds s; r_es s; r_fs s; r_gs s;
    r_eax s; r_ecx s; r_edx s; r_ebx s; esp0 - 44; r_ebp s; r_esi s; r_edi s] s0) as (Hm & Hsp & Hseg & Hflow).
  rewrite pushes_esp in Hm, Hsp by (cbn; lia). rewrite pushes_ram in Hm by (cbn; lia). rewrite pushes_esp in Hsp by (cbn; lia).
  unfold at_trap, frame_words. rewrite (u32_small (esp0 - 44)) by lia.
  split_and!; [exact Hm|exact Hsp|exact Hseg|exact Hflow].
Qed.

(** ** Back from the kernel *)

Lemma u32_step a k k' : k' = k + 4 → 0 ≤ a → 0 ≤ k → a + k + 4 < 2 ^ 32 → u32 (a + k + 4) = a + k'.
Proof. intros. rewrite u32_small; lia. Qed.

(** The registers a frame stands for; [esp] and [ss] are where [iret] leaves them. *)
Definition of_frame (tf : trapframe) (esp ss : Z) (m : mem) : cpu :=
  Cpu (tf_eax tf) (tf_ecx tf) (tf_edx tf) (tf_ebx tf) esp (tf_ebp tf) (tf_esi tf) (tf_edi tf)
    (tf_ds tf) (tf_es tf) (tf_fs tf) (tf_gs tf) (tf_cs tf) ss (tf_eflags tf) (tf_eip tf) m.

Lemma popal_run s : 0 ≤ r_esp s → r_esp s + 32 < 2 ^ 32 →
  let w k := mread32 (ram s) (r_esp s + 4 * k) in
  istep Popal s = Cpu (w 7) (w 6) (w 5) (w 4) (r_esp s + 32) (w 2) (w 1) (w 0)
    (r_ds s) (r_es s) (r_fs s) (r_gs s) (r_cs s) (r_ss s) (r_eflags s) (r_eip s) (ram s).
Proof.
  destruct s as [eax ecx edx ebx a ebp esi edi ds es fs gs cs ss fl ip m]. cbn [r_esp]. intros H0 H1.
  cbn -[Z.mul Z.add u32 mread32]. unfold top, drop4. cbn -[Z.mul Z.add u32 mread32].
  rewrite (u32_small (a + 4)) by lia. rewrite (u32_step a 4 8), (u32_step a 8 12), (u32_step a 12 16), (u32_step a 16 20),
    (u32_step a 20 24), (u32_step a 24 28), (u32_step a 28 32) by lia.
  rewrite Z.mul_0_r, Z.add_0_r. reflexivity.
Qed.

(** [trapret] loads the registers from the frame on the stack. *)
Lemma trapret_run s : 0 ≤ r_esp s → r_esp s + 76 < 2 ^ 32 →
  let tf := read_tf (ram s) (r_esp s) in
  exec_code trapret s =
    if Z.land (tf_cs tf) 3 =? 0 then of_frame tf (r_esp s + 68) (r_ss s) (ram s)
    else of_frame tf (tf_esp tf) (tf_ss tf) (ram s).
Proof.
  intros H0 H1 tf. unfold exec_code, trapret. cbn [foldl]. rewrite popal_run by lia.
  destruct s as [eax ecx edx ebx a ebp esi edi ds es fs gs cs ss fl ip m]. cbn [r_esp ram r_ds r_es r_fs r_gs r_cs r_ss r_eflags r_eip] in *.
  cbn [istep]. unfold iret, top, drop4. cbn [set_reg set_sreg set_sregs get_reg set_flow r_esp ram r_eax r_ecx r_edx r_ebx r_ebp
    r_esi r_edi r_ds r_es r_fs r_gs r_cs r_ss r_eflags r_eip].
  rewrite (u32_step a 32 36), (u32_step a 36 40), (u32_step a 40 44), (u32_step a 44 48) by lia.
  rewrite (u32_small (a + 48 + 8)) by lia. replace (a + 48 + 8) with (a + 56) by lia.
  rewrite (u32_step a 56 60), (u32_step a 60 64), (u32_step a 64 68), (u32_step a 68 72) by lia.
  unfold of_frame, tf, read_tf. cbn [tf_cs]. reflexivity.
Qed.

Lemma of_frame_same s esp0 n err m : of_frame (frame_of s esp0 n err) (r_esp s) (r_ss s) m = set_ram m s.
Proof. by destruct s. Qed.

Lemma of_frame_eax r s esp0 n err m :
  of_frame (set_tf_eax r (frame_of s esp0 n err)) (r_esp s) (r_ss s) m = set_reg EAX r (set_ram m s).
Proof. by destruct s. Qed.

Lemma at_trap_frame s esp0 n err sel fl ss0 s1 : at_trap s esp0 n err sel fl ss0 s1 →
  wf s → word n → word err → 80 ≤ esp0 < 2 ^ 32 →
  read_tf (ram s1) (esp0 - 76) = frame_of s esp0 n err ∧ mread32 (ram s1) (r_esp s1) = esp0 - 76 ∧
  ∀ x, x < esp0 - 80 ∨ esp0 ≤ x → ram s1 x = ram s x.
Proof.
  intros (Hm & Hsp & _) Hwf Hn He Ht. rewrite Hm, Hsp. split_and!.
  - rewrite <- (frame_read s (ram s) esp0 n err) by (done || lia).
    assert (∀ k, 0 ≤ k → mread32 (stack_mem (ram s) esp0 (frame_words s esp0 n err ++ [esp0 - 76])) (esp0 - 76 + 4 * k) =
      mread32 (stack_mem (ram s) esp0 (frame_words s esp0 n err)) (esp0 - 76 + 4 * k)) as Heq.
    { intros k Hk. apply mread32_ext. intros x Hx. unfold inrange in Hx. apply andb_true_iff in Hx as [Hx%Z.leb_le _].
      change (stack_mem (stack_mem (ram s) esp0 (frame_words s esp0 n err)) (esp0 - 4 - 4 - 4 - 4 - 4 - 4 - 4 - 4 - 4 - 4 - 4 - 4 - 4 - 4 - 4 - 4 - 4 - 4 - 4) [esp0 - 76] x = stack_mem (ram s) esp0 (frame_words s esp0 n err) x).
      apply stack_other. lia. }
    unfold read_tf. rewrite !Heq by lia. done.
  - replace (esp0 - 80) with (esp0 - 4 * Z.of_nat 20) by lia. rewrite (stack_read _ _ _ 19 (esp0 - 76)) by done.
    apply u32_small. lia.
  - intros x Hx. apply stack_other. cbn [length app frame_words]. lia.
Qed.

Lemma alltraps_end_eq s : exec_code alltraps_end s = exec_code trapret (set_reg ESP (u32 (r_esp s + 4)) s).
Proof.
  change alltraps_end with ([Addi 4 ESP] ++ trapret). rewrite exec_app. f_equal.
Qed.

(** When [trap] has returned. *)
Lemma trap_return t esp0 : r_esp t = esp0 - 80 → 80 ≤ esp0 < 2 ^ 32 →
  let tf := read_tf (ram t) (esp0 - 76) in Z.land (tf_cs tf) 3 ≠ 0 →
  exec_code alltraps_end t = of_frame tf (tf_esp tf) (tf_ss tf) (ram t).
Proof.
  intros Hsp Ht tf Hcs. rewrite alltraps_end_eq, Hsp, u32_small by lia. replace (esp0 - 80 + 4) with (esp0 - 76) by lia.
  rewrite trapret_run by (cbn; lia). cbn [r_esp ram set_reg]. fold tf. apply Z.eqb_neq in Hcs. by rewrite Hcs.
Qed.

(** A trap of a user program.  [trap] finds at its argument the frame with the
    program's registers; when it returns, the registers are loaded from what is then in
    the frame.  So a handler that leaves the frame alone is not noticed by the program,
    and one that stores a result in [eax] returns it and nothing else. *)
Theorem trap_roundtrip s n err sel off ints ss0 esp0 (trap : cpu → cpu) :
  let s1 := exec_code (vector n ++ alltraps) (trap_in (sel, off, ints) ss0 esp0 err s) in
  let tf := frame_of s esp0 n (default 0 err) in
  let tf' := read_tf (ram (trap s1)) (esp0 - 76) in
  wf s → CPL s ≠ 0 → 80 ≤ esp0 < 2 ^ 32 → word n → word (default 0 err) → has_err n = bool_decide (is_Some err) →
  r_esp (trap s1) = r_esp s1 → Z.land (tf_cs tf') 3 ≠ 0 →
  (mread32 (ram s1) (r_esp s1) = esp0 - 76 ∧ read_tf (ram s1) (esp0 - 76) = tf ∧
   ∀ x, x < esp0 - 80 ∨ esp0 ≤ x → ram s1 x = ram s x) ∧
  exec_code alltraps_end (trap s1) = of_frame tf' (tf_esp tf') (tf_ss tf') (ram (trap s1)) ∧
  (tf' = tf → exec_code alltraps_end (trap s1) = set_ram (ram (trap s1)) s) ∧
  (∀ r, tf' = set_tf_eax r tf → exec_code alltraps_end (trap s1) = set_reg EAX r (set_ram (ram (trap s1)) s)).
Proof.
  intros s1 tf tf' Hwf Hc Ht Hn He Herr Hsp Hcs.
  pose proof (trap_entry s n err sel off ints ss0 esp0 Hc Ht Herr : at_trap _ _ _ _ _ _ _ s1) as Hat. clearbody s1.
  destruct (at_trap_frame _ _ _ _ _ _ _ _ Hat Hwf Hn He Ht) as (Hf & Harg & Hm).
  destruct Hat as (_ & Hesp & _).
  pose proof (trap_return (trap s1) esp0 ltac:(by rewrite Hsp) Ht Hcs) as Hret. cbv zeta in Hret. fold tf' in Hret.
  split_and!; [done|done|done|done| |].
  - intros E. rewrite Hret, E. apply of_frame_same.
  - intros r E. rewrite Hret, E. apply of_frame_eax.
Qed.
