(* ===== verification/AsmProps.v ===== *)
(** * Properties of the assembly: switching between kernel threads, the first run of a
    process, system calls, interrupts of the kernel *)
From S2P Require Import Prelude Spinlock Str Ptable Kalloc ProcLife Trap Seg Asm.

(** ** swtch.S *)

(** Memory after the registers and the stack pointer have been saved. *)
Definition saved (s : cpu) (old : Z) : mem :=
  mwrite32 (stack_mem (ram s) (r_esp s) [r_ebp s; r_ebx s; r_esi s; r_edi s]) old (r_esp s - 16).

(** The call: the return address on the stack, and the two arguments. *)
Record calls_swtch (s : cpu) (ret old new : Z) : Prop := {
  sw_ret : mread32 (ram s) (r_esp s) = ret;
  sw_old : mread32 (ram s) (r_esp s + 4) = old;
  sw_new : mread32 (ram s) (r_esp s + 8) = new;
  sw_low : 16 ≤ r_esp s; sw_high : r_esp s + 12 < 2 ^ 32;
  sw_new_low : 0 ≤ new; sw_new_high : new + 20 < 2 ^ 32
}.

Lemma swtch_run s ret old new : calls_swtch s ret old new →
  let c := read_ctx (saved s old) new in
  exec_code swtch_code s =
    Cpu old (r_ecx s) new (c_ebx c) (new + 20) (c_ebp c) (c_esi c) (c_edi c)
      (r_ds s) (r_es s) (r_fs s) (r_gs s) (r_cs s) (r_ss s) (r_eflags s) (c_eip c) (saved s old).
Proof.
  intros [Hret Hold Hnew Hlow Hhigh Hn0 Hn1] c.
  change swtch_code with ([Load 4 ESP EAX; Load 8 ESP EDX] ++ [Push EBP; Push EBX; Push ESI; Push EDI] ++
    [Store ESP EAX; Mov EDX ESP; Pop EDI; Pop ESI; Pop EBX; Pop EBP; Ret]).
  rewrite !exec_app. set (s1 := exec_code [Load 4 ESP EAX; Load 8 ESP EDX] s).
  assert (s1 = set_reg EDX new (set_reg EAX old s)) as Hs1.
  { unfold s1. cbn -[u32 mread32]. rewrite !u32_small by lia. by rewrite Hold, Hnew. }
  clearbody s1. subst s1. set (s1 := set_reg EDX new (set_reg EAX old s)).
  assert (exec_code [Push EBP; Push EBX; Push ESI; Push EDI] s1 =
    pushes [get_reg EBP s1; get_reg EBX s1; get_reg ESI s1; get_reg EDI s1] s1) as ->.
  { change s1 with (pushes [] s1) at 1. rewrite !exec_push by done. reflexivity. }
  rewrite pushes_eq by (cbn; lia). subst s1. destruct s as [eax ecx edx ebx a ebp esi edi ds es fs gs cs ss fl ip m].
  unfold c, saved, read_ctx. cbn [r_esp ram r_eax r_ecx r_edx r_ebx r_ebp r_esi r_edi] in *.
  unfold exec_code. cbn [foldl istep]. unfold top, drop4.
  cbn [set_reg set_ram get_reg set_eip set_flow r_esp ram r_eax r_ecx r_edx r_ebx r_ebp r_esi r_edi r_ds r_es r_fs r_gs
    r_cs r_ss r_eflags r_eip length c_edi c_esi c_ebx c_ebp c_eip].
  change (4 * Z.of_nat 4) with 16. rewrite (u32_small (new + 4)) by lia.
  rewrite (u32_step new 4 8), (u32_step new 8 12), (u32_step new 12 16), (u32_step new 16 20) by lia.
  rewrite Z.mul_0_r, Z.add_0_r. reflexivity.
Qed.

(** What is saved, when the pointer to it is not on the part of the stack that is
    written. *)
Lemma saved_context s ret old new : calls_swtch s ret old new → (∀ r, word (get_reg r s)) →
  old + 4 ≤ r_esp s - 16 ∨ r_esp s + 4 ≤ old →
  read_ctx (saved s old) (r_esp s - 16) = Context (r_edi s) (r_esi s) (r_ebx s) (r_ebp s) ret ∧
  mread32 (saved s old) old = r_esp s - 16.
Proof.
  intros [Hret Hold Hnew Hlow Hhigh Hn0 Hn1] Hwf Hd. unfold saved, read_ctx. set (a := r_esp s) in *.
  assert (∀ k i w, [r_ebp s; r_ebx s; r_esi s; r_edi s] !! i = Some w → word w → k = 3 - Z.of_nat i →
    mread32 (mwrite32 (stack_mem (ram s) a [r_ebp s; r_ebx s; r_esi s; r_edi s]) old (a - 16)) (a - 16 + 4 * k) = w) as H.
  { intros k i w Hi Hw ->. rewrite mread32_other by (apply lookup_lt_Some in Hi; cbn in Hi; lia).
    replace (a - 16 + 4 * (3 - Z.of_nat i)) with (a - 4 * Z.of_nat (S i)) by lia.
    rewrite (stack_read _ _ _ _ _ Hi). by apply u32_small. }
  split.
  - rewrite (H 0 3%nat _ eq_refl (Hwf EDI) eq_refl), (H 1 2%nat _ eq_refl (Hwf ESI) eq_refl),
      (H 2 1%nat _ eq_refl (Hwf EBX) eq_refl), (H 3 0%nat _ eq_refl (Hwf EBP) eq_refl).
    f_equal. rewrite mread32_other by lia. rewrite <- Hret. replace (a - 16 + 4 * 4) with a by lia.
    apply mread32_ext. intros x Hx. apply stack_other. left. unfold inrange in Hx.
    by apply andb_true_iff in Hx as [?%Z.leb_le _].
  - rewrite mread32_mwrite32. apply u32_small. lia.
Qed.

Lemma saved_other s ret old new x : calls_swtch s ret old new →
  x < r_esp s - 16 ∨ r_esp s ≤ x → x < old ∨ old + 4 ≤ x → saved s old x = ram s x.
Proof.
  intros _ Hx Ho. unfold saved. rewrite mwrite32_other.
  - apply stack_other. cbn [length]. lia.
  - unfold inrange. destruct (Z.leb_spec old x), (Z.ltb_spec x (old + 4)); try done. lia.
Qed.

(** Memory that a call of [swtch] from [s] leaves alone. *)
Definition apart (s : cpu) (old a n : Z) : Prop :=
  (r_esp s ≤ a ∨ a + n ≤ r_esp s - 16) ∧ (old + 4 ≤ a ∨ a + n ≤ old).

Lemma saved_read s ret old new a n k : calls_swtch s ret old new → apart s old a n → 0 ≤ k → 4 * k + 4 ≤ n →
  mread32 (saved s old) (a + 4 * k) = mread32 (ram s) (a + 4 * k).
Proof.
  intros Hs [H1 H2] Hk Hn. apply mread32_ext. intros x Hx. apply (saved_other s ret old new); [done| |].
  all: unfold inrange in Hx; apply andb_true_iff in Hx as [?%Z.leb_le ?%Z.ltb_lt]; lia.
Qed.

Lemma saved_ctx s ret old new a : calls_swtch s ret old new → apart s old a 20 →
  read_ctx (saved s old) a = read_ctx (ram s) a.
Proof. intros Hs Ha. unfold read_ctx. by rewrite !(saved_read s ret old new a 20) by (done || lia). Qed.

(** C8: Switching to another kernel thread and back.  The first call saves the thread's
    registers on its stack and its stack pointer where [old] points, and continues as
    the context [new] says; whoever later switches to the saved pointer makes the first
    call return to its caller with the registers a C function may rely on. *)
Theorem swtch_there_and_back s t ret old new ret' old' :
  calls_swtch s ret old new → (∀ r, word (get_reg r s)) → old + 4 ≤ r_esp s - 16 ∨ r_esp s + 4 ≤ old →
  apart s old new 20 →
  let s1 := exec_code swtch_code s in let t1 := exec_code swtch_code t in
  calls_swtch t ret' old' (mread32 (ram s1) old) → apart t old' (r_esp s - 16) 20 →
  read_ctx (ram t) (r_esp s - 16) = read_ctx (ram s1) (r_esp s - 16) →
  Context (r_edi s1) (r_esi s1) (r_ebx s1) (r_ebp s1) (r_eip s1) = read_ctx (ram s) new ∧ r_esp s1 = new + 20 ∧
  Context (r_edi t1) (r_esi t1) (r_ebx t1) (r_ebp t1) (r_eip t1) = Context (r_edi s) (r_esi s) (r_ebx s) (r_ebp s) ret ∧
  r_esp t1 = r_esp s + 4.
Proof.
  intros Hs Hw Ho Ha s1 t1. pose proof (saved_context s ret old new Hs Hw Ho) as [Hctx Hold].
  pose proof (swtch_run s ret old new Hs) as Hs1. cbv zeta in Hs1. fold s1 in Hs1. clearbody s1. subst s1.
  cbn [ram r_edi r_esi r_ebx r_ebp r_eip r_esp]. rewrite Hold, Hctx. intros Ht Hat Hkeep.
  pose proof (swtch_run t _ _ _ Ht) as Ht1. cbv zeta in Ht1. fold t1 in Ht1. clearbody t1. subst t1.
  cbn [ram r_edi r_esi r_ebx r_ebp r_eip r_esp].
  rewrite (saved_ctx s ret old new new Hs Ha), (saved_ctx t ret' old' _ _ Ht Hat), Hkeep.
  split_and!; [by destruct (read_ctx (ram s) new)|done|done|lia].
Qed.

(** ** The first run of a process *)

(** The kernel stack [allocproc] lays out: the context, the return address of the
    function it starts in, and the trap frame. *)
Record first_stack (m : mem) (q : proc) (trapret_addr : Z) : Prop := {
  fs_ctx : read_ctx m (p_context q) = p_ctx q;
  fs_ret : mread32 m (p_context q + CONTEXT) = trapret_addr;
  fs_tf : p_tf q = p_context q + CONTEXT + 4;
  fs_frame : read_tf m (p_tf q) = p_frame q;
  fs_low : 0 ≤ p_context q; fs_high : p_context q + 100 < 2 ^ 32
}.

Lemma read_tf_ext m m' a : (∀ k, 0 ≤ k ≤ 18 → mread32 m' (a + 4 * k) = mread32 m (a + 4 * k)) → read_tf m' a = read_tf m a.
Proof. intros H. unfold read_tf. by rewrite !H by lia. Qed.

(** C18: The scheduler switches to a new process: it starts in the function its context
    names, and when that returns, leaving the frame alone, [trapret] enters the
    program with the registers of the process's trap frame. *)
Theorem first_run s ret old q trapret_addr (body : cpu → cpu) :
  calls_swtch s ret old (p_context q) → apart s old (p_context q) 100 → first_stack (ram s) q trapret_addr →
  let s1 := exec_code swtch_code s in
  r_esp (body s1) = r_esp s1 → mread32 (ram (body s1)) (r_esp s1) = mread32 (ram s1) (r_esp s1) →
  read_tf (ram (body s1)) (p_tf q) = read_tf (ram s1) (p_tf q) → Z.land (tf_cs (p_frame q)) 3 ≠ 0 →
  r_eip s1 = c_eip (p_ctx q) ∧ r_eip (istep Ret (body s1)) = trapret_addr ∧
  exec_code trapret (istep Ret (body s1)) =
    of_frame (p_frame q) (tf_esp (p_frame q)) (tf_ss (p_frame q)) (ram (body s1)).
Proof.
  intros Hs Ha [Hctx Hret Htf Hframe H0 H1] s1. unfold CONTEXT in *.
  assert (∀ a n, p_context q ≤ a → 0 ≤ n → a + n ≤ p_context q + 100 → apart s old a n) as Hsub by (destruct Ha; unfold apart; lia).
  pose proof (swtch_run s ret old _ Hs) as Hs1. cbv zeta in Hs1. fold s1 in Hs1. clearbody s1. subst s1.
  cbn [ram r_esp r_eip]. rewrite (saved_ctx s ret old (p_context q) _ Hs) by (apply Hsub; lia).
  replace (mread32 (saved s old) (p_context q + 20)) with trapret_addr.
  2: { rewrite <- Hret. symmetry. apply (saved_read s ret old (p_context q) (p_context q) 100 5 Hs Ha); lia. }
  replace (read_tf (saved s old) (p_tf q)) with (p_frame q).
  2: { rewrite <- Hframe. symmetry. apply read_tf_ext. intros k Hk.
       apply (saved_read s ret old (p_context q) (p_tf q) 76 k Hs); [apply Hsub; lia|lia..]. }
  set (t := body _). clearbody t. intros Hesp Hra Hfr Hcs. rewrite Hctx. split; [done|].
  cbn [istep]. unfold top, drop4. rewrite Hesp, Hra. split; [done|].
  rewrite trapret_run by (cbn [r_esp set_eip set_flow set_reg]; rewrite u32_small; lia).
  cbn [r_esp ram set_eip set_flow set_reg]. rewrite u32_small by lia.
  replace (p_context q + 20 + 4) with (p_tf q) by lia. rewrite Hfr. apply Z.eqb_neq in Hcs. by rewrite Hcs.
Qed.

(** ** System calls of a user program *)

(** A C call of a stub: the arguments from the last to the first, and the return
    address. *)
Definition user_call (args : list Z) (ret : Z) (s : cpu) : cpu := pushes (reverse args ++ [ret]) s.

Lemma length_call (args : list Z) (ret : Z) : length (reverse args ++ [ret]) = S (length args).
Proof. rewrite length_app, length_reverse. cbn. lia. Qed.

Lemma user_call_eq args ret s : 4 * Z.of_nat (S (length args)) ≤ r_esp s < 2 ^ 32 →
  user_call args ret s = set_reg ESP (r_esp s - 4 * Z.of_nat (S (length args)))
    (set_ram (stack_mem (ram s) (r_esp s) (reverse args ++ [ret])) s).
Proof. intros H. unfold user_call. by rewrite pushes_eq; rewrite length_call. Qed.

Lemma stub_wf s num m sp : wf s → word sp → word num → wf (set_reg EAX num (set_reg ESP sp (set_ram m s))).
Proof. intros [Hr Hs Hcs Hss Hf Hi] Hsp Hn. split; [|by intros []; apply (Hs DS) || apply (Hs ES) || apply (Hs FS) || apply (Hs GS)|done..].
  intros []; try done; [exact (Hr ECX)|exact (Hr EDX)|exact (Hr EBX)|exact (Hr EBP)|exact (Hr ESI)|exact (Hr EDI)].
Qed.

(** The argument [i] is where [argint] looks for it: behind the return address. *)
Lemma call_args m sp args ret i a : args !! i = Some a → word a →
  mread32 (stack_mem m sp (reverse args ++ [ret])) (sp - 4 * Z.of_nat (S (length args)) + 4 + 4 * Z.of_nat i) = a.
Proof.
  intros Hi Ha. pose proof (lookup_lt_Some _ _ _ Hi) as Hlt.
  replace (sp - 4 * Z.of_nat (S (length args)) + 4 + 4 * Z.of_nat i)
    with (sp - 4 * Z.of_nat (S (length args - 1 - i))) by lia.
  rewrite (stack_read _ _ _ _ a); [by apply u32_small|]. rewrite lookup_app_l by (rewrite length_reverse; lia).
  rewrite reverse_lookup by lia. rewrite <- Hi. f_equal. lia.
Qed.

Lemma stub_state num args ret s : wf s → CPL s ≠ 0 → word num → 4 * Z.of_nat (S (length args)) ≤ r_esp s →
  let s1 := exec_code (SYSCALL num) (user_call args ret s) in
  s1 = set_reg EAX num (set_reg ESP (r_esp s - 4 * Z.of_nat (S (length args)))
         (set_ram (stack_mem (ram s) (r_esp s) (reverse args ++ [ret])) s)) ∧ wf s1 ∧ CPL s1 ≠ 0.
Proof.
  intros Hwf Hc Hn Hroom s1. pose proof (wf_regs _ Hwf ESP) as Hesp. cbn in Hesp. unfold word in Hesp.
  assert (s1 = set_reg EAX num (set_reg ESP (r_esp s - 4 * Z.of_nat (S (length args)))
         (set_ram (stack_mem (ram s) (r_esp s) (reverse args ++ [ret])) s))) as Hs1.
  { unfold s1. rewrite user_call_eq by lia. cbn -[u32 stack_mem]. by rewrite (u32_small num) by done. }
  clearbody s1. subst s1. split_and!; [done| |exact Hc]. apply stub_wf; unfold word; (done || lia).
Qed.

(** The user's stack is not touched by the entry into the kernel. *)
Lemma stub_stack s s1 k esp0 args ret : 
  ram s1 = stack_mem (ram s) (r_esp s) (reverse args ++ [ret]) → r_esp s1 = r_esp s - 4 * Z.of_nat (S (length args)) →
  (∀ x, x < esp0 - 80 ∨ esp0 ≤ x → ram k x = ram s1 x) → Forall word args → word ret →
  4 * Z.of_nat (S (length args)) ≤ r_esp s → r_esp s ≤ esp0 - 80 → esp0 < 2 ^ 32 →
  mread32 (ram k) (r_esp s1) = ret ∧
  ∀ i a, args !! i = Some a → mread32 (ram k) (u32 (r_esp s1 + 4 + 4 * Z.of_nat i)) = a.
Proof.
  intros Hm1 Hsp1 Hm Hargs Hret Hroom Hlow Hhigh.
  assert (∀ a, r_esp s1 ≤ a → a + 4 ≤ r_esp s → mread32 (ram k) a = mread32 (ram s1) a) as Hread.
  { intros a Ha Ha'. apply mread32_ext. intros x Hx. unfold inrange in Hx. apply andb_true_iff in Hx as [?%Z.leb_le ?%Z.ltb_lt].
    apply Hm. lia. }
  split.
  - rewrite Hread by lia. rewrite Hsp1, Hm1. rewrite (stack_read _ _ _ (length args) ret); [by apply u32_small|].
    rewrite lookup_app_r by (rewrite length_reverse; lia). by rewrite length_reverse, Nat.sub_diag.
  - intros i a Hi. pose proof (lookup_lt_Some _ _ _ Hi) as Hlt. rewrite u32_small by lia.
    rewrite Hread by lia. rewrite Hsp1, Hm1. apply call_args; [done|]. by eapply Forall_lookup_1.
Qed.

(** The [ret] of the stub. *)
Lemma stub_return s sp m0 num r m : let u := istep Ret (set_reg EAX r (set_ram m (set_reg EAX num (set_reg ESP sp (set_ram m0 s))))) in
  r_eip u = mread32 m sp ∧ r_eax u = r ∧ r_esp u = u32 (sp + 4) ∧
  (∀ q, q ≠ EAX → q ≠ ESP → get_reg q u = get_reg q s) ∧ (∀ q, get_sreg q u = get_sreg q s) ∧ r_cs u = r_cs s.
Proof.
  destruct s as [eax ecx edx ebx a ebp esi edi ds es fs gs cs ss fl ip m1].
  split_and!; [reflexivity|reflexivity|reflexivity| |by intros []|reflexivity].
  intros [] H1 H2; first [reflexivity | by destruct H1 | by destruct H2].
Qed.

(** C7: A system call: the kernel finds the number in [eax] of the frame and the arguments
    where [argint] reads them; when it has stored its result in the frame's [eax], the
    stub returns the result to its caller, and all other registers are as before. *)
Theorem syscall_stub s num args ret sel off ints ss0 esp0 (trap : cpu → cpu) r :
  let s1 := exec_code (SYSCALL num) (user_call args ret s) in
  let k := exec_code (vector T_SYSCALL ++ alltraps) (trap_in (sel, off, ints) ss0 esp0 None s1) in
  let tf := read_tf (ram k) (esp0 - 76) in
  let u := istep Ret (exec_code alltraps_end (trap k)) in
  wf s → CPL s ≠ 0 → word num → word ret → Forall word args →
  4 * Z.of_nat (S (length args)) ≤ r_esp s → r_esp s ≤ esp0 - 80 → esp0 < 2 ^ 32 →
  r_esp (trap k) = r_esp k → read_tf (ram (trap k)) (esp0 - 76) = set_tf_eax r tf →
  mread32 (ram (trap k)) (tf_esp tf) = mread32 (ram k) (tf_esp tf) →
  (tf_eax tf = num ∧ tf_trapno tf = T_SYSCALL ∧
   ∀ i a, args !! i = Some a → mread32 (ram k) (u32 (tf_esp tf + 4 + 4 * Z.of_nat i)) = a) ∧
  r_eip u = ret ∧ r_eax u = r ∧ r_esp u = r_esp s - 4 * Z.of_nat (length args) ∧
  (∀ q, q ≠ EAX → q ≠ ESP → get_reg q u = get_reg q s) ∧ (∀ q, get_sreg q u = get_sreg q s) ∧ r_cs u = r_cs s.
Proof.
  intros s1 k tf u Hwf Hc Hnum Hret Hargs Hroom Hlow Hhigh Hksp Hkf Hkr.
  destruct (stub_state num args ret s Hwf Hc Hnum Hroom) as (Hs1 & Hwf1 & Hc1). fold s1 in Hs1, Hwf1, Hc1.
  assert (80 ≤ esp0 < 2 ^ 32) as Ht by lia.
  pose proof (trap_entry s1 T_SYSCALL None sel off ints ss0 esp0 Hc1 Ht eq_refl : at_trap _ _ _ _ _ _ _ k) as Hat.
  clearbody k. destruct (at_trap_frame _ _ _ _ _ _ _ _ Hat Hwf1) as (Hf & _ & Hm); [done|done|done|].
  fold tf in Hf. destruct Hat as (_ & Hesp & _). rewrite Hesp in Hksp.
  pose proof (trap_return (trap k) esp0 Hksp Ht) as Hu. cbv zeta in Hu. rewrite Hkf, Hf in Hu.
  specialize (Hu Hc1). unfold u. rewrite Hu. clear u Hu Hkf Hksp Hesp. rewrite Hf in *. clear tf Hf.
  destruct (stub_stack s s1 k esp0 args ret) as [Hr1 Ha]; [by rewrite Hs1|by rewrite Hs1|done..|].
  clearbody s1. split.
  - split_and!; [by rewrite Hs1|done|exact Ha].
  - cbn [tf_esp frame_of] in Hkr. rewrite Hr1 in Hkr.
    change (of_frame (set_tf_eax r (frame_of s1 esp0 T_SYSCALL 0)) _ _ (ram (trap k))) with
      (of_frame (set_tf_eax r (frame_of s1 esp0 T_SYSCALL 0)) (r_esp s1) (r_ss s1) (ram (trap k))).
    rewrite of_frame_eax. pose proof (wf_regs _ Hwf ESP) as Hesp. cbn in Hesp. unfold word in Hesp.
    rewrite Hs1 in *. edestruct stub_return as (H1 & H2 & H3 & H4 & H5 & H6).
    split_and!; [rewrite H1; exact Hkr|exact H2|rewrite H3, u32_small by lia; lia|exact H4|exact H5|exact H6].
Qed.

(** ** Interrupts while the kernel runs *)

(** The words of the frame: there is no change of stack, so no [ss] and [esp]. *)
Definition kernel_words (s : cpu) (n err : Z) : list Z := drop 2 (frame_words s (r_esp s + 8) n err).

Lemma kernel_entry s n err sel off ints ss0 esp0 : CPL s = 0 → 72 ≤ r_esp s < 2 ^ 32 → has_err n = bool_decide (is_Some err) →
  let s1 := exec_code (vector n ++ alltraps) (trap_in (sel, off, ints) ss0 esp0 err s) in
  ram s1 = stack_mem (ram s) (r_esp s) (kernel_words s n (default 0 err) ++ [r_esp s - 68]) ∧ r_esp s1 = r_esp s - 72 ∧
  r_ss s1 = r_ss s.
Proof.
  intros Hc Ht He s1. unfold s1. clear s1. rewrite exec_app, trap_in_kernel by done.
  set (s0 := set_flow _ _ _ _ _). rewrite <- (app_nil_l (hw_words err s)), vector_words, alltraps_words by done.
  cbn [app]. rewrite pushes_esp by (cbn; lia). cbn [length].
  destruct (alltraps_segments [r_eflags s; r_cs s; r_eip s; default 0 err; n; r_ds s; r_es s; r_fs s; r_gs s;
    r_eax s; r_ecx s; r_edx s; r_ebx s; r_esp s - 36; r_ebp s; r_esi s; r_edi s] s0) as (Hm & Hsp & _ & Hflow).
  rewrite pushes_esp in Hm, Hsp by (cbn; lia). rewrite pushes_ram in Hm by (cbn; lia). rewrite pushes_esp in Hsp by (cbn; lia).
  unfold kernel_words, frame_words. rewrite (u32_small (r_esp s + 8 - 44)) by lia.
  replace (r_esp s + 8 - 44) with (r_esp s - 36) by lia.
  split_and!; [exact Hm|exact Hsp|exact (f_equal (λ p, p.1.2) Hflow)].
Qed.

Lemma kernel_frame_read s m n err : wf s → word n → word err → 72 ≤ r_esp s → r_esp s + 8 < 2 ^ 32 →
  ∃ e x, read_tf (stack_mem m (r_esp s) (kernel_words s n err ++ [r_esp s - 68])) (r_esp s - 68) =
    set_tf_esp e (set_tf_ss x (frame_of s (r_esp s + 8) n err)).
Proof.
  intros [Hr Hs Hcs Hss Hf Hi] Hn He Ht Ht2. unfold read_tf. set (W := kernel_words s n err ++ _).
  assert (∀ k i w, W !! i = Some w → k = 16 - Z.of_nat i → mread32 (stack_mem m (r_esp s) W) (r_esp s - 68 + 4 * k) = u32 w) as H.
  { intros k i w Hw ->. replace (r_esp s - 68 + 4 * (16 - Z.of_nat i)) with (r_esp s - 4 * Z.of_nat (S i)) by lia.
    by apply stack_read. }
  rewrite (H 0 16%nat _ eq_refl), (H 1 15%nat _ eq_refl), (H 2 14%nat _ eq_refl), (H 3 13%nat _ eq_refl),
    (H 4 12%nat _ eq_refl), (H 5 11%nat _ eq_refl), (H 6 10%nat _ eq_refl), (H 7 9%nat _ eq_refl),
    (H 8 8%nat _ eq_refl), (H 9 7%nat _ eq_refl), (H 10 6%nat _ eq_refl), (H 11 5%nat _ eq_refl),
    (H 12 4%nat _ eq_refl), (H 13 3%nat _ eq_refl), (H 14 2%nat _ eq_refl), (H 15 1%nat _ eq_refl), (H 16 0%nat _ eq_refl) by done.
  eexists _, _. unfold frame_of, set_tf_esp, set_tf_ss.
  pose proof (Hs DS); pose proof (Hs ES); pose proof (Hs FS); pose proof (Hs GS). rewrite !u16_half by done.
  pose proof (Hr EAX); pose proof (Hr ECX); pose proof (Hr EDX); pose proof (Hr EBX);
    pose proof (Hr ESP); pose proof (Hr EBP); pose proof (Hr ESI); pose proof (Hr EDI).
  unfold word in *. cbn in *. rewrite (u32_small (r_esp s + 8 - 44)) by lia. f_equal; apply u32_small; lia.
Qed.

(** C19: An interrupt in the middle of the kernel is not noticed by the code it
    interrupts: when [trap] leaves the frame alone, every register comes back. *)
Theorem kernel_trap_transparent s n err sel off ints ss0 esp0 (trap : cpu → cpu) :
  let s1 := exec_code (vector n ++ alltraps) (trap_in (sel, off, ints) ss0 esp0 err s) in
  wf s → CPL s = 0 → 72 ≤ r_esp s → r_esp s + 8 < 2 ^ 32 → word n → word (default 0 err) → has_err n = bool_decide (is_Some err) →
  r_esp (trap s1) = r_esp s1 → r_ss (trap s1) = r_ss s1 → read_tf (ram (trap s1)) (r_esp s - 68) = read_tf (ram s1) (r_esp s - 68) →
  exec_code alltraps_end (trap s1) = set_ram (ram (trap s1)) s.
Proof.
  intros s1 Hwf Hc Ht Ht2 Hn He Herr Hsp Hss Hf.
  destruct (kernel_entry s n err sel off ints ss0 esp0 Hc ltac:(lia) Herr) as (Hm & Hesp & Hss1). fold s1 in Hm, Hesp, Hss1. clearbody s1.
  destruct (kernel_frame_read s (ram s) n (default 0 err) Hwf Hn He Ht Ht2) as (e & x & Hr).
  rewrite Hm, Hr in Hf. rewrite alltraps_end_eq, Hsp, Hesp, u32_small by lia. replace (r_esp s - 72 + 4) with (r_esp s - 68) by lia.
  rewrite trapret_run by (cbn; lia). cbn [r_esp ram set_reg r_ss]. rewrite Hf, Hss, Hss1.
  change (tf_cs (set_tf_esp e (set_tf_ss x (frame_of s (r_esp s + 8) n (default 0 err))))) with (r_cs s).
  unfold CPL in Hc. rewrite Hc. cbn [Z.eqb]. replace (r_esp s - 68 + 68) with (r_esp s) by lia. by destruct s.
Qed.

(** ** initcode.S *)

(** The first program asks the kernel for [exec(init, argv)]. *)
Theorem initcode_exec s argv init sys_exec : 12 ≤ r_esp s < 2 ^ 32 → word argv → word init → word sys_exec →
  let s1 := exec_code (initcode_start argv init sys_exec) s in
  r_eax s1 = sys_exec ∧ mread32 (ram s1) (r_esp s1 + 4) = init ∧ mread32 (ram s1) (r_esp s1 + 8) = argv.
Proof.
  intros Hs Ha Hi Hx s1. 
  assert (s1 = set_reg EAX (u32 sys_exec) (pushes [argv; init; 0] s)) as ->.
  { unfold s1. change s with (pushes [] s) at 1. unfold initcode_start. by rewrite !exec_pushi. }
  rewrite pushes_eq by (cbn; lia). cbn [r_eax r_esp ram set_reg set_ram length].
  split_and!; [by apply u32_small| |].
  - replace (r_esp s - 4 * Z.of_nat 3 + 4) with (r_esp s - 4 * Z.of_nat 2) by lia.
    rewrite (stack_read _ _ _ 1 init) by done. by apply u32_small.
  - replace (r_esp s - 4 * Z.of_nat 3 + 8) with (r_esp s - 4 * Z.of_nat 1) by lia.
    rewrite (stack_read _ _ _ 0 argv) by done. by apply u32_small.
Qed.

(** ** Examples *)

(** A user program with its stack at 0x3000, and a kernel thread with its stack at
    0x80400F00. *)
Definition user0 : cpu := Cpu 1 2 3 4 0x3000 5 6 7 0x2B 0x2B 0x2B 0x2B 0x23 0x2B 0x200 0x40 (λ _, 0).
Definition thread0 : cpu := Cpu 1 2 3 4 0x80400F00 5 6 7 16 16 24 24 8 16 0 0x80100040
  (mwrite32 (mwrite32 (mwrite32 (λ _, 0) 0x80400F00 0x80100044) 0x80400F04 0x80116000) 0x80400F08 0x80410F00).

Lemma user0_wf : wf user0.
Proof. split; [intros []|intros []|..]; unfold word, half; cbn; lia. Qed.

Lemma thread0_wf : wf thread0.
Proof. split; [intros []|intros []|..]; unfold word, half; cbn; lia. Qed.

(** A handler that stores [r] in the frame's [eax]. *)
Definition answer (r esp0 : Z) (k : cpu) : cpu := set_ram (mwrite32 (ram k) (esp0 - 76 + 28) r) k.

Lemma syscall_stub_witness :
  let k := exec_code (vector T_SYSCALL ++ alltraps) (trap_in (8, 0x80100200, true) 16 0x80401000 None
    (exec_code (SYSCALL 16) (user_call [1; 0x2F00; 5] 0x44 user0))) in
  let u := istep Ret (exec_code alltraps_end (answer 5 0x80401000 k)) in
  r_eip u = 0x44 ∧ r_eax u = 5 ∧ mread32 (ram k) (r_esp user0 - 16 + 4 + 4 * 1) = 0x2F00.
Proof.
  cbv zeta.
  destruct (syscall_stub user0 16 [1; 0x2F00; 5] 0x44 8 0x80100200 true 16 0x80401000 (answer 5 0x80401000) 5)
    as ((_ & _ & Ha) & Hip & Hax & _);
    [exact user0_wf|discriminate|unfold word; lia|unfold word; lia|repeat constructor; lia|cbn; lia|cbn; lia|lia|
     vm_compute; reflexivity|vm_compute; reflexivity|vm_compute; reflexivity|].
  split_and!; [exact Hip|exact Hax|]. exact (Ha 1%nat 0x2F00 eq_refl).
Defined.

Lemma kernel_trap_transparent_witness :
  let s1 := exec_code (vector 46 ++ alltraps) (trap_in (8, 0x80100300, false) 16 0x80401000 None thread0) in
  exec_code alltraps_end s1 = set_ram (ram s1) thread0.
Proof.
  apply (kernel_trap_transparent thread0 46 None 8 0x80100300 false 16 0x80401000 (λ s, s));
    [exact thread0_wf|reflexivity|cbn; lia|cbn; lia|unfold word; lia|unfold word; cbn; lia|vm_compute; reflexivity..].
Defined.

(** The scheduler's thread, and its context. *)
Definition scheduler0 : cpu := Cpu 1 2 3 40 0x80410F00 50 60 70 16 16 24 24 8 16 0 0x80100040
  (mwrite32 (mwrite32 (mwrite32 (ram (exec_code swtch_code thread0)) 0x80410F00 0x80100048) 0x80410F04 0x80116004)
     0x80410F08 0x80400EF0).

Lemma swtch_there_and_back_witness :
  let t1 := exec_code swtch_code scheduler0 in r_eip t1 = 0x80100044 ∧ r_ebx t1 = 4 ∧ r_esp t1 = 0x80400F04.
Proof.
  cbv zeta.
  destruct (swtch_there_and_back thread0 scheduler0 0x80100044 0x80116000 0x80410F00 0x80100048 0x80116004)
    as (_ & _ & Hc & Hsp).
  - split; vm_compute; congruence.
  - exact (wf_regs _ thread0_wf).
  - left. vm_compute. congruence.
  - split; [left|left]; vm_compute; congruence.
  - split; vm_compute; congruence.
  - split; [right|left]; vm_compute; congruence.
  - vm_compute. reflexivity.
  - split_and!; [exact (f_equal c_eip Hc)|exact (f_equal c_ebx Hc)|exact Hsp].
Defined.

(** A new process with its stack below 0x80421000, and the scheduler about to switch
    to it. *)
Definition new_proc : proc :=
  set_p_frame (frame_of user0 0x80421000 64 0) (set_p_ctx (Context 0 0 0 0 0x80103000)
    (set_p_tf 0x80420FB4 (set_p_context 0x80420F9C proc0))).
Definition scheduler1 : cpu := Cpu 1 2 3 4 0x80400F00 5 6 7 16 16 24 24 8 16 0 0x80100040
  (stack_mem (stack_mem (λ _, 0) 0x80421000 (frame_words user0 0x80421000 64 0 ++ [0x80105000; 0x80103000; 0; 0; 0; 0]))
     0x80400F0C [0x80420F9C; 0x80116000; 0x80100044]).

Lemma first_run_witness :
  let s1 := exec_code swtch_code scheduler1 in
  r_eip s1 = 0x80103000 ∧ exec_code trapret (istep Ret s1) = set_ram (ram s1) user0.
Proof.
  destruct (first_run scheduler1 0x80100044 0x80116000 new_proc 0x80105000 (λ s, s)) as (Hip & _ & Hu).
  - split; vm_compute; congruence.
  - split; [left|left]; vm_compute; congruence.
  - split; vm_compute; congruence.
  - reflexivity.
  - reflexivity.
  - reflexivity.
  - vm_compute. discriminate.
  - split; [exact Hip|exact Hu].
Defined.
