(* ===== verification/Startup.v ===== *)
(** * Starting the other processors (the local APIC part of lapic.c, startothers of
    main.c, and what entryother.S reads)

    The local APIC is a parameter: [lapic_read h i] is what register [i] reads after
    the accesses [h], so a register may change from one read to the next.  The other
    processors run beside this one: each waits for its start-up interrupt, then takes
    three words from memory in entryother.S, and at last sets its [started].  Which of
    them make a step at which moment is a parameter too ([slots]); they may step
    before every write of the words they read and before every look at [started], the
    only accesses of this processor that they and it have in common. *)
From S2P Require Import Prelude Spinlock Str Ptable Services Kalloc Irq.

Definition LAPIC_ID : Z := 0x0020 / 4.
Definition LAPIC_VER : Z := 0x0030 / 4.
Definition LAPIC_TPR : Z := 0x0080 / 4.
Definition LAPIC_EOI : Z := 0x00B0 / 4.
Definition LAPIC_SVR : Z := 0x00F0 / 4.
Definition LAPIC_ESR : Z := 0x0280 / 4.
Definition LAPIC_ICRLO : Z := 0x0300 / 4.
Definition LAPIC_ICRHI : Z := 0x0310 / 4.
Definition LAPIC_TIMER : Z := 0x0320 / 4.
Definition LAPIC_PCINT : Z := 0x0340 / 4.
Definition LAPIC_LINT0 : Z := 0x0350 / 4.
Definition LAPIC_LINT1 : Z := 0x0360 / 4.
Definition LAPIC_ERROR : Z := 0x0370 / 4.
Definition LAPIC_TICR : Z := 0x0380 / 4.
Definition LAPIC_TDCR : Z := 0x03E0 / 4.

Definition ENABLE : Z := 0x100.
Definition INIT : Z := 0x500.
Definition STARTUP : Z := 0x600.
Definition DELIVS : Z := 0x1000.
Definition ASSERT : Z := 0x4000.
Definition LEVEL : Z := 0x8000.
Definition BCAST : Z := 0x80000.
Definition PERIODIC : Z := 0x20000.
Definition MASKED : Z := 0x10000.
Definition X1 : Z := 0xB.
Definition IRQ_ERR : Z := 19.
Definition SPURIOUS : Z := 31.

(** An access to a register of the local APIC. *)
Inductive access := Wr (i v : Z) | Rd (i : Z).

(** What a processor takes from memory in entryother.S. *)
Record wake := Wakeup { wk_cpu : nat; wk_stack : Z; wk_entry : Z; wk_pgdir : Z }.

(** How far a processor has come: entryother.S loads the page table from [start-12],
    the stack from [start-4] and the address it calls from [start-8]; mpmain sets
    [started]. *)
Inductive ap_pc :=
| Off
| Load_pgdir
| Load_stack (pgdir : Z)
| Load_entry (pgdir stack : Z)
| Entered (w : wake)
| Up (w : wake).

Record apst (B : Type) := Apst {
  ap_k : kst B;               (* memory and the page allocator *)
  lapic : Z;
  accesses : list access;     (* the oldest first *)
  ap_ports : list (Z * Z);
  aps : list ap_pc;           (* by processor *)
  clock : nat                 (* the moments that have passed *)
}.
Arguments Apst {B}. Arguments ap_k {B}. Arguments lapic {B}. Arguments accesses {B}.
Arguments ap_ports {B}. Arguments aps {B}. Arguments clock {B}.

(** The processor addressed and the command, for every write of the low half of the
    interrupt command register; [hi] is its high half. *)
Fixpoint ipis (hi : Z) (h : list access) : list (Z * Z) :=
  match h with
  | [] => []
  | Wr i v :: h =>
      if i =? LAPIC_ICRHI then ipis v h
      else if i =? LAPIC_ICRLO then (Z.shiftr hi 24, v) :: ipis hi h
      else ipis hi h
  | Rd _ :: h => ipis hi h
  end.

(** Processor [i] has been sent a start-up interrupt for page 7. *)
Definition sent (h : list access) (i : nat) : bool :=
  bool_decide ((Z.of_nat i, Z.lor STARTUP 7) ∈ ipis 0 h).

(** One step of processor [i]: entryother.S at [start], then mpenter and mpmain. *)
Definition entryother (m : mem) (start : Z) (h : list access) (i : nat) (p : ap_pc) : ap_pc :=
  match p with
  | Off => if sent h i then Load_pgdir else Off
  | Load_pgdir => Load_stack (mread32 m (start - 12))
  | Load_stack pgdir => Load_entry pgdir (mread32 m (start - 4))
  | Load_entry pgdir stack => Entered (Wakeup i stack (mread32 m (start - 8)) pgdir)
  | Entered w => Up w
  | Up w => Up w
  end.

Section smp.
Context {B : Type} {O : KOps B}.
Context (lapic_read : list access → Z → Z).
Implicit Types s : apst B.

Definition set_ap_k (k : kst B) s : apst B := Apst k (lapic s) (accesses s) (ap_ports s) (aps s) (clock s).
Definition set_ap_memory (m : mem) s : apst B := set_ap_k (set_memory m (ap_k s)) s.
Definition log_access (a : access) s : apst B :=
  Apst (ap_k s) (lapic s) (accesses s ++ [a]) (ap_ports s) (aps s) (clock s).

#[global] Instance apst_k : Lens (apst B) (kst B) := {| view := ap_k; put := set_ap_k |}.

(** [lapic[i]] *)
Definition lapicr (i : Z) : K (apst B) Z :=
  s ← get;
  modify (log_access (Rd i));;
  mret (u32 (lapic_read (accesses s) i)).

Definition lapicw (i v : Z) : K (apst B) unit :=
  modify (log_access (Wr i (u32 v)));;
  lapicr LAPIC_ID;;
  mret tt.

Definition lapicinit (polls : nat) : K (apst B) unit :=
  l ← gets lapic;
  if l =? 0 then mret tt
  else
    lapicw LAPIC_SVR (Z.lor ENABLE (T_IRQ0 + SPURIOUS));;
    lapicw LAPIC_TDCR X1;;
    lapicw LAPIC_TIMER (Z.lor PERIODIC (T_IRQ0 + IRQ_TIMER));;
    lapicw LAPIC_TICR 10000000;;
    lapicw LAPIC_LINT0 MASKED;;
    lapicw LAPIC_LINT1 MASKED;;
    v ← lapicr LAPIC_VER;
    (if Z.land (Z.shiftr v 16) 0xFF >=? 4 then lapicw LAPIC_PCINT MASKED else mret tt);;
    lapicw LAPIC_ERROR (T_IRQ0 + IRQ_ERR);;
    lapicw LAPIC_ESR 0;;
    lapicw LAPIC_ESR 0;;
    lapicw LAPIC_EOI 0;;
    lapicw LAPIC_ICRHI 0;;
    lapicw LAPIC_ICRLO (Z.lor BCAST (Z.lor INIT LEVEL));;
    while polls (λ u : unit,
      r ← lapicr LAPIC_ICRLO;
      mret (if negb (Z.land r DELIVS =? 0) then inl u else inr u)) tt;;
    lapicw LAPIC_TPR 0.

(** The message printed once when interrupts are on is left out. *)
Definition cpunum : K (apst B) Z :=
  l ← gets lapic;
  if negb (l =? 0) then r ← lapicr LAPIC_ID; mret (Z.shiftr r 24) else mret 0.

Definition lapiceoi : K (apst B) unit :=
  l ← gets lapic;
  if negb (l =? 0) then lapicw LAPIC_EOI 0 else mret tt.

Definition ap_outb (port data : Z) : K (apst B) unit :=
  modify (λ s, Apst (ap_k s) (lapic s) (accesses s) (ap_ports s ++ [(port, u8 data)]) (aps s) (clock s)).

Definition ap_mem (f : mem → mem) : K (apst B) unit :=
  modify (λ s, set_ap_memory (f (memory (ap_k s))) s).

(** A 16-bit store. *)
Definition mwrite16 (m : mem) (a v : Z) : mem := mwrite (mwrite m a (u8 v)) (a + 1) (u8 (Z.shiftr v 8)).

(** [microdelay] does nothing. *)
Definition lapicstartap (apicid addr : Z) : K (apst B) unit :=
  ap_outb 0x70 0xF;;
  ap_outb 0x71 0x0A;;
  let wrv := p2v (Z.lor (Z.shiftl 0x40 4) 0x67) in
  ap_mem (λ m, mwrite16 m wrv 0);;
  ap_mem (λ m, mwrite16 m (wrv + 2) (Z.shiftr addr 4));;
  lapicw LAPIC_ICRHI (Z.shiftl apicid 24);;
  lapicw LAPIC_ICRLO (Z.lor INIT (Z.lor LEVEL ASSERT));;
  lapicw LAPIC_ICRLO (Z.lor INIT LEVEL);;
  lapicw LAPIC_ICRHI (Z.shiftl apicid 24);;
  lapicw LAPIC_ICRLO (Z.lor STARTUP (Z.shiftr addr 12));;
  lapicw LAPIC_ICRHI (Z.shiftl apicid 24);;
  lapicw LAPIC_ICRLO (Z.lor STARTUP (Z.shiftr addr 12)).

(** ** startothers *)

Context (image image_size : Z).           (* the linker's _binary_entryother *)
Context (mpenter entrypgdir : Z).         (* addresses of the kernel's *)
Context (slots : nat → list nat) (polls : nat).

(** The other processors that step at this moment do. *)
Definition others_step (code : Z) (t : nat) s : list ap_pc :=
  foldl (λ l i, alter (entryother (memory (ap_k s)) code (accesses s) i) i l) (aps s) (slots t).

Definition tick (code : Z) : K (apst B) unit :=
  modify (λ s, Apst (ap_k s) (lapic s) (accesses s) (ap_ports s) (others_step code (clock s) s) (S (clock s))).

(** A write of one of the words below the code. *)
Definition put_word (code a v : Z) : K (apst B) unit :=
  tick code;;
  ap_mem (λ m, mwrite32 m a v).

Definition started s (i : nat) : bool := match aps s !! i with Some (Up _) => true | _ => false end.

(** [while(c->started == 0)] *)
Definition wait_started (code : Z) (i : nat) : K (apst B) unit :=
  while polls (λ u : unit,
    tick code;;
    b ← gets (λ s, started s i);
    mret (if negb b then inl u else inr u)) tt.

(** The body of the loop for [cpus + i]. *)
Definition start_one (ids : list Z) (code : Z) (i : nat) : K (apst B) unit :=
  self ← cpunum;
  if Z.of_nat i =? self then mret tt
  else
    stack ← lift kalloc;
    put_word code (code - 4) (stack + KSTACKSIZE);;
    put_word code (code - 8) mpenter;;
    put_word code (code - 12) (v2p entrypgdir);;
    id ← deref (ids !! i);
    lapicstartap id (v2p code);;
    wait_started code i.

Fixpoint start_each (ids : list Z) (code : Z) (l : list nat) : K (apst B) unit :=
  match l with
  | [] => mret tt
  | i :: l => start_one ids code i;; start_each ids code l
  end.

Definition startothers (ids : list Z) (ncpu : nat) : K (apst B) unit :=
  let code := p2v 0x7000 in
  ap_mem (λ m, memmove m code image image_size);;
  start_each ids code (seq 0 ncpu).
End smp.

(** ** The interrupts that are sent *)

(** INIT, its end, and two start-ups at page 7. *)
Definition start_sequence (i : nat) : list (Z * Z) :=
  [(Z.of_nat i, Z.lor INIT (Z.lor LEVEL ASSERT)); (Z.of_nat i, Z.lor INIT LEVEL);
   (Z.of_nat i, Z.lor STARTUP 7); (Z.of_nat i, Z.lor STARTUP 7)].

Lemma ipis_app h1 : ∀ hi h2, ∃ hi', ipis hi (h1 ++ h2) = ipis hi h1 ++ ipis hi' h2.
Proof.
  induction h1 as [|[i v|i] h1 IH]; intros hi h2; cbn [app ipis]; [by exists hi| |apply IH].
  destruct (i =? LAPIC_ICRHI); [apply IH|]. destruct (i =? LAPIC_ICRLO); [|apply IH].
  destruct (IH hi h2) as (hi' & ->). by exists hi'.
Qed.

Definition with_read (l : list (Z * Z)) : list access := l ≫= λ '(i, v), [Wr i (u32 v); Rd LAPIC_ID].

Definition start_accesses (id addr : Z) : list access :=
  with_read [(LAPIC_ICRHI, Z.shiftl id 24); (LAPIC_ICRLO, Z.lor INIT (Z.lor LEVEL ASSERT)); (LAPIC_ICRLO, Z.lor INIT LEVEL);
    (LAPIC_ICRHI, Z.shiftl id 24); (LAPIC_ICRLO, Z.lor STARTUP (Z.shiftr addr 12));
    (LAPIC_ICRHI, Z.shiftl id 24); (LAPIC_ICRLO, Z.lor STARTUP (Z.shiftr addr 12))].

(** The warm reset vector is set. *)
Definition reset_vector (m : mem) (addr : Z) : mem :=
  mwrite16 (mwrite16 m (p2v 0x467) 0) (p2v 0x467 + 2) (Z.shiftr addr 4).

Section facts.
Context {B : Type} {O : KOps B} {W : KLaws B}.
Context (lapic_read : list access → Z → Z).
Context (image image_size mpenter entrypgdir : Z) (slots : nat → list nat) (polls : nat).
Implicit Types s : apst B.

Lemma lapicstartap_run id addr s :
  lapicstartap lapic_read id addr s =
  Ok tt (Apst (set_memory (reset_vector (memory (ap_k s)) addr) (ap_k s)) (lapic s)
    (accesses s ++ start_accesses id addr) (ap_ports s ++ [(0x70, 0xF); (0x71, 0x0A)]) (aps s) (clock s)).
Proof.
  destruct s as [k a h p w t]. unfold lapicstartap, lapicw, lapicr, ap_outb, ap_mem. 
  cbv [mbind K_bind obind get modify mret K_ret log_access set_ap_memory set_ap_k ap_k lapic accesses ap_ports aps clock].
  cbn [memory set_memory kbase freelist use_lock]. rewrite <- !app_assoc. reflexivity.
Qed.

Lemma start_ipis hi i : (i < 256)%nat → ipis hi (start_accesses (Z.of_nat i) (v2p (p2v 0x7000))) = start_sequence i.
Proof.
  intros Hi. assert (Z.shiftr (u32 (Z.shiftl (Z.of_nat i) 24)) 24 = Z.of_nat i) as E.
  { rewrite Z.shiftl_mul_pow2, u32_small, Z.shiftr_div_pow2, Z.div_mul by lia. done. }
  unfold start_accesses, with_read, start_sequence. cbn -[u32 Z.shiftl Z.shiftr p2v v2p Z.lor Z.of_nat].
  rewrite E. reflexivity.
Qed.

(** ** Memory below the kernel's end *)

Definition apcode : Z := 0x80007000.

Lemma apcode_eq : p2v 0x7000 = apcode.
Proof. reflexivity. Qed.

(** What starting a processor writes lies in the four bytes of the reset vector and the
    twelve below the code. *)
Definition scratch (x : Z) : bool := inrange 0x80000467 4 x || inrange (apcode - 12) 12 x.

Lemma scratch_reset m addr x : scratch x = false → reset_vector m addr x = m x.
Proof.
  unfold scratch, inrange, reset_vector, mwrite16, mwrite, apcode. change (p2v 0x467) with 0x80000467.
  intros H. zcases; done.
Qed.

Lemma scratch_word m a w x : apcode - 12 ≤ a ≤ apcode - 4 → scratch x = false → mwrite32 m a w x = m x.
Proof.
  intros Ha H. apply mwrite32_other. unfold scratch, inrange in *.
  destruct (Z.leb_spec a x), (Z.ltb_spec x (a + 4)); try done. exfalso.
  destruct (Z.leb_spec (apcode - 12) x), (Z.ltb_spec x (apcode - 12 + 12)); cbn in H; lia.
Qed.

Lemma free_ok_low kend (k : kst B) l m' : free_ok kend k l → (∀ x, kend ≤ x → m' x = memory k x) →
  free_ok kend (set_memory m' k) l.
Proof.
  intros [Hr Hn Hp] Hm. split; [|done|done]. cbn. clear Hn. revert Hr. generalize (freelist k).
  induction Hp as [|v l Hv Hp IH]; intros h; cbn; [done|]. intros [-> Hr]. split; [done|].
  rewrite (mread32_ext (memory k)); [by apply IH|]. intros x Hx. apply Hm.
  destruct Hv as (_ & Hv & _). unfold inrange in Hx. apply andb_true_iff in Hx as [?%Z.leb_le _]. lia.
Qed.

(** ** One processor *)

Record ap_ok (kend : Z) (L : gset lockid) (img : mem) s (l : list Z) : Prop := {
  ao_free : free_ok kend (ap_k s) l;
  ao_locks : locks_ok L (ap_k s);
  ao_lapic : lapic s ≠ 0;
  ao_image : ∀ x, 0 ≤ x < image_size → memory (ap_k s) (apcode + x) = img x
}.

(** A processor that does not step: it is up, or nobody has called it. *)
Definition still (h : list access) (j : nat) (p : ap_pc) : Prop :=
  match p with Off => sent h j = false | Up _ => True | _ => False end.

Lemma still_stays m h j p : still h j p → entryother m apcode h j p = p.
Proof. destruct p; cbn; try done. by intros ->. Qed.

Definition all_still s : Prop := ∀ j p, aps s !! j = Some p → still (accesses s) j p.

Lemma alter_stays {A} (f : A → A) (i : nat) (l : list A) : (∀ x, l !! i = Some x → f x = x) → alter f i l = l.
Proof.
  intros H. apply list_eq. intros j. destruct (decide (i = j)) as [<-|]; [|by rewrite list_lookup_alter_ne].
  rewrite list_lookup_alter_eq. destruct (l !! i) as [x|] eqn:E; [|done]. cbn. by rewrite (H x).
Qed.

Lemma tick_still s : all_still s →
  tick slots apcode s = Ok tt (Apst (ap_k s) (lapic s) (accesses s) (ap_ports s) (aps s) (S (clock s))).
Proof.
  intros H. unfold tick, others_step. rewrite modify_ok. do 2 f_equal. induction (slots (clock s)) as [|i l IH]; [done|].
  cbn [foldl]. rewrite alter_stays; [done|]. intros p Hp. by apply still_stays, H.
Qed.

(** The states of a processor that has been called and finds [w]. *)
Definition stage (w : wake) (n : nat) : ap_pc :=
  match n with
  | 0 => Off
  | 1 => Load_pgdir
  | 2 => Load_stack (wk_pgdir w)
  | 3 => Load_entry (wk_pgdir w) (wk_stack w)
  | 4 => Entered w
  | _ => Up w
  end%nat.

(** The words below the code are those of [w]. *)
Definition words (m : mem) (w : wake) : Prop :=
  mread32 m (apcode - 12) = wk_pgdir w ∧ mread32 m (apcode - 4) = wk_stack w ∧ mread32 m (apcode - 8) = wk_entry w.

Lemma stage_next m h w n : words m w → sent h (wk_cpu w) = true →
  entryother m apcode h (wk_cpu w) (stage w n) = stage w (S n).
Proof.
  intros (H1 & H2 & H3) Hs. destruct n as [|[|[|[|[|n]]]]]; cbn; rewrite ?Hs, ?H1, ?H2, ?H3; try done. by destruct w.
Qed.

Definition steps_of (i t : nat) : nat := count_occ Nat.eq_dec (slots t) i.

(** All but the processor of [w] are still, and that one has come to stage [n]. *)
Record calling (w : wake) (n : nat) s : Prop := Calling {
  ca_words : words (memory (ap_k s)) w;
  ca_sent : sent (accesses s) (wk_cpu w) = true;
  ca_stage : aps s !! wk_cpu w = Some (stage w n);
  ca_others : ∀ j p, j ≠ wk_cpu w → aps s !! j = Some p → still (accesses s) j p
}.

Lemma calling_steps w n s l : calling w n s →
  foldl (λ q i, alter (entryother (memory (ap_k s)) apcode (accesses s) i) i q) (aps s) l =
  <[wk_cpu w := stage w (n + count_occ Nat.eq_dec l (wk_cpu w))]> (aps s).
Proof.
  intros [H1 H2 H3 H4].
  enough (∀ l n q, q !! wk_cpu w = Some (stage w n) → (∀ j p, j ≠ wk_cpu w → q !! j = Some p → still (accesses s) j p) →
    foldl (λ q i, alter (entryother (memory (ap_k s)) apcode (accesses s) i) i q) q l =
    <[wk_cpu w := stage w (n + count_occ Nat.eq_dec l (wk_cpu w))]> q) as H by (by apply H). clear H3 H4 l n.
  induction l as [|i l IH]; intros n q Hw Hq; cbn [foldl count_occ].
  { rewrite Nat.add_0_r. symmetry. by apply list_insert_id. }
  destruct (Nat.eq_dec i (wk_cpu w)) as [->|Hi].
  - rewrite (alter_insert _ _ _ _ Hw), stage_next by done. rewrite (IH (S n)).
    + rewrite list_insert_insert_eq. by replace (S n + _)%nat with (n + S (count_occ Nat.eq_dec l (wk_cpu w)))%nat by lia.
    + apply list_lookup_insert_eq. by eapply lookup_lt_Some.
    + intros j p Hj. rewrite list_lookup_insert_ne by done. by apply Hq.
  - rewrite alter_stays; [by apply IH|]. intros p Hp. by apply still_stays, (Hq i).
Qed.

(** What the waiting leaves: time has passed and the processor is up. *)
Definition came_up (w : wake) s s' : Prop :=
  ∃ t, s' = Apst (ap_k s) (lapic s) (accesses s) (ap_ports s) (<[wk_cpu w := Up w]> (aps s)) t.

Lemma stage_up w n : (5 ≤ n)%nat → stage w n = Up w.
Proof. by destruct n as [|[|[|[|[|n]]]]]; [lia..|]. Qed.

Lemma wait_run w k : ∀ n s, calling w n s → (5 ≤ n + sum_list (steps_of (wk_cpu w) <$> seq (clock s) k))%nat → (0 < k)%nat →
  ∃ s', while k (λ u : unit, tick slots apcode;; b ← gets (λ s, started s (wk_cpu w)); mret (if negb b then inl u else inr u)) tt s =
    Ok tt s' ∧ came_up w s s'.
Proof.
  induction k as [|k IH]; intros n s Hc Hn Hk; [lia|]. cbn [seq fmap list_fmap sum_list] in Hn.
  set (n1 := (n + steps_of (wk_cpu w) (clock s))%nat) in *.
  set (s1 := Apst (ap_k s) (lapic s) (accesses s) (ap_ports s) (<[wk_cpu w := stage w n1]> (aps s)) (S (clock s))).
  assert (tick slots apcode s = Ok tt s1) as Ht.
  { unfold tick, others_step. rewrite modify_ok, (calling_steps w n) by done. done. }
  assert (aps s1 !! wk_cpu w = Some (stage w n1)) as Hst.
  { apply list_lookup_insert_eq. by eapply lookup_lt_Some, (ca_stage _ _ _ Hc). }
  erewrite while_ok by (rewrite (bind_ok _ _ _ _ _ Ht), (bind_ok _ _ _ _ _ (gets_ok _ _)); reflexivity).
  assert (started s1 (wk_cpu w) = (5 <=? n1)%nat) as ->.
  { unfold started. rewrite Hst. by destruct n1 as [|[|[|[|[|]]]]]. }
  destruct (Nat.leb_spec 5 n1).
  - exists s1. split; [done|]. exists (S (clock s)). unfold s1. by rewrite stage_up.
  - assert (0 < k)%nat as Hk' by (destruct k; [cbn in Hn; lia|lia]).
    destruct (IH n1 s1) as (s' & Hr & (t & ->)); [|change (clock s1) with (S (clock s)); unfold n1 in *; cbn in Hn |- *; lia|done|].
    + destruct Hc as [C1 C2 C3 C4]. split; [done|done|done|]. intros j p Hj. cbn. rewrite list_lookup_insert_ne by done. by apply C4.
    + eexists. split; [exact Hr|]. exists t. cbn. by rewrite list_insert_insert_eq.
Qed.

(** A processor makes its five steps while it is waited for. *)
Context (ncpu : nat).
Hypothesis Hpolls : (0 < polls)%nat.
Hypothesis Hslots : ∀ i t, (i < ncpu)%nat → (5 ≤ sum_list (steps_of i <$> seq t polls))%nat.
Context (self : nat).
Hypothesis Hself : ∀ h, Z.shiftr (u32 (lapic_read h LAPIC_ID)) 24 = Z.of_nat self.

Lemma cpunum_run s : lapic s ≠ 0 → cpunum lapic_read s = Ok (Z.of_nat self) (log_access (Rd LAPIC_ID) s).
Proof.
  intros Hl. unfold cpunum, lapicr. rewrite (bind_ok _ _ _ _ _ (gets_ok _ _)). apply Z.eqb_neq in Hl. rewrite Hl.
  cbn [negb]. change (Ok (Z.shiftr (u32 (lapic_read (accesses s) LAPIC_ID)) 24) (log_access (Rd LAPIC_ID) s) =
    Ok (Z.of_nat self) (log_access (Rd LAPIC_ID) s)). by rewrite Hself.
Qed.

Let mailbox (m : mem) (stack : Z) : mem :=
  reset_vector (mwrite32 (mwrite32 (mwrite32 m (apcode - 4) (stack + KSTACKSIZE)) (apcode - 8) mpenter)
    (apcode - 12) (v2p entrypgdir)) (v2p apcode).

Lemma mailbox_other m stack x : scratch x = false → mailbox m stack x = m x.
Proof.
  intros Hx. unfold mailbox. rewrite scratch_reset, !scratch_word by (done || unfold apcode; lia). done.
Qed.

(** What a processor takes from memory when it gets the page [p]. *)
Definition wakes (i : nat) (p : Z) : wake := Wakeup i (p + KSTACKSIZE) mpenter (v2p entrypgdir).

Lemma mailbox_read m stack i : 0 ≤ stack + KSTACKSIZE < 2 ^ 32 → 0 ≤ mpenter < 2 ^ 32 →
  words (mailbox m stack) (wakes i stack).
Proof.
  intros Hs Hm. unfold words, mailbox. cbn [wk_pgdir wk_stack wk_entry wakes].
  assert (∀ m addr a, apcode - 12 ≤ a ≤ apcode - 4 → mread32 (reset_vector m addr) a = mread32 m a) as Hr.
  { intros m0 addr a Ha. apply mread32_ext. intros x Hx. unfold reset_vector, mwrite16, mwrite, apcode, inrange in *.
    change (p2v 0x467) with 0x80000467. apply andb_true_iff in Hx as [?%Z.leb_le ?%Z.ltb_lt]. zcases; done. }
  rewrite !Hr by (unfold apcode; lia).
  rewrite mread32_mwrite32, !(mread32_other _ (apcode - 4)), mread32_mwrite32 by lia.
  rewrite (mread32_other _ (apcode - 8)), mread32_mwrite32 by lia. rewrite !u32_small by (done || apply Z.mod_pos_bound; done). done.
Qed.

Context (kend : Z) (L : gset lockid) (ids : list Z).
Hypothesis Hsize : 0 ≤ image_size.
Hypothesis Hkend : apcode + image_size ≤ kend.
Hypothesis Hmpenter : 0 ≤ mpenter < 2 ^ 32.

Lemma scratch_high x : apcode ≤ x → scratch x = false.
Proof. unfold scratch, inrange, apcode. intros H. zcases; done. Qed.

Lemma ap_ok_mailbox img s l stack acc prt q t : ap_ok kend L img s l →
  ap_ok kend L img (Apst (set_memory (mailbox (memory (ap_k s)) stack) (ap_k s)) (lapic s) acc prt q t) l.
Proof.
  intros [Hf Hl Ha Hi]. split; cbn [ap_k lapic]; [|done|done|].
  - apply free_ok_low; [done|]. intros x Hx. apply mailbox_other, scratch_high. lia.
  - intros x Hx. cbn. rewrite mailbox_other by (apply scratch_high; lia). by apply Hi.
Qed.

(** Writing a word while no other processor moves. *)
Lemma put_word_run a v s : all_still s →
  put_word slots apcode a v s =
    Ok tt (Apst (set_memory (mwrite32 (memory (ap_k s)) a v) (ap_k s)) (lapic s) (accesses s) (ap_ports s) (aps s) (S (clock s))).
Proof. intros H. unfold put_word, ap_mem. by rewrite (bind_ok _ _ _ _ _ (tick_still s H)), modify_ok. Qed.

(** Another processor hears nothing of the interrupts for [i]. *)
Lemma sent_start h i j : (i < 256)%nat →
  sent (h ++ Rd LAPIC_ID :: start_accesses (Z.of_nat i) (v2p (p2v 0x7000))) j = sent h j || bool_decide (j = i).
Proof.
  intros Hi. unfold sent. destruct (ipis_app h 0 (Rd LAPIC_ID :: start_accesses (Z.of_nat i) (v2p (p2v 0x7000)))) as (hi & ->).
  cbn [ipis]. rewrite start_ipis by done. unfold start_sequence.
  apply eq_true_iff_eq. rewrite orb_true_iff, !bool_decide_eq_true, elem_of_app, !elem_of_cons, elem_of_nil.
  split; [intros [?|[H|[H|[H|[H|[]]]]]]|intros [?| ->]]; [by left|done|done|right|right|by left|right; by do 2 right; left].
  all: injection H; lia.
Qed.

Lemma start_one_ok img s v l i p : ap_ok kend L img s (v :: l) → i ≠ self → (i < ncpu)%nat → (i < 256)%nat → ids !! i = Some (Z.of_nat i) →
  all_still s → aps s !! i = Some p → p = Off →
  ∃ s' new, start_one lapic_read mpenter entrypgdir slots polls ids apcode i s = Ok tt s' ∧ ap_ok kend L img s' l ∧
    aps s' = <[i := Up (wakes i v)]> (aps s) ∧ all_still s' ∧
    accesses s' = accesses s ++ new ∧ (∀ hi, ipis hi new = start_sequence i) ∧
    ∀ j, sent (accesses s') j = sent (accesses s) j || bool_decide (j = i).
Proof.
  intros Hok Hne Hn Hi Hid Hst Hp ->. unfold start_one. rewrite (bind_ok _ _ _ _ _ (cpunum_run s (ao_lapic _ _ _ _ _ Hok))).
  replace (Z.of_nat i =? Z.of_nat self) with false by (symmetry; apply Z.eqb_neq; lia).
  set (s1 := log_access (Rd LAPIC_ID) s).
  destruct (kalloc_ok kend L (ap_k s1) (v :: l) (ao_free _ _ _ _ _ Hok) (ao_locks _ _ _ _ _ Hok))
    as (k & Hr & Hf & Hm & HL & _). cbn [default head tail] in Hr, Hf.
  assert (lift kalloc s1 = Ok v (set_ap_k k s1)) as Hr' by (unfold lift; cbn [view apst_k]; rewrite Hr; done).
  rewrite (bind_ok _ _ _ _ _ Hr').
  assert (∀ k' t, all_still (Apst k' (lapic s) (accesses s ++ [Rd LAPIC_ID]) (ap_ports s) (aps s) t)) as Hst1.
  { intros k' t j q Hj. specialize (Hst j q Hj). destruct q; try done. cbn in Hst |- *. unfold sent in *.
    destruct (ipis_app (accesses s) 0 [Rd LAPIC_ID]) as (hi & ->). by rewrite app_nil_r. }
  unfold set_ap_k. cbn [lapic accesses ap_ports aps clock s1 log_access]. fold apcode.
  do 3 rewrite (bind_ok _ _ _ _ _ (put_word_run _ _ _ (Hst1 _ _))). cbn [ap_k memory set_memory clock].
  rewrite Hid, (bind_ok _ _ _ _ _ (deref_some _ _)), (bind_ok _ _ _ _ _ (lapicstartap_run _ _ _)).
  cbn [ap_k memory set_memory clock lapic accesses ap_ports aps].
  set (acc := (accesses s ++ [Rd LAPIC_ID]) ++ start_accesses (Z.of_nat i) (v2p apcode)).
  set (s2 := Apst _ _ acc _ _ _).
  assert (∀ j, sent acc j = sent (accesses s) j || bool_decide (j = i)) as Hsent.
  { intros j. unfold acc. rewrite <- app_assoc. by apply sent_start. }
  assert (page kend v) as Hv by (pose proof (fo_page _ _ _ (ao_free _ _ _ _ _ Hok)) as Hpp; by inversion Hpp).
  apply page_range in Hv. unfold KERNBASE, PHYSTOP, PGSIZE in Hv.
  assert (calling (wakes i v) 0 s2) as Hcall.
  { split.
    - apply mailbox_read; [unfold KSTACKSIZE; lia|done].
    - cbn [accesses s2 wk_cpu wakes]. by rewrite Hsent, bool_decide_true, orb_true_r.
    - done.
    - intros j q Hj Hq. specialize (Hst j q Hq). destruct q; try done. cbn in Hst, Hj |- *.
      by rewrite Hsent, Hst, bool_decide_false. }
  destruct (wait_run (wakes i v) polls 0 s2 Hcall (Hslots _ _ Hn) Hpolls) as (s' & Hw & (t & ->)).
  eexists _, (Rd LAPIC_ID :: start_accesses (Z.of_nat i) (v2p apcode)). split; [exact Hw|]. split_and!.
  - refine (ap_ok_mailbox img (Apst k (lapic s) [] [] [] 0%nat) l v _ _ _ _ _).
    split; cbn; [done|done|apply Hok|]. rewrite Hm. apply Hok.
  - done.
  - intros j q. cbn [aps accesses s2 wk_cpu wakes]. intros Hq.
    destruct (decide (j = i)) as [->|Hj]; [rewrite list_lookup_insert_eq in Hq by (by eapply lookup_lt_Some); by injection Hq as <-|].
    rewrite list_lookup_insert_ne in Hq by done. by apply (ca_others _ _ _ Hcall).
  - cbn. unfold acc. by rewrite <- app_assoc.
  - intros hi. cbn [ipis]. by apply start_ipis.
  - done.
Qed.

(** The others. *)
Definition others (l : list nat) : list nat := filter (λ i, i ≠ self) l.

Lemma start_each_ok img l : ∀ s pages, ap_ok kend L img s pages → (length (others l) ≤ length pages)%nat → NoDup l →
  (∀ i, i ∈ l → (i < ncpu)%nat ∧ (i < 256)%nat ∧ ids !! i = Some (Z.of_nat i) ∧ (i ≠ self → aps s !! i = Some Off)) → all_still s →
  ∃ s' new, start_each lapic_read mpenter entrypgdir slots polls ids apcode l s = Ok tt s' ∧
    ap_ok kend L img s' (drop (length (others l)) pages) ∧
    (∀ n i p, others l !! n = Some i → pages !! n = Some p → aps s' !! i = Some (Up (wakes i p))) ∧
    (∀ j, j ∉ others l → aps s' !! j = aps s !! j) ∧
    accesses s' = accesses s ++ new ∧ ∀ hi, ipis hi new = mjoin (start_sequence <$> others l).
Proof.
  induction l as [|i l IH]; intros s pages Hok Hlen Hnd Hids Hst; cbn [start_each].
  { exists s, []. split_and!; [done|done|done|done|by rewrite app_nil_r|done]. }
  apply NoDup_cons in Hnd as [Hil Hnd].
  destruct (Hids i) as (Hn & Hi & Hid & Hoff); [by left|].
  unfold others in *. rewrite filter_cons in *. destruct (decide (i ≠ self)) as [Hne|Heq%dec_stable].
  - destruct pages as [|v pages]; [cbn in Hlen; lia|].
    destruct (start_one_ok img s v pages i Off Hok Hne Hn Hi Hid Hst (Hoff Hne) eq_refl) as (s1 & n1 & Hr1 & Hok1 & Hw1 & Hst1 & Ha1 & Hi1 & _).
    destruct (IH s1 pages Hok1 ltac:(cbn in Hlen; lia) Hnd) as (s2 & n2 & Hr2 & Hok2 & Hw2 & Hj2 & Ha2 & Hi2); [|done|].
    { intros j Hj. destruct (Hids j) as (? & ? & ? & Hjo); [by right|]. split_and!; [done|done|done|]. intros Hjs.
      rewrite Hw1, list_lookup_insert_ne by (intros ->; done). by apply Hjo. }
    assert (i ∉ filter (λ i, i ≠ self) l) as Hnot by (rewrite list_elem_of_filter; naive_solver).
    exists s2, (n1 ++ n2). split_and!.
    + by rewrite (bind_ok _ _ _ _ _ Hr1).
    + done.
    + intros [|n] j p Hj Hp; cbn in Hj, Hp; [|by apply (Hw2 n)]. injection Hj as <-. injection Hp as <-.
      rewrite Hj2, Hw1 by done. apply list_lookup_insert_eq. eapply lookup_lt_Some. by apply Hoff.
    + intros j Hj. rewrite Hj2, Hw1 by (by intros ?; apply Hj; right). apply list_lookup_insert_ne. intros ->. apply Hj. by left.
    + by rewrite Ha2, Ha1, <- app_assoc.
    + intros hi. destruct (ipis_app n1 hi n2) as (hi' & ->). by rewrite Hi1, Hi2.
  - subst i. destruct (IH (log_access (Rd LAPIC_ID) s) pages) as (s2 & n2 & Hr2 & Hok2 & Hw2 & Hj2 & Ha2 & Hi2);
      [split; apply Hok|done|done| | |].
    { intros j Hj. destruct (Hids j) as (? & ? & ? & ?); [by right|]. by split_and!. }
    { intros j q Hq. specialize (Hst j q Hq). destruct q; try done. cbn in Hst |- *. unfold sent in *.
      destruct (ipis_app (accesses s) 0 [Rd LAPIC_ID]) as (hi & ->). by rewrite app_nil_r. }
    exists s2, (Rd LAPIC_ID :: n2). split_and!; [|done|done|done| |done].
    + erewrite bind_ok; [exact Hr2|]. unfold start_one.
      rewrite (bind_ok _ _ _ _ _ (cpunum_run s (ao_lapic _ _ _ _ _ Hok))). by rewrite Z.eqb_refl.
    + rewrite Ha2. cbn. by rewrite <- app_assoc.
Qed.

(** C32: [startothers] sends every processor but the one it runs on, in order, the
    INIT and start-up interrupts for the page with the code, and returns when they
    are all up, however their steps fall between its own, as long as each makes its
    five steps within the [polls] looks at [started]: each has found below the code a
    stack of its own, fresh from the allocator, the address of [mpenter] and the
    kernel's first page table; the code itself stays in place. *)
Theorem startothers_wakes s pages :
  free_ok kend (ap_k s) pages → locks_ok L (ap_k s) → lapic s ≠ 0 → 
  0 ≤ image → image + image_size < 2 ^ 32 →
  (length (others (seq 0 ncpu)) ≤ length pages)%nat → (ncpu ≤ 256)%nat →
  (∀ i, (i < ncpu)%nat → ids !! i = Some (Z.of_nat i)) →
  aps s = replicate ncpu Off → (∀ i, sent (accesses s) i = false) →
  ∃ s' new, startothers lapic_read image image_size mpenter entrypgdir slots polls ids ncpu s = Ok tt s' ∧
    (∀ n i p, others (seq 0 ncpu) !! n = Some i → pages !! n = Some p → aps s' !! i = Some (Up (wakes i p))) ∧
    free_ok kend (ap_k s') (drop (length (others (seq 0 ncpu))) pages) ∧
    accesses s' = accesses s ++ new ∧ (∀ hi, ipis hi new = mjoin (start_sequence <$> others (seq 0 ncpu))) ∧
    ∀ x, 0 ≤ x < image_size → memory (ap_k s') (apcode + x) = memory (ap_k s) (image + x).
Proof.
  intros Hf HL Hlap Hi0 Hi1 Hlen Hn Hids Hoff Hsent. unfold startothers. rewrite apcode_eq. unfold ap_mem.
  rewrite (bind_ok _ _ _ _ _ (modify_ok _ _)).
  set (s1 := set_ap_memory _ s). set (img := λ x, memory (ap_k s) (image + x)).
  assert (∀ x, memory (ap_k s1) x = if inrange apcode image_size x then memory (ap_k s) (image + (x - apcode)) else memory (ap_k s) x)
    as Hm by (intros x; apply memmove_spec; done).
  assert (ap_ok kend L img s1 pages) as Hok.
  { split; [|done|done|].
    - apply (free_ok_low kend (ap_k s)); [done|]. intros x Hx. change (memory (ap_k s1) x = memory (ap_k s) x).
      rewrite Hm. unfold inrange. destruct (Z.leb_spec apcode x), (Z.ltb_spec x (apcode + image_size)); try done; lia.
    - intros x Hx. rewrite Hm. unfold inrange, img.
      destruct (Z.leb_spec apcode (apcode + x)), (Z.ltb_spec (apcode + x) (apcode + image_size)); try lia.
      cbn. f_equal. lia. }
  destruct (start_each_ok img (seq 0 ncpu) s1 pages Hok Hlen) as (s' & new & Hr & Hok' & Hw & _ & Ha & Hipi).
  { apply NoDup_seq. }
  { intros i [_ Hi]%elem_of_seq. split_and!; [lia|lia|apply Hids; lia|]. intros _. change (aps s1) with (aps s).
    rewrite Hoff, lookup_replicate_2 by lia. done. }
  { intros j q. change (aps s1) with (aps s). rewrite Hoff. intros [-> _]%lookup_replicate. apply Hsent. }
  exists s', new. split_and!; [done|done|apply Hok'|done|done|apply Hok'].
Qed.
End facts.

(** ** The local APIC of a processor *)

(** What was last written to a register. *)
Fixpoint written (h : list access) (i : Z) : option Z :=
  match h with
  | [] => None
  | Wr j v :: h => match written h i with Some w => Some w | None => if i =? j then Some v else None end
  | Rd _ :: h => written h i
  end.

Lemma written_app h1 h2 i : written (h1 ++ h2) i = match written h2 i with Some v => Some v | None => written h1 i end.
Proof.
  induction h1 as [|[j v|j] h1 IH]; cbn; [by destruct (written h2 i)| |done].
  rewrite IH. by destruct (written h2 i).
Qed.

Lemma written_reads n j i : written (replicate n (Rd j)) i = None.
Proof. by induction n. Qed.

Section init.
Context {B : Type} (lapic_read : list access → Z → Z).
Implicit Types s : apst B.

(** [s] after the accesses [h]. *)
Definition after_accesses (h : list access) s : apst B :=
  Apst (ap_k s) (lapic s) (accesses s ++ h) (ap_ports s) (aps s) (clock s).

Lemma after_after h1 h2 s : after_accesses h2 (after_accesses h1 s) = after_accesses (h1 ++ h2) s.
Proof. unfold after_accesses. cbn. by rewrite app_assoc. Qed.

Lemma lapicw_run i v s : lapicw lapic_read i v s = Ok tt (after_accesses [Wr i (u32 v); Rd LAPIC_ID] s).
Proof.
  transitivity (Ok tt (after_accesses [Rd LAPIC_ID] (after_accesses [Wr i (u32 v)] s))); [done|].
  by rewrite after_after.
Qed.

Lemma delivery_run n : ∀ polls s, (n < polls)%nat →
  Z.land (u32 (lapic_read (accesses s ++ replicate n (Rd LAPIC_ICRLO)) LAPIC_ICRLO)) DELIVS = 0 →
  ∃ m, while polls (λ u : unit, r ← lapicr lapic_read LAPIC_ICRLO;
      mret (if negb (Z.land r DELIVS =? 0) then inl u else inr u)) tt s =
    Ok tt (after_accesses (replicate m (Rd LAPIC_ICRLO)) s).
Proof.
  induction n as [|n IH]; intros [|polls] s Hn Hz; try lia; (erewrite while_ok by reflexivity).
  - cbn [replicate] in Hz. rewrite app_nil_r in Hz. rewrite Hz. exists 1%nat. done.
  - destruct (_ =? 0); [by exists 1%nat|]. cbn [negb].
    destruct (IH polls (log_access (Rd LAPIC_ICRLO) s)) as (m & E); [lia| |].
    + cbn [accesses log_access]. by rewrite <- app_assoc.
    + exists (S m). rewrite E. change (log_access (Rd LAPIC_ICRLO) s) with (after_accesses [Rd LAPIC_ICRLO] s).
      by rewrite after_after.
Qed.

(** [lapicinit] comes to an end once the interrupt it sends has been delivered, and
    leaves the unit on, the timer periodic at the timer's vector, the two
    lines masked and every interrupt let through. *)
Theorem lapicinit_timer polls s : lapic s ≠ 0 →
  (∀ h, ∃ n, (n < polls)%nat ∧ Z.land (u32 (lapic_read (h ++ replicate n (Rd LAPIC_ICRLO)) LAPIC_ICRLO)) DELIVS = 0) →
  ∃ s', lapicinit lapic_read polls s = Ok tt s' ∧ written (accesses s') LAPIC_SVR = Some (Z.lor ENABLE 63) ∧
    written (accesses s') LAPIC_TIMER = Some (Z.lor PERIODIC T_IRQ0) ∧ written (accesses s') LAPIC_TICR = Some 10000000 ∧
    written (accesses s') LAPIC_LINT0 = Some MASKED ∧ written (accesses s') LAPIC_LINT1 = Some MASKED ∧
    written (accesses s') LAPIC_ERROR = Some (T_IRQ0 + IRQ_ERR) ∧ written (accesses s') LAPIC_TPR = Some 0.
Proof.
  intros Hl Hd. unfold lapicinit. rewrite (bind_ok _ _ _ _ _ (gets_ok _ _)). apply Z.eqb_neq in Hl. rewrite Hl.
  do 6 rewrite (bind_ok _ _ _ _ _ (lapicw_run _ _ _)). erewrite bind_ok by reflexivity.
  match goal with |- context [log_access (Rd LAPIC_VER) ?x] => change (log_access (Rd LAPIC_VER) x) with (after_accesses [Rd LAPIC_VER] x) end.
  match goal with |- context [if ?c then lapicw lapic_read LAPIC_PCINT MASKED else mret tt] => destruct c eqn:Ec end;
    [rewrite (bind_ok _ _ _ _ _ (lapicw_run _ _ _))|erewrite bind_ok by reflexivity];
    do 6 rewrite (bind_ok _ _ _ _ _ (lapicw_run _ _ _)); rewrite !after_after;
    (match goal with |- context [after_accesses ?h s] => destruct (Hd (accesses s ++ h)) as (n & Hn & Hz);
       destruct (delivery_run n polls (after_accesses h s) Hn Hz) as (m & E) end);
    rewrite (bind_ok _ _ _ _ _ E), lapicw_run, !after_after; (eexists; split; [reflexivity|]);
    cbn [accesses after_accesses]; rewrite !written_app, !written_reads; done.
Qed.
End init.

(** Two processors, the first of them running; the other makes a step at every second
    moment. *)
Definition every_second (t : nat) : list nat := if Nat.even t then [0%nat; 1%nat] else [].

Lemma every_second_steps i t : (i < 2)%nat → (5 ≤ sum_list (steps_of every_second i <$> seq t 10))%nat.
Proof.
  intros Hi. unfold steps_of, every_second. cbn [seq fmap list_fmap sum_list].
  repeat rewrite ?Nat.even_succ, ?Nat.odd_succ. rewrite <- Nat.negb_even.
  destruct (Nat.even t), i as [|[|i]]; cbn; lia.
Qed.

Definition apst2 : apst pst := Apst kst1 0xFEE00000 [] [] [Off; Off] 0.

Lemma startothers_wakes_witness :
  ∃ s', startothers (λ _ _, 0) 0x80108000 64 0x80102000 0x80109000 every_second 10 [0; 1] 2 apst2 = Ok tt s' ∧
    aps s' = [Off; Up (Wakeup 1 0x80402000 0x80102000 0x109000)].
Proof.
  destruct (startothers_wakes (λ _ _, 0) 0x80108000 64 0x80102000 0x80109000 every_second 10 2 (Nat.lt_0_succ 9) every_second_steps
    0 (λ _, eq_refl) 0x80116000 ∅ [0; 1] ltac:(lia) ltac:(unfold apcode; lia) ltac:(lia) apst2 pool)
    as (s' & new & Hr & _); [exact pool_free|exact kst1_locks|done|lia|lia|vm_compute; lia|lia| |done|done|].
  - intros i Hi. destruct i as [|[|i]]; [reflexivity|reflexivity|lia].
  - exists s'. split; [exact Hr|]. vm_compute in Hr. by injection Hr as <-.
Defined.
